(* ===== verification/_CoqProject ===== *)
-Q . S2P
Prelude.v
GoStrings.v
Json.v
JsonFacts.v
Types.v
Codec.v
Streaming.v
Crypto.v
AnyJson.v
Regex.v
LogRedact.v
AppErrors.v
Program.v
Idempotency.v
IdempotencySafety.v
IdempotencySpec.v
IdempotencyRuns.v
GroupRoutes.v
Failover.v
FailoverSpec.v
Interleaving.v
PaymentData.v
Transactions.v
Decimals.v
PaymentCommands.v
Redeem.v
Payment.v
Refund.v
PaymentStore.v
PaymentSafety.v
PaymentSystem.v
RefundSafety.v
PaymentRuns.v
RefundRuns.v
RateSchedules.v
AnthropicGrammar.v
AnthropicToResponses.v
ResponsesToAnthropic.v
ResponsesToAnthropicSpec.v
AnthropicToResponsesResponse.v
AnthropicToResponsesSpec.v
ResponsesToChat.v
ResponsesToChatSpec.v
SseSpec.v
ChatToResponses.v
ResponsesToAnthropicRequest.v
RequestSpec.v
ConversationSpec.v
GeminiTypes.v
AntigravityResponse.v
AntigravityStream.v
AntigravityStreamSpec.v
AntigravitySpec.v
SchemaCleaner.v
SchemaReferences.v
SchemaCleanerSpec.v
AntigravityRequest.v
AntigravityRequestSpec.v
UsageBilling.v
UsageBillingSystem.v
UsageBillingSpec.v
UsageBillingRuns.v
ModelNames.v
PricingService.v
Channels.v
ChannelsSpec.v
BillingService.v
BillingSpec.v
FairCosts.v
UsageRecording.v
UsageRecordingSpec.v
UsageRecordingRuns.v
