(* ===== verification/Prelude.v ===== *)
(** * A verification of the ikik-api gateway backend

    The backend (src/backend, in Go) is a gateway to language-model providers:
    it translates between the Anthropic, OpenAI Responses and Chat Completions
    protocols, fails over between accounts and groups, deduplicates requests by
    idempotency keys, sells balance and subscriptions through payment orders,
    and keeps logs free of secrets.  This development models those parts as
    executable definitions, function by function, and proves what makes them
    correct, or shows where they are not.  Definitions keep the names of the
    sources; the paths below are relative to src/backend/internal.

    ** Foundations

    - [Prelude] (this file): 64-bit integers with wrap-around, errors, the state
      monad, record update.
    - [GoStrings]: strings as bytes, UTF-8, the functions of package strings.
    - [Json], [JsonFacts]: encoding/json, from the scanner to typed encoders and
      decoders, and what is written is read back.  [AnyJson]: values of type any
      and their canonical numbers.
    - [Regex], [Crypto]: the regular expressions that are used, SHA-256,
      and crypto/rand as a stream of bytes.
    - [Program]: code that talks to services is a tree of commands, run alone by
      a handler, or watched by a monitor that reads every possible run.
      [Interleaving]: any number of programs over a shared database; a program
      is allowed a command by what it has learned before ([knows]), and an
      invariant that every allowed command keeps holds in every interleaving;
      schedules run concrete interleavings.  [Ownership], a section of it, adds
      exclusive tokens, which a program gains and gives up by its commands.
    - [Streaming]: converters of event streams as state machines, runs and
      acceptors.
    - [Transactions]: the body of a database transaction, whose statements may
      fail and whose commit may be lost.
    - [AppErrors]: pkg/errors.

    ** Protocol translation (pkg/apicompat)

    [Types] and [Codec] are the wire types of types.go with the JSON forms their
    struct tags derive.  One file models each source file: [AnthropicToResponses],
    [ResponsesToAnthropic] (buffered and streaming), [AnthropicToResponsesResponse],
    [ResponsesToChat], [ChatToResponses], [ResponsesToAnthropicRequest].
    [AnthropicGrammar] states the protocol of an Anthropic stream.
    - Streams: [ResponsesToAnthropicSpec] and [AnthropicToResponsesSpec] prove that
      well-behaved upstream streams are emitted as grammatical streams of the
      other protocol (a simulation with the grammar's automaton), that messages
      are framed once, texts conserved and events numbered consecutively for any
      upstream, and exhibit the streams for which they fail.
      [ResponsesToChatSpec]: a streaming client rebuilds the buffered answer.
      [SseSpec]: the printed events are read back.
    - Requests: [RequestSpec] and [ConversationSpec] prove the round
      trips of parameters, tool choices, identifiers, images and whole
      conversations between the protocols, and what schemas become.

    ** Antigravity (pkg/antigravity)

    [GeminiTypes] are the structs of gemini_types.go and claude_types.go with
    their JSON.
    - [AntigravityResponse] (response_transformer.go) and [AntigravityStream]
      (stream_transformer.go) turn Gemini responses and streams into Claude's.
      [AntigravityStreamSpec] starts with a client, which follows the grammar and
      collects the blocks, and relates both processors to one reference that
      collects parts; [AntigravitySpec]: every stream in which nothing visible
      follows the finish reason is grammatical, and, if moreover no signed text
      follows an unsigned one, tells the client what the buffered conversion of
      the whole response says, up to cut texts and empty thinking blocks; and the
      responses for which they differ or fail.
    - [SchemaCleaner] (schema_cleaner.go): references, unions, combined schemas,
      constraints and types of a tool's parameters, over maps of type any.  The
      recursion over a document gets its height as fuel, which is proved enough.
      [SchemaReferences]: the expansion of references ends if they are acyclic
      and has no end if bare references (without sibling keys) go in a circle,
      so that the process dies of its stack.  [SchemaCleanerSpec]: what is
      cleaned is a schema the service accepts, apart from the gaps it exhibits.
    - [AntigravityRequest] (request_transformer.go): Claude's requests into
      Gemini's. [AntigravityRequestSpec]: every converted part is signed as the
      upstream asks, thinking is on exactly if it can be, results carry the name
      of the tool they answer, and the thinking budget respects the bounds of
      the model.

    ** Serving a request (handler, service)

    - [GroupRoutes] (handler/gateway_handler.go): the routes of
      an API key over groups and their circuit breaker; a request is offered
      exactly the usable routes in order of preference.
    - [Failover], [FailoverSpec] (handler/failover_loop.go and the loops of
      gateway_handler_chat_completions.go and gateway_handler_responses.go): one
      program over the services the loops call, written with fuel; for N accounts
      and M switches at most 3N+2M+1 turns per route are needed, so that fuel is
      proved enough whatever the services answer, with the bound on upstream
      calls.  A slot is taken for each call and given back exactly once: after
      it, or by the callback of handler/gateway_helper.go as soon as the request
      is canceled, even while the call goes on.  Usage is submitted once if the
      request is served; the pool may drop it.  Few failover errors do not fail
      a request; any other error ends it.
    - [Idempotency] (service/idempotency.go, repository/idempotency_repo.go,
      service/idempotency_cleanup_service.go), [IdempotencySafety],
      [IdempotencySpec], [IdempotencyRuns]: the coordinator as
      a program over the SQL statements; in every interleaving with other requests
      and cleanups, executions of one key do not overlap and succeed at most once
      while no record expires; the replay, the refusals, the retry hints; and the
      run in which an expired record is executed twice.
    - [LogRedact] (util/logredact/redact.go): documents and free
      text; what is logged of a document has three stars for its secrets and the
      text of the depth limit beyond 32 levels, and depends on neither.

    ** Payments (service, payment, repository)

    - [PaymentData]: float64 arithmetic (IEEE 754 through SpecFloat), currencies
      (payment/currency.go), orders, conditions and changes of UPDATE statements,
      redeem codes.  [Decimals] (payment/currency.go, amount.go, fee.go,
      service/payment_amounts.go): amounts over the decimal package, which is an
      interface, with an instance over rationals for concrete runs.
      [PaymentCommands]: the statements and calls the programs issue.
    - [Redeem] (service/redeem_service.go), [Payment]
      (service/payment_fulfillment.go, payment_order_lifecycle.go,
      payment_order.go), [PaymentCommands] (payment_order_provider_snapshot.go
      and the lookups of payment_refund.go), [Refund] (payment_refund.go): every
      operation as a program.
    - [PaymentStore] (with repository/redeem_code_repo.go): the tables and what a
      command may answer: any statement may fail before or after it took effect,
      audit entries may be lost.
    - [PaymentSafety], [PaymentSystem]: in every interleaving, refunds included, an
      order's code pays into a balance at most once, only for a paid order and its
      amount, exactly once if the order is completed or in a refund state.  The
      proof gives each command a guard over the facts a program has learned (the
      order's row, that it is paid, that its code is used).
    - [RefundSafety]: in every interleaving without finalizations an order, not of
      the shop, is refunded at most once; the status REFUNDING is a lock, held as a
      token.  [RefundRuns]: what an undisturbed refund does; that the retry of a
      pending refund takes nothing from the balance and its finalization the whole
      amount, again after a failure; and a run in which a finalization breaks the
      lock.
    - [PaymentRuns]: a handler whose runs are runs of the system; a retry in which
      nothing fails completes any balance order that is paid or failed, whatever was
      left behind; and a run that grants a subscription twice.
    - [RateSchedules] (service/group_rate_schedule.go,
      repository/group_rate_schedule_repo.go): accepted schedules never overlap;
      SQL statements carry their placeholders and arguments, and none of those
      that store or apply a schedule can succeed.

    ** Billing the usage (service/usage_billing.go, repository)

    - [UsageBilling] (repository/usage_billing_repo.go, wallet_buckets.go, parts
      of usage_log_repo.go, scheduler_outbox_repo.go and
      dashboard_aggregation_repo.go): the transaction that bills a request - the
      key, the usage log, wallets, ledgers, quotas and the settlement with the
      owner of a shared account - over DECIMAL columns, which are an interface,
      and the cleanup of old keys.
    - [UsageBillingSystem]: in every interleaving of billings and cleanups a
      request is billed at most once.  [UsageBillingSpec]: what a known key gets,
      the division of charges, and the charges that are never made.  Balances and
      ledger change together, by at most four moves, each due and each with its
      entry for the usage log of the request.  [UsageBillingRuns]:
      concrete billings, with columns of eight places.

    ** Prices, costs and the recording of usage (service)

    - [ModelNames] (openai_model_alias.go, openai_codex_transform.go): the spellings
      of models.  [PricingService] (pricing_service.go): the entries
      of the price file and the lookup of a model.  Ranging over a map meets the
      entries in an order the runtime chooses, which is a parameter: the prices
      that are found in some order are said step by step, from the spellings of
      the model to its family, and which entry of a family it is may depend on
      the order.
    - [Channels], [ChannelsSpec] (channel.go, channel_service.go): the validation of
      a configuration and the snapshot built from all channels; for accepted
      configurations every lookup answers what the configuration says, in
      whatever order maps are ranged over.
    - [BillingService], [BillingSpec] (billing_service.go,
      model_pricing_resolver.go): the table of fallback prices as a store of
      shared entries, the resolver and every calculation in doubles; the unified
      calculation agrees with the older one where no channel has a price for the
      model in the group, and a channel's prices are written into the shared
      table, where all groups see them. The cost for the statistics of accounts
      (account_stats_pricing.go) is there as well.  [FairCosts]: as long as file
      and channels set no negative price, no lookup, override or calculation
      gives anything negative. Token counts are taken to be below 2^60, so that
      sums of them do not wrap.
    - [UsageRecording] (gateway_service.go, openai_gateway_service.go,
      user_group_rate_resolver.go, usage_log_helpers.go): RecordUsage of both
      gateways as programs: rate, cost, usage log, billing command and what is
      told to the caches.  [UsageRecordingSpec]: in every
      interleaving the commands charge what their log says, to the subscription or
      the wallet, with the commission of a private group on a subscription, each
      request once, and nothing negative is charged or written;
      a missing subscription is refused.  [UsageRecordingRuns]: concrete recordings.

    ** What is assumed

    The database executes a statement, or a transaction, atomically.  What the
    code gets from outside src/ (the clock, providers, upstream services, the
    caches, implicit conversions of SQL values) is an answer of a command or a
    parameter.  Times are integers (nanoseconds).  [strings.ToLower] leaves
    letters beyond ASCII alone, but for the two whose small letters are ASCII:
    names of models, and made-up types of schemas, that differ only in such
    capitals are different here and the same in Go.

    ** Not modelled

    - Of the payment service: the preparation of an order (limits, provider
      selection by limits), statistics; the shop's delivery is a command.
    - Of prices and channels: the download and refresh of the price file, the
      loading and administration of channels, listings of supported models.
    - Of billing: the path without a billing repository, the statements for
      SQLite, the metadata of ledger entries, the calendar of fixed quota periods,
      reports, the texts of notifications.
    - Account scheduling, concurrency slots and rate limits: their decisions are
      made by scripts and caches in Redis.
    - The translator to Kiro, the HTTP and OAuth clients of the providers, and the
      Messages and Gemini loops of the handlers, which mix I/O of many services
      with the rules modelled for the other loops.
    - HTTP handlers and middleware, OAuth flows, settings, repositories of plain
      reads and writes, generated code (ent), the frontend and deployment: I/O and
      glue. *)

From Stdlib Require Export ZArith Lia Ascii.
From Stdlib Require String.
From stdpp Require Export base tactics list gmap strings fin_maps pretty.
#[export] Set Warnings "-notation-overridden,-register-all,-postfix-notation-not-level-1".

#[global] Arguments String.append !_ _ / : simpl nomatch.

(** Equality tests of Go strings, as the [switch] and [==] of the sources. *)
Infix "=s?" := String.eqb (at level 70, no associativity) : stdpp_scope.
Notation "s <>s? t" := (negb (String.eqb s t)) (at level 70, no associativity) : stdpp_scope.

Open Scope Z_scope.

(** ** Machine integers

    Go's [int] and [int64] are 64-bit two's complement on every platform the
    gateway is built for; a value is a [Z] and arithmetic wraps. *)

Definition wrap64 (z : Z) : Z := (z + 2 ^ 63) `mod` 2 ^ 64 - 2 ^ 63.
Definition add64 (a b : Z) : Z := wrap64 (a + b).
Definition sub64 (a b : Z) : Z := wrap64 (a - b).
Definition mul64 (a b : Z) : Z := wrap64 (a * b).
Definition int64_range (z : Z) : Prop := - 2 ^ 63 <= z < 2 ^ 63.

Definition min_int64 : Z := - 2 ^ 63.
Definition max_int64 : Z := 2 ^ 63 - 1.

Lemma wrap64_id z : int64_range z -> wrap64 z = z.
Proof. unfold int64_range, wrap64. intros H. rewrite Z.mod_small; lia. Qed.

Lemma wrap64_range z : int64_range (wrap64 z).
Proof. unfold int64_range, wrap64. pose proof (Z.mod_pos_bound (z + 2 ^ 63) (2 ^ 64)). lia. Qed.

Lemma wrap64_congr a b : (a - b) `mod` 2 ^ 64 = 0 -> wrap64 a = wrap64 b.
Proof.
  unfold wrap64. intros H. f_equal.
  replace (a + 2 ^ 63) with ((b + 2 ^ 63) + (a - b)) by lia.
  rewrite Z.add_mod, H, Z.add_0_r, Z.mod_mod by lia. done.
Qed.

Lemma sub64_add64 z : int64_range z -> sub64 (add64 z 1) 1 = z.
Proof.
  intros H. unfold sub64, add64. rewrite <- (wrap64_id z) at 2 by done. apply wrap64_congr.
  unfold wrap64. pose proof (Z.div_mod (z + 1 + 2 ^ 63) (2 ^ 64)).
  replace (_ - z) with (- (2 ^ 64 * ((z + 1 + 2 ^ 63) / 2 ^ 64))) by lia.
  rewrite Z.mod_opp_l_z; [done | lia | rewrite Z.mul_comm; apply Z.mod_mul; lia].
Qed.

Lemma add64_wrap a b : add64 (wrap64 a) b = wrap64 (a + b).
Proof.
  unfold add64. apply wrap64_congr. unfold wrap64 at 1. pose proof (Z.div_mod (a + 2 ^ 63) (2 ^ 64)).
  replace (_ - (a + b)) with (- (2 ^ 64 * ((a + 2 ^ 63) / 2 ^ 64))) by lia.
  rewrite Z.mod_opp_l_z; [done | lia | rewrite Z.mul_comm; apply Z.mod_mul; lia].
Qed.

Lemma add64_id a b : int64_range (a + b) -> add64 a b = a + b.
Proof. apply wrap64_id. Qed.

Lemma sub64_id a b : int64_range (a - b) -> sub64 a b = a - b.
Proof. apply wrap64_id. Qed.

(** ** Errors

    A Go [error] is a non-nil interface value; the code under [src/] only
    tests it against nil, wraps it ([fmt.Errorf] with [%w]) or compares it
    with a sentinel, so an error is its message with the chain it wraps. *)

Inductive go_error : Type :=
| ErrMsg (msg : string)
| ErrWrap (context : string) (inner : go_error).

#[export] Instance go_error_eq_dec : EqDecision go_error.
Proof. solve_decision. Defined.

Inductive result (A : Type) : Type :=
| Ok (a : A)
| Err (e : go_error).
Arguments Ok {A} a.
Arguments Err {A} e.

#[export] Instance result_ret : MRet result := fun A a => Ok a.
#[export] Instance result_bind : MBind result := fun A B f r =>
  match r with Ok a => f a | Err e => Err e end.
#[export] Instance result_fmap : FMap result := fun A B f r =>
  match r with Ok a => Ok (f a) | Err e => Err e end.

Definition wrap_err {A} (context : string) (r : result A) : result A :=
  match r with Ok a => Ok a | Err e => Err (ErrWrap context e) end.

Definition is_some {A} (o : option A) : bool := match o with Some _ => true | None => false end.

Definition is_ok {A} (r : result A) : bool :=
  match r with Ok _ => true | Err _ => false end.

(** What Go's [v, _ := f()] keeps of a failed call: the zero value. *)
Definition or_zero {A} (zero : A) (r : result A) : A :=
  match r with Ok a => a | Err _ => zero end.

(** ** State monad *)

Definition ST (S A : Type) : Type := S -> A * S.
#[export] Instance st_ret S : MRet (ST S) := fun A a s => (a, s).
#[export] Instance st_bind S : MBind (ST S) := fun A B f m s =>
  let '(a, s') := m s in f a s'.
Definition st_get {S} : ST S S := fun s => (s, s).
Definition st_modify {S} (f : S -> S) : ST S unit := fun s => (tt, f s).
Definition st_gets {S A} (f : S -> A) : ST S A := fun s => (f s, s).

(** ** Record update

    [r <| field := v |>] is [r] with one field replaced. A record declares
    its eta expansion as an instance of [Settable]; the setter of a
    projection is found by abstracting that projection in the expansion. *)

Class Settable (R : Type) := eta_expand : R -> R.
Class Setter {R E : Type} (proj : R -> E) := mkSetter {
  set_field : (E -> E) -> R -> R;
  set_field_get : forall f r, proj (set_field f r) = f (proj r)
}.
Arguments set_field {R E} proj {_} f r.

Ltac solve_setter :=
  match goal with
  | |- @Setter ?R ?E ?proj =>
      let eta := constr:(_ : Settable R) in
      let setter := constr:(fun (f : E -> E) (r : R) => ltac:(
        let body := eval hnf in (eta r) in
        match eval pattern (proj r) in body with
        | ?F _ => let t := eval cbv beta in (F (f (proj r))) in exact t
        end)) in
      exact (mkSetter R E proj setter (fun f r => eq_refl))
  end.

#[export] Hint Extern 1 (Setter _) => solve_setter : typeclass_instances.

Declare Scope record_scope.
Open Scope record_scope.
Notation "r <| field := v |>" := (set_field field (fun _ => v) r)
  (at level 12, left associativity, format "r  <|  field  :=  v  |>") : record_scope.

