(* ===== verification/GoStrings.v ===== *)
(** * Go strings: bytes, UTF-8 and the functions of package [strings]

    A Go [string] is a sequence of bytes, a Rocq [string] a sequence of
    8-bit [ascii]; nothing forces either to be valid UTF-8.  This file holds
    the functions of Go's [strings], [unicode/utf8], [unicode/utf16] and
    [encoding/hex] the gateway calls, with the lemmas the components share. *)

From S2P Require Import Prelude.

(** ** Bytes *)

Definition byte_val (c : ascii) : Z := Z.of_N (N_of_ascii c).
Definition byte_of (z : Z) : ascii := ascii_of_N (Z.to_N z).
Definition in_range (lo hi : Z) (c : ascii) : bool := (lo <=? byte_val c) && (byte_val c <=? hi).

Definition dquote : ascii := "034"%char.
Definition backslash : ascii := "092"%char.
Definition newline : ascii := "010"%char.

(** A text written with [']: every [']  stands for a double quote. *)
Fixpoint dq (s : string) : string :=
  match s with
  | EmptyString => EmptyString
  | String c s' => String (if Ascii.eqb c "'"%char then dquote else c) (dq s')
  end.

(** ** Package strings *)

Fixpoint drop_bytes (n : nat) (s : string) : string :=
  match n, s with
  | O, _ => s
  | S _, EmptyString => EmptyString
  | S n', String _ s' => drop_bytes n' s'
  end.

(** [strings.HasPrefix(s, p)] *)
Fixpoint has_prefix (s p : string) {struct p} : bool :=
  match p, s with
  | EmptyString, _ => true
  | String _ _, EmptyString => false
  | String c p', String a s' => Ascii.eqb a c && has_prefix s' p'
  end.

(** [strings.CutPrefix(s, p)]: the rest when [p] is a prefix. *)
Definition cut_prefix (s p : string) : option string :=
  if has_prefix s p then Some (drop_bytes (String.length p) s) else None.

(** [strings.TrimPrefix(s, p)] *)
Definition trim_prefix (s p : string) : string := default s (cut_prefix s p).

(** [i := strings.Index(s, c)] for a one-byte [c], given as [(s[:i], s[i+1:])]. *)
Fixpoint cut_byte (c : ascii) (s : string) : option (string * string) :=
  match s with
  | EmptyString => None
  | String a s' =>
      if Ascii.eqb a c then Some (EmptyString, s')
      else '(l, r) ← cut_byte c s'; Some (String a l, r)
  end.

(** [strings.Join(parts, sep)] *)
(** [strings.Split] by a separator of one byte. *)
Fixpoint split_byte (c : ascii) (s : string) : list string :=
  match s with
  | EmptyString => [EmptyString]
  | String a s =>
      if Ascii.eqb a c then EmptyString :: split_byte c s
      else match split_byte c s with
           | h :: t => String a h :: t
           | [] => [String a EmptyString]
           end
  end.

Definition join (parts : list string) (sep : string) : string := String.concat sep parts.

Fixpoint string_rev_onto (s acc : string) : string :=
  match s with
  | EmptyString => acc
  | String c s' => string_rev_onto s' (String c acc)
  end.
Definition string_rev (s : string) : string := string_rev_onto s EmptyString.

(** [unicode.IsSpace] on the encodings of one, two and three bytes: the
    ASCII blanks, U+0085, U+00A0, U+1680, U+2000-U+200A, U+2028, U+2029,
    U+202F, U+205F and U+3000. *)
Definition space1 (a : ascii) : bool := in_range 9 13 a || (byte_val a =? 32).
Definition space2 (a b : ascii) : bool :=
  (byte_val a =? 0xC2) && ((byte_val b =? 0x85) || (byte_val b =? 0xA0)).
Definition space3 (a b c : ascii) : bool :=
  ((byte_val a =? 0xE1) && (byte_val b =? 0x9A) && (byte_val c =? 0x80)) ||
  ((byte_val a =? 0xE2) && (byte_val b =? 0x80) &&
     (in_range 0x80 0x8A c || in_range 0xA8 0xA9 c || (byte_val c =? 0xAF))) ||
  ((byte_val a =? 0xE2) && (byte_val b =? 0x81) && (byte_val c =? 0x9F)) ||
  ((byte_val a =? 0xE3) && (byte_val b =? 0x80) && (byte_val c =? 0x80)).

Fixpoint trim_left (s : string) : string :=
  match s with
  | EmptyString => EmptyString
  | String a s1 =>
      if space1 a then trim_left s1 else
      match s1 with
      | EmptyString => s
      | String b s2 =>
          if space2 a b then trim_left s2 else
          match s2 with
          | EmptyString => s
          | String c s3 => if space3 a b c then trim_left s3 else s
          end
      end
  end.

(** The same on a reversed string, where an encoding stands backwards. *)
Fixpoint trim_left_rev (s : string) : string :=
  match s with
  | EmptyString => EmptyString
  | String a s1 =>
      if space1 a then trim_left_rev s1 else
      match s1 with
      | EmptyString => s
      | String b s2 =>
          if space2 b a then trim_left_rev s2 else
          match s2 with
          | EmptyString => s
          | String c s3 => if space3 c b a then trim_left_rev s3 else s
          end
      end
  end.

Definition trim_right (s : string) : string := string_rev (trim_left_rev (string_rev s)).

(** [strings.TrimSpace(s)] *)
Definition trim_space (s : string) : string := trim_right (trim_left s).

(** ** Package unicode/utf8 *)

Definition cont (c : ascii) : bool := in_range 0x80 0xBF c.
Definition utf8_1 (a : ascii) : bool := byte_val a <? 0x80.
Definition utf8_2 (a b : ascii) : bool := in_range 0xC2 0xDF a && cont b.
Definition utf8_3 (a b c : ascii) : bool :=
  (((byte_val a =? 0xE0) && in_range 0xA0 0xBF b) ||
   ((in_range 0xE1 0xEC a || in_range 0xEE 0xEF a) && cont b) ||
   ((byte_val a =? 0xED) && in_range 0x80 0x9F b)) && cont c.
Definition utf8_4 (a b c d : ascii) : bool :=
  (((byte_val a =? 0xF0) && in_range 0x90 0xBF b) ||
   (in_range 0xF1 0xF3 a && cont b) ||
   ((byte_val a =? 0xF4) && in_range 0x80 0x8F b)) && cont c && cont d.

(** [utf8.ValidString] *)
Fixpoint valid_utf8 (s : string) : bool :=
  match s with
  | EmptyString => true
  | String a s1 =>
      if utf8_1 a then valid_utf8 s1 else
      match s1 with
      | EmptyString => false
      | String b s2 =>
          if utf8_2 a b then valid_utf8 s2 else
          match s2 with
          | EmptyString => false
          | String c s3 =>
              if utf8_3 a b c then valid_utf8 s3 else
              match s3 with
              | EmptyString => false
              | String d s4 => utf8_4 a b c d && valid_utf8 s4
              end
          end
      end
  end.

(** U+FFFD, what an invalid byte decodes to. *)
Definition replacement : string := String (byte_of 0xEF) (String (byte_of 0xBF) (String (byte_of 0xBD) EmptyString)).

(** [utf8.EncodeRune] for a code point that is not a surrogate. *)
Definition encode_rune (r : Z) : string :=
  if r <? 0x80 then String (byte_of r) EmptyString
  else if r <? 0x800 then
    String (byte_of (0xC0 + r / 64)) (String (byte_of (0x80 + r `mod` 64)) EmptyString)
  else if r <? 0x10000 then
    String (byte_of (0xE0 + r / 4096)) (String (byte_of (0x80 + (r / 64) `mod` 64))
      (String (byte_of (0x80 + r `mod` 64)) EmptyString))
  else
    String (byte_of (0xF0 + r / 262144)) (String (byte_of (0x80 + (r / 4096) `mod` 64))
      (String (byte_of (0x80 + (r / 64) `mod` 64)) (String (byte_of (0x80 + r `mod` 64)) EmptyString))).

Definition is_high_surrogate (r : Z) : bool := (0xD800 <=? r) && (r <? 0xDC00).
Definition is_low_surrogate (r : Z) : bool := (0xDC00 <=? r) && (r <? 0xE000).
Definition is_surrogate (r : Z) : bool := (0xD800 <=? r) && (r <? 0xE000).

(** [utf16.DecodeRune] of a high and a low surrogate. *)
Definition decode_surrogates (r1 r2 : Z) : Z := (r1 - 0xD800) * 1024 + (r2 - 0xDC00) + 0x10000.

(** ** Package encoding/hex *)

Definition hex_digit (n : Z) : ascii := byte_of (if n <? 10 then 48 + n else 87 + n).

Fixpoint hex_encode (s : string) : string :=
  match s with
  | EmptyString => EmptyString
  | String c s' => String (hex_digit (byte_val c / 16)) (String (hex_digit (byte_val c `mod` 16)) (hex_encode s'))
  end.

(** The value of a hexadecimal digit of either case. *)
Definition hex_val (c : ascii) : option Z :=
  if in_range 48 57 c then Some (byte_val c - 48)
  else if in_range 97 102 c then Some (byte_val c - 87)
  else if in_range 65 70 c then Some (byte_val c - 55)
  else None.

Definition hex4 (a b c d : ascii) : option Z :=
  a ← hex_val a; b ← hex_val b; c ← hex_val c; d ← hex_val d;
  Some (((a * 16 + b) * 16 + c) * 16 + d).

Fixpoint all_bytes (p : ascii -> bool) (s : string) : bool :=
  match s with String c s => p c && all_bytes p s | EmptyString => true end.

Definition in_list (s : string) (l : list string) : bool := existsb (String.eqb s) l.

(** [strings.Contains]. *)
Definition contains (s sub : string) : bool := is_some (String.index 0 sub s).

(** ** Lemmas *)

Lemma all_bytes_app p a b : all_bytes p (a +:+ b) = all_bytes p a && all_bytes p b.
Proof. induction a as [|c a IH]; [done|]. cbn [String.append all_bytes]. rewrite IH. by rewrite andb_assoc. Qed.

Lemma byte_val_range c : 0 <= byte_val c < 256.
Proof.
  unfold byte_val. pose proof (N_ascii_bounded c). lia.
Qed.

Lemma byte_val_inj a b : byte_val a = byte_val b -> a = b.
Proof.
  unfold byte_val. intros H.
  rewrite <- (ascii_N_embedding a), <- (ascii_N_embedding b). f_equal. lia.
Qed.

Lemma byte_of_val c : byte_of (byte_val c) = c.
Proof. unfold byte_of, byte_val. rewrite N2Z.id. apply ascii_N_embedding. Qed.

Lemma byte_val_of z : 0 <= z < 256 -> byte_val (byte_of z) = z.
Proof.
  intros H. unfold byte_of, byte_val. rewrite N_ascii_embedding; lia.
Qed.

(** Induction on the decoding of a byte string. *)
Lemma utf8_ind (P : string -> Prop) :
  P EmptyString ->
  (forall a s, utf8_1 a = true -> P s -> P (String a s)) ->
  (forall a b s, utf8_1 a = false -> utf8_2 a b = true -> P s -> P (String a (String b s))) ->
  (forall a b c s, utf8_1 a = false -> utf8_2 a b = false -> utf8_3 a b c = true -> P s ->
     P (String a (String b (String c s)))) ->
  (forall a b c d s, utf8_1 a = false -> utf8_2 a b = false -> utf8_3 a b c = false ->
     utf8_4 a b c d = true -> P s -> P (String a (String b (String c (String d s))))) ->
  forall s, valid_utf8 s = true -> P s.
Proof.
  intros H0 H1 H2 H3 H4 s.
  remember (String.length s) as n eqn:En. assert (Hn : (String.length s <= n)%nat) by lia. clear En.
  revert s Hn. induction n as [|n IH]; intros s Hn Hv.
  { destruct s; [assumption | cbn in Hn; lia]. }
  destruct s as [|a s1]; [assumption|]. cbn in Hn, Hv.
  destruct (utf8_1 a) eqn:E1; [apply H1; auto with lia|].
  destruct s1 as [|b s2]; [discriminate|]. cbn in Hn.
  destruct (utf8_2 a b) eqn:E2; [apply H2; auto with lia|].
  destruct s2 as [|c s3]; [discriminate|]. cbn in Hn.
  destruct (utf8_3 a b c) eqn:E3; [apply H3; auto with lia|].
  destruct s3 as [|d s4]; [discriminate|]. cbn in Hn.
  apply andb_true_iff in Hv as [E4 Hv]. apply H4; auto with lia.
Qed.

Lemma string_app_nil_r (s : string) : s +:+ "" = s.
Proof. induction s; cbn; [done | by f_equal]. Qed.

Lemma string_app_assoc (a b c : string) : (a +:+ b) +:+ c = a +:+ (b +:+ c).
Proof. induction a; cbn; [done | by f_equal]. Qed.

Lemma drop_bytes_app (p s : string) : drop_bytes (String.length p) (p +:+ s) = s.
Proof. induction p; [by destruct s | exact IHp]. Qed.

Lemma has_prefix_app (p s : string) : has_prefix (p +:+ s) p = true.
Proof. induction p as [|c p IH]; cbn; [done|]. by rewrite Ascii.eqb_refl. Qed.

Lemma has_prefix_inv s p : has_prefix s p = true -> exists r, s = p +:+ r.
Proof.
  revert s. induction p as [|c p IH]; intros s H; cbn in *; [by exists s|].
  destruct s as [|a s]; [discriminate|].
  apply andb_true_iff in H as [E H]. apply Ascii.eqb_eq in E as ->.
  destruct (IH _ H) as [r ->]. by exists r.
Qed.

Lemma cut_prefix_app (p s : string) : cut_prefix (p +:+ s) p = Some s.
Proof. unfold cut_prefix. by rewrite has_prefix_app, drop_bytes_app. Qed.

Lemma cut_prefix_Some s p r : cut_prefix s p = Some r -> s = p +:+ r.
Proof.
  unfold cut_prefix. destruct (has_prefix s p) eqn:E; [|done].
  apply has_prefix_inv in E as [q ->]. rewrite drop_bytes_app. congruence.
Qed.

Lemma cut_prefix_None s p : cut_prefix s p = None <-> has_prefix s p = false.
Proof. unfold cut_prefix. by destruct (has_prefix s p). Qed.

Lemma trim_prefix_app (p s : string) : trim_prefix (p +:+ s) p = s.
Proof. unfold trim_prefix. by rewrite cut_prefix_app. Qed.

Lemma string_app_inj_l (p a b : string) : p +:+ a = p +:+ b -> a = b.
Proof. induction p; cbn; [done | intros [= H]; auto]. Qed.

(** ** Trimming *)

Lemma trim_left_head c s : space1 c = false -> utf8_1 c = true -> trim_left (String c s) = String c s.
Proof.
  intros H1 H2. cbn [trim_left]. rewrite H1. destruct s as [|b s]; [done|].
  assert (space2 c b = false) as ->.
  { unfold space2. destruct (byte_val c =? 0xC2) eqn:E; [|done]. unfold utf8_1 in H2. lia. }
  destruct s as [|d s]; [done|]. assert (space3 c b d = false) as ->; [|done].
  unfold space3. unfold utf8_1 in H2. destruct (byte_val c =? 0xE1) eqn:E1; [lia|].
  destruct (byte_val c =? 0xE2) eqn:E2; [lia|]. destruct (byte_val c =? 0xE3) eqn:E3; [lia|]. done.
Qed.

Lemma string_rev_onto_app a b acc : string_rev_onto (a +:+ b) acc = string_rev_onto b (string_rev_onto a acc).
Proof. revert acc. induction a as [|c a IH]; intros acc; [done | apply IH]. Qed.

Lemma string_rev_onto_spec a acc : string_rev_onto a acc = string_rev a +:+ acc.
Proof.
  unfold string_rev. revert acc. induction a as [|c a IH]; intros acc; [done|]. cbn [string_rev_onto].
  rewrite IH, (IH (String c "")), string_app_assoc. done.
Qed.

Lemma string_rev_snoc a c : string_rev (a +:+ String c "") = String c (string_rev a).
Proof. unfold string_rev at 1. rewrite string_rev_onto_app. done. Qed.

Lemma string_rev_cons c a : string_rev (String c a) = string_rev a +:+ String c "".
Proof. unfold string_rev at 1. cbn [string_rev_onto]. apply string_rev_onto_spec. Qed.

Lemma string_rev_involutive a : string_rev (string_rev a) = a.
Proof. induction a as [|c a IH]; [done|]. by rewrite string_rev_cons, string_rev_snoc, IH. Qed.

Lemma trim_left_rev_head c s : space1 c = false -> utf8_1 c = true -> trim_left_rev (String c s) = String c s.
Proof.
  intros H1 H2. unfold utf8_1 in H2. cbn [trim_left_rev]. rewrite H1. destruct s as [|b s]; [done|].
  assert (space2 b c = false) as ->.
  { unfold space2. destruct (byte_val c =? 0x85) eqn:E; [lia|]. destruct (byte_val c =? 0xA0) eqn:E'; [lia|].
    by rewrite andb_false_r. }
  destruct s as [|d s]; [done|]. assert (space3 d b c = false) as ->; [|done].
  unfold space3, in_range. destruct (byte_val c =? 0x80) eqn:E1; [lia|]. destruct (byte_val c =? 0xAF) eqn:E2; [lia|].
  destruct (byte_val c =? 0x9F) eqn:E3; [lia|]. destruct (0x80 <=? byte_val c) eqn:E4; [lia|].
  destruct (0xA8 <=? byte_val c) eqn:E5; [lia|]. cbn. by rewrite !andb_false_r.
Qed.

(** A text that ends in an ASCII byte that is not a blank keeps that byte. *)
Lemma trim_left_snoc c : space1 c = false -> utf8_1 c = true ->
  forall s, exists q, trim_left (s +:+ String c "") = q +:+ String c "".
Proof.
  intros H1 H2 s. remember (String.length s) as n eqn:En. revert s En.
  induction n as [n IH] using lt_wf_ind. intros s En. destruct s as [|a s1].
  { exists "". cbn [String.append]. by rewrite trim_left_head. }
  cbn [String.append trim_left]. destruct (space1 a); [eapply IH; [|done]; cbn in En; lia|].
  destruct s1 as [|b s2]; cbn [String.append].
  { assert (space2 a c = false) as ->; [|by exists (String a "")].
    unfold space2, utf8_1 in *. destruct (byte_val c =? 0x85) eqn:?, (byte_val c =? 0xA0) eqn:?; lia. }
  destruct (space2 a b); [eapply IH; [|done]; cbn in En; lia|].
  destruct s2 as [|d s3]; cbn [String.append].
  { assert (space3 a b c = false) as ->; [|by exists (String a (String b ""))].
    unfold space3, in_range, utf8_1 in *. lia. }
  destruct (space3 a b d); [eapply IH; [|done]; cbn in En; lia|].
  by exists (String a (String b (String d s3))).
Qed.

Lemma trim_space_snoc c s : space1 c = false -> utf8_1 c = true -> exists q, trim_space (s +:+ String c "") = q +:+ String c "".
Proof.
  intros H1 H2. destruct (trim_left_snoc c H1 H2 s) as [q E]. exists q. unfold trim_space, trim_right.
  rewrite E, string_rev_snoc, trim_left_rev_head, <- string_rev_snoc by done. apply string_rev_involutive.
Qed.

Lemma last_byte (p : ascii -> bool) l : all_bytes p l = true -> l <> "" -> exists q x, l = q +:+ String x "" /\ p x = true.
Proof.
  induction l as [|c l IH]; [done|]. cbn [all_bytes]. intros [Hc Hl]%andb_true_iff _.
  destruct l as [|d l]; [by exists "", c|]. destruct (IH Hl) as (q & x & E & Hx); [done|].
  exists (String c q), x. by rewrite E.
Qed.

Lemma trim_space_none s : all_bytes (fun c => negb (space1 c) && utf8_1 c) s = true -> trim_space s = s.
Proof.
  intros H. destruct (decide (s = "")) as [->|Hne]; [done|]. destruct (last_byte _ _ H Hne) as (q & x & -> & [Hx Hx']%andb_prop).
  assert (Hl : trim_left (q +:+ String x "") = q +:+ String x "").
  { destruct q as [|a q]; cbn [String.append all_bytes] in H |- *; apply andb_prop in H as [[Ha%negb_true_iff Ha']%andb_prop _].
    - by apply trim_left_head.
    - by apply trim_left_head. }
  apply negb_true_iff in Hx. unfold trim_space, trim_right.
  rewrite Hl, string_rev_snoc, trim_left_rev_head, <- string_rev_snoc by done. apply string_rev_involutive.
Qed.
