(* ===== verification/Json.v ===== *)
(** * Package encoding/json

    The part of Go's [encoding/json] the gateway relies on: the scanner (a
    document is syntactically valid or it is not), [Unmarshal] into structs,
    slices, pointers, strings, booleans, integers and [RawMessage], and
    [Marshal] of the same, with HTML escaping on.

    A document is kept as a tree of {e tokens}: a number or a string holds
    the bytes of its literal, an array or object also the text it was read
    from, because a [RawMessage] is that text.  [parse] reads a text, [print]
    writes a tree without blanks; [JsonFacts] proves that they agree. *)

From S2P Require Import Prelude GoStrings.

(** ** Documents *)

Inductive jval : Type :=
| JNull
| JBool (b : bool)
| JNum (lit : string)
| JStr (lit : string)                         (* the bytes between the quotes *)
| JArr (raw : string) (es : list jval)
| JObj (raw : string) (ms : list (string * jval)). (* keys are literals too *)

Definition quoted (lit : string) : string := String dquote (lit +:+ String dquote EmptyString).

Fixpoint print (t : jval) : string :=
  match t with
  | JNull => "null"
  | JBool true => "true"
  | JBool false => "false"
  | JNum lit => lit
  | JStr lit => quoted lit
  | JArr _ es => "[" +:+ join (map print es) "," +:+ "]"
  | JObj _ ms => "{" +:+ join (map (fun '(k, v) => quoted k +:+ ":" +:+ print v) ms) "," +:+ "}"
  end.

(** The text a value was read from. *)
Definition raw_of (t : jval) : string :=
  match t with
  | JArr raw _ | JObj raw _ => raw
  | _ => print t
  end.

(** The tree [parse] builds for what [print] writes. *)
Fixpoint norm (t : jval) : jval :=
  match t with
  | JArr _ es => JArr (print t) (map norm es)
  | JObj _ ms => JObj (print t) (map (fun '(k, v) => (k, norm v)) ms)
  | _ => t
  end.

(** ** Scanner *)

Definition is_blank (c : ascii) : bool :=
  (byte_val c =? 32) || (byte_val c =? 9) || (byte_val c =? 10) || (byte_val c =? 13).

Fixpoint skip_blanks (s : string) : string :=
  match s with
  | String c s' => if is_blank c then skip_blanks s' else s
  | EmptyString => s
  end.

Definition is_digit (c : ascii) : bool := in_range 48 57 c.
Definition is_digit19 (c : ascii) : bool := in_range 49 57 c.

Fixpoint take_digits (s : string) : string * string :=
  match s with
  | String c s' => if is_digit c then let '(d, r) := take_digits s' in (String c d, r) else (EmptyString, s)
  | EmptyString => (EmptyString, s)
  end.

(** At least one digit. *)
Definition take_digits1 (s : string) : option (string * string) :=
  match take_digits s with
  | (EmptyString, _) => None
  | dr => Some dr
  end.

Definition scan_int (s : string) : option (string * string) :=
  match s with
  | String c s' =>
      if Ascii.eqb c "0"%char then Some ("0", s')
      else if is_digit19 c then let '(d, r) := take_digits s' in Some (String c d, r)
      else None
  | EmptyString => None
  end.

Definition scan_frac (s : string) : option (string * string) :=
  match s with
  | String "."%char s' => '(d, r) ← take_digits1 s'; Some (String "."%char d, r)
  | _ => Some (EmptyString, s)
  end.

Definition is_sign (c : ascii) : bool := Ascii.eqb c "+"%char || Ascii.eqb c "-"%char.
Definition is_exp (c : ascii) : bool := Ascii.eqb c "e"%char || Ascii.eqb c "E"%char.

Definition scan_exp (s : string) : option (string * string) :=
  match s with
  | String c s' =>
      if is_exp c then
        match s' with
        | String g s'' =>
            if is_sign g then '(d, r) ← take_digits1 s''; Some (String c (String g d), r)
            else '(d, r) ← take_digits1 s'; Some (String c d, r)
        | EmptyString => None
        end
      else Some (EmptyString, s)
  | EmptyString => Some (EmptyString, s)
  end.

Definition scan_number (s : string) : option (string * string) :=
  let '(sign, s0) :=
    match s with
    | String c s' => if Ascii.eqb c "-"%char then ("-", s') else (EmptyString, s)
    | EmptyString => (EmptyString, s)
    end in
  '(i, s1) ← scan_int s0;
  '(f, s2) ← scan_frac s1;
  '(e, s3) ← scan_exp s2;
  Some (sign +:+ i +:+ f +:+ e, s3).

(** The characters that may stand after a backslash, [u] apart. *)
Definition is_simple_escape (c : ascii) : bool :=
  Ascii.eqb c dquote || Ascii.eqb c backslash || Ascii.eqb c "/"%char || Ascii.eqb c "b"%char ||
  Ascii.eqb c "f"%char || Ascii.eqb c "n"%char || Ascii.eqb c "r"%char || Ascii.eqb c "t"%char.

Definition is_hex (c : ascii) : bool := match hex_val c with Some _ => true | None => false end.

(** From after the opening quote: the literal, and the text after the
    closing quote. *)
Fixpoint scan_string (s : string) : option (string * string) :=
  match s with
  | EmptyString => None
  | String c s1 =>
      if Ascii.eqb c dquote then Some (EmptyString, s1)
      else if Ascii.eqb c backslash then
        match s1 with
        | EmptyString => None
        | String e s2 =>
            if is_simple_escape e then '(l, r) ← scan_string s2; Some (String c (String e l), r)
            else if Ascii.eqb e "u"%char then
              match s2 with
              | String h1 (String h2 (String h3 (String h4 s6))) =>
                  if is_hex h1 && is_hex h2 && is_hex h3 && is_hex h4 then
                    '(l, r) ← scan_string s6;
                    Some (String c (String e (String h1 (String h2 (String h3 (String h4 l))))), r)
                  else None
              | _ => None
              end
            else None
        end
      else if byte_val c <? 32 then None
      else '(l, r) ← scan_string s1; Some (String c l, r)
  end.

(** ** Parser *)

(** The bytes of [s] before its suffix [rest]. *)
Definition consumed (s rest : string) : string :=
  String.substring 0 (String.length s - String.length rest) s.

Definition max_nesting_depth : Z := 10000.

Definition starts_with (c : ascii) (s : string) : option string :=
  match s with
  | String a s' => if Ascii.eqb a c then Some s' else None
  | EmptyString => None
  end.

Fixpoint parse_value (fuel : nat) (depth : Z) (s : string) : option (jval * string) :=
  match fuel with
  | O => None
  | S fuel =>
      match s with
      | EmptyString => None
      | String c s1 =>
          if Ascii.eqb c "{"%char then
            if max_nesting_depth <=? depth then None else
            let s2 := skip_blanks s1 in
            match starts_with "}"%char s2 with
            | Some r => Some (JObj (consumed s r) [], r)
            | None => '(ms, r) ← parse_members fuel (depth + 1) s2; Some (JObj (consumed s r) ms, r)
            end
          else if Ascii.eqb c "["%char then
            if max_nesting_depth <=? depth then None else
            let s2 := skip_blanks s1 in
            match starts_with "]"%char s2 with
            | Some r => Some (JArr (consumed s r) [], r)
            | None => '(es, r) ← parse_elems fuel (depth + 1) s2; Some (JArr (consumed s r) es, r)
            end
          else if Ascii.eqb c dquote then '(l, r) ← scan_string s1; Some (JStr l, r)
          else if Ascii.eqb c "n"%char then r ← cut_prefix s "null"; Some (JNull, r)
          else if Ascii.eqb c "t"%char then r ← cut_prefix s "true"; Some (JBool true, r)
          else if Ascii.eqb c "f"%char then r ← cut_prefix s "false"; Some (JBool false, r)
          else '(l, r) ← scan_number s; Some (JNum l, r)
      end
  end
with parse_elems (fuel : nat) (depth : Z) (s : string) : option (list jval * string) :=
  match fuel with
  | O => None
  | S fuel =>
      '(v, r) ← parse_value fuel depth s;
      let r1 := skip_blanks r in
      match starts_with "]"%char r1 with
      | Some r2 => Some ([v], r2)
      | None =>
          r2 ← starts_with ","%char r1;
          '(vs, r3) ← parse_elems fuel depth (skip_blanks r2);
          Some (v :: vs, r3)
      end
  end
with parse_members (fuel : nat) (depth : Z) (s : string) : option (list (string * jval) * string) :=
  match fuel with
  | O => None
  | S fuel =>
      s1 ← starts_with dquote s;
      '(k, r0) ← scan_string s1;
      r1 ← starts_with ":"%char (skip_blanks r0);
      '(v, r) ← parse_value fuel depth (skip_blanks r1);
      let r2 := skip_blanks r in
      match starts_with "}"%char r2 with
      | Some r3 => Some ([(k, v)], r3)
      | None =>
          r3 ← starts_with ","%char r2;
          '(ms, r4) ← parse_members fuel depth (skip_blanks r3);
          Some ((k, v) :: ms, r4)
      end
  end.

(** Every call of the parser but one in two consumes a byte. *)
Definition parse_fuel (s : string) : nat := (2 * String.length s + 1)%nat.

Definition parse (s : string) : option jval :=
  let s0 := skip_blanks s in
  '(v, r) ← parse_value (parse_fuel s0) 0 s0;
  match skip_blanks r with
  | EmptyString => Some v
  | _ => None
  end.

(** [json.Valid] *)
Definition valid (s : string) : bool := match parse s with Some _ => true | None => false end.

(** ** String literals *)

(** [appendString] with [escapeHTML]: the literal of a string. *)
Definition unicode_escape (c : ascii) : string :=
  "\u00" +:+ String (hex_digit (byte_val c / 16)) (String (hex_digit (byte_val c `mod` 16)) EmptyString).

Definition is_html (c : ascii) : bool :=
  Ascii.eqb c "<"%char || Ascii.eqb c ">"%char || Ascii.eqb c "&"%char.

Definition escape_ascii (c : ascii) : string :=
  if Ascii.eqb c dquote || Ascii.eqb c backslash then String backslash (String c EmptyString)
  else if byte_val c =? 8 then "\b"
  else if byte_val c =? 12 then "\f"
  else if byte_val c =? 10 then "\n"
  else if byte_val c =? 13 then "\r"
  else if byte_val c =? 9 then "\t"
  else if (byte_val c <? 32) || is_html c then unicode_escape c
  else String c EmptyString.

(** U+2028 and U+2029 are written as escapes. *)
Definition is_line_sep (a b c : ascii) : bool :=
  (byte_val a =? 0xE2) && (byte_val b =? 0x80) && in_range 0xA8 0xA9 c.
Definition escape_line_sep (c : ascii) : string :=
  "\u202" +:+ String (hex_digit (byte_val c `mod` 16)) EmptyString.

Fixpoint quote (s : string) : string :=
  match s with
  | EmptyString => EmptyString
  | String a s1 =>
      if utf8_1 a then escape_ascii a +:+ quote s1 else
      match s1 with
      | EmptyString => "\ufffd"
      | String b s2 =>
          if utf8_2 a b then String a (String b (quote s2)) else
          match s2 with
          | EmptyString => "\ufffd" +:+ quote s1
          | String c s3 =>
              if utf8_3 a b c then
                (if is_line_sep a b c then escape_line_sep c
                 else String a (String b (String c EmptyString))) +:+ quote s3
              else
              match s3 with
              | EmptyString => "\ufffd" +:+ quote s1
              | String d s4 =>
                  if utf8_4 a b c d then String a (String b (String c (String d (quote s4))))
                  else "\ufffd" +:+ quote s1
              end
          end
      end
  end.

(** [appendCompact] with [escape] on the bytes of a literal. *)
Fixpoint escape_html (s : string) : string :=
  match s with
  | EmptyString => EmptyString
  | String a s1 =>
      if is_html a then unicode_escape a +:+ escape_html s1 else
      match s1 with
      | String b (String c s3) =>
          if is_line_sep a b c then escape_line_sep c +:+ escape_html s3
          else String a (escape_html s1)
      | _ => String a (escape_html s1)
      end
  end.

Definition simple_unescape (c : ascii) : option ascii :=
  if Ascii.eqb c dquote || Ascii.eqb c backslash || Ascii.eqb c "/"%char then Some c
  else if Ascii.eqb c "b"%char then Some (byte_of 8)
  else if Ascii.eqb c "f"%char then Some (byte_of 12)
  else if Ascii.eqb c "n"%char then Some (byte_of 10)
  else if Ascii.eqb c "r"%char then Some (byte_of 13)
  else if Ascii.eqb c "t"%char then Some (byte_of 9)
  else None.

(** [unquote]: the bytes a literal stands for; a lone half of a surrogate pair
    and an invalid byte become U+FFFD. *)
Fixpoint unquote (s : string) : option string :=
  match s with
  | EmptyString => Some EmptyString
  | String a s1 =>
      if Ascii.eqb a backslash then
        match s1 with
        | EmptyString => None
        | String e s2 =>
            if Ascii.eqb e "u"%char then
              match s2 with
              | String h1 (String h2 (String h3 (String h4 s6))) =>
                  match hex4 h1 h2 h3 h4 with
                  | None => None
                  | Some r =>
                      if negb (is_surrogate r) then u ← unquote s6; Some (encode_rune r +:+ u)
                      else
                        match s6 with
                        | String x (String y (String g1 (String g2 (String g3 (String g4 s12))))) =>
                            match (if Ascii.eqb x backslash && Ascii.eqb y "u"%char then hex4 g1 g2 g3 g4 else None) with
                            | Some r1 =>
                                if is_high_surrogate r && is_low_surrogate r1
                                then u ← unquote s12; Some (encode_rune (decode_surrogates r r1) +:+ u)
                                else u ← unquote s6; Some (replacement +:+ u)
                            | None => u ← unquote s6; Some (replacement +:+ u)
                            end
                        | _ => u ← unquote s6; Some (replacement +:+ u)
                        end
                  end
              | _ => None
              end
            else c ← simple_unescape e; u ← unquote s2; Some (String c u)
        end
      else if Ascii.eqb a dquote || (byte_val a <? 32) then None
      else if utf8_1 a then u ← unquote s1; Some (String a u)
      else
        match s1 with
        | EmptyString => Some replacement
        | String b s2 =>
            if utf8_2 a b then u ← unquote s2; Some (String a (String b u)) else
            match s2 with
            | EmptyString => u ← unquote s1; Some (replacement +:+ u)
            | String c s3 =>
                if utf8_3 a b c then u ← unquote s3; Some (String a (String b (String c u))) else
                match s3 with
                | EmptyString => u ← unquote s1; Some (replacement +:+ u)
                | String d s4 =>
                    if utf8_4 a b c d then u ← unquote s4; Some (String a (String b (String c (String d u))))
                    else u ← unquote s1; Some (replacement +:+ u)
                end
            end
        end
  end.

(** ** Unmarshal

    A decoder takes a value and what the Go variable held before, and gives
    what it holds after, or None when [Unmarshal] reports an error. [null]
    leaves a string, a number, a boolean or a struct as it was. *)

Definition Dec (A : Type) : Type := jval -> A -> option A.

Definition dec_string : Dec string := fun t cur =>
  match t with
  | JStr lit => unquote lit
  | JNull => Some cur
  | _ => None
  end.

Definition dec_bool : Dec bool := fun t cur =>
  match t with
  | JBool b => Some b
  | JNull => Some cur
  | _ => None
  end.

(** [strconv.ParseInt(lit, 10, 64)] on a number literal. *)
Fixpoint digits_val (acc : Z) (s : string) : option Z :=
  match s with
  | EmptyString => Some acc
  | String c s' => if is_digit c then digits_val (acc * 10 + (byte_val c - 48)) s' else None
  end.

Definition parse_int64 (lit : string) : option Z :=
  z ← (match lit with
       | String c s' => if Ascii.eqb c "-"%char then z ← digits_val 0 s'; Some (- z) else digits_val 0 lit
       | EmptyString => None
       end);
  if (min_int64 <=? z) && (z <=? max_int64) then Some z else None.

Definition dec_int : Dec Z := fun t cur =>
  match t with
  | JNum lit => parse_int64 lit
  | JNull => Some cur
  | _ => None
  end.

(** [RawMessage] takes the text of any value, [null] included. *)
Definition dec_raw : Dec string := fun t _ => Some (raw_of t).

Definition dec_ptr {A} (d : Dec A) (zero : A) : Dec (option A) := fun t cur =>
  match t with
  | JNull => Some None
  | _ => a ← d t (default zero cur); Some (Some a)
  end.

Definition dec_slice {A} (d : Dec A) (zero : A) : Dec (list A) := fun t cur =>
  match t with
  | JNull => Some []
  | JArr _ es => mapM (fun e => d e zero) es
  | _ => None
  end.

(** Member names match a field exactly, or else up to case: [foldName] maps
    ASCII letters to upper case and, of the runes outside ASCII, only U+017F
    and U+212A to ASCII letters (S and K). *)
Fixpoint fold_name (s : string) : string :=
  match s with
  | EmptyString => EmptyString
  | String a s1 =>
      if in_range 97 122 a then String (byte_of (byte_val a - 32)) (fold_name s1) else
      match s1 with
      | String b s2 =>
          if (byte_val a =? 0xC5) && (byte_val b =? 0xBF) then String "S"%char (fold_name s2) else
          match s2 with
          | String c s3 =>
              if (byte_val a =? 0xE2) && (byte_val b =? 0x84) && (byte_val c =? 0xAA)
              then String "K"%char (fold_name s3)
              else String a (fold_name s1)
          | EmptyString => String a (fold_name s1)
          end
      | EmptyString => String a EmptyString
      end
  end.

Definition fields (A : Type) : Type := list (string * Dec A).

Fixpoint find_field {A} (eq : string -> string -> bool) (key : string) (fs : fields A) : option (Dec A) :=
  match fs with
  | [] => None
  | (name, d) :: fs' => if eq name key then Some d else find_field eq key fs'
  end.

Definition lookup_field {A} (fs : fields A) (key : string) : option (Dec A) :=
  match find_field String.eqb key fs with
  | Some d => Some d
  | None => find_field (fun name key => fold_name name =s? fold_name key) key fs
  end.

Definition dec_member {A} (fs : fields A) (k : string) (v : jval) (cur : A) : option A :=
  key ← unquote k;
  match lookup_field fs key with
  | Some d => d v cur
  | None => Some cur
  end.

Fixpoint dec_members {A} (fs : fields A) (ms : list (string * jval)) (cur : A) : option A :=
  match ms with
  | [] => Some cur
  | (k, v) :: ms' => cur' ← dec_member fs k v cur; dec_members fs ms' cur'
  end.

Definition dec_struct {A} (fs : fields A) : Dec A := fun t cur =>
  match t with
  | JNull => Some cur
  | JObj _ ms => dec_members fs ms cur
  | _ => None
  end.

(** A struct field decoded with [d] and stored with [set]. *)
Definition field {A E} (name : string) (get : A -> E) (set : E -> A -> A) (d : Dec E) : string * Dec A :=
  (name, fun t a => e ← d t (get a); Some (set e a)).

(** [map[string]json.RawMessage]: [None] is the nil map. *)
Fixpoint dec_raw_members (ms : list (string * jval)) (m : gmap string string) : option (gmap string string) :=
  match ms with
  | [] => Some m
  | (k, v) :: ms' => key ← unquote k; dec_raw_members ms' (<[key := raw_of v]> m)
  end.

Definition dec_raw_map : Dec (gmap string string) := fun t cur =>
  match t with
  | JNull => Some ∅
  | JObj _ ms => dec_raw_members ms cur
  | _ => None
  end.

(** A number decoded into an [any] must fit a [float64]: the bound is the
    least real that rounds to infinity, 2^1024 - 2^970. *)
Definition float64_bound : Z := 2 ^ 1024 - 2 ^ 970.

Fixpoint exp_val (acc : Z) (s : string) : Z :=
  match s with
  | EmptyString => acc
  | String c s' => exp_val (if acc <? 10000 then acc * 10 + (byte_val c - 48) else acc) s'
  end.

Definition num_fits_float64 (lit : string) : bool :=
  let s0 := trim_prefix lit "-" in
  match scan_int s0 with
  | None => false
  | Some (i, s1) =>
      match scan_frac s1 with
      | None => false
      | Some (f, s2) =>
          let fd := drop_bytes 1 f in
          let ex := match s2 with
                    | String _ (String "-"%char d) => - exp_val 0 d
                    | String _ (String "+"%char d) => exp_val 0 d
                    | String _ d => exp_val 0 d
                    | EmptyString => 0
                    end in
          let m := default 0 (digits_val 0 (i +:+ fd)) in
          let e := ex - Z.of_nat (String.length fd) in
          if m =? 0 then true
          else if 400 <? e + Z.log2 m / 4 then false
          else if e + Z.log2 m <? -400 then true
          else if 0 <=? e then m * 10 ^ e <? float64_bound
          else m <? float64_bound * 10 ^ (- e)
      end
  end.

Fixpoint any_ok (t : jval) : bool :=
  match t with
  | JNum lit => num_fits_float64 lit
  | JArr _ es => forallb any_ok es
  | JObj _ ms => forallb (fun '(_, v) => any_ok v) ms
  | _ => true
  end.

(** [p[key].(string)] of a decoded [map[string]any]: the last member of that
    name when it is a string, the empty string otherwise. *)
Definition any_string_member (key : string) (ms : list (string * jval)) : string :=
  match find_field String.eqb key
          (map (fun '(k, v) => (default EmptyString (unquote k), fun (t : jval) (_ : jval) => Some v)) (rev ms)) with
  | Some d => match d JNull JNull with
              | Some (JStr lit) => default EmptyString (unquote lit)
              | _ => EmptyString
              end
  | None => EmptyString
  end.

(** [json.Unmarshal(raw, &v)] with [v] holding [zero]. *)
Definition err_json : go_error := ErrMsg "json".

Definition unmarshal {A} (d : Dec A) (zero : A) (raw : string) : result A :=
  match (t ← parse raw; d t zero) with
  | Some a => Ok a
  | None => Err err_json
  end.

(** ** Marshal *)

Definition Enc : Type := option jval.

Definition enc_string (s : string) : Enc := Some (JStr (quote s)).
Definition enc_bool (b : bool) : Enc := Some (JBool b).
Definition enc_int (z : Z) : Enc := Some (JNum (pretty z)).
Definition enc_null : Enc := Some JNull.

Fixpoint html_tree (t : jval) : jval :=
  match t with
  | JStr lit => JStr (escape_html lit)
  | JArr raw es => JArr raw (map html_tree es)
  | JObj raw ms => JObj raw (map (fun '(k, v) => (escape_html k, html_tree v)) ms)
  | _ => t
  end.

(** A [RawMessage] is checked, compacted and HTML-escaped; nil is [null]. *)
Definition enc_raw (r : string) : Enc :=
  if r =s? EmptyString then enc_null else t ← parse r; Some (html_tree t).

Definition enc_list (es : list Enc) : Enc := vs ← mapM id es; Some (JArr EmptyString vs).

(** A nil slice is [null], an empty one is not. *)
Definition enc_slice {A} (e : A -> Enc) (l : list A) : Enc :=
  match l with [] => enc_null | _ => enc_list (map e l) end.

Definition enc_ptr {A} (e : A -> Enc) (p : option A) : Enc :=
  match p with None => enc_null | Some a => e a end.

(** A member of an object: its name, whether it is written, its value. *)
Definition member : Type := string * bool * Enc.
Definition mem (name : string) (v : Enc) : member := (name, true, v).
Definition mem_if (present : bool) (name : string) (v : Enc) : member := (name, present, v).

Fixpoint enc_members (ms : list member) : option (list (string * jval)) :=
  match ms with
  | [] => Some []
  | (_, false, _) :: ms' => enc_members ms'
  | (name, true, v) :: ms' => t ← v; rest ← enc_members ms'; Some ((quote name, t) :: rest)
  end.

Definition enc_object (ms : list member) : Enc := l ← enc_members ms; Some (JObj EmptyString l).

(** Maps are written in the order of their keys. *)
Definition key_le (a b : string * string) : bool := String.leb (fst a) (fst b).

Fixpoint insert_sorted (x : string * string) (l : list (string * string)) : list (string * string) :=
  match l with
  | [] => [x]
  | y :: l' => if key_le x y then x :: l else y :: insert_sorted x l'
  end.
Definition sort_members (l : list (string * string)) : list (string * string) := foldr insert_sorted [] l.

Definition enc_raw_map (m : gmap string string) : Enc :=
  enc_object (map (fun '(k, r) => mem k (enc_raw r)) (sort_members (map_to_list m))).

Definition marshal (e : Enc) : result string :=
  match e with Some t => Ok (print t) | None => Err err_json end.

(** [b, _ := json.Marshal(v)]: nil when it fails. *)
Definition marshal_or_nil (e : Enc) : string := or_zero EmptyString (marshal e).
