(* ===== verification/JsonFacts.v ===== *)
(** * Facts about the encoding/json model

    What [print] writes, [parse] reads back; what [quote] writes, the scanner
    delimits and [unquote] decodes. *)

From S2P Require Import Prelude GoStrings Json.

Lemma option_bind_Some {A B} (o : option A) (f : A -> option B) b :
  (o ≫= f) = Some b -> exists a, o = Some a /\ f a = Some b.
Proof. destruct o; [by eauto | done]. Qed.

Ltac bind_inv H := apply option_bind_Some in H as (? & ? & H).

(** ** String literals *)

(** A property of the 256 bytes is checked on each. *)
Ltac each_byte a := destruct a as [[] [] [] [] [] [] [] []].

(** The shapes a literal is read by. *)
Lemma scan_plain a t : Ascii.eqb a dquote = false -> Ascii.eqb a backslash = false -> (byte_val a <? 32) = false ->
  scan_string (String a t) = ('(l, r) ← scan_string t; Some (String a l, r)).
Proof. intros H1 H2 H3. cbn. rewrite H1, H2, H3. done. Qed.

Lemma scan_simple e t : is_simple_escape e = true ->
  scan_string (String backslash (String e t)) = ('(l, r) ← scan_string t; Some (String backslash (String e l), r)).
Proof. intros H. cbn. rewrite H. done. Qed.

Lemma scan_hex h1 h2 h3 h4 t : is_hex h1 && is_hex h2 && is_hex h3 && is_hex h4 = true ->
  scan_string (String backslash (String "u"%char (String h1 (String h2 (String h3 (String h4 t)))))) =
  ('(l, r) ← scan_string t; Some (String backslash (String "u"%char (String h1 (String h2 (String h3 (String h4 l))))), r)).
Proof. intros H. cbn -[is_hex]. rewrite H. done. Qed.

Lemma unquote_plain a t : Ascii.eqb a backslash = false -> Ascii.eqb a dquote || (byte_val a <? 32) = false ->
  utf8_1 a = true -> unquote (String a t) = (u ← unquote t; Some (String a u)).
Proof. intros H1 H2 H3. cbn. rewrite H1, H2, H3. done. Qed.

Lemma unquote_simple e c t : Ascii.eqb e "u"%char = false -> simple_unescape e = Some c ->
  unquote (String backslash (String e t)) = (u ← unquote t; Some (String c u)).
Proof. intros H1 H2. cbn -[simple_unescape]. rewrite H1, H2. done. Qed.

Lemma unquote_hex h1 h2 h3 h4 r t : hex4 h1 h2 h3 h4 = Some r -> is_surrogate r = false ->
  unquote (String backslash (String "u"%char (String h1 (String h2 (String h3 (String h4 t)))))) =
  (u ← unquote t; Some (encode_rune r +:+ u)).
Proof. intros H1 H2. cbn -[hex4 is_surrogate encode_rune]. rewrite H1, H2. done. Qed.

Ltac eval_escape :=
  match goal with |- context [escape_ascii ?a] =>
    let v := eval vm_compute in (escape_ascii a) in change (escape_ascii a) with v
  end; cbn [String.append].

Ltac by_vm := vm_compute; reflexivity.

Lemma scan_escape_ascii a t : utf8_1 a = true ->
  scan_string (escape_ascii a +:+ t) = ('(l, r) ← scan_string t; Some (escape_ascii a +:+ l, r)).
Proof.
  each_byte a; intros H; try discriminate H; clear H; eval_escape;
    first [apply scan_plain; by_vm | apply scan_simple; by_vm | apply scan_hex; by_vm].
Qed.

Lemma unquote_escape_ascii a t : utf8_1 a = true ->
  unquote (escape_ascii a +:+ t) = (u ← unquote t; Some (String a u)).
Proof.
  each_byte a; intros H; try discriminate H; clear H; eval_escape;
    first [ apply unquote_plain; by_vm
          | apply unquote_simple; by_vm
          | erewrite unquote_hex by by_vm; destruct (unquote t); [|reflexivity];
            match goal with |- context [encode_rune ?r] =>
              let v := eval vm_compute in (encode_rune r) in change (encode_rune r) with v end; reflexivity ].
Qed.

(** A byte from 0x80 on is copied by the scanner. *)
Lemma scan_high a t : utf8_1 a = false ->
  scan_string (String a t) = ('(l, r) ← scan_string t; Some (String a l, r)).
Proof. intros H. apply scan_plain; revert H; each_byte a; intros H; try discriminate H; by_vm. Qed.

Lemma scan_replacement t :
  scan_string ("\ufffd" +:+ t) = ('(l, r) ← scan_string t; Some ("\ufffd" +:+ l, r)).
Proof. apply scan_hex. by_vm. Qed.

Lemma utf8_2_high a b : utf8_2 a b = true -> utf8_1 b = false.
Proof. unfold utf8_2, cont, in_range, utf8_1. rewrite !andb_true_iff. lia. Qed.

Lemma utf8_3_high a b c : utf8_3 a b c = true -> utf8_1 b = false /\ utf8_1 c = false.
Proof.
  unfold utf8_3, cont, in_range, utf8_1. rewrite !andb_true_iff, !orb_true_iff, !andb_true_iff. lia.
Qed.

Lemma utf8_4_high a b c d : utf8_4 a b c d = true -> utf8_1 b = false /\ utf8_1 c = false /\ utf8_1 d = false.
Proof.
  unfold utf8_4, cont, in_range, utf8_1. rewrite !andb_true_iff, !orb_true_iff, !andb_true_iff. lia.
Qed.

(** A line separator is E2 80 A8 or E2 80 A9. *)
Lemma line_sep_cases a b c : is_line_sep a b c = true ->
  a = byte_of 0xE2 /\ b = byte_of 0x80 /\ (c = byte_of 0xA8 \/ c = byte_of 0xA9).
Proof.
  unfold is_line_sep, in_range. rewrite !andb_true_iff, !Z.eqb_eq, !Z.leb_le. intros [[Ha Hb] [Hc1 Hc2]].
  rewrite <- (byte_of_val a), <- (byte_of_val b), Ha, Hb. split; [done|]. split; [done|].
  assert (byte_val c = 0xA8 \/ byte_val c = 0xA9) as [E|E] by lia; rewrite <- (byte_of_val c), E; auto.
Qed.

Lemma scan_line_sep a b c t : is_line_sep a b c = true ->
  scan_string (escape_line_sep c +:+ t) = ('(l, r) ← scan_string t; Some (escape_line_sep c +:+ l, r)).
Proof.
  intros (_ & _ & [-> | ->])%line_sep_cases; apply scan_hex; by_vm.
Qed.

(** The equations of [quote] by the first rune. *)
Lemma quote_cases s :
  s = "" \/
  (exists a s1, s = String a s1 /\ utf8_1 a = true /\ quote s = escape_ascii a +:+ quote s1) \/
  (exists a s1, s = String a s1 /\ utf8_1 a = false /\ valid_utf8 s = false /\ quote s = "\ufffd" +:+ quote s1) \/
  (exists a b s2, s = String a (String b s2) /\ utf8_1 a = false /\ utf8_2 a b = true /\
     quote s = String a (String b (quote s2)) /\ valid_utf8 s = valid_utf8 s2) \/
  (exists a b c s3, s = String a (String b (String c s3)) /\ utf8_1 a = false /\ utf8_2 a b = false /\
     utf8_3 a b c = true /\ valid_utf8 s = valid_utf8 s3 /\
     quote s = (if is_line_sep a b c then escape_line_sep c else String a (String b (String c ""))) +:+ quote s3) \/
  (exists a b c d s4, s = String a (String b (String c (String d s4))) /\ utf8_1 a = false /\ utf8_2 a b = false /\
     utf8_3 a b c = false /\ utf8_4 a b c d = true /\ valid_utf8 s = valid_utf8 s4 /\
     quote s = String a (String b (String c (String d (quote s4))))).
Proof.
  destruct s as [|a s1]; [by left|right].
  destruct (utf8_1 a) eqn:E1; [left; exists a, s1; cbn; rewrite E1; done|right].
  destruct s1 as [|b s2]; [left; exists a, ""; cbn; rewrite E1; done|].
  destruct (utf8_2 a b) eqn:E2; [right; left; exists a, b, s2; cbn; rewrite E1, E2; done|].
  destruct s2 as [|c s3]; [left; exists a, (String b ""); cbn; rewrite E1, E2; done|].
  destruct (utf8_3 a b c) eqn:E3; [right; right; left; exists a, b, c, s3; cbn; rewrite E1, E2, E3; done|].
  destruct s3 as [|d s4]; [left; exists a, (String b (String c "")); cbn; rewrite E1, E2, E3; done|].
  destruct (utf8_4 a b c d) eqn:E4.
  - right; right; right. exists a, b, c, d, s4. cbn. rewrite E1, E2, E3, E4. done.
  - left. exists a, (String b (String c (String d s4))). cbn. rewrite E1, E2, E3, E4. done.
Qed.

(** Induction on the length of a string. *)
Lemma string_len_ind (P : string -> Prop) :
  (forall s, (forall s', (String.length s' < String.length s)%nat -> P s') -> P s) -> forall s, P s.
Proof. intros H s. induction (well_founded_ltof _ String.length s) as [s _ IH]. apply H. exact IH. Qed.

(** The scanner ends the literal of any string at the quote that follows it. *)
Lemma scan_quote s r : scan_string (quote s +:+ String dquote r) = Some (quote s, r).
Proof.
  induction s as [s IH] using string_len_ind.
  destruct (quote_cases s) as [->|[(a & s1 & -> & H1 & ->)|[(a & s1 & -> & H1 & _ & ->)|
    [(a & b & s2 & -> & H1 & H2 & -> & _)|[(a & b & c & s3 & -> & H1 & _ & H3 & _ & ->)|
    (a & b & c & d & s4 & -> & H1 & _ & _ & H4 & _ & ->)]]]]].
  - reflexivity.
  - rewrite string_app_assoc, scan_escape_ascii, IH by (done || (cbn; lia)). done.
  - rewrite string_app_assoc, scan_replacement, IH by (cbn; lia). done.
  - apply utf8_2_high in H2. cbn [String.append]. rewrite !scan_high, IH by (done || (cbn; lia)). done.
  - apply utf8_3_high in H3 as [Hb Hc]. rewrite string_app_assoc. destruct (is_line_sep a b c) eqn:E.
    + rewrite (scan_line_sep a b c), IH by (done || (cbn; lia)). done.
    + cbn [String.append]. rewrite !scan_high, IH by (done || (cbn; lia)). done.
  - apply utf8_4_high in H4 as (Hb & Hc & Hd).
    cbn [String.append]. rewrite !scan_high, IH by (done || (cbn; lia)). done.
Qed.

(** ** Decoding a literal *)

Lemma unquote_2 a b t : utf8_1 a = false -> utf8_2 a b = true ->
  unquote (String a (String b t)) = (u ← unquote t; Some (String a (String b u))).
Proof.
  intros H1 H2. assert (Ha : Ascii.eqb a backslash = false /\ Ascii.eqb a dquote || (byte_val a <? 32) = false).
  { clear H2. revert H1. each_byte a; intros H; try discriminate H; split; by_vm. }
  destruct Ha as [Ha Hb]. cbn -[utf8_1 utf8_2]. rewrite Ha, Hb, H1, H2. done.
Qed.

Lemma unquote_3 a b c t : utf8_1 a = false -> utf8_2 a b = false -> utf8_3 a b c = true ->
  unquote (String a (String b (String c t))) = (u ← unquote t; Some (String a (String b (String c u)))).
Proof.
  intros H1 H2 H3. assert (Ha : Ascii.eqb a backslash = false /\ Ascii.eqb a dquote || (byte_val a <? 32) = false).
  { clear H2 H3. revert H1. each_byte a; intros H; try discriminate H; split; by_vm. }
  destruct Ha as [Ha Hb]. cbn -[utf8_1 utf8_2 utf8_3]. rewrite Ha, Hb, H1, H2, H3. done.
Qed.

Lemma unquote_4 a b c d t :
  utf8_1 a = false -> utf8_2 a b = false -> utf8_3 a b c = false -> utf8_4 a b c d = true ->
  unquote (String a (String b (String c (String d t)))) =
  (u ← unquote t; Some (String a (String b (String c (String d u))))).
Proof.
  intros H1 H2 H3 H4. assert (Ha : Ascii.eqb a backslash = false /\ Ascii.eqb a dquote || (byte_val a <? 32) = false).
  { clear H2 H3 H4. revert H1. each_byte a; intros H; try discriminate H; split; by_vm. }
  destruct Ha as [Ha Hb]. cbn -[utf8_1 utf8_2 utf8_3 utf8_4]. rewrite Ha, Hb, H1, H2, H3, H4. done.
Qed.

Lemma unquote_line_sep a b c t : is_line_sep a b c = true ->
  unquote (escape_line_sep c +:+ t) = (u ← unquote t; Some (String a (String b (String c u)))).
Proof.
  intros (-> & -> & [-> | ->])%line_sep_cases.
  - change (escape_line_sep _) with ("\u2028"). cbn [String.append]. erewrite unquote_hex by by_vm.
    destruct (unquote t); reflexivity.
  - change (escape_line_sep _) with ("\u2029"). cbn [String.append]. erewrite unquote_hex by by_vm.
    destruct (unquote t); reflexivity.
Qed.

(** A valid string comes back from its literal. *)
Lemma unquote_quote s : valid_utf8 s = true -> unquote (quote s) = Some s.
Proof.
  induction s as [s IH] using string_len_ind. intros Hv.
  destruct (quote_cases s) as [->|[(a & s1 & -> & H1 & ->)|[(a & s1 & -> & H1 & Hn & ->)|
    [(a & b & s2 & -> & H1 & H2 & -> & E)|[(a & b & c & s3 & -> & H1 & H2 & H3 & E & ->)|
    (a & b & c & d & s4 & -> & H1 & H2 & H3 & H4 & E & ->)]]]]].
  - reflexivity.
  - cbn in Hv. rewrite H1 in Hv. rewrite unquote_escape_ascii, IH by (done || (cbn; lia)). done.
  - congruence.
  - rewrite unquote_2, IH by (done || congruence || (cbn; lia)). done.
  - destruct (is_line_sep a b c) eqn:El.
    + rewrite (unquote_line_sep a b c), IH by (done || congruence || (cbn; lia)). done.
    + cbn [String.append]. rewrite unquote_3, IH by (done || congruence || (cbn; lia)). done.
  - rewrite unquote_4, IH by (done || congruence || (cbn; lia)). done.
Qed.

(** ** Well-formed trees *)

(** What may follow a value without extending it. *)
Definition delim (r : string) : bool :=
  match r with
  | EmptyString => true
  | String c _ => Ascii.eqb c ","%char || Ascii.eqb c "]"%char || Ascii.eqb c "}"%char || is_blank c
  end.

(** A literal the scanner delimits, whatever follows. *)
Definition str_ok (lit : string) : Prop := forall r, scan_string (lit +:+ String dquote r) = Some (lit, r).

Definition num_head (c : ascii) : bool := Ascii.eqb c "-"%char || is_digit c.

(** No control character: the text fits on one line. *)
Fixpoint no_ctl (s : string) : bool :=
  match s with
  | String c s => negb (byte_val c <? 32) && no_ctl s
  | EmptyString => true
  end.

Lemma no_ctl_app a b : no_ctl (a +:+ b) = no_ctl a && no_ctl b.
Proof. induction a as [|c a IH]; [done|]. cbn [String.append no_ctl]. rewrite IH. by rewrite andb_assoc. Qed.

Definition num_ok (lit : string) : Prop :=
  (exists c s, lit = String c s /\ num_head c = true) /\ no_ctl lit = true /\
  forall r, delim r = true -> scan_number (lit +:+ r) = Some (lit, r).

Fixpoint wf (t : jval) : Prop :=
  match t with
  | JNum lit => num_ok lit
  | JStr lit => str_ok lit
  | JArr _ es => foldr (fun e P => wf e /\ P) True es
  | JObj _ ms => foldr (fun '(k, v) P => str_ok k /\ wf v /\ P) True ms
  | _ => True
  end.

Fixpoint depth (t : jval) : Z :=
  match t with
  | JArr _ es => 1 + foldr (fun e m => Z.max (depth e) m) 0 es
  | JObj _ ms => 1 + foldr (fun '(_, v) m => Z.max (depth v) m) 0 ms
  | _ => 0
  end.

(** Induction on trees, with the hypothesis for every element. *)
Lemma jval_induction (P : jval -> Prop) :
  P JNull -> (forall b, P (JBool b)) -> (forall lit, P (JNum lit)) -> (forall lit, P (JStr lit)) ->
  (forall raw es, Forall P es -> P (JArr raw es)) ->
  (forall raw ms, Forall (fun kv => P (snd kv)) ms -> P (JObj raw ms)) ->
  forall t, P t.
Proof.
  intros H1 H2 H3 H4 H5 H6. fix IH 1. intros [ | b | lit | lit | raw es | raw ms]; [done | by apply H2 | by apply H3 | by apply H4 | | ].
  - apply H5. induction es as [|e es IHes]; constructor; [apply IH | exact IHes].
  - apply H6. induction ms as [|[k v] ms IHms]; constructor; [apply IH | exact IHms].
Qed.

Lemma length_app_string a b : String.length (a +:+ b) = (String.length a + String.length b)%nat.
Proof. induction a; cbn; [done | by f_equal]. Qed.

Lemma consumed_app p r : consumed (p +:+ r) r = p.
Proof.
  unfold consumed. rewrite length_app_string. replace (_ + _ - _)%nat with (String.length p) by lia.
  induction p as [|c p IH]; cbn; [by destruct r | by f_equal].
Qed.

Lemma join_cons x y l sep : join (x :: y :: l) sep = x +:+ sep +:+ join (y :: l) sep.
Proof. done. Qed.

(** The first byte of a value tells it from a blank and from a closing bracket. *)
Lemma print_head t : wf t -> exists c s, print t = String c s /\ is_blank c = false /\
  Ascii.eqb c "]"%char = false /\ Ascii.eqb c "}"%char = false.
Proof.
  destruct t as [ | [] | lit | lit | raw es | raw ms]; cbn -[is_blank]; intros Hwf; try (eexists _, _; split; [done|]; by_vm || (split_and!; by_vm)).
  destruct Hwf as ((c & s & -> & Hc) & _). exists c, s. split; [done|].
  revert Hc. clear. each_byte c; intros H; try discriminate H; split_and!; by_vm.
Qed.

Lemma starts_with_head c d s : Ascii.eqb c d = false -> starts_with d (String c s) = None.
Proof. intros H. cbn. rewrite H. done. Qed.

Lemma skip_blanks_head c s : is_blank c = false -> skip_blanks (String c s) = String c s.
Proof. intros H. cbn -[is_blank]. rewrite H. done. Qed.

(** What the main lemma says of one tree. *)
Definition reads_back (t : jval) : Prop := forall fuel d r,
  wf t -> delim r = true -> (String.length (print t) <= fuel)%nat -> d + depth t <= max_nesting_depth ->
  parse_value fuel d (print t +:+ r) = Some (norm t, r).

Lemma starts_with_same c s : starts_with c (String c s) = Some s.
Proof. cbn. by rewrite Ascii.eqb_refl. Qed.

(** A list of printed values starts like its first. *)
Lemma join_head t l sep : exists x, join (print t :: l) sep = print t +:+ x.
Proof. destruct l as [|y l]; [exists ""; by rewrite string_app_nil_r | eexists; apply join_cons]. Qed.

Lemma skip_print t x : wf t -> skip_blanks (print t +:+ x) = print t +:+ x.
Proof. intros (c & s & -> & Hb & _)%print_head. cbn [String.append]. by apply skip_blanks_head. Qed.

Lemma skip_join t l sep x : wf t -> skip_blanks (join (print t :: l) sep +:+ x) = join (print t :: l) sep +:+ x.
Proof. intros H. destruct (join_head t l sep) as [y ->]. rewrite string_app_assoc. by apply skip_print. Qed.

Lemma elems_read_back es : Forall reads_back es -> forall fuel d r,
  es <> [] -> foldr (fun e P => wf e /\ P) True es ->
  (String.length (join (map print es) ",") < fuel)%nat ->
  d + foldr (fun e m => Z.max (depth e) m) 0 es <= max_nesting_depth ->
  parse_elems fuel d (join (map print es) "," +:+ String "]"%char r) = Some (map norm es, r).
Proof.
  induction 1 as [|e es He Hes IH]; intros fuel d r Hne Hwf Hlen Hd; [done|].
  destruct Hwf as [Hwe Hwf]. cbn [foldr] in Hd. destruct fuel as [|fuel]; [lia|]. cbn [parse_elems].
  destruct es as [|e2 es].
  - change (join (map print [e]) ",") with (print e) in *. rewrite He by (done || lia).
    cbn [mbind option_bind]. rewrite skip_blanks_head by by_vm. rewrite starts_with_same. done.
  - change (map print (e :: e2 :: es)) with (print e :: print e2 :: map print es) in *.
    rewrite join_cons in *. rewrite !string_app_assoc. rewrite !length_app_string in Hlen. cbn [String.length] in Hlen.
    rewrite He by (done || lia). cbn [mbind option_bind String.append].
    rewrite skip_blanks_head by by_vm. rewrite starts_with_head by by_vm.
    rewrite starts_with_same. cbn [mbind option_bind]. rewrite skip_join by apply Hwf. rewrite IH by (done || (cbn [map]; lia)). done.
Qed.

Definition print_member (kv : string * jval) : string := quoted (fst kv) +:+ ":" +:+ print (snd kv).

Lemma print_obj raw ms : print (JObj raw ms) = String "{"%char (join (map print_member ms) "," +:+ "}").
Proof. cbn. do 3 f_equal. apply map_ext. by intros [k v]. Qed.

Lemma members_read_back ms : Forall (fun kv => reads_back (snd kv)) ms -> forall fuel d r,
  ms <> [] -> foldr (fun '(k, v) P => str_ok k /\ wf v /\ P) True ms ->
  (String.length (join (map print_member ms) ",") < fuel)%nat ->
  d + foldr (fun '(_, v) m => Z.max (depth v) m) 0 ms <= max_nesting_depth ->
  parse_members fuel d (join (map print_member ms) "," +:+ String "}"%char r) =
  Some (map (fun '(k, v) => (k, norm v)) ms, r).
Proof.
  induction 1 as [|[k v] ms Hv Hms IH]; intros fuel d r Hne Hwf Hlen Hd; [done|].
  destruct Hwf as (Hk & Hwv & Hwf). cbn [foldr snd] in *. destruct fuel as [|fuel]; [lia|]. cbn [parse_members].
  destruct ms as [|[k2 v2] ms].
  - change (join (map print_member [(k, v)]) ",") with (print_member (k, v)) in *.
    revert Hlen. unfold print_member, quoted. cbn [fst snd String.append]. rewrite !string_app_assoc.
    rewrite starts_with_same. cbn [mbind option_bind String.append]. rewrite Hk. cbn [mbind option_bind String.append].
    intros Hlen. cbn [String.length] in Hlen. rewrite !length_app_string in Hlen. cbn [String.length] in Hlen.
    rewrite skip_blanks_head by by_vm. rewrite starts_with_same. cbn [mbind option_bind].
    rewrite skip_print by done. rewrite Hv by (done || lia). cbn [mbind option_bind].
    rewrite skip_blanks_head by by_vm. rewrite starts_with_same. done.
  - change (map print_member ((k, v) :: (k2, v2) :: ms))
      with (print_member (k, v) :: print_member (k2, v2) :: map print_member ms) in *.
    rewrite join_cons in *. set (rest := join (print_member (k2, v2) :: map print_member ms) ",") in *.
    assert (Hrest : forall x, skip_blanks (rest +:+ x) = rest +:+ x).
    { assert (exists y, rest = String dquote y) as [y ->] by (subst rest; destruct (map print_member ms); by eexists).
      intros x. by apply skip_blanks_head. }
    revert Hlen. unfold print_member, quoted. cbn [fst snd String.append]. rewrite !string_app_assoc.
    rewrite starts_with_same. cbn [mbind option_bind String.append]. rewrite ?string_app_assoc.
    rewrite Hk. cbn [mbind option_bind String.append].
    intros Hlen. cbn [String.length] in Hlen. rewrite !length_app_string in Hlen. cbn [String.length] in Hlen.
    rewrite !length_app_string in Hlen. cbn [String.length] in Hlen.
    rewrite skip_blanks_head by by_vm. rewrite starts_with_same. cbn [mbind option_bind].
    rewrite skip_print by done. rewrite Hv by (done || lia). cbn [mbind option_bind].
    rewrite skip_blanks_head by by_vm. rewrite starts_with_head by by_vm.
    rewrite starts_with_same. cbn [mbind option_bind]. rewrite Hrest.
    rewrite IH by (done || lia || (change (String.length rest < fuel)%nat; lia)). done.
Qed.

Lemma foldr_max_nonneg {A} (f : A -> Z) l : 0 <= foldr (fun x m => Z.max (f x) m) 0 l.
Proof. induction l as [|x l IH]; [done|]. cbn [foldr]. lia. Qed.

Lemma foldr_snd_depth (ms : list (string * jval)) :
  foldr (fun '(_, v) m => Z.max (depth v) m) 0 ms = foldr (fun kv m => Z.max (depth (snd kv)) m) 0 ms.
Proof. induction ms as [|[k v] ms IH]; [done|]. cbn [foldr]. by rewrite IH. Qed.

Lemma join_not t l sep x : wf t -> starts_with "]"%char (join (print t :: l) sep +:+ x) = None.
Proof.
  intros (c & s & Hc & _ & Hc2 & _)%print_head. destruct (join_head t l sep) as [y ->]. rewrite Hc.
  by apply starts_with_head.
Qed.

(** A well-formed tree within the nesting bound is read back from its text. *)
Lemma print_reads_back t : reads_back t.
Proof.
  induction t as [ | b | lit | lit | raw es IH | raw ms IH] using jval_induction; intros fuel d r Hwf Hr Hlen Hd.
  1-4: destruct fuel as [|fuel]; [destruct (print_head _ Hwf) as (c & s & E & _); rewrite E in Hlen; cbn in Hlen; lia|].
  - cbn [parse_value]. change (print JNull +:+ r) with (String "n"%char ("ull" +:+ r)).
    cbn. done.
  - destruct b; done.
  - destruct Hwf as ((c & s & -> & Hc) & _ & Hn).
    cbn [print String.append parse_value].
    assert (Hh : Ascii.eqb c "{"%char = false /\ Ascii.eqb c "["%char = false /\ Ascii.eqb c dquote = false /\
      Ascii.eqb c "n"%char = false /\ Ascii.eqb c "t"%char = false /\ Ascii.eqb c "f"%char = false).
    { revert Hc. clear. each_byte c; intros H; try discriminate H; split_and!; by_vm. }
    destruct Hh as (-> & -> & -> & -> & -> & ->). change (String c (s +:+ r)) with (String c s +:+ r).
    rewrite Hn by done. done.
  - cbn [print quoted String.append parse_value]. rewrite string_app_assoc. cbn [String.append].
    cbn -[scan_string]. rewrite Hwf. done.
  - cbn [print] in *. cbn [String.append String.length] in Hlen. rewrite length_app_string in Hlen. cbn in Hlen.
    destruct fuel as [|fuel]; [lia|]. cbn [String.append]. rewrite string_app_assoc. cbn [String.append parse_value].
    cbn [depth] in Hd. change (Ascii.eqb "["%char "{"%char) with false. change (Ascii.eqb "["%char "["%char) with true.
    cbv iota. destruct (Z.leb_spec max_nesting_depth d) as [Hm|_].
    { pose proof (foldr_max_nonneg depth es). lia. }
    destruct es as [|e es].
    + cbn [map join String.concat String.append]. rewrite skip_blanks_head by by_vm. rewrite starts_with_same. cbn [norm map].
      do 3 f_equal. exact (consumed_app "[]" r).
    + cbn [map] in *. rewrite skip_join by apply Hwf.
      rewrite (join_not e) by (apply Hwf || auto).
      change (print e :: map print es) with (map print (e :: es)).
      rewrite elems_read_back by (done || (cbn [map]; lia)). cbn [mbind option_bind].
      do 2 f_equal. cbn [norm]. f_equal. etrans; [|exact (consumed_app (print (JArr raw (e :: es))) r)].
      cbn [print String.append]. rewrite string_app_assoc. done.
  - rewrite print_obj in *. cbn [String.append String.length] in Hlen. rewrite length_app_string in Hlen. cbn in Hlen.
    destruct fuel as [|fuel]; [lia|]. cbn [String.append]. rewrite string_app_assoc. cbn [String.append parse_value].
    cbn [depth] in Hd. change (Ascii.eqb "{"%char "{"%char) with true.
    cbv iota. destruct (Z.leb_spec max_nesting_depth d) as [Hm|_].
    { rewrite (foldr_snd_depth ms) in Hd. pose proof (foldr_max_nonneg (fun kv => depth (snd kv)) ms). lia. }
    destruct ms as [|[k v] ms].
    + cbn [map join String.concat String.append]. rewrite skip_blanks_head by by_vm. rewrite starts_with_same. cbn [norm map].
      do 3 f_equal. exact (consumed_app "{}" r).
    + assert (exists y, join (map print_member ((k, v) :: ms)) "," = String dquote y) as [y Hy]
        by (destruct ms; cbn; by eexists).
      rewrite Hy at 1. cbn [String.append]. rewrite skip_blanks_head by by_vm. rewrite starts_with_head by by_vm.
      rewrite Hy at 1. cbn [String.append]. rewrite skip_blanks_head by by_vm.
      change (String dquote (y +:+ ?z)) with (String dquote y +:+ z). rewrite <- Hy.
      rewrite members_read_back by (done || lia). cbn [mbind option_bind].
      do 2 f_equal. cbn [norm]. f_equal. etrans; [|exact (consumed_app (print (JObj raw ((k, v) :: ms))) r)]. rewrite print_obj.
      cbn [String.append]. rewrite string_app_assoc. done.
Qed.

Lemma parse_print t : wf t -> depth t <= max_nesting_depth -> parse (print t) = Some (norm t).
Proof.
  intros Hwf Hd. unfold parse. pose proof (skip_print t "" Hwf) as Hs. rewrite string_app_nil_r in Hs. rewrite Hs.
  pose proof (print_reads_back t (parse_fuel (print t)) 0 "" Hwf eq_refl) as H. rewrite string_app_nil_r in H.
  rewrite H by (unfold parse_fuel; lia). done.
Qed.

Lemma unmarshal_print {A} (d : Dec A) zero t : wf t -> depth t <= max_nesting_depth ->
  unmarshal d zero (print t) = match d (norm t) zero with Some a => Ok a | None => Err err_json end.
Proof. intros Hwf Hd. unfold unmarshal. rewrite parse_print by done. done. Qed.

(** ** What the parser builds is well-formed *)

Lemma scan_string_spec s l r : scan_string s = Some (l, r) -> s = l +:+ String dquote r /\ str_ok l.
Proof.
  revert l r. induction s as [s IH] using string_len_ind. intros l r H.
  destruct s as [|c s1]; [done|]. cbn [scan_string] in H.
  destruct (Ascii.eqb c dquote) eqn:E1.
  { injection H as <- <-. apply Ascii.eqb_eq in E1 as ->. split; [done|]. intros r. reflexivity. }
  destruct (Ascii.eqb c backslash) eqn:E2.
  - apply Ascii.eqb_eq in E2 as ->. destruct s1 as [|e s2]; [done|].
    destruct (is_simple_escape e) eqn:E3.
    { apply option_bind_Some in H as ([l1 r1] & H & Hx). injection Hx as <- <-.
      apply IH in H as [-> Hok]; [|cbn; lia]. split; [done|]. intros r. cbn [String.append].
      rewrite scan_simple, Hok by done. done. }
    destruct (Ascii.eqb e "u"%char) eqn:E4; [|done]. apply Ascii.eqb_eq in E4 as ->.
    destruct s2 as [|h1 [|h2 [|h3 [|h4 s6]]]]; try done.
    destruct (is_hex h1 && is_hex h2 && is_hex h3 && is_hex h4) eqn:E5; [|done].
    apply option_bind_Some in H as ([l1 r1] & H & Hx). injection Hx as <- <-.
    apply IH in H as [-> Hok]; [|cbn; lia]. split; [done|]. intros r. cbn [String.append].
    rewrite scan_hex, Hok by done. done.
  - destruct (byte_val c <? 32) eqn:E3; [done|].
    apply option_bind_Some in H as ([l1 r1] & H & Hx). injection Hx as <- <-.
    apply IH in H as [-> Hok]; [|cbn; lia]. split; [done|]. intros r. cbn [String.append].
    rewrite scan_plain, Hok by done. done.
Qed.

(** Numbers *)

Definition no_digit (r : string) : bool := match r with String c _ => negb (is_digit c) | EmptyString => true end.

Lemma take_digits_spec s d r : take_digits s = (d, r) ->
  s = d +:+ r /\ no_digit r = true /\ forall r', no_digit r' = true -> take_digits (d +:+ r') = (d, r').
Proof.
  revert d r. induction s as [|c s IH]; intros d r H; cbn -[is_digit] in H.
  { injection H as <- <-. split_and!; try done. intros [|c r'] Hr; [done|]. cbn -[is_digit] in *.
    destruct (is_digit c); done. }
  destruct (is_digit c) eqn:E.
  - destruct (take_digits s) as [d1 r1]. injection H as <- <-. destruct (IH _ _ eq_refl) as (-> & Hn & Hd).
    split_and!; try done. intros r' Hr. cbn -[is_digit]. rewrite E, Hd by done. done.
  - injection H as <- <-. split_and!; [done | cbn -[is_digit]; by rewrite E |].
    intros [|c' r'] Hr; [done|]. cbn -[is_digit] in *. destruct (is_digit c'); done.
Qed.

Lemma take_digits1_spec s d r : take_digits1 s = Some (d, r) ->
  s = d +:+ r /\ no_digit r = true /\ d <> "" /\ forall r', no_digit r' = true -> take_digits1 (d +:+ r') = Some (d, r').
Proof.
  unfold take_digits1. destruct (take_digits s) as [d1 r1] eqn:E. destruct (take_digits_spec _ _ _ E) as (-> & Hn & Hd).
  intros H. destruct d1 as [|c d1]; [done|]. injection H as <- <-. split_and!; try done.
  intros r' Hr. rewrite Hd by done. done.
Qed.

Lemma scan_int_spec s i r : scan_int s = Some (i, r) ->
  s = i +:+ r /\ (exists c x, i = String c x /\ is_digit c = true) /\
  forall r', no_digit r' = true -> scan_int (i +:+ r') = Some (i, r').
Proof.
  unfold scan_int. destruct s as [|c s]; [done|]. destruct (Ascii.eqb c "0"%char) eqn:E1.
  { intros [= <- <-]. apply Ascii.eqb_eq in E1 as ->. split_and!; [done | by eexists _, _ | done]. }
  destruct (is_digit19 c) eqn:E2; [|done]. destruct (take_digits s) as [d r1] eqn:E.
  destruct (take_digits_spec _ _ _ E) as (-> & _ & Hd). intros [= <- <-]. split_and!; [done | |].
  - eexists _, _. split; [done|]. revert E2. unfold is_digit19, is_digit, in_range. rewrite !andb_true_iff, !Z.leb_le. lia.
  - intros r' Hr. cbn [String.append]. rewrite E1, E2, Hd by done. done.
Qed.

Definition no_dot (r : string) : bool := match r with String c _ => negb (Ascii.eqb c "."%char) | EmptyString => true end.

Lemma scan_frac_none r : no_dot r = true -> scan_frac r = Some ("", r).
Proof. destruct r as [|c r]; [done|]. cbn. each_byte c; done. Qed.

Lemma scan_frac_spec s f r : scan_frac s = Some (f, r) ->
  s = f +:+ r /\ (f = "" \/ exists x, f = String "."%char x) /\
  forall r', no_digit r' = true -> no_dot r' = true -> scan_frac (f +:+ r') = Some (f, r').
Proof.
  intros H. destruct (no_dot s) eqn:En.
  { rewrite scan_frac_none in H by done. injection H as <- <-. split_and!; [done | by left |].
    intros r' _ Hr. by apply scan_frac_none. }
  destruct s as [|c s]; [done|]. cbn in En. apply negb_false_iff, Ascii.eqb_eq in En as ->. cbn in H.
  apply option_bind_Some in H as ([d r1] & H & Hx). injection Hx as <- <-.
  destruct (take_digits1_spec _ _ _ H) as (-> & _ & _ & Hd). split_and!; [done | right; by eexists |].
  intros r' Hr _. cbn. rewrite Hd by done. done.
Qed.

Definition no_exp (r : string) : bool := match r with String c _ => negb (is_exp c) | EmptyString => true end.

Lemma scan_exp_none r : no_exp r = true -> scan_exp r = Some ("", r).
Proof. destruct r as [|c r]; [done|]. cbn [scan_exp no_exp]. destruct (is_exp c); done. Qed.

Lemma take_digits1_head s x : take_digits1 s = Some x -> exists c s', s = String c s' /\ is_sign c = false.
Proof.
  destruct s as [|c s]; [done|]. unfold take_digits1. cbn -[is_digit]. destruct (is_digit c) eqn:E; [|done].
  intros _. eexists _, _. split; [done|]. revert E. clear. each_byte c; intros H; try discriminate H; by_vm.
Qed.

Lemma scan_exp_spec s e r : scan_exp s = Some (e, r) ->
  s = e +:+ r /\ (e = "" \/ exists c x, e = String c x /\ is_exp c = true) /\
  forall r', no_digit r' = true -> no_exp r' = true -> scan_exp (e +:+ r') = Some (e, r').
Proof.
  intros H. destruct (no_exp s) eqn:En.
  { rewrite scan_exp_none in H by done. injection H as <- <-. split_and!; [done | by left |].
    intros r' _ Hr. by apply scan_exp_none. }
  destruct s as [|c s]; [done|]. cbn [no_exp] in En. apply negb_false_iff in En. cbn [scan_exp] in H. rewrite En in H.
  destruct s as [|g s]; [done|]. destruct (is_sign g) eqn:Eg.
  - apply option_bind_Some in H as ([d r1] & H & Hx). injection Hx as <- <-.
    destruct (take_digits1_spec _ _ _ H) as (-> & _ & _ & Hd). split_and!; [done | right; by eexists _, _ |].
    intros r' Hr _. cbn [String.append scan_exp]. rewrite En, Eg, Hd by done. done.
  - apply option_bind_Some in H as ([d r1] & H & Hx). injection Hx as <- <-.
    destruct (take_digits1_spec _ _ _ H) as (E & _ & Hne & Hd). rewrite E. split_and!; [done | right; by eexists _, _ |].
    intros r' Hr _. cbn [String.append scan_exp]. rewrite En.
    destruct (take_digits1_head (d +:+ r') (d, r') (Hd r' Hr)) as (g' & s' & E' & Eg'). rewrite E', Eg'.
    rewrite <- E', Hd by done. done.
Qed.

Lemma delim_stops r : delim r = true -> no_digit r = true /\ no_dot r = true /\ no_exp r = true.
Proof.
  destruct r as [|c r]; [done|]. cbn [delim no_digit no_dot no_exp]. each_byte c; intros H; try discriminate H; split_and!; by_vm.
Qed.

(** The bytes a number is made of. *)
Definition num_byte (c : ascii) : bool := is_digit c || is_sign c || is_exp c || Ascii.eqb c "."%char.

Lemma digit_num_byte c : is_digit c = true -> num_byte c = true.
Proof. intros H. unfold num_byte. by rewrite H. Qed.

Lemma take_digits_bytes s d r : take_digits s = (d, r) -> all_bytes num_byte d = true.
Proof.
  revert d r. induction s as [|c s IH]; intros d r H; cbn -[is_digit] in H; [by injection H as <- <-|].
  destruct (is_digit c) eqn:E; [|by injection H as <- <-].
  destruct (take_digits s) as [d1 r1]. injection H as <- <-. cbn [all_bytes].
  rewrite (digit_num_byte c E). exact (IH _ _ eq_refl).
Qed.

Lemma take_digits1_bytes s d r : take_digits1 s = Some (d, r) -> all_bytes num_byte d = true.
Proof.
  unfold take_digits1. destruct (take_digits s) as [d1 r1] eqn:E. intros H. destruct d1; [done|]. injection H as <- <-.
  exact (take_digits_bytes _ _ _ E).
Qed.

Lemma scan_number_bytes s l r : scan_number s = Some (l, r) -> all_bytes num_byte l = true.
Proof.
  unfold scan_number. intros H.
  set (sg := match s with String c s' => if Ascii.eqb c "-"%char then ("-", s') else ("", s) | "" => ("", s) end) in H.
  assert (Hsg : all_bytes num_byte (fst sg) = true)
    by (subst sg; destruct s as [|c s']; [|destruct (Ascii.eqb c "-"%char)]; done).
  destruct sg as [sign s0]. cbn [fst] in Hsg.
  bind_inv H. destruct x as [i s1]. bind_inv H. destruct x as [f s2]. bind_inv H. destruct x as [e s3]. injection H as <- <-.
  rewrite !all_bytes_app, Hsg. cbn [andb].
  assert (all_bytes num_byte i = true) as ->.
  { unfold scan_int in H0. destruct s0 as [|c s0]; [done|]. destruct (Ascii.eqb c "0"%char); [by injection H0 as <- <-|].
    destruct (is_digit19 c) eqn:Ec; [|done]. destruct (take_digits s0) as [d r1] eqn:Ed. injection H0 as <- <-. cbn [all_bytes].
    rewrite (take_digits_bytes _ _ _ Ed), digit_num_byte; [done|]. revert Ec.
    unfold is_digit19, is_digit, in_range. rewrite !andb_true_iff, !Z.leb_le. lia. }
  assert (all_bytes num_byte f = true) as ->.
  { destruct (no_dot s1) eqn:En; [rewrite scan_frac_none in H1 by done; by injection H1 as <- <-|].
    destruct s1 as [|c s1]; [done|]. cbn in En. apply negb_false_iff, Ascii.eqb_eq in En as ->. cbn in H1.
    bind_inv H1. destruct x as [d r1]. injection H1 as <- <-. exact (take_digits1_bytes _ _ _ H). }
  unfold scan_exp in H2. destruct s2 as [|c s2]; [by injection H2 as <- <-|].
  destruct (is_exp c) eqn:Ec; [|by injection H2 as <- <-]. destruct s2 as [|g s2]; [done|].
  assert (Hc : num_byte c = true) by (unfold num_byte; by rewrite Ec, orb_true_r).
  destruct (is_sign g) eqn:Eg; bind_inv H2; destruct x as [d r1]; injection H2 as <- <-; cbn [all_bytes andb]; rewrite Hc;
    rewrite (take_digits1_bytes _ _ _ H); [|done].
  unfold num_byte. by rewrite Eg, orb_true_r.
Qed.

Lemma num_byte_no_ctl s : all_bytes num_byte s = true -> no_ctl s = true.
Proof.
  induction s as [|c s IH]; [done|]. cbn [all_bytes no_ctl]. rewrite !andb_true_iff. intros [Hc Hs]. split; [|auto].
  revert Hc. clear. each_byte c; intros H; try discriminate H; by_vm.
Qed.

Lemma digit_no_ctl c : is_digit c = true -> (byte_val c <? 32) = false.
Proof. unfold is_digit, in_range. rewrite andb_true_iff. lia. Qed.

Lemma scan_number_no_ctl s l r : scan_number s = Some (l, r) -> no_ctl l = true.
Proof. intros H. apply num_byte_no_ctl. exact (scan_number_bytes _ _ _ H). Qed.

Lemma scan_number_spec s l r : scan_number s = Some (l, r) -> s = l +:+ r /\ num_ok l.
Proof.
  intros H. pose proof (scan_number_no_ctl _ _ _ H) as Hctl. unfold scan_number in H.
  set (sg := match s with String c s' => if Ascii.eqb c "-"%char then ("-", s') else ("", s) | "" => ("", s) end) in H.
  assert (Hsg : s = fst sg +:+ snd sg /\ (fst sg = "" \/ fst sg = "-")).
  { subst sg. destruct s as [|c s']; [auto|]. destruct (Ascii.eqb c "-"%char) eqn:E; [|auto].
    apply Ascii.eqb_eq in E as ->. auto. }
  destruct sg as [sign s0]. cbn [fst snd] in Hsg. destruct Hsg as [-> Hsign].
  apply option_bind_Some in H as ([i s1] & Hi & H). apply option_bind_Some in H as ([f s2] & Hf & H).
  apply option_bind_Some in H as ([e s3] & He & H). injection H as <- <-.
  destruct (scan_int_spec _ _ _ Hi) as (-> & (c & x & -> & Hc) & Hi').
  destruct (scan_frac_spec _ _ _ Hf) as (-> & Hfs & Hf'). destruct (scan_exp_spec _ _ _ He) as (-> & Hes & He').
  split; [by rewrite !string_app_assoc|]. split.
  { destruct Hsign as [-> | ->]; cbn [String.append]; eexists _, _; (split; [done|]); unfold num_head; [by rewrite Hc, orb_true_r | done]. }
  split; [exact Hctl|].
  intros r (Hd & Hdot & Hexp)%delim_stops. unfold scan_number.
  assert (Hne : no_digit (e +:+ r) = true /\ no_dot (e +:+ r) = true).
  { destruct Hes as [-> | (ce & xe & -> & Hce)]; [done|]. cbn [String.append no_digit no_dot]. revert Hce. clear.
    each_byte ce; intros H; try discriminate H; split; by_vm. }
  assert (Hnf : no_digit (f +:+ e +:+ r) = true).
  { destruct Hfs as [-> | (xf & ->)]; [apply Hne | done]. }
  assert (Hc' : Ascii.eqb c "-"%char = false) by (revert Hc; clear; each_byte c; intros H; try discriminate H; by_vm).
  destruct Hsign as [-> | ->]; cbn [String.append].
  - rewrite Hc'. rewrite !string_app_assoc.
    change (String c (x +:+ f +:+ e +:+ r)) with (String c x +:+ (f +:+ e +:+ r)). rewrite Hi' by done.
    cbn [mbind option_bind]. rewrite Hf' by apply Hne. cbn [mbind option_bind]. rewrite He' by done. done.
  - rewrite Ascii.eqb_refl. rewrite !string_app_assoc.
    change (String c (x +:+ f +:+ e +:+ r)) with (String c x +:+ (f +:+ e +:+ r)). rewrite Hi' by done.
    cbn [mbind option_bind]. rewrite Hf' by apply Hne. cbn [mbind option_bind]. rewrite He' by done. done.
Qed.

Definition elems_depth (es : list jval) : Z := foldr (fun e m => Z.max (depth e) m) 0 es.
Definition members_depth (ms : list (string * jval)) : Z := foldr (fun '(_, v) m => Z.max (depth v) m) 0 ms.
Definition elems_wf (es : list jval) : Prop := foldr (fun e P => wf e /\ P) True es.
Definition members_wf (ms : list (string * jval)) : Prop := foldr (fun '(k, v) P => str_ok k /\ wf v /\ P) True ms.

Lemma parse_spec fuel :
  (forall d s t r, d <= max_nesting_depth -> parse_value fuel d s = Some (t, r) ->
     wf t /\ d + depth t <= max_nesting_depth) /\
  (forall d s es r, d <= max_nesting_depth -> parse_elems fuel d s = Some (es, r) ->
     elems_wf es /\ d + elems_depth es <= max_nesting_depth) /\
  (forall d s ms r, d <= max_nesting_depth -> parse_members fuel d s = Some (ms, r) ->
     members_wf ms /\ d + members_depth ms <= max_nesting_depth).
Proof.
  induction fuel as [|fuel (IHv & IHe & IHm)]; [done|]. split_and!.
  - intros d s t r Hd H. destruct s as [|c s1]; [done|]. cbn [parse_value] in H.
    repeat match type of H with (if ?b then _ else _) = _ => destruct b eqn:? end; try done.
    + destruct (starts_with _ _); [injection H as <- <-; cbn; lia|]. bind_inv H. destruct x as [ms r1]. injection H as <- <-.
      apply IHm in H0; [|lia]. unfold members_wf, members_depth in H0. cbn [wf depth]. split; [apply H0 | lia].
    + destruct (starts_with _ _); [injection H as <- <-; cbn; lia|]. bind_inv H. destruct x as [es r1]. injection H as <- <-.
      apply IHe in H0; [|lia]. unfold elems_wf, elems_depth in H0. cbn [wf depth]. split; [apply H0 | lia].
    + bind_inv H. destruct x as [l r1]. injection H as <- <-. apply scan_string_spec in H0 as [_ H0]. cbn. split; [done|lia].
    + bind_inv H. injection H as <- <-. cbn. split; [done|lia].
    + bind_inv H. injection H as <- <-. cbn. split; [done|lia].
    + bind_inv H. injection H as <- <-. cbn. split; [done|lia].
    + bind_inv H. destruct x as [l r1]. injection H as <- <-. apply scan_number_spec in H0 as [_ H0]. cbn. split; [done|lia].
  - intros d s es r Hd H. cbn [parse_elems] in H. bind_inv H. destruct x as [v r1]. apply IHv in H0; [|done].
    destruct (starts_with _ _).
    { injection H as <- <-. cbn. split; [split; [apply H0 | done] | lia]. }
    bind_inv H. bind_inv H. destruct x0 as [vs r3]. injection H as <- <-. apply IHe in H2; [|done].
    unfold elems_depth, elems_wf in *. cbn [foldr]. split; [split; [apply H0 | apply H2] | lia].
  - intros d s ms r Hd H. cbn [parse_members] in H. bind_inv H. bind_inv H. destruct x0 as [k r0].
    apply scan_string_spec in H1 as [_ H1]. bind_inv H. bind_inv H. destruct x1 as [v r1]. apply IHv in H3; [|done].
    destruct (starts_with "}"%char _).
    { injection H as <- <-. cbn. split; [split_and!; [done | apply H3 | done] | lia]. }
    bind_inv H. bind_inv H. destruct x2 as [vs r3]. injection H as <- <-. apply IHm in H5; [|done].
    unfold members_depth, members_wf in *. cbn [foldr]. split; [split_and!; [done | apply H3 | apply H5] | lia].
Qed.

Lemma parse_wf s t : parse s = Some t -> wf t /\ depth t <= max_nesting_depth.
Proof.
  unfold parse. intros H. bind_inv H. destruct x as [v r]. destruct (skip_blanks r); [|done]. injection H as <-.
  apply (proj1 (parse_spec _)) in H0; [|done]. split; [apply H0 | lia].
Qed.

(** ** HTML escaping keeps a tree well-formed *)

Definition plain (a : ascii) : bool := negb (Ascii.eqb a dquote || Ascii.eqb a backslash || (byte_val a <? 32)).

(** The escapes and bytes a literal is made of. *)
Lemma str_ok_cases l : str_ok l ->
  l = "" \/
  (exists a l', l = String a l' /\ plain a = true /\ str_ok l') \/
  (exists e l', l = String backslash (String e l') /\ is_simple_escape e = true /\ str_ok l') \/
  (exists h1 h2 h3 h4 l', l = String backslash (String "u"%char (String h1 (String h2 (String h3 (String h4 l'))))) /\
     is_hex h1 && is_hex h2 && is_hex h3 && is_hex h4 = true /\ str_ok l').
Proof.
  intros Hok. destruct l as [|c l]; [by left|]. specialize (Hok ""). cbn [String.append scan_string] in Hok.
  destruct (Ascii.eqb c dquote) eqn:E1; [done|]. destruct (Ascii.eqb c backslash) eqn:E2.
  - apply Ascii.eqb_eq in E2 as ->. destruct l as [|e l]; [done|]. cbn [String.append] in Hok.
    destruct (is_simple_escape e) eqn:E3.
    { bind_inv Hok. destruct x as [l1 r1]. injection Hok as -> ->. right; right; left.
      eexists _, _. split; [done|]. split; [done|]. exact (proj2 (scan_string_spec _ _ _ H)). }
    destruct (Ascii.eqb e "u"%char) eqn:E4; [|done]. apply Ascii.eqb_eq in E4 as ->.
    destruct l as [|h1 [|h2 [|h3 [|h4 l]]]]; try done; cbn [String.append] in Hok; try done.
    { destruct (is_hex h1 && is_hex h2 && is_hex h3 && is_hex dquote); done. }
    destruct (is_hex h1 && is_hex h2 && is_hex h3 && is_hex h4) eqn:E5; [|done].
    bind_inv Hok. destruct x as [l1 r1]. injection Hok as -> ->. right; right; right.
    eexists _, _, _, _, _. split; [done|]. split; [done|]. exact (proj2 (scan_string_spec _ _ _ H)).
  - destruct (byte_val c <? 32) eqn:E3; [done|]. bind_inv Hok. destruct x as [l1 r1]. injection Hok as -> ->.
    right; left. eexists _, _. split; [done|]. unfold plain. rewrite E1, E2, E3. split; [done|].
    exact (proj2 (scan_string_spec _ _ _ H)).
Qed.

Lemma str_ok_plain a l : plain a = true -> str_ok l -> str_ok (String a l).
Proof.
  unfold plain. rewrite negb_true_iff, !orb_false_iff. intros [[H1 H2] H3] Hl r. cbn [String.append].
  rewrite scan_plain, Hl by done. done.
Qed.

Lemma str_ok_simple e l : is_simple_escape e = true -> str_ok l -> str_ok (String backslash (String e l)).
Proof. intros H Hl r. cbn [String.append]. rewrite scan_simple, Hl by done. done. Qed.

Lemma str_ok_hex h1 h2 h3 h4 l : is_hex h1 && is_hex h2 && is_hex h3 && is_hex h4 = true -> str_ok l ->
  str_ok (String backslash (String "u"%char (String h1 (String h2 (String h3 (String h4 l)))))).
Proof. intros H Hl r. cbn [String.append]. rewrite scan_hex, Hl by done. done. Qed.

Lemma escape_html_skip a l : is_html a = false -> (byte_val a =? 0xE2) = false ->
  escape_html (String a l) = String a (escape_html l).
Proof.
  intros H1 H2. cbn [escape_html]. rewrite H1. destruct l as [|b [|c l]]; try done.
  unfold is_line_sep. rewrite H2. done.
Qed.

Lemma is_hex_bytes h : is_hex h = true -> is_html h = false /\ (byte_val h =? 0xE2) = false.
Proof. each_byte h; intros H; try discriminate H; split; by_vm. Qed.

Lemma str_ok_escape_html l : str_ok l -> str_ok (escape_html l).
Proof.
  induction l as [l IH] using string_len_ind. intros Hl.
  destruct (str_ok_cases l Hl) as [->|[(a & l' & -> & Ha & Hl')|[(e & l' & -> & He & Hl')|
    (h1 & h2 & h3 & h4 & l' & -> & Hh & Hl')]]].
  - done.
  - destruct (is_html a) eqn:E1.
    { cbn [escape_html]. rewrite E1. clear -E1 IH Hl'. unfold unicode_escape. cbn [String.append].
      apply str_ok_hex; [|apply IH; [cbn; lia | done]]. revert E1. clear. each_byte a; intros H; try discriminate H; by_vm. }
    destruct (byte_val a =? 0xE2) eqn:E2; [|rewrite escape_html_skip by done; apply str_ok_plain; [done|]; apply IH; [cbn; lia | done]].
    cbn [escape_html]. rewrite E1. destruct l' as [|b [|c l'']].
    1-2: apply str_ok_plain; [done|]; apply IH; [cbn; lia | done].
    destruct (is_line_sep a b c) eqn:E3; [|apply str_ok_plain; [done|]; apply IH; [cbn; lia | done]].
    apply line_sep_cases in E3 as (-> & -> & Hc).
    assert (Hl'' : str_ok l'').
    { apply str_ok_cases in Hl' as [?|[(? & ? & [= <- <-] & _ & H)|[(? & ? & [=] & _)|(? & ? & ? & ? & ? & [=] & _)]]]; [done|].
      apply str_ok_cases in H as [?|[(? & ? & [= <- <-] & _ & H)|[(? & ? & [= -> _] & _)|(? & ? & ? & ? & ? & [= -> _] & _)]]];
        [done | done | by destruct Hc | by destruct Hc]. }
    destruct Hc as [-> | ->]; apply str_ok_hex; try by_vm; apply IH; (done || (cbn; lia)).
  - assert (is_html e = false /\ (byte_val e =? 0xE2) = false) as [H1 H2].
    { revert He. clear. each_byte e; intros H; try discriminate H; split; by_vm. }
    rewrite !escape_html_skip by (done || by_vm). apply str_ok_simple; [done|]. apply IH; [cbn; lia | done].
  - pose proof Hh as Hx. rewrite !andb_true_iff in Hx. destruct Hx as [[[H1 H2] H3] H4].
    apply is_hex_bytes in H1 as [? ?], H2 as [? ?], H3 as [? ?], H4 as [? ?].
    rewrite !escape_html_skip by (done || by_vm). apply str_ok_hex; [done|]. apply IH; [cbn; lia | done].
Qed.

Lemma str_ok_no_ctl l : str_ok l -> no_ctl l = true.
Proof.
  induction l as [l IH] using string_len_ind. intros Hl.
  destruct (str_ok_cases l Hl) as [->|[(a & l' & -> & Ha & Hl')|[(e & l' & -> & He & Hl')|
    (h1 & h2 & h3 & h4 & l' & -> & Hh & Hl')]]].
  - done.
  - cbn [no_ctl]. rewrite IH by (done || (cbn; lia)). unfold plain in Ha. rewrite negb_true_iff, !orb_false_iff in Ha.
    destruct Ha as [_ ->]. done.
  - cbn [no_ctl]. rewrite IH by (done || (cbn; lia)).
    assert ((byte_val e <? 32) = false) as -> by (revert He; clear; each_byte e; intros H; try discriminate H; by_vm). done.
  - cbn [no_ctl]. rewrite IH by (done || (cbn; lia)).
    assert (Hx : forall h, is_hex h = true -> (byte_val h <? 32) = false)
      by (clear; intros h; each_byte h; intros H; try discriminate H; by_vm).
    rewrite !andb_true_iff in Hh. destruct Hh as [[[H1 H2] H3] H4]. rewrite (Hx h1), (Hx h2), (Hx h3), (Hx h4) by done. done.
Qed.

Lemma join_no_ctl l sep : no_ctl sep = true -> Forall (fun s => no_ctl s = true) l -> no_ctl (join l sep) = true.
Proof.
  intros Hsep. induction 1 as [|x l Hx Hl IH]; [done|]. destruct l as [|y l]; [done|].
  rewrite join_cons, !no_ctl_app, Hx, Hsep, IH. done.
Qed.

Lemma print_no_ctl t : wf t -> no_ctl (print t) = true.
Proof.
  induction t as [ | b | lit | lit | raw es IH | raw ms IH] using jval_induction; intros Hwf.
  - done.
  - by destruct b.
  - exact (proj1 (proj2 Hwf)).
  - cbn [print quoted no_ctl]. rewrite no_ctl_app, (str_ok_no_ctl lit) by exact Hwf. done.
  - cbn [print]. rewrite !no_ctl_app. rewrite join_no_ctl; [done | done |]. cbn [wf] in Hwf.
    induction IH as [|e es He IH IHes]; [constructor|]. destruct Hwf as [Hwe Hwf]. constructor; auto.
  - rewrite print_obj. cbn [no_ctl]. rewrite no_ctl_app, join_no_ctl; [done | done |]. cbn [wf] in Hwf.
    induction IH as [|[k v] ms Hv IH IHms]; [constructor|]. destruct Hwf as (Hk & Hwv & Hwf). constructor; [|auto].
    cbn [snd] in Hv. unfold print_member, quoted. cbn [fst snd String.append no_ctl]. rewrite !no_ctl_app. cbn [no_ctl].
    rewrite (str_ok_no_ctl k), Hv by done. done.
Qed.

Lemma html_tree_wf t : wf t -> wf (html_tree t).
Proof.
  induction t as [ | b | lit | lit | raw es IH | raw ms IH] using jval_induction; intros Hwf; try done.
  - by apply str_ok_escape_html.
  - cbn [wf html_tree] in *. induction IH as [|e es He IH IHes]; [done|]. destruct Hwf. cbn. auto.
  - cbn [wf html_tree] in *. induction IH as [|[k v] ms Hv IH IHms]; [done|]. destruct Hwf as (? & ? & ?). cbn.
    split_and!; auto using str_ok_escape_html.
Qed.

Lemma html_tree_depth t : depth (html_tree t) = depth t.
Proof.
  induction t as [ | b | lit | lit | raw es IH | raw ms IH] using jval_induction; try done.
  - cbn [depth html_tree]. f_equal. induction IH as [|e es He IH IHes]; [done|]. cbn. by rewrite He, IHes.
  - cbn [depth html_tree]. f_equal. induction IH as [|[k v] ms Hv IH IHms]; [done|]. cbn. cbn in Hv. by rewrite Hv, IHms.
Qed.

(** ** What the encoders build is well-formed *)

Definition enc_ok (n : Z) (e : Enc) : Prop := forall t, e = Some t -> wf t /\ depth t <= n.

Lemma str_ok_quote s : str_ok (quote s).
Proof. intros r. apply scan_quote. Qed.

Lemma enc_string_ok n s : 0 <= n -> enc_ok n (enc_string s).
Proof. intros Hn t [= <-]. split; [apply str_ok_quote | done]. Qed.

Lemma enc_bool_ok n b : 0 <= n -> enc_ok n (enc_bool b).
Proof. by intros Hn t [= <-]. Qed.

Lemma enc_null_ok n : 0 <= n -> enc_ok n enc_null.
Proof. by intros Hn t [= <-]. Qed.

Lemma enc_raw_ok n r : max_nesting_depth <= n -> enc_ok n (enc_raw r).
Proof.
  intros Hn t. unfold enc_raw. destruct (r =s? ""); [intros [= <-]; unfold max_nesting_depth in Hn; cbn; split; [done | lia]|].
  intros H. bind_inv H. injection H as <-. apply parse_wf in H0 as [Hw Hd]. rewrite html_tree_depth.
  split; [by apply html_tree_wf | lia].
Qed.

Lemma enc_list_ok n es : 0 <= n -> Forall (enc_ok n) es -> enc_ok (n + 1) (enc_list es).
Proof.
  intros Hn Hes t H. unfold enc_list in H. bind_inv H. injection H as <-. apply mapM_Some in H0.
  cbn [wf depth]. cut (elems_wf x /\ elems_depth x <= n). { intros [? ?]. split; [done|]. unfold elems_depth in *. lia. }
  induction H0 as [|e v es vs Hev H0 IH]; [done|]. apply Forall_cons in Hes as [He Hes].
  destruct (He v Hev) as [? ?]. destruct (IH Hes) as [? ?]. unfold elems_wf, elems_depth in *. cbn [foldr]. split; [done|lia].
Qed.

Lemma enc_object_ok n ms : 0 <= n -> Forall (fun m => enc_ok n (snd m)) ms -> enc_ok (n + 1) (enc_object ms).
Proof.
  intros Hn Hms t H. unfold enc_object in H. bind_inv H. injection H as <-.
  cbn [wf depth]. cut (members_wf x /\ members_depth x <= n). { intros [? ?]. split; [done|]. unfold members_depth in *. lia. }
  revert x H0. induction Hms as [|[[name []] e] ms He Hms IH]; intros x H; cbn in H.
  - by injection H as <-.
  - bind_inv H. bind_inv H. injection H as <-. destruct (He _ H0) as [? ?]. destruct (IH _ H1) as [? ?].
    unfold members_wf, members_depth in *. cbn [foldr]. split; [split_and!; auto using str_ok_quote | lia].
  - auto.
Qed.

Lemma enc_slice_ok {A} n (e : A -> Enc) l : 0 <= n -> (forall a, enc_ok n (e a)) -> enc_ok (n + 1) (enc_slice e l).
Proof.
  intros Hn He. destruct l as [|a l]; [apply enc_null_ok; lia|]. apply enc_list_ok; [done|].
  apply Forall_forall. intros x. change (e a :: map e l) with (map e (a :: l)). intros Hx.
  apply list_elem_of_In, in_map_iff in Hx as (y & <- & _). apply He.
Qed.

Lemma enc_ptr_ok {A} n (e : A -> Enc) p : 0 <= n -> (forall a, enc_ok n (e a)) -> enc_ok n (enc_ptr e p).
Proof. intros Hn He. destruct p; [apply He | by apply enc_null_ok]. Qed.

Lemma enc_ok_mono n m e : n <= m -> enc_ok n e -> enc_ok m e.
Proof. intros Hnm He t Ht. destruct (He t Ht). split; [done|lia]. Qed.

(** ** Integers *)

Fixpoint all_digits (s : string) : bool :=
  match s with String c s => is_digit c && all_digits s | EmptyString => true end.

Lemma pretty_N_char_digit n : (n < 10)%N -> is_digit (pretty_N_char n) = true /\ (n <> 0%N -> is_digit19 (pretty_N_char n) = true).
Proof.
  intros Hn. destruct n as [|p]; [by split|].
  do 4 (try destruct p as [p|p|]); first [split; [by_vm | intros _; by_vm] | lia].
Qed.

Lemma pretty_N_go_shape x s : (0 < x)%N -> exists c d, pretty_N_go x s = String c (d +:+ s) /\
  is_digit19 c = true /\ all_digits d = true.
Proof.
  revert s. induction (N.lt_wf_0 x) as [x _ IH]. intros s Hx. rewrite pretty_N_go_step by done.
  pose proof (pretty_N_char_digit (x `mod` 10) ltac:(apply N.mod_lt; done)) as [Hd Hd19].
  destruct (decide (x < 10)%N) as [Hlt|Hge].
  - rewrite N.div_small, N.mod_small by done. rewrite pretty_N_go_0.
    exists (pretty_N_char x), "". rewrite N.mod_small in Hd19 by done. split_and!; [done | apply Hd19; lia | done].
  - destruct (IH (x `div` 10)%N) with (s := String (pretty_N_char (x `mod` 10)) s) as (c & d & -> & Hc & Hds).
    { apply N.div_lt; lia. } { apply N.div_str_pos. lia. }
    exists c, (d +:+ String (pretty_N_char (x `mod` 10)) ""). rewrite string_app_assoc. split_and!; [done..|].
    clear -Hds Hd. induction d as [|a d IHd]; cbn [String.append all_digits]; [by rewrite Hd|].
    cbn in Hds. apply andb_true_iff in Hds as [-> Hds]. auto.
Qed.

Lemma all_digits_bytes (p : ascii -> bool) : (forall c, is_digit c = true -> p c = true) ->
  forall s, all_digits s = true -> all_bytes p s = true.
Proof.
  intros Hp s. induction s as [|c s IH]; [done|]. cbn. intros [Hc Hs]%andb_prop. by rewrite (Hp _ Hc), IH.
Qed.

Lemma pretty_digits (z : Z) : 0 <= z -> all_digits (pretty z) = true.
Proof.
  intros Hz. destruct z as [|p|p]; [done| |lia]. destruct (pretty_N_go_shape (N.pos p) "" ltac:(done)) as (c & d & E & Hc & Hd).
  change (pretty (Z.pos p)) with (pretty_N_go (N.pos p) ""). rewrite E, string_app_nil_r. cbn [all_digits].
  rewrite Hd, andb_true_r. revert Hc. unfold is_digit19, is_digit, in_range. lia.
Qed.

Lemma take_all_digits d r : all_digits d = true -> no_digit r = true -> take_digits (d +:+ r) = (d, r).
Proof.
  intros Hd Hr. induction d as [|c d IH].
  - destruct r as [|c r]; [done|]. cbn [String.append take_digits]. cbn in Hr. apply negb_true_iff in Hr. rewrite Hr. done.
  - cbn [all_digits] in Hd. apply andb_true_iff in Hd as [Hc Hd]. cbn [String.append take_digits]. rewrite Hc, IH by done. done.
Qed.

Lemma all_digits_no_ctl d : all_digits d = true -> no_ctl d = true.
Proof.
  induction d as [|c d IH]; [done|]. cbn [all_digits no_ctl]. intros [Hc Hd]%andb_true_iff.
  rewrite (digit_no_ctl c Hc), IH by done. done.
Qed.

Lemma digit19_facts c : is_digit19 c = true ->
  Ascii.eqb c "-"%char = false /\ Ascii.eqb c "0"%char = false /\ (byte_val c <? 32) = false /\ num_head c = true.
Proof. each_byte c; intros H; try discriminate H; split_and!; by_vm. Qed.

Lemma num_ok_digits c d : is_digit19 c = true -> all_digits d = true -> num_ok (String c d) /\ num_ok (String "-"%char (String c d)).
Proof.
  intros Hc Hd. destruct (digit19_facts c Hc) as (E1 & E2 & E3 & E4).
  assert (Hscan : forall r, delim r = true -> (f ← scan_int (String c (d +:+ r));
     '(i, s1) ← Some f; '(f, s2) ← scan_frac s1; '(e, s3) ← scan_exp s2; Some (i +:+ f +:+ e, s3)) = Some (String c d, r)).
  { intros r (H1 & H2 & H3)%delim_stops. unfold scan_int. rewrite E2, Hc, take_all_digits by done. cbn [mbind option_bind].
    rewrite scan_frac_none by done. cbn [mbind option_bind]. rewrite scan_exp_none by done. cbn [mbind option_bind].
    cbn [String.append]. by rewrite !string_app_nil_r. }
  split.
  - split_and!; [by eexists _, _ | cbn [no_ctl]; by rewrite E3, all_digits_no_ctl |]. intros r Hr. specialize (Hscan r Hr).
    unfold scan_number. cbn [String.append]. rewrite E1. cbn [String.append].
    destruct (scan_int _) as [[i s1]|]; [|done]. exact Hscan.
  - split_and!; [by eexists _, _ | cbn [no_ctl]; by rewrite E3, all_digits_no_ctl |]. intros r Hr. specialize (Hscan r Hr).
    unfold scan_number. cbn [String.append]. rewrite Ascii.eqb_refl.
    destruct (scan_int _) as [[i s1]|]; [|done]. cbn [mbind option_bind] in Hscan |- *.
    destruct (scan_frac s1) as [[f s2]|]; [|done]. cbn [mbind option_bind] in Hscan |- *.
    destruct (scan_exp s2) as [[e s3]|]; [|done]. cbn [mbind option_bind] in Hscan |- *.
    injection Hscan as E ->. do 2 f_equal. cbn [String.append]. f_equal. exact E.
Qed.

Lemma num_ok_pretty (z : Z) : num_ok (pretty z).
Proof.
  destruct z as [|p|p].
  - split_and!; [by eexists _, _ | done |]. intros r (H1 & H2 & H3)%delim_stops.
    change (pretty 0) with "0". unfold scan_number. cbn. rewrite scan_frac_none by done. cbn. rewrite scan_exp_none by done. done.
  - destruct (pretty_N_go_shape (N.pos p) "" ltac:(done)) as (c & d & E & Hc & Hd). rewrite string_app_nil_r in E.
    assert (E' : pretty (Z.pos p) = String c d) by exact E. rewrite E'. by apply num_ok_digits.
  - destruct (pretty_N_go_shape (N.pos p) "" ltac:(done)) as (c & d & E & Hc & Hd). rewrite string_app_nil_r in E.
    assert (E' : pretty (Z.neg p) = String "-"%char (String c d)) by (cbn; f_equal; exact E). rewrite E'. by apply num_ok_digits.
Qed.

Lemma digits_val_go x s acc : exists k, 0 <= k /\ digits_val acc (pretty_N_go x s) = digits_val (acc * 10 ^ k + Z.of_N x) s.
Proof.
  revert s. induction (N.lt_wf_0 x) as [x _ IH]. intros s. destruct (decide (x = 0)%N) as [->|Hx].
  { exists 0. split; [done|]. rewrite pretty_N_go_0. f_equal. cbn. lia. }
  rewrite pretty_N_go_step by lia. destruct (IH (x `div` 10)%N (N.div_lt x 10 ltac:(lia) ltac:(lia))
    (String (pretty_N_char (x `mod` 10)) s)) as (k & Hk & ->).
  exists (k + 1). split; [lia|]. pose proof (pretty_N_char_digit (x `mod` 10) ltac:(apply N.mod_lt; done)) as [Hd _].
  cbn [digits_val]. rewrite Hd. f_equal.
  assert (byte_val (pretty_N_char (x `mod` 10)) - 48 = Z.of_N (x `mod` 10)) as ->.
  { pose proof (N.mod_lt x 10 ltac:(done)) as Hlt. revert Hlt. clear. generalize (x `mod` 10)%N as d. intros [|p] Hp; [done|].
    do 4 (try destruct p as [p|p|]); (reflexivity || lia). }
  rewrite Z.pow_add_r by lia. change (10 ^ 1) with 10. rewrite N2Z.inj_div, N2Z.inj_mod.
  pose proof (Z.div_mod (Z.of_N x) 10 ltac:(done)) as E. lia.
Qed.

Lemma pretty_positive z : 0 < z -> exists c d, pretty z = String c d /\ is_digit c = true /\ all_digits d = true /\
  digits_val 0 (pretty z) = Some z.
Proof.
  intros Hz. destruct z as [|p|p]; [lia| |lia]. destruct (pretty_N_go_shape (N.pos p) "" ltac:(done)) as (c & d & E & Hc & Hd).
  rewrite string_app_nil_r in E. change (pretty (Z.pos p)) with (pretty_N_go (N.pos p) "").
  destruct (digits_val_go (N.pos p) "" 0) as (k & _ & Ev). exists c, d. split_and!; [exact E | | exact Hd |].
  - revert Hc. unfold is_digit19, is_digit, in_range. lia.
  - rewrite Ev. cbn. done.
Qed.

Lemma parse_int64_pretty z : int64_range z -> parse_int64 (pretty z) = Some z.
Proof.
  intros Hz. unfold int64_range in Hz. assert (Hb : (min_int64 <=? z) && (z <=? max_int64) = true) by (unfold min_int64, max_int64; lia).
  destruct (Z.lt_trichotomy z 0) as [Hn|[->|Hp]]; [|reflexivity|].
  - destruct (pretty_positive (- z)) as (c & d & E & Hc & _ & Hv); [lia|]. destruct z as [|p|p]; [lia|lia|].
    change (- Z.neg p) with (Z.pos p) in Hv.
    unfold parse_int64. change (pretty (Z.neg p)) with (String "-" (pretty (Z.pos p))). cbv iota. rewrite Ascii.eqb_refl, Hv. cbv [mbind option_bind]. change (- Z.pos p) with (Z.neg p). by rewrite Hb.
  - destruct (pretty_positive z) as (c & d & E & Hc & _ & Hv); [lia|]. rewrite E in Hv |- *. unfold parse_int64.
    assert (Ascii.eqb c "-"%char = false) as ->.
    { revert Hc. clear. destruct c as [[] [] [] [] [] [] [] []]; intros H; (reflexivity || discriminate H). }
    rewrite Hv. cbv [mbind option_bind]. by rewrite Hb.
Qed.

Lemma enc_int_ok n z : 0 <= n -> enc_ok n (enc_int z).
Proof. intros Hn t [= <-]. split; [apply num_ok_pretty | done]. Qed.

Create HintDb json.
#[export] Hint Resolve enc_string_ok enc_bool_ok enc_null_ok enc_int_ok enc_ptr_ok enc_slice_ok : json.

(** A marshalled document fits on one line. *)
Lemma marshal_no_ctl n e s : enc_ok n e -> marshal e = Ok s -> no_ctl s = true.
Proof.
  intros He H. unfold marshal in H. destruct e as [t|]; [|done]. injection H as <-. apply print_no_ctl. by apply (He t).
Qed.

(** The same without the nesting bound: enough for what does not read the
    document back. *)
Definition enc_wf (e : Enc) : Prop := forall t, e = Some t -> wf t.

Lemma enc_ok_wf n e : enc_ok n e -> enc_wf e.
Proof. intros H t Ht. by apply (H t). Qed.

Lemma enc_string_wf s : enc_wf (enc_string s).
Proof. by apply (enc_ok_wf 0), enc_string_ok. Qed.
Lemma enc_int_wf z : enc_wf (enc_int z).
Proof. by apply (enc_ok_wf 0), enc_int_ok. Qed.
Lemma enc_bool_wf b : enc_wf (enc_bool b).
Proof. by apply (enc_ok_wf 0), enc_bool_ok. Qed.
Lemma enc_null_wf : enc_wf enc_null.
Proof. by apply (enc_ok_wf 0), enc_null_ok. Qed.
Lemma enc_raw_wf r : enc_wf (enc_raw r).
Proof. by apply (enc_ok_wf max_nesting_depth), enc_raw_ok. Qed.

Lemma enc_list_wf es : Forall enc_wf es -> enc_wf (enc_list es).
Proof.
  intros Hes t H. unfold enc_list in H. bind_inv H. injection H as <-. apply mapM_Some in H0. cbn [wf].
  induction H0 as [|e v es vs Hev H0 IH]; [done|]. apply Forall_cons in Hes as [He Hes]. split; [by apply He | auto].
Qed.

Lemma enc_map_wf {A} (e : A -> Enc) l : (forall a, enc_wf (e a)) -> enc_wf (enc_list (map e l)).
Proof. intros He. apply enc_list_wf. induction l; constructor; auto. Qed.

Lemma enc_slice_wf {A} (e : A -> Enc) l : (forall a, enc_wf (e a)) -> enc_wf (enc_slice e l).
Proof. intros He. destruct l; [apply enc_null_wf | by apply (enc_map_wf e (a :: l))]. Qed.

Lemma enc_ptr_wf {A} (e : A -> Enc) p : (forall a, enc_wf (e a)) -> enc_wf (enc_ptr e p).
Proof. intros He. destruct p; [apply He | apply enc_null_wf]. Qed.

Lemma enc_object_wf ms : Forall (fun m => enc_wf (snd m)) ms -> enc_wf (enc_object ms).
Proof.
  intros Hms t H. unfold enc_object in H. bind_inv H. injection H as <-. cbn [wf].
  revert x H0. induction Hms as [|[[name []] e] ms He Hms IH]; intros x H; cbn in H; [by injection H as <-| |auto].
  bind_inv H. bind_inv H. injection H as <-. split_and!; [apply str_ok_quote | by apply He | by apply IH].
Qed.

#[export] Hint Resolve enc_string_wf enc_int_wf enc_bool_wf enc_null_wf enc_raw_wf enc_list_wf enc_map_wf enc_slice_wf
  enc_ptr_wf enc_object_wf : json.

(** A marshalled document fits on one line, whatever it holds. *)
Lemma print_enc_no_ctl e s : enc_wf e -> marshal e = Ok s -> no_ctl s = true.
Proof. intros He H. unfold marshal in H. destruct e as [t|]; [|done]. injection H as <-. by apply print_no_ctl, He. Qed.

(** ** Decoding an object written by [enc_object] *)

Lemma dec_members_cons {A} (fs : fields A) key v ms cur d :
  valid_utf8 key = true -> lookup_field fs key = Some d ->
  dec_members fs ((quote key, v) :: ms) cur = (cur' ← d v cur; dec_members fs ms cur').
Proof. intros Hu Hd. cbn [dec_members]. unfold dec_member. rewrite unquote_quote by done. cbn [mbind option_bind]. by rewrite Hd. Qed.

Lemma dec_string_quote s cur : valid_utf8 s = true -> dec_string (JStr (quote s)) cur = Some s.
Proof. apply unquote_quote. Qed.

(** Decodes the members of a struct one by one. *)
Ltac decode :=
  repeat (erewrite dec_members_cons by reflexivity; cbn [mbind option_bind];
          rewrite ?dec_string_quote by (done || reflexivity); cbn [mbind option_bind]);
  cbn [dec_members].

(** ** The parser is local

    A value is read from its own bytes: what follows does not matter, nor how
    much fuel is left, as long as the nesting bound holds.  So the text kept
    of a subtree is parsed to that subtree, and [parse_fuel] is enough fuel
    for every document any fuel is enough for. *)

Definition blanks (b : string) : Prop := forall x, skip_blanks (b +:+ x) = skip_blanks x.

Lemma skip_blanks_spec s : exists b, s = b +:+ skip_blanks s /\ blanks b /\
  (b = "" \/ exists c b', b = String c b' /\ is_blank c = true).
Proof.
  induction s as [|c s (b & E & Hb & _)]; [exists ""; split_and!; [done | done | by left]|].
  cbn [skip_blanks]. destruct (is_blank c) eqn:Ec.
  - exists (String c b). cbn [String.append]. rewrite <- E. split_and!; [done | | right; by eexists _, _].
    intros x. cbn [String.append skip_blanks]. rewrite Ec. apply Hb.
  - exists "". split_and!; [done | done | by left].
Qed.

Lemma skip_blanks_idem s : skip_blanks (skip_blanks s) = skip_blanks s.
Proof. destruct (skip_blanks_spec s) as (b & E & Hb & _). rewrite E at 2. by rewrite Hb. Qed.

Lemma starts_with_Some c s r : starts_with c s = Some r -> s = String c r.
Proof. destruct s as [|a s]; [done|]. cbn. destruct (Ascii.eqb a c) eqn:E; [|done]. apply Ascii.eqb_eq in E as ->. congruence. Qed.

Lemma blanks_delim b x : (b = "" \/ exists c b', b = String c b' /\ is_blank c = true) -> delim x = true -> delim (b +:+ x) = true.
Proof. intros [-> | (c & b' & -> & Hc)] Hx; [done|]. cbn [String.append delim]. by rewrite Hc, orb_true_r. Qed.

(** A text that was reached by skipping blanks, cut before [r]. *)
Lemma skip_cut s p r : skip_blanks s = p +:+ r -> p <> "" -> forall x, skip_blanks (p +:+ x) = p +:+ x.
Proof.
  intros E Hp x. destruct p as [|c p]; [done|]. pose proof (skip_blanks_idem s) as H. rewrite E in H.
  cbn [String.append skip_blanks] in *. destruct (is_blank c) eqn:Ec; [|done]. exfalso.
  assert (Hlen : forall y, (String.length (skip_blanks y) <= String.length y)%nat).
  { intros y. destruct (skip_blanks_spec y) as (b & Ey & _). rewrite Ey at 2. rewrite length_app_string. lia. }
  specialize (Hlen (p +:+ r)). rewrite H in Hlen. cbn in Hlen. lia.
Qed.

Definition value_local (t : jval) (s r : string) : Prop := exists p, s = p +:+ r /\ p <> "" /\ raw_of t = p /\
  forall fuel d r', delim r' = true -> (String.length p <= fuel)%nat -> d + depth t <= max_nesting_depth ->
    parse_value fuel d (p +:+ r') = Some (t, r').

Definition elems_local (es : list jval) (s r : string) : Prop := exists p, s = p +:+ r /\ p <> "" /\
  forall fuel d r', (String.length p <= fuel)%nat -> d + elems_depth es <= max_nesting_depth ->
    parse_elems fuel d (p +:+ r') = Some (es, r').

Definition members_local (ms : list (string * jval)) (s r : string) : Prop := exists p, s = p +:+ r /\ p <> "" /\
  forall fuel d r', (String.length p <= fuel)%nat -> d + members_depth ms <= max_nesting_depth ->
    parse_members fuel d (p +:+ r') = Some (ms, r').

Lemma scalar_local t s r : raw_of t = print t -> norm t = t -> wf t -> s = print t +:+ r -> value_local t s r.
Proof.
  intros Hraw Hnorm Hwf E. exists (print t). split_and!; [done | | done |].
  - destruct (print_head t Hwf) as (c' & s' & -> & _). done.
  - intros fuel d r' Hr Hf Hdd. rewrite <- Hnorm at 2. by apply print_reads_back.
Qed.

Lemma starts_cut c p r : p <> "" -> starts_with c (p +:+ r) = None -> forall x, starts_with c (p +:+ x) = None.
Proof. destruct p as [|a p]; [done|]. intros _ H x. cbn in *. by destruct (Ascii.eqb a c). Qed.

(** An opening bracket, blanks and the closing one. *)
Lemma empty_local open close t s1 r :
  (forall fuel d x y, d < max_nesting_depth -> starts_with close (skip_blanks x) = Some y ->
     parse_value (S fuel) d (String open x) = Some (t (consumed (String open x) y), y)) ->
  (forall raw, depth (t raw) = 1) -> (forall raw, raw_of (t raw) = raw) -> is_blank close = false ->
  starts_with close (skip_blanks s1) = Some r -> value_local (t (consumed (String open s1) r)) (String open s1) r.
Proof.
  intros Hp Hd Hraw Hc H. destruct (skip_blanks_spec s1) as (b & E & Hb & _). apply starts_with_Some in H. rewrite H in E.
  set (p := String open (b +:+ String close "")).
  assert (Ep : forall x, p +:+ x = String open (b +:+ String close x))
    by (intros x; unfold p; cbn [String.append]; by rewrite string_app_assoc).
  assert (Hcons : forall x, consumed (String open (b +:+ String close x)) x = p) by (intros x; rewrite <- Ep; apply consumed_app).
  exists p. rewrite E, Hcons, Ep. split_and!; [done | done | apply Hraw |].
  intros fuel d r' _ Hf Hdd. rewrite Ep. destruct fuel as [|fuel]; [cbn in Hf; lia|]. rewrite Hd in Hdd.
  rewrite (Hp fuel d (b +:+ String close r') r'), Hcons; [done | lia |].
  rewrite Hb, skip_blanks_head, starts_with_same by done. done.
Qed.

(** Reassociates appends to the right. *)
Ltac flat_app := repeat (rewrite !string_app_assoc || cbn [String.append]).

Lemma array_local es s1 r : starts_with "]"%char (skip_blanks s1) = None -> elems_local es (skip_blanks s1) r ->
  value_local (JArr (consumed (String "["%char s1) r) es) (String "["%char s1) r.
Proof.
  intros Hs (pe & Ee & Hne & He). destruct (skip_blanks_spec s1) as (b & E & Hb & _). rewrite Ee in Hs, E.
  set (p := String "["%char (b +:+ pe)).
  assert (Ep : forall x, p +:+ x = String "["%char (b +:+ pe +:+ x)) by (intros x; unfold p; by flat_app).
  assert (Hcons : forall x, consumed (String "["%char (b +:+ pe +:+ x)) x = p) by (intros x; rewrite <- Ep; apply consumed_app).
  exists p. rewrite E, Hcons, Ep. split_and!; [done | done | done |].
  intros fuel d r' _ Hf Hd. rewrite Ep. unfold p in Hf. cbn [String.length] in Hf. rewrite length_app_string in Hf.
  destruct fuel as [|fuel]; [lia|]. cbn [depth] in Hd. fold (elems_depth es) in Hd. cbn [parse_value].
  change (Ascii.eqb "["%char "{"%char) with false. change (Ascii.eqb "["%char "["%char) with true. cbv iota.
  pose proof (foldr_max_nonneg depth es) as Hn. fold (elems_depth es) in Hn.
  destruct (Z.leb_spec max_nesting_depth d); [lia|].
  rewrite Hb, (skip_cut _ _ _ Ee Hne), (starts_cut _ _ _ Hne Hs), He by lia. cbn [mbind option_bind]. by rewrite Hcons.
Qed.

Lemma object_local ms s1 r : starts_with "}"%char (skip_blanks s1) = None -> members_local ms (skip_blanks s1) r ->
  value_local (JObj (consumed (String "{"%char s1) r) ms) (String "{"%char s1) r.
Proof.
  intros Hs (pe & Ee & Hne & He). destruct (skip_blanks_spec s1) as (b & E & Hb & _). rewrite Ee in Hs, E.
  set (p := String "{"%char (b +:+ pe)).
  assert (Ep : forall x, p +:+ x = String "{"%char (b +:+ pe +:+ x)) by (intros x; unfold p; by flat_app).
  assert (Hcons : forall x, consumed (String "{"%char (b +:+ pe +:+ x)) x = p) by (intros x; rewrite <- Ep; apply consumed_app).
  exists p. rewrite E, Hcons, Ep. split_and!; [done | done | done |].
  intros fuel d r' _ Hf Hd. rewrite Ep. unfold p in Hf. cbn [String.length] in Hf. rewrite length_app_string in Hf.
  destruct fuel as [|fuel]; [lia|]. cbn [depth] in Hd. fold (members_depth ms) in Hd. cbn [parse_value].
  change (Ascii.eqb "{"%char "{"%char) with true. cbv iota.
  pose proof (foldr_max_nonneg (fun kv => depth (snd kv)) ms) as Hn. rewrite <- foldr_snd_depth in Hn. fold (members_depth ms) in Hn.
  destruct (Z.leb_spec max_nesting_depth d); [lia|].
  rewrite Hb, (skip_cut _ _ _ Ee Hne), (starts_cut _ _ _ Hne Hs), He by lia. cbn [mbind option_bind]. by rewrite Hcons.
Qed.

Lemma elems_last_local v s r1 r : value_local v s r1 -> starts_with "]"%char (skip_blanks r1) = Some r -> elems_local [v] s r.
Proof.
  intros (pv & -> & Hne & _ & Hv) H. destruct (skip_blanks_spec r1) as (b & E & Hb & Hbh). apply starts_with_Some in H.
  rewrite H in E. exists (pv +:+ b +:+ "]"). rewrite E. flat_app. split_and!; [done | by destruct pv |].
  intros fuel d r' Hf Hd. rewrite !length_app_string in Hf. cbn in Hf. destruct fuel as [|fuel]; [lia|].
  unfold elems_depth in Hd. cbn [foldr] in Hd. flat_app. cbn [parse_elems].
  rewrite Hv by (done || lia || (apply blanks_delim; done)). cbn [mbind option_bind].
  rewrite Hb, skip_blanks_head, starts_with_same by by_vm. done.
Qed.

Lemma elems_more_local v vs s r1 r2 r : value_local v s r1 -> starts_with "]"%char (skip_blanks r1) = None ->
  starts_with ","%char (skip_blanks r1) = Some r2 -> elems_local vs (skip_blanks r2) r -> elems_local (v :: vs) s r.
Proof.
  intros (pv & -> & Hne & _ & Hv) _ H (pe & Ee & Hne2 & He).
  destruct (skip_blanks_spec r1) as (b & E & Hb & Hbh). apply starts_with_Some in H. rewrite H in E.
  destruct (skip_blanks_spec r2) as (b2 & E2 & Hb2 & _). rewrite Ee in E2.
  exists (pv +:+ b +:+ "," +:+ b2 +:+ pe). rewrite E, E2. flat_app. split_and!; [done | by destruct pv |].
  intros fuel d r' Hf Hd. rewrite !length_app_string in Hf. cbn [String.length] in Hf. rewrite !length_app_string in Hf.
  destruct fuel as [|fuel]; [lia|].
  unfold elems_depth in Hd. cbn [foldr] in Hd. fold (elems_depth vs) in Hd. flat_app. cbn [parse_elems].
  rewrite Hv by (done || lia || (apply blanks_delim; done)). cbn [mbind option_bind].
  rewrite Hb, skip_blanks_head by by_vm. rewrite starts_with_head, starts_with_same by by_vm. cbn [mbind option_bind].
  rewrite Hb2, (skip_cut _ _ _ Ee Hne2), He by lia. done.
Qed.

(** The part of [parse_members] that reads one member. *)
Definition parse_member (fuel : nat) (d : Z) (s : string) : option (string * jval * string) :=
  s1 ← starts_with dquote s;
  '(k, r0) ← scan_string s1;
  r1 ← starts_with ":"%char (skip_blanks r0);
  '(v, r) ← parse_value fuel d (skip_blanks r1);
  Some (k, v, r).

Lemma parse_members_eq fuel d s : parse_members (S fuel) d s =
  ('(k, v, r) ← parse_member fuel d s;
   match starts_with "}"%char (skip_blanks r) with
   | Some r3 => Some ([(k, v)], r3)
   | None =>
       r3 ← starts_with ","%char (skip_blanks r);
       '(ms, r4) ← parse_members fuel d (skip_blanks r3);
       Some ((k, v) :: ms, r4)
   end).
Proof.
  cbn [parse_members]. unfold parse_member. destruct (starts_with dquote s) as [s1|]; [|done]. cbn [mbind option_bind].
  destruct (scan_string s1) as [[k r0]|]; [|done]. cbn [mbind option_bind].
  destruct (starts_with ":"%char (skip_blanks r0)) as [r1|]; [|done]. cbn [mbind option_bind].
  by destruct (parse_value fuel d (skip_blanks r1)) as [[v r]|].
Qed.

Definition member_local (k : string) (v : jval) (s r : string) : Prop := exists p, s = p +:+ r /\ p <> "" /\
  forall fuel d r', delim r' = true -> (String.length p <= fuel)%nat -> d + depth v <= max_nesting_depth ->
    parse_member fuel d (p +:+ r') = Some (k, v, r').

Lemma parse_member_local fuel d s k v r :
  (forall s t r, parse_value fuel d s = Some (t, r) -> value_local t s r) ->
  parse_member fuel d s = Some (k, v, r) -> member_local k v s r.
Proof.
  intros IH H. unfold parse_member in H.
  apply option_bind_Some in H as (s1 & Hq & H). apply starts_with_Some in Hq as ->.
  apply option_bind_Some in H as ([k0 r0] & Hs & H). apply scan_string_spec in Hs as [-> Hok].
  apply option_bind_Some in H as (r1 & Hc & H). apply starts_with_Some in Hc.
  apply option_bind_Some in H as ([v0 r2] & Hpv & H). injection H as <- <- <-.
  apply IH in Hpv as (pv & Ev & Hne & _ & Hv).
  destruct (skip_blanks_spec r0) as (b & E & Hb & _). rewrite Hc in E.
  destruct (skip_blanks_spec r1) as (b2 & E2 & Hb2 & _). rewrite Ev in E2.
  exists (String dquote (k0 +:+ String dquote (b +:+ String ":"%char (b2 +:+ pv)))). rewrite E, E2. flat_app.
  split_and!; [done | done |]. intros fuel' d' r' Hr Hf Hd. cbn [String.length] in Hf. rewrite !length_app_string in Hf.
  cbn [String.length] in Hf. rewrite !length_app_string in Hf. cbn [String.length] in Hf. rewrite !length_app_string in Hf.
  unfold parse_member. flat_app. rewrite starts_with_same. cbn [mbind option_bind]. rewrite Hok. cbn [mbind option_bind].
  rewrite Hb, skip_blanks_head, starts_with_same by by_vm. cbn [mbind option_bind].
  rewrite Hb2, (skip_cut _ _ _ Ev Hne), Hv by (done || lia). done.
Qed.

Lemma members_last_local k v s r1 r : member_local k v s r1 -> starts_with "}"%char (skip_blanks r1) = Some r ->
  members_local [(k, v)] s r.
Proof.
  intros (pv & -> & Hne & Hv) H. destruct (skip_blanks_spec r1) as (b & E & Hb & Hbh). apply starts_with_Some in H.
  rewrite H in E. exists (pv +:+ b +:+ "}"). rewrite E. flat_app. split_and!; [done | by destruct pv |].
  intros fuel d r' Hf Hd. rewrite !length_app_string in Hf. cbn in Hf. destruct fuel as [|fuel]; [lia|].
  unfold members_depth in Hd. cbn [foldr] in Hd. rewrite parse_members_eq. flat_app.
  rewrite Hv by (done || lia || (apply blanks_delim; done)). cbn [mbind option_bind].
  rewrite Hb, skip_blanks_head, starts_with_same by by_vm. done.
Qed.

Lemma members_more_local k v ms s r1 r2 r : member_local k v s r1 -> starts_with "}"%char (skip_blanks r1) = None ->
  starts_with ","%char (skip_blanks r1) = Some r2 -> members_local ms (skip_blanks r2) r ->
  members_local ((k, v) :: ms) s r.
Proof.
  intros (pv & -> & Hne & Hv) _ H (pe & Ee & Hne2 & He).
  destruct (skip_blanks_spec r1) as (b & E & Hb & Hbh). apply starts_with_Some in H. rewrite H in E.
  destruct (skip_blanks_spec r2) as (b2 & E2 & Hb2 & _). rewrite Ee in E2.
  exists (pv +:+ b +:+ "," +:+ b2 +:+ pe). rewrite E, E2. flat_app. split_and!; [done | by destruct pv |].
  intros fuel d r' Hf Hd. rewrite !length_app_string in Hf. cbn [String.length] in Hf. rewrite !length_app_string in Hf.
  destruct fuel as [|fuel]; [lia|].
  unfold members_depth in Hd. cbn [foldr] in Hd. fold (members_depth ms) in Hd. rewrite parse_members_eq. flat_app.
  rewrite Hv by (done || lia || (apply blanks_delim; done)). cbn [mbind option_bind].
  rewrite Hb, skip_blanks_head by by_vm. rewrite starts_with_head, starts_with_same by by_vm. cbn [mbind option_bind].
  rewrite Hb2, (skip_cut _ _ _ Ee Hne2), He by lia. done.
Qed.

Lemma parse_local fuel :
  (forall d s t r, d <= max_nesting_depth -> parse_value fuel d s = Some (t, r) -> value_local t s r) /\
  (forall d s es r, d <= max_nesting_depth -> parse_elems fuel d (skip_blanks s) = Some (es, r) ->
     elems_local es (skip_blanks s) r) /\
  (forall d s ms r, d <= max_nesting_depth -> parse_members fuel d (skip_blanks s) = Some (ms, r) ->
     members_local ms (skip_blanks s) r).
Proof.
  induction fuel as [|fuel (IHv & IHe & IHm)]; [done|]. split_and!.
  - intros d s t r Hd H. destruct s as [|c s1]; [done|]. cbn [parse_value] in H.
    destruct (Ascii.eqb c "{"%char) eqn:E1.
    { apply Ascii.eqb_eq in E1 as ->. destruct (Z.leb_spec max_nesting_depth d); [done|].
      destruct (starts_with "}"%char (skip_blanks s1)) eqn:Es.
      { injection H as <- <-. apply (empty_local "{"%char "}"%char (fun raw => JObj raw [])); try done.
        intros f d' x y Hdd Hx. cbn [parse_value]. change (Ascii.eqb "{"%char "{"%char) with true. cbv iota.
        destruct (Z.leb_spec max_nesting_depth d'); [lia|]. by rewrite Hx. }
      bind_inv H. destruct x as [ms r1]. injection H as <- <-. apply object_local; [done|]. apply (IHm (d + 1)); [lia | done]. }
    destruct (Ascii.eqb c "["%char) eqn:E2.
    { apply Ascii.eqb_eq in E2 as ->. destruct (Z.leb_spec max_nesting_depth d); [done|].
      destruct (starts_with "]"%char (skip_blanks s1)) eqn:Es.
      { injection H as <- <-. apply (empty_local "["%char "]"%char (fun raw => JArr raw [])); try done.
        intros f d' x y Hdd Hx. cbn [parse_value]. change (Ascii.eqb "["%char "{"%char) with false.
        change (Ascii.eqb "["%char "["%char) with true. cbv iota.
        destruct (Z.leb_spec max_nesting_depth d'); [lia|]. by rewrite Hx. }
      bind_inv H. destruct x as [es r1]. injection H as <- <-. apply array_local; [done|]. apply (IHe (d + 1)); [lia | done]. }
    destruct (Ascii.eqb c dquote) eqn:E3.
    { apply Ascii.eqb_eq in E3 as ->. bind_inv H. destruct x as [l r1]. injection H as <- <-.
      apply scan_string_spec in H0 as [-> Hok]. apply scalar_local; try done. cbn. by rewrite string_app_assoc. }
    destruct (Ascii.eqb c "n"%char) eqn:E4.
    { bind_inv H. injection H as <- <-. apply cut_prefix_Some in H0. by apply scalar_local. }
    destruct (Ascii.eqb c "t"%char) eqn:E5.
    { bind_inv H. injection H as <- <-. apply cut_prefix_Some in H0. by apply scalar_local. }
    destruct (Ascii.eqb c "f"%char) eqn:E6.
    { bind_inv H. injection H as <- <-. apply cut_prefix_Some in H0. by apply scalar_local. }
    bind_inv H. destruct x as [l r1]. injection H as <- <-. apply scan_number_spec in H0 as [-> Hok]. by apply scalar_local.
  - intros d s es r Hd H. cbn [parse_elems] in H. bind_inv H. destruct x as [v r1]. apply IHv in H0; [|done].
    destruct (starts_with "]"%char (skip_blanks r1)) eqn:Es.
    { injection H as <- <-. by eapply elems_last_local. }
    bind_inv H. bind_inv H. destruct x0 as [vs r3]. injection H as <- <-. apply IHe in H2; [|done].
    by eapply elems_more_local.
  - intros d s ms r Hd H. rewrite parse_members_eq in H. bind_inv H. destruct x as [[k v] r1].
    apply parse_member_local in H0; [|intros s' t' r'; by apply IHv].
    destruct (starts_with "}"%char (skip_blanks r1)) eqn:Es.
    { injection H as <- <-. by eapply members_last_local. }
    bind_inv H. bind_inv H. destruct x0 as [vs r3]. injection H as <- <-. apply IHm in H2; [|done].
    by eapply members_more_local.
Qed.

(** * Facts about [map[string]json.RawMessage]

    A map decoded from a document, changed and marshalled again is decoded to
    the changed map, each value compacted. *)

(** ** Decoded strings are valid UTF-8 *)

Lemma valid_app_rune r s : 0 <= r < 0x110000 -> is_surrogate r = false ->
  valid_utf8 (encode_rune r +:+ s) = valid_utf8 s.
Proof.
  intros Hr Hs. unfold is_surrogate in Hs. rewrite andb_false_iff, Z.leb_gt, Z.ltb_ge in Hs. unfold encode_rune.
  assert (H1 : forall z, z < 0x80 -> 0 <= z -> utf8_1 (byte_of z) = true)
    by (intros z ? ?; unfold utf8_1; rewrite byte_val_of; lia).
  assert (H2 : forall z, 0x80 <= z < 256 -> utf8_1 (byte_of z) = false)
    by (intros z ?; unfold utf8_1; rewrite byte_val_of; lia).
  assert (Hc : forall z, 0x80 <= z <= 0xBF -> cont (byte_of z) = true)
    by (intros z ?; unfold cont, in_range; rewrite byte_val_of; lia).
  destruct (Z.ltb_spec r 0x80) as [Ha|Ha].
  { cbn [String.append valid_utf8]. rewrite H1 by lia. done. }
  assert (Hm : forall z, 0 <= z `mod` 64 < 64) by (intros z; apply Z.mod_pos_bound; lia).
  destruct (Z.ltb_spec r 0x800) as [Hb|Hb].
  { pose proof (Hm r). assert (2 <= r / 64 < 32) by (split; [apply Z.div_le_lower_bound | apply Z.div_lt_upper_bound]; lia).
    cbn [String.append valid_utf8]. rewrite H2 by lia.
    assert (utf8_2 (byte_of (0xC0 + r / 64)) (byte_of (0x80 + r `mod` 64)) = true) as ->; [|done].
    unfold utf8_2. rewrite Hc by lia. unfold in_range. rewrite byte_val_of by lia. lia. }
  destruct (Z.ltb_spec r 0x10000) as [Hd|Hd].
  { pose proof (Hm r). pose proof (Hm (r / 64)).
    assert (0 <= r / 4096 < 16) by (split; [apply Z.div_le_lower_bound | apply Z.div_lt_upper_bound]; lia).
    assert (E64 : r / 4096 = r / 64 / 64) by (rewrite Z.div_div by lia; done).
    pose proof (Z.div_mod (r / 64) 64 ltac:(lia)). pose proof (Z.div_mod r 64 ltac:(lia)).
    cbn [String.append valid_utf8]. rewrite H2 by lia.
    assert (utf8_2 (byte_of (0xE0 + r / 4096)) (byte_of (0x80 + (r / 64) `mod` 64)) = false) as ->.
    { unfold utf8_2, in_range. rewrite byte_val_of by lia. lia. }
    assert (utf8_3 (byte_of (0xE0 + r / 4096)) (byte_of (0x80 + (r / 64) `mod` 64)) (byte_of (0x80 + r `mod` 64)) = true) as ->; [|done].
    unfold utf8_3. rewrite !Hc by lia. unfold in_range. rewrite !byte_val_of by lia. lia. }
  pose proof (Hm r). pose proof (Hm (r / 64)). pose proof (Hm (r / 4096)).
  assert (0 <= r / 262144 < 5) by (split; [apply Z.div_le_lower_bound | apply Z.div_lt_upper_bound]; lia).
  assert (E64 : r / 4096 = r / 64 / 64) by (rewrite Z.div_div by lia; done).
  assert (E4096 : r / 262144 = r / 4096 / 64) by (rewrite Z.div_div by lia; done).
  pose proof (Z.div_mod (r / 64) 64 ltac:(lia)). pose proof (Z.div_mod r 64 ltac:(lia)).
  pose proof (Z.div_mod (r / 4096) 64 ltac:(lia)).
  cbn [String.append valid_utf8]. rewrite H2 by lia.
  assert (utf8_2 (byte_of (0xF0 + r / 262144)) (byte_of (0x80 + (r / 4096) `mod` 64)) = false) as ->.
  { unfold utf8_2, in_range. rewrite byte_val_of by lia. lia. }
  assert (utf8_3 (byte_of (0xF0 + r / 262144)) (byte_of (0x80 + (r / 4096) `mod` 64)) (byte_of (0x80 + (r / 64) `mod` 64)) = false) as ->.
  { unfold utf8_3, in_range. rewrite !byte_val_of by lia. lia. }
  assert (utf8_4 (byte_of (0xF0 + r / 262144)) (byte_of (0x80 + (r / 4096) `mod` 64)) (byte_of (0x80 + (r / 64) `mod` 64))
            (byte_of (0x80 + r `mod` 64)) = true) as ->; [|done].
  unfold utf8_4. rewrite !Hc by lia. unfold in_range. rewrite !byte_val_of by lia. lia.
Qed.

Lemma hex_val_range c n : hex_val c = Some n -> 0 <= n < 16.
Proof. unfold hex_val, in_range. repeat case_match; intros [= <-]; lia. Qed.

Lemma hex4_range a b c d r : hex4 a b c d = Some r -> 0 <= r < 0x10000.
Proof.
  unfold hex4. intros H.
  apply option_bind_Some in H as (a' & Ha & H). apply option_bind_Some in H as (b' & Hb & H).
  apply option_bind_Some in H as (c' & Hc & H). apply option_bind_Some in H as (d' & Hd & H). injection H as <-.
  apply hex_val_range in Ha, Hb, Hc, Hd. lia.
Qed.

Lemma decode_surrogates_range r1 r2 : is_high_surrogate r1 = true -> is_low_surrogate r2 = true ->
  0x10000 <= decode_surrogates r1 r2 < 0x110000.
Proof. unfold is_high_surrogate, is_low_surrogate, decode_surrogates. rewrite !andb_true_iff. lia. Qed.

Lemma valid_replacement s : valid_utf8 (replacement +:+ s) = valid_utf8 s.
Proof. apply (valid_app_rune 0xFFFD); [lia | done]. Qed.

Lemma simple_unescape_ascii e c : simple_unescape e = Some c -> utf8_1 c = true.
Proof. unfold simple_unescape. each_byte e; intros H; try discriminate H; injection H as <-; by_vm. Qed.

(** The ways a literal is decoded: its next rune, and the rest. *)
Definition decoded_head (s : string) (h rest : string) : Prop :=
  (String.length rest < String.length s)%nat /\ (forall x, valid_utf8 (h +:+ x) = valid_utf8 x).

Lemma unquote_cases s u : unquote s = Some u ->
  (s = "" /\ u = "") \/ exists h rest u', u = h +:+ u' /\ unquote rest = Some u' /\ decoded_head s h rest.
Proof.
  intros H. destruct s as [|a s1]; [injection H as <-; by left|right].
  assert (Hstep : forall h rest, (String.length rest < S (String.length s1))%nat ->
     (forall x, valid_utf8 (h +:+ x) = valid_utf8 x) -> (u' ← unquote rest; Some (h +:+ u')) = Some u ->
     exists h rest u', u = h +:+ u' /\ unquote rest = Some u' /\ decoded_head (String a s1) h rest).
  { intros h rest Hl Hv Hu. bind_inv Hu. injection Hu as <-. exists h, rest, x. done. }
  assert (Hone : forall c, utf8_1 c = true -> forall x, valid_utf8 (String c "" +:+ x) = valid_utf8 x)
    by (intros c Hc x; cbn; by rewrite Hc).
  cbn [unquote] in H. destruct (Ascii.eqb a backslash).
  - destruct s1 as [|e s2]; [done|]. destruct (Ascii.eqb e "u"%char).
    + destruct s2 as [|h1 [|h2 [|h3 [|h4 s6]]]]; try done. destruct (hex4 h1 h2 h3 h4) as [r|] eqn:Er; [|done].
      apply hex4_range in Er. destruct (is_surrogate r) eqn:Es; cbn [negb] in H.
      2: { apply (Hstep (encode_rune r) s6); [cbn; lia | intros x; apply valid_app_rune; [lia | done] | exact H]. }
      assert (Hrep : (u0 ← unquote s6; Some (replacement +:+ u0)) = Some u ->
        exists h rest u', u = h +:+ u' /\ unquote rest = Some u' /\
          decoded_head (String a (String e (String h1 (String h2 (String h3 (String h4 s6)))))) h rest).
      { apply Hstep; [cbn; lia | apply valid_replacement]. }
      destruct s6 as [|x [|y [|g1 [|g2 [|g3 [|g4 s12]]]]]]; try (by apply Hrep).
      destruct (if Ascii.eqb x backslash && Ascii.eqb y "u"%char then hex4 g1 g2 g3 g4 else None) as [r1|] eqn:Er1;
        [|by apply Hrep].
      destruct (is_high_surrogate r && is_low_surrogate r1) eqn:Ehl; [|by apply Hrep].
      apply andb_true_iff in Ehl as [Eh El]. pose proof (decode_surrogates_range _ _ Eh El) as Hd.
      apply (Hstep (encode_rune (decode_surrogates r r1)) s12); [cbn; lia | | exact H].
      intros z. apply valid_app_rune; [lia|]. unfold is_surrogate. lia.
    + apply option_bind_Some in H as (c & Hc & H). apply simple_unescape_ascii in Hc.
      apply (Hstep (String c "") s2); [cbn; lia | by apply Hone | exact H].
  - destruct (Ascii.eqb a dquote || (byte_val a <? 32)); [done|].
    destruct (utf8_1 a) eqn:E1; [apply (Hstep (String a "") s1); [cbn; lia | by apply Hone | exact H]|].
    assert (Hend : Some replacement = Some u -> exists h rest u', u = h +:+ u' /\ unquote rest = Some u' /\ decoded_head (String a s1) h rest).
    { intros [= <-]. exists replacement, "", "". split_and!; [done | done |]. split; [cbn; lia | apply valid_replacement]. }
    assert (Hbad : (u0 ← unquote s1; Some (replacement +:+ u0)) = Some u ->
      exists h rest u', u = h +:+ u' /\ unquote rest = Some u' /\ decoded_head (String a s1) h rest).
    { apply Hstep; [cbn; lia | apply valid_replacement]. }
    destruct s1 as [|b s2]; [by apply Hend|].
    destruct (utf8_2 a b) eqn:E2.
    { apply (Hstep (String a (String b "")) s2); [cbn; lia | | exact H]. intros x. cbn. by rewrite E1, E2. }
    destruct s2 as [|c s3]; [by apply Hbad|]. destruct (utf8_3 a b c) eqn:E3.
    { apply (Hstep (String a (String b (String c ""))) s3); [cbn; lia | | exact H]. intros x. cbn. by rewrite E1, E2, E3. }
    destruct s3 as [|d s4]; [by apply Hbad|]. destruct (utf8_4 a b c d) eqn:E4; [|by apply Hbad].
    apply (Hstep (String a (String b (String c (String d "")))) s4); [cbn; lia | | exact H].
    intros x. cbn. by rewrite E1, E2, E3, E4.
Qed.

Lemma unquote_valid s u : unquote s = Some u -> valid_utf8 u = true.
Proof.
  revert u. induction s as [s IH] using string_len_ind. intros u H.
  destruct (unquote_cases s u H) as [[_ ->]|(h & rest & u' & -> & Hr & Hl & Hv)]; [done|].
  rewrite Hv. by apply (IH rest).
Qed.

(** ** Subtrees are documents *)

Lemma blank_no_value fuel d c s : is_blank c = true -> parse_value fuel d (String c s) = None.
Proof.
  intros Hc. destruct fuel as [|fuel]; [done|]. cbn [parse_value].
  assert (Ascii.eqb c "{"%char = false /\ Ascii.eqb c "["%char = false /\ Ascii.eqb c dquote = false /\
    Ascii.eqb c "n"%char = false /\ Ascii.eqb c "t"%char = false /\ Ascii.eqb c "f"%char = false /\
    Ascii.eqb c "-"%char = false /\ Ascii.eqb c "0"%char = false /\ is_digit19 c = false) as (-> & -> & -> & -> & -> & -> & E1 & E2 & E3)
    by (revert Hc; each_byte c; intros H; try discriminate H; split_and!; by_vm).
  unfold scan_number, scan_int. rewrite E1, E2, E3. done.
Qed.

(** A value that was read, and is not too deep, is read from its own text. *)
Lemma local_parse t s r : value_local t s r -> depth t <= max_nesting_depth -> parse (raw_of t) = Some t.
Proof.
  intros (p & _ & Hne & Hraw & Hp) Hd. rewrite Hraw. unfold parse.
  assert (Hs : skip_blanks p = p).
  { destruct p as [|c p]; [done|]. cbn [skip_blanks]. destruct (is_blank c) eqn:E; [|done]. exfalso.
    specialize (Hp (parse_fuel (String c p)) 0 "" eq_refl ltac:(unfold parse_fuel; lia) ltac:(lia)).
    cbn [String.append] in Hp. by rewrite blank_no_value in Hp. }
  rewrite Hs. specialize (Hp (parse_fuel p) 0 "" eq_refl ltac:(unfold parse_fuel; lia) ltac:(lia)).
  rewrite string_app_nil_r in Hp. rewrite Hp. done.
Qed.

Lemma members_local_values fuel d s ms r : d <= max_nesting_depth -> parse_members fuel d (skip_blanks s) = Some (ms, r) ->
  Forall (fun kv => exists s r, value_local (snd kv) s r) ms.
Proof.
  revert d s ms r. induction fuel as [|fuel IH]; intros d s ms r Hd H; [done|]. rewrite parse_members_eq in H.
  apply option_bind_Some in H as ([[k v] r1] & Hm & H). unfold parse_member in Hm.
  apply option_bind_Some in Hm as (s1 & _ & Hm). apply option_bind_Some in Hm as ([k0 r0] & _ & Hm).
  apply option_bind_Some in Hm as (r2 & _ & Hm). apply option_bind_Some in Hm as ([v0 r3] & Hv & Hm). injection Hm as <- <- <-.
  assert (Hloc : exists s r, value_local v0 s r) by (eexists _, _; by eapply (parse_local fuel)).
  destruct (starts_with "}"%char (skip_blanks r3)); [injection H as <- <-; by repeat constructor|].
  apply option_bind_Some in H as (r4 & _ & H). apply option_bind_Some in H as ([vs r5] & Hvs & H). injection H as <- <-.
  constructor; [done|]. by eapply IH.
Qed.

(** The members of a parsed object are documents one level less deep. *)
Lemma object_members s raw ms : parse s = Some (JObj raw ms) ->
  Forall (fun kv => parse (raw_of (snd kv)) = Some (snd kv) /\ wf (snd kv) /\ depth (snd kv) <= max_nesting_depth - 1) ms.
Proof.
  intros H. pose proof (parse_wf _ _ H) as [Hwf Hd]. unfold parse in H.
  apply option_bind_Some in H as ([v r] & Hv & H). destruct (skip_blanks r); [|done]. injection H as ->.
  assert (Hdep : forall kv, kv ∈ ms -> wf (snd kv) /\ depth (snd kv) <= max_nesting_depth - 1).
  { cbn [wf depth] in Hwf, Hd. clear Hv. intros [k v] Hin. induction ms as [|[k' v'] ms IH]; [by apply elem_of_nil in Hin|].
    cbn [foldr snd] in *. apply elem_of_cons in Hin as [[= <- <-]|Hin]; [split; [apply Hwf | lia]|].
    apply IH; [apply Hwf | lia | done]. }
  assert (Hloc : Forall (fun kv => exists s r, value_local (snd kv) s r) ms).
  { unfold parse_fuel in Hv. rewrite Nat.add_1_r in Hv. cbn [parse_value] in Hv. destruct (skip_blanks s) as [|c s1]; [done|].
    repeat match type of Hv with (if ?b then _ else _) = _ => destruct b; [|] end;
      try done; try (apply option_bind_Some in Hv as (? & ? & Hv); try case_match; done).
    - destruct (starts_with _ _); [injection Hv as _ <- _; constructor|].
      apply option_bind_Some in Hv as ([ms' r'] & Hm & Hv). injection Hv as _ <- _.
      eapply members_local_values; [|exact Hm]. done.
    - destruct (starts_with _ _); [done|]. apply option_bind_Some in Hv as ([ms' r'] & Hm & Hv). done. }
  rewrite Forall_forall in Hloc. apply Forall_forall. intros kv Hin. destruct (Hdep kv Hin) as [Hw Hdd].
  split_and!; [|done|done]. destruct (Hloc kv Hin) as (s' & r' & Hl). eapply local_parse; [exact Hl | lia].
Qed.

(** ** Decoded maps *)

(** A [RawMessage] of a decoded map. *)
Definition document (r : string) : Prop := exists v, parse r = Some v /\ depth v <= max_nesting_depth - 1.

Definition documents (m : gmap string string) : Prop :=
  map_Forall (fun k r => valid_utf8 k = true /\ document r) m.

Lemma dec_raw_members_documents ms m m' :
  Forall (fun kv => parse (raw_of (snd kv)) = Some (snd kv) /\ wf (snd kv) /\ depth (snd kv) <= max_nesting_depth - 1) ms ->
  documents m -> dec_raw_members ms m = Some m' -> documents m'.
Proof.
  intros Hms. revert m. induction Hms as [|[k v] ms (Hp & _ & Hd) Hms IH]; intros m Hm H; [by injection H as <-|].
  cbn [dec_raw_members] in H. apply option_bind_Some in H as (key & Hk & H). apply (IH _) in H; [done|].
  apply map_Forall_insert_2; [|done]. split; [by eapply unquote_valid | by exists v].
Qed.

Lemma unmarshal_raw_map_documents s m : unmarshal dec_raw_map ∅ s = Ok m -> documents m.
Proof.
  unfold unmarshal. destruct (parse s) as [t|] eqn:E; [|done]. cbn [mbind option_bind].
  destruct t as [ | b | lit | lit | raw es | raw ms]; cbn [dec_raw_map]; try done.
  - intros [= <-]. apply map_Forall_empty.
  - destruct (dec_raw_members ms ∅) as [m'|] eqn:Em; [|done]. intros [= <-].
    eapply dec_raw_members_documents; [by eapply object_members | apply map_Forall_empty | exact Em].
Qed.

(** ** A marshalled map is decoded to itself, compacted *)

(** What [Marshal] writes for a [RawMessage]. *)
Definition compact (r : string) : string :=
  match parse r with Some v => print (html_tree v) | None => r end.

Lemma raw_of_norm t : raw_of (norm t) = print t.
Proof. by destruct t. Qed.

Lemma sort_members_perm l : sort_members l ≡ₚ l.
Proof.
  unfold sort_members. induction l as [|x l IH]; [done|]. cbn [foldr].
  assert (Hins : forall y l', insert_sorted y l' ≡ₚ y :: l').
  { intros y l'. induction l' as [|z l' IHl]; [done|]. cbn [insert_sorted]. destruct (key_le y z); [done|].
    rewrite IHl. apply Permutation_swap. }
  by rewrite Hins, IH.
Qed.

(** The tree of the marshalled list of members. *)
Definition member_tree (kr : string * string) : string * jval :=
  (quote (fst kr), match parse (snd kr) with Some v => html_tree v | None => JNull end).

Lemma document_not_empty r : document r -> (r =s? "") = false.
Proof. intros (v & Hv & _). by destruct r. Qed.

Lemma enc_members_mem k e l : enc_members (mem k e :: l) = (t ← e; rest ← enc_members l; Some ((quote k, t) :: rest)).
Proof. done. Qed.

Lemma enc_members_documents l : Forall (fun kr => document (snd kr)) l ->
  enc_members (map (fun '(k, r) => mem k (enc_raw r)) l) = Some (map member_tree l).
Proof.
  induction 1 as [|[k r] l Hr Hl IH]; [done|]. cbn [map]. rewrite enc_members_mem, IH.
  cbn [snd] in Hr. unfold enc_raw at 1. rewrite (document_not_empty r Hr). destruct Hr as (v & Hv & _).
  unfold member_tree at 2. cbn [fst snd]. rewrite Hv. done.
Qed.

Lemma dec_member_trees l m : NoDup (l.*1) ->
  Forall (fun kr => valid_utf8 (fst kr) = true /\ document (snd kr)) l -> (forall k, k ∈ l.*1 -> m !! k = None) ->
  dec_raw_members (map (fun '(k, v) => (k, norm v)) (map member_tree l)) m =
  Some (list_to_map (map (fun '(k, r) => (k, compact r)) l) ∪ m).
Proof.
  revert m. induction l as [|[k r] l IH]; intros m Hnd Hl Hm.
  { cbn. by rewrite (left_id_L ∅ (∪)). }
  apply Forall_cons in Hl as [[Hu (v & Hv & _)] Hl]. cbn [fst snd] in Hu, Hv. cbn [fmap list_fmap fst] in Hnd, Hm. apply NoDup_cons in Hnd as [Hk Hnd].
  cbn [map member_tree fst snd dec_raw_members]. rewrite unquote_quote by done. cbn [mbind option_bind].
  rewrite IH; [|done|done|].
  2: { intros k' Hk'. rewrite lookup_insert_ne by (intros ->; done). apply Hm. by right. }
  f_equal. cbn [list_to_map map]. rewrite raw_of_norm. unfold compact at 2. rewrite Hv.
  rewrite list_to_map_cons, <- insert_union_l. rewrite <- insert_union_r; [done|].
  apply not_elem_of_list_to_map_1. rewrite <- list_fmap_compose.
  assert (E : (fst ∘ (fun '(k0, r0) => (k0, compact r0))) <$> l = l.*1) by (apply list_fmap_ext; intros i [] _; done).
  rewrite E. exact Hk.
Qed.

Lemma raw_map_round_trip m : documents m ->
  exists out, marshal (enc_raw_map m) = Ok out /\ unmarshal dec_raw_map ∅ out = Ok (compact <$> m).
Proof.
  intros Hm. unfold enc_raw_map, enc_object. set (l := sort_members (map_to_list m)).
  pose proof (sort_members_perm (map_to_list m)) as Hperm. fold l in Hperm.
  assert (Hl : Forall (fun kr => valid_utf8 (fst kr) = true /\ document (snd kr)) l).
  { rewrite Hperm. apply Forall_forall. intros [k r] Hin. apply elem_of_map_to_list in Hin. exact (Hm k r Hin). }
  rewrite enc_members_documents by (eapply Forall_impl; [exact Hl | by intros ? []]). cbn [mbind option_bind marshal].
  eexists. split; [done|]. unfold unmarshal.
  assert (Hwf : wf (JObj "" (map member_tree l)) /\ depth (JObj "" (map member_tree l)) <= max_nesting_depth).
  { cbn [wf depth]. clear -Hl. induction Hl as [|[k r] l [_ (v & Hv & Hd)] Hl [IHw IHd]]; [done|]. cbn [map foldr member_tree fst snd].
    cbn [snd] in Hv. rewrite Hv. apply parse_wf in Hv as [Hw _]. rewrite html_tree_depth.
    split; [split_and!; [apply str_ok_quote | by apply html_tree_wf | exact IHw] | lia]. }
  rewrite parse_print by apply Hwf. cbn [mbind option_bind norm dec_raw_map].
  assert (Hnd : NoDup (l.*1)) by (rewrite Hperm; apply NoDup_fst_map_to_list).
  rewrite dec_member_trees; [|done|done|done]. rewrite (right_id_L ∅ (∪)). f_equal.
  change (map (fun '(k, r) => (k, compact r)) l) with ((fun '(k, r) => (k, compact r)) <$> l).
  apply map_eq. intros k. rewrite lookup_fmap.
  destruct (m !! k) as [r|] eqn:Ek.
  - apply elem_of_list_to_map_1.
    + rewrite <- list_fmap_compose.
      assert (E : (fst ∘ (fun '(k0, r0) => (k0, compact r0))) <$> l = l.*1) by (apply list_fmap_ext; intros i [] _; done).
      by rewrite E.
    + apply list_elem_of_fmap. exists (k, r). split; [done|]. rewrite Hperm. by apply elem_of_map_to_list.
  - apply not_elem_of_list_to_map_1. rewrite <- list_fmap_compose.
    assert (E : (fst ∘ (fun '(k0, r0) => (k0, compact r0))) <$> l = l.*1) by (apply list_fmap_ext; intros i [] _; done).
    rewrite E, Hperm. intros Hin. apply list_elem_of_fmap in Hin as ([k' r] & -> & Hin). apply elem_of_map_to_list in Hin.
    cbn in Ek. congruence.
Qed.
