(* ===== verification/Types.v ===== *)
(** * apicompat: the wire types (internal/pkg/apicompat/types.go)

    One [Record] per Go struct, fields in the Go order and prefixed with the
    initials of the struct.  A pointer is an [option], a slice a [list], a
    [json.RawMessage] its bytes.  The empty [RawMessage] stands for nil: no
    operation of the package builds an empty RawMessage it then tells apart
    from nil.  A [list] does not tell a nil slice from an empty one; the
    conversions that marshal a possibly nil slice say which it is
    ([Json.enc_slice]). *)

From Stdlib Require Import SpecFloat.
From S2P Require Import Prelude GoStrings Json.

Abbreviation RawMessage := string.

(** A [float64] is only carried from one request to another. *)
Definition float64 : Type := spec_float.

Definition nonempty {A} (l : list A) : bool := match l with [] => false | _ => true end.

(** ** Data *)

Record AnthropicOutputConfig : Type := mkAnthropicOutputConfig {
  aoc_Effort : string
}.
Definition zero_AnthropicOutputConfig : AnthropicOutputConfig := mkAnthropicOutputConfig "".
#[export] Instance eta_AnthropicOutputConfig : Settable AnthropicOutputConfig :=
  fun r => mkAnthropicOutputConfig (aoc_Effort r) .

Record AnthropicThinking : Type := mkAnthropicThinking {
  ath_Type : string;
  ath_BudgetTokens : Z
}.
Definition zero_AnthropicThinking : AnthropicThinking := mkAnthropicThinking "" 0.
#[export] Instance eta_AnthropicThinking : Settable AnthropicThinking :=
  fun r => mkAnthropicThinking (ath_Type r) (ath_BudgetTokens r) .

Record AnthropicMessage : Type := mkAnthropicMessage {
  am_Role : string;
  am_Content : RawMessage
}.
Definition zero_AnthropicMessage : AnthropicMessage := mkAnthropicMessage "" "".
#[export] Instance eta_AnthropicMessage : Settable AnthropicMessage :=
  fun r => mkAnthropicMessage (am_Role r) (am_Content r) .

Record AnthropicImageSource : Type := mkAnthropicImageSource {
  ais_Type : string;
  ais_MediaType : string;
  ais_Data : string
}.
Definition zero_AnthropicImageSource : AnthropicImageSource := mkAnthropicImageSource "" "" "".
#[export] Instance eta_AnthropicImageSource : Settable AnthropicImageSource :=
  fun r => mkAnthropicImageSource (ais_Type r) (ais_MediaType r) (ais_Data r) .

Record AnthropicContentBlock : Type := mkAnthropicContentBlock {
  acb_Type : string;
  acb_Text : string;
  acb_Thinking : string;
  acb_Source : option AnthropicImageSource;
  acb_ID : string;
  acb_Name : string;
  acb_Input : RawMessage;
  acb_ToolUseID : string;
  acb_Content : RawMessage;
  acb_IsError : bool
}.
Definition zero_AnthropicContentBlock : AnthropicContentBlock :=
  mkAnthropicContentBlock "" "" "" None "" "" "" "" "" false.
#[export] Instance eta_AnthropicContentBlock : Settable AnthropicContentBlock :=
  fun r => mkAnthropicContentBlock (acb_Type r) (acb_Text r) (acb_Thinking r) (acb_Source r) (acb_ID r)
    (acb_Name r) (acb_Input r) (acb_ToolUseID r) (acb_Content r) (acb_IsError r) .

Record AnthropicCacheControl : Type := mkAnthropicCacheControl {
  acc_Type : string;
  acc_TTL : string
}.
Definition zero_AnthropicCacheControl : AnthropicCacheControl := mkAnthropicCacheControl "" "".
#[export] Instance eta_AnthropicCacheControl : Settable AnthropicCacheControl :=
  fun r => mkAnthropicCacheControl (acc_Type r) (acc_TTL r) .

Record AnthropicTool : Type := mkAnthropicTool {
  at_Type : string;
  at_Name : string;
  at_Description : string;
  at_InputSchema : RawMessage;
  at_CacheControl : option AnthropicCacheControl
}.
Definition zero_AnthropicTool : AnthropicTool := mkAnthropicTool "" "" "" "" None.
#[export] Instance eta_AnthropicTool : Settable AnthropicTool :=
  fun r => mkAnthropicTool (at_Type r) (at_Name r) (at_Description r) (at_InputSchema r) (at_CacheControl r) .

Record AnthropicRequest : Type := mkAnthropicRequest {
  areq_Model : string;
  areq_MaxTokens : Z;
  areq_System : RawMessage;
  areq_Messages : list AnthropicMessage;
  areq_Tools : list AnthropicTool;
  areq_Stream : bool;
  areq_Temperature : option float64;
  areq_TopP : option float64;
  areq_StopSeqs : list string;
  areq_Thinking : option AnthropicThinking;
  areq_ToolChoice : RawMessage;
  areq_Metadata : RawMessage;
  areq_OutputConfig : option AnthropicOutputConfig
}.
Definition zero_AnthropicRequest : AnthropicRequest :=
  mkAnthropicRequest "" 0 "" [] [] false None None [] None "" "" None.
#[export] Instance eta_AnthropicRequest : Settable AnthropicRequest :=
  fun r => mkAnthropicRequest (areq_Model r) (areq_MaxTokens r) (areq_System r) (areq_Messages r) (areq_Tools r)
    (areq_Stream r) (areq_Temperature r) (areq_TopP r) (areq_StopSeqs r) (areq_Thinking r) (areq_ToolChoice r)
    (areq_Metadata r) (areq_OutputConfig r) .

Record AnthropicUsage : Type := mkAnthropicUsage {
  au_InputTokens : Z;
  au_OutputTokens : Z;
  au_CacheCreationInputTokens : Z;
  au_CacheReadInputTokens : Z
}.
Definition zero_AnthropicUsage : AnthropicUsage := mkAnthropicUsage 0 0 0 0.
#[export] Instance eta_AnthropicUsage : Settable AnthropicUsage :=
  fun r => mkAnthropicUsage (au_InputTokens r) (au_OutputTokens r) (au_CacheCreationInputTokens r)
    (au_CacheReadInputTokens r) .

Record AnthropicResponse : Type := mkAnthropicResponse {
  ares_ID : string;
  ares_Type : string;
  ares_Role : string;
  ares_Content : list AnthropicContentBlock;
  ares_Model : string;
  ares_StopReason : string;
  ares_StopSequence : option string;
  ares_Usage : AnthropicUsage
}.
Definition zero_AnthropicResponse : AnthropicResponse :=
  mkAnthropicResponse "" "" "" [] "" "" None zero_AnthropicUsage.
#[export] Instance eta_AnthropicResponse : Settable AnthropicResponse :=
  fun r => mkAnthropicResponse (ares_ID r) (ares_Type r) (ares_Role r) (ares_Content r) (ares_Model r)
    (ares_StopReason r) (ares_StopSequence r) (ares_Usage r) .

Record AnthropicDelta : Type := mkAnthropicDelta {
  ad_Type : string;
  ad_Text : string;
  ad_PartialJSON : string;
  ad_Thinking : string;
  ad_Signature : string;
  ad_StopReason : string;
  ad_StopSequence : option string
}.
Definition zero_AnthropicDelta : AnthropicDelta := mkAnthropicDelta "" "" "" "" "" "" None.
#[export] Instance eta_AnthropicDelta : Settable AnthropicDelta :=
  fun r => mkAnthropicDelta (ad_Type r) (ad_Text r) (ad_PartialJSON r) (ad_Thinking r) (ad_Signature r)
    (ad_StopReason r) (ad_StopSequence r) .

Record AnthropicStreamEvent : Type := mkAnthropicStreamEvent {
  ase_Type : string;
  ase_Message : option AnthropicResponse;
  ase_Index : option Z;
  ase_ContentBlock : option AnthropicContentBlock;
  ase_Delta : option AnthropicDelta;
  ase_Usage : option AnthropicUsage
}.
Definition zero_AnthropicStreamEvent : AnthropicStreamEvent := mkAnthropicStreamEvent "" None None None None None.
#[export] Instance eta_AnthropicStreamEvent : Settable AnthropicStreamEvent :=
  fun r => mkAnthropicStreamEvent (ase_Type r) (ase_Message r) (ase_Index r) (ase_ContentBlock r) (ase_Delta r)
    (ase_Usage r) .

Record ResponsesReasoning : Type := mkResponsesReasoning {
  rr_Effort : string;
  rr_Summary : string
}.
Definition zero_ResponsesReasoning : ResponsesReasoning := mkResponsesReasoning "" "".
#[export] Instance eta_ResponsesReasoning : Settable ResponsesReasoning :=
  fun r => mkResponsesReasoning (rr_Effort r) (rr_Summary r) .

Record ResponsesContentPart : Type := mkResponsesContentPart {
  rcp_Type : string;
  rcp_Text : string;
  rcp_ImageURL : string
}.
Definition zero_ResponsesContentPart : ResponsesContentPart := mkResponsesContentPart "" "" "".
#[export] Instance eta_ResponsesContentPart : Settable ResponsesContentPart :=
  fun r => mkResponsesContentPart (rcp_Type r) (rcp_Text r) (rcp_ImageURL r) .

Record ResponsesInputItem : Type := mkResponsesInputItem {
  rii_Type : string;
  rii_Role : string;
  rii_Content : RawMessage;
  rii_CallID : string;
  rii_Name : string;
  rii_Arguments : RawMessage;
  rii_ID : string;
  rii_Output : RawMessage
}.
Definition zero_ResponsesInputItem : ResponsesInputItem := mkResponsesInputItem "" "" "" "" "" "" "" "".
#[export] Instance eta_ResponsesInputItem : Settable ResponsesInputItem :=
  fun r => mkResponsesInputItem (rii_Type r) (rii_Role r) (rii_Content r) (rii_CallID r) (rii_Name r)
    (rii_Arguments r) (rii_ID r) (rii_Output r) .

Record ResponsesTool : Type := mkResponsesTool {
  rt_Type : string;
  rt_Name : string;
  rt_Description : string;
  rt_Parameters : RawMessage;
  rt_Strict : option bool
}.
Definition zero_ResponsesTool : ResponsesTool := mkResponsesTool "" "" "" "" None.
#[export] Instance eta_ResponsesTool : Settable ResponsesTool :=
  fun r => mkResponsesTool (rt_Type r) (rt_Name r) (rt_Description r) (rt_Parameters r) (rt_Strict r) .

Record ResponsesRequest : Type := mkResponsesRequest {
  rreq_Model : string;
  rreq_Instructions : string;
  rreq_Input : RawMessage;
  rreq_MaxOutputTokens : option Z;
  rreq_Temperature : option float64;
  rreq_TopP : option float64;
  rreq_Stream : bool;
  rreq_Tools : list ResponsesTool;
  rreq_ParallelToolCalls : option bool;
  rreq_Include : list string;
  rreq_Store : option bool;
  rreq_Reasoning : option ResponsesReasoning;
  rreq_ToolChoice : RawMessage;
  rreq_ServiceTier : string
}.
Definition zero_ResponsesRequest : ResponsesRequest :=
  mkResponsesRequest "" "" "" None None None false [] None [] None None "" "".
#[export] Instance eta_ResponsesRequest : Settable ResponsesRequest :=
  fun r => mkResponsesRequest (rreq_Model r) (rreq_Instructions r) (rreq_Input r) (rreq_MaxOutputTokens r)
    (rreq_Temperature r) (rreq_TopP r) (rreq_Stream r) (rreq_Tools r) (rreq_ParallelToolCalls r)
    (rreq_Include r) (rreq_Store r) (rreq_Reasoning r) (rreq_ToolChoice r) (rreq_ServiceTier r) .

Record WebSearchAction : Type := mkWebSearchAction {
  wsa_Type : string;
  wsa_Query : string
}.
Definition zero_WebSearchAction : WebSearchAction := mkWebSearchAction "" "".
#[export] Instance eta_WebSearchAction : Settable WebSearchAction :=
  fun r => mkWebSearchAction (wsa_Type r) (wsa_Query r) .

Record ResponsesSummary : Type := mkResponsesSummary {
  rs_Type : string;
  rs_Text : string
}.
Definition zero_ResponsesSummary : ResponsesSummary := mkResponsesSummary "" "".
#[export] Instance eta_ResponsesSummary : Settable ResponsesSummary :=
  fun r => mkResponsesSummary (rs_Type r) (rs_Text r) .

Record ResponsesOutput : Type := mkResponsesOutput {
  ro_Type : string;
  ro_ID : string;
  ro_Role : string;
  ro_Content : list ResponsesContentPart;
  ro_Status : string;
  ro_EncryptedContent : string;
  ro_Summary : list ResponsesSummary;
  ro_CallID : string;
  ro_Name : string;
  ro_Arguments : string;
  ro_Action : option WebSearchAction
}.
Definition zero_ResponsesOutput : ResponsesOutput := mkResponsesOutput "" "" "" [] "" "" [] "" "" "" None.
#[export] Instance eta_ResponsesOutput : Settable ResponsesOutput :=
  fun r => mkResponsesOutput (ro_Type r) (ro_ID r) (ro_Role r) (ro_Content r) (ro_Status r)
    (ro_EncryptedContent r) (ro_Summary r) (ro_CallID r) (ro_Name r) (ro_Arguments r) (ro_Action r) .

Record ResponsesInputTokensDetails : Type := mkResponsesInputTokensDetails {
  ritd_CachedTokens : Z;
  ritd_AudioTokens : Z;
  ritd_CacheCreationTokens : Z;
  ritd_CacheWriteTokens : Z
}.
Definition zero_ResponsesInputTokensDetails : ResponsesInputTokensDetails := mkResponsesInputTokensDetails 0 0 0 0.
#[export] Instance eta_ResponsesInputTokensDetails : Settable ResponsesInputTokensDetails :=
  fun r => mkResponsesInputTokensDetails (ritd_CachedTokens r) (ritd_AudioTokens r) (ritd_CacheCreationTokens r)
    (ritd_CacheWriteTokens r) .

Record ResponsesOutputTokensDetails : Type := mkResponsesOutputTokensDetails {
  rotd_ReasoningTokens : Z;
  rotd_AudioTokens : Z;
  rotd_AcceptedPredictionTokens : Z;
  rotd_RejectedPredictionTokens : Z
}.
Definition zero_ResponsesOutputTokensDetails : ResponsesOutputTokensDetails := mkResponsesOutputTokensDetails 0 0 0 0.
#[export] Instance eta_ResponsesOutputTokensDetails : Settable ResponsesOutputTokensDetails :=
  fun r => mkResponsesOutputTokensDetails (rotd_ReasoningTokens r) (rotd_AudioTokens r)
    (rotd_AcceptedPredictionTokens r) (rotd_RejectedPredictionTokens r) .

Record ResponsesUsage : Type := mkResponsesUsage {
  ru_InputTokens : Z;
  ru_OutputTokens : Z;
  ru_TotalTokens : Z;
  ru_CacheCreationInputTokens : Z;
  ru_InputTokensDetails : option ResponsesInputTokensDetails;
  ru_OutputTokensDetails : option ResponsesOutputTokensDetails
}.
Definition zero_ResponsesUsage : ResponsesUsage := mkResponsesUsage 0 0 0 0 None None.
#[export] Instance eta_ResponsesUsage : Settable ResponsesUsage :=
  fun r => mkResponsesUsage (ru_InputTokens r) (ru_OutputTokens r) (ru_TotalTokens r)
    (ru_CacheCreationInputTokens r) (ru_InputTokensDetails r) (ru_OutputTokensDetails r) .

Record ResponsesIncompleteDetails : Type := mkResponsesIncompleteDetails {
  rid_Reason : string
}.
Definition zero_ResponsesIncompleteDetails : ResponsesIncompleteDetails := mkResponsesIncompleteDetails "".
#[export] Instance eta_ResponsesIncompleteDetails : Settable ResponsesIncompleteDetails :=
  fun r => mkResponsesIncompleteDetails (rid_Reason r) .

Record ResponsesError : Type := mkResponsesError {
  re_Code : string;
  re_Message : string
}.
Definition zero_ResponsesError : ResponsesError := mkResponsesError "" "".
#[export] Instance eta_ResponsesError : Settable ResponsesError :=
  fun r => mkResponsesError (re_Code r) (re_Message r) .

Record ResponsesResponse : Type := mkResponsesResponse {
  rres_ID : string;
  rres_Object : string;
  rres_Model : string;
  rres_Status : string;
  rres_Output : list ResponsesOutput;
  rres_Usage : option ResponsesUsage;
  rres_IncompleteDetails : option ResponsesIncompleteDetails;
  rres_Error : option ResponsesError
}.
Definition zero_ResponsesResponse : ResponsesResponse := mkResponsesResponse "" "" "" "" [] None None None.
#[export] Instance eta_ResponsesResponse : Settable ResponsesResponse :=
  fun r => mkResponsesResponse (rres_ID r) (rres_Object r) (rres_Model r) (rres_Status r) (rres_Output r)
    (rres_Usage r) (rres_IncompleteDetails r) (rres_Error r) .

Record ResponsesStreamEvent : Type := mkResponsesStreamEvent {
  rse_Type : string;
  rse_Response : option ResponsesResponse;
  rse_Usage : option ResponsesUsage;
  rse_Item : option ResponsesOutput;
  rse_Part : option ResponsesContentPart;
  rse_OutputIndex : Z;
  rse_ContentIndex : Z;
  rse_Delta : string;
  rse_Text : string;
  rse_ItemID : string;
  rse_CallID : string;
  rse_Name : string;
  rse_Arguments : string;
  rse_SummaryIndex : Z;
  rse_Code : string;
  rse_Param : string;
  rse_SequenceNumber : Z
}.
Definition zero_ResponsesStreamEvent : ResponsesStreamEvent :=
  mkResponsesStreamEvent "" None None None None 0 0 "" "" "" "" "" "" 0 "" "" 0.
#[export] Instance eta_ResponsesStreamEvent : Settable ResponsesStreamEvent :=
  fun r => mkResponsesStreamEvent (rse_Type r) (rse_Response r) (rse_Usage r) (rse_Item r) (rse_Part r)
    (rse_OutputIndex r) (rse_ContentIndex r) (rse_Delta r) (rse_Text r) (rse_ItemID r) (rse_CallID r)
    (rse_Name r) (rse_Arguments r) (rse_SummaryIndex r) (rse_Code r) (rse_Param r) (rse_SequenceNumber r) .

Record ChatStreamOptions : Type := mkChatStreamOptions {
  cso_IncludeUsage : bool
}.
Definition zero_ChatStreamOptions : ChatStreamOptions := mkChatStreamOptions false.
#[export] Instance eta_ChatStreamOptions : Settable ChatStreamOptions :=
  fun r => mkChatStreamOptions (cso_IncludeUsage r) .

Record ChatFunctionCall : Type := mkChatFunctionCall {
  cfc_Name : string;
  cfc_Arguments : string
}.
Definition zero_ChatFunctionCall : ChatFunctionCall := mkChatFunctionCall "" "".
#[export] Instance eta_ChatFunctionCall : Settable ChatFunctionCall :=
  fun r => mkChatFunctionCall (cfc_Name r) (cfc_Arguments r) .

Record ChatToolCall : Type := mkChatToolCall {
  ctc_Index : option Z;
  ctc_ID : string;
  ctc_Type : string;
  ctc_Function : ChatFunctionCall
}.
Definition zero_ChatToolCall : ChatToolCall := mkChatToolCall None "" "" zero_ChatFunctionCall.
#[export] Instance eta_ChatToolCall : Settable ChatToolCall :=
  fun r => mkChatToolCall (ctc_Index r) (ctc_ID r) (ctc_Type r) (ctc_Function r) .

Record ChatMessage : Type := mkChatMessage {
  cm_Role : string;
  cm_Content : RawMessage;
  cm_ReasoningContent : string;
  cm_Name : string;
  cm_ToolCalls : list ChatToolCall;
  cm_ToolCallID : string;
  cm_FunctionCall : option ChatFunctionCall
}.
Definition zero_ChatMessage : ChatMessage := mkChatMessage "" "" "" "" [] "" None.
#[export] Instance eta_ChatMessage : Settable ChatMessage :=
  fun r => mkChatMessage (cm_Role r) (cm_Content r) (cm_ReasoningContent r) (cm_Name r) (cm_ToolCalls r)
    (cm_ToolCallID r) (cm_FunctionCall r) .

Record ChatImageURL : Type := mkChatImageURL {
  ciu_URL : string;
  ciu_Detail : string
}.
Definition zero_ChatImageURL : ChatImageURL := mkChatImageURL "" "".
#[export] Instance eta_ChatImageURL : Settable ChatImageURL := fun r => mkChatImageURL (ciu_URL r) (ciu_Detail r).

Record ChatContentPart : Type := mkChatContentPart {
  ccp_Type : string;
  ccp_Text : string;
  ccp_ImageURL : option ChatImageURL
}.
Definition zero_ChatContentPart : ChatContentPart := mkChatContentPart "" "" None.
#[export] Instance eta_ChatContentPart : Settable ChatContentPart :=
  fun r => mkChatContentPart (ccp_Type r) (ccp_Text r) (ccp_ImageURL r) .

Record ChatFunction : Type := mkChatFunction {
  cf_Name : string;
  cf_Description : string;
  cf_Parameters : RawMessage;
  cf_Strict : option bool
}.
Definition zero_ChatFunction : ChatFunction := mkChatFunction "" "" "" None.
#[export] Instance eta_ChatFunction : Settable ChatFunction :=
  fun r => mkChatFunction (cf_Name r) (cf_Description r) (cf_Parameters r) (cf_Strict r) .

Record ChatTool : Type := mkChatTool {
  ct_Type : string;
  ct_Function : option ChatFunction
}.
Definition zero_ChatTool : ChatTool := mkChatTool "" None.
#[export] Instance eta_ChatTool : Settable ChatTool := fun r => mkChatTool (ct_Type r) (ct_Function r).

Record ChatCompletionsRequest : Type := mkChatCompletionsRequest {
  creq_Model : string;
  creq_Messages : list ChatMessage;
  creq_Instructions : string;
  creq_MaxTokens : option Z;
  creq_MaxCompletionTokens : option Z;
  creq_Temperature : option float64;
  creq_TopP : option float64;
  creq_Stream : bool;
  creq_StreamOptions : option ChatStreamOptions;
  creq_Tools : list ChatTool;
  creq_ParallelToolCalls : option bool;
  creq_ToolChoice : RawMessage;
  creq_ReasoningEffort : string;
  creq_ServiceTier : string;
  creq_Stop : RawMessage;
  creq_Functions : list ChatFunction;
  creq_FunctionCall : RawMessage
}.
Definition zero_ChatCompletionsRequest : ChatCompletionsRequest :=
  mkChatCompletionsRequest "" [] "" None None None None false None [] None "" "" "" "" [] "".
#[export] Instance eta_ChatCompletionsRequest : Settable ChatCompletionsRequest :=
  fun r => mkChatCompletionsRequest (creq_Model r) (creq_Messages r) (creq_Instructions r) (creq_MaxTokens r)
    (creq_MaxCompletionTokens r) (creq_Temperature r) (creq_TopP r) (creq_Stream r) (creq_StreamOptions r)
    (creq_Tools r) (creq_ParallelToolCalls r) (creq_ToolChoice r) (creq_ReasoningEffort r) (creq_ServiceTier r)
    (creq_Stop r) (creq_Functions r) (creq_FunctionCall r) .

Record ChatTokenDetails : Type := mkChatTokenDetails {
  ctd_CachedTokens : Z;
  ctd_AudioTokens : Z;
  ctd_CacheCreationTokens : Z;
  ctd_CacheWriteTokens : Z;
  ctd_ReasoningTokens : Z;
  ctd_AcceptedPredictionTokens : Z;
  ctd_RejectedPredictionTokens : Z
}.
Definition zero_ChatTokenDetails : ChatTokenDetails := mkChatTokenDetails 0 0 0 0 0 0 0.
#[export] Instance eta_ChatTokenDetails : Settable ChatTokenDetails :=
  fun r => mkChatTokenDetails (ctd_CachedTokens r) (ctd_AudioTokens r) (ctd_CacheCreationTokens r)
    (ctd_CacheWriteTokens r) (ctd_ReasoningTokens r) (ctd_AcceptedPredictionTokens r)
    (ctd_RejectedPredictionTokens r) .

Record ChatUsage : Type := mkChatUsage {
  cu_PromptTokens : Z;
  cu_CompletionTokens : Z;
  cu_TotalTokens : Z;
  cu_PromptTokensDetails : option ChatTokenDetails;
  cu_CompletionTokensDetails : option ChatTokenDetails
}.
Definition zero_ChatUsage : ChatUsage := mkChatUsage 0 0 0 None None.
#[export] Instance eta_ChatUsage : Settable ChatUsage :=
  fun r => mkChatUsage (cu_PromptTokens r) (cu_CompletionTokens r) (cu_TotalTokens r) (cu_PromptTokensDetails r)
    (cu_CompletionTokensDetails r) .

Record ChatChoice : Type := mkChatChoice {
  cc_Index : Z;
  cc_Message : ChatMessage;
  cc_FinishReason : string
}.
Definition zero_ChatChoice : ChatChoice := mkChatChoice 0 zero_ChatMessage "".
#[export] Instance eta_ChatChoice : Settable ChatChoice :=
  fun r => mkChatChoice (cc_Index r) (cc_Message r) (cc_FinishReason r) .

Record ChatCompletionsResponse : Type := mkChatCompletionsResponse {
  cres_ID : string;
  cres_Object : string;
  cres_Created : Z;
  cres_Model : string;
  cres_Choices : list ChatChoice;
  cres_Usage : option ChatUsage;
  cres_SystemFingerprint : string;
  cres_ServiceTier : string
}.
Definition zero_ChatCompletionsResponse : ChatCompletionsResponse :=
  mkChatCompletionsResponse "" "" 0 "" [] None "" "".
#[export] Instance eta_ChatCompletionsResponse : Settable ChatCompletionsResponse :=
  fun r => mkChatCompletionsResponse (cres_ID r) (cres_Object r) (cres_Created r) (cres_Model r)
    (cres_Choices r) (cres_Usage r) (cres_SystemFingerprint r) (cres_ServiceTier r) .

Record ChatDelta : Type := mkChatDelta {
  cd_Role : string;
  cd_Content : option string;
  cd_ReasoningContent : option string;
  cd_ToolCalls : list ChatToolCall
}.
Definition zero_ChatDelta : ChatDelta := mkChatDelta "" None None [].
#[export] Instance eta_ChatDelta : Settable ChatDelta :=
  fun r => mkChatDelta (cd_Role r) (cd_Content r) (cd_ReasoningContent r) (cd_ToolCalls r) .

Record ChatChunkChoice : Type := mkChatChunkChoice {
  ccc_Index : Z;
  ccc_Delta : ChatDelta;
  ccc_FinishReason : option string
}.
Definition zero_ChatChunkChoice : ChatChunkChoice := mkChatChunkChoice 0 zero_ChatDelta None.
#[export] Instance eta_ChatChunkChoice : Settable ChatChunkChoice :=
  fun r => mkChatChunkChoice (ccc_Index r) (ccc_Delta r) (ccc_FinishReason r) .

Record ChatCompletionsChunk : Type := mkChatCompletionsChunk {
  chunk_ID : string;
  chunk_Object : string;
  chunk_Created : Z;
  chunk_Model : string;
  chunk_Choices : list ChatChunkChoice;
  chunk_Usage : option ChatUsage;
  chunk_SystemFingerprint : string;
  chunk_ServiceTier : string
}.
Definition zero_ChatCompletionsChunk : ChatCompletionsChunk := mkChatCompletionsChunk "" "" 0 "" [] None "" "".
#[export] Instance eta_ChatCompletionsChunk : Settable ChatCompletionsChunk :=
  fun r => mkChatCompletionsChunk (chunk_ID r) (chunk_Object r) (chunk_Created r) (chunk_Model r)
    (chunk_Choices r) (chunk_Usage r) (chunk_SystemFingerprint r) (chunk_ServiceTier r) .

(** minMaxOutputTokens is the floor for max_output_tokens in a Responses request. *)
Definition minMaxOutputTokens : Z := 128.

(** jsonRawString marshals a Go string into a JSON-string RawMessage. *)
Definition jsonRawString (s : string) : RawMessage :=
  match marshal (enc_string s) with
  | Err _ => dq "''"
  | Ok b => b
  end.
