(* ===== verification/Codec.v ===== *)
(** * apicompat: JSON forms of the wire types

    What [encoding/json] derives from the struct tags of types.go: an encoder
    [enc_T] per marshalled struct (member order, names, [omitempty]) and a
    decoder [dec_T] per struct the conversions unmarshal, and the custom
    [UnmarshalJSON] of [ResponsesUsage]. *)

From S2P Require Import Prelude GoStrings Json Types.

(** ** Encoders *)

Definition enc_ResponsesContentPart (r : ResponsesContentPart) : Enc :=
  enc_object [
    mem "type" (enc_string (rcp_Type r));
    mem_if ((rcp_Text r) <>s? "") "text" (enc_string (rcp_Text r));
    mem_if ((rcp_ImageURL r) <>s? "") "image_url" (enc_string (rcp_ImageURL r))].

Definition enc_ResponsesInputItem (r : ResponsesInputItem) : Enc :=
  enc_object [
    mem_if ((rii_Type r) <>s? "") "type" (enc_string (rii_Type r));
    mem_if ((rii_Role r) <>s? "") "role" (enc_string (rii_Role r));
    mem_if ((rii_Content r) <>s? "") "content" (enc_raw (rii_Content r));
    mem_if ((rii_CallID r) <>s? "") "call_id" (enc_string (rii_CallID r));
    mem_if ((rii_Name r) <>s? "") "name" (enc_string (rii_Name r));
    mem_if ((rii_Arguments r) <>s? "") "arguments" (enc_raw (rii_Arguments r));
    mem_if ((rii_ID r) <>s? "") "id" (enc_string (rii_ID r));
    mem_if ((rii_Output r) <>s? "") "output" (enc_raw (rii_Output r))].

Definition enc_WebSearchAction (r : WebSearchAction) : Enc :=
  enc_object [
    mem_if ((wsa_Type r) <>s? "") "type" (enc_string (wsa_Type r));
    mem_if ((wsa_Query r) <>s? "") "query" (enc_string (wsa_Query r))].

Definition enc_ResponsesSummary (r : ResponsesSummary) : Enc :=
  enc_object [
    mem "type" (enc_string (rs_Type r));
    mem "text" (enc_string (rs_Text r))].

Definition enc_ResponsesOutput (r : ResponsesOutput) : Enc :=
  enc_object [
    mem "type" (enc_string (ro_Type r));
    mem_if ((ro_ID r) <>s? "") "id" (enc_string (ro_ID r));
    mem_if ((ro_Role r) <>s? "") "role" (enc_string (ro_Role r));
    mem_if (nonempty (ro_Content r)) "content" (enc_list (map enc_ResponsesContentPart (ro_Content r)));
    mem_if ((ro_Status r) <>s? "") "status" (enc_string (ro_Status r));
    mem_if ((ro_EncryptedContent r) <>s? "") "encrypted_content" (enc_string (ro_EncryptedContent r));
    mem_if (nonempty (ro_Summary r)) "summary" (enc_list (map enc_ResponsesSummary (ro_Summary r)));
    mem_if ((ro_CallID r) <>s? "") "call_id" (enc_string (ro_CallID r));
    mem_if ((ro_Name r) <>s? "") "name" (enc_string (ro_Name r));
    mem_if ((ro_Arguments r) <>s? "") "arguments" (enc_string (ro_Arguments r));
    mem_if (is_some (ro_Action r)) "action" (enc_ptr enc_WebSearchAction (ro_Action r))].

Definition enc_ResponsesInputTokensDetails (r : ResponsesInputTokensDetails) : Enc :=
  enc_object [
    mem_if (negb ((ritd_CachedTokens r) =? 0)) "cached_tokens" (enc_int (ritd_CachedTokens r));
    mem_if (negb ((ritd_AudioTokens r) =? 0)) "audio_tokens" (enc_int (ritd_AudioTokens r));
    mem_if (negb ((ritd_CacheCreationTokens r) =? 0)) "cache_creation_tokens" (enc_int (ritd_CacheCreationTokens r));
    mem_if (negb ((ritd_CacheWriteTokens r) =? 0)) "cache_write_tokens" (enc_int (ritd_CacheWriteTokens r))].

Definition enc_ResponsesOutputTokensDetails (r : ResponsesOutputTokensDetails) : Enc :=
  enc_object [
    mem_if (negb ((rotd_ReasoningTokens r) =? 0)) "reasoning_tokens" (enc_int (rotd_ReasoningTokens r));
    mem_if (negb ((rotd_AudioTokens r) =? 0)) "audio_tokens" (enc_int (rotd_AudioTokens r));
    mem_if (negb ((rotd_AcceptedPredictionTokens r) =? 0)) "accepted_prediction_tokens" (enc_int (rotd_AcceptedPredictionTokens r));
    mem_if (negb ((rotd_RejectedPredictionTokens r) =? 0)) "rejected_prediction_tokens" (enc_int (rotd_RejectedPredictionTokens r))].

Definition enc_ResponsesUsage (r : ResponsesUsage) : Enc :=
  enc_object [
    mem "input_tokens" (enc_int (ru_InputTokens r));
    mem "output_tokens" (enc_int (ru_OutputTokens r));
    mem "total_tokens" (enc_int (ru_TotalTokens r));
    mem_if (negb ((ru_CacheCreationInputTokens r) =? 0)) "cache_creation_input_tokens" (enc_int (ru_CacheCreationInputTokens r));
    mem_if (is_some (ru_InputTokensDetails r)) "input_tokens_details" (enc_ptr enc_ResponsesInputTokensDetails (ru_InputTokensDetails r));
    mem_if (is_some (ru_OutputTokensDetails r)) "output_tokens_details" (enc_ptr enc_ResponsesOutputTokensDetails (ru_OutputTokensDetails r))].

Definition enc_ResponsesIncompleteDetails (r : ResponsesIncompleteDetails) : Enc :=
  enc_object [
    mem "reason" (enc_string (rid_Reason r))].

Definition enc_ResponsesError (r : ResponsesError) : Enc :=
  enc_object [
    mem "code" (enc_string (re_Code r));
    mem "message" (enc_string (re_Message r))].

Definition enc_ResponsesResponse (r : ResponsesResponse) : Enc :=
  enc_object [
    mem "id" (enc_string (rres_ID r));
    mem "object" (enc_string (rres_Object r));
    mem "model" (enc_string (rres_Model r));
    mem "status" (enc_string (rres_Status r));
    mem "output" (enc_list (map enc_ResponsesOutput (rres_Output r)));
    mem_if (is_some (rres_Usage r)) "usage" (enc_ptr enc_ResponsesUsage (rres_Usage r));
    mem_if (is_some (rres_IncompleteDetails r)) "incomplete_details" (enc_ptr enc_ResponsesIncompleteDetails (rres_IncompleteDetails r));
    mem_if (is_some (rres_Error r)) "error" (enc_ptr enc_ResponsesError (rres_Error r))].

Definition enc_ResponsesStreamEvent (r : ResponsesStreamEvent) : Enc :=
  enc_object [
    mem "type" (enc_string (rse_Type r));
    mem_if (is_some (rse_Response r)) "response" (enc_ptr enc_ResponsesResponse (rse_Response r));
    mem_if (is_some (rse_Usage r)) "usage" (enc_ptr enc_ResponsesUsage (rse_Usage r));
    mem_if (is_some (rse_Item r)) "item" (enc_ptr enc_ResponsesOutput (rse_Item r));
    mem_if (is_some (rse_Part r)) "part" (enc_ptr enc_ResponsesContentPart (rse_Part r));
    mem_if (negb ((rse_OutputIndex r) =? 0)) "output_index" (enc_int (rse_OutputIndex r));
    mem_if (negb ((rse_ContentIndex r) =? 0)) "content_index" (enc_int (rse_ContentIndex r));
    mem_if ((rse_Delta r) <>s? "") "delta" (enc_string (rse_Delta r));
    mem_if ((rse_Text r) <>s? "") "text" (enc_string (rse_Text r));
    mem_if ((rse_ItemID r) <>s? "") "item_id" (enc_string (rse_ItemID r));
    mem_if ((rse_CallID r) <>s? "") "call_id" (enc_string (rse_CallID r));
    mem_if ((rse_Name r) <>s? "") "name" (enc_string (rse_Name r));
    mem_if ((rse_Arguments r) <>s? "") "arguments" (enc_string (rse_Arguments r));
    mem_if (negb ((rse_SummaryIndex r) =? 0)) "summary_index" (enc_int (rse_SummaryIndex r));
    mem_if ((rse_Code r) <>s? "") "code" (enc_string (rse_Code r));
    mem_if ((rse_Param r) <>s? "") "param" (enc_string (rse_Param r));
    mem_if (negb ((rse_SequenceNumber r) =? 0)) "sequence_number" (enc_int (rse_SequenceNumber r))].

Definition enc_AnthropicImageSource (r : AnthropicImageSource) : Enc :=
  enc_object [
    mem "type" (enc_string (ais_Type r));
    mem "media_type" (enc_string (ais_MediaType r));
    mem "data" (enc_string (ais_Data r))].

Definition enc_AnthropicContentBlock (r : AnthropicContentBlock) : Enc :=
  enc_object [
    mem "type" (enc_string (acb_Type r));
    mem_if ((acb_Text r) <>s? "") "text" (enc_string (acb_Text r));
    mem_if ((acb_Thinking r) <>s? "") "thinking" (enc_string (acb_Thinking r));
    mem_if (is_some (acb_Source r)) "source" (enc_ptr enc_AnthropicImageSource (acb_Source r));
    mem_if ((acb_ID r) <>s? "") "id" (enc_string (acb_ID r));
    mem_if ((acb_Name r) <>s? "") "name" (enc_string (acb_Name r));
    mem_if ((acb_Input r) <>s? "") "input" (enc_raw (acb_Input r));
    mem_if ((acb_ToolUseID r) <>s? "") "tool_use_id" (enc_string (acb_ToolUseID r));
    mem_if ((acb_Content r) <>s? "") "content" (enc_raw (acb_Content r));
    mem_if (acb_IsError r) "is_error" (enc_bool (acb_IsError r))].

Definition enc_AnthropicUsage (r : AnthropicUsage) : Enc :=
  enc_object [
    mem "input_tokens" (enc_int (au_InputTokens r));
    mem "output_tokens" (enc_int (au_OutputTokens r));
    mem "cache_creation_input_tokens" (enc_int (au_CacheCreationInputTokens r));
    mem "cache_read_input_tokens" (enc_int (au_CacheReadInputTokens r))].

Definition enc_AnthropicResponse (r : AnthropicResponse) : Enc :=
  enc_object [
    mem "id" (enc_string (ares_ID r));
    mem "type" (enc_string (ares_Type r));
    mem "role" (enc_string (ares_Role r));
    mem "content" (enc_list (map enc_AnthropicContentBlock (ares_Content r)));
    mem "model" (enc_string (ares_Model r));
    mem "stop_reason" (enc_string (ares_StopReason r));
    mem_if (is_some (ares_StopSequence r)) "stop_sequence" (enc_ptr enc_string (ares_StopSequence r));
    mem "usage" (enc_AnthropicUsage (ares_Usage r))].

Definition enc_AnthropicDelta (r : AnthropicDelta) : Enc :=
  enc_object [
    mem_if ((ad_Type r) <>s? "") "type" (enc_string (ad_Type r));
    mem_if ((ad_Text r) <>s? "") "text" (enc_string (ad_Text r));
    mem_if ((ad_PartialJSON r) <>s? "") "partial_json" (enc_string (ad_PartialJSON r));
    mem_if ((ad_Thinking r) <>s? "") "thinking" (enc_string (ad_Thinking r));
    mem_if ((ad_Signature r) <>s? "") "signature" (enc_string (ad_Signature r));
    mem_if ((ad_StopReason r) <>s? "") "stop_reason" (enc_string (ad_StopReason r));
    mem_if (is_some (ad_StopSequence r)) "stop_sequence" (enc_ptr enc_string (ad_StopSequence r))].

Definition enc_AnthropicStreamEvent (r : AnthropicStreamEvent) : Enc :=
  enc_object [
    mem "type" (enc_string (ase_Type r));
    mem_if (is_some (ase_Message r)) "message" (enc_ptr enc_AnthropicResponse (ase_Message r));
    mem_if (is_some (ase_Index r)) "index" (enc_ptr enc_int (ase_Index r));
    mem_if (is_some (ase_ContentBlock r)) "content_block" (enc_ptr enc_AnthropicContentBlock (ase_ContentBlock r));
    mem_if (is_some (ase_Delta r)) "delta" (enc_ptr enc_AnthropicDelta (ase_Delta r));
    mem_if (is_some (ase_Usage r)) "usage" (enc_ptr enc_AnthropicUsage (ase_Usage r))].

Definition enc_ChatFunctionCall (r : ChatFunctionCall) : Enc :=
  enc_object [
    mem "name" (enc_string (cfc_Name r));
    mem "arguments" (enc_string (cfc_Arguments r))].

Definition enc_ChatToolCall (r : ChatToolCall) : Enc :=
  enc_object [
    mem_if (is_some (ctc_Index r)) "index" (enc_ptr enc_int (ctc_Index r));
    mem_if ((ctc_ID r) <>s? "") "id" (enc_string (ctc_ID r));
    mem_if ((ctc_Type r) <>s? "") "type" (enc_string (ctc_Type r));
    mem "function" (enc_ChatFunctionCall (ctc_Function r))].

Definition enc_ChatTokenDetails (r : ChatTokenDetails) : Enc :=
  enc_object [
    mem_if (negb ((ctd_CachedTokens r) =? 0)) "cached_tokens" (enc_int (ctd_CachedTokens r));
    mem_if (negb ((ctd_AudioTokens r) =? 0)) "audio_tokens" (enc_int (ctd_AudioTokens r));
    mem_if (negb ((ctd_CacheCreationTokens r) =? 0)) "cache_creation_tokens" (enc_int (ctd_CacheCreationTokens r));
    mem_if (negb ((ctd_CacheWriteTokens r) =? 0)) "cache_write_tokens" (enc_int (ctd_CacheWriteTokens r));
    mem_if (negb ((ctd_ReasoningTokens r) =? 0)) "reasoning_tokens" (enc_int (ctd_ReasoningTokens r));
    mem_if (negb ((ctd_AcceptedPredictionTokens r) =? 0)) "accepted_prediction_tokens" (enc_int (ctd_AcceptedPredictionTokens r));
    mem_if (negb ((ctd_RejectedPredictionTokens r) =? 0)) "rejected_prediction_tokens" (enc_int (ctd_RejectedPredictionTokens r))].

Definition enc_ChatUsage (r : ChatUsage) : Enc :=
  enc_object [
    mem "prompt_tokens" (enc_int (cu_PromptTokens r));
    mem "completion_tokens" (enc_int (cu_CompletionTokens r));
    mem "total_tokens" (enc_int (cu_TotalTokens r));
    mem_if (is_some (cu_PromptTokensDetails r)) "prompt_tokens_details" (enc_ptr enc_ChatTokenDetails (cu_PromptTokensDetails r));
    mem_if (is_some (cu_CompletionTokensDetails r)) "completion_tokens_details" (enc_ptr enc_ChatTokenDetails (cu_CompletionTokensDetails r))].

Definition enc_ChatDelta (r : ChatDelta) : Enc :=
  enc_object [
    mem_if ((cd_Role r) <>s? "") "role" (enc_string (cd_Role r));
    mem_if (is_some (cd_Content r)) "content" (enc_ptr enc_string (cd_Content r));
    mem_if (is_some (cd_ReasoningContent r)) "reasoning_content" (enc_ptr enc_string (cd_ReasoningContent r));
    mem_if (nonempty (cd_ToolCalls r)) "tool_calls" (enc_list (map enc_ChatToolCall (cd_ToolCalls r)))].

Definition enc_ChatChunkChoice (r : ChatChunkChoice) : Enc :=
  enc_object [
    mem "index" (enc_int (ccc_Index r));
    mem "delta" (enc_ChatDelta (ccc_Delta r));
    mem "finish_reason" (enc_ptr enc_string (ccc_FinishReason r))].

Definition enc_ChatCompletionsChunk (r : ChatCompletionsChunk) : Enc :=
  enc_object [
    mem "id" (enc_string (chunk_ID r));
    mem "object" (enc_string (chunk_Object r));
    mem "created" (enc_int (chunk_Created r));
    mem "model" (enc_string (chunk_Model r));
    mem "choices" (enc_list (map enc_ChatChunkChoice (chunk_Choices r)));
    mem_if (is_some (chunk_Usage r)) "usage" (enc_ptr enc_ChatUsage (chunk_Usage r));
    mem_if ((chunk_SystemFingerprint r) <>s? "") "system_fingerprint" (enc_string (chunk_SystemFingerprint r));
    mem_if ((chunk_ServiceTier r) <>s? "") "service_tier" (enc_string (chunk_ServiceTier r))].

(** ** Decoders *)

Definition dec_AnthropicImageSource : Dec AnthropicImageSource :=
  dec_struct [
    field "type" ais_Type (fun v r => r <| ais_Type := v |>) dec_string;
    field "media_type" ais_MediaType (fun v r => r <| ais_MediaType := v |>) dec_string;
    field "data" ais_Data (fun v r => r <| ais_Data := v |>) dec_string].

Definition dec_AnthropicContentBlock : Dec AnthropicContentBlock :=
  dec_struct [
    field "type" acb_Type (fun v r => r <| acb_Type := v |>) dec_string;
    field "text" acb_Text (fun v r => r <| acb_Text := v |>) dec_string;
    field "thinking" acb_Thinking (fun v r => r <| acb_Thinking := v |>) dec_string;
    field "source" acb_Source (fun v r => r <| acb_Source := v |>)
      (dec_ptr dec_AnthropicImageSource zero_AnthropicImageSource);
    field "id" acb_ID (fun v r => r <| acb_ID := v |>) dec_string;
    field "name" acb_Name (fun v r => r <| acb_Name := v |>) dec_string;
    field "input" acb_Input (fun v r => r <| acb_Input := v |>) dec_raw;
    field "tool_use_id" acb_ToolUseID (fun v r => r <| acb_ToolUseID := v |>) dec_string;
    field "content" acb_Content (fun v r => r <| acb_Content := v |>) dec_raw;
    field "is_error" acb_IsError (fun v r => r <| acb_IsError := v |>) dec_bool].

Definition dec_ResponsesContentPart : Dec ResponsesContentPart :=
  dec_struct [
    field "type" rcp_Type (fun v r => r <| rcp_Type := v |>) dec_string;
    field "text" rcp_Text (fun v r => r <| rcp_Text := v |>) dec_string;
    field "image_url" rcp_ImageURL (fun v r => r <| rcp_ImageURL := v |>) dec_string].

Definition dec_ResponsesInputItem : Dec ResponsesInputItem :=
  dec_struct [
    field "type" rii_Type (fun v r => r <| rii_Type := v |>) dec_string;
    field "role" rii_Role (fun v r => r <| rii_Role := v |>) dec_string;
    field "content" rii_Content (fun v r => r <| rii_Content := v |>) dec_raw;
    field "call_id" rii_CallID (fun v r => r <| rii_CallID := v |>) dec_string;
    field "name" rii_Name (fun v r => r <| rii_Name := v |>) dec_string;
    field "arguments" rii_Arguments (fun v r => r <| rii_Arguments := v |>) dec_raw;
    field "id" rii_ID (fun v r => r <| rii_ID := v |>) dec_string;
    field "output" rii_Output (fun v r => r <| rii_Output := v |>) dec_raw].

Definition dec_ChatImageURL : Dec ChatImageURL :=
  dec_struct [
    field "url" ciu_URL (fun v r => r <| ciu_URL := v |>) dec_string;
    field "detail" ciu_Detail (fun v r => r <| ciu_Detail := v |>) dec_string].

Definition dec_ChatContentPart : Dec ChatContentPart :=
  dec_struct [
    field "type" ccp_Type (fun v r => r <| ccp_Type := v |>) dec_string;
    field "text" ccp_Text (fun v r => r <| ccp_Text := v |>) dec_string;
    field "image_url" ccp_ImageURL (fun v r => r <| ccp_ImageURL := v |>)
      (dec_ptr dec_ChatImageURL zero_ChatImageURL)].

Definition dec_ResponsesInputTokensDetails : Dec ResponsesInputTokensDetails :=
  dec_struct [
    field "cached_tokens" ritd_CachedTokens (fun v r => r <| ritd_CachedTokens := v |>) dec_int;
    field "audio_tokens" ritd_AudioTokens (fun v r => r <| ritd_AudioTokens := v |>) dec_int;
    field "cache_creation_tokens" ritd_CacheCreationTokens
      (fun v r => r <| ritd_CacheCreationTokens := v |>) dec_int;
    field "cache_write_tokens" ritd_CacheWriteTokens (fun v r => r <| ritd_CacheWriteTokens := v |>) dec_int].

Definition dec_ResponsesOutputTokensDetails : Dec ResponsesOutputTokensDetails :=
  dec_struct [
    field "reasoning_tokens" rotd_ReasoningTokens (fun v r => r <| rotd_ReasoningTokens := v |>) dec_int;
    field "audio_tokens" rotd_AudioTokens (fun v r => r <| rotd_AudioTokens := v |>) dec_int;
    field "accepted_prediction_tokens" rotd_AcceptedPredictionTokens
      (fun v r => r <| rotd_AcceptedPredictionTokens := v |>) dec_int;
    field "rejected_prediction_tokens" rotd_RejectedPredictionTokens
      (fun v r => r <| rotd_RejectedPredictionTokens := v |>) dec_int].

(** *** ResponsesUsage.UnmarshalJSON *)

(** The anonymous struct the method decodes first: the usage itself and the
    aliases under which upstreams report the same counts. *)
Record usageAux : Type := mkusageAux {
  ux_alias : ResponsesUsage;
  ux_PromptTokens : Z;
  ux_CompletionTokens : Z;
  ux_CacheCreationTokens : Z;
  ux_CacheWriteInputTokens : Z;
  ux_CacheWriteTokens : Z;
  ux_PromptTokensDetails : option ResponsesInputTokensDetails;
  ux_CompletionTokensDetails : option ResponsesOutputTokensDetails
}.
Definition zero_usageAux : usageAux := mkusageAux zero_ResponsesUsage 0 0 0 0 0 None None.
#[export] Instance eta_usageAux : Settable usageAux := fun r =>
  mkusageAux (ux_alias r) (ux_PromptTokens r) (ux_CompletionTokens r) (ux_CacheCreationTokens r)
    (ux_CacheWriteInputTokens r) (ux_CacheWriteTokens r) (ux_PromptTokensDetails r)
    (ux_CompletionTokensDetails r).

Definition alias_field {E} (name : string) (get : ResponsesUsage -> E)
    (set : E -> ResponsesUsage -> ResponsesUsage) (d : Dec E) : string * Dec usageAux :=
  field name (fun a => get (ux_alias a)) (fun v a => a <| ux_alias := set v (ux_alias a) |>) d.

Definition dec_usageAux : Dec usageAux :=
  dec_struct [
    alias_field "input_tokens" ru_InputTokens (fun v r => r <| ru_InputTokens := v |>) dec_int;
    alias_field "output_tokens" ru_OutputTokens (fun v r => r <| ru_OutputTokens := v |>) dec_int;
    alias_field "total_tokens" ru_TotalTokens (fun v r => r <| ru_TotalTokens := v |>) dec_int;
    alias_field "cache_creation_input_tokens" ru_CacheCreationInputTokens
      (fun v r => r <| ru_CacheCreationInputTokens := v |>) dec_int;
    alias_field "input_tokens_details" ru_InputTokensDetails (fun v r => r <| ru_InputTokensDetails := v |>)
      (dec_ptr dec_ResponsesInputTokensDetails zero_ResponsesInputTokensDetails);
    alias_field "output_tokens_details" ru_OutputTokensDetails (fun v r => r <| ru_OutputTokensDetails := v |>)
      (dec_ptr dec_ResponsesOutputTokensDetails zero_ResponsesOutputTokensDetails);
    field "prompt_tokens" ux_PromptTokens (fun v r => r <| ux_PromptTokens := v |>) dec_int;
    field "completion_tokens" ux_CompletionTokens (fun v r => r <| ux_CompletionTokens := v |>) dec_int;
    field "cache_creation_tokens" ux_CacheCreationTokens (fun v r => r <| ux_CacheCreationTokens := v |>) dec_int;
    field "cache_write_input_tokens" ux_CacheWriteInputTokens
      (fun v r => r <| ux_CacheWriteInputTokens := v |>) dec_int;
    field "cache_write_tokens" ux_CacheWriteTokens (fun v r => r <| ux_CacheWriteTokens := v |>) dec_int;
    field "prompt_tokens_details" ux_PromptTokensDetails (fun v r => r <| ux_PromptTokensDetails := v |>)
      (dec_ptr dec_ResponsesInputTokensDetails zero_ResponsesInputTokensDetails);
    field "completion_tokens_details" ux_CompletionTokensDetails
      (fun v r => r <| ux_CompletionTokensDetails := v |>)
      (dec_ptr dec_ResponsesOutputTokensDetails zero_ResponsesOutputTokensDetails)].

Record cacheTokenPresence : Type := mkcacheTokenPresence {
  ctp_CacheCreationTokens : option Z;
  ctp_CacheWriteTokens : option Z
}.
Definition zero_cacheTokenPresence : cacheTokenPresence := mkcacheTokenPresence None None.
#[export] Instance eta_cacheTokenPresence : Settable cacheTokenPresence := fun r =>
  mkcacheTokenPresence (ctp_CacheCreationTokens r) (ctp_CacheWriteTokens r).

Definition dec_cacheTokenPresence : Dec cacheTokenPresence :=
  dec_struct [
    field "cache_creation_tokens" ctp_CacheCreationTokens
      (fun v r => r <| ctp_CacheCreationTokens := v |>) (dec_ptr dec_int 0);
    field "cache_write_tokens" ctp_CacheWriteTokens
      (fun v r => r <| ctp_CacheWriteTokens := v |>) (dec_ptr dec_int 0)].

Record nestedPresence : Type := mknestedPresence {
  np_InputTokensDetails : option cacheTokenPresence;
  np_PromptTokensDetails : option cacheTokenPresence
}.
Definition zero_nestedPresence : nestedPresence := mknestedPresence None None.
#[export] Instance eta_nestedPresence : Settable nestedPresence := fun r =>
  mknestedPresence (np_InputTokensDetails r) (np_PromptTokensDetails r).

Definition dec_nestedPresence : Dec nestedPresence :=
  dec_struct [
    field "input_tokens_details" np_InputTokensDetails (fun v r => r <| np_InputTokensDetails := v |>)
      (dec_ptr dec_cacheTokenPresence zero_cacheTokenPresence);
    field "prompt_tokens_details" np_PromptTokensDetails (fun v r => r <| np_PromptTokensDetails := v |>)
      (dec_ptr dec_cacheTokenPresence zero_cacheTokenPresence)].

(** The statements of the method after the two calls of [json.Unmarshal]. *)
Definition usage_from_aux (aux : usageAux) (np : nestedPresence) : ResponsesUsage :=
  let u := ux_alias aux in
  let u := if (ru_InputTokens u =? 0) && negb (ux_PromptTokens aux =? 0)
           then u <| ru_InputTokens := ux_PromptTokens aux |> else u in
  let u := if (ru_OutputTokens u =? 0) && negb (ux_CompletionTokens aux =? 0)
           then u <| ru_OutputTokens := ux_CompletionTokens aux |> else u in
  let u := if ru_CacheCreationInputTokens u =? 0 then
             if 0 <? ux_CacheWriteInputTokens aux
             then u <| ru_CacheCreationInputTokens := ux_CacheWriteInputTokens aux |>
             else if 0 <? ux_CacheCreationTokens aux
             then u <| ru_CacheCreationInputTokens := ux_CacheCreationTokens aux |>
             else if 0 <? ux_CacheWriteTokens aux
             then u <| ru_CacheCreationInputTokens := ux_CacheWriteTokens aux |>
             else u
           else u in
  let u := if negb (is_some (ru_InputTokensDetails u)) && is_some (ux_PromptTokensDetails aux)
           then u <| ru_InputTokensDetails := ux_PromptTokensDetails aux |> else u in
  let u := if negb (is_some (ru_OutputTokensDetails u)) && is_some (ux_CompletionTokensDetails aux)
           then u <| ru_OutputTokensDetails := ux_CompletionTokensDetails aux |> else u in
  let canonicalCacheCreationTokens :=
    match np_InputTokensDetails np ≫= ctp_CacheWriteTokens with
    | Some n => Some n
    | None =>
        match np_PromptTokensDetails np ≫= ctp_CacheWriteTokens with
        | Some n => Some n
        | None =>
            match np_InputTokensDetails np ≫= ctp_CacheCreationTokens with
            | Some n => Some n
            | None => np_PromptTokensDetails np ≫= ctp_CacheCreationTokens
            end
        end
    end in
  let u := match canonicalCacheCreationTokens with
           | Some n => u <| ru_CacheCreationInputTokens := Z.max n 0 |>
           | None => u
           end in
  if (ru_TotalTokens u =? 0) && (negb (ru_InputTokens u =? 0) || negb (ru_OutputTokens u =? 0))
  then u <| ru_TotalTokens := add64 (ru_InputTokens u) (ru_OutputTokens u) |> else u.

Definition ResponsesUsage_UnmarshalJSON (data : string) : result ResponsesUsage :=
  aux ← unmarshal dec_usageAux zero_usageAux data;
  np ← unmarshal dec_nestedPresence zero_nestedPresence data;
  mret (usage_from_aux aux np).
