(* ===== verification/Streaming.v ===== *)
(** * Stateful stream converters

    The three converters of apicompat ([ResponsesEventToAnthropicEvents],
    [AnthropicEventToResponsesEvents], [ResponsesEventToChatChunks]) share one
    shape: a mutable state, a step that maps one upstream event to zero or
    more downstream events, and a finalizer for a stream that ended early.
    [StreamConverter] is that interface; [run] and [session] are how the
    handlers drive it, and the lemmas about them are proved once. *)

From S2P Require Import Prelude.

Class StreamConverter (St In Out : Type) : Type := {
  sc_step : In -> St -> St * list Out;
  sc_finalize : St -> St * list Out;
}.

Section Run.
  Context {St In Out : Type} `{StreamConverter St In Out}.

(** Feeding a sequence of events, outputs concatenated. *)
Fixpoint run (evts : list In) (st : St) : St * list Out :=
  match evts with
  | [] => (st, [])
  | e :: evts' =>
      let '(st1, out1) := sc_step e st in
      let '(st2, out2) := run evts' st1 in
      (st2, (out1 ++ out2)%list)
  end.

(** A whole response: the events, then the finalizer. *)
Definition session (evts : list In) (st : St) : St * list Out :=
  let '(st1, out1) := run evts st in
  let '(st2, out2) := sc_finalize st1 in
  (st2, (out1 ++ out2)%list).

Lemma run_app evts1 evts2 st :
  run (evts1 ++ evts2)%list st =
  let '(st1, out1) := run evts1 st in
  let '(st2, out2) := run evts2 st1 in
  (st2, (out1 ++ out2)%list).
Proof.
  revert st. induction evts1 as [|e evts1 IH]; intros st; cbn.
  - by destruct (run evts2 st).
  - destruct (sc_step e st) as [st1 o1]. rewrite IH.
    destruct (run evts1 st1) as [st2 o2]. destruct (run evts2 st2) as [st3 o3].
    by rewrite app_assoc.
Qed.

(** A state invariant kept by every step is kept by a run. *)
Lemma run_invariant (I : St -> Prop) :
  (forall e st, I st -> I (fst (sc_step e st))) ->
  forall evts st, I st -> I (fst (run evts st)).
Proof.
  intros Hstep evts. induction evts as [|e evts IH]; intros st Hst; cbn; [done|].
  specialize (Hstep e st Hst). destruct (sc_step e st) as [st1 o1]. cbn in Hstep.
  specialize (IH st1 Hstep). by destruct (run evts st1).
Qed.
End Run.

(** ** Acceptors

    The contract of an output protocol is an automaton that reads the emitted
    events; [accepts] threads its state through a list. *)
Section Acceptor.
  Context {Q Out : Type} (delta : Q -> Out -> option Q).

Fixpoint accepts (q : Q) (outs : list Out) : option Q :=
  match outs with
  | [] => Some q
  | o :: outs' => q' ← delta q o; accepts q' outs'
  end.

Lemma accepts_app q outs1 outs2 :
  accepts q (outs1 ++ outs2)%list = (q' ← accepts q outs1; accepts q' outs2).
Proof.
  revert q. induction outs1 as [|o outs1 IH]; intros q; cbn; [done|].
  destruct (delta q o) as [q'|]; cbn; [apply IH | done].
Qed.

(** Simulation: when every step of a converter, from a state related to the
    automaton's, emits events the automaton accepts into a related state,
    so does a run.  [guard] is what the step assumes of the input. *)
Lemma run_accepted {St In} `{StreamConverter St In Out} {G} (guard : G -> In -> option G)
    (R : G -> St -> Q -> Prop) :
  (forall g st q e g', R g st q -> guard g e = Some g' ->
     exists q', accepts q (snd (sc_step e st)) = Some q' /\ R g' (fst (sc_step e st)) q') ->
  forall evts g st q g', R g st q ->
    foldl (fun og e => g ← og; guard g e) (Some g) evts = Some g' ->
    exists q', accepts q (snd (run evts st)) = Some q' /\ R g' (fst (run evts st)) q'.
Proof.
  intros Hstep evts. induction evts as [|e evts IH]; intros g st q g' HR Hg; cbn in *.
  { injection Hg as <-. eauto. }
  destruct (guard g e) as [g1|] eqn:E.
  2: { exfalso. clear -Hg. induction evts; cbn in *; [discriminate | auto]. }
  destruct (Hstep _ _ _ _ _ HR E) as (q1 & Hq1 & HR1).
  destruct (sc_step e st) as [st1 o1]. cbn in *.
  destruct (IH _ _ _ _ HR1 Hg) as (q2 & Hq2 & HR2).
  destruct (run evts st1) as [st2 o2]. cbn in *.
  exists q2. rewrite accepts_app, Hq1. done.
Qed.
End Acceptor.
