(* ===== verification/Crypto.v ===== *)
(** * crypto/rand and crypto/sha256

    [crypto/rand] as a stream of draws the code consumes one [rand.Read] at a
    time.  What the draws are is not assumed; the theorems that need distinct
    ones say so. *)

From S2P Require Import Prelude GoStrings.

Record Rand : Type := mkRand {
  draw : nat -> string; (* the bytes of the n-th [rand.Read] *)
  drawn : nat           (* how many were made *)
}.
#[export] Instance eta_Rand : Settable Rand := fun r => mkRand (draw r) (drawn r).

Definition rand_read : ST Rand string := fun r => (draw r (drawn r), r <| drawn := S (drawn r) |>).

(** * SHA-256 (crypto/sha256) and its hexadecimal text

    Words are integers below [2^32]; a message is a string of bytes. *)

Definition word (z : Z) : Z := z `mod` 2 ^ 32.
Definition rotr (n x : Z) : Z := Z.lor (Z.shiftr x n) (word (Z.shiftl x (32 - n))).
Definition wnot (x : Z) : Z := Z.lxor x 0xFFFFFFFF.

(** The constants of the standard: the first 32 bits of the fractional parts of
    the cube roots of the first 64 primes, and of the square roots of the first
    eight. *)
Definition is_prime (n : nat) : bool :=
  forallb (fun d => negb (Nat.modulo n d =? 0)%nat) (seq 2 (n - 2)).
Definition primes : list Z := map Z.of_nat (filter is_prime (seq 2 310)).

(** The greatest [r + x] with [x < 2^bits] whose cube is at most [n]. *)
Fixpoint cube_root (bits : nat) (n r : Z) : Z :=
  match bits with
  | O => r
  | S bits => let r' := r + 2 ^ Z.of_nat bits in cube_root bits n (if r' ^ 3 <=? n then r' else r)
  end.

Definition round_constants : list Z :=
  Eval vm_compute in map (fun p => word (cube_root 36 (p * 2 ^ 96) 0)) primes.

Record digest : Type := mkdigest { h0 : Z; h1 : Z; h2 : Z; h3 : Z; h4 : Z; h5 : Z; h6 : Z; h7 : Z }.

Definition initial_digest : digest :=
  Eval vm_compute in
    match map (fun p => word (Z.sqrt (p * 2 ^ 64))) (take 8 primes) with
    | [a; b; c; d; e; f; g; h] => mkdigest a b c d e f g h
    | _ => mkdigest 0 0 0 0 0 0 0 0
    end.

(** The message schedule, last word first: [n] more words after the block. *)
Fixpoint schedule (n : nat) (ws : list Z) : list Z :=
  match n with
  | O => ws
  | S n =>
      let at_ i := nth i ws 0 in
      let w15 := at_ 14%nat in
      let w2 := at_ 1%nat in
      let s0 := Z.lxor (Z.lxor (rotr 7 w15) (rotr 18 w15)) (Z.shiftr w15 3) in
      let s1 := Z.lxor (Z.lxor (rotr 17 w2) (rotr 19 w2)) (Z.shiftr w2 10) in
      schedule n (word (at_ 15%nat + s0 + at_ 6%nat + s1) :: ws)
  end.

Definition compress_round (d : digest) (kw : Z * Z) : digest :=
  let '(k, w) := kw in
  let '(mkdigest a b c e f g h i) := d in
  let s1 := Z.lxor (Z.lxor (rotr 6 f) (rotr 11 f)) (rotr 25 f) in
  let ch := Z.lxor (Z.land f g) (Z.land (wnot f) h) in
  let t1 := i + s1 + ch + k + w in
  let s0 := Z.lxor (Z.lxor (rotr 2 a) (rotr 13 a)) (rotr 22 a) in
  let maj := Z.lxor (Z.lxor (Z.land a b) (Z.land a c)) (Z.land b c) in
  mkdigest (word (t1 + s0 + maj)) a b c (word (e + t1)) f g h.

Definition compress (d : digest) (block : list Z) : digest :=
  let r := foldl compress_round d (zip round_constants (rev (schedule 48 (rev block)))) in
  mkdigest (word (h0 d + h0 r)) (word (h1 d + h1 r)) (word (h2 d + h2 r)) (word (h3 d + h3 r))
           (word (h4 d + h4 r)) (word (h5 d + h5 r)) (word (h6 d + h6 r)) (word (h7 d + h7 r)).

Fixpoint bytes_of (s : string) : list Z :=
  match s with EmptyString => [] | String c s => byte_val c :: bytes_of s end.

Fixpoint words_of (l : list Z) : list Z :=
  match l with
  | a :: b :: c :: d :: l => (a * 2 ^ 24 + b * 2 ^ 16 + c * 2 ^ 8 + d) :: words_of l
  | _ => []
  end.

(** [n] bytes of [z], most significant first. *)
Fixpoint big_endian (n : nat) (z : Z) : list Z :=
  match n with O => [] | S n => (big_endian n (z / 256) ++ [z `mod` 256])%list end.

(** Padded to whole blocks: 0x80, zeros, the length in bits. *)
Definition padded (s : string) : list Z :=
  let n := Z.of_nat (String.length s) in
  let pad := (55 - n) `mod` 64 in
  (bytes_of s ++ 0x80 :: repeat 0 (Z.to_nat pad) ++ big_endian 8 (8 * n))%list.

Fixpoint blocks (fuel : nat) (ws : list Z) (d : digest) : digest :=
  match fuel, ws with
  | S fuel, _ :: _ => blocks fuel (drop 16 ws) (compress d (take 16 ws))
  | _, _ => d
  end.

Fixpoint string_of_bytes (l : list Z) : string :=
  match l with [] => EmptyString | b :: l => String (byte_of b) (string_of_bytes l) end.

(** [sha256.Sum256]. *)
Definition sha256 (s : string) : string :=
  let ws := words_of (padded s) in
  let '(mkdigest a b c d e f g h) := blocks (length ws) ws initial_digest in
  string_of_bytes (concat (map (big_endian 4) [a; b; c; d; e; f; g; h])).

(** [hex.EncodeToString] of the sum. *)
Definition sha256_hex (s : string) : string := hex_encode (sha256 s).

Example sha256_abc : sha256_hex "abc" = "ba7816bf8f01cfea414140de5dae2223b00361a396177a9cb410ff61f20015ad".
Proof. vm_compute. reflexivity. Qed.

Example sha256_two_blocks : sha256_hex "abcdbcdecdefdefgefghfghighijhijkijkljklmklmnlmnomnopnopq" =
  "248d6a61d20638b8e5c026930c3e6039a33ce45964ff2167f6ecedd419db06c1".
Proof. vm_compute. reflexivity. Qed.
