(* ===== verification/AnyJson.v ===== *)
(** * float64 and its decimal text, and values of type any

    A JSON number decoded into an [any] becomes a [float64] ([strconv.ParseFloat],
    nearest value, ties to even), and is written by encoding/json as its
    shortest decimal that reads back as the same value.  Both are computed on
    integers: a finite value is [m * 2^e]. *)

From S2P Require Import Prelude GoStrings Json JsonFacts.

(** ** Reading *)

(** [n / d] to the nearest integer, ties to even. *)
Definition div_nearest_even (n d : Z) : Z :=
  let q := n / d in
  let r := 2 * (n `mod` d) in
  if r <? d then q else if d <? r then q + 1 else if Z.even q then q else q + 1.

(** The exponent of the 53-bit mantissa of [n / d]. *)
Definition binary_exponent (n d : Z) : Z :=
  let e := Z.log2 n - Z.log2 d - 52 in
  let e := if n * 2 ^ Z.max 0 (- e) <? d * 2 ^ Z.max 0 e * 2 ^ 52 then e - 1 else e in
  Z.max e (-1074).

(** The nearest float64 of [n / d], with [0 < n] and [0 < d]; [None] when it
    overflows. *)
Definition round_float64 (n d : Z) : option (Z * Z) :=
  let e := binary_exponent n d in
  let m := div_nearest_even (n * 2 ^ Z.max 0 (- e)) (d * 2 ^ Z.max 0 e) in
  let '(m, e) := if m =? 2 ^ 53 then (2 ^ 52, e + 1) else (m, e) in
  if 971 <? e then None else Some (m, e).

(** [d * 10^x] as a fraction. *)
Definition decimal_float64 (d x : Z) : option (Z * Z) :=
  if d =? 0 then Some (0, 0) else round_float64 (d * 10 ^ Z.max 0 x) (10 ^ Z.max 0 (- x)).

(** The digits and the decimal exponent of an unsigned number literal. *)
Definition decimal_of_literal (s0 : string) : option (Z * Z) :=
  '(i, s1) ← scan_int s0;
  '(f, s2) ← scan_frac s1;
  let fd := drop_bytes 1 f in
  let ex := match s2 with
            | String _ (String "-"%char d) => - exp_val 0 d
            | String _ (String "+"%char d) => exp_val 0 d
            | String _ d => exp_val 0 d
            | EmptyString => 0
            end in
  Some (default 0 (digits_val 0 (i +:+ fd)), ex - Z.of_nat (String.length fd)).

(** ParseFloat of an unsigned literal; exponents far outside the range are
    decided without computing the power of ten. *)
Definition parse_float64 (lit : string) : option (Z * Z) :=
  '(d, x) ← decimal_of_literal lit;
  if d =? 0 then Some (0, 0)
  else if 400 <? x + Z.log2 d / 4 then None
  else if x + Z.log2 d <? -400 then Some (0, 0)
  else decimal_float64 d x.

(** ** Writing *)

Definition same_float (a b : option (Z * Z)) : bool :=
  match a, b with
  | Some (m, e), Some (m', e') => (m =? m') && (e =? e')
  | _, _ => false
  end.

(** The least [k] with [n / d < 10^k]. *)
Definition decimal_exponent (n d : Z) : Z :=
  let k := (Z.log2 n - Z.log2 d) * 30103 / 100000 - 1 in
  let below k := n * 10 ^ Z.max 0 (- k) <? d * 10 ^ Z.max 0 k in
  if below k then k else if below (k + 1) then k + 1 else if below (k + 2) then k + 2 else k + 3.

(** The nearest decimals of [p] digits to [m * 2^e], below and above, that read
    back as it; of two the closer one, the even one on a tie. *)
Definition decimal_with (m e k p : Z) : option Z :=
  let x := k - p in
  let n := m * 2 ^ Z.max 0 e * 10 ^ Z.max 0 (- x) in
  let d := 2 ^ Z.max 0 (- e) * 10 ^ Z.max 0 x in
  let lo := n / d in
  let ok c := same_float (decimal_float64 c x) (Some (m, e)) in
  if (n `mod` d =? 0) && ok lo then Some lo
  else match ok lo, ok (lo + 1) with
       | true, true => Some (div_nearest_even n d)
       | true, false => Some lo
       | false, true => Some (lo + 1)
       | false, false => None
       end.

Fixpoint shortest_from (fuel : nat) (p m e k : Z) : Z * Z :=
  match decimal_with m e k p with
  | Some c => (c, k - p)
  | None => match fuel with O => (m, 0) | S fuel => shortest_from fuel (p + 1) m e k end
  end.

(** The shortest decimal [c * 10^x] of [m * 2^e]: at most 17 digits. *)
Definition shortest_decimal (m e : Z) : Z * Z :=
  shortest_from 16 1 m e (decimal_exponent (m * 2 ^ Z.max 0 e) (2 ^ Z.max 0 (- e))).

Fixpoint strip_zeros (fuel : nat) (c x : Z) : Z * Z :=
  match fuel with
  | O => (c, x)
  | S fuel => if (c =? 0) || negb (c `mod` 10 =? 0) then (c, x) else strip_zeros fuel (c / 10) (x + 1)
  end.

Fixpoint zeros (n : nat) : string := match n with O => "" | S n => String "0"%char (zeros n) end.

Fixpoint split_at (n : nat) (s : string) : string * string :=
  match n, s with
  | S n, String c s => let '(a, b) := split_at n s in (String c a, b)
  | _, _ => ("", s)
  end.

(** [%f] of the digits [ds] with the point before digit [k]. *)
Definition fixed_notation (ds : string) (k : Z) : string :=
  let n := Z.of_nat (String.length ds) in
  if k <=? 0 then "0." +:+ zeros (Z.to_nat (- k)) +:+ ds
  else if n <=? k then ds +:+ zeros (Z.to_nat (k - n))
  else let '(a, b) := split_at (Z.to_nat k) ds in a +:+ "." +:+ b.

(** [%e] as encoding/json cleans it: no leading zero in the exponent. *)
Definition exponent_notation (ds : string) (k : Z) : string :=
  let '(a, b) := split_at 1 ds in
  a +:+ (if b =s? "" then "" else "." +:+ b) +:+ "e" +:+ (if k - 1 <? 0 then "-" else "+") +:+ pretty (Z.abs (k - 1)).

(** floatEncoder: fixed notation from 1e-6 up to 1e21. *)
Definition format_float64 (m e : Z) : string :=
  if m =? 0 then "0" else
  let '(c, x) := shortest_decimal m e in
  let '(c, x) := strip_zeros 17 c x in
  let ds := pretty c in
  let k := Z.of_nat (String.length ds) + x in
  if (k <=? -6) || (22 <=? k) then exponent_notation ds k else fixed_notation ds k.

(** What a number literal becomes on its way through an [any]. *)
Definition canonical_number (lit : string) : option string :=
  match cut_prefix lit "-" with
  | Some abs => '(m, e) ← parse_float64 abs; Some ("-" +:+ format_float64 m e)
  | None => '(m, e) ← parse_float64 lit; Some (format_float64 m e)
  end.

Example canonical_numbers :
  map canonical_number ["1"; "-0"; "1.50"; "0.1"; "1e3"; "123456789012345678"; "9007199254740993"; "1e21"; "0.000001";
    "1e-7"; "5e-324"; "1.7976931348623157e308"; "1e309"; "2.5e-8"; "5.684341886080802e-14"; "0.3"; "100"; "1e-400"] =
  [Some "1"; Some "-0"; Some "1.5"; Some "0.1"; Some "1000"; Some "123456789012345680"; Some "9007199254740992"; Some "1e+21";
    Some "0.000001"; Some "1e-7"; Some "5e-324"; Some "1.7976931348623157e+308"; None; Some "2.5e-8"; Some "5.684341886080802e-14";
    Some "0.3"; Some "100"; Some "0"].
Proof. vm_compute. reflexivity. Qed.

(** * Values of type [any]

    What encoding/json decodes into an [any] and writes back: [nil], booleans,
    [float64]s (by their canonical text), strings, [[]any] and
    [map[string]any], whose members are kept sorted by key, the order in which
    they are written. *)

Inductive any : Type :=
| ANil
| ABool (b : bool)
| ANum (lit : string)
| AStr (s : string)
| AArr (l : list any)
| AMap (m : list (string * any)).

(** Induction on documents, through arrays and maps. *)
Lemma any_induction (P : any -> Prop) :
  P ANil -> (forall b, P (ABool b)) -> (forall n, P (ANum n)) -> (forall s, P (AStr s)) ->
  (forall l, Forall P l -> P (AArr l)) -> (forall m, Forall (fun kv => P (snd kv)) m -> P (AMap m)) -> forall v, P v.
Proof.
  intros H1 H2 H3 H4 H5 H6. fix IH 1. intros [|b|n|s|l|m]; [done | apply H2 | apply H3 | apply H4 | apply H5 | apply H6].
  - induction l as [|v l IHl]; constructor; [apply IH | exact IHl].
  - induction m as [|[k v] m IHm]; constructor; [apply IH | exact IHm].
Qed.

(** [m[key] = v]. *)
Fixpoint set_member (key : string) (v : any) (m : list (string * any)) : list (string * any) :=
  match m with
  | [] => [(key, v)]
  | (k, w) :: m' =>
      if key =s? k then (key, v) :: m'
      else if String.ltb key k then (key, v) :: m
      else (k, w) :: set_member key v m'
  end.

(** [json.Unmarshal] into an [any]: of members of one name the last counts. *)
Fixpoint decode_any (t : jval) : option any :=
  match t with
  | JNull => Some ANil
  | JBool b => Some (ABool b)
  | JNum lit => n ← canonical_number lit; Some (ANum n)
  | JStr lit => s ← unquote lit; Some (AStr s)
  | JArr _ es => l ← mapM decode_any es; Some (AArr l)
  | JObj _ ms =>
      m ← foldl (fun acc '(k, t) => m ← acc; key ← unquote k; v ← t; Some (set_member key v m)) (Some [])
            (map (fun '(k, t) => (k, decode_any t)) ms);
      Some (AMap m)
  end.

Definition dec_any : Dec any := fun t _ => decode_any t.

(** [json.Marshal] of an [any]. *)
Fixpoint encode_any (v : any) : jval :=
  match v with
  | ANil => JNull
  | ABool b => JBool b
  | ANum lit => JNum lit
  | AStr s => JStr (quote s)
  | AArr l => JArr "" (map encode_any l)
  | AMap m => JObj "" (map (fun '(k, v) => (quote k, encode_any v)) m)
  end.

Definition marshal_any (v : any) : string := print (encode_any v).

Example decode_sorted : unmarshal dec_any ANil (dq "{'b':1.0,'a':[null,true,'x'],'b':2e0}") =
  Ok (AMap [("a", AArr [ANil; ABool true; AStr "x"]); ("b", ANum "2")]).
Proof. vm_compute. reflexivity. Qed.

Example marshal_sorted : marshal_any (AMap [("a", AArr [ANil; AStr "<"]); ("b", ANum "2")]) =
  dq "{'a':[null,'\u003c'],'b':2}".
Proof. vm_compute. reflexivity. Qed.
