(* ===== verification/Regex.v ===== *)
(** * The regular expressions of package regexp the gateway uses

    Leftmost-first matching by backtracking, with captures, classes repeated
    greedily, alternation in order and word boundaries.  Texts are bytes: every
    class of the patterns contains all bytes outside ASCII or none of them, so
    a match never ends inside a rune that matters. *)

From S2P Require Import Prelude GoStrings.

Inductive regex : Type :=
| Eps
| Rep (least : nat) (most : option nat) (class : ascii -> bool)
| Seq (a b : regex)
| Alt (a b : regex)
| Group (i : nat) (r : regex)
| WordBoundary.

(** [\w] and [\s]. *)
Definition is_word (c : ascii) : bool := in_range 48 57 c || in_range 65 90 c || in_range 97 122 c || Ascii.eqb c "_"%char.
Definition is_space (c : ascii) : bool := in_range 9 10 c || in_range 12 13 c || (byte_val c =? 32).

(** A position: the byte before it, the text after it, what was captured. *)
Record position : Type := mkposition { before : option ascii; after : string; captured : list (nat * string) }.

Definition at_word_boundary (p : position) : bool :=
  let w o := match o with Some c => is_word c | None => false end in
  negb (Bool.eqb (w (before p)) (w (match after p with String c _ => Some c | EmptyString => None end))).

(** As many of the class as possible, then fewer. *)
Fixpoint repeat_class {A} (class : ascii -> bool) (least : nat) (most : option nat) (b : option ascii) (s : string)
    (k : option ascii -> string -> option A) : option A :=
  let stop := match least with O => k b s | S _ => None end in
  match most, s with
  | Some O, _ | _, EmptyString => stop
  | _, String c s' =>
      if class c
      then match repeat_class class (pred least) (option_map pred most) (Some c) s' k with
           | Some a => Some a
           | None => stop
           end
      else stop
  end.

Fixpoint prefix_of_length (n : nat) (s : string) : string :=
  match n, s with S n, String c s => String c (prefix_of_length n s) | _, _ => EmptyString end.

Fixpoint run {A} (r : regex) (p : position) (k : position -> option A) : option A :=
  match r with
  | Eps => k p
  | Rep least most class =>
      repeat_class class least most (before p) (after p) (fun b s => k (mkposition b s (captured p)))
  | Seq a b => run a p (fun p => run b p k)
  | Alt a b => match run a p k with Some x => Some x | None => run b p k end
  | Group i r =>
      run r p (fun p' => k (mkposition (before p') (after p')
        ((i, prefix_of_length (String.length (after p) - String.length (after p')) (after p)) :: captured p')))
  | WordBoundary => if at_word_boundary p then k p else None
  end.

Fixpoint group (i : nat) (l : list (nat * string)) : string :=
  match l with (j, s) :: l => if (i =? j)%nat then s else group i l | [] => "" end.

(** [ReplaceAllString]: [skip] bytes of the last match are still to be passed. *)
Fixpoint replace_from (r : regex) (template : list (nat * string) -> string) (skip : nat) (b : option ascii) (s : string) : string :=
  match s with
  | EmptyString => EmptyString
  | String c s' =>
      match skip with
      | S skip => replace_from r template skip (Some c) s'
      | O =>
          match run r (mkposition b s []) Some with
          | Some p =>
              match (String.length s - String.length (after p))%nat with
              | O => String c (replace_from r template O (Some c) s')
              | S n => template (captured p) +:+ replace_from r template n (Some c) s'
              end
          | None => String c (replace_from r template O (Some c) s')
          end
      end
  end.

Definition ReplaceAllString (r : regex) (template : list (nat * string) -> string) (s : string) : string :=
  replace_from r template O None s.

(** ** Pieces of patterns *)

Definition one (class : ascii -> bool) : regex := Rep 1 (Some 1%nat) class.
Definition byte (c : ascii) : regex := one (Ascii.eqb c).

Fixpoint literal (s : string) : regex :=
  match s with EmptyString => Eps | String c s => Seq (byte c) (literal s) end.

Definition upper_of (c : ascii) : ascii := if in_range 97 122 c then byte_of (byte_val c - 32) else c.
Definition lower_of (c : ascii) : ascii := if in_range 65 90 c then byte_of (byte_val c + 32) else c.

(** A literal under [(?i)]: letters of either case, and the two runes outside
    ASCII that fold to a letter, U+212A (k) and U+017F (s). *)
Definition folded_byte (c : ascii) : regex :=
  let r := one (fun d => Ascii.eqb (lower_of c) (lower_of d)) in
  let rune bytes := fold_right (fun b r => Seq (byte (byte_of b)) r) Eps bytes in
  if Ascii.eqb (lower_of c) "k"%char then Alt r (rune [0xE2; 0x84; 0xAA])
  else if Ascii.eqb (lower_of c) "s"%char then Alt r (rune [0xC5; 0xBF])
  else r.

Fixpoint folded_literal (s : string) : regex :=
  match s with EmptyString => Eps | String c s => Seq (folded_byte c) (folded_literal s) end.

Fixpoint alternatives (rs : list regex) : regex :=
  match rs with
  | [] => Eps
  | [r] => r
  | r :: rs => Alt r (alternatives rs)
  end.
