(* ===== verification/LogRedact.v ===== *)
(** * Package logredact (internal/util/logredact/redact.go)

    Sensitive members of logged and stored documents become three stars.  Also
    what lowering does to texts, which the names of models need as well. *)

From S2P Require Import Prelude GoStrings Json AnyJson Regex.
From S2P Require JsonFacts.

Definition maxRedactDepth : Z := 32.

Definition defaultSensitiveKeys : list string :=
  ["authorization_code"; "code"; "code_verifier"; "access_token"; "refresh_token"; "id_token"; "client_secret"; "password"].

Definition defaultSensitiveKeyList : list string := defaultSensitiveKeys.

(** ** Keys *)

(** [strings.ToLower], as far as a result inside ASCII goes: the only runes
    outside ASCII whose lower case is a letter of it are U+0130 (i) and U+212A
    (k); the others stay outside and are left alone. *)
Fixpoint to_lower (s : string) : string :=
  match s with
  | String a (String b (String c s3 as s2) as s1) =>
      if (byte_val a =? 0xC4) && (byte_val b =? 0xB0) then String "i"%char (to_lower s2)
      else if (byte_val a =? 0xE2) && (byte_val b =? 0x84) && (byte_val c =? 0xAA) then String "k"%char (to_lower s3)
      else String (lower_of a) (to_lower s1)
  | String a (String b EmptyString) =>
      if (byte_val a =? 0xC4) && (byte_val b =? 0xB0) then "i" else String (lower_of a) (String (lower_of b) "")
  | String a EmptyString => String (lower_of a) ""
  | EmptyString => ""
  end.

Definition normalizeKey (key : string) : string := to_lower (trim_space key).

Definition has_key (keys : list string) (k : string) : bool := existsb (String.eqb k) keys.

Definition buildKeySet (extraKeys : list string) : list string :=
  foldl (fun keys key =>
    let normalized := normalizeKey key in
    if normalized =s? "" then keys else if has_key keys normalized then keys else (keys ++ [normalized])%list)
    defaultSensitiveKeys extraKeys.

Definition isSensitiveKey (key : string) (keys : list string) : bool := has_key keys (normalizeKey key).

(** ** Documents *)

Fixpoint redactValueWithDepth (v : any) (keys : list string) (depth : Z) : any :=
  if maxRedactDepth <? depth then AStr "<depth limit exceeded>" else
  match v with
  | AMap m =>
      AMap (map (fun '(k, w) =>
        (k, if isSensitiveKey k keys then AStr "***" else redactValueWithDepth w keys (depth + 1))) m)
  | AArr l => AArr (map (fun w => redactValueWithDepth w keys (depth + 1)) l)
  | _ => v
  end.

(** The input of RedactMap is a map, nil or not. *)
Definition RedactMap (input : option (list (string * any))) (extraKeys : list string) : list (string * any) :=
  match input with
  | None => []
  | Some m =>
      match redactValueWithDepth (AMap m) (buildKeySet extraKeys) 0 with
      | AMap redacted => redacted
      | _ => []
      end
  end.

Definition RedactJSON (raw : string) (extraKeys : list string) : string :=
  if raw =s? "" then "" else
  match unmarshal dec_any ANil raw with
  | Err _ => "<non-json payload redacted>"
  | Ok value => marshal_any (redactValueWithDepth value (buildKeySet extraKeys) 0)
  end.

(** ** Text *)

Definition is_token (c : ascii) : bool := is_word c || Ascii.eqb c "-"%char.

(** GOCSPX-[0-9A-Za-z_-]{24,} and AIza[0-9A-Za-z_-]{35} *)
Definition reGOCSPX : regex := Seq (literal "GOCSPX-") (Rep 24 None is_token).
Definition reAIza : regex := Seq (literal "AIza") (Rep 35 (Some 35%nat) is_token).

(** Keys in the order of the alternation.  [regexp.QuoteMeta] makes a key match
    itself, so a key is a literal. *)
Definition buildKeyAlternation (extraKeys : list string) : list string :=
  foldl (fun keys k =>
    let n := normalizeKey k in
    if n =s? "" then keys else if has_key keys n then keys else (keys ++ [n])%list) defaultSensitiveKeyList extraKeys.

Record textRedactPatterns : Type := mktextRedactPatterns { reJSONLike : regex; reQueryLike : regex; rePlain : regex }.

Definition not_in (l : list ascii) (c : ascii) : bool := negb (existsb (Ascii.eqb c) l).
Definition spaces : regex := Rep 0 None is_space.

Definition compileTextRedactPatterns (extraKeys : list string) : textRedactPatterns :=
  let keyAlt := alternatives (map folded_literal (buildKeyAlternation extraKeys)) in
  mktextRedactPatterns
    (Seq (Group 1 (Seq (byte dquote) (Seq keyAlt (Seq (byte dquote) (Seq spaces (Seq (byte ":"%char) (Seq spaces (byte dquote))))))))
      (Seq (Group 2 (Rep 0 None (not_in [dquote]))) (Group 3 (byte dquote))))
    (Seq WordBoundary (Seq (Group 1 keyAlt) (Seq (byte "="%char)
      (Group 2 (Rep 1 None (fun c => not_in ["&"%char] c && negb (is_space c)))))))
    (Seq WordBoundary (Seq (Group 1 keyAlt) (Seq WordBoundary
      (Seq (Group 2 (Seq spaces (Seq (one (fun c => Ascii.eqb c ":"%char || Ascii.eqb c "="%char)) spaces)))
        (Group 3 (Rep 1 None (fun c => not_in [","%char] c && negb (is_space c)))))))).

(** Extra keys are normalized, deduplicated and sorted before they are compiled. *)
Fixpoint insert_key (k : string) (l : list string) : list string :=
  match l with [] => [k] | x :: l' => if String.leb k x then k :: l else x :: insert_key k l' end.

Definition normalizeAndSortExtraKeys (extraKeys : list string) : list string :=
  foldr insert_key [] (foldl (fun keys key =>
    let normalized := normalizeKey key in
    if normalized =s? "" then keys else if has_key keys normalized then keys else (keys ++ [normalized])%list) [] extraKeys).

(** The cache of compiled patterns is keyed by the joined keys; for keys without
    commas, which is what the callers pass, it only saves work. *)
Definition getTextRedactPatterns (extraKeys : list string) : textRedactPatterns :=
  let normalizedExtraKeys := normalizeAndSortExtraKeys extraKeys in
  if match normalizedExtraKeys with [] => true | _ => false end then compileTextRedactPatterns []
  else compileTextRedactPatterns normalizedExtraKeys.

Definition RedactText (input : string) (extraKeys : list string) : string :=
  let input := trim_space input in
  if input =s? "" then "" else
  if valid input then RedactJSON input extraKeys else
  let patterns := getTextRedactPatterns extraKeys in
  let out := ReplaceAllString reGOCSPX (fun _ => "GOCSPX-***") input in
  let out := ReplaceAllString reAIza (fun _ => "AIza***") out in
  let out := ReplaceAllString (reJSONLike patterns) (fun g => group 1 g +:+ "***" +:+ group 3 g) out in
  let out := ReplaceAllString (reQueryLike patterns) (fun g => group 1 g +:+ "=***") out in
  ReplaceAllString (rePlain patterns) (fun g => group 1 g +:+ group 2 g +:+ "***") out.

Example redact_json : RedactText (dq " {'user':'u','Password ':'p','n':[{'code':1,'k':9007199254740993}]} ") [] =
  dq "{'Password ':'***','n':[{'code':'***','k':9007199254740992}],'user':'u'}".
Proof. vm_compute. reflexivity. Qed.

Example redact_text :
  RedactText "err: access_token=abc&code_verifier=x, Password : hunter2, codex=1 refresh_Token=r GOCSPX-abcdefghijklmnopqrstuvwx" [] =
  "err: access_token=*** Password : ***, codex=1 refresh_Token=*** GOCSPX-***".
Proof. vm_compute. reflexivity. Qed.

(** ** Lower case *)

Definition starts2 (x y : Z) (a : ascii) (s : string) : bool :=
  match s with String b _ => (byte_val a =? x) && (byte_val b =? y) | _ => false end.
Definition starts3 (x y z : Z) (a : ascii) (s : string) : bool :=
  match s with String b (String c _) => (byte_val a =? x) && (byte_val b =? y) && (byte_val c =? z) | _ => false end.

Lemma to_lower_cons a s : to_lower (String a s) =
  if starts2 0xC4 0xB0 a s then String "i" (to_lower (drop_bytes 1 s))
  else if starts3 0xE2 0x84 0xAA a s then String "k" (to_lower (drop_bytes 2 s))
  else String (lower_of a) (to_lower s).
Proof.
  destruct s as [|b [|c s]]; [done| |done]. cbn [to_lower starts2 starts3 drop_bytes]. by destruct (_ && _).
Qed.

Lemma lower_of_idem a : lower_of (lower_of a) = lower_of a.
Proof. destruct a as [[] [] [] [] [] [] [] []]; vm_compute; reflexivity. Qed.

Lemma lower_of_high a x : 0x80 <= x -> byte_val (lower_of a) = x -> byte_val a = x.
Proof. intros Hx <-. revert Hx. destruct a as [[] [] [] [] [] [] [] []]; vm_compute; try done; intros H; by destruct H. Qed.

(** The bytes of the two special runes are not made by lowering. *)
Lemma to_lower_head a s x : 0x80 <= x -> byte_val a = x -> forall s', to_lower s' = String a s ->
  exists s1, s' = String a s1 /\ to_lower s1 = s.
Proof.
  intros Hx Ha s' E. destruct s' as [|a' s']; [done|]. rewrite to_lower_cons in E.
  destruct (starts2 0xC4 0xB0 a' s') eqn:E2; [injection E as <- _; vm_compute in Ha; lia|].
  destruct (starts3 0xE2 0x84 0xAA a' s') eqn:E3; [injection E as <- _; vm_compute in Ha; lia|].
  injection E as Eh <-. assert (byte_val a' = x) by (apply lower_of_high; [done|by rewrite Eh]).
  exists s'. split; [|done]. f_equal. apply byte_val_inj. congruence.
Qed.

Lemma starts2_lower a s : starts2 0xC4 0xB0 (lower_of a) (to_lower s) = true -> starts2 0xC4 0xB0 a s = true.
Proof.
  destruct (to_lower s) as [|b s'] eqn:E; [done|]. cbn. intros [Ha Hb]%andb_true_iff. apply Z.eqb_eq in Ha, Hb.
  destruct (to_lower_head b s' 0xB0 ltac:(lia) Hb s E) as (s1 & -> & _). cbn. rewrite Hb.
  by rewrite (lower_of_high a 0xC4 ltac:(lia) Ha).
Qed.

Lemma starts3_lower a s : starts3 0xE2 0x84 0xAA (lower_of a) (to_lower s) = true -> starts3 0xE2 0x84 0xAA a s = true.
Proof.
  destruct (to_lower s) as [|b [|c s']] eqn:E; [done..|]. cbn. intros [[Ha Hb]%andb_true_iff Hc]%andb_true_iff. apply Z.eqb_eq in Ha, Hb, Hc.
  destruct (to_lower_head b _ 0x84 ltac:(lia) Hb s E) as (s1 & -> & E1).
  destruct (to_lower_head c _ 0xAA ltac:(lia) Hc s1 E1) as (s2 & -> & _). cbn. rewrite Hb, Hc.
  by rewrite (lower_of_high a 0xE2 ltac:(lia) Ha).
Qed.

Lemma drop_bytes_length n s : (String.length (drop_bytes n s) <= String.length s)%nat.
Proof. revert s. induction n as [|n IH]; intros [|c s]; cbn; try lia. pose proof (IH s). lia. Qed.

Lemma to_lower_idem s : to_lower (to_lower s) = to_lower s.
Proof.
  induction s as [s IH] using (induction_ltof1 _ String.length). unfold ltof in IH. destruct s as [|a s]; [done|].
  rewrite (to_lower_cons a s). destruct (starts2 0xC4 0xB0 a s) eqn:E2; [|destruct (starts3 0xE2 0x84 0xAA a s) eqn:E3].
  - assert (Hs : forall s', to_lower (String "i" s') = String "i" (to_lower s')) by (intros s'; rewrite to_lower_cons; by destruct s' as [|? [|? ?]]).
    rewrite Hs, IH; [done|]. pose proof (drop_bytes_length 1 s). cbn [String.length]. lia.
  - assert (Hs : forall s', to_lower (String "k" s') = String "k" (to_lower s')) by (intros s'; rewrite to_lower_cons; by destruct s' as [|? [|? ?]]).
    rewrite Hs, IH; [done|]. pose proof (drop_bytes_length 2 s). cbn [String.length]. lia.
  - rewrite to_lower_cons, lower_of_idem, IH by (cbn; lia).
    destruct (starts2 0xC4 0xB0 (lower_of a) (to_lower s)) eqn:E; [by rewrite (starts2_lower _ _ E) in E2|].
    destruct (starts3 0xE2 0x84 0xAA (lower_of a) (to_lower s)) eqn:E'; [by rewrite (starts3_lower _ _ E') in E3|]. done.
Qed.

(** Lowering and trimming commute. *)

(** No special rune goes on with this text. *)
Definition fresh_start (r : string) : bool :=
  match r with String b _ => negb ((byte_val b =? 0xB0) || (byte_val b =? 0x84) || (byte_val b =? 0xAA)) | "" => true end.

Lemma to_lower_app q r : fresh_start r = true -> to_lower (q +:+ r) = to_lower q +:+ to_lower r.
Proof.
  intros Hr. induction q as [q IH] using (induction_ltof1 _ String.length). unfold ltof in IH. destruct q as [|a q]; [done|].
  cbn [String.append]. rewrite !to_lower_cons.
  assert (E2 : starts2 0xC4 0xB0 a (q +:+ r) = starts2 0xC4 0xB0 a q).
  { destruct q as [|b q]; [|done]. destruct r as [|b r]; [done|]. cbn in Hr |- *. destruct (byte_val b =? 0xB0); [done|]. by rewrite andb_false_r. }
  assert (E3 : starts3 0xE2 0x84 0xAA a (q +:+ r) = starts3 0xE2 0x84 0xAA a q).
  { destruct q as [|b [|c q]]; [|cbn|done]; (destruct r as [|d r]; [done|]); cbn in Hr |- *.
    - destruct r as [|e r]; [done|]. destruct (byte_val d =? 0x84); [by rewrite orb_true_r in Hr|]. by rewrite andb_false_r.
    - destruct (byte_val d =? 0xAA); [by rewrite orb_true_r in Hr|]. by rewrite andb_false_r. }
  rewrite E2, E3. destruct (starts2 _ _ a q) eqn:H2.
  - destruct q as [|b q]; [done|]. cbn [String.append drop_bytes]. by rewrite (IH q) by (cbn; lia).
  - destruct (starts3 _ _ _ a q) eqn:H3; [|by rewrite (IH q) by (cbn; lia)].
    destruct q as [|b [|c q]]; [done..|]. cbn [String.append drop_bytes]. by rewrite (IH q) by (cbn; lia).
Qed.

(** The encodings of spaces. *)
Inductive space : string -> Prop :=
| Space1 a : space1 a = true -> space (String a "")
| Space2 a b : space2 a b = true -> space (String a (String b ""))
| Space3 a b c : space3 a b c = true -> space (String a (String b (String c ""))).

(** Bytes that lowering does not make and does not change. *)
Definition steady (c : ascii) : bool := (0x80 <=? byte_val c) || space1 c.

Lemma lower_steady a c : steady c = true -> lower_of a = c -> a = c.
Proof. intros Hc <-. revert Hc. destruct a as [[] [] [] [] [] [] [] []]; vm_compute; congruence. Qed.

Lemma space1_byte a : space1 a = true -> byte_val a <= 32.
Proof. unfold space1, in_range. rewrite orb_true_iff, andb_true_iff, !Z.leb_le, Z.eqb_eq. lia. Qed.
Lemma space2_bytes a b : space2 a b = true -> byte_val a = 0xC2 /\ (byte_val b = 0x85 \/ byte_val b = 0xA0).
Proof. unfold space2. by rewrite andb_true_iff, orb_true_iff, !Z.eqb_eq. Qed.
Lemma space3_bytes a b c : space3 a b c = true ->
  0xE1 <= byte_val a <= 0xE3 /\ (byte_val b = 0x80 \/ byte_val b = 0x81 \/ byte_val b = 0x9A) /\ 0x80 <= byte_val c <= 0xAF.
Proof. unfold space3, in_range. rewrite !orb_true_iff, !andb_true_iff, !orb_true_iff, !andb_true_iff, !Z.leb_le, !Z.eqb_eq. lia. Qed.

Lemma lower_plain_step a s : byte_val a <= 32 \/ 0x80 <= byte_val a -> byte_val a <> 0xC4 ->
  (byte_val a = 0xE2 -> match s with String b _ => byte_val b <> 0x84 | "" => True end) -> to_lower (String a s) = String a (to_lower s).
Proof.
  intros Hr H1 H2. rewrite to_lower_cons. assert (lower_of a = a) as ->.
  { revert Hr. clear. destruct a as [[] [] [] [] [] [] [] []]; vm_compute; intros Hx; first [reflexivity|destruct Hx as [Hx|Hx]; by destruct Hx]. }
  assert (starts2 0xC4 0xB0 a s = false) as ->. { destruct s; [done|]. cbn. by rewrite (proj2 (Z.eqb_neq _ _) H1). }
  assert (starts3 0xE2 0x84 0xAA a s = false) as ->; [|done]. destruct s as [|b [|c s]]; [done..|]. cbn.
  destruct (Z.eqb_spec (byte_val a) 0xE2) as [E|]; [|done]. by rewrite (proj2 (Z.eqb_neq _ _) (H2 E)).
Qed.

Lemma space_front r t : space r -> to_lower (r +:+ t) = r +:+ to_lower t.
Proof.
  intros [a H%space1_byte|a b [Ha Hb]%space2_bytes|a b c (Ha & Hb & Hc)%space3_bytes]; cbn [String.append]; rewrite !lower_plain_step; try done; lia.
Qed.

Lemma space_bytes r : space r -> fresh_start r = true /\ all_bytes steady r = true.
Proof.
  unfold steady. intros [a H|a b H|a b c H]; cbn; rewrite ?andb_true_r, ?negb_true_iff, ?orb_false_iff, ?andb_true_iff, ?orb_true_iff, ?Z.eqb_neq, ?Z.leb_le.
  - pose proof (space1_byte a H). split_and!; [lia..|by right].
  - apply space2_bytes in H. lia.
  - apply space3_bytes in H. lia.
Qed.

(** What lowering leaves steady was there. *)
Lemma steady_prefix r : all_bytes steady r = true -> forall s t, to_lower s = r +:+ t -> exists s', s = r +:+ s' /\ to_lower s' = t.
Proof.
  induction r as [|c r IH]; intros Hr s t E; [by exists s|]. cbn in Hr, E. apply andb_true_iff in Hr as [Hc Hr].
  destruct s as [|a s]; [done|]. rewrite to_lower_cons in E. destruct (starts2 _ _ a s); [injection E as <- _; by vm_compute in Hc|].
  destruct (starts3 _ _ _ a s); [injection E as <- _; by vm_compute in Hc|]. injection E as Ea E. apply lower_steady in Ea as ->; [|done].
  destruct (IH Hr s t E) as (s' & -> & E'). by exists s'.
Qed.

Lemma steady_suffix r : all_bytes steady r = true -> forall s q, to_lower s = q +:+ r -> exists q', s = q' +:+ r.
Proof.
  intros Hr s. induction s as [s IH] using (induction_ltof1 _ String.length). unfold ltof in IH. intros [|x q] E.
  - destruct (steady_prefix r Hr s "") as (s' & -> & E'); [by rewrite E, string_app_nil_r|]. exists "".
    destruct s' as [|a s']; [by rewrite string_app_nil_r|]. rewrite to_lower_cons in E'. by destruct (starts2 0xC4 0xB0 a s'), (starts3 0xE2 0x84 0xAA a s').
  - destruct s as [|a s]; [done|]. rewrite to_lower_cons in E. cbn in E.
    destruct (starts2 _ _ a s) eqn:E2; [|destruct (starts3 _ _ _ a s) eqn:E3].
    + destruct s as [|b s]; [done|]. injection E as _ E. destruct (IH s ltac:(cbn; lia) q E) as (q' & ->). by exists (String a (String b q')).
    + destruct s as [|b [|c s]]; [done..|]. injection E as _ E. destruct (IH s ltac:(cbn; lia) q E) as (q' & ->).
      by exists (String a (String b (String c q'))).
    + injection E as _ E. destruct (IH s ltac:(cbn; lia) q E) as (q' & ->). by exists (String a q').
Qed.

(** A text without a space at its start, or at its end. *)
Lemma trim_left_cases s : (exists r t, space r /\ s = r +:+ t /\ trim_left s = trim_left t) \/
  ((forall r t, space r -> s <> r +:+ t) /\ trim_left s = s).
Proof.
  destruct s as [|a s]; [right; split; [|done]; intros r t Hr E; by destruct Hr|]. cbn [trim_left].
  destruct (space1 a) eqn:E1; [left; exists (String a ""), s; split; [by constructor|done]|].
  destruct s as [|b s].
  { right. split; [|done]. intros r t [x H|x y H|x y z H] E; cbn in E; simplify_eq; congruence. }
  destruct (space2 a b) eqn:E2; [left; exists (String a (String b "")), s; split; [by constructor|done]|].
  destruct s as [|c s].
  { right. split; [|done]. intros r t [x H|x y H|x y z H] E; cbn in E; simplify_eq; congruence. }
  destruct (space3 a b c) eqn:E3; [left; exists (String a (String b (String c ""))), s; split; [by constructor|done]|].
  right. split; [|done]. intros r t [x H|x y H|x y z H] E; cbn in E; simplify_eq; congruence.
Qed.

Lemma trim_right_cases s : (exists r t, space r /\ s = t +:+ r /\ trim_right s = trim_right t) \/
  ((forall r t, space r -> s <> t +:+ r) /\ trim_right s = s).
Proof.
  assert (Hs : exists u, s = string_rev u) by (exists (string_rev s); by rewrite string_rev_involutive). destruct Hs as [u ->].
  assert (Hrev : forall t r, string_rev u = t +:+ r -> u = string_rev (t +:+ r)) by (intros t r <-; by rewrite string_rev_involutive).
  assert (H2 : forall t a b, t +:+ String a (String b "") = (t +:+ String a "") +:+ String b "") by (intros t a b; by rewrite string_app_assoc).
  assert (H3 : forall t a b c, t +:+ String a (String b (String c "")) = ((t +:+ String a "") +:+ String b "") +:+ String c "") by (intros t a b c; by rewrite !string_app_assoc).
  unfold trim_right. rewrite string_rev_involutive.
  destruct u as [|c u]; [right; split; [|done]; intros r t Hr E; destruct t; by destruct Hr|]. cbn [trim_left_rev].
  destruct (space1 c) eqn:E1.
  { left. exists (String c ""), (string_rev u). split; [by constructor|]. by rewrite string_rev_cons, string_rev_involutive. }
  destruct u as [|b u].
  { right. split; [|done]. intros r t [x H|x y H|x y z H] E%Hrev; rewrite ?H2, ?H3, !string_rev_snoc in E; simplify_eq; congruence. }
  destruct (space2 b c) eqn:E2.
  { left. exists (String b (String c "")), (string_rev u). split; [by constructor|]. by rewrite !string_rev_cons, string_rev_involutive, H2. }
  destruct u as [|a u].
  { right. split; [|done]. intros r t [x H|x y H|x y z H] E%Hrev; rewrite ?H2, ?H3, !string_rev_snoc in E; simplify_eq; congruence. }
  destruct (space3 a b c) eqn:E3.
  { left. exists (String a (String b (String c ""))), (string_rev u). split; [by constructor|]. by rewrite !string_rev_cons, string_rev_involutive, H3. }
  right. split; [|done]. intros r t [x H|x y H|x y z H] E%Hrev; rewrite ?H2, ?H3, !string_rev_snoc in E; simplify_eq; congruence.
Qed.

Lemma space_distinct a b c : (space2 a b = true -> space1 a = false /\ space1 b = false) /\
  (space3 a b c = true -> space1 a = false /\ space2 a b = false /\ space1 c = false /\ space2 b c = false).
Proof.
  unfold space1, space2, space3, in_range. split; intros H; rewrite ?orb_true_iff, ?andb_true_iff, ?orb_true_iff, ?andb_true_iff, ?Z.eqb_eq, ?Z.leb_le in H;
    rewrite ?orb_false_iff, ?andb_false_iff, ?orb_false_iff, ?Z.eqb_neq, ?Z.leb_gt; lia.
Qed.

Lemma trim_left_space r t : space r -> trim_left (r +:+ t) = trim_left t.
Proof.
  intros [a H|a b H|a b c H]; cbn [String.append trim_left]; [by rewrite H| |].
  - destruct (proj1 (space_distinct a b a) H) as [-> _]. by rewrite H.
  - destruct (proj2 (space_distinct a b c) H) as (-> & -> & _). by rewrite H.
Qed.

Lemma trim_right_space r t : space r -> trim_right (t +:+ r) = trim_right t.
Proof.
  assert (H2 : forall t a b, t +:+ String a (String b "") = (t +:+ String a "") +:+ String b "") by (intros u a b; by rewrite string_app_assoc).
  assert (H3 : forall t a b c, t +:+ String a (String b (String c "")) = ((t +:+ String a "") +:+ String b "") +:+ String c "") by (intros u a b c; by rewrite !string_app_assoc).
  unfold trim_right. intros [a H|a b H|a b c H]; rewrite ?H2, ?H3, !string_rev_snoc; cbn [trim_left_rev]; [by rewrite H| |].
  - destruct (proj1 (space_distinct a b a) H) as [_ ->]. by rewrite H.
  - destruct (proj2 (space_distinct a b c) H) as (_ & _ & -> & ->). by rewrite H.
Qed.

Lemma lower_trim_left s : trim_left (to_lower s) = to_lower (trim_left s).
Proof.
  induction s as [s IH] using (induction_ltof1 _ String.length). unfold ltof in IH.
  destruct (trim_left_cases s) as [(r & t & Hr & -> & _)|[Hs ->]].
  - rewrite (trim_left_space r t Hr), space_front, (trim_left_space r _ Hr) by done. apply IH. destruct Hr; cbn; lia.
  - destruct (trim_left_cases (to_lower s)) as [(r & t & Hr & E & _)|[_ ->]]; [|done]. exfalso.
    destruct (steady_prefix r (proj2 (space_bytes r Hr)) s t E) as (s' & E' & _). exact (Hs r s' Hr E').
Qed.

Lemma lower_trim_right s : trim_right (to_lower s) = to_lower (trim_right s).
Proof.
  induction s as [s IH] using (induction_ltof1 _ String.length). unfold ltof in IH.
  destruct (trim_right_cases s) as [(r & t & Hr & -> & _)|[Hs ->]].
  - pose proof (space_bytes r Hr) as [Hf _]. rewrite (trim_right_space r t Hr), (to_lower_app t r Hf).
    pose proof (space_front r "" Hr) as E. rewrite !string_app_nil_r in E. rewrite E, (trim_right_space r _ Hr). apply IH.
    rewrite JsonFacts.length_app_string. destruct Hr; cbn; lia.
  - destruct (trim_right_cases (to_lower s)) as [(r & t & Hr & E & _)|[_ ->]]; [|done]. exfalso.
    destruct (steady_suffix r (proj2 (space_bytes r Hr)) s t E) as (q & E'). exact (Hs r q Hr E').
Qed.

Lemma lower_trim s : trim_space (to_lower s) = to_lower (trim_space s).
Proof. unfold trim_space. by rewrite lower_trim_left, lower_trim_right. Qed.

(** * What redaction hides and what it keeps

    Documents that differ only in what is secret, or too deep, are logged
    alike; everything else is kept. *)

Section Redaction.
Variable keys : list string.

(** The two documents, found at [depth], agree outside the values of
    sensitive keys and above the depth limit. *)
Inductive same_public : Z -> any -> any -> Prop :=
| public_deep depth v w : maxRedactDepth < depth -> same_public depth v w
| public_leaf depth v : match v with AArr _ | AMap _ => False | _ => True end -> same_public depth v v
| public_array depth l l' : Forall2 (same_public (depth + 1)) l l' -> same_public depth (AArr l) (AArr l')
| public_map depth m m' : Forall2 (same_member (depth + 1)) m m' -> same_public depth (AMap m) (AMap m')
with same_member : Z -> string * any -> string * any -> Prop :=
| member_secret depth k v w : isSensitiveKey k keys = true -> same_member depth (k, v) (k, w)
| member_public depth k v w : same_public depth v w -> same_member depth (k, v) (k, w).

Definition is_text (t : string) (v : any) : bool := match v with AStr s => s =s? t | _ => false end.

(** Every sensitive key has three stars, and every other value beyond the depth
    limit is the text that says so. *)
Fixpoint secrets_hidden (v : any) (depth : Z) : bool :=
  if maxRedactDepth <? depth then is_text "<depth limit exceeded>" v else
  match v with
  | AArr l => forallb (fun w => secrets_hidden w (depth + 1)) l
  | AMap m => forallb (fun '(k, w) => if isSensitiveKey k keys then is_text "***" w else secrets_hidden w (depth + 1)) m
  | _ => true
  end.

Abbreviation redact v depth := (redactValueWithDepth v keys depth).

Lemma redact_eq v depth : redact v depth =
  if maxRedactDepth <? depth then AStr "<depth limit exceeded>" else
  match v with
  | AMap m => AMap (map (fun '(k, w) => (k, if isSensitiveKey k keys then AStr "***" else redact w (depth + 1))) m)
  | AArr l => AArr (map (fun w => redact w (depth + 1)) l)
  | _ => v
  end.
Proof. by destruct v. Qed.

Lemma secrets_eq v depth : secrets_hidden v depth =
  if maxRedactDepth <? depth then is_text "<depth limit exceeded>" v else
  match v with
  | AArr l => forallb (fun w => secrets_hidden w (depth + 1)) l
  | AMap m => forallb (fun '(k, w) => if isSensitiveKey k keys then is_text "***" w else secrets_hidden w (depth + 1)) m
  | _ => true
  end.
Proof. by destruct v. Qed.

Lemma redact_hides v : forall depth, secrets_hidden (redact v depth) depth = true.
Proof.
  induction v as [|b|n|s|l IH|m IH] using any_induction; intros depth; rewrite secrets_eq, redact_eq; destruct (_ <? _); try done.
  - induction IH as [|v l Hv _ IHl]; [done|]. cbn -[secrets_hidden redactValueWithDepth]. by rewrite Hv, IHl.
  - induction IH as [|[k v] m Hv _ IHm]; [done|]. cbn -[secrets_hidden redactValueWithDepth] in Hv |- *. rewrite IHm.
    destruct (isSensitiveKey k keys) eqn:E; [done|]. by rewrite Hv.
Qed.

Lemma redact_keeps v : forall depth, same_public depth v (redact v depth).
Proof.
  induction v as [|b|n|s|l IH|m IH] using any_induction; intros depth; rewrite redact_eq;
    (destruct (Z.ltb_spec maxRedactDepth depth); [by apply public_deep|]); try by apply public_leaf.
  - apply public_array. induction IH as [|v l Hv _ IHl]; constructor; auto.
  - apply public_map. induction IH as [|[k v] m Hv _ IHm]; constructor; [|done]. destruct (isSensitiveKey k keys) eqn:E.
    + by apply member_secret.
    + apply member_public, Hv.
Qed.

Lemma redact_public v : forall w depth, same_public depth v w -> redact v depth = redact w depth.
Proof.
  induction v as [|b|n|s|l IH|m IH] using any_induction; intros w depth H; rewrite (redact_eq w), redact_eq;
    (destruct (Z.ltb_spec maxRedactDepth depth); [done|]); inversion H as [| |? ? l' Hl|? ? m' Hm]; subst; try done; try lia.
  - f_equal. clear H. induction Hl as [|v w l l' Hvw _ IHl]; [done|]. apply Forall_cons_1 in IH as [Hv IH].
    cbn. f_equal; [by apply Hv | by apply IHl].
  - f_equal. clear H. induction Hm as [|kv kw m m' Hvw _ IHm]; [done|]. apply Forall_cons_1 in IH as [Hv IH].
    cbn. f_equal; [|by apply IHm]. inversion Hvw as [? k v w E|? k v w E]; subst; [by rewrite E|]. destruct (isSensitiveKey k keys); [done|].
    f_equal. by apply Hv.
Qed.
End Redaction.

(** C24: what is logged of a JSON document agrees with it everywhere outside
    the values of sensitive keys (by default or extra, in any case and with
    blanks around them) and above 32 levels; has three stars for each of those
    values, and the text of the depth limit for each other value that is deeper;
    and is the same for every document that agrees in this way: neither the
    secrets nor what is too deep has an influence on the log. *)
Theorem redaction_hides_secrets extraKeys raw v : raw <> "" -> unmarshal dec_any ANil raw = Ok v ->
  let keys := buildKeySet extraKeys in
  exists out, RedactJSON raw extraKeys = marshal_any out /\ same_public keys 0 v out /\ secrets_hidden keys out 0 = true /\
    (forall raw' v', raw' <> "" -> unmarshal dec_any ANil raw' = Ok v' -> same_public keys 0 v v' ->
       RedactJSON raw' extraKeys = RedactJSON raw extraKeys).
Proof.
  intros Hraw Hv. cbv zeta. exists (redactValueWithDepth v (buildKeySet extraKeys) 0).
  assert (Hout : forall r x, r <> "" -> unmarshal dec_any ANil r = Ok x ->
    RedactJSON r extraKeys = marshal_any (redactValueWithDepth x (buildKeySet extraKeys) 0)).
  { intros r x Hr Hx. unfold RedactJSON. apply String.eqb_neq in Hr. by rewrite Hr, Hx. }
  split; [by apply Hout|]. split; [apply redact_keeps|]. split; [apply redact_hides|].
  intros raw' v' Hraw' Hv' Hs. rewrite (Hout _ _ Hraw Hv), (Hout _ _ Hraw' Hv'). f_equal. symmetry. by apply redact_public.
Qed.

Lemma redaction_hides_secrets_witness :
  let a := dq "{'n':[{'Code ':'abc'}],'u':1}" in
  let b := dq "{'n':[{'Code ':{'x':2}}],'u':1}" in
  RedactJSON b [] = RedactJSON a [] /\ RedactJSON a [] = dq "{'n':[{'Code ':'***'}],'u':1}".
Proof.
  cbv zeta. split; [|vm_compute; reflexivity].
  destruct (redaction_hides_secrets [] (dq "{'n':[{'Code ':'abc'}],'u':1}")
    (AMap [("n", AArr [AMap [("Code ", AStr "abc")]]); ("u", ANum "1")])) as (out & _ & _ & _ & H); [vm_compute; discriminate | vm_compute; reflexivity |].
  apply (H _ (AMap [("n", AArr [AMap [("Code ", AMap [("x", ANum "2")])]]); ("u", ANum "1")])); [vm_compute; discriminate | vm_compute; reflexivity |].
  apply public_map. constructor; [|constructor; [by apply member_public, public_leaf | constructor]].
  apply member_public, public_array. constructor; [|constructor]. apply public_map. constructor; [|constructor].
  apply member_secret. vm_compute. reflexivity.
Defined.
