(* ===== verification/AppErrors.v ===== *)
(** * Package infraerrors (internal/pkg/errors/errors.go)

    Application errors carry an HTTP code and a reason; any other error is its
    message, and either may be wrapped. *)

From S2P Require Import Prelude GoStrings.

Inductive error : Type :=
| ApplicationError (Code : Z) (Reason Message : string) (Metadata : list (string * string)) (cause : option error)
| OtherError (message : string)
| WrappedError (context : string) (inner : error).

(** What a call returns: a value or an error. *)
Inductive outcome (A : Type) : Type :=
| Success (a : A)
| Failure (e : error).
Arguments Success {A} a.
Arguments Failure {A} e.

Definition UnknownCode : Z := 500.
Definition UnknownReason : string := "".
Definition UnknownMessage : string := "internal error".

(** [int32(code)]: the codes of the program are HTTP status codes. *)
Definition New (code : Z) (reason message : string) : error := ApplicationError code reason message [] None.

Definition BadRequest (reason message : string) : error := New 400 reason message.
Definition TooManyRequests (reason message : string) : error := New 429 reason message.
Definition Unauthorized (reason message : string) : error := New 401 reason message.
Definition Forbidden (reason message : string) : error := New 403 reason message.
Definition NotFound (reason message : string) : error := New 404 reason message.
Definition Conflict (reason message : string) : error := New 409 reason message.
Definition InternalServer (reason message : string) : error := New 500 reason message.
Definition ServiceUnavailable (reason message : string) : error := New 503 reason message.
Definition GatewayTimeout (reason message : string) : error := New 504 reason message.
Definition ClientClosed (reason message : string) : error := New 499 reason message.

Definition WithCause (e cause : error) : error :=
  match e with
  | ApplicationError c r m md _ => ApplicationError c r m md (Some cause)
  | _ => e
  end.

Definition WithMetadata (e : error) (md : list (string * string)) : error :=
  match e with
  | ApplicationError c r m _ cause => ApplicationError c r m md cause
  | _ => e
  end.

(** [errors.As] with an application error as the target. *)
Fixpoint as_application (e : error) : option error :=
  match e with
  | ApplicationError _ _ _ _ _ => Some e
  | OtherError _ => None
  | WrappedError _ e => as_application e
  end.

Definition FromError (e : error) : error :=
  match as_application e with
  | Some se => se
  | None => WithCause (New UnknownCode UnknownReason UnknownMessage) e
  end.

Definition error_code (e : error) : Z := match e with ApplicationError c _ _ _ _ => c | _ => 0 end.
Definition error_reason (e : error) : string := match e with ApplicationError _ r _ _ _ => r | _ => "" end.

Definition Code (err : option error) : Z :=
  match err with None => 200 | Some e => error_code (FromError e) end.
Definition Reason (err : option error) : string :=
  match err with None => UnknownReason | Some e => error_reason (FromError e) end.
Definition error_message (e : error) : string := match e with ApplicationError _ _ m _ _ => m | _ => "" end.
Definition Message (err : option error) : string :=
  match err with None => "" | Some e => error_message (FromError e) end.

Definition IsBadRequest (err : option error) : bool := Code err =? 400.
Definition IsTooManyRequests (err : option error) : bool := Code err =? 429.
Definition IsUnauthorized (err : option error) : bool := Code err =? 401.
Definition IsForbidden (err : option error) : bool := Code err =? 403.
Definition IsNotFound (err : option error) : bool := Code err =? 404.
Definition IsConflict (err : option error) : bool := Code err =? 409.
Definition IsInternalServer (err : option error) : bool := Code err =? 500.
Definition IsServiceUnavailable (err : option error) : bool := Code err =? 503.
Definition IsGatewayTimeout (err : option error) : bool := Code err =? 504.
Definition IsClientClosed (err : option error) : bool := Code err =? 499.

(** ApplicationError.Is: the first application error in [err]'s chain has the
    code and the reason of [e]. *)
Definition Is (e err : error) : bool :=
  match as_application err with
  | Some se => (error_code se =? error_code e) && (error_reason se =s? error_reason e)
  | None => false
  end.

(** [errors.Is(err, target)] for a target that is an application error: the
    chain of [err] is walked through its causes. *)
Fixpoint errors_Is (err target : error) : bool :=
  match err with
  | ApplicationError _ _ _ _ cause =>
      Is err target || match cause with Some e => errors_Is e target | None => false end
  | OtherError _ => false
  | WrappedError _ inner => errors_Is inner target
  end.

(** ** The response (http.go) *)

Record StatusBody : Type := mkStatus { st_Code : Z; st_Reason : string; st_Message : string; st_Metadata : list (string * string) }.

Definition ToHTTP (err : option error) : Z * StatusBody :=
  match err with
  | None => (200, mkStatus 200 "" "" [])
  | Some e =>
      match FromError e with
      | ApplicationError c r m md _ => (c, mkStatus c r m md)
      | _ => (200, mkStatus 200 "" "" [])
      end
  end.
