(* ===== verification/Program.v ===== *)
(** * Programs over commands

    Code that talks to a database, a clock or a callback is a tree of the
    commands it issues: [Do c k] issues [c] and goes on with its answer.  The
    meaning of the commands is given elsewhere, so the same program can be run
    alone or interleaved with others. *)

From S2P Require Import Prelude.

Inductive prog (C : Type -> Type) (A : Type) : Type :=
| Ret (a : A)
| Do (R : Type) (c : C R) (k : R -> prog C A).
Arguments Ret {C A} a.
Arguments Do {C A R} c k.

Fixpoint prog_bind {C A B} (f : A -> prog C B) (p : prog C A) : prog C B :=
  match p with
  | Ret a => f a
  | Do c k => Do c (fun r => prog_bind f (k r))
  end.

#[export] Instance prog_mret C : MRet (prog C) := fun A a => Ret a.
#[export] Instance prog_mbind C : MBind (prog C) := fun A B f p => prog_bind f p.

Definition call {C R} (c : C R) : prog C R := Do c Ret.

(** Alone, with a handler that answers every command. *)
Fixpoint run_alone {C A} {S : Type} (handle : forall R, C R -> S -> R * S) (p : prog C A) (s : S) : A * S :=
  match p with
  | Ret a => (a, s)
  | Do c k => let '(r, s) := handle _ c s in run_alone handle (k r) s
  end.

Lemma run_alone_bind {C A B S} (handle : forall R, C R -> S -> R * S) (p : prog C A) (f : A -> prog C B) s :
  run_alone handle (p ≫= f) s = (let '(a, s') := run_alone handle p s in run_alone handle (f a) s').
Proof.
  revert s. induction p as [a|R c k IH]; intros s; [done|]. cbn. destruct (handle R c s) as [r s']. apply IH.
Qed.

(** ** Runs and monitors

    A run of a program is the list of the commands it issued with the answers
    it got.  A monitor is an automaton that reads a run and rejects what must
    not happen; [ends] says that every run whose answers are [ok] is accepted
    and ends as wanted. *)

Inductive event (C : Type -> Type) : Type := Event (R : Type) (c : C R) (r : R).
Arguments Event {C R} c r.

Inductive runs {C A} : prog C A -> list (event C) -> A -> Prop :=
| runs_ret a : runs (Ret a) [] a
| runs_do R (c : C R) k r tr a : runs (k r) tr a -> runs (Do c k) (Event c r :: tr) a.

Section Monitor.
Context {C : Type -> Type} {G : Type}.
Variable ok : forall R, C R -> R -> Prop.
Variable monitor : forall R, C R -> R -> G -> option G.

Definition answered (e : event C) : Prop := match e with Event c r => ok _ c r end.

Fixpoint watch (tr : list (event C)) (g : G) : option G :=
  match tr with
  | [] => Some g
  | Event c r :: tr => g ← monitor _ c r g; watch tr g
  end.

Fixpoint ends {A} (p : prog C A) (g : G) (Q : A -> G -> Prop) : Prop :=
  match p with
  | Ret a => Q a g
  | Do c k => forall r, ok _ c r -> exists g', monitor _ c r g = Some g' /\ ends (k r) g' Q
  end.

Lemma ends_runs {A} (p : prog C A) g Q tr a : ends p g Q -> runs p tr a -> Forall answered tr ->
  exists g', watch tr g = Some g' /\ Q a g'.
Proof.
  intros He Hr. revert g He. induction Hr as [a|R c k r tr a Hr IH]; intros g He Ha; [by exists g|].
  apply Forall_cons_1 in Ha as [Ha Htr]. destruct (He r Ha) as (g1 & Hg & Hk). cbn [watch]. rewrite Hg. cbn [mbind option_bind].
  by apply IH.
Qed.

Lemma ends_mono {A} (p : prog C A) g (Q Q' : A -> G -> Prop) : ends p g Q -> (forall a g, Q a g -> Q' a g) -> ends p g Q'.
Proof.
  intros He HQ. revert g He. induction p as [a|R c k IH]; intros g He; [by apply HQ|].
  intros r Hr. destruct (He r Hr) as (g' & Hg & Hk). exists g'. split; [done | by apply IH].
Qed.

Lemma ends_bind {A B} (p : prog C A) (f : A -> prog C B) g Q :
  ends p g (fun a g => ends (f a) g Q) -> ends (p ≫= f) g Q.
Proof.
  revert g. induction p as [a|R c k IH]; intros g He; [exact He|]. cbn. intros r Hr.
  destruct (He r Hr) as (g' & Hg & Hk). exists g'. split; [done | by apply IH].
Qed.

Lemma ends_call {R} (c : C R) g Q : (forall r, ok _ c r -> exists g', monitor _ c r g = Some g' /\ Q r g') -> ends (call c) g Q.
Proof. intros H. exact H. Qed.

Lemma ends_call_bind {R B} (c : C R) (f : R -> prog C B) g Q :
  (forall r, ok _ c r -> exists g', monitor _ c r g = Some g' /\ ends (f r) g' Q) -> ends (call c ≫= f) g Q.
Proof. intros H. exact H. Qed.

Lemma ends_ret {A} (a : A) g (Q : A -> G -> Prop) : Q a g -> ends (mret a) g Q.
Proof. intros H. exact H. Qed.
End Monitor.

(** ** The run of a program with a handler *)

Section Trace.
Context {C : Type -> Type} {S : Type}.
Variable handle : forall R, C R -> S -> R * S.

Fixpoint trace {A} (p : prog C A) (s : S) : list (event C) * A :=
  match p with
  | Ret a => ([], a)
  | Do c k => let '(r, s) := handle _ c s in let '(tr, a) := trace (k r) s in (Event c r :: tr, a)
  end.

Lemma trace_runs {A} (p : prog C A) s : runs p (fst (trace p s)) (snd (trace p s)).
Proof.
  revert s. induction p as [a|R c k IH]; intros s; cbn; [constructor|]. destruct (handle R c s) as [r s'].
  specialize (IH r s'). destruct (trace (k r) s') as [tr a]. by constructor.
Qed.

Lemma trace_answered (ok : forall R, C R -> R -> Prop) {A} (p : prog C A) s :
  (forall R (c : C R) s, ok R c (fst (handle R c s))) -> Forall (answered ok) (fst (trace p s)).
Proof.
  intros H. revert s. induction p as [a|R c k IH]; intros s; cbn; [constructor|]. specialize (H R c s).
  destruct (handle R c s) as [r s']. specialize (IH r s'). destruct (trace (k r) s') as [tr a]. by constructor.
Qed.
End Trace.
