(* ===== verification/Idempotency.v ===== *)
(** * Idempotent execution (internal/service/idempotency.go, internal/repository/idempotency_repo.go)

    A request that carries an idempotency key is executed by the first caller
    that inserts the key's record; the others wait, back off or replay the
    stored response.  [Execute] is the program of the SQL statements, clock
    reads and the executor call it makes; [Section Store] says what the
    statements do to the table. *)

From S2P Require Import Prelude GoStrings Json AnyJson LogRedact AppErrors Program Crypto.

(** ** Records and configuration *)

Definition IdempotencyStatusProcessing : string := "processing".
Definition IdempotencyStatusSucceeded : string := "succeeded".
Definition IdempotencyStatusFailedRetryable : string := "failed_retryable".

Definition ErrIdempotencyKeyRequired : error := BadRequest "IDEMPOTENCY_KEY_REQUIRED" "idempotency key is required".
Definition ErrIdempotencyKeyInvalid : error := BadRequest "IDEMPOTENCY_KEY_INVALID" "idempotency key is invalid".
Definition ErrIdempotencyKeyConflict : error :=
  Conflict "IDEMPOTENCY_KEY_CONFLICT" "idempotency key reused with different payload".
Definition ErrIdempotencyInProgress : error :=
  Conflict "IDEMPOTENCY_IN_PROGRESS" "idempotent request is still processing".
Definition ErrIdempotencyRetryBackoff : error :=
  Conflict "IDEMPOTENCY_RETRY_BACKOFF" "idempotent request is in retry backoff window".
Definition ErrIdempotencyStoreUnavail : error :=
  ServiceUnavailable "IDEMPOTENCY_STORE_UNAVAILABLE" "idempotency store unavailable".
Definition ErrIdempotencyInvalidPayload : error :=
  BadRequest "IDEMPOTENCY_PAYLOAD_INVALID" "failed to normalize request payload".

(** Times are nanoseconds.  CreatedAt and UpdatedAt are written and never read. *)
Record IdempotencyRecord : Type := mkIdempotencyRecord {
  ID : Z;
  Scope : string;
  IdempotencyKeyHash : string;
  RequestFingerprint : string;
  Status : string;
  ResponseStatus : option Z;
  ResponseBody : option string;
  ErrorReason : option string;
  LockedUntil : option Z;
  ExpiresAt : Z;
}.
#[export] Instance eta_IdempotencyRecord : Settable IdempotencyRecord := fun r =>
  mkIdempotencyRecord (ID r) (Scope r) (IdempotencyKeyHash r) (RequestFingerprint r) (Status r) (ResponseStatus r)
    (ResponseBody r) (ErrorReason r) (LockedUntil r) (ExpiresAt r).

Record IdempotencyConfig : Type := mkIdempotencyConfig {
  DefaultTTL : Z;
  SystemOperationTTL : Z;
  ProcessingTimeout : Z;
  FailedRetryBackoff : Z;
  MaxStoredResponseLen : Z;
  ObserveOnly : bool;
}.

Definition second : Z := 1000000000.
Definition DefaultIdempotencyConfig : IdempotencyConfig :=
  mkIdempotencyConfig (24 * 3600 * second) (3600 * second) (30 * second) (5 * second) (64 * 1024) true.

(** The payload is known by its JSON ([None]: it cannot be marshalled). *)
Record IdempotencyExecuteOptions : Type := mkIdempotencyExecuteOptions {
  opt_Scope : string;
  opt_ActorScope : string;
  opt_Method : string;
  opt_Route : string;
  opt_IdempotencyKey : string;
  opt_Payload : Enc;
  opt_TTL : Z;
  opt_RequireKey : bool;
}.

(** Data is what the executor returned, or what the stored response decodes to. *)
Inductive data : Type :=
| Returned (e : Enc)
| Decoded (v : any).

Record IdempotencyExecuteResult : Type := mkIdempotencyExecuteResult { Data : data; Replayed : bool }.

(** [c.repo == nil] is a flag: the repository itself is the commands below. *)
Record IdempotencyCoordinator : Type := mkIdempotencyCoordinator { has_repo : bool; cfg : IdempotencyConfig }.

(** ** Commands *)

Inductive cmd : Type -> Type :=
| Now : cmd Z
| InsertIgnore (record : IdempotencyRecord) : cmd (outcome Z)
| SelectID (scope keyHash : string) : cmd (outcome (option Z))
| SelectRecord (scope keyHash : string) : cmd (outcome (option IdempotencyRecord))
| UpdateReclaim (id : Z) (fromStatus : string) (now newLockedUntil newExpiresAt : Z) : cmd (outcome Z)
| UpdateLock (id : Z) (requestFingerprint : string) (newLockedUntil newExpiresAt : Z) : cmd (outcome Z)
| UpdateSucceeded (id responseStatus : Z) (responseBody : string) (expiresAt : Z) : cmd (outcome unit)
| UpdateFailed (id : Z) (errorReason : string) (lockedUntil expiresAt : Z) : cmd (outcome unit)
| DeleteVictims (now limit : Z) : cmd (outcome Z)
| ExecutorStarts : cmd unit
| ExecutorReturns : cmd (outcome Enc).

Abbreviation program := (prog cmd).

(** ** Repository *)

Definition CreateProcessing (record : IdempotencyRecord) : program (outcome (bool * IdempotencyRecord)) :=
  res ← call (InsertIgnore record);
  match res with
  | Failure e => mret (Failure e)
  | Success affected =>
      if affected =? 0 then mret (Success (false, record)) else
      row ← call (SelectID (Scope record) (IdempotencyKeyHash record));
      mret (match row with
            | Failure e => Failure e
            | Success None => Success (false, record)
            | Success (Some id) => Success (true, record <| ID := id |>)
            end)
  end.

Definition GetByScopeAndKeyHash (scope keyHash : string) : program (outcome (option IdempotencyRecord)) :=
  call (SelectRecord scope keyHash).

Definition affected_some (res : outcome Z) : outcome bool :=
  match res with Failure e => Failure e | Success affected => Success (0 <? affected) end.

Definition TryReclaim (id : Z) (fromStatus : string) (now newLockedUntil newExpiresAt : Z) : program (outcome bool) :=
  res ← call (UpdateReclaim id fromStatus now newLockedUntil newExpiresAt);
  mret (affected_some res).

Definition ExtendProcessingLock (id : Z) (requestFingerprint : string) (newLockedUntil newExpiresAt : Z)
    : program (outcome bool) :=
  res ← call (UpdateLock id requestFingerprint newLockedUntil newExpiresAt);
  mret (affected_some res).

Definition MarkSucceeded (id responseStatus : Z) (responseBody : string) (expiresAt : Z) : program (outcome unit) :=
  call (UpdateSucceeded id responseStatus responseBody expiresAt).

Definition MarkFailedRetryable (id : Z) (errorReason : string) (lockedUntil expiresAt : Z) : program (outcome unit) :=
  call (UpdateFailed id errorReason lockedUntil expiresAt).

Definition DeleteExpired (now limit : Z) : program (outcome Z) :=
  call (DeleteVictims now (if limit <=? 0 then 500 else limit)).

(** IdempotencyCleanupService.cleanupOnce *)
Definition cleanupOnce (batch : Z) : program (outcome Z) :=
  now ← call Now;
  DeleteExpired now batch.

(** ** Keys, fingerprints, stored responses *)

(** A byte outside ASCII starts a rune above 126. *)
Definition NormalizeIdempotencyKey (raw : string) : outcome string :=
  let key := trim_space raw in
  if key =s? "" then Success "" else
  if 128 <? Z.of_nat (String.length key) then Failure ErrIdempotencyKeyInvalid else
  if all_bytes (in_range 33 126) key then Success key else Failure ErrIdempotencyKeyInvalid.

Definition HashIdempotencyKey (key : string) : string := sha256_hex key.

(** [strings.ToUpper] of an HTTP method, which is ASCII. *)
Fixpoint to_upper (s : string) : string :=
  match s with
  | String c s => String (if in_range 97 122 c then byte_of (byte_val c - 32) else c) (to_upper s)
  | EmptyString => EmptyString
  end.

Definition or_default (dflt s : string) : string := if s =s? "" then dflt else s.
Definition line : string := String newline EmptyString.

Definition BuildIdempotencyFingerprint (method route actorScope : string) (payload : Enc) : outcome string :=
  let method := or_default "POST" method in
  let route := or_default "/" route in
  let actorScope := or_default "anonymous" actorScope in
  match marshal payload with
  | Err e => Failure (WithCause ErrIdempotencyInvalidPayload (OtherError "json"))
  | Ok raw => Success (sha256_hex (to_upper method +:+ line +:+ route +:+ line +:+ actorScope +:+ line +:+ raw))
  end.

Definition truncated : string := "...(truncated)".

Fixpoint take_bytes (n : nat) (s : string) : string :=
  match n, s with S n, String c s => String c (take_bytes n s) | _, _ => EmptyString end.

Section Coordinator.
Variable c : IdempotencyCoordinator.

Definition marshalStoredResponse (d : Enc) : outcome string :=
  match marshal d with
  | Err e => Failure (OtherError "json")
  | Ok raw =>
      let redacted := RedactText raw [] in
      let max := MaxStoredResponseLen (cfg c) in
      Success (if (0 <? max) && (max <? Z.of_nat (String.length redacted))
               then take_bytes (Z.to_nat max) redacted +:+ truncated else redacted)
  end.

Definition decodeStoredResponse (stored : option string) : outcome any :=
  match stored with
  | None => Success (AMap [])
  | Some s =>
      if trim_space s =s? "" then Success (AMap []) else
      match unmarshal dec_any ANil s with
      | Ok out => Success out
      | Err e => Failure (WrappedError "decode stored response" (OtherError "json"))
      end
  end.

(** [int(d.Seconds())] truncates; the float is exact far beyond any lock. *)
Definition conflictWithRetryAfter (base : error) (lockedUntil : option Z) (now : Z) : error :=
  match lockedUntil with
  | None => base
  | Some t =>
      let sec := Z.quot (t - now) second in
      let sec := if sec <=? 0 then 1 else sec in
      WithMetadata base [("retry_after", pretty sec)]
  end.

(** [strconv.Atoi]: a sign may come first, and an overflow is an error. *)
Definition Atoi (s : string) : option Z :=
  match s with
  | String c d =>
      if Ascii.eqb c "+"%char then match d with String c' _ => if is_digit c' then parse_int64 d else None | _ => None end
      else if Ascii.eqb c "-"%char then match d with EmptyString => None | _ => parse_int64 s end
      else parse_int64 s
  | EmptyString => None
  end.

Fixpoint metadata (key : string) (md : list (string * string)) : string :=
  match md with [] => "" | (k, v) :: md => if k =s? key then v else metadata key md end.

Definition RetryAfterSecondsFromError (err : error) : Z :=
  match as_application err with
  | Some (ApplicationError _ _ _ md _) =>
      let v := trim_space (metadata "retry_after" md) in
      if v =s? "" then 0 else
      match Atoi v with
      | Some seconds => if seconds <=? 0 then 0 else seconds
      | None => 0
      end
  | _ => 0
  end.

(** ** Execute *)

Abbreviation answer := (outcome IdempotencyExecuteResult).
Definition fail (e : error) : program answer := mret (Failure e).
Definition unavailable (cause : error) : program answer := fail (WithCause ErrIdempotencyStoreUnavail cause).

(** The executor, its start and its return apart: other requests run between. *)
Definition execute : program (outcome Enc) :=
  _ ← call ExecutorStarts;
  call ExecutorReturns.

(** From [data, execErr := execute(ctx)] to the end. *)
Definition execute_claimed (id expiresAt : Z) : program answer :=
  res ← execute;
  match res with
  | Failure execErr =>
      now ← call Now;
      let reason := Reason (Some execErr) in
      let reason := if reason =s? "" then "EXECUTION_FAILED" else reason in
      _ ← MarkFailedRetryable id reason (now + FailedRetryBackoff (cfg c)) expiresAt;
      fail execErr
  | Success d =>
      match marshalStoredResponse d with
      | Failure e => unavailable e
      | Success storedBody =>
          marked ← MarkSucceeded id 200 storedBody expiresAt;
          match marked with
          | Failure e => unavailable e
          | Success _ => mret (Success (mkIdempotencyExecuteResult (Returned d) false))
          end
      end
  end.

(** [switch existing.Status]: [claim] goes on as the owner of a record. *)
Definition existing_status (existing : IdempotencyRecord) (now lockedUntil expiresAt : Z) (claim : Z -> program answer)
    : program answer :=
  if Status existing =s? IdempotencyStatusSucceeded then
    match decodeStoredResponse (ResponseBody existing) with
    | Failure e => unavailable e
    | Success d => mret (Success (mkIdempotencyExecuteResult (Decoded d) true))
    end
  else if Status existing =s? IdempotencyStatusProcessing then
    fail (conflictWithRetryAfter ErrIdempotencyInProgress (LockedUntil existing) now)
  else if Status existing =s? IdempotencyStatusFailedRetryable then
    if match LockedUntil existing with Some t => now <? t | None => false end
    then fail (conflictWithRetryAfter ErrIdempotencyRetryBackoff (LockedUntil existing) now) else
    taken ← TryReclaim (ID existing) IdempotencyStatusFailedRetryable now lockedUntil expiresAt;
    match taken with
    | Failure e => unavailable e
    | Success false => fail (conflictWithRetryAfter ErrIdempotencyInProgress (LockedUntil existing) now)
    | Success true => claim (ID existing)
    end
  else fail ErrIdempotencyKeyConflict.

(** The branch [!owner]. *)
Definition not_owner (scope keyHash fingerprint : string) (now lockedUntil expiresAt : Z) (claim : Z -> program answer)
    : program answer :=
  got ← GetByScopeAndKeyHash scope keyHash;
  match got with
  | Failure e => unavailable e
  | Success None => fail ErrIdempotencyStoreUnavail
  | Success (Some existing) =>
      if RequestFingerprint existing <>s? fingerprint then fail ErrIdempotencyKeyConflict else
      if ExpiresAt existing <=? now then
        taken ← TryReclaim (ID existing) (Status existing) now lockedUntil expiresAt;
        match taken with
        | Failure e => unavailable e
        | Success true => claim (ID existing)
        | Success false =>
            again ← GetByScopeAndKeyHash scope keyHash;
            match again with
            | Failure e => unavailable e
            | Success None => fail ErrIdempotencyStoreUnavail
            | Success (Some latest) =>
                if RequestFingerprint latest <>s? fingerprint then fail ErrIdempotencyKeyConflict
                else existing_status latest now lockedUntil expiresAt claim
            end
        end
      else existing_status existing now lockedUntil expiresAt claim
  end.

(** After [record.ID] is known. *)
Definition claim_record (expiresAt id : Z) : program answer :=
  if id =? 0 then fail ErrIdempotencyStoreUnavail else execute_claimed id expiresAt.

Definition effective_ttl (opts : IdempotencyExecuteOptions) : Z :=
  if opt_TTL opts <=? 0 then DefaultTTL (cfg c) else opt_TTL opts.

(** From the reading of the clock on. *)
Definition coordinate (opts : IdempotencyExecuteOptions) (key fingerprint : string) : program answer :=
  now ← call Now;
  let expiresAt := now + effective_ttl opts in
  let lockedUntil := now + ProcessingTimeout (cfg c) in
  let keyHash := HashIdempotencyKey key in
  let record := mkIdempotencyRecord 0 (opt_Scope opts) keyHash fingerprint IdempotencyStatusProcessing None None None
                  (Some lockedUntil) expiresAt in
  created ← CreateProcessing record;
  match created with
  | Failure e => unavailable e
  | Success (true, record) => claim_record expiresAt (ID record)
  | Success (false, record) =>
      not_owner (opt_Scope opts) keyHash fingerprint now lockedUntil expiresAt (claim_record expiresAt)
  end.

(** [hasExecutor]: the executor is not nil. *)
Definition Execute (opts : IdempotencyExecuteOptions) (hasExecutor : bool) : program answer :=
  if negb hasExecutor then fail (InternalServer "IDEMPOTENCY_EXECUTOR_NIL" "idempotency executor is nil") else
  match NormalizeIdempotencyKey (opt_IdempotencyKey opts) with
  | Failure e => fail e
  | Success key =>
      if key =s? "" then
        if opt_RequireKey opts && negb (ObserveOnly (cfg c)) then fail ErrIdempotencyKeyRequired else
        res ← execute;
        match res with
        | Failure e => fail e
        | Success d => mret (Success (mkIdempotencyExecuteResult (Returned d) false))
        end
      else if negb (has_repo c) then fail ErrIdempotencyStoreUnavail
      else if opt_Scope opts =s? "" then
        fail (BadRequest "IDEMPOTENCY_SCOPE_REQUIRED" "idempotency scope is required")
      else
        match BuildIdempotencyFingerprint (opt_Method opts) (opt_Route opts) (opt_ActorScope opts) (opt_Payload opts) with
        | Failure e => fail e
        | Success fingerprint => coordinate opts key fingerprint
        end
  end.
End Coordinator.

(** ** The table

    What the SQL statements of the repository do.  [datetime] is what the
    database keeps of a time (a DATETIME(6) column has microseconds). *)

Section Store.
Variable datetime : Z -> Z.

(** [next_id] is the AUTO_INCREMENT counter: identifiers are not reused. *)
Record table : Type := mktable { rows : gmap Z IdempotencyRecord; next_id : Z }.

Definition has_key (scope keyHash : string) (r : IdempotencyRecord) : bool :=
  (Scope r =s? scope) && (IdempotencyKeyHash r =s? keyHash).

(** The row the unique index finds. *)
Definition find_row (scope keyHash : string) (t : table) : option IdempotencyRecord :=
  head (filter (has_key scope keyHash) (map snd (map_to_list (rows t)))).

Definition as_row (id : Z) (r : IdempotencyRecord) : IdempotencyRecord :=
  r <| ID := id |> <| LockedUntil := option_map datetime (LockedUntil r) |> <| ExpiresAt := datetime (ExpiresAt r) |>
    <| ResponseStatus := None |> <| ResponseBody := None |> <| ErrorReason := None |>.

(** INSERT IGNORE: a row with the key keeps its place. *)
Definition insert_ignore (r : IdempotencyRecord) (t : table) : Z * table :=
  match find_row (Scope r) (IdempotencyKeyHash r) t with
  | Some _ => (0, t)
  | None => (1, mktable (<[next_id t := as_row (next_id t) r]> (rows t)) (next_id t + 1))
  end.

(** UPDATE ... WHERE id = ? AND p *)
Definition update_where (id : Z) (p : IdempotencyRecord -> bool) (f : IdempotencyRecord -> IdempotencyRecord) (t : table)
    : Z * table :=
  match rows t !! id with
  | Some r => if p r then (1, mktable (<[id := f r]> (rows t)) (next_id t)) else (0, t)
  | None => (0, t)
  end.

Definition update_reclaim (id : Z) (fromStatus : string) (now newLockedUntil newExpiresAt : Z) : table -> Z * table :=
  update_where id
    (fun r => (Status r =s? fromStatus) &&
              match LockedUntil r with None => true | Some l => l <=? datetime now end)
    (fun r => r <| Status := IdempotencyStatusProcessing |> <| LockedUntil := Some (datetime newLockedUntil) |>
                <| ErrorReason := None |> <| ExpiresAt := datetime newExpiresAt |>).

Definition update_lock (id : Z) (fingerprint : string) (newLockedUntil newExpiresAt : Z) : table -> Z * table :=
  update_where id
    (fun r => (Status r =s? IdempotencyStatusProcessing) && (RequestFingerprint r =s? fingerprint))
    (fun r => r <| LockedUntil := Some (datetime newLockedUntil) |> <| ExpiresAt := datetime newExpiresAt |>).

Definition update_succeeded (id responseStatus : Z) (responseBody : string) (expiresAt : Z) (t : table) : table :=
  snd (update_where id (fun _ => true)
    (fun r => r <| Status := IdempotencyStatusSucceeded |> <| ResponseStatus := Some responseStatus |>
                <| ResponseBody := Some responseBody |> <| ErrorReason := None |> <| LockedUntil := None |>
                <| ExpiresAt := datetime expiresAt |>) t).

Definition update_failed (id : Z) (errorReason : string) (lockedUntil expiresAt : Z) (t : table) : table :=
  snd (update_where id (fun _ => true)
    (fun r => r <| Status := IdempotencyStatusFailedRetryable |> <| ErrorReason := Some errorReason |>
                <| LockedUntil := Some (datetime lockedUntil) |> <| ExpiresAt := datetime expiresAt |>) t).

(** The [limit] expired rows that expired first. *)
Definition expires_le (a b : IdempotencyRecord) : bool := ExpiresAt a <=? ExpiresAt b.

Fixpoint insert_by_expiry (r : IdempotencyRecord) (l : list IdempotencyRecord) : list IdempotencyRecord :=
  match l with [] => [r] | x :: l' => if expires_le r x then r :: l else x :: insert_by_expiry r l' end.

Definition victims (now limit : Z) (t : table) : list Z :=
  map ID (take (Z.to_nat limit) (foldr insert_by_expiry []
    (filter (fun r => ExpiresAt r <=? datetime now) (map snd (map_to_list (rows t)))))).

Definition delete_victims (now limit : Z) (t : table) : Z * table :=
  let ids := victims now limit t in
  (Z.of_nat (length ids), mktable (foldr (fun id m => delete id m) (rows t) ids) (next_id t)).

(** ** One command

    [answers c clock t r t']: at time [clock], command [c] may answer [r] and
    leave the table [t'].  A statement may fail before or after it took effect. *)

Definition statement {A} (effect : table -> A * table) (t : table) (r : outcome A) (t' : table) : Prop :=
  match r with
  | Success a => effect t = (a, t')
  | Failure _ => t' = t \/ t' = snd (effect t)
  end.

Definition answers {R} (c : cmd R) : Z -> table -> R -> table -> Prop :=
  match c in cmd R return Z -> table -> R -> table -> Prop with
  | Now => fun clock t r t' => r = clock /\ t' = t
  | InsertIgnore record => fun _ => statement (insert_ignore record)
  | SelectID scope keyHash => fun _ => statement (fun t => (option_map ID (find_row scope keyHash t), t))
  | SelectRecord scope keyHash => fun _ => statement (fun t => (find_row scope keyHash t, t))
  | UpdateReclaim id from now locked expires => fun _ => statement (update_reclaim id from now locked expires)
  | UpdateLock id fingerprint locked expires => fun _ => statement (update_lock id fingerprint locked expires)
  | UpdateSucceeded id status body expires => fun _ => statement (fun t => (tt, update_succeeded id status body expires t))
  | UpdateFailed id reason locked expires => fun _ => statement (fun t => (tt, update_failed id reason locked expires t))
  | DeleteVictims now limit => fun _ => statement (delete_victims now limit)
  | ExecutorStarts => fun _ t _ t' => t' = t
  | ExecutorReturns => fun _ t _ t' => t' = t
  end.

(** ** Alone

    A request run with no other one: statements succeed, the clock stands at
    [clock], the executor answers [result]; the number of its calls is kept. *)

Record world : Type := mkworld { the_table : table; clock : Z; result : outcome Enc; calls : nat }.
#[export] Instance eta_world : Settable world := fun w => mkworld (the_table w) (clock w) (result w) (calls w).

Definition on_table {A} (effect : table -> A * table) (w : world) : outcome A * world :=
  let '(a, t) := effect (the_table w) in (Success a, w <| the_table := t |>).

Definition handle (R : Type) (c : cmd R) : world -> R * world :=
  match c in cmd R return world -> R * world with
  | Now => fun w => (clock w, w)
  | InsertIgnore record => on_table (insert_ignore record)
  | SelectID scope keyHash => on_table (fun t => (option_map ID (find_row scope keyHash t), t))
  | SelectRecord scope keyHash => on_table (fun t => (find_row scope keyHash t, t))
  | UpdateReclaim id from now locked expires => on_table (update_reclaim id from now locked expires)
  | UpdateLock id fingerprint locked expires => on_table (update_lock id fingerprint locked expires)
  | UpdateSucceeded id status body expires => on_table (fun t => (tt, update_succeeded id status body expires t))
  | UpdateFailed id reason locked expires => on_table (fun t => (tt, update_failed id reason locked expires t))
  | DeleteVictims now limit => on_table (delete_victims now limit)
  | ExecutorStarts => fun w => (tt, w <| calls := S (calls w) |>)
  | ExecutorReturns => fun w => (result w, w)
  end.

Definition alone {A} (p : program A) (w : world) : A * world := run_alone handle p w.
End Store.
