(* ===== verification/IdempotencySafety.v ===== *)
(** * Requests with the same idempotency key, side by side

    The interleavings of any number of [Execute] calls and cleanup runs, one
    SQL statement at a time, and what they guarantee: while no record of the
    run is old enough to expire, at most one request of a key runs its
    executor at a time, and at most one execution succeeds. *)

From S2P Require Import Prelude GoStrings Json AnyJson AppErrors Program Idempotency.

(** What the proofs assume of the way the database keeps a time: it rounds. *)
Class DatabaseTime (datetime : Z -> Z) : Prop := {
  datetime_mono : forall a b, a <= b -> datetime a <= datetime b;
  datetime_idem : forall a, datetime (datetime a) = datetime a;
}.

(** A DATETIME(6) column has microseconds. *)
Definition microseconds (t : Z) : Z := (t + 500) / 1000 * 1000.

#[export] Instance microseconds_time : DatabaseTime microseconds.
Proof.
  split.
  - intros a b H. unfold microseconds. apply Z.mul_le_mono_nonneg_r; [lia|]. apply Z.div_le_mono; lia.
  - intros a. unfold microseconds. rewrite (Z.add_comm (_ * 1000)), Z.div_add by lia. done.
Qed.

(** ** The system *)

(** The scope and hash a request is recorded under, if it carries a key. *)
Definition key_of (opts : IdempotencyExecuteOptions) : option (string * string) :=
  match NormalizeIdempotencyKey (opt_IdempotencyKey opts) with
  | Success key => if key =s? "" then None else Some (opt_Scope opts, HashIdempotencyKey key)
  | Failure _ => None
  end.

Record thread : Type := mkthread { th_key : option (string * string); th_prog : program unit }.

(** [successes]: the keys of the executions that returned without an error. *)
Record system : Type := mksystem {
  store : table;
  time : Z;
  pool : list thread;
  successes : list (string * string);
}.
#[export] Instance eta_system : Settable system := fun s => mksystem (store s) (time s) (pool s) (successes s).

Definition quiet {A} (p : program A) : program unit := _ ← p; mret tt.

Definition executor_success {R} (c : cmd R) : R -> bool :=
  match c in cmd R return R -> bool with
  | ExecutorReturns => fun r => match r with Success _ => true | Failure _ => false end
  | _ => fun _ => false
  end.

Definition success_of (k : option (string * string)) (b : bool) : list (string * string) :=
  match k with Some key => if b then [key] else [] | None => [] end.

Section System.
Variable datetime : Z -> Z.
Variable c : IdempotencyCoordinator.

Definition request (opts : IdempotencyExecuteOptions) : thread := mkthread (key_of opts) (quiet (Execute c opts true)).
Definition cleaner (batch : Z) : thread := mkthread None (quiet (cleanupOnce batch)).

(** [least_ttl]: no request asks for a shorter time to live. *)
Inductive step (least_ttl : Z) (s : system) : system -> Prop :=
| step_tick t : time s <= t -> step least_ttl s (s <| time := t |>)
| step_request opts : least_ttl <= effective_ttl c opts ->
    step least_ttl s (s <| pool := (pool s ++ [request opts])%list |>)
| step_cleaner batch : step least_ttl s (s <| pool := (pool s ++ [cleaner batch])%list |>)
| step_thread i th R (cm : cmd R) k r t :
    pool s !! i = Some th -> th_prog th = Do cm k -> answers datetime cm (time s) (store s) r t ->
    step least_ttl s (mksystem t (time s) (<[i := mkthread (th_key th) (k r)]> (pool s))
      (successes s ++ success_of (th_key th) (executor_success cm r))).

Definition initial (t : table) (start : Z) : system := mksystem t start [] [].

(** The executor of thread [i], a request of the key, is running. *)
Definition executing (key : string * string) (s : system) (i : nat) : Prop :=
  exists th k, pool s !! i = Some th /\ th_key th = Some key /\ th_prog th = Do ExecutorReturns k.

Definition successes_of (key : string * string) (s : system) : nat :=
  length (filter (fun k => k = key) (successes s)).

(** The table knows its identifiers and has no row of the key. *)
Definition fresh_for (key : string * string) (t : table) : Prop :=
  (forall id r, rows t !! id = Some r -> ID r = id /\ id < next_id t) /\
  (forall id r, rows t !! id = Some r -> has_key (fst key) (snd key) r = false).
End System.

(** * Executions of one key do not overlap and succeed at most once

    A thread of the key goes through phases; [requires] is what a command of a
    thread in a phase must satisfy, and the phases its answers lead to, so that
    [obeys] is a weakest precondition of the rest of its program.  Threads of
    other keys are strangers: they only name rows that are not the key's. *)

Inductive phase : Type :=
| Stranger (ids : list Z)
| Outside
| Known (id : Z)
| Inserted
| Owner (id : Z)
| Running (id : Z)
| Won (id : Z)
| Lost (id : Z).

Definition is_stranger (ph : phase) : bool := match ph with Stranger _ => true | _ => false end.

(** The thread holds the key's record. *)
Definition holder (ph : phase) : bool :=
  match ph with Inserted | Owner _ | Running _ | Won _ | Lost _ => true | _ => false end.

Section Safety.
Variable datetime : Z -> Z.
Context `{!DatabaseTime datetime}.
Variable c : IdempotencyCoordinator.
Variable key : string * string.
Variable start least_ttl : Z.

(** No record of the key expires before [horizon]. *)
Definition horizon : Z := datetime (start + least_ttl).

Definition mine (r : IdempotencyRecord) : bool := has_key (fst key) (snd key) r.
Definition row_of (t : table) : option IdempotencyRecord := find_row (fst key) (snd key) t.

(** ** What a thread may do *)

Definition requires {R} (cm : cmd R) (ph : phase) : (R -> phase -> Prop) -> Prop :=
  match cm in cmd R return (R -> phase -> Prop) -> Prop with
  | Now => fun Q => forall t, start <= t -> datetime t < horizon -> Q t ph
  | InsertIgnore record => fun Q =>
      match ph with
      | Stranger _ => mine record = false /\ forall r, Q r ph
      | Outside => mine record = true /\ Status record = IdempotencyStatusProcessing /\
          horizon <= datetime (ExpiresAt record) /\
          (forall n, Q (Success n) (if n =? 0 then Outside else Inserted)) /\ forall e, Q (Failure e) Outside
      | _ => False
      end
  | SelectID scope keyHash => fun Q =>
      match ph with
      | Stranger ids => (scope, keyHash) <> key /\ (forall id, Q (Success (Some id)) (Stranger (id :: ids))) /\
          Q (Success None) ph /\ forall e, Q (Failure e) ph
      | Inserted => (scope, keyHash) = key /\ (forall id, Q (Success (Some id)) (Owner id)) /\ forall e, Q (Failure e) Outside
      | _ => False
      end
  | SelectRecord scope keyHash => fun Q =>
      match ph with
      | Stranger ids => (scope, keyHash) <> key /\ (forall r, Q (Success (Some r)) (Stranger (ID r :: ids))) /\
          Q (Success None) ph /\ forall e, Q (Failure e) ph
      | Outside | Known _ => (scope, keyHash) = key /\
          (forall r, horizon <= ExpiresAt r -> datetime (ExpiresAt r) = ExpiresAt r -> Q (Success (Some r)) (Known (ID r))) /\
          Q (Success None) Outside /\ forall e, Q (Failure e) Outside
      | _ => False
      end
  | UpdateReclaim id from now locked expires => fun Q =>
      match ph with
      | Stranger ids => id ∈ ids /\ forall r, Q r ph
      | Known id' => id = id' /\ from = IdempotencyStatusFailedRetryable /\ horizon <= datetime expires /\
          (forall n, Q (Success n) (if 0 <? n then Owner id else Outside)) /\ forall e, Q (Failure e) Outside
      | _ => False
      end
  | UpdateLock id _ _ _ => fun Q => match ph with Stranger ids => id ∈ ids /\ forall r, Q r ph | _ => False end
  | UpdateSucceeded id _ _ expires => fun Q =>
      match ph with
      | Stranger ids => id ∈ ids /\ forall r, Q r ph
      | Won id' => id = id' /\ horizon <= datetime expires /\ forall r, Q r Outside
      | _ => False
      end
  | UpdateFailed id _ _ expires => fun Q =>
      match ph with
      | Stranger ids => id ∈ ids /\ forall r, Q r ph
      | Lost id' => id = id' /\ horizon <= datetime expires /\ forall r, Q r Outside
      | _ => False
      end
  | DeleteVictims now _ => fun Q =>
      match ph with Stranger _ => datetime now < horizon /\ forall r, Q r ph | _ => False end
  | ExecutorStarts => fun Q =>
      match ph with Stranger _ => forall r, Q r ph | Owner id => forall r, Q r (Running id) | _ => False end
  | ExecutorReturns => fun Q =>
      match ph with
      | Stranger _ => forall r, Q r ph
      | Running id => (forall d, Q (Success d) (Won id)) /\ forall e, Q (Failure e) (Lost id)
      | _ => False
      end
  end.

Fixpoint obeys {A} (ph : phase) (p : program A) : Prop :=
  match p with
  | Ret _ => True
  | Do cm k => requires cm ph (fun r ph' => obeys ph' (k r))
  end.

Lemma requires_mono {R} (cm : cmd R) ph (Q Q' : R -> phase -> Prop) :
  (forall r ph', Q r ph' -> Q' r ph') -> requires cm ph Q -> requires cm ph Q'.
Proof. intros H. destruct cm; cbn; [|destruct ph..]; intuition. Qed.

Lemma obeys_quiet {A} ph (p : program A) : obeys ph p -> obeys ph (quiet p).
Proof.
  unfold quiet. revert ph. induction p as [a|R cm k IH]; intros ph; [done|]. cbn.
  apply requires_mono. intros r ph' H. by apply IH.
Qed.
(** ** The programs obey *)

(** A program that has nothing left to do obeys. *)
Ltac ends := first [done | exact I | intros; exact I | intros []; exact I].

Lemma claim_obeys id expiresAt : horizon <= datetime expiresAt -> obeys (Owner id) (claim_record c expiresAt id).
Proof.
  intros He. unfold claim_record. destruct (id =? 0); [ends|]. intros []. split.
  - intros d. cbn. destruct (marshalStoredResponse c d) as [body|e]; [|ends]. cbn. split; [ends|]. split; [ends|].
    intros []; ends.
  - intros e t _ _. cbn. ends.
Qed.

Lemma existing_obeys existing now lockedUntil expiresAt :
  horizon <= datetime expiresAt ->
  obeys (Known (ID existing)) (existing_status existing now lockedUntil expiresAt (claim_record c expiresAt)).
Proof.
  intros He. unfold existing_status.
  destruct (Status existing =s? _); [destruct (decodeStoredResponse _); ends|].
  destruct (Status existing =s? _); [ends|]. destruct (Status existing =s? _); [|ends].
  destruct (match LockedUntil existing with Some t => _ | None => _ end); [ends|]. cbn.
  do 3 (split; [ends|]). split; [|ends]. intros n. destruct (0 <? n); [by apply claim_obeys | ends].
Qed.

Lemma not_owner_obeys fingerprint now lockedUntil expiresAt :
  datetime now < horizon -> horizon <= datetime expiresAt ->
  obeys Outside (not_owner (fst key) (snd key) fingerprint now lockedUntil expiresAt (claim_record c expiresAt)).
Proof.
  intros Hn He. cbn. split; [by destruct key|]. split; [|ends]. intros r Hr Hd.
  destruct (_ <>s? _); [ends|]. destruct (Z.leb_spec (ExpiresAt r) now) as [Hle|Hlt]; [|by apply existing_obeys].
  pose proof (datetime_mono _ _ Hle). lia.
Qed.

Lemma own_obeys opts : key_of opts = Some key -> least_ttl <= effective_ttl c opts ->
  obeys Outside (th_prog (request c opts)).
Proof.
  intros Hk Ht. apply obeys_quiet. unfold key_of in Hk. unfold Execute. cbn [negb].
  destruct (NormalizeIdempotencyKey _) as [k|]; [|ends]. destruct (k =s? ""); [ends|]. injection Hk as Hkey.
  destruct (has_repo c); [|ends]. cbn [negb]. destruct (opt_Scope opts =s? ""); [ends|].
  destruct (BuildIdempotencyFingerprint _ _ _ _) as [fp|]; [|ends]. cbn. intros now Hs Hn.
  assert (He : horizon <= datetime (now + effective_ttl c opts)) by (apply datetime_mono; lia).
  assert (Hs1 : opt_Scope opts = fst key) by by rewrite <- Hkey.
  assert (Hs2 : HashIdempotencyKey k = snd key) by by rewrite <- Hkey.
  unfold mine, has_key. cbn. rewrite Hs1, Hs2, !String.eqb_refl. do 3 (split; [ends|]). split; [|ends].
  intros n. destruct (n =? 0); cbn.
  - by apply not_owner_obeys.
  - split; [by destruct key|]. split; [|ends]. intros id. by apply claim_obeys.
Qed.

(** Strangers *)

Lemma stranger_claim ids id expiresAt : id ∈ ids -> obeys (Stranger ids) (claim_record c expiresAt id).
Proof.
  intros Hid. unfold claim_record. destruct (id =? 0); [ends|]. intros [] [d|e]; cbn; [|ends].
  destruct (marshalStoredResponse c d); [|ends]. split; [ends|]. intros []; ends.
Qed.

Lemma stranger_existing ids existing now lockedUntil expiresAt : ID existing ∈ ids ->
  obeys (Stranger ids) (existing_status existing now lockedUntil expiresAt (claim_record c expiresAt)).
Proof.
  intros Hid. unfold existing_status.
  destruct (Status existing =s? _); [destruct (decodeStoredResponse _); ends|].
  destruct (Status existing =s? _); [ends|]. destruct (Status existing =s? _); [|ends].
  destruct (match LockedUntil existing with Some t => _ | None => _ end); [ends|]. cbn. split; [ends|].
  intros [n|e]; [|ends]. cbn. destruct (0 <? n); [by apply stranger_claim | ends].
Qed.

Lemma stranger_not_owner ids scope keyHash fingerprint now lockedUntil expiresAt : (scope, keyHash) <> key ->
  obeys (Stranger ids) (not_owner scope keyHash fingerprint now lockedUntil expiresAt (claim_record c expiresAt)).
Proof.
  intros Hk. cbn. split; [ends|]. split; [|ends]. intros r. destruct (_ <>s? _); [ends|].
  destruct (ExpiresAt r <=? now); [|apply stranger_existing; set_solver]. cbn. split; [set_solver|].
  intros [n|e]; [|ends]. cbn. destruct (0 <? n); [apply stranger_claim; set_solver|]. cbn. split; [ends|].
  split; [|ends]. intros r'. destruct (_ <>s? _); [ends|]. apply stranger_existing. set_solver.
Qed.

Lemma stranger_obeys opts : key_of opts <> Some key -> obeys (Stranger []) (th_prog (request c opts)).
Proof.
  intros Hk. apply obeys_quiet. unfold key_of in Hk. unfold Execute. cbn [negb].
  destruct (NormalizeIdempotencyKey _) as [k|]; [|ends].
  destruct (k =s? "").
  { destruct (_ && _); [ends|]. intros [] [d|e]; ends. }
  destruct (has_repo c); [|ends]. cbn [negb]. destruct (opt_Scope opts =s? ""); [ends|].
  destruct (BuildIdempotencyFingerprint _ _ _ _) as [fp|]; [|ends]. cbn. intros now _ _.
  assert (Hne : (opt_Scope opts, HashIdempotencyKey k) <> key) by congruence.
  split.
  { unfold mine, has_key. cbn. destruct key as [s h]. cbn. apply andb_false_iff.
    destruct (opt_Scope opts =s? s) eqn:E; [right | by left]. apply String.eqb_eq in E. apply String.eqb_neq. congruence. }
  intros [n|e]; cbn; [|ends]. destruct (n =? 0); cbn.
  - by apply stranger_not_owner.
  - split; [ends|]. split; [intros id; apply stranger_claim; set_solver | ].
    split; [by apply stranger_not_owner | ends].
Qed.

Lemma cleaner_obeys batch : obeys (Stranger []) (th_prog (cleaner batch)).
Proof. apply obeys_quiet. cbn. intros t _ Ht. split; [ends|]. intros r. ends. Qed.

(** ** The table *)

Record sound (t : table) : Prop := {
  sound_ids : forall id r, rows t !! id = Some r -> ID r = id /\ id < next_id t;
  sound_unique : forall id r id' r', rows t !! id = Some r -> rows t !! id' = Some r' ->
    mine r = true -> mine r' = true -> id = id';
  sound_fresh : forall id r, rows t !! id = Some r -> mine r = true ->
    horizon <= ExpiresAt r /\ datetime (ExpiresAt r) = ExpiresAt r;
}.

(** The identifier is not, and will not become, that of a row of the key. *)
Definition alien (t : table) (id : Z) : Prop :=
  id < next_id t /\ forall r, rows t !! id = Some r -> mine r = false.

Lemma row_of_find t r : sound t -> (rows t !! ID r = Some r /\ mine r = true) <-> row_of t = Some r.
Proof.
  intros Ht. unfold row_of, find_row.
  set (l := filter _ _).
  assert (Hl : forall x, x ∈ l <-> mine x = true /\ exists id, rows t !! id = Some x).
  { intros x. unfold l. rewrite list_elem_of_filter, list_elem_of_fmap. split.
    - intros [Hx ([id y] & -> & Hin)]. apply elem_of_map_to_list in Hin. split; [by apply Is_true_eq_true | by exists id].
    - intros [Hx [id Hid]]. split; [by apply Is_true_eq_left|]. exists (id, x). split; [done | by apply elem_of_map_to_list]. }
  destruct l as [|x l'] eqn:E; cbn.
  - split; [|done]. intros [H1 H2]. assert (Hin : r ∈ []) by (apply Hl; eauto). by apply not_elem_of_nil in Hin.
  - assert (Hx : x ∈ x :: l') by by left. apply Hl in Hx as [Hmx [id Hid]].
    pose proof (sound_ids _ Ht _ _ Hid) as [Hidx _]. split.
    + intros [H1 H2]. assert (id = ID r) as -> by (eapply (sound_unique _ Ht); eauto). congruence.
    + intros [= <-]. by rewrite Hidx.
Qed.

(** [t'] is as good as [t]: sound, and no stranger's row has become the key's. *)
Definition carries (t t' : table) : Prop := sound t' /\ forall id, alien t id -> alien t' id.

Lemma carries_refl t : sound t -> carries t t.
Proof. by split. Qed.

Lemma row_of_same t t' : sound t -> sound t' ->
  (forall r, mine r = true -> rows t !! ID r = Some r <-> rows t' !! ID r = Some r) -> row_of t' = row_of t.
Proof.
  intros H H' Hs. destruct (row_of t) as [r|] eqn:E.
  - apply row_of_find in E as [E Hm]; [|done]. apply row_of_find; [done|]. split; [by apply Hs | done].
  - destruct (row_of t') as [r|] eqn:E'; [|done]. apply row_of_find in E' as [E' Hm]; [|done].
    assert (row_of t = Some r) as E2; [|congruence]. apply row_of_find; [done|]. split; [by apply Hs | done].
Qed.

(** An update keeps identity and key of a row, and the expiry of the key's row
    beyond the horizon. *)
Definition gentle (p : IdempotencyRecord -> bool) (f : IdempotencyRecord -> IdempotencyRecord) : Prop :=
  forall r, ID (f r) = ID r /\ mine (f r) = mine r /\
    (mine r = true -> p r = true -> horizon <= ExpiresAt (f r) /\ datetime (ExpiresAt (f r)) = ExpiresAt (f r)).

Lemma update_carries id p f t :
  sound t -> (forall r, ID (f r) = ID r /\ mine (f r) = mine r) -> alien t id \/ gentle p f ->
  carries t (snd (update_where id p f t)).
Proof.
  intros Ht Hf Hor. unfold update_where. destruct (rows t !! id) as [r|] eqn:E; [|by apply carries_refl].
  destruct (p r) eqn:Ep; [|by apply carries_refl]. cbn. destruct (Hf r) as [Hid Hmine].
  destruct (sound_ids _ Ht _ _ E) as [Hr Hlt]. split; [constructor|]; cbn.
  - intros i x Hx. apply lookup_insert_Some in Hx as [[<- <-]|[_ Hx]]; [by rewrite Hid | by apply (sound_ids _ Ht)].
  - assert (Hold : forall i x, <[id := f r]> (rows t) !! i = Some x -> mine x = true -> exists y, rows t !! i = Some y /\ mine y = true).
    { intros i x Hx Hm. apply lookup_insert_Some in Hx as [[<- <-]|[_ Hx]]; [|by eauto]. exists r. by rewrite <- Hmine. }
    intros i x i' x' Hx Hx' Hm Hm'. destruct (Hold _ _ Hx Hm) as (y & Hy & Hmy). destruct (Hold _ _ Hx' Hm') as (y' & Hy' & Hmy').
    by eapply (sound_unique _ Ht).
  - intros i x Hx Hm. apply lookup_insert_Some in Hx as [[<- <-]|[_ Hx]]; [|by eapply (sound_fresh _ Ht)].
    rewrite Hmine in Hm. destruct Hor as [[_ Ha]|Hg]; [by rewrite (Ha _ E) in Hm|]. by apply Hg.
  - intros i [Hi Ha]. split; [done|]. cbn. intros x Hx. apply lookup_insert_Some in Hx as [[<- <-]|[_ Hx]]; [|auto].
    rewrite Hmine. auto.
Qed.

Lemma update_alien id p f t : sound t -> (forall r, ID (f r) = ID r /\ mine (f r) = mine r) -> alien t id ->
  row_of (snd (update_where id p f t)) = row_of t.
Proof.
  intros Ht Hf Ha. apply row_of_same; [done | by apply update_carries; auto |]. intros r Hm. unfold update_where.
  destruct (rows t !! id) as [x|] eqn:E; [|done]. destruct (p x); [|done]. cbn. destruct Ha as [_ Ha].
  destruct (decide (id = ID r)) as [->|Hne]; [|by rewrite lookup_insert_ne].
  rewrite lookup_insert_eq. split; [intros Hr; rewrite (Ha _ Hr) in Hm; done|]. intros [= <-].
  destruct (Hf x) as [_ Hx]. rewrite (Ha _ E) in Hx. congruence.
Qed.

(** Updating the key's row. *)
Lemma update_own p f t r : sound t -> (forall r, ID (f r) = ID r /\ mine (f r) = mine r) -> gentle p f -> row_of t = Some r ->
  update_where (ID r) p f t = (if p r then (1, snd (update_where (ID r) p f t)) else (0, t)) /\
  row_of (snd (update_where (ID r) p f t)) = Some (if p r then f r else r).
Proof.
  intros Ht Hf Hg Hr. pose proof Hr as Hr0. apply row_of_find in Hr as [E Hm]; [|done].
  pose proof (update_carries (ID r) p f t Ht Hf (or_intror Hg)) as [Ht' _]. revert Ht'.
  unfold update_where. rewrite E. destruct (p r); [|done]. cbn. intros Ht'. split; [done|].
  apply row_of_find; [done|]. cbn. destruct (Hf r) as [-> ->]. by rewrite lookup_insert_eq.
Qed.

Lemma mine_spec r : mine r = true <-> (Scope r, IdempotencyKeyHash r) = key.
Proof.
  unfold mine, has_key. destruct key as [s h]. cbn. rewrite andb_true_iff, !String.eqb_eq. cbn.
  split; [by intros [-> ->] | by intros [= -> ->]].
Qed.

Lemma find_row_key scope keyHash t r : find_row scope keyHash t = Some r -> (Scope r, IdempotencyKeyHash r) = (scope, keyHash).
Proof.
  unfold find_row. set (l := filter _ _). intros E. assert (Hin : r ∈ l) by (destruct l; [done|]; injection E as <-; by left).
  unfold l in Hin. apply list_elem_of_filter in Hin as [Hin _]. apply Is_true_eq_true in Hin. unfold has_key in Hin.
  apply andb_true_iff in Hin as [<-%String.eqb_eq <-%String.eqb_eq]. done.
Qed.

Lemma find_row_lookup scope keyHash t r : sound t -> find_row scope keyHash t = Some r -> rows t !! ID r = Some r.
Proof.
  intros Ht E. unfold find_row in E. set (l := filter _ _) in E.
  assert (Hin : r ∈ l) by (destruct l; [done|]; injection E as <-; by left). unfold l in Hin.
  apply list_elem_of_filter in Hin as [_ Hin]. apply list_elem_of_fmap in Hin as ([id x] & -> & Hin). cbn.
  apply elem_of_map_to_list in Hin. by destruct (sound_ids _ Ht _ _ Hin) as [-> _].
Qed.

(** A row found under another key is alien. *)
Lemma find_row_alien scope keyHash t r : sound t -> (scope, keyHash) <> key -> find_row scope keyHash t = Some r -> alien t (ID r).
Proof.
  intros Ht Hk E. pose proof (find_row_lookup _ _ _ _ Ht E) as Hr. split; [by destruct (sound_ids _ Ht _ _ Hr)|].
  intros x Hx. destruct (mine x) eqn:Em; [|done]. apply mine_spec in Em. apply find_row_key in E. congruence.
Qed.

Lemma insert_carries record t : sound t -> (mine record = true -> horizon <= datetime (ExpiresAt record)) ->
  carries t (snd (insert_ignore datetime record t)).
Proof.
  intros Ht He. unfold insert_ignore. destruct (find_row _ _ t) as [r|] eqn:Ef; [by apply carries_refl|]. cbn.
  assert (Hm : mine (as_row datetime (next_id t) record) = mine record) by done.
  assert (Hnew : forall id x, <[next_id t := as_row datetime (next_id t) record]> (rows t) !! id = Some x ->
    (id = next_id t /\ x = as_row datetime (next_id t) record) \/ (rows t !! id = Some x /\ id < next_id t)).
  { intros id x Hx. apply lookup_insert_Some in Hx as [[<- <-]|[_ Hx]]; [by left | right]. split; [done|].
    by destruct (sound_ids _ Ht _ _ Hx). }
  assert (Hnone : mine record = true -> forall id x, rows t !! id = Some x -> mine x = false).
  { intros Hr id x Hx. destruct (mine x) eqn:Em; [|done]. apply mine_spec in Hr.
    destruct (sound_ids _ Ht _ _ Hx) as [Hid _]. rewrite <- Hid in Hx.
    assert (row_of t = Some x) as E by (apply row_of_find; [done | by split]).
    unfold row_of in E. rewrite <- Hr in E. cbn in E. congruence. }
  split; [constructor|]; cbn.
  - intros id x Hx. apply Hnew in Hx as [[-> ->]|[Hx Hlt]]; [cbn; lia|]. apply (sound_ids _ Ht) in Hx. lia.
  - intros id x id' x' Hx Hx' Hmx Hmx'. apply Hnew in Hx as [[-> ->]|[Hx _]], Hx' as [[-> ->]|[Hx' _]]; [done | | |].
    + rewrite Hm in Hmx. rewrite (Hnone Hmx _ _ Hx') in Hmx'. done.
    + rewrite Hm in Hmx'. rewrite (Hnone Hmx' _ _ Hx) in Hmx. done.
    + by eapply (sound_unique _ Ht).
  - intros id x Hx Hmx. apply Hnew in Hx as [[-> ->]|[Hx _]]; [|by eapply (sound_fresh _ Ht)]. cbn.
    rewrite Hm in Hmx. by rewrite datetime_idem; auto.
  - intros id [Hlt Ha]. split; [cbn; lia|]. cbn. intros x Hx. apply Hnew in Hx as [[-> _]|[Hx _]]; [lia | auto].
Qed.

Lemma insert_alien record t : sound t -> mine record = false -> row_of (snd (insert_ignore datetime record t)) = row_of t.
Proof.
  intros Ht Hm. destruct (insert_carries record t Ht) as [Ht' _]; [by rewrite Hm|]. apply row_of_same; [done..|].
  intros r Hr. unfold insert_ignore. destruct (find_row _ _ t); [done|]. cbn.
  destruct (decide (next_id t = ID r)) as [E|Hne]; [|by rewrite lookup_insert_ne]. rewrite E, lookup_insert_eq.
  split; intros H; [by apply (sound_ids _ Ht) in H; lia|]. injection H as H.
  exfalso. rewrite <- H in Hr. unfold mine, has_key in *. cbn in Hr. congruence.
Qed.

Lemma insert_own record t : sound t -> mine record = true -> horizon <= datetime (ExpiresAt record) ->
  match row_of t with
  | Some _ => insert_ignore datetime record t = (0, t)
  | None => fst (insert_ignore datetime record t) = 1 /\
      exists r, row_of (snd (insert_ignore datetime record t)) = Some r /\ Status r = Status record
  end.
Proof.
  intros Ht Hm He. destruct (insert_carries record t Ht) as [Ht' _]; [done|]. revert Ht'. unfold insert_ignore, row_of at 1.
  pose proof Hm as Hk. apply mine_spec in Hk. rewrite <- Hk. cbn.
  destruct (find_row _ _ t) as [r|]; [done|]. cbn. intros Ht'. split; [done|].
  exists (as_row datetime (next_id t) record). split; [|done]. apply row_of_find; [done|]. cbn. by rewrite lookup_insert_eq.
Qed.

Lemma deleted_lookup {A} (m : gmap Z A) ids i :
  foldr (fun id m => delete id m) m ids !! i = if decide (i ∈ ids) then None else m !! i.
Proof.
  induction ids as [|id ids IH]; cbn; [by destruct (decide _) as [H|]; [apply not_elem_of_nil in H|]|].
  destruct (decide (i = id)) as [->|Hne].
  - rewrite lookup_delete_eq, decide_True; [done | by left].
  - rewrite lookup_delete_ne, IH by done. destruct (decide (i ∈ ids)) as [H|H], (decide (i ∈ id :: ids)) as [H'|H']; try done;
      [by destruct H'; right | by apply elem_of_cons in H' as [?|?]].
Qed.

Lemma sorted_elem r l : r ∈ foldr insert_by_expiry [] l -> r ∈ l.
Proof.
  assert (Hins : forall x l, r ∈ insert_by_expiry x l -> r = x \/ r ∈ l).
  { intros x l0. induction l0 as [|y l0 IH]; cbn; [intros H; left; by apply list_elem_of_singleton in H|].
    destruct (expires_le x y); intros [->|H]%elem_of_cons; [by left | by right | right; by left |].
    destruct (IH H) as [?|?]; [by left | right; by right]. }
  induction l as [|x l IH]; cbn; [done|]. intros [->|H]%Hins; [by left | right; auto].
Qed.

Lemma victims_expired now limit t id : sound t -> id ∈ victims datetime now limit t ->
  exists r, rows t !! id = Some r /\ ExpiresAt r <= datetime now.
Proof.
  intros Ht. unfold victims. rewrite list_elem_of_fmap. intros (r & -> & Hr).
  apply elem_of_take in Hr as (i & Hr & _). apply list_elem_of_lookup_2, sorted_elem in Hr.
  apply list_elem_of_filter in Hr as [He Hr]. apply list_elem_of_fmap in Hr as ([i' x] & -> & Hx).
  apply elem_of_map_to_list in Hx. exists x. cbn. destruct (sound_ids _ Ht _ _ Hx) as [-> _].
  apply Is_true_eq_true, Z.leb_le in He. done.
Qed.

Lemma delete_carries now limit t : sound t -> datetime now < horizon ->
  carries t (snd (delete_victims datetime now limit t)) /\ row_of (snd (delete_victims datetime now limit t)) = row_of t.
Proof.
  intros Ht Hn. unfold delete_victims. cbn. set (ids := victims datetime now limit t).
  set (t' := mktable _ _).
  assert (Hl : forall i r, rows t' !! i = Some r -> rows t !! i = Some r).
  { intros i r. cbn. rewrite deleted_lookup. by destruct (decide (i ∈ ids)). }
  assert (Hk : forall r, mine r = true -> rows t !! ID r = Some r -> rows t' !! ID r = Some r).
  { intros r Hm Hr. cbn. rewrite deleted_lookup. destruct (decide (ID r ∈ ids)) as [Hin|]; [|done].
    destruct (victims_expired _ _ _ _ Ht Hin) as (x & Hx & He). assert (x = r) as -> by congruence.
    destruct (sound_fresh _ Ht _ _ Hr Hm). lia. }
  assert (Hs : sound t').
  { constructor; [intros i r Hr%Hl; by apply (sound_ids _ Ht) | intros i r i' r' Hr%Hl Hr'%Hl; by apply (sound_unique _ Ht) |
      intros i r Hr%Hl; by apply (sound_fresh _ Ht _ _ Hr)]. }
  split; [split; [done|] | apply row_of_same; [done..|]].
  - intros i [Hi Ha]. split; [done|]. intros r Hr%Hl. auto.
  - intros r Hm. split; [auto | apply Hl].
Qed.

(** ** One step of one thread *)

Definition phase_ok (t : table) (ph : phase) : Prop :=
  match ph with
  | Stranger ids => Forall (alien t) ids
  | Outside => True
  | Known id => exists r, row_of t = Some r /\ ID r = id
  | Inserted => exists r, row_of t = Some r /\ Status r = IdempotencyStatusProcessing
  | Owner id | Running id | Won id | Lost id =>
      exists r, row_of t = Some r /\ ID r = id /\ Status r = IdempotencyStatusProcessing
  end.

(** How the key's row and the phase of the thread that moves may change. *)
Inductive change (o o' : option IdempotencyRecord) (ph ph' : phase) : bool -> Prop :=
| change_none : o' = o -> (holder ph' = true -> holder ph = true /\ forall id, ph = Won id -> ph' = Won id) ->
    change o o' ph ph' false
| change_claim r' : holder ph = false ->
    (o = None \/ exists r, o = Some r /\ ID r' = ID r /\ Status r = IdempotencyStatusFailedRetryable) ->
    o' = Some r' -> change o o' ph ph' false
| change_win id : o' = o -> ph = Running id -> ph' = Won id -> change o o' ph ph' true
| change_mark r r' : holder ph = true -> o = Some r -> o' = Some r' -> ID r' = ID r -> holder ph' = false ->
    (forall id, ph = Won id -> Status r' <> IdempotencyStatusFailedRetryable) ->
    change o o' ph ph' false.

(** What a step of one thread establishes. *)
Definition advances {R} (success : bool) (t t' : table) (ph : phase) (r : R) (Q : R -> phase -> Prop) : Prop :=
  exists ph', Q r ph' /\ carries t t' /\ phase_ok t' ph' /\ is_stranger ph' = is_stranger ph /\
    change (row_of t) (row_of t') ph ph' success.

Lemma advances_same {R} t ph ph' r (Q : R -> phase -> Prop) : sound t -> Q r ph' -> phase_ok t ph' ->
  is_stranger ph' = is_stranger ph -> (holder ph' = true -> holder ph = true /\ forall id, ph = Won id -> ph' = Won id) ->
  advances false t t ph r Q.
Proof. intros. exists ph'. split_and!; try done. by apply change_none. Qed.

(** A stranger leaves the key's row alone. *)
Lemma advances_stranger {R} t t' ids ids' r (Q : R -> phase -> Prop) :
  carries t t' -> row_of t' = row_of t -> Q r (Stranger ids') -> Forall (alien t) ids -> Forall (alien t) ids' ->
  advances false t t' (Stranger ids) r Q.
Proof.
  intros Hc Hr HQ Hids Hids'. exists (Stranger ids'). split_and!; try done.
  - cbn. eapply Forall_impl; [exact Hids' | apply Hc].
  - by apply change_none.
Qed.

(** The updates of the repository are gentle when the new expiry is late. *)
Lemma update_gentle p f expires : horizon <= datetime expires ->
  (forall r, ID (f r) = ID r /\ mine (f r) = mine r /\ ExpiresAt (f r) = datetime expires) -> gentle p f.
Proof. intros He Hf r. destruct (Hf r) as (H1 & H2 & H3). split_and!; [done..|]. intros _ _. rewrite H3.
  split; [done | apply datetime_idem].
Qed.

Lemma update_stranger {R} id p f t ids r (Q : R -> phase -> Prop) :
  sound t -> (forall r, ID (f r) = ID r /\ mine (f r) = mine r) -> Forall (alien t) ids -> id ∈ ids -> Q r (Stranger ids) ->
  advances false t (snd (update_where id p f t)) (Stranger ids) r Q.
Proof.
  intros Ht Hf Hids Hid HQ. assert (Ha : alien t id) by (eapply Forall_forall in Hids; eauto).
  apply (advances_stranger _ _ ids ids); [apply update_carries; auto | by apply update_alien | done..].
Qed.

(** The holder of the key's record marks it. *)
Lemma mark_advances {R} p f t ph id r (Q : R -> phase -> Prop) :
  sound t -> (forall r, ID (f r) = ID r /\ mine (f r) = mine r) -> gentle p f -> (forall r, p r = true) ->
  (ph = Won id /\ (forall r, Status (f r) <> IdempotencyStatusFailedRetryable) \/ ph = Lost id) ->
  phase_ok t ph -> Q r Outside -> advances false t (snd (update_where id p f t)) ph r Q.
Proof.
  intros Ht Hf Hg Hp Hph Hok HQ.
  assert (Hrow : exists x, row_of t = Some x /\ ID x = id) by (destruct Hph as [[-> _]| ->]; destruct Hok as (x & ? & ? & _); by exists x).
  destruct Hrow as (x & Hx & <-). destruct (update_own p f t x Ht Hf Hg Hx) as [_ Hrow']. rewrite Hp in Hrow'.
  destruct (update_carries (ID x) p f t Ht Hf (or_intror Hg)) as [Hs Ha].
  exists Outside. split_and!; try done.
  - by destruct Hph as [[-> _]| ->].
  - eapply change_mark; try done.
    + by destruct Hph as [[-> _]| ->].
    + by destruct (Hf x).
    + intros id' ->. by destruct Hph as [[_ H]|H]; [|discriminate H].
Qed.

Lemma statement_cases {A} (effect : table -> A * table) t r t' : statement effect t r t' ->
  (t' = snd (effect t) /\ forall a, r = Success a -> a = fst (effect t)) \/ (t' = t /\ exists e, r = Failure e).
Proof.
  destruct r as [a|e]; cbn.
  - intros E. left. rewrite E. split; [done|]. by intros ? [= ->].
  - intros [-> | ->]; [right; split; [done | by exists e] | by left].
Qed.

Lemma insert_advances record clock t r t' ph Q : sound t -> requires (InsertIgnore record) ph Q ->
  answers datetime (InsertIgnore record) clock t r t' -> phase_ok t ph -> advances false t t' ph r Q.
Proof.
  intros Ht HR Ha Hok. apply statement_cases in Ha. destruct ph; try done; cbn in HR.
  - destruct HR as [Hm HQ]. destruct Ha as [[-> _]|[-> _]]; [|by apply (advances_same _ _ (Stranger ids))].
    apply (advances_stranger _ _ ids ids); [apply insert_carries; [done | by rewrite Hm] | by apply insert_alien | done..].
  - destruct HR as (Hm & Hst & He & HQ & HQe). pose proof (insert_own record t Ht Hm He) as Hown.
    destruct (insert_carries record t Ht (fun _ => He)) as [Hs Hal].
    destruct (row_of t) as [x|] eqn:Ex.
    + rewrite Hown in Ha. cbn in Ha. assert (t' = t) as -> by (destruct Ha as [[-> _]|[-> _]]; done). apply (advances_same _ _ Outside); try done.
      destruct r as [n|e]; [|done]. destruct Ha as [[_ Hn]|[_ [e [=]]]]. specialize (HQ n). by rewrite (Hn n eq_refl) in *.
    + destruct Hown as (Hn & x & Hx & Hsx). destruct Ha as [[-> Hr]|[-> [e ->]]]; [|by apply (advances_same _ _ Outside)].
      exists (match r with Success _ => Inserted | Failure _ => Outside end). split_and!; try done.
      * destruct r as [n|e]; [|done]. specialize (HQ n). by rewrite (Hr n eq_refl), Hn in *.
      * destruct r; [|done]. cbn. exists x. by rewrite Hsx.
      * by destruct r.
      * eapply change_claim; [done | left; exact Ex | exact Hx].
Qed.

Lemma select_id_advances scope keyHash clock t r t' ph Q : sound t -> requires (SelectID scope keyHash) ph Q ->
  answers datetime (SelectID scope keyHash) clock t r t' -> phase_ok t ph -> advances false t t' ph r Q.
Proof.
  intros Ht HR Ha Hok. apply statement_cases in Ha.
  assert (t' = t) as -> by (destruct Ha as [[-> _]|[-> _]]; done).
  destruct ph; try done; cbn in HR.
  - destruct HR as (Hk & HQ & HQn & HQe). destruct r as [[id|]|e]; [|by apply (advances_same _ _ (Stranger ids))..].
    destruct Ha as [[_ Hr]|[_ [e [=]]]]. specialize (Hr _ eq_refl). cbn in Hr.
    destruct (find_row scope keyHash t) as [x|] eqn:Ex; [|done]. injection Hr as ->.
    apply (advances_stranger _ _ ids (ID x :: ids)); [by apply carries_refl | done | by apply HQ | done |].
    constructor; [by eapply find_row_alien | done].
  - destruct HR as (Hk & HQ & HQe). destruct Hok as (x & Hx & Hs).
    destruct r as [o|e]; [|by apply (advances_same _ _ Outside)].
    destruct Ha as [[_ Hr]|[_ [e [=]]]]. specialize (Hr _ eq_refl). cbn in Hr.
    unfold row_of in Hx. rewrite <- Hk in Hx. cbn in Hx. rewrite Hx in Hr. cbn in Hr. subst o.
    apply (advances_same _ _ (Owner (ID x))); try done. exists x. unfold row_of. rewrite <- Hk. by cbn.
Qed.

Lemma select_record_advances scope keyHash clock t r t' ph Q : sound t -> requires (SelectRecord scope keyHash) ph Q ->
  answers datetime (SelectRecord scope keyHash) clock t r t' -> phase_ok t ph -> advances false t t' ph r Q.
Proof.
  intros Ht HR Ha Hok. apply statement_cases in Ha.
  assert (t' = t) as -> by (destruct Ha as [[-> _]|[-> _]]; done).
  assert (Hown : (scope, keyHash) = key -> (forall x, horizon <= ExpiresAt x -> datetime (ExpiresAt x) = ExpiresAt x ->
      Q (Success (Some x)) (Known (ID x))) -> Q (Success None) Outside -> (forall e, Q (Failure e) Outside) ->
      holder ph = false -> is_stranger ph = false -> advances false t t ph r Q).
  { intros Hk HQ HQn HQe Hh Hs. destruct r as [[x|]|e]; [|by apply (advances_same _ _ Outside)..].
    destruct Ha as [[_ Hr]|[_ [e [=]]]]. specialize (Hr _ eq_refl). cbn in Hr.
    assert (row_of t = Some x) as Hx by (unfold row_of; by rewrite <- Hk).
    pose proof Hx as Hx'. apply row_of_find in Hx' as [Hl Hm]; [|done].
    destruct (sound_fresh _ Ht _ _ Hl Hm). apply (advances_same _ _ (Known (ID x))); try done; [by apply HQ | by exists x]. }
  destruct ph; try done; cbn in HR.
  - destruct HR as (Hk & HQ & HQn & HQe). destruct r as [[x|]|e]; [|by apply (advances_same _ _ (Stranger ids))..].
    destruct Ha as [[_ Hr]|[_ [e [=]]]]. specialize (Hr _ eq_refl). cbn in Hr. symmetry in Hr.
    apply (advances_stranger _ _ ids (ID x :: ids)); [by apply carries_refl | done | by apply HQ | done |].
    constructor; [by eapply find_row_alien | done].
  - destruct HR as (Hk & HQ & HQn & HQe). by apply Hown.
  - destruct HR as (Hk & HQ & HQn & HQe). by apply Hown.
Qed.

Lemma reclaim_advances id from now locked expires clock t r t' ph Q : sound t ->
  requires (UpdateReclaim id from now locked expires) ph Q ->
  answers datetime (UpdateReclaim id from now locked expires) clock t r t' -> phase_ok t ph -> advances false t t' ph r Q.
Proof.
  intros Ht HR Ha Hok. apply statement_cases in Ha. destruct ph; try done; cbn in HR.
  - destruct HR as [Hid HQ]. destruct Ha as [[-> _]|[-> _]]; [|by apply (advances_same _ _ (Stranger ids))].
    by apply update_stranger.
  - destruct HR as (-> & -> & He & HQ & HQe). destruct Hok as (x & Hx & <-).
    unfold update_reclaim in Ha. set (p := fun r => _) in Ha. set (f := fun r => _) in Ha.
    assert (Hg : gentle p f) by (apply (update_gentle _ _ expires); done).
    destruct (update_own p f t x Ht (fun r => conj eq_refl eq_refl) Hg Hx) as [Hu Hrow].
    destruct (update_carries (ID x) p f t Ht (fun r => conj eq_refl eq_refl) (or_intror Hg)) as [Hs Hal].
    destruct (p x) eqn:Ep.
    + destruct Ha as [[-> Hr]|[-> [e ->]]]; [|by apply (advances_same _ _ Outside)]. rewrite Hu in Hr. cbn in Hr.
      assert (Hf : Status x = IdempotencyStatusFailedRetryable).
      { unfold p in Ep. apply andb_true_iff in Ep as [Ep _]. by apply String.eqb_eq. }
      exists (match r with Success _ => Owner (ID x) | Failure _ => Outside end). split_and!; try done.
      * destruct r as [n|e]; [|done]. specialize (HQ n). by rewrite (Hr n eq_refl) in *.
      * destruct r; [|done]. cbn. by exists (f x).
      * by destruct r.
      * apply (change_claim _ _ _ _ (f x)); [done | right; by exists x | exact Hrow].
    + rewrite Hu in Ha. cbn in Ha. assert (t' = t) as -> by (destruct Ha as [[-> _]|[-> _]]; done).
      apply (advances_same _ _ Outside); try done. destruct r as [n|e]; [|done].
      destruct Ha as [[_ Hn]|[_ [e [=]]]]. specialize (HQ n). by rewrite (Hn n eq_refl) in *.
Qed.

Lemma mark_cases {A} (effect : table -> A * table) t r t' : statement effect t r t' -> t' = t \/ t' = snd (effect t).
Proof. intros [[-> _]|[-> _]]%statement_cases; auto. Qed.

(** Every command of a thread that obeys advances it. *)
Lemma thread_advances {R} (cm : cmd R) clock t r t' ph Q : sound t -> start <= clock -> datetime clock < horizon ->
  requires cm ph Q -> answers datetime cm clock t r t' -> phase_ok t ph ->
  advances (executor_success cm r && negb (is_stranger ph)) t t' ph r Q.
Proof.
  intros Ht Hc Hd HR Ha Hok. destruct cm; cbn [executor_success andb].
  - destruct Ha as [-> ->]. apply (advances_same _ _ ph); auto.
  - by eapply insert_advances.
  - by eapply select_id_advances.
  - by eapply select_record_advances.
  - by eapply reclaim_advances.
  - destruct ph; try done. destruct HR as [Hid HQ]. apply mark_cases in Ha as [->| ->]; [|by apply update_stranger].
    by apply (advances_same _ _ (Stranger ids)).
  - apply mark_cases in Ha. destruct ph; try done; cbn in HR.
    + destruct HR as [Hid HQ]. destruct Ha as [->| ->]; [|by apply update_stranger]. by apply (advances_same _ _ (Stranger ids)).
    + destruct HR as (-> & He & HQ). destruct Ha as [->| ->]; [by apply (advances_same _ _ Outside)|]. cbn.
      apply (mark_advances _ _ _ (Won id0) id0); try done; [by apply (update_gentle _ _ expiresAt) | by left].
  - apply mark_cases in Ha. destruct ph; try done; cbn in HR.
    + destruct HR as [Hid HQ]. destruct Ha as [->| ->]; [|by apply update_stranger]. by apply (advances_same _ _ (Stranger ids)).
    + destruct HR as (-> & He & HQ). destruct Ha as [->| ->]; [by apply (advances_same _ _ Outside)|]. cbn.
      apply (mark_advances _ _ _ (Lost id0) id0); try done; [by apply (update_gentle _ _ expiresAt) | by right].
  - destruct ph; try done. destruct HR as [Hn HQ]. apply mark_cases in Ha as [->| ->]; [by apply (advances_same _ _ (Stranger ids))|].
    destruct (delete_carries now limit t Ht Hn). by apply (advances_stranger _ _ ids ids).
  - cbn in Ha. subst t'. destruct ph; try done; cbn in HR; [by apply (advances_same _ _ (Stranger ids))|].
    by apply (advances_same _ _ (Running id)).
  - cbn in Ha. subst t'. destruct ph; try done; cbn in HR.
    + destruct r; [|by apply (advances_same _ _ (Stranger ids))]. by apply (advances_same _ _ (Stranger ids)).
    + destruct HR as [HQ HQe]. destruct r as [d|e]; [|by apply (advances_same _ _ (Lost id))]. cbn.
      exists (Won id). split_and!; try done. by eapply change_win.
Qed.

(** ** All threads *)

Definition thread_ok (t : table) (th : thread) (ph : phase) : Prop :=
  obeys ph (th_prog th) /\ phase_ok t ph /\ (is_stranger ph = false <-> th_key th = Some key).

Record inv (s : system) (phs : list phase) : Prop := {
  inv_start : start <= time s;
  inv_sound : sound (store s);
  inv_threads : Forall2 (thread_ok (store s)) (pool s) phs;
  inv_one : forall i j ph ph', phs !! i = Some ph -> phs !! j = Some ph' ->
    holder ph = true -> holder ph' = true -> i = j;
  inv_wins : successes_of key s = 0%nat \/
    (successes_of key s = 1%nat /\ (exists r, row_of (store s) = Some r /\ Status r <> IdempotencyStatusFailedRetryable) /\
     forall i ph, phs !! i = Some ph -> holder ph = true -> exists id, ph = Won id);
}.

Lemma processing_not_failed : IdempotencyStatusProcessing <> IdempotencyStatusFailedRetryable.
Proof. done. Qed.

(** The other threads do not notice. *)
Lemma others_ok t t' ph ph' b q : change (row_of t) (row_of t') ph ph' b -> carries t t' ->
  (holder q = true -> holder ph = true -> False) -> phase_ok t q -> phase_ok t' q.
Proof.
  intros Hc [_ Hal] Hone Hok. inversion Hc as [E _|r' Hh Ho E|id E|r r' Hh Ho E Hid]; subst.
  - destruct q; cbn in *; rewrite ?E; auto. by eapply Forall_impl.
  - destruct q; cbn in *; try done; try (by eapply Forall_impl); destruct Hok as (y & Hy & Hz);
      (destruct Ho as [Ho|(x & Ho & Hid & Hs)]; rewrite Ho in Hy; [done|]; injection Hy as <-);
      try (exfalso; apply processing_not_failed; (congruence || (destruct Hz; congruence))).
    exists r'. by rewrite Hid, Hz.
  - destruct q; cbn in *; rewrite ?E; auto. by eapply Forall_impl.
  - destruct q; cbn in *; try done; try (by eapply Forall_impl); try (exfalso; by apply Hone).
    destruct Hok as (y & Hy & <-). rewrite Ho in Hy. injection Hy as <-. by exists r'.
Qed.

Lemma inv_add s phs th ph : inv s phs -> thread_ok (store s) th ph -> holder ph = false ->
  inv (s <| pool := (pool s ++ [th])%list |>) (phs ++ [ph]).
Proof.
  intros [H1 H2 H3 H4 H5] Hth Hh. constructor; try done.
  - apply Forall2_app; [done | by constructor].
  - intros i j q q' Hi Hj Hq Hq'. apply lookup_snoc_Some in Hi as [[_ Hi]|[_ ->]], Hj as [[_ Hj]|[_ ->]]; try congruence. eauto.
  - destruct H5 as [H5|(Hw & Hr & H5)]; [by left | right]. split_and!; [done..|].
    intros i q Hi Hq. apply lookup_snoc_Some in Hi as [[_ Hi]|[_ ->]]; [eauto | congruence].
Qed.

Lemma successes_grow s t tm p l : successes_of key (mksystem t tm p (successes s ++ l)) =
  (successes_of key s + length (filter (fun k => k = key) l))%nat.
Proof. unfold successes_of. cbn. by rewrite filter_app, length_app. Qed.

Lemma holder_row t q : holder q = true -> phase_ok t q ->
  exists r, row_of t = Some r /\ Status r = IdempotencyStatusProcessing.
Proof. destruct q; try done; intros _ (r & Hr & H); exists r; (done || by destruct H). Qed.

(** Only the holder moves to a holding phase, or a thread that finds no row or a
    failed one. *)
Lemma change_excludes t o' ph ph' b q : change (row_of t) o' ph ph' b -> holder ph' = true -> holder q = true -> phase_ok t q ->
  holder ph = true.
Proof.
  intros Hc Hh Hq Hok. destruct (holder_row _ _ Hq Hok) as (r & Hr & Hs).
  inversion Hc as [_ Hn|r' _ Ho _|id _ -> _|? ? H]; [by apply Hn | | done | done].
  rewrite Hr in Ho. destruct Ho as [[=]|(x & [= <-] & _ & Hx)]. exfalso. apply processing_not_failed. congruence.
Qed.

Lemma success_of_key th b ph : (is_stranger ph = false <-> th_key th = Some key) ->
  length (filter (fun k => k = key) (success_of (th_key th) b)) = if b && negb (is_stranger ph) then 1%nat else 0%nat.
Proof.
  intros Hs. destruct (th_key th) as [k|]; destruct (is_stranger ph); destruct b; cbn; try done; try case_decide; subst; try done.
  - destruct Hs as [_ Hs]. discriminate (Hs eq_refl).
  - destruct Hs as [Hs _]. injection (Hs eq_refl). done.
  - destruct Hs as [Hs _]. discriminate (Hs eq_refl).
Qed.

Lemma inv_thread s phs i th ph R (cm : cmd R) k r t :
  inv s phs -> datetime (time s) < horizon -> pool s !! i = Some th -> phs !! i = Some ph -> th_prog th = Do cm k ->
  answers datetime cm (time s) (store s) r t ->
  exists ph', inv (mksystem t (time s) (<[i := mkthread (th_key th) (k r)]> (pool s))
                    (successes s ++ success_of (th_key th) (executor_success cm r))) (<[i := ph']> phs).
Proof.
  intros [H1 H2 H3 H4 H5] Hd Hth Hph Hprog Ha. destruct (Forall2_lookup_lr _ _ _ _ _ _ H3 Hth Hph) as (Hob & Hok & Hstr).
  rewrite Hprog in Hob. cbn in Hob.
  destruct (thread_advances cm (time s) _ r t ph _ H2 H1 Hd Hob Ha Hok) as (ph' & HQ & Hcar & Hok' & Hs & Hch).
  exists ph'. assert (Hlen : (i < length phs)%nat) by by eapply lookup_lt_Some.
  assert (Hcases : forall j q, <[i := ph']> phs !! j = Some q -> (j = i /\ q = ph') \/ (j <> i /\ phs !! j = Some q)).
  { intros j q Hq. apply list_lookup_insert_Some in Hq as [(<- & <- & _)|[Hne Hq]]; [by left | by right]. }
  constructor; cbn -[successes_of].
  - done.
  - apply Hcar.
  - apply Forall2_same_length_lookup. split; [rewrite !length_insert; by eapply Forall2_length|].
    intros j x q Hx Hq. apply list_lookup_insert_Some in Hx as [(<- & <- & _)|[Hne Hx]].
    + apply Hcases in Hq as [[_ ->]|[? _]]; [|done]. split_and!; [done..|]. by rewrite Hs.
    + apply Hcases in Hq as [[? _]|[_ Hq]]; [done|]. destruct (Forall2_lookup_lr _ _ _ _ _ _ H3 Hx Hq) as (Hx1 & Hx2 & Hx3).
      split_and!; [done | | done]. eapply others_ok; try done. intros Hhq Hhp. apply Hne. by eapply H4.
  - assert (Hex : forall j q, j <> i -> phs !! j = Some q -> holder q = true -> holder ph' = true -> False).
    { intros j q Hne Hq Hh Hh'. apply Hne. eapply H4; [exact Hq | exact Hph | done |].
      destruct (Forall2_lookup_r _ _ _ _ _ H3 Hq) as (x & _ & _ & Hx & _). exact (change_excludes _ _ _ _ _ _ Hch Hh' Hh Hx). }
    intros j j' q q' Hq Hq' Hh Hh'.
    apply Hcases in Hq as [[-> ->]|[Hne Hq]], Hq' as [[-> ->]|[Hne' Hq']]; [done | | | by eapply H4]; exfalso; eauto.
  - rewrite successes_grow, (success_of_key _ _ _ Hstr). destruct H5 as [H5|(Hw & (x & Hx & Hsx) & H5)].
    + rewrite H5. destruct (_ && _) eqn:Eb; [right | by left]. split; [done|].
      inversion Hch as [| |id Er E1 E2|]. subst ph ph'. destruct Hok' as (y & Hy & _ & Hsy). split.
      * exists y. split; [done|]. rewrite Hsy. apply processing_not_failed.
      * intros j q Hq Hh. apply Hcases in Hq as [[-> ->]|[Hne Hq]]; [by exists id|]. exfalso. apply Hne.
        by eapply H4.
    + right. rewrite Hw. inversion Hch as [Er Hn Eb|r' Hh Ho Er Eb|id Er E1 E2 Eb|y y' Hh Ho Er Hid Hh' Hs' Eb]; rewrite <- ?Eb in *.
      * rewrite Er. split_and!; [done | by exists x |]. intros j q Hq Hh.
        apply Hcases in Hq as [[-> ->]|[Hne Hq]]; [|by eapply H5]. destruct (Hn Hh) as [Hhp Hwon].
        destruct (H5 _ _ Hph Hhp) as [id Hid]. exists id. by apply Hwon.
      * exfalso. rewrite Hx in Ho. by destruct Ho as [[=]|(z & [= <-] & _ & Hz)].
      * exfalso. subst ph. by destruct (H5 _ _ Hph eq_refl) as [id' [=]].
      * rewrite Er. destruct (H5 _ _ Hph Hh) as [id Hwon]. split_and!; [done | by exists y'; split; [|eauto] |].
        intros j q Hq Hhq. apply Hcases in Hq as [[-> ->]|[Hne Hq]]; [congruence | by eapply H5].
Qed.

(** ** Runs *)

Lemma inv_initial t : fresh_for key t -> inv (initial t start) [].
Proof.
  intros [H1 H2]. constructor; cbn; try done.
  - constructor; [done | |].
    + intros id r id' r' Hr _ Hm. specialize (H2 _ _ Hr). unfold mine in Hm. congruence.
    + intros id r Hr Hm. specialize (H2 _ _ Hr). unfold mine in Hm. congruence.
  - by left.
Qed.

Lemma inv_step s s' phs : inv s phs -> step datetime c least_ttl s s' -> datetime (time s) < horizon ->
  exists phs', inv s' phs'.
Proof.
  intros Hinv Hst Hd. inversion Hst as [t Ht| opts Ht|batch|i th R cm k r t Hth Hprog Ha]; subst.
  - exists phs. destruct Hinv. constructor; try done. cbn. lia.
  - destruct (decide (key_of opts = Some key)) as [Hk|Hk].
    + exists (phs ++ [Outside])%list. apply inv_add; [done | | done]. split_and!; [by apply own_obeys | done | done].
    + exists (phs ++ [Stranger []])%list. apply inv_add; [done | | done]. split_and!; [by apply stranger_obeys | by constructor | done].
  - exists (phs ++ [Stranger []])%list. apply inv_add; [done | | done]. split_and!; [apply cleaner_obeys | by constructor | done].
  - destruct (Forall2_lookup_l _ _ _ _ _ (inv_threads _ _ Hinv) Hth) as (ph & Hph & _).
    destruct (inv_thread s phs i th ph R cm k r t Hinv Hd Hth Hph Hprog Ha) as [ph' H]. by eexists.
Qed.

Lemma step_time s s' : step datetime c least_ttl s s' -> time s <= time s'.
Proof. intros []; cbn; lia. Qed.

Lemma inv_run s0 s : rtc (step datetime c least_ttl) s0 s -> (exists phs, inv s0 phs) -> datetime (time s) < horizon ->
  exists phs, inv s phs.
Proof.
  intros Hr H0 Hd. induction Hr as [s|s s1 s2 Hst Hr IH]; [done|]. apply IH; [|done].
  assert (Hle : time s1 <= time s2).
  { clear -Hr. induction Hr as [s|s s1 s2 Hst Hr IH]; [lia|]. apply step_time in Hst. lia. }
  destruct H0 as [phs H0]. eapply inv_step; [exact H0 | exact Hst |].
  pose proof (step_time _ _ Hst). pose proof (datetime_mono (time s) (time s2)). lia.
Qed.

Lemma executing_running s phs i : inv s phs -> executing key s i -> exists id, phs !! i = Some (Running id).
Proof.
  intros Hinv (th & k & Hth & Hk & Hp). destruct (Forall2_lookup_l _ _ _ _ _ (inv_threads _ _ Hinv) Hth) as (ph & Hph & Hob & _ & Hs).
  rewrite Hp in Hob. destruct ph; try done; [|by exists id]. destruct Hs as [_ Hs]. discriminate (Hs Hk).
Qed.
End Safety.

(** C19: While the records of a key are too young to expire, its executions do
    not overlap and succeed at most once: in any interleaving of any requests
    and cleanups, statement by statement, with statements failing before or
    after they took effect, starting from a table that has no row of the key,
    as long as the run is shorter than every request's time to live, at most
    one request of the key is inside its executor, at most one execution has
    returned without an error, and none is inside once one has. *)
Theorem executions_exclusive (datetime : Z -> Z) `{!DatabaseTime datetime} (c : IdempotencyCoordinator)
    (key : string * string) (t : table) (start least_ttl : Z) (s : system) :
  fresh_for key t -> rtc (step datetime c least_ttl) (initial t start) s ->
  datetime (time s) < datetime (start + least_ttl) ->
  (forall i j, executing key s i -> executing key s j -> i = j) /\
  (successes_of key s <= 1)%nat /\
  (forall i, executing key s i -> successes_of key s = 0%nat).
Proof.
  intros Hf Hr Hd. destruct (inv_run datetime c key start least_ttl (initial t start) s Hr) as [phs Hinv]; [|done|].
  { exists []. by apply inv_initial. }
  split_and!.
  - intros i j (id & Hi)%(executing_running _ _ _ _ _ _ _ Hinv) (id' & Hj)%(executing_running _ _ _ _ _ _ _ Hinv).
    by eapply (inv_one _ _ _ _ _ _ Hinv).
  - destruct (inv_wins _ _ _ _ _ _ Hinv) as [->|[-> _]]; lia.
  - intros i (id & Hi)%(executing_running _ _ _ _ _ _ _ Hinv).
    destruct (inv_wins _ _ _ _ _ _ Hinv) as [H|(_ & _ & H)]; [done|]. by destruct (H _ _ Hi eq_refl).
Qed.
