(* ===== verification/IdempotencySpec.v ===== *)
(** * What one idempotent request does

    [Execute] run alone, branch by branch, the replay of a stored response, and
    the retry hint of a conflict. *)

From S2P Require Import Prelude GoStrings Json JsonFacts AnyJson LogRedact AppErrors Program.
From S2P Require Import Idempotency IdempotencySafety.

(** ** A closing parenthesis never ends a JSON document *)

Definition paren (c : ascii) : bool := Ascii.eqb c ")"%char.

(** [s] is read up to [r], and the last byte read is not a parenthesis. *)
Definition reads (s r : string) : Prop := exists p x, s = p +:+ String x r /\ paren x = false.

Lemma reads_app p s r : reads s r -> reads (p +:+ s) r.
Proof. intros (q & x & -> & Hx). exists (p +:+ q), x. by rewrite string_app_assoc. Qed.

Lemma reads_cons x s r : reads s r -> reads (String x s) r.
Proof. apply (reads_app (String x "")). Qed.

Lemma reads_one x r : paren x = false -> reads (String x r) r.
Proof. intros Hx. by exists "", x. Qed.

Lemma skip_blanks_suffix s : exists b, s = b +:+ skip_blanks s.
Proof. destruct (skip_blanks_spec s) as (b & E & _). by exists b. Qed.

Lemma reads_skip s r : reads (skip_blanks s) r -> reads s r.
Proof. intros H. destruct (skip_blanks_suffix s) as [b E]. rewrite E. by apply reads_app. Qed.

Lemma reads_trans s r r' : reads s r -> reads r r' -> reads s r'.
Proof. intros (p & x & -> & _) H. by apply reads_app, reads_cons. Qed.

Lemma reads_literal s p x r : cut_prefix s (p +:+ String x "") = Some r -> paren x = false -> reads s r.
Proof. intros ->%cut_prefix_Some Hx. rewrite string_app_assoc. by apply reads_app, reads_one. Qed.

Lemma reads_number s l r : scan_number s = Some (l, r) -> reads s r.
Proof.
  intros H. pose proof (scan_number_bytes _ _ _ H) as Hb. apply scan_number_spec in H as [-> Hok].
  destruct (last_byte _ _ Hb) as (q & x & -> & Hx).
  { intros ->. destruct Hok as [(c & s & [=] & _) _]. }
  rewrite string_app_assoc. apply reads_app, reads_one. revert Hx. each_byte x; intros H; try discriminate H; done.
Qed.

Lemma reads_string s l r : scan_string s = Some (l, r) -> reads s r.
Proof. intros [-> _]%scan_string_spec. by apply reads_app, reads_one. Qed.

Lemma reads_parser fuel :
  (forall d s t r, parse_value fuel d s = Some (t, r) -> reads s r) /\
  (forall d s es r, parse_elems fuel d s = Some (es, r) -> reads s r) /\
  (forall d s ms r, parse_members fuel d s = Some (ms, r) -> reads s r).
Proof.
  induction fuel as [|fuel (IHv & IHe & IHm)]; [done|]. split_and!.
  - intros d s t r H. destruct s as [|c s1]; [done|]. cbn [parse_value] in H.
    destruct (Ascii.eqb c "{"%char).
    { destruct (_ <=? d); [done|]. apply reads_cons, reads_skip. destruct (starts_with _ _) eqn:Es.
      - injection H as <- <-. apply starts_with_Some in Es. rewrite Es. by apply reads_one.
      - bind_inv H. destruct x as [ms r1]. injection H as <- <-. by eapply IHm. }
    destruct (Ascii.eqb c "["%char).
    { destruct (_ <=? d); [done|]. apply reads_cons, reads_skip. destruct (starts_with _ _) eqn:Es.
      - injection H as <- <-. apply starts_with_Some in Es. rewrite Es. by apply reads_one.
      - bind_inv H. destruct x as [es r1]. injection H as <- <-. by eapply IHe. }
    destruct (Ascii.eqb c dquote); [bind_inv H; destruct x; injection H as <- <-; apply reads_cons; by eapply reads_string|].
    destruct (Ascii.eqb c "n"%char); [bind_inv H; injection H as <- <-; by apply (reads_literal _ "nul" "l"%char)|].
    destruct (Ascii.eqb c "t"%char); [bind_inv H; injection H as <- <-; by apply (reads_literal _ "tru" "e"%char)|].
    destruct (Ascii.eqb c "f"%char); [bind_inv H; injection H as <- <-; by apply (reads_literal _ "fals" "e"%char)|].
    bind_inv H. destruct x. injection H as <- <-. by eapply reads_number.
  - intros d s es r H. cbn [parse_elems] in H. bind_inv H. destruct x as [v r0]. apply IHv in H0.
    eapply reads_trans; [exact H0|]. apply reads_skip. destruct (starts_with "]"%char _) eqn:Es.
    + injection H as <- <-. apply starts_with_Some in Es. rewrite Es. by apply reads_one.
    + bind_inv H. apply starts_with_Some in H1. rewrite H1. bind_inv H. destruct x0. injection H as <- <-.
      apply reads_cons, reads_skip. by eapply IHe.
  - intros d s ms r H. cbn [parse_members] in H. bind_inv H. apply starts_with_Some in H0 as ->. bind_inv H.
    destruct x0 as [k r0]. bind_inv H. apply starts_with_Some in H1. bind_inv H. destruct x1 as [v r1]. apply IHv in H2.
    apply reads_cons. eapply reads_trans; [by eapply reads_string|]. apply reads_skip. rewrite H1.
    apply reads_cons, reads_skip. eapply reads_trans; [exact H2|]. apply reads_skip.
    destruct (starts_with "}"%char _) eqn:Es.
    + injection H as <- <-. apply starts_with_Some in Es. rewrite Es. by apply reads_one.
    + bind_inv H. apply starts_with_Some in H3. rewrite H3. bind_inv H. destruct x2. injection H as <- <-.
      apply reads_cons, reads_skip. by eapply IHm.
Qed.

Lemma string_snoc_inj p x q y : p +:+ String x "" = q +:+ String y "" -> p = q /\ x = y.
Proof.
  revert q. induction p as [|c p IH]; intros [|d q]; cbn; try (by destruct p || by destruct q).
  - by intros [= ->].
  - intros [= -> H]. destruct (IH _ H) as [-> ->]. done.
Qed.

Lemma skip_blanks_paren p : skip_blanks (p +:+ ")") <> "".
Proof.
  induction p as [|c p IH]; [done|]. cbn [String.append skip_blanks]. by destruct (is_blank c).
Qed.

Lemma paren_no_document p : parse (p +:+ ")") = None.
Proof.
  unfold parse. destruct (skip_blanks_suffix (p +:+ ")")) as [b E]. set (s := skip_blanks (p +:+ ")")) in *.
  destruct (parse_value _ 0 s) as [[v r]|] eqn:Ep; [|done]. cbn [mbind option_bind].
  destruct (proj1 (reads_parser _) _ _ _ _ Ep) as (q & x & Es & Hx).
  destruct (skip_blanks r) eqn:Er; [|done]. exfalso. destruct r as [|y r].
  - rewrite Es, <- string_app_assoc in E. apply string_snoc_inj in E as [_ <-]. done.
  - destruct (last_byte (fun _ => true) (String y r)) as (r' & z & Hr & _); [|done|].
    { clear. generalize (String y r). induction s as [|c s IH]; [done | exact IH]. }
    rewrite Es in E. change (String x (String y r)) with (String x "" +:+ String y r) in E. rewrite Hr in E.
    rewrite <- !string_app_assoc in E. apply string_snoc_inj in E as [_ <-].
    rewrite Hr in Er. by apply (skip_blanks_paren r').
Qed.

(** ** One request alone *)

Section Alone.
Variable datetime : Z -> Z.
Variable c : IdempotencyCoordinator.

(** The request carries a key and reaches the repository; [fingerprint] is its. *)
Record admitted (opts : IdempotencyExecuteOptions) (scope keyHash fingerprint : string) : Prop := {
  admitted_key : key_of opts = Some (scope, keyHash);
  admitted_scope : scope <> "";
  admitted_repo : has_repo c = true;
  admitted_fingerprint :
    BuildIdempotencyFingerprint (opt_Method opts) (opt_Route opts) (opt_ActorScope opts) (opt_Payload opts) = Success fingerprint;
}.

(** The request after the record could not be inserted. *)
Definition contend (opts : IdempotencyExecuteOptions) (scope keyHash fingerprint : string) (now : Z) : program (outcome IdempotencyExecuteResult) :=
  let expiresAt := now + effective_ttl c opts in
  not_owner scope keyHash fingerprint now (now + ProcessingTimeout (cfg c)) expiresAt (claim_record c expiresAt).

Lemma alone_bind {A B} (p : program A) (f : A -> program B) w :
  alone datetime (p ≫= f) w = (let '(a, w') := alone datetime p w in alone datetime (f a) w').
Proof. apply run_alone_bind. Qed.

Definition new_record (opts : IdempotencyExecuteOptions) (scope keyHash fingerprint : string) (now : Z) : IdempotencyRecord :=
  mkIdempotencyRecord 0 scope keyHash fingerprint IdempotencyStatusProcessing None None None
    (Some (now + ProcessingTimeout (cfg c))) (now + effective_ttl c opts).

Lemma execute_alone opts scope keyHash fingerprint w : admitted opts scope keyHash fingerprint ->
  alone datetime (Execute c opts true) w =
  (let record := new_record opts scope keyHash fingerprint (clock w) in
   alone datetime (created ← CreateProcessing record;
     match created with
     | Failure e => unavailable e
     | Success (true, record) => claim_record c (clock w + effective_ttl c opts) (ID record)
     | Success (false, _) => contend opts scope keyHash fingerprint (clock w)
     end) w).
Proof.
  intros [Hk Hs Hr Hf]. unfold key_of in Hk. unfold Execute. cbn [negb].
  destruct (NormalizeIdempotencyKey _) as [k|]; [|done]. destruct (k =s? ""); [done|]. injection Hk as <- <-.
  rewrite Hr, Hf. cbn [negb]. destruct (opt_Scope opts =s? "") eqn:E; [by apply String.eqb_eq in E|]. reflexivity.
Qed.

(** A record of the key is there. *)
Lemma execute_contends opts scope keyHash fingerprint w r : admitted opts scope keyHash fingerprint ->
  find_row scope keyHash (the_table w) = Some r ->
  alone datetime (Execute c opts true) w = alone datetime (contend opts scope keyHash fingerprint (clock w)) w.
Proof.
  intros Ha Hr. rewrite (execute_alone _ _ _ _ _ Ha). cbn zeta. destruct w as [t now res n]. cbn in Hr |- *.
  unfold CreateProcessing, contend, not_owner, alone. cbn. unfold on_table, insert_ignore. cbn. rewrite Hr. cbn.
  rewrite Hr. reflexivity.
Qed.

(** The answer to a request that finds the unexpired record [r] and may not
    claim it; [None] when it may. *)
Definition answer_of (r : IdempotencyRecord) (fingerprint : string) (now : Z) : option (outcome IdempotencyExecuteResult) :=
  if RequestFingerprint r <>s? fingerprint then Some (Failure ErrIdempotencyKeyConflict)
  else if Status r =s? IdempotencyStatusSucceeded then
    Some (match decodeStoredResponse (ResponseBody r) with
          | Success v => Success (mkIdempotencyExecuteResult (Decoded v) true)
          | Failure e => Failure (WithCause ErrIdempotencyStoreUnavail e)
          end)
  else if Status r =s? IdempotencyStatusProcessing then
    Some (Failure (conflictWithRetryAfter ErrIdempotencyInProgress (LockedUntil r) now))
  else if Status r =s? IdempotencyStatusFailedRetryable then
    if match LockedUntil r with Some t => now <? t | None => false end
    then Some (Failure (conflictWithRetryAfter ErrIdempotencyRetryBackoff (LockedUntil r) now))
    else None
  else Some (Failure ErrIdempotencyKeyConflict).

Lemma contend_answer opts scope keyHash fingerprint w r a : find_row scope keyHash (the_table w) = Some r ->
  clock w < ExpiresAt r -> answer_of r fingerprint (clock w) = Some a ->
  alone datetime (contend opts scope keyHash fingerprint (clock w)) w = (a, w).
Proof.
  destruct w as [t now res n]. cbn. intros Hr He Ha. unfold contend, not_owner, alone. cbn. unfold on_table. cbn. rewrite Hr. cbn.
  unfold answer_of in Ha. destruct (_ <>s? fingerprint); [by injection Ha as <-|].
  destruct (Z.leb_spec (ExpiresAt r) now); [lia|]. unfold existing_status.
  destruct (Status r =s? IdempotencyStatusSucceeded); [by destruct (decodeStoredResponse _); injection Ha as <-|].
  destruct (Status r =s? IdempotencyStatusProcessing); [by injection Ha as <-|].
  destruct (Status r =s? IdempotencyStatusFailedRetryable); [|by injection Ha as <-].
  destruct (match LockedUntil r with Some t => _ | None => _ end); [|done]. by injection Ha as <-.
Qed.

(** ** The owner *)

Lemma claim_alone id expiresAt w : id <> 0 ->
  alone datetime (claim_record c expiresAt id) w =
  (let w1 := w <| calls := S (calls w) |> in
   match result w with
   | Failure e =>
       let reason := if Reason (Some e) =s? "" then "EXECUTION_FAILED" else Reason (Some e) in
       (Failure e, w1 <| the_table := update_failed datetime id reason (clock w + FailedRetryBackoff (cfg c)) expiresAt (the_table w) |>)
   | Success d =>
       match marshalStoredResponse c d with
       | Failure e => (Failure (WithCause ErrIdempotencyStoreUnavail e), w1)
       | Success body =>
           (Success (mkIdempotencyExecuteResult (Returned d) false),
            w1 <| the_table := update_succeeded datetime id 200 body expiresAt (the_table w) |>)
       end
   end).
Proof.
  intros Hid. unfold claim_record. destruct (Z.eqb_spec id 0); [done|]. destruct w as [t now [d|e] n0]; cbn.
  - by destruct (marshalStoredResponse c d).
  - done.
Qed.

(** The index finds the only row of a key. *)
Lemma find_row_only scope keyHash t id r : rows t !! id = Some r -> has_key scope keyHash r = true ->
  (forall id' r', rows t !! id' = Some r' -> has_key scope keyHash r' = true -> r' = r) ->
  find_row scope keyHash t = Some r.
Proof.
  intros Hr Hk Hu. unfold find_row. set (l := filter _ _).
  assert (Hl : forall x, x ∈ l <-> has_key scope keyHash x = true /\ exists i, rows t !! i = Some x).
  { intros x. unfold l. rewrite list_elem_of_filter, list_elem_of_fmap. split.
    - intros [Hx ([i y] & -> & Hin)]. apply elem_of_map_to_list in Hin. split; [by apply Is_true_eq_true | by exists i].
    - intros [Hx [i Hi]]. split; [by apply Is_true_eq_left|]. exists (i, x). split; [done | by apply elem_of_map_to_list]. }
  assert (Hin : r ∈ l) by (apply Hl; eauto).
  destruct l as [|x l']; [by apply not_elem_of_nil in Hin|]. cbn. f_equal.
  destruct (proj1 (Hl x)) as [Hx [i Hi]]; [by left|]. by eapply Hu.
Qed.

Lemma find_row_none scope keyHash t : (forall id r, rows t !! id = Some r -> has_key scope keyHash r = false) ->
  find_row scope keyHash t = None.
Proof.
  intros H. unfold find_row. set (l := filter _ _). destruct l as [|x l'] eqn:E; [done|].
  assert (Hx : x ∈ l) by (rewrite E; by left). unfold l in Hx. rewrite list_elem_of_filter, list_elem_of_fmap in Hx.
  destruct Hx as [Hx ([i y] & -> & Hin)]. apply elem_of_map_to_list in Hin. apply Is_true_eq_true in Hx. cbn in Hx.
  by rewrite (H _ _ Hin) in Hx.
Qed.

(** After the row [r] of the key was put under the identifier [id]. *)
Lemma find_row_put scope keyHash (m : gmap Z IdempotencyRecord) n id r :
  has_key scope keyHash r = true -> (forall i x, m !! i = Some x -> i <> id -> has_key scope keyHash x = false) ->
  find_row scope keyHash (mktable (<[id := r]> m) n) = Some r.
Proof.
  intros Hr Hm. apply (find_row_only _ _ _ id); [by cbn; rewrite lookup_insert_eq | done |]. cbn.
  intros i x Hx Hk. apply lookup_insert_Some in Hx as [[_ <-]|[Hne Hx]]; [done|].
  rewrite (Hm _ _ Hx) in Hk by done. done.
Qed.

(** The first request of a key claims a new row. *)
Lemma first_claims opts scope keyHash fingerprint w : admitted opts scope keyHash fingerprint ->
  fresh_for (scope, keyHash) (the_table w) ->
  let id := next_id (the_table w) in
  let row := as_row datetime id (new_record opts scope keyHash fingerprint (clock w)) in
  alone datetime (Execute c opts true) w =
  alone datetime (claim_record c (clock w + effective_ttl c opts) id)
    (w <| the_table := mktable (<[id := row]> (rows (the_table w))) (id + 1) |>).
Proof.
  intros Ha [Hids Hf]. cbn zeta. rewrite (execute_alone _ _ _ _ _ Ha). cbn zeta.
  destruct w as [t now res n]. cbn in *. unfold CreateProcessing, alone. cbn. unfold on_table, insert_ignore. cbn.
  rewrite (find_row_none _ _ _ Hf). cbn. rewrite find_row_put; [done | |].
  - unfold has_key. cbn. by rewrite !String.eqb_refl.
  - intros i x Hx _. by eapply Hf.
Qed.

(** After a success the row is there, unexpired, with the stored body. *)
Lemma first_succeeds opts scope keyHash fingerprint w d body : admitted opts scope keyHash fingerprint ->
  fresh_for (scope, keyHash) (the_table w) -> 0 < next_id (the_table w) ->
  result w = Success d -> marshalStoredResponse c d = Success body ->
  exists r, alone datetime (Execute c opts true) w =
      (Success (mkIdempotencyExecuteResult (Returned d) false),
       w <| calls := S (calls w) |> <| the_table := mktable (<[next_id (the_table w) := r]> (rows (the_table w))) (next_id (the_table w) + 1) |>) /\
    has_key scope keyHash r = true /\ RequestFingerprint r = fingerprint /\ Status r = IdempotencyStatusSucceeded /\
    ResponseBody r = Some body /\ ExpiresAt r = datetime (clock w + effective_ttl c opts).
Proof.
  intros Ha Hf Hid Hres Hbody. rewrite (first_claims _ _ _ _ _ Ha Hf), claim_alone by lia.
  destruct w as [t now res n]. cbn in *. rewrite Hres, Hbody. unfold update_succeeded, update_where. cbn.
  rewrite lookup_insert_eq. cbn. rewrite insert_insert_eq. eexists. split; [reflexivity|]. cbn.
  unfold has_key. cbn. by rewrite !String.eqb_refl.
Qed.

Lemma truncated_undecodable p : exists e, decodeStoredResponse (Some (p +:+ truncated)) = Failure e.
Proof.
  unfold decodeStoredResponse. change truncated with ("...(truncated" +:+ String ")"%char ""). rewrite <- string_app_assoc.
  set (q := p +:+ "...(truncated"). destruct (trim_space_snoc ")"%char q) as [q' ->]; [done..|].
  assert ((q' +:+ String ")"%char "" =s? "") = false) as -> by by destruct q'.
  unfold unmarshal. rewrite paren_no_document. by eexists.
Qed.
End Alone.

(** A record that has not expired decides the answer.  A request that finds
    the unexpired record of its key gets a conflict when the payload differs,
    the stored response when the first execution succeeded, a conflict with a
    retry hint while it runs or backs off, in all these cases without running
    the executor and without touching the table. *)
Theorem unexpired_record_answers (datetime : Z -> Z) (c : IdempotencyCoordinator) (opts : IdempotencyExecuteOptions)
    (scope keyHash fingerprint : string) (w : world) (r : IdempotencyRecord) (a : outcome IdempotencyExecuteResult) :
  admitted c opts scope keyHash fingerprint -> find_row scope keyHash (the_table w) = Some r ->
  clock w < ExpiresAt r -> answer_of r fingerprint (clock w) = Some a ->
  alone datetime (Execute c opts true) w = (a, w).
Proof. intros Ha Hr He Hans. rewrite (execute_contends _ _ _ _ _ _ _ _ Ha Hr). by eapply contend_answer. Qed.

(** C20: The second request with a key replays the response of the first.  When
    the first one succeeds and its response is stored whole, a second one with
    the same payload, any time before the record expires, gets the decoded
    stored response, and the executor is called once in all; when the response
    was longer than the limit, its stored text is cut and is not JSON any more,
    so the second request fails with IDEMPOTENCY_STORE_UNAVAILABLE. *)
Theorem second_request_replays (datetime : Z -> Z) (c : IdempotencyCoordinator) (opts : IdempotencyExecuteOptions)
    (scope keyHash fingerprint : string) (w : world) (later : Z) (d : Enc) (raw : string) :
  admitted c opts scope keyHash fingerprint -> fresh_for (scope, keyHash) (the_table w) -> 0 < next_id (the_table w) ->
  result w = Success d -> marshal d = Ok raw -> later < datetime (clock w + effective_ttl c opts) ->
  let limit := MaxStoredResponseLen (cfg c) in
  let stored := RedactText raw [] in
  let '(first, w1) := alone datetime (Execute c opts true) w in
  let '(second, w2) := alone datetime (Execute c opts true) (w1 <| clock := later |>) in
  first = Success (mkIdempotencyExecuteResult (Returned d) false) /\
  calls w1 = S (calls w) /\ calls w2 = S (calls w) /\
  if (0 <? limit) && (limit <? Z.of_nat (String.length stored))
  then exists cause, second = Failure (WithCause ErrIdempotencyStoreUnavail cause)
  else second = match decodeStoredResponse (Some stored) with
                | Success v => Success (mkIdempotencyExecuteResult (Decoded v) true)
                | Failure e => Failure (WithCause ErrIdempotencyStoreUnavail e)
                end.
Proof.
  intros Ha Hf Hid Hres Hraw Hlater limit stored.
  assert (Hbody : exists body, marshalStoredResponse c d = Success body /\ body =
    if (0 <? limit) && (limit <? Z.of_nat (String.length stored)) then take_bytes (Z.to_nat limit) stored +:+ truncated else stored).
  { unfold marshalStoredResponse. rewrite Hraw. eexists. split; reflexivity. }
  destruct Hbody as (body & Hbody & Hb).
  destruct (first_succeeds datetime c _ _ _ _ _ _ _ Ha Hf Hid Hres Hbody) as (r & -> & Hk & Hfp & Hst & Hrb & He).
  set (w1 := _ <| clock := later |>).
  assert (Hr : find_row scope keyHash (the_table w1) = Some r).
  { apply find_row_put; [done|]. intros i x Hx _. destruct Hf as [_ Hf]. by eapply Hf. }
  rewrite (execute_contends _ _ _ _ _ _ _ _ Ha Hr).
  rewrite (contend_answer _ _ _ _ _ _ _ _ (match decodeStoredResponse (Some body) with
          | Success v => Success (mkIdempotencyExecuteResult (Decoded v) true)
          | Failure e => Failure (WithCause ErrIdempotencyStoreUnavail e)
          end) Hr).
  - cbn [calls]. split_and!; [done..|]. rewrite Hb. destruct (_ && _); [|done].
    destruct (truncated_undecodable (take_bytes (Z.to_nat limit) stored)) as [e ->]. by exists e.
  - cbn. by rewrite He.
  - unfold answer_of. rewrite Hfp, Hst, Hrb, String.eqb_refl. done.
Qed.

(** ** The hint of a conflict *)

Lemma Atoi_pretty z : 0 < z <= max_int64 -> Atoi (pretty z) = Some z.
Proof.
  intros Hz. destruct (pretty_positive z) as (c & d & E & Hc & Hd & Hv); [lia|]. rewrite E in Hv |- *. cbn [Atoi].
  assert (Ascii.eqb c "+"%char = false /\ Ascii.eqb c "-"%char = false) as [-> E'].
  { revert Hc. clear. each_byte c; intros H; try discriminate H; split; by_vm. }
  rewrite E'. unfold parse_int64. rewrite E', Hv. cbn [mbind option_bind].
  destruct (Z.leb_spec min_int64 z); [|unfold min_int64 in *; lia]. destruct (Z.leb_spec z max_int64); [done|lia].
Qed.

(** A client that is told to come back is told when: the seconds read out of
    a conflict are the whole seconds left on the lock, and never less than one,
    also when the lock has already passed. *)
Theorem retry_hint_seconds (code : Z) (reason message : string) (lockedUntil now : Z) :
  int64_range (lockedUntil - now) ->
  let seconds := RetryAfterSecondsFromError (conflictWithRetryAfter (New code reason message) (Some lockedUntil) now) in
  seconds = Z.max 1 (Z.quot (lockedUntil - now) second) /\
  (second <= lockedUntil - now -> seconds * second <= lockedUntil - now < (seconds + 1) * second).
Proof.
  intros Hr. cbn zeta. set (q := Z.quot (lockedUntil - now) second).
  assert (E : RetryAfterSecondsFromError (conflictWithRetryAfter (New code reason message) (Some lockedUntil) now) = Z.max 1 q).
  { unfold conflictWithRetryAfter. fold q. set (v := if q <=? 0 then 1 else q).
    assert (Hv : v = Z.max 1 q) by (unfold v; destruct (Z.leb_spec q 0); lia).
    assert (Hb : 0 < v <= max_int64).
    { rewrite Hv. unfold int64_range, max_int64, q, second in *.
      pose proof (Z.quot_le_upper_bound (lockedUntil - now) 1000000000 (2 ^ 63 - 1)). lia. }
    cbn [RetryAfterSecondsFromError as_application WithMetadata New metadata]. destruct (pretty_positive v) as (c & d & Ep & Hc & Hd & _); [lia|].
    rewrite String.eqb_refl, trim_space_none.
    - rewrite (Atoi_pretty v Hb). destruct (pretty v =s? "") eqn:E; [apply String.eqb_eq in E; by rewrite Ep in E|].
      destruct (Z.leb_spec v 0); [lia | done].
    - rewrite Ep. apply all_digits_bytes; [|cbn; by rewrite Hc, Hd].
      intros x. each_byte x; intros H; try discriminate H; by_vm. }
  split; [exact E|]. intros Hs. rewrite E. unfold q, second in *. rewrite Z.quot_div_nonneg by lia.
  pose proof (Z.div_mod (lockedUntil - now) 1000000000 ltac:(done)). pose proof (Z.mod_pos_bound (lockedUntil - now) 1000000000 ltac:(done)).
  pose proof (Z.div_le_lower_bound (lockedUntil - now) 1000000000 1). lia.
Qed.

Lemma retry_hint_seconds_witness :
  let seconds := RetryAfterSecondsFromError (conflictWithRetryAfter ErrIdempotencyInProgress (Some (29 * second + 7)) 0) in
  seconds = 29.
Proof. apply (retry_hint_seconds 409 _ _ (29 * second + 7) 0). split; vm_compute; congruence. Defined.
