(* ===== verification/IdempotencyRuns.v ===== *)
(** * Schedules of idempotent requests

    Runs computed from a list of moves: each is a run of the system, and some
    of them show what the guarantees need. *)

From S2P Require Import Prelude GoStrings Json AnyJson LogRedact AppErrors Program.
From S2P Require Import Idempotency IdempotencySafety IdempotencySpec.

(** ** Moves *)

Inductive move : Type :=
| Arrive (opts : IdempotencyExecuteOptions)   (* a request arrives *)
| Until (t : Z)                               (* time passes *)
| Go (i : nat) (n : nat) (answer : outcome Enc). (* thread [i] makes [n] steps *)

Section Moves.
Variable datetime : Z -> Z.
Variable c : IdempotencyCoordinator.
Variable least_ttl : Z.

Definition advance (answer : outcome Enc) (i : nat) (s : system) : option system :=
  th ← pool s !! i;
  match th_prog th with
  | Ret _ => None
  | Do cm k =>
      let '(r, w) := handle datetime _ cm (mkworld (store s) (time s) answer 0) in
      Some (mksystem (the_table w) (time s) (<[i := mkthread (th_key th) (k r)]> (pool s))
              (successes s ++ success_of (th_key th) (executor_success cm r)))
  end.

Fixpoint advance_n (n : nat) (answer : outcome Enc) (i : nat) (s : system) : option system :=
  match n with
  | O => Some s
  | S n => s ← advance answer i s; advance_n n answer i s
  end.

Definition make (m : move) (s : system) : option system :=
  match m with
  | Arrive opts =>
      if least_ttl <=? effective_ttl c opts then Some (s <| pool := (pool s ++ [request c opts])%list |>) else None
  | Until t => if time s <=? t then Some (s <| time := t |>) else None
  | Go i n answer => advance_n n answer i s
  end.

(** The system after the moves; where it was when a move is not possible. *)
Fixpoint after (ms : list move) (s : system) : system :=
  match ms with
  | [] => s
  | m :: ms => match make m s with Some s => after ms s | None => s end
  end.

Lemma on_table_answers {A} (effect : table -> A * table) w :
  statement effect (the_table w) (fst (on_table effect w)) (the_table (snd (on_table effect w))).
Proof. unfold on_table. destruct w as [t now res n]. cbn. by destruct (effect t) as [a t'] eqn:E. Qed.

Lemma handle_answers {R} (cm : cmd R) w :
  answers datetime cm (clock w) (the_table w) (fst (handle datetime _ cm w)) (the_table (snd (handle datetime _ cm w))).
Proof. destruct cm; cbn -[on_table statement]; try apply on_table_answers; try done. Qed.

Lemma advance_step answer i s s' : advance answer i s = Some s' -> step datetime c least_ttl s s'.
Proof.
  unfold advance. destruct (pool s !! i) as [th|] eqn:Eth; [|done]. cbn [mbind option_bind].
  destruct (th_prog th) as [|R cm k] eqn:Ep; [done|].
  pose proof (handle_answers cm (mkworld (store s) (time s) answer 0)) as Ha.
  destruct (handle _ _ cm _) as [r w]. intros [= <-]. eapply step_thread; [exact Eth | exact Ep | exact Ha].
Qed.

Lemma advance_run n answer i s s' : advance_n n answer i s = Some s' -> rtc (step datetime c least_ttl) s s'.
Proof.
  revert s. induction n as [|n IH]; intros s; [by intros [= ->]|]. cbn [advance_n].
  destruct (advance answer i s) as [s1|] eqn:E; [|done]. cbn [mbind option_bind]. intros H.
  eapply rtc_l; [by eapply advance_step | by apply IH].
Qed.

Lemma after_run ms s : rtc (step datetime c least_ttl) s (after ms s).
Proof.
  revert s. induction ms as [|m ms IH]; intros s; [done|]. cbn [after].
  destruct (make m s) as [s'|] eqn:E; [|done]. etrans; [|apply IH]. destruct m as [opts|t|i n answer]; cbn [make] in E.
  - destruct (Z.leb_spec least_ttl (effective_ttl c opts)); [|done]. injection E as <-. by apply rtc_once, step_request.
  - destruct (Z.leb_spec (time s) t); [|done]. injection E as <-. by apply rtc_once, step_tick.
  - by eapply advance_run.
Qed.
End Moves.

(** ** Samples *)

Definition coordinator : IdempotencyCoordinator := mkIdempotencyCoordinator true DefaultIdempotencyConfig.
Definition day : Z := 24 * 3600 * second.

Definition sample_opts : IdempotencyExecuteOptions :=
  mkIdempotencyExecuteOptions "admin.redeem_codes.generate" "admin:1" "POST" "/redeem" "k-1" (enc_int 3) 0 true.
Definition sample_hash : string := Eval vm_compute in HashIdempotencyKey "k-1".
Definition sample_key : string * string := ("admin.redeem_codes.generate", sample_hash).
Definition sample_fingerprint : string :=
  Eval vm_compute in match BuildIdempotencyFingerprint "POST" "/redeem" "admin:1" (enc_int 3) with Success f => f | Failure _ => "" end.

Definition no_rows : table := mktable ∅ 1.
Definition codes : Enc := enc_object [mem "code" (enc_string "A1B2"); mem "id" (enc_int 7)].

Lemma no_rows_fresh : fresh_for sample_key no_rows.
Proof. by split. Qed.

Lemma sample_admitted : admitted coordinator sample_opts "admin.redeem_codes.generate" sample_hash sample_fingerprint.
Proof. constructor; vm_compute; (reflexivity || discriminate). Qed.

(** Two requests: the first is in its executor, the second asks again. *)
Definition two_requests : system :=
  after microseconds coordinator day [Arrive sample_opts; Arrive sample_opts; Go 0 2 (Success codes); Go 1 3 (Success codes);
    Go 0 2 (Success codes)] (initial no_rows 0).

Definition executing_at (key : string * string) (s : system) (i : nat) : bool :=
  match pool s !! i with
  | Some th => bool_decide (th_key th = Some key) && match th_prog th with Do ExecutorReturns _ => true | _ => false end
  | None => false
  end.

Lemma executing_at_executing key s i : executing_at key s i = true -> executing key s i.
Proof.
  unfold executing_at, executing. destruct (pool s !! i) as [th|]; [|done]. intros [Hk Hp]%andb_prop.
  apply bool_decide_eq_true in Hk. destruct (th_prog th) as [|R cm k] eqn:E; [done|]. destruct cm; try done. by exists th, k.
Qed.

Lemma executions_exclusive_witness : executing sample_key two_requests 0 /\ (successes_of sample_key two_requests <= 1)%nat.
Proof.
  split; [apply executing_at_executing; vm_compute; reflexivity|].
  apply (executions_exclusive microseconds coordinator sample_key no_rows 0 day two_requests no_rows_fresh).
  - apply after_run.
  - vm_compute. reflexivity.
Defined.

Definition processing : IdempotencyRecord :=
  mkIdempotencyRecord 1 "admin.redeem_codes.generate" sample_hash sample_fingerprint IdempotencyStatusProcessing None None None
    (Some (30 * second)) day.
Definition processing_world : world := mkworld (mktable {[1 := processing]} 2) (10 * second) (Success codes) 0.

Lemma processing_found : find_row "admin.redeem_codes.generate" sample_hash (the_table processing_world) = Some processing.
Proof. vm_compute. reflexivity. Qed.

Lemma processing_answer : answer_of processing sample_fingerprint (10 * second) =
  Some (Failure (WithMetadata ErrIdempotencyInProgress [("retry_after", "20")])).
Proof. vm_compute. reflexivity. Qed.

Lemma unexpired_record_answers_witness :
  alone microseconds (Execute coordinator sample_opts true) processing_world =
  (Failure (WithMetadata ErrIdempotencyInProgress [("retry_after", "20")]), processing_world).
Proof.
  apply (unexpired_record_answers microseconds coordinator sample_opts _ _ _ processing_world processing _ sample_admitted
           processing_found); [reflexivity | exact processing_answer].
Defined.

Definition first_world : world := mkworld no_rows 0 (Success codes) 0.

Lemma codes_whole :
  (0 <? MaxStoredResponseLen (cfg coordinator)) &&
  (MaxStoredResponseLen (cfg coordinator) <? Z.of_nat (String.length (RedactText (dq "{'code':'A1B2','id':7}") []))) = false.
Proof. vm_compute. reflexivity. Qed.

Lemma codes_replayed :
  decodeStoredResponse (Some (RedactText (dq "{'code':'A1B2','id':7}") [])) = Success (AMap [("code", AStr "***"); ("id", ANum "7")]).
Proof. vm_compute. reflexivity. Qed.

Lemma second_request_replays_witness :
  fst (alone microseconds (Execute coordinator sample_opts true)
         (snd (alone microseconds (Execute coordinator sample_opts true) first_world) <| clock := second |>)) =
  Success (mkIdempotencyExecuteResult (Decoded (AMap [("code", AStr "***"); ("id", ANum "7")])) true).
Proof.
  pose proof (second_request_replays microseconds coordinator sample_opts _ _ _ first_world second codes (dq "{'code':'A1B2','id':7}")
                sample_admitted no_rows_fresh eq_refl eq_refl ltac:(vm_compute; reflexivity) ltac:(vm_compute; reflexivity)) as H.
  cbn zeta in H. destruct (alone _ _ first_world) as [a1 w1]. cbn [snd]. destruct (alone _ _ (w1 <| clock := second |>)) as [a2 w2].
  cbn [fst]. destruct H as (_ & _ & _ & H). rewrite codes_whole, codes_replayed in H. exact H.
Defined.

(** ** An expired record executed twice

    TryReclaim compares the status the caller saw, not the expiry: between the
    reading of an expired success and its reclaim another request may have
    reclaimed the record, executed and succeeded again. *)

Definition reclaimed : system :=
  after microseconds coordinator day
    [Arrive sample_opts; Go 0 6 (Success codes);          (* a first success *)
     Until (2 * day); Arrive sample_opts; Arrive sample_opts;
     Go 1 3 (Success codes); Go 2 3 (Success codes);      (* both read the expired record *)
     Go 1 4 (Success codes)]                              (* one reclaims, executes, succeeds *)
    (initial no_rows 0).

Definition reexecuted : system := after microseconds coordinator day [Go 2 4 (Success codes)] reclaimed.

(** Outside the first time to live the guarantee is lost: a request that read
    the expired record before another one reclaimed it reclaims the record
    again after that one has succeeded, and executes a second time although
    the record is succeeded and unexpired, all at one instant. *)
Theorem expired_record_executed_twice :
  exists s s', rtc (step microseconds coordinator day) (initial no_rows 0) s /\ rtc (step microseconds coordinator day) s s' /\
    (exists r, find_row "admin.redeem_codes.generate" sample_hash (store s) = Some r /\
       Status r = IdempotencyStatusSucceeded /\ time s < ExpiresAt r) /\
    time s' = time s /\ successes_of sample_key s = 2%nat /\ successes_of sample_key s' = 3%nat.
Proof.
  exists reclaimed, reexecuted. split; [apply after_run|]. split; [apply after_run|].
  split; [eexists; vm_compute; split_and!; reflexivity|]. split_and!; vm_compute; reflexivity.
Qed.
