(* ===== verification/GroupRoutes.v ===== *)
(** * Routes of an API key over groups (internal/handler/gateway_handler.go)

    An API key may name several groups to serve its requests, in an order of
    preference.  A circuit breaker, shared by all requests, keeps a group out
    for a while after it failed; a cursor walks a request through the groups
    that are left. *)

From Stdlib Require Import Sorting.Sorted.
From S2P Require Import Prelude GoStrings.

(** ** Data *)

(** What routing reads of a group and of a key. *)
Record Group : Type := mkGroup { group_ID : Z; ClaudeCodeOnly : bool }.

Record APIKeyGroupRoute : Type := mkAPIKeyGroupRoute {
  route_GroupID : Z;
  Priority : Z;
  Weight : Z;
  Enabled : bool;
  CooldownSeconds : Z;
  route_Group : option Group;
}.

Record APIKey : Type := mkAPIKey {
  key_ID : Z;
  key_GroupID : option Z;
  key_Group : option Group;
  GroupRoutes : list APIKeyGroupRoute;
}.
#[export] Instance eta_APIKey : Settable APIKey := fun k => mkAPIKey (key_ID k) (key_GroupID k) (key_Group k) (GroupRoutes k).

Record apiKeyGroupRouteCandidate : Type := mkCandidate { cand_APIKey : APIKey; cand_Route : APIKeyGroupRoute }.

Definition cloneAPIKeyWithGroup (apiKey : APIKey) (group : option Group) : APIKey :=
  match group with
  | None => apiKey
  | Some g => apiKey <| key_GroupID := Some (group_ID g) |> <| key_Group := Some g |>
  end.

(** ** The circuit breaker *)

Module Breaker.
(** Times are nanoseconds; a zero time is [None]. *)
Record apiKeyGroupRouteBreakerState : Type := mkState { cooldownUntil : option Z; failures : Z }.

Abbreviation breaker := (gmap string apiKeyGroupRouteBreakerState).

Definition apiKeyGroupRouteBreakerKey (apiKeyID groupID : Z) : string := pretty apiKeyID +:+ ":" +:+ pretty groupID.

Definition unkeyed (apiKeyID groupID : Z) : bool := (apiKeyID <=? 0) || (groupID <=? 0).

Definition available (apiKeyID groupID now : Z) (b : breaker) : bool * breaker :=
  if unkeyed apiKeyID groupID then (true, b) else
  let key := apiKeyGroupRouteBreakerKey apiKeyID groupID in
  match b !! key with
  | None => (true, b)
  | Some st =>
      match cooldownUntil st with
      | None => (true, b)
      | Some t => if now <? t then (false, b) else (true, delete key b)
      end
  end.

Definition second : Z := 1000000000.

(** [1 << min(state.failures-1, 4)], after the count was raised. *)
Definition multiplier (failures : Z) : Z := Z.shiftl 1 (Z.min (failures - 1) 4).

Definition recordFailure (apiKeyID groupID cooldownSeconds now : Z) (b : breaker) : breaker :=
  if unkeyed apiKeyID groupID then b else
  let cooldownSeconds := if cooldownSeconds <=? 0 then 30 else cooldownSeconds in
  let key := apiKeyGroupRouteBreakerKey apiKeyID groupID in
  let state := default (mkState None 0) (b !! key) in
  let failures := add64 (failures state) 1 in
  <[key := mkState (Some (now + mul64 (mul64 cooldownSeconds (multiplier failures)) second)) failures]> b.

Definition recordSuccess (apiKeyID groupID : Z) (b : breaker) : breaker :=
  if unkeyed apiKeyID groupID then b else delete (apiKeyGroupRouteBreakerKey apiKeyID groupID) b.
End Breaker.

(** ** Candidates *)

(** The order of [sort.SliceStable]: priority, then the greater weight, then the
    group. *)
Definition route_before (a b : APIKeyGroupRoute) : bool :=
  if negb (Priority a =? Priority b) then Priority a <? Priority b
  else if negb (Weight a =? Weight b) then Weight b <? Weight a
  else route_GroupID a <? route_GroupID b.

Fixpoint insert_route (r : APIKeyGroupRoute) (l : list APIKeyGroupRoute) : list APIKeyGroupRoute :=
  match l with
  | [] => [r]
  | x :: l' => if route_before x r then x :: insert_route r l' else r :: l
  end.

(** Stable: of equal routes the first stays first. *)
Definition sort_routes (l : list APIKeyGroupRoute) : list APIKeyGroupRoute := foldr insert_route [] l.

Definition default_route (groupID : Z) (group : option Group) : APIKeyGroupRoute :=
  mkAPIKeyGroupRoute groupID 100 1 true 30 group.

(** The loop over the sorted routes. *)
Fixpoint add_candidates (apiKey : APIKey) (now : Z) (routes : list APIKeyGroupRoute) (b : Breaker.breaker)
    : list apiKeyGroupRouteCandidate * Breaker.breaker :=
  match routes with
  | [] => ([], b)
  | route :: routes =>
      if negb (Enabled route) || match route_Group route with None => true | Some _ => false end || (route_GroupID route <=? 0)
      then add_candidates apiKey now routes b
      else
        let '(ok, b) := Breaker.available (key_ID apiKey) (route_GroupID route) now b in
        let '(rest, b) := add_candidates apiKey now routes b in
        ((if ok : bool then [mkCandidate (cloneAPIKeyWithGroup apiKey (route_Group route)) route] else []) ++ rest, b)%list
  end.

Definition buildAPIKeyGroupRouteCandidates (apiKey : APIKey) (now : Z) (b : Breaker.breaker)
    : (list apiKeyGroupRouteCandidate * bool) * Breaker.breaker :=
  let routes := GroupRoutes apiKey in
  let hasConfiguredRoutes := match routes with [] => false | _ => true end in
  let routes :=
    match routes, key_GroupID apiKey, key_Group apiKey with
    | [], Some g, Some group => [default_route g (Some group)]
    | _, _, _ => routes
    end in
  let '(candidates, b) := add_candidates apiKey now (sort_routes routes) b in
  match candidates, key_GroupID apiKey, key_Group apiKey with
  | [], Some g, Some group =>
      if hasConfiguredRoutes then (([], false), b)
      else (([mkCandidate (cloneAPIKeyWithGroup apiKey (Some group)) (default_route g (Some group))], true), b)
  | [], None, _ => (([mkCandidate apiKey (default_route 0 None)], true), b)
  | [], _, _ => (([], false), b)
  | _, _, _ => ((candidates, true), b)
  end.

(** ** The cursor *)

Record apiKeyGroupRouteCursor : Type := mkCursor { candidates : list apiKeyGroupRouteCandidate; index : nat; available : bool }.

Definition newAPIKeyGroupRouteCursorFromCandidates (c : list apiKeyGroupRouteCandidate) (available : bool) : apiKeyGroupRouteCursor :=
  mkCursor c 0 available.

(** A candidate always has a key here. *)
Definition current (c : apiKeyGroupRouteCursor) : option apiKeyGroupRouteCandidate :=
  if available c then candidates c !! index c else None.

Definition hasNext (c : apiKeyGroupRouteCursor) : bool := available c && (S (index c) <? length (candidates c))%nat.

Definition advance (c : apiKeyGroupRouteCursor) : apiKeyGroupRouteCursor := mkCursor (candidates c) (S (index c)) (available c).

(** * Which routes a request is offered

    The candidates are the usable routes in order of preference; the circuit
    breaker keeps a failed group out for its cooldown, which does not grow for
    failures that come one after the other. *)

(** ** The breaker *)

(** Checking a route does not change what the same instant says of any route. *)
Lemma available_stable id g g' now b :
  fst (Breaker.available id g' now (snd (Breaker.available id g now b))) = fst (Breaker.available id g' now b).
Proof.
  unfold Breaker.available. destruct (Breaker.unkeyed id g); [done|]. destruct (Breaker.unkeyed id g'); [done|].
  set (key := Breaker.apiKeyGroupRouteBreakerKey id g). set (key' := Breaker.apiKeyGroupRouteBreakerKey id g').
  destruct (b !! key) as [[[t|] f]|] eqn:Eb; cbn [Breaker.cooldownUntil]; [|done..].
  destruct (now <? t) eqn:Et; cbn [snd]; [done|]. destruct (decide (key = key')) as [<-|Hne].
  - rewrite lookup_delete_eq, Eb. cbn. by rewrite Et.
  - rewrite lookup_delete_ne by done. destruct (b !! key') as [[[t'|] f']|]; cbn; [by destruct (now <? t')|done..].
Qed.

(** A request that checks a route and then, if it was let through, fails on it. *)
Definition attempt (id g cooldown : Z) (b : Breaker.breaker) (times : Z * Z) : Breaker.breaker :=
  let '(checked, failed) := times in
  let '(ok, b) := Breaker.available id g checked b in
  if ok : bool then Breaker.recordFailure id g cooldown failed b else b.

(** The state left by one failure at [t]. *)
Definition first_failure (cooldown t : Z) : Breaker.apiKeyGroupRouteBreakerState :=
  Breaker.mkState (Some (t + mul64 (mul64 (if cooldown <=? 0 then 30 else cooldown) 1) Breaker.second)) 1.

Lemma attempt_state id g cooldown b times : Breaker.unkeyed id g = false ->
  let key := Breaker.apiKeyGroupRouteBreakerKey id g in
  (forall st, b !! key = Some st -> exists t, st = first_failure cooldown t) ->
  exists t, attempt id g cooldown b times !! key = Some (first_failure cooldown t).
Proof.
  intros Hk key Hb. destruct times as [checked failed]. unfold attempt, Breaker.available, Breaker.recordFailure.
  rewrite Hk. fold key. destruct (b !! key) as [st|] eqn:Eb.
  - destruct (Hb st eq_refl) as [t ->]. cbn [Breaker.cooldownUntil first_failure].
    set (u := t + _). destruct (checked <? u).
    + exists t. exact Eb.
    + rewrite lookup_delete_eq, lookup_insert_eq. cbn [default Breaker.failures]. by exists failed.
  - rewrite Eb, lookup_insert_eq. cbn [default Breaker.failures]. by exists failed.
Qed.

(** ** The order of the routes *)

(** [b] does not come before [a]. *)
Definition in_order (a b : APIKeyGroupRoute) : Prop := route_before b a = false.

Lemma route_before_spec a b : route_before a b = true <->
  Priority a < Priority b \/ (Priority a = Priority b /\ (Weight b < Weight a \/ (Weight a = Weight b /\ route_GroupID a < route_GroupID b))).
Proof.
  unfold route_before. destruct (Z.eqb_spec (Priority a) (Priority b)), (Z.eqb_spec (Weight a) (Weight b)); cbn [negb];
    rewrite Z.ltb_lt; lia.
Qed.

Lemma in_order_spec a b : in_order a b <->
  Priority a < Priority b \/ (Priority a = Priority b /\ (Weight b < Weight a \/ (Weight a = Weight b /\ route_GroupID a <= route_GroupID b))).
Proof.
  unfold in_order. pose proof (route_before_spec b a) as H. destruct (route_before b a).
  - split; [done|]. destruct H as [H _]. specialize (H eq_refl). lia.
  - split; [|done]. intros _. destruct H as [_ H]. assert (~ (false = true)) as Hn by done.
    destruct (decide (Priority a < Priority b)); [lia|]. right. split.
    + destruct (decide (Priority b < Priority a)); [|lia]. exfalso. apply Hn, H. lia.
    + destruct (decide (Weight b < Weight a)); [lia|]. right. split.
      * destruct (decide (Weight a < Weight b)); [|lia]. exfalso. apply Hn, H.
        destruct (decide (Priority b < Priority a)); lia.
      * destruct (decide (route_GroupID b < route_GroupID a)); [|lia]. exfalso. apply Hn, H.
        destruct (decide (Priority b < Priority a)), (decide (Weight a < Weight b)); lia.
Qed.

#[export] Instance in_order_trans : Transitive in_order.
Proof. intros a b c. rewrite !in_order_spec. lia. Qed.

Lemma in_order_total a b : route_before a b = true -> in_order a b.
Proof. rewrite route_before_spec, in_order_spec. lia. Qed.

Lemma insert_route_perm r l : insert_route r l ≡ₚ r :: l.
Proof.
  induction l as [|x l IH]; [done|]. cbn. destruct (route_before x r); [|done]. rewrite IH. constructor.
Qed.

Lemma insert_route_sorted r l : StronglySorted in_order l -> StronglySorted in_order (insert_route r l).
Proof.
  induction 1 as [|x l Hl IH Hx]; cbn; [by repeat constructor|]. destruct (route_before x r) eqn:E.
  - constructor; [done|]. rewrite insert_route_perm. constructor; [by apply in_order_total | done].
  - repeat (constructor; try done). eapply Forall_impl; [exact Hx|]. intros y. by apply in_order_trans.
Qed.

Lemma sort_routes_sorted l : StronglySorted in_order (sort_routes l).
Proof. induction l as [|r l IH]; [constructor | by apply insert_route_sorted]. Qed.

Lemma sort_routes_perm l : sort_routes l ≡ₚ l.
Proof. induction l as [|r l IH]; [done|]. cbn. by rewrite insert_route_perm, IH. Qed.

(** ** Candidates *)

Definition usable (apiKey : APIKey) (now : Z) (b : Breaker.breaker) (r : APIKeyGroupRoute) : bool :=
  Enabled r && match route_Group r with Some _ => true | None => false end && (0 <? route_GroupID r) &&
  fst (Breaker.available (key_ID apiKey) (route_GroupID r) now b).

Definition candidate_of (apiKey : APIKey) (r : APIKeyGroupRoute) : apiKeyGroupRouteCandidate :=
  mkCandidate (cloneAPIKeyWithGroup apiKey (route_Group r)) r.

Lemma add_candidates_spec apiKey now routes b b0 :
  (forall g, fst (Breaker.available (key_ID apiKey) g now b) = fst (Breaker.available (key_ID apiKey) g now b0)) ->
  fst (add_candidates apiKey now routes b) = map (candidate_of apiKey) (List.filter (usable apiKey now b0) routes).
Proof.
  revert b. induction routes as [|r routes IH]; intros b Hb; [done|]. cbn [add_candidates List.filter].
  unfold usable at 1. destruct (Enabled r); cbn [negb andb orb]; [|by apply IH].
  destruct (route_Group r) eqn:Eg; cbn [andb orb]; [|by apply IH].
  destruct (Z.leb_spec (route_GroupID r) 0) as [Hg|Hg].
  { destruct (Z.ltb_spec 0 (route_GroupID r)); [lia|]. cbn [andb]. by apply IH. }
  destruct (Z.ltb_spec 0 (route_GroupID r)); [|lia]. cbn [andb].
  pose proof (fun g => available_stable (key_ID apiKey) (route_GroupID r) g now b) as Hst.
  rewrite <- Hb. destruct (Breaker.available (key_ID apiKey) (route_GroupID r) now b) as [ok b1]. cbn [fst snd] in *.
  specialize (IH b1 (fun g => eq_trans (Hst g) (Hb g))). destruct (add_candidates apiKey now routes b1) as [rest b2].
  cbn [fst] in *. destruct ok; cbn [app map]; rewrite IH; [|done]. unfold candidate_of at 2. by rewrite Eg.
Qed.

(** A key with routes is offered exactly its usable routes - enabled, with a
    group, not kept out by the breaker at this instant - in the order of
    priority, weight and group, each with the key set to its group.  When none
    is usable it has no route at all, unless the key has no group of its own,
    in which case it is let through ungrouped. *)
Theorem candidates_ordered (apiKey : APIKey) (now : Z) (b : Breaker.breaker) :
  GroupRoutes apiKey <> [] ->
  let '((cands, avail), _) := buildAPIKeyGroupRouteCandidates apiKey now b in
  exists sorted, sorted ≡ₚ GroupRoutes apiKey /\ StronglySorted in_order sorted /\
    match List.filter (usable apiKey now b) sorted with
    | [] => match key_GroupID apiKey with
            | None => cands = [mkCandidate apiKey (default_route 0 None)] /\ avail = true
            | Some _ => cands = [] /\ avail = false
            end
    | served => cands = map (candidate_of apiKey) served /\ avail = true
    end.
Proof.
  intros Hr. unfold buildAPIKeyGroupRouteCandidates.
  assert (Er : forall (A : Type) (x : A) (f : Z -> Group -> A), match GroupRoutes apiKey, key_GroupID apiKey, key_Group apiKey with
      | [], Some g, Some group => f g group | _, _, _ => x end = x) by (intros; by destruct (GroupRoutes apiKey)).
  rewrite Er. clear Er. pose proof (add_candidates_spec apiKey now (sort_routes (GroupRoutes apiKey)) b b (fun _ => eq_refl)) as Ha.
  destruct (add_candidates apiKey now (sort_routes (GroupRoutes apiKey)) b) as [cands b']. cbn [fst] in Ha.
  destruct (List.filter _ (sort_routes _)) as [|r served] eqn:Ef; cbn [map] in Ha; subst cands.
  - destruct (GroupRoutes apiKey) as [|r0 routes] eqn:Eg; [done|].
    destruct (key_GroupID apiKey) as [g|]; [destruct (key_Group apiKey)|];
      (exists (sort_routes (r0 :: routes)); split_and!; [apply sort_routes_perm | apply sort_routes_sorted | by rewrite Ef]).
  - destruct (key_GroupID apiKey); (exists (sort_routes (GroupRoutes apiKey)); split_and!;
      [apply sort_routes_perm | apply sort_routes_sorted | by rewrite Ef]).
Qed.

(** The cooldown of a route never grows for failures that come one after the
    other: whatever the history of requests that each check the route and fail
    on it before the next one checks, one failure is on record, because the
    check that lets the next request through deletes the expired record with
    its count; so the wait is always the base cooldown. *)
Theorem sequential_failures_never_back_off (id g cooldown : Z) (history : list (Z * Z)) :
  Breaker.unkeyed id g = false -> history <> [] ->
  exists t, foldl (attempt id g cooldown) ∅ history !! Breaker.apiKeyGroupRouteBreakerKey id g = Some (first_failure cooldown t).
Proof.
  intros Hk Hh. destruct history as [|times history _] using rev_ind; [done|]. rewrite foldl_app. cbn.
  apply attempt_state; [done|]. clear times Hh. induction history as [|times history IH] using rev_ind.
  - intros st H. discriminate H.
  - intros st H. rewrite foldl_app in H. cbn in H.
    destruct (attempt_state id g cooldown _ times Hk IH) as [t Ht]. cbn zeta in Ht. rewrite Ht in H. injection H as <-. by exists t.
Qed.

(** Two requests that both checked before either failed do back off. *)
Example concurrent_failures_back_off :
  let b := Breaker.recordFailure 1 7 30 10 (Breaker.recordFailure 1 7 30 10 ∅) in
  b !! Breaker.apiKeyGroupRouteBreakerKey 1 7 = Some (Breaker.mkState (Some (10 + 60 * Breaker.second)) 2).
Proof. vm_compute. reflexivity. Qed.

Definition two_routes : APIKey :=
  mkAPIKey 1 (Some 7) None [mkAPIKeyGroupRoute 8 50 1 true 30 (Some (mkGroup 8 false));
                            mkAPIKeyGroupRoute 7 10 1 true 30 (Some (mkGroup 7 false))].

Lemma candidates_ordered_witness :
  let '((cands, avail), _) := buildAPIKeyGroupRouteCandidates two_routes 0 ∅ in
  exists sorted, sorted ≡ₚ GroupRoutes two_routes /\ StronglySorted in_order sorted /\
    match List.filter (usable two_routes 0 ∅) sorted with
    | [] => cands = [] /\ avail = false
    | served => cands = map (candidate_of two_routes) served /\ avail = true
    end.
Proof. apply (candidates_ordered two_routes 0 ∅). discriminate. Defined.

Lemma sequential_failures_never_back_off_witness :
  exists t, foldl (attempt 1 7 30) ∅ [(0, 1); (40 * Breaker.second, 41 * Breaker.second)] !!
    Breaker.apiKeyGroupRouteBreakerKey 1 7 = Some (first_failure 30 t).
Proof. apply sequential_failures_never_back_off; [reflexivity | discriminate]. Defined.
