(* ===== verification/Failover.v ===== *)
(** * Account failover of the gateway handlers (internal/handler/failover_loop.go,
    gateway_handler_chat_completions.go, gateway_handler_responses.go)

    A request selects an account, takes its slot and forwards; when the upstream
    fails it retries the account, switches to another one, backs off or moves
    to the next route of its key.  The handler is a program over the services
    it calls; what it leaves unanswered is its response. *)

From S2P Require Import Prelude GoStrings Program GroupRoutes.

(** ** Data *)

(** The response body and headers matter only to the error that is shown. *)
Record UpstreamFailoverError : Type := mkUpstreamFailoverError {
  StatusCode : Z;
  err_ForceCacheBilling : bool;
  RetryableOnSameAccount : bool;
}.

Inductive FailoverAction : Type := FailoverContinue | FailoverExhausted | FailoverCanceled.

Definition maxSameAccountRetries : Z := 3.
Definition millisecond : Z := 1000000.
Definition sameAccountRetryDelay : Z := 500 * millisecond.
Definition singleAccountBackoffDelay : Z := 2000 * millisecond.
Definition PlatformAntigravity : string := "antigravity".

Record FailoverState : Type := mkFailoverState {
  SwitchCount : Z;
  MaxSwitches : Z;
  FailedAccountIDs : gset Z;
  SameAccountRetryCount : gmap Z Z;
  LastFailoverErr : option UpstreamFailoverError;
  ForceCacheBilling : bool;
  hasBoundSession : bool;
}.
#[export] Instance eta_FailoverState : Settable FailoverState := fun s =>
  mkFailoverState (SwitchCount s) (MaxSwitches s) (FailedAccountIDs s) (SameAccountRetryCount s) (LastFailoverErr s)
    (ForceCacheBilling s) (hasBoundSession s).

Definition NewFailoverState (maxSwitches : Z) (hasBoundSession : bool) : FailoverState :=
  mkFailoverState 0 maxSwitches ∅ ∅ None false hasBoundSession.

(** The result of SelectAccountWithLoadAwareness: an account, with its slot when
    it was free, else perhaps a plan to wait for one. *)
Record selection : Type := mkselection { sel_Account : Z; sel_Platform : string; Acquired : bool; WaitPlan : bool }.

(** What Forward did: it served the request, failed with an
    UpstreamFailoverError, or with any other error (a connection that cannot be
    made, a body that cannot be converted).  The flag says whether bytes were
    written. *)
Inductive forward_result : Type :=
| Forwarded
| FailoverFailure (err : UpstreamFailoverError) (wrote : bool)
| OtherFailure.

(** What the handler ends with. *)
Inductive response : Type :=
| NoRoute                         (* 503 No available API key group routes *)
| SubscriptionRefused
| ClaudeCodeRequired              (* 403 *)
| BillingRefused
| ModelNotFound
| NoAccounts                      (* 503 No available accounts *)
| Exhausted (err : UpstreamFailoverError) (streamStarted : bool)
| AllExhausted                    (* 502 *)
| SlotRefused                     (* handleConcurrencyError *)
| ForwardError
| Served (account : Z)
| Canceled.

(** What Submit of the UsageRecordWorkerPool does with a task; a dropped one is lost. *)
Inductive UsageRecordSubmitMode : Type := SubmitEnqueued | SubmitSync | SubmitDropped.

(** The services.  [RequestCanceled]: whether [c.Request.Context()] is canceled by
    now; [Sleep] is cut short then.  An upstream call is a beginning and a result. *)
Inductive cmd : Type -> Type :=
| ResolveRouteSubscription (key : APIKey) : cmd bool
| CheckBillingEligibility (key : APIKey) : cmd bool
| SelectAccount (key : APIKey) (excluded : gset Z) : cmd (option selection)
| ClassifyModelNotFound (key : APIKey) : cmd bool
| AcquireSlot (account : Z) : cmd (bool * bool)     (* acquired; the stream was started while waiting *)
| ReleaseSlot (account : Z) : cmd unit
| RequestCanceled : cmd bool
| Forward (account : Z) (key : APIKey) : cmd unit
| ForwardResult (account : Z) : cmd forward_result
| Sleep (d : Z) : cmd bool
| TempUnschedule (account : Z) : cmd unit
| RouteFailed (apiKeyID groupID cooldown : Z) : cmd unit   (* breaker.recordFailure *)
| RouteSucceeded (apiKeyID groupID : Z) : cmd unit         (* breaker.recordSuccess *)
| SubmitUsage (account : Z) : cmd UsageRecordSubmitMode.   (* submitUsageRecordTask *)

Abbreviation program := (prog cmd).

(** ** FailoverState *)

Definition sleepWithContext (d : Z) : program bool := if d <=? 0 then mret true else call (Sleep d).

Definition needForceCacheBilling (hasBoundSession : bool) (failoverErr : UpstreamFailoverError) : bool :=
  hasBoundSession || err_ForceCacheBilling failoverErr.

Definition retries (s : FailoverState) (account : Z) : Z := default 0 (SameAccountRetryCount s !! account).

(** The account is given up; another one may be tried. *)
Definition switch_account (s : FailoverState) (accountID : Z) (platform : string) : program (FailoverAction * FailoverState) :=
  let s := s <| FailedAccountIDs := {[accountID]} ∪ FailedAccountIDs s |> in
  if MaxSwitches s <=? SwitchCount s then mret (FailoverExhausted, s) else
  let s := s <| SwitchCount := SwitchCount s + 1 |> in
  if platform =s? PlatformAntigravity then
    slept ← sleepWithContext ((SwitchCount s - 1) * Breaker.second);
    mret (if slept : bool then FailoverContinue else FailoverCanceled, s)
  else mret (FailoverContinue, s).

Definition note_error (s : FailoverState) (failoverErr : UpstreamFailoverError) : FailoverState :=
  let s := s <| LastFailoverErr := Some failoverErr |> in
  if needForceCacheBilling (hasBoundSession s) failoverErr then s <| ForceCacheBilling := true |> else s.

Definition HandleFailoverError (s : FailoverState) (accountID : Z) (platform : string) (failoverErr : UpstreamFailoverError)
    : program (FailoverAction * FailoverState) :=
  let s := note_error s failoverErr in
  if RetryableOnSameAccount failoverErr && (retries s accountID <? maxSameAccountRetries) then
    let s := s <| SameAccountRetryCount := <[accountID := retries s accountID + 1]> (SameAccountRetryCount s) |> in
    slept ← sleepWithContext sameAccountRetryDelay;
    mret (if slept : bool then FailoverContinue else FailoverCanceled, s)
  else if RetryableOnSameAccount failoverErr then
    _ ← call (TempUnschedule accountID);
    switch_account s accountID platform
  else switch_account s accountID platform.

Definition HandleSelectionExhausted (s : FailoverState) : program (FailoverAction * FailoverState) :=
  if match LastFailoverErr s with Some e => StatusCode e =? 503 | None => false end && (SwitchCount s <=? MaxSwitches s) then
    slept ← sleepWithContext singleAccountBackoffDelay;
    mret (if slept : bool then (FailoverContinue, s <| FailedAccountIDs := ∅ |>) else (FailoverCanceled, s))
  else mret (FailoverExhausted, s).

(** ** Routes *)

Definition shouldSwitchAPIKeyGroupRoute (failoverErr : option UpstreamFailoverError) : bool :=
  match failoverErr with
  | None => false
  | Some e =>
      let c := StatusCode e in
      (c =? 429) || (c =? 502) || (c =? 503) || (c =? 504) || (c =? 529) || (500 <=? c)
  end.

Definition switchToNext (apiKeyID : Z) (c : apiKeyGroupRouteCursor) : program (option apiKeyGroupRouteCursor) :=
  if negb (hasNext c) then mret None else
  match current c with
  | None => mret None
  | Some cur =>
      _ ← call (RouteFailed apiKeyID (route_GroupID (cand_Route cur)) (CooldownSeconds (cand_Route cur)));
      mret (Some (advance c))
  end.

Definition skipToNext (c : apiKeyGroupRouteCursor) : option apiKeyGroupRouteCursor :=
  if negb (hasNext c) then None else
  match current c with None => None | Some _ => Some (advance c) end.

Definition recordSuccess (apiKeyID : Z) (c : apiKeyGroupRouteCursor) : program unit :=
  match current c with
  | None => mret tt
  | Some cur => call (RouteSucceeded apiKeyID (route_GroupID (cand_Route cur)))
  end.

Definition canSwitchAPIKeyGroupRouteAfterForward (c : apiKeyGroupRouteCursor) (failoverErr : option UpstreamFailoverError)
    (streamStarted wrote : bool) : bool :=
  hasNext c && shouldSwitchAPIKeyGroupRoute failoverErr && negb streamStarted && negb wrote.

(** ** The handler

    One iteration of the inner loop ends with a response, with the next route,
    or goes on with the state it leaves; [streamStarted] is set by the pings
    sent while waiting for a slot. *)

Inductive verdict : Type :=
| Respond (r : response)
| NextRoute (c : apiKeyGroupRouteCursor) (streamStarted : bool)
| Again (fs : FailoverState) (streamStarted : bool).

Section Handler.
Variable maxAccountSwitches : Z.
Variable apiKeyID : Z.

(** [continue routeLoop] when the cursor moves, else [otherwise]. *)
Definition next_route_or (c : apiKeyGroupRouteCursor) (streamStarted : bool) (otherwise : program verdict) : program verdict :=
  next ← switchToNext apiKeyID c;
  match next with Some c => mret (NextRoute c streamStarted) | None => otherwise end.

(** No account could be selected. *)
Definition selection_failed (key : APIKey) (c : apiKeyGroupRouteCursor) (fs : FailoverState) (streamStarted : bool) : program verdict :=
  if decide (FailedAccountIDs fs = ∅) then
    next_route_or c streamStarted
      (notFound ← call (ClassifyModelNotFound key);
       mret (Respond (if notFound : bool then ModelNotFound else NoAccounts)))
  else
    '(action, fs) ← HandleSelectionExhausted fs;
    match action with
    | FailoverContinue => mret (Again fs streamStarted)
    | FailoverCanceled => mret (Respond Canceled)
    | FailoverExhausted =>
        match LastFailoverErr fs with
        | Some e =>
            let exhausted := mret (Respond (Exhausted e streamStarted)) in
            if negb streamStarted && shouldSwitchAPIKeyGroupRoute (LastFailoverErr fs)
            then next_route_or c streamStarted exhausted else exhausted
        | None => mret (Respond AllExhausted)
        end
    end.

(** After Forward failed with a failover error. *)
Definition forward_failed (c : apiKeyGroupRouteCursor) (fs : FailoverState) (streamStarted : bool) (sel : selection)
    (err : UpstreamFailoverError) (wrote : bool) : program verdict :=
  if wrote then mret (Respond (Exhausted err true)) else
  '(action, fs) ← HandleFailoverError fs (sel_Account sel) (sel_Platform sel) err;
  match action with
  | FailoverContinue => mret (Again fs streamStarted)
  | FailoverCanceled => mret (Respond Canceled)
  | FailoverExhausted =>
      let exhausted := mret (Respond (Exhausted err streamStarted)) in
      if canSwitchAPIKeyGroupRouteAfterForward c (LastFailoverErr fs) streamStarted wrote
      then next_route_or c streamStarted exhausted else exhausted
  end.

(** [wrapReleaseOnDone]: when the context of the request is canceled a callback
    gives the slot back, beside the handler and at most once; [released] says
    whether it has been given back. *)
Definition release_on_done (account : Z) (released : bool) : program bool :=
  if released then mret true else
  canceled ← call RequestCanceled;
  if canceled : bool then _ ← call (ReleaseSlot account); mret true else mret false.

Definition accountReleaseFunc (account : Z) (released : bool) : program unit :=
  if released then mret tt else call (ReleaseSlot account).

(** With the slot of the account taken.  The callback may come before the call or
    during it; the call itself goes on. *)
Definition forward (key : APIKey) (c : apiKeyGroupRouteCursor) (fs : FailoverState) (streamStarted : bool) (sel : selection)
    : program verdict :=
  released ← release_on_done (sel_Account sel) false;
  _ ← call (Forward (sel_Account sel) key);
  released ← release_on_done (sel_Account sel) released;
  result ← call (ForwardResult (sel_Account sel));
  _ ← accountReleaseFunc (sel_Account sel) released;
  match result with
  | FailoverFailure err wrote => forward_failed c fs streamStarted sel err wrote
  | OtherFailure => mret (Respond ForwardError)
  | Forwarded =>
      _ ← recordSuccess apiKeyID c;
      _ ← call (SubmitUsage (sel_Account sel));
      mret (Respond (Served (sel_Account sel)))
  end.

Definition iteration (key : APIKey) (c : apiKeyGroupRouteCursor) (fs : FailoverState) (streamStarted : bool) : program verdict :=
  selected ← call (SelectAccount key (FailedAccountIDs fs));
  match selected with
  | None => selection_failed key c fs streamStarted
  | Some sel =>
      if Acquired sel then forward key c fs streamStarted sel
      else if negb (WaitPlan sel) then mret (Respond NoAccounts)
      else
        '(acquired, started) ← call (AcquireSlot (sel_Account sel));
        let streamStarted := streamStarted || started in
        if negb acquired then mret (Respond SlotRefused) else forward key c fs streamStarted sel
  end.

(** The loop over accounts; [None] when the fuel runs out. *)
Fixpoint account_loop (fuel : nat) (key : APIKey) (c : apiKeyGroupRouteCursor) (fs : FailoverState) (streamStarted : bool)
    : program (option verdict) :=
  match fuel with
  | O => mret None
  | S fuel =>
      v ← iteration key c fs streamStarted;
      match v with
      | Again fs streamStarted => account_loop fuel key c fs streamStarted
      | _ => mret (Some v)
      end
  end.

(** [routeLoop]. *)
Fixpoint route_loop (fuel : nat) (accounts : nat) (c : apiKeyGroupRouteCursor) (streamStarted : bool) : program (option response) :=
  match fuel with
  | O => mret None
  | S fuel =>
      match current c with
      | None => mret (Some NoRoute)
      | Some cand =>
          let key := cand_APIKey cand in
          subscribed ← call (ResolveRouteSubscription key);
          if negb subscribed then mret (Some SubscriptionRefused) else
          if match key_Group key with Some g => ClaudeCodeOnly g | None => false end then
            match skipToNext c with
            | Some c => route_loop fuel accounts c streamStarted
            | None => mret (Some ClaudeCodeRequired)
            end
          else
            eligible ← call (CheckBillingEligibility key);
            if negb eligible then mret (Some BillingRefused) else
            v ← account_loop accounts key c (NewFailoverState maxAccountSwitches false) streamStarted;
            match v with
            | Some (Respond r) => mret (Some r)
            | Some (NextRoute c streamStarted) => route_loop fuel accounts c streamStarted
            | _ => mret None
            end
      end
  end.

(** ChatCompletions and Responses of GatewayHandler, after the checks of the
    request; they differ in the upstream call and the shape of their errors.
    The stream may have been started while waiting for the user's slot. *)
Definition route_request (fuel accounts : nat) (candidates : list apiKeyGroupRouteCandidate) (available streamStarted : bool)
    : program (option response) :=
  let c := newAPIKeyGroupRouteCursorFromCandidates candidates available in
  match current c with
  | None => mret (Some NoRoute)
  | Some _ => route_loop fuel accounts c streamStarted
  end.
End Handler.
