(* ===== verification/FailoverSpec.v ===== *)
(** * What the failover of a request guarantees

    Bounds on the upstream calls and the end of the loops, whatever the
    services answer; no forwarding after bytes were sent, slots given back once,
    also when the request is canceled, usage submitted once; and that a request
    is served as long as the accounts that fail with failover errors are few. *)

From S2P Require Import Prelude GoStrings Program GroupRoutes Failover.

(** ** The monitor *)

Record watched : Type := mkwatched {
  held : option Z;          (* the account whose slot the request holds *)
  lost : option Z;          (* the account whose slot was given back before or during its call *)
  canceled : bool;          (* the request was seen canceled *)
  calling : option Z;       (* the account that is being called *)
  wrote_bytes : bool;       (* a failed Forward has written to the client *)
  forwards : nat;           (* upstream calls *)
  submitted : list Z;       (* the accounts whose usage was submitted *)
}.
#[export] Instance eta_watched : Settable watched := fun w =>
  mkwatched (held w) (lost w) (canceled w) (calling w) (wrote_bytes w) (forwards w) (submitted w).

Definition idle (lost : option Z) (canceled : bool) (n : nat) : watched := mkwatched None lost canceled None false n [].

Definition take_slot (a : Z) (w : watched) : option watched :=
  match held w with None => Some (w <| held := Some a |>) | Some _ => None end.

(** A slot is taken by a request that holds none, and given back once, by the one
    that holds it.  An account is called by the holder of its slot, and only while
    no bytes have been sent; without the slot only when it was taken for this very
    call and lost to the cancellation of the request.  During a call the slot is
    only given back if the request is canceled. *)
Definition monitor (R : Type) (c : cmd R) : R -> watched -> option watched :=
  match c in cmd R return R -> watched -> option watched with
  | SelectAccount _ _ => fun r w =>
      let w := w <| lost := None |> in
      match r with Some sel => if Acquired sel then take_slot (sel_Account sel) w else Some w | None => Some w end
  | AcquireSlot a => fun r w => if fst r then take_slot a w else Some w
  | RequestCanceled => fun r w => Some (w <| canceled := canceled w || r |>)
  | ReleaseSlot a => fun _ w =>
      if decide (held w = Some a) then
        if decide (calling w = Some a) then
          if canceled w then Some (w <| held := None |> <| lost := Some a |>) else None
        else Some (w <| held := None |> <| lost := if canceled w then Some a else None |>)
      else None
  | Forward a _ => fun _ w =>
      if decide ((held w = Some a \/ canceled w = true /\ lost w = Some a) /\ calling w = None /\ wrote_bytes w = false) then
        Some (w <| forwards := S (forwards w) |> <| calling := Some a |>)
      else None
  | ForwardResult a => fun r w =>
      if decide (calling w = Some a) then
        Some (w <| calling := None |> <| lost := None |>
                <| wrote_bytes := match r with FailoverFailure _ b => b | _ => false end |>)
      else None
  | SubmitUsage a => fun _ w => Some (w <| submitted := (submitted w ++ [a])%list |>)
  | _ => fun _ w => Some w
  end.

(** Accounts are those of [pool]. *)
Definition from_pool (pool : gset Z) (R : Type) (c : cmd R) : R -> Prop :=
  match c in cmd R return R -> Prop with
  | SelectAccount _ _ => fun r => match r with Some sel => sel_Account sel ∈ pool | None => True end
  | _ => fun _ => True
  end.

(** ** Measures *)

Section Measure.
Variable pool : gset Z.

(** Same-account retries left. *)
Definition retries_left (fs : FailoverState) : nat :=
  sum_list_with (fun a => Z.to_nat (maxSameAccountRetries - retries fs a)) (elements pool).

Definition switches_left (fs : FailoverState) : nat := Z.to_nat (MaxSwitches fs - SwitchCount fs).

(** Iterations left after this one, and upstream calls left. *)
Definition iterations_left (fs : FailoverState) : nat :=
  retries_left fs + 2 * switches_left fs + (if decide (FailedAccountIDs fs = ∅) then 0 else 1).
Definition calls_left (fs : FailoverState) : nat := retries_left fs + switches_left fs + 1.

Lemma sum_list_with_le {A} (f g : A -> nat) l : (forall a, f a <= g a)%nat -> (sum_list_with f l <= sum_list_with g l)%nat.
Proof. intros H. induction l as [|a l IH]; [done|]. cbn. specialize (H a). lia. Qed.

Lemma sum_list_with_lt {A} (f g : A -> nat) l x : x ∈ l -> (forall a, f a <= g a)%nat -> (f x < g x)%nat ->
  (sum_list_with f l < sum_list_with g l)%nat.
Proof.
  intros Hx H Hlt. induction Hx as [y l|y z l Hy IH]; cbn.
  - pose proof (sum_list_with_le f g l H). lia.
  - specialize (H z). specialize (IH Hlt). lia.
Qed.

Lemma retries_insert fs a n b : retries (fs <| SameAccountRetryCount := <[a := n]> (SameAccountRetryCount fs) |>) b =
  if decide (a = b) then n else retries fs b.
Proof.
  unfold retries. cbn. destruct (decide (a = b)) as [->|Hne]; [by rewrite lookup_insert_eq | by rewrite lookup_insert_ne].
Qed.

Lemma retry_spends fs a : a ∈ pool -> retries fs a < maxSameAccountRetries ->
  (retries_left (fs <| SameAccountRetryCount := <[a := (retries fs a + 1)%Z]> (SameAccountRetryCount fs) |>) < retries_left fs)%nat.
Proof.
  intros Ha Hr. unfold retries_left. apply (sum_list_with_lt _ _ _ a); [by apply elem_of_elements| |].
  - intros b. rewrite retries_insert. case_decide; subst; unfold maxSameAccountRetries in *; lia.
  - rewrite retries_insert. case_decide; [|done]. unfold maxSameAccountRetries in *. lia.
Qed.
End Measure.

(** ** The two decisions *)

(** What HandleFailoverError may decide once the error is noted, and the state it
    leaves. *)
Inductive handled (s : FailoverState) (a : Z) : FailoverAction -> FailoverState -> Prop :=
| handled_retry act : act <> FailoverExhausted -> retries s a < maxSameAccountRetries ->
    handled s a act (s <| SameAccountRetryCount := <[a := retries s a + 1]> (SameAccountRetryCount s) |>)
| handled_exhausted : MaxSwitches s <= SwitchCount s ->
    handled s a FailoverExhausted (s <| FailedAccountIDs := {[a]} ∪ FailedAccountIDs s |>)
| handled_switch act : act <> FailoverExhausted -> SwitchCount s < MaxSwitches s ->
    handled s a act (s <| FailedAccountIDs := {[a]} ∪ FailedAccountIDs s |> <| SwitchCount := SwitchCount s + 1 |>).

Lemma note_error_fields fs err :
  SwitchCount (note_error fs err) = SwitchCount fs /\ MaxSwitches (note_error fs err) = MaxSwitches fs /\
  FailedAccountIDs (note_error fs err) = FailedAccountIDs fs /\
  SameAccountRetryCount (note_error fs err) = SameAccountRetryCount fs /\ LastFailoverErr (note_error fs err) = Some err.
Proof. unfold note_error. by destruct (needForceCacheBilling _ _). Qed.

Section Decisions.
Context {G : Type}.
Variable ok : forall R, cmd R -> R -> Prop.
Variable mon : forall R, cmd R -> R -> G -> option G.
Hypothesis sleep_unseen : forall d r g, mon _ (Sleep d) r g = Some g.
Hypothesis unschedule_unseen : forall a r g, mon _ (TempUnschedule a) r g = Some g.

Lemma ends_sleep d w Q : (forall b, (b = false -> ok _ (Sleep d) false) -> Q b w) -> ends ok mon (sleepWithContext d) w Q.
Proof.
  intros H. unfold sleepWithContext. destruct (d <=? 0); [by apply ends_ret, H|].
  apply ends_call. intros b Hb. exists w. split; [apply sleep_unseen|]. apply H. by intros ->.
Qed.

Definition may_cancel (act : FailoverAction) : Prop := act = FailoverCanceled -> exists d, ok _ (Sleep d) false.

Definition decided (s : FailoverState) (a : Z) (w : G) (r : FailoverAction * FailoverState) (w' : G) : Prop :=
  w' = w /\ handled s a (fst r) (snd r) /\ may_cancel (fst r).

Lemma slept_decided (b : bool) s a w s' : (b = false -> ok _ (Sleep 0) false \/ exists d, ok _ (Sleep d) false) ->
  (forall act, act <> FailoverExhausted -> handled s a act s') ->
  decided s a w (if b then FailoverContinue else FailoverCanceled, s') w.
Proof.
  intros Hb Hs. split_and!; [done | apply Hs; by destruct b |]. destruct b; [done|]. intros _. destruct Hb as [Hb|Hb]; eauto.
Qed.

Lemma switch_account_ends s a platform w : ends ok mon (switch_account s a platform) w (decided s a w).
Proof.
  unfold switch_account. set (s1 := s <| FailedAccountIDs := _ |>). destruct (Z.leb_spec (MaxSwitches s1) (SwitchCount s1)).
  { split_and!; [done | by constructor | done]. }
  destruct (platform =s? _); [|split_and!; [done | by constructor | done]].
  apply ends_bind, ends_sleep. intros b Hb. apply slept_decided; [eauto | intros act Hact; by constructor].
Qed.

Lemma HandleFailoverError_ends fs a platform err w :
  ends ok mon (HandleFailoverError fs a platform err) w (decided (note_error fs err) a w).
Proof.
  unfold HandleFailoverError. set (s := note_error fs err). destruct (RetryableOnSameAccount err); cbn [andb].
  - destruct (Z.ltb_spec (retries s a) maxSameAccountRetries).
    + apply ends_bind, ends_sleep. intros b Hb. apply slept_decided; [eauto | intros act Hact; by constructor].
    + apply ends_call_bind. intros r _. exists w. split; [apply unschedule_unseen | apply switch_account_ends].
  - apply switch_account_ends.
Qed.

Lemma HandleSelectionExhausted_ends fs w :
  ends ok mon (HandleSelectionExhausted fs) w (fun r w' => w' = w /\
    (fst r = FailoverContinue -> snd r = fs <| FailedAccountIDs := ∅ |>) /\
    (fst r <> FailoverContinue -> snd r = fs) /\ may_cancel (fst r)).
Proof.
  unfold HandleSelectionExhausted. destruct (_ && _); [|apply ends_ret; by split_and!].
  apply ends_bind, ends_sleep. intros [|] Hb; apply ends_ret; split_and!; try done. intros _. eauto.
Qed.
End Decisions.

(** Every failure that the loop goes on after uses up a retry or a switch. *)
Lemma handled_spends pool s a s' : a ∈ pool -> handled s a FailoverContinue s' ->
  (iterations_left pool s' < iterations_left pool s)%nat /\ (calls_left pool s' < calls_left pool s)%nat.
Proof.
  intros Ha H. unfold iterations_left, calls_left, switches_left. inversion H; subst.
  - pose proof (retry_spends pool s a Ha ltac:(done)) as Hs. set (s1 := s <| SameAccountRetryCount := _ |>) in *.
    change (FailedAccountIDs s1) with (FailedAccountIDs s). change (MaxSwitches s1) with (MaxSwitches s).
    change (SwitchCount s1) with (SwitchCount s). lia.
  - set (s1 := s <| FailedAccountIDs := _ |> <| SwitchCount := _ |>).
    change (retries_left pool s1) with (retries_left pool s). change (MaxSwitches s1) with (MaxSwitches s).
    change (SwitchCount s1) with (SwitchCount s + 1). destruct (decide (FailedAccountIDs s1 = ∅)) as [Hd|_].
    + exfalso. assert (Hin : a ∈ FailedAccountIDs s1) by (apply elem_of_union_l, elem_of_singleton_2; done).
      rewrite Hd in Hin. by apply not_elem_of_empty in Hin.
    + destruct (decide _); lia.
Qed.

(** ** The loops *)

Section Loops.
Variable pool : gset Z.
Variable maxAccountSwitches : Z.
Variable apiKeyID : Z.

Abbreviation ends_here := (ends (from_pool pool) monitor).

Definition submitted_for (r : response) : list Z := match r with Served a => [a] | _ => [] end.

(** The request holds nothing, has submitted what it served, and made at most [n] upstream calls. *)
Definition closed (n : nat) (r : response) (w : watched) : Prop :=
  held w = None /\ submitted w = submitted_for r /\ (forwards w <= n)%nat.

Definition resumes (n : nat) (w : watched) : Prop := exists l b m, w = idle l b m /\ (m <= n)%nat.

Definition moved (c c' : apiKeyGroupRouteCursor) : Prop := hasNext c = true /\ c' = advance c.

Definition after_iteration (c : apiKeyGroupRouteCursor) (fs : FailoverState) (n : nat) (v : verdict) (w : watched) : Prop :=
  match v with
  | Respond r => closed (n + calls_left pool fs) r w
  | NextRoute c' _ => moved c c' /\ resumes (n + calls_left pool fs) w
  | Again fs' _ => (iterations_left pool fs' < iterations_left pool fs)%nat /\
      exists l b m, w = idle l b m /\ (m + calls_left pool fs' <= n + calls_left pool fs)%nat
  end.

Lemma calls_left_pos fs : (1 <= calls_left pool fs)%nat.
Proof. unfold calls_left. lia. Qed.

Lemma closed_idle l b n k r : submitted_for r = [] -> (n <= k)%nat -> closed k r (idle l b n).
Proof. intros Hr Hk. split_and!; [done | by rewrite Hr | done]. Qed.

Lemma next_route_or_ends c ss otherwise fs n l b m : (m <= n + calls_left pool fs)%nat ->
  ends_here otherwise (idle l b m) (after_iteration c fs n) ->
  ends_here (next_route_or apiKeyID c ss otherwise) (idle l b m) (after_iteration c fs n).
Proof.
  intros Hm Ho. unfold next_route_or, switchToNext. destruct (hasNext c) eqn:Hn; cbn [negb]; [|exact Ho].
  destruct (current c) as [cur|]; [|exact Ho]. intros r _. eexists. split; [reflexivity|]. cbn.
  split; [done | by exists l, b, m].
Qed.

Lemma selection_failed_ends key c fs ss l b n :
  ends_here (selection_failed apiKeyID key c fs ss) (idle l b n) (after_iteration c fs n).
Proof.
  pose proof (calls_left_pos fs). unfold selection_failed. destruct (decide (FailedAccountIDs fs = ∅)) as [|Hf].
  - apply next_route_or_ends; [lia|]. intros nf _. eexists. split; [reflexivity|]. cbn. apply closed_idle; [by destruct nf | lia].
  - apply ends_bind. eapply ends_mono; [by apply HandleSelectionExhausted_ends|].
    intros [act fs'] w (-> & Hc & Hs & _). cbn [fst snd] in Hc, Hs. destruct act.
    + specialize (Hc eq_refl) as ->. set (fs1 := fs <| FailedAccountIDs := ∅ |>). split.
      * unfold iterations_left. change (retries_left pool fs1) with (retries_left pool fs).
        change (switches_left fs1) with (switches_left fs). 
        assert (Hn : FailedAccountIDs fs1 = ∅) by reflexivity. case_decide; case_decide; (contradiction || lia).
      * exists l, b, n. split; [done|]. apply Nat.eq_le_incl. reflexivity.
    + rewrite Hs by done. destruct (LastFailoverErr fs) as [e|].
      2: { cbn. apply closed_idle; [done | lia]. }
      destruct (negb ss && _); [apply next_route_or_ends; [lia|]|]; cbn; (apply closed_idle; [done | lia]).
    + cbn. apply closed_idle; [done | lia].
Qed.

Lemma handled_error_spends fs err a act fs' : a ∈ pool -> act = FailoverContinue -> handled (note_error fs err) a act fs' ->
  (iterations_left pool fs' < iterations_left pool fs)%nat /\ (calls_left pool fs' < calls_left pool fs)%nat.
Proof.
  intros Ha -> H. destruct (note_error_fields fs err) as (E1 & E2 & E3 & E4 & _).
  apply (handled_spends pool) in H; [|done]. revert H.
  unfold iterations_left, calls_left, switches_left, retries_left, retries. by rewrite E1, E2, E3, E4.
Qed.

Lemma forward_failed_ends c fs ss sel err l b n : sel_Account sel ∈ pool ->
  ends_here (forward_failed apiKeyID c fs ss sel err false) (idle l b (S n)) (after_iteration c fs n).
Proof.
  intros Ha. pose proof (calls_left_pos fs). unfold forward_failed. apply ends_bind.
  eapply ends_mono; [by apply HandleFailoverError_ends|]. intros [act fs'] w (-> & Hh & _). cbn in Hh. destruct act.
  - destruct (handled_error_spends fs err _ _ _ Ha eq_refl Hh) as [Hi Hc]. cbn. split; [done|]. exists l, b, (S n). split; [done | lia].
  - destruct (canSwitchAPIKeyGroupRouteAfterForward _ _ _ _); [apply next_route_or_ends; [lia|]|]; cbn; (apply closed_idle; [done | lia]).
  - cbn. apply closed_idle; [done | lia].
Qed.

(** The states of a call: the slot is held, or was lost to the cancellation. *)
Definition has_slot (a : Z) (released : bool) (w : watched) : Prop :=
  if released then held w = None /\ canceled w = true /\ lost w = Some a else held w = Some a /\ lost w = None.

Definition same_call (w w' : watched) : Prop :=
  calling w' = calling w /\ wrote_bytes w' = wrote_bytes w /\ forwards w' = forwards w /\ submitted w' = submitted w.

Lemma release_on_done_ends a released w : has_slot a released w -> calling w = None \/ calling w = Some a ->
  ends_here (release_on_done a released) w (fun released w' => has_slot a released w' /\ same_call w w').
Proof.
  intros Hs Hc. unfold release_on_done. destruct released; [by apply ends_ret|]. destruct Hs as [Hh Hl].
  apply ends_call_bind. intros [] _; (eexists; split; [reflexivity|]).
  - intros u _. cbn. rewrite Hh, orb_true_r, decide_True by done.
    destruct Hc as [E|E]; rewrite E; [rewrite decide_False by done | rewrite decide_True by done];
      (eexists; split; [reflexivity|]); by split.
  - apply ends_ret. rewrite orb_false_r. by destruct w.
Qed.

Lemma forward_ends key c fs ss sel w n : sel_Account sel ∈ pool ->
  has_slot (sel_Account sel) false w -> calling w = None -> wrote_bytes w = false -> forwards w = n -> submitted w = [] ->
  ends_here (forward apiKeyID key c fs ss sel) w (after_iteration c fs n).
Proof.
  intros Ha Hs Hc Hw Hn Hb. pose proof (calls_left_pos fs) as Hp. unfold forward. set (a := sel_Account sel) in *.
  apply ends_bind. eapply ends_mono; [apply release_on_done_ends; [exact Hs | by left]|].
  intros released w1 [Hs1 (Ec & Ew & Ef & Es)]. apply ends_call_bind. intros u _. cbn [monitor]. rewrite decide_True.
  2: { rewrite Ec, Ew. split_and!; [|done..]. destruct released; [right; by destruct Hs1 as (_ & ? & ?) | left; by destruct Hs1]. }
  eexists. split; [reflexivity|]. set (w2 := w1 <| forwards := _ |> <| calling := _ |>). apply ends_bind.
  eapply ends_mono; [apply (release_on_done_ends a released w2); [by destruct released | by right]|].
  intros released' w3 [Hs3 (Ec3 & Ew3 & Ef3 & Es3)]. apply ends_call_bind. intros result _. cbn [monitor]. rewrite decide_True by done.
  eexists. split; [reflexivity|]. set (w4 := w3 <| calling := None |> <| lost := None |> <| wrote_bytes := _ |>).
  assert (H4 : forwards w4 = S n /\ submitted w4 = []).
  { unfold w4. cbn. rewrite Ef3, Es3. unfold w2. cbn. by rewrite Ef, Es, Hn, Hb. }
  apply ends_bind. destruct H4 as [Hf4 Hb4].
  assert (Hrel : forall (Q : unit -> watched -> Prop),
    (forall w5, held w5 = None -> same_call w4 w5 -> Q tt w5) -> ends_here (accountReleaseFunc a released') w4 Q).
  { intros Q HQ. unfold accountReleaseFunc. destruct released'.
    - apply ends_ret, HQ; [|done]. by destruct Hs3.
    - intros [] _. cbn [monitor]. destruct Hs3 as [Hh3 _].
      rewrite (decide_True (P := held w4 = Some a)) by exact Hh3. rewrite decide_False by done. eexists. split; [reflexivity|]. apply HQ; [done|]. unfold same_call. by split_and!. }
  apply Hrel. intros w5 Hh5 (Ec5 & Ew5 & Ef5 & Es5). rewrite Hf4 in Ef5. rewrite Hb4 in Es5. change (calling w4) with (@None Z) in Ec5.
  destruct result as [|err wrote|].
  - unfold recordSuccess. assert (Hserved : forall w, held w = None -> submitted w = [] -> (forwards w <= S n)%nat ->
      ends_here (_ ← call (SubmitUsage a); mret (Respond (Served a))) w (after_iteration c fs n)).
    { intros w' Hh' Hb' Hf' r _. eexists. split; [reflexivity|]. cbn. split_and!; [done | cbn; by rewrite Hb' | cbn; lia]. }
    apply ends_bind. destruct (current c) as [cur|]; [|apply Hserved; [done..|lia]].
    intros r _. eexists. split; [reflexivity|]. apply Hserved; [done..|lia].
  - destruct wrote.
    + cbn. split_and!; [done | done | lia].
    + assert (w5 = idle (lost w5) (canceled w5) (S n)) as -> by (destruct w5; cbn in *; by subst). by apply forward_failed_ends.
  - cbn. split_and!; [done | done | lia].
Qed.

Lemma iteration_ends key c fs ss l b n : ends_here (iteration apiKeyID key c fs ss) (idle l b n) (after_iteration c fs n).
Proof.
  pose proof (calls_left_pos fs). unfold iteration. apply ends_call_bind. intros [sel|] Hsel; cbn [monitor from_pool] in *.
  2: { eexists. split; [reflexivity | apply selection_failed_ends]. }
  destruct (Acquired sel) eqn:Eacq.
  { eexists. split; [reflexivity | by apply forward_ends]. }
  eexists. split; [reflexivity|]. destruct (WaitPlan sel); cbn [negb]; [|cbn; apply closed_idle; [done | lia]].
  apply ends_call_bind. intros [acquired started] _. cbn [monitor fst]. destruct acquired; (eexists; split; [reflexivity|]).
  - by apply forward_ends.
  - cbn. apply closed_idle; [done | lia].
Qed.

(** ** A route, then all of them *)

Definition calls_per_route : nat := 3 * size pool + Z.to_nat maxAccountSwitches + 1.
Definition iterations_per_route : nat := 3 * size pool + 2 * Z.to_nat maxAccountSwitches + 1.

Lemma sum_list_with_const {A} (f : A -> nat) (k : nat) (l : list A) : (forall a, f a = k) -> sum_list_with f l = (k * length l)%nat.
Proof. intros H. induction l as [|a l IH]; [done|]. cbn. rewrite H, IH. lia. Qed.

Lemma new_state_measures b : let fs := NewFailoverState maxAccountSwitches b in
  calls_left pool fs = calls_per_route /\ (iterations_left pool fs < iterations_per_route)%nat.
Proof.
  cbn zeta. unfold calls_left, iterations_left, calls_per_route, iterations_per_route, retries_left, retries, switches_left.
  cbn [SameAccountRetryCount MaxSwitches SwitchCount FailedAccountIDs NewFailoverState].
  rewrite (sum_list_with_const _ 3%nat), Z.sub_0_r, decide_True by (done || by intros a; rewrite lookup_empty).
  unfold size, set_size. cbn. lia.
Qed.

(** What a whole route leaves behind, from [n] calls on with [k] more at most. *)
Definition after_route (c : apiKeyGroupRouteCursor) (k : nat) (v : option verdict) (w : watched) : Prop :=
  match v with
  | Some (Respond r) => closed k r w
  | Some (NextRoute c' _) => moved c c' /\ resumes k w
  | _ => False
  end.

Lemma account_loop_ends fuel key c fs ss l b n k : (iterations_left pool fs < fuel)%nat -> (n + calls_left pool fs <= k)%nat ->
  ends_here (account_loop apiKeyID fuel key c fs ss) (idle l b n) (after_route c k).
Proof.
  revert fs ss l b n. induction fuel as [|fuel IH]; intros fs ss l b n Hf Hk; [lia|]. cbn [account_loop]. apply ends_bind.
  eapply ends_mono; [apply iteration_ends|]. intros [r|c' ss'|fs' ss'] w Hv; cbn in Hv.
  - destruct Hv as (H1 & H2 & H3). cbn. split_and!; [done..|lia].
  - destruct Hv as (Hm & l' & b' & m & -> & Hm'). cbn. split; [done|]. exists l', b', m. split; [done | lia].
  - destruct Hv as (Hi & l' & b' & m & -> & Hm). apply IH; lia.
Qed.

Definition routes_left (c : apiKeyGroupRouteCursor) : nat := length (candidates c) - index c.

Lemma moved_routes c c' : moved c c' -> (routes_left c' < routes_left c)%nat.
Proof.
  intros [Hn ->]. unfold hasNext in Hn. apply andb_prop in Hn as [_ Hn%Nat.ltb_lt]. unfold routes_left. cbn. lia.
Qed.

Lemma skipped c c' : skipToNext c = Some c' -> moved c c'.
Proof.
  unfold skipToNext, moved. destruct (hasNext c); cbn [negb]; [|done]. destruct (current c); [|done]. by intros [= <-].
Qed.

Lemma current_routes c cand : current c = Some cand -> (0 < routes_left c)%nat.
Proof.
  unfold current, routes_left. destruct (available c); [|done]. intros H%lookup_lt_Some. lia.
Qed.

Definition after_routes (k : nat) (r : option response) (w : watched) : Prop :=
  match r with Some r => closed k r w | None => False end.

Lemma route_loop_ends fuel accounts c ss l b n k : (routes_left c < fuel)%nat -> (iterations_per_route <= accounts)%nat ->
  (n + routes_left c * calls_per_route <= k)%nat ->
  ends_here (route_loop maxAccountSwitches apiKeyID fuel accounts c ss) (idle l b n) (after_routes k).
Proof.
  intros Hf Ha. revert c ss l b n Hf. induction fuel as [|fuel IH]; intros c ss l b n Hf Hk; [lia|]. cbn [route_loop].
  destruct (current c) as [cand|] eqn:Ec; [|cbn; by apply closed_idle; [|lia]].
  apply current_routes in Ec. destruct (routes_left c) as [|left] eqn:El; [lia|]. rewrite Nat.mul_succ_l in Hk.
  apply ends_call_bind. intros subscribed _. eexists. split; [reflexivity|].
  destruct subscribed; cbn [negb]; [|cbn; by apply closed_idle; [|lia]].
  destruct (match key_Group _ with Some g => ClaudeCodeOnly g | None => false end).
  { destruct (skipToNext c) as [c'|] eqn:Es; [|cbn; by apply closed_idle; [|lia]].
    apply skipped, moved_routes in Es. apply IH; [lia|]. assert (routes_left c' <= left)%nat as Hl by lia.
    pose proof (Nat.mul_le_mono_r _ _ calls_per_route Hl). lia. }
  apply ends_call_bind. intros eligible _. eexists. split; [reflexivity|].
  destruct eligible; cbn [negb]; [|cbn; by apply closed_idle; [|lia]].
  destruct (new_state_measures false) as [Hcalls Hiter]. cbn zeta in *. apply ends_bind.
  eapply ends_mono; [apply (account_loop_ends _ _ _ _ _ _ _ n (n + calls_per_route)); lia|].
  intros [[r|c' ss'|fs' ss']|] w Hv; try done; cbn [after_route] in Hv.
  - destruct Hv as (H1 & H2 & H3). cbn. split_and!; [done..|lia].
  - destruct Hv as (Hm & l' & b' & m & -> & Hm'). apply moved_routes in Hm. apply IH; [lia|].
    assert (routes_left c' <= left)%nat as Hl by lia. pose proof (Nat.mul_le_mono_r _ _ calls_per_route Hl). lia.
Qed.

Lemma route_request_ends fuel accounts cands avail ss : (length cands < fuel)%nat -> (iterations_per_route <= accounts)%nat ->
  ends_here (route_request maxAccountSwitches apiKeyID fuel accounts cands avail ss) (idle None false 0)
    (after_routes (length cands * calls_per_route)).
Proof.
  intros Hf Ha. unfold route_request. set (c := newAPIKeyGroupRouteCursorFromCandidates cands avail).
  assert (Hl : routes_left c = length cands) by apply Nat.sub_0_r.
  destruct (current c) as [cand|]; [|cbn; apply closed_idle; [done | lia]]. apply route_loop_ends; lia.
Qed.
End Loops.

(** ** The guarantees *)

Definition route_fuel (cands : list apiKeyGroupRouteCandidate) : nat := S (length cands).

Section Guarantees.
Variable pool : gset Z.
Variables maxAccountSwitches apiKeyID : Z.
Variable cands : list apiKeyGroupRouteCandidate.
Variables avail streamStarted : bool.

(** The handler, with the fuel that is enough for accounts of [pool]. *)
Definition handler : program (option response) :=
  route_request maxAccountSwitches apiKeyID (route_fuel cands) (iterations_per_route pool maxAccountSwitches) cands avail streamStarted.

Lemma handler_ends tr r : runs handler tr r -> Forall (answered (from_pool pool)) tr ->
  exists w, watch monitor tr (idle None false 0) = Some w /\ after_routes (length cands * calls_per_route pool maxAccountSwitches) r w.
Proof.
  intros Hr Ht. refine (ends_runs (from_pool pool) monitor handler (idle None false 0) _ tr r _ Hr Ht).
  apply route_request_ends; unfold route_fuel; lia.
Qed.
End Guarantees.

(** ** Few failing accounts *)

(** The services work, the request is not canceled, every account outside [bad]
    serves the request, and the accounts in [bad] fail with failover errors,
    before a byte is written.  Any other error of one account ends the request. *)
Definition few_fail (pool bad : gset Z) (R : Type) (c : cmd R) : R -> Prop :=
  match c in cmd R return R -> Prop with
  | ResolveRouteSubscription _ | CheckBillingEligibility _ | Sleep _ => fun r => r = true
  | RequestCanceled => fun r => r = false
  | SelectAccount _ excluded => fun r =>
      match r with
      | Some sel => sel_Account sel ∈ pool /\ (sel_Account sel ∉ excluded) /\ (Acquired sel || WaitPlan sel) = true
      | None => pool ⊆ excluded
      end
  | AcquireSlot _ => fun r => fst r = true
  | ForwardResult a => fun r =>
      match r with Forwarded => True | FailoverFailure _ wrote => a ∈ bad /\ wrote = false | OtherFailure => False end
  | _ => fun _ => True
  end.

Section Few.
Variables pool bad : gset Z.
Variables maxAccountSwitches apiKeyID : Z.
Variable good : Z.
Hypothesis good_there : good ∈ pool /\ good ∉ bad.
Hypothesis bad_few : Z.of_nat (size bad) <= maxAccountSwitches.

Definition unwatched (R : Type) (c : cmd R) (r : R) (g : unit) : option unit := Some g.
Abbreviation ends_few := (ends (few_fail pool bad) unwatched).

(** Every account given up is bad, and each cost one switch. *)
Definition few (fs : FailoverState) : Prop :=
  FailedAccountIDs fs ⊆ bad /\ SwitchCount fs = Z.of_nat (size (FailedAccountIDs fs)) /\ MaxSwitches fs = maxAccountSwitches.

Definition serves (fs : FailoverState) (v : verdict) (_ : unit) : Prop :=
  match v with
  | Respond r => exists a, r = Served a
  | NextRoute _ _ => False
  | Again fs' _ => few fs' /\ (iterations_left pool fs' < iterations_left pool fs)%nat
  end.

(** One more bad account: there is a switch left for it. *)
Lemma few_switch fs a : few fs -> a ∈ bad -> a ∉ FailedAccountIDs fs ->
  SwitchCount fs < MaxSwitches fs /\ {[a]} ∪ FailedAccountIDs fs ⊆ bad /\
  Z.of_nat (size ({[a]} ∪ FailedAccountIDs fs)) = SwitchCount fs + 1.
Proof.
  intros (Hs & Hc & Hm) Ha Hn. assert (Hsub : {[a]} ∪ FailedAccountIDs fs ⊆ bad).
  { apply union_subseteq. split; [by apply singleton_subseteq_l | done]. }
  assert (Hsize : size ({[a]} ∪ FailedAccountIDs fs) = S (size (FailedAccountIDs fs))).
  { rewrite size_union by by apply disjoint_singleton_l. by rewrite size_singleton. }
  pose proof (subseteq_size _ _ Hsub) as Hle. split_and!; [lia | done | lia].
Qed.

Lemma few_handled fs err a act s' : few fs -> a ∈ bad -> a ∉ FailedAccountIDs fs -> handled (note_error fs err) a act s' ->
  act <> FailoverExhausted /\ few s'.
Proof.
  intros Hfew Ha Hn H. destruct (note_error_fields fs err) as (E1 & E2 & E3 & E4 & _).
  destruct (few_switch fs a Hfew Ha Hn) as (Hlt & Hsub & Hsize). destruct Hfew as (Hs & Hc & Hm).
  inversion H; subst; rewrite ?E1, ?E2, ?E3 in *.
  - split; [done|]. unfold few. cbn. rewrite E1, E2, E3. done.
  - lia.
  - split; [done|]. unfold few. cbn -[size union singleton]. rewrite E2. split_and!; [done | lia | done].
Qed.

Lemma forward_failed_serves c fs ss sel err : few fs -> sel_Account sel ∈ pool -> sel_Account sel ∈ bad ->
  sel_Account sel ∉ FailedAccountIDs fs -> ends_few (forward_failed apiKeyID c fs ss sel err false) tt (serves fs).
Proof.
  intros Hfew Hp Hb Hn. unfold forward_failed. apply ends_bind.
  eapply ends_mono; [by apply HandleFailoverError_ends|]. intros [act fs'] [] (_ & Hh & Hcancel). cbn [fst snd] in Hh, Hcancel.
  destruct (few_handled _ _ _ _ _ Hfew Hb Hn Hh) as [Hact Hfew']. destruct act; [|done|].
  - split; [done|]. by eapply handled_error_spends.
  - destruct (Hcancel eq_refl) as [d Hd]. discriminate Hd.
Qed.

Lemma forward_serves key c fs ss sel : few fs -> sel_Account sel ∈ pool -> sel_Account sel ∉ FailedAccountIDs fs ->
  ends_few (forward apiKeyID key c fs ss sel) tt (serves fs).
Proof.
  intros Hfew Hp Hn. unfold forward, release_on_done, accountReleaseFunc. apply ends_call_bind. intros canceled ->. eexists.
  split; [reflexivity|]. apply ends_call_bind. intros u _. eexists. split; [reflexivity|]. apply ends_call_bind. intros canceled ->.
  eexists. split; [reflexivity|]. apply ends_call_bind. intros result Hr. eexists. split; [reflexivity|].
  apply ends_call_bind. intros u' _. eexists. split; [reflexivity|]. destruct result as [|err wrote|]; [| |done].
  - apply ends_bind. unfold recordSuccess. destruct (current c); [intros r _; eexists; split; [reflexivity|]|];
      (intros r' _; eexists; split; [reflexivity | by eexists]).
  - destruct Hr as [Hb ->]. by apply forward_failed_serves.
Qed.

Lemma iteration_serves key c fs ss : few fs -> ends_few (iteration apiKeyID key c fs ss) tt (serves fs).
Proof.
  intros Hfew. unfold iteration. apply ends_call_bind. intros [sel|] Hsel; (eexists; split; [reflexivity|]).
  - destruct Hsel as (Hp & Hn & Hw). destruct (Acquired sel); [by apply forward_serves|].
    cbn [orb] in Hw. rewrite Hw. cbn [negb]. apply ends_call_bind. intros [acquired started] Ha. cbn in Ha. subst acquired.
    eexists. split; [reflexivity|]. by apply forward_serves.
  - exfalso. cbn in Hsel. destruct Hfew as (Hs & _). destruct good_there as [Hg Hb]. by apply Hb, Hs, Hsel.
Qed.

Lemma account_loop_serves fuel key c fs ss : few fs -> (iterations_left pool fs < fuel)%nat ->
  ends_few (account_loop apiKeyID fuel key c fs ss) tt (fun v _ => exists a, v = Some (Respond (Served a))).
Proof.
  revert fs ss. induction fuel as [|fuel IH]; intros fs ss Hfew Hf; [lia|]. cbn [account_loop]. apply ends_bind.
  eapply ends_mono; [by apply iteration_serves|]. intros [r|c' ss'|fs' ss'] [] Hv; [|done|].
  - destruct Hv as [a ->]. by exists a.
  - destruct Hv as [Hfew' Hi]. apply IH; [done | lia].
Qed.

Lemma few_initial : few (NewFailoverState maxAccountSwitches false).
Proof. unfold few. cbn -[size]. by rewrite size_empty. Qed.

Lemma handler_serves cand cands ss : match key_Group (cand_APIKey cand) with Some g => ClaudeCodeOnly g | None => false end = false ->
  ends_few (handler pool maxAccountSwitches apiKeyID (cand :: cands) true ss) tt (fun r _ => exists a, r = Some (Served a)).
Proof.
  intros Hg. unfold handler, route_request, route_fuel. cbn [length]. cbn [current newAPIKeyGroupRouteCursorFromCandidates available candidates index lookup list_lookup].
  cbn [route_loop]. cbn [current newAPIKeyGroupRouteCursorFromCandidates available candidates index lookup list_lookup].
  apply ends_call_bind. intros subscribed ->. eexists. split; [reflexivity|]. cbn [negb]. rewrite Hg.
  apply ends_call_bind. intros eligible ->. eexists. split; [reflexivity|]. cbn [negb]. apply ends_bind.
  eapply ends_mono; [apply account_loop_serves; [apply few_initial|]|].
  - by apply new_state_measures.
  - intros v [] [a ->]. by exists a.
Qed.
End Few.

(** An error that is not a failover error. *)
Definition fails_otherwise (a : Z) (R : Type) (c : cmd R) : R -> Prop :=
  match c in cmd R return R -> Prop with ForwardResult b => fun r => b = a -> r = OtherFailure | _ => fun _ => True end.

Lemma other_failure_ends apiKeyID key c fs ss sel :
  ends (fails_otherwise (sel_Account sel)) unwatched (forward apiKeyID key c fs ss sel) tt (fun v _ => v = Respond ForwardError).
Proof.
  assert (Hend : forall released, ends (fails_otherwise (sel_Account sel)) unwatched
    (result ← call (ForwardResult (sel_Account sel));
     _ ← accountReleaseFunc (sel_Account sel) released;
     match result with
     | FailoverFailure err wrote => forward_failed apiKeyID c fs ss sel err wrote
     | OtherFailure => mret (Respond ForwardError)
     | Forwarded => _ ← recordSuccess apiKeyID c; _ ← call (SubmitUsage (sel_Account sel)); mret (Respond (Served (sel_Account sel)))
     end) tt (fun v _ => v = Respond ForwardError)).
  { intros released. apply ends_call_bind. intros result Hr. rewrite (Hr eq_refl). eexists. split; [reflexivity|].
    unfold accountReleaseFunc. destruct released; [done|]. intros u _. by eexists. }
  unfold forward, release_on_done. intros [] _; (eexists; split; [reflexivity|]).
  - intros u _. eexists. split; [reflexivity|]. intros u' _. eexists. split; [reflexivity|]. apply (Hend true).
  - intros u _. eexists. split; [reflexivity|]. intros [] _; (eexists; split; [reflexivity|]); [|apply (Hend false)].
    intros u' _. eexists. split; [reflexivity|]. apply (Hend true).
Qed.

(** ** The properties *)

(** C21: The failover loops end, whatever the services answer: with accounts from
    a pool of N and at most M switches, no more than 3N + 2M + 1 turns of the
    inner loop and one turn of the outer loop per route are ever made, so a
    handler with that much fuel, or more, always has a response. *)
Theorem failover_terminates (pool : gset Z) (maxAccountSwitches apiKeyID : Z) (cands : list apiKeyGroupRouteCandidate)
    (avail streamStarted : bool) (fuel accounts : nat) (tr : list (event cmd)) (r : option response) :
  (length cands < fuel)%nat -> (3 * size pool + 2 * Z.to_nat maxAccountSwitches + 1 <= accounts)%nat ->
  runs (route_request maxAccountSwitches apiKeyID fuel accounts cands avail streamStarted) tr r ->
  Forall (answered (from_pool pool)) tr -> exists resp, r = Some resp.
Proof.
  intros Hf Ha Hr Ht. destruct (ends_runs _ _ _ _ _ _ _ (route_request_ends pool maxAccountSwitches apiKeyID fuel accounts cands avail
    streamStarted Hf Ha) Hr Ht) as (w & _ & Hw). destruct r as [resp|]; [by exists resp | done].
Qed.

(** The upstream is called at most 3N + M + 1 times per route for a request,
    N the number of accounts and M the switches allowed, whatever the services
    answer. *)
Theorem failover_calls_bounded (pool : gset Z) (maxAccountSwitches apiKeyID : Z) (cands : list apiKeyGroupRouteCandidate)
    (avail streamStarted : bool) (tr : list (event cmd)) (r : option response) :
  runs (handler pool maxAccountSwitches apiKeyID cands avail streamStarted) tr r -> Forall (answered (from_pool pool)) tr ->
  exists w, watch monitor tr (idle None false 0) = Some w /\
    (forwards w <= length cands * (3 * size pool + Z.to_nat maxAccountSwitches + 1))%nat.
Proof.
  intros Hr Ht. destruct (handler_ends _ _ _ _ _ _ _ _ Hr Ht) as (w & Hw & Ha). exists w. split; [done|].
  destruct r as [resp|]; [|done]. by destruct Ha as (_ & _ & Hn).
Qed.

(** C23: A request is disciplined with what it takes: it takes a slot only when it
    holds none, calls an account only with a slot taken for that call, and gives
    every slot back exactly once - after the call, or, if its context is canceled,
    before the call or while it goes on.  It never forwards again once a failed
    attempt has written bytes to the client, and submits its usage for recording
    once if it was served and not at all otherwise (the pool may drop it). *)
Theorem failover_disciplined (pool : gset Z) (maxAccountSwitches apiKeyID : Z) (cands : list apiKeyGroupRouteCandidate)
    (avail streamStarted : bool) (tr : list (event cmd)) (r : option response) :
  runs (handler pool maxAccountSwitches apiKeyID cands avail streamStarted) tr r -> Forall (answered (from_pool pool)) tr ->
  exists resp w, r = Some resp /\ watch monitor tr (idle None false 0) = Some w /\ held w = None /\
    submitted w = match resp with Served a => [a] | _ => [] end.
Proof.
  intros Hr Ht. destruct (handler_ends _ _ _ _ _ _ _ _ Hr Ht) as (w & Hw & Ha).
  destruct r as [resp|]; [|done]. destruct Ha as (Hh & Hb & _). by exists resp, w.
Qed.

(** C22: A request is served as long as the failing accounts are few and fail
    with failover errors before a byte is sent: when the services work, the request
    is not canceled, selection offers any account not given up, at most M of the
    accounts fail in this way and the others, of which there is one, serve, the
    first route ends with a served request.  An account that fails otherwise ends
    the request at once, however many others there are. *)
Theorem few_failures_served (pool bad : gset Z) (maxAccountSwitches apiKeyID : Z) (good : Z) (cand : apiKeyGroupRouteCandidate)
    (cands : list apiKeyGroupRouteCandidate) (streamStarted : bool) :
  good ∈ pool -> good ∉ bad -> Z.of_nat (size bad) <= maxAccountSwitches ->
  match key_Group (cand_APIKey cand) with Some g => ClaudeCodeOnly g | None => false end = false ->
  (forall tr r, runs (handler pool maxAccountSwitches apiKeyID (cand :: cands) true streamStarted) tr r ->
     Forall (answered (few_fail pool bad)) tr -> exists a, r = Some (Served a)) /\
  (forall key c fs sel tr v, runs (forward apiKeyID key c fs streamStarted sel) tr v ->
     Forall (answered (fails_otherwise (sel_Account sel))) tr -> v = Respond ForwardError).
Proof.
  intros Hg Hb Hn Hc. split.
  - intros tr r Hr Ht. by destruct (ends_runs _ _ _ _ _ _ _
      (handler_serves pool bad maxAccountSwitches apiKeyID good (conj Hg Hb) Hn cand cands streamStarted Hc) Hr Ht) as (w & _ & Hw).
  - intros key c fs sel tr v Hr Ht.
    by destruct (ends_runs _ _ _ _ _ _ _ (other_failure_ends apiKeyID key c fs streamStarted sel) Hr Ht) as (w & _ & Hw).
Qed.

(** ** Witnesses *)

Definition sample_key : APIKey := mkAPIKey 1 (Some 7) (Some (mkGroup 7 false)) [].
Definition sample_cands : list apiKeyGroupRouteCandidate := [mkCandidate sample_key (default_route 7 (Some (mkGroup 7 false)))].

(** Accounts 1 and 2; the first not given up is selected, with its slot; account
    1 always fails, and may be retried. *)
Definition flaky (R : Type) (c : cmd R) : unit -> R * unit :=
  match c in cmd R return unit -> R * unit with
  | ResolveRouteSubscription _ | CheckBillingEligibility _ | ClassifyModelNotFound _ | Sleep _ => fun s => (true, s)
  | SelectAccount _ excluded => fun s =>
      (if decide (1 ∈ excluded) then if decide (2 ∈ excluded) then None else Some (mkselection 2 "openai" true false)
       else Some (mkselection 1 "openai" true false), s)
  | AcquireSlot _ => fun s => ((true, false), s)
  | RequestCanceled => fun s => (false, s)
  | ForwardResult a => fun s => (if a =? 1 then FailoverFailure (mkUpstreamFailoverError 503 false true) false else Forwarded, s)
  | SubmitUsage _ => fun s => (SubmitEnqueued, s)
  | ReleaseSlot _ | Forward _ _ | TempUnschedule _ | RouteFailed _ _ _ | RouteSucceeded _ _ => fun s => (tt, s)
  end.

Definition two_accounts : gset Z := {[1; 2]}.
Definition sample_run (pool : gset Z) (switches : Z) : list (event cmd) * option response :=
  trace flaky (handler pool switches 1 sample_cands true false) tt.

Lemma flaky_from_pool R (c : cmd R) s : from_pool two_accounts R c (fst (flaky R c s)).
Proof.
  destruct c; cbn; try done. destruct (decide (1 ∈ excluded)); [destruct (decide (2 ∈ excluded))|]; cbn; try done;
    try (by apply elem_of_union_r, elem_of_singleton_2); by apply elem_of_union_l, elem_of_singleton_2.
Qed.

Lemma flaky_few R (c : cmd R) s : few_fail two_accounts {[1]} R c (fst (flaky R c s)).
Proof.
  pose proof (flaky_from_pool R c s) as Hp. destruct c; cbn in *; try done.
  - destruct (decide (1 ∈ excluded)) as [H1|H1]; [destruct (decide (2 ∈ excluded)) as [H2|H2]|]; cbn in *; try done.
    unfold two_accounts. intros x [->%elem_of_singleton_1| ->%elem_of_singleton_1]%elem_of_union; done.
  - destruct (Z.eqb_spec account 1) as [->|]; [|done]. split; [by apply elem_of_singleton_2 | done].
Qed.

Lemma failover_terminates_witness : exists resp, snd (sample_run two_accounts 1) = Some resp.
Proof.
  apply (failover_terminates two_accounts 1 1 sample_cands true false 2 9 (fst (sample_run two_accounts 1))).
  - cbn. lia.
  - vm_compute. lia.
  - apply trace_runs.
  - apply trace_answered, flaky_from_pool.
Defined.

(** Account 1 is called four times, then account 2: 5 of the 8 calls allowed. *)
Lemma failover_calls_bounded_witness :
  exists w, watch monitor (fst (sample_run two_accounts 1)) (idle None false 0) = Some w /\ (forwards w <= 8)%nat.
Proof.
  apply (failover_calls_bounded two_accounts 1 1 sample_cands true false _ (snd (sample_run two_accounts 1))).
  - apply trace_runs.
  - apply trace_answered, flaky_from_pool.
Defined.

Lemma failover_disciplined_witness : exists resp w, snd (sample_run two_accounts 1) = Some resp /\
  watch monitor (fst (sample_run two_accounts 1)) (idle None false 0) = Some w /\ held w = None /\
  submitted w = match resp with Served a => [a] | _ => [] end.
Proof.
  apply (failover_disciplined two_accounts 1 1 sample_cands true false (fst (sample_run two_accounts 1))).
  - apply trace_runs.
  - apply trace_answered, flaky_from_pool.
Defined.

Lemma few_failures_served_witness : exists a, snd (sample_run two_accounts 1) = Some (Served a).
Proof.
  apply (few_failures_served two_accounts {[1]} 1 1 2 (mkCandidate sample_key (default_route 7 (Some (mkGroup 7 false)))) [] false)
    with (tr := fst (sample_run two_accounts 1)).
  - by apply elem_of_union_r, elem_of_singleton_2.
  - intros H%elem_of_singleton_1. done.
  - vm_compute. discriminate.
  - reflexivity.
  - apply trace_runs.
  - apply trace_answered, flaky_few.
Defined.
