(* ===== verification/Interleaving.v ===== *)
(** * Programs that share a database

    Any number of programs run side by side, one command at a time, over a
    database and a clock.  What a thread has learned is a list of facts that
    stay true; if every program only issues commands that its facts allow, an
    invariant of the database survives every interleaving. *)

From S2P Require Import Prelude Program.

Section Interleaving.
Context {C : Type -> Type} {DB : Type} {fact : Type}.

(** [answers c now db r db']: at time [now] command [c] may answer [r] and leave [db']. *)
Variable answers : forall R, C R -> Z -> DB -> R -> DB -> Prop.

(** The programs that may start. *)
Variable may_start : prog C unit -> Prop.

Record system : Type := mksystem { database : DB; time : Z; threads : list (prog C unit) }.

Inductive step (s : system) : system -> Prop :=
| step_tick t : time s <= t -> step s (mksystem (database s) t (threads s))
| step_start p : may_start p -> step s (mksystem (database s) (time s) (threads s ++ [p]))
| step_thread i R (c : C R) k r db :
    threads s !! i = Some (Do c k) -> answers R c (time s) (database s) r db ->
    step s (mksystem db (time s) (<[i := k r]> (threads s))).

(** ** Facts and allowed commands *)

Variable holds : fact -> DB -> Prop.
Variable allowed : forall R, C R -> list fact -> Prop.
Variable learned : forall R, C R -> R -> list fact.

(** What a command can answer at all, whatever the database. *)
Variable possible : forall R, C R -> R -> Prop.

(** Starting with the facts [K], the program only issues allowed commands, and
    ends with [Q] of its result and of the facts it knows then. *)
Fixpoint knows {A} (p : prog C A) (K : list fact) (Q : A -> list fact -> Prop) : Prop :=
  match p with
  | Ret a => Q a K
  | Do c k => allowed _ c K /\ forall r, possible _ c r -> knows (k r) (learned _ c r ++ K) Q
  end.

Lemma knows_mono {A} (p : prog C A) K (Q Q' : A -> list fact -> Prop) :
  knows p K Q -> (forall a K', Q a K' -> Q' a K') -> knows p K Q'.
Proof.
  intros H HQ. revert K H. induction p as [a|R c k IH]; intros K H; [by apply HQ|]. destruct H as [Ha Hk].
  split; [done|]. intros r Hr. by apply IH, Hk.
Qed.

Lemma knows_bind {A B} (p : prog C A) (f : A -> prog C B) K Q :
  knows p K (fun a K' => knows (f a) K' Q) -> knows (p ≫= f) K Q.
Proof.
  revert K. induction p as [a|R c k IH]; intros K H; [exact H|]. destruct H as [Ha Hk]. split; [done|].
  intros r Hr. by apply IH, Hk.
Qed.

(** Facts are only gained. *)
Lemma knows_grows {A} (p : prog C A) K Q : knows p K Q -> knows p K (fun a K' => Q a K' /\ K ⊆ K').
Proof.
  revert K. induction p as [a|R c k IH]; intros K H; [done|]. destruct H as [Ha Hk]. split; [done|].
  intros r Hr. eapply knows_mono; [by apply IH, Hk|]. intros a K' [HQ Hs]. split; [done|]. intros f Hf.
  apply Hs, elem_of_app. by right.
Qed.

(** What is known before a program is known after it. *)
Lemma knows_then {A B} (p : prog C A) (f : A -> prog C B) K P Q :
  knows p K P -> (forall a K', P a K' -> K ⊆ K' -> knows (f a) K' Q) -> knows (p ≫= f) K Q.
Proof. intros Hp Hf. apply knows_bind. eapply knows_mono; [by apply knows_grows|]. intros a K' [HP Hs]. by apply Hf. Qed.

Lemma knows_call {R} (c : C R) K Q : allowed R c K -> (forall r, possible R c r -> Q r (learned R c r ++ K)) -> knows (call c) K Q.
Proof. by split. Qed.

Lemma knows_call_bind {R B} (c : C R) (f : R -> prog C B) K Q :
  allowed R c K -> (forall r, possible R c r -> knows (f r) (learned R c r ++ K) Q) -> knows (call c ≫= f) K Q.
Proof. by split. Qed.

(** ** The invariant *)

Variable Inv : DB -> Prop.
Hypothesis step_sound : forall R (c : C R) K now db r db',
  Inv db -> Forall (fun f => holds f db) K -> allowed R c K -> answers R c now db r db' ->
  possible R c r /\ Inv db' /\ Forall (fun f => holds f db') (learned R c r) /\ (forall f, holds f db -> holds f db').
Hypothesis start_sound : forall p, may_start p -> knows p [] (fun _ _ => True).

Definition sound_thread (db : DB) (p : prog C unit) : Prop :=
  exists K, Forall (fun f => holds f db) K /\ knows p K (fun _ _ => True).

Definition sound (s : system) : Prop := Inv (database s) /\ Forall (sound_thread (database s)) (threads s).

Lemma sound_step s s' : sound s -> step s s' -> sound s'.
Proof.
  intros [Hi Ht] Hs. destruct Hs as [t _|p Hp|i R c k r db Hth Ha].
  - by split.
  - split; [done|]. apply Forall_app. split; [done|]. constructor; [|done]. exists []. split; [done | by apply start_sound].
  - destruct (proj1 (Forall_lookup _ _) Ht i _ Hth) as (K & HK & [Hal Hk]).
    destruct (step_sound R c K (time s) (database s) r db Hi HK Hal Ha) as (Hpo & Hi' & Hl & Hst).
    assert (Hall : forall L, Forall (fun f => holds f (database s)) L -> Forall (fun f => holds f db) L).
    { intros L HL. eapply Forall_impl; [exact HL | exact Hst]. }
    split; [done|]. cbn [threads database]. apply Forall_insert.
    + eapply Forall_impl; [exact Ht|]. intros p (K' & HK' & Hp). exists K'. split; [by apply Hall | done].
    + exists (learned R c r ++ K). split; [apply Forall_app; split; [done | by apply Hall] | by apply Hk].
Qed.

Theorem invariant_reachable db now s : Inv db -> rtc step (mksystem db now []) s -> Inv (database s).
Proof.
  intros Hi Hr. enough (sound s) as [H _] by done. assert (H0 : sound (mksystem db now [])) by by split.
  revert H0. induction Hr as [|s1 s2 s3 Hs Hr IH]; [done|]. intros H0. apply IH. by eapply sound_step.
Qed.

(** What every answer preserves, whoever asks. *)
Lemma preserved_reachable (P : DB -> Prop) :
  (forall R (c : C R) now db r db', P db -> answers R c now db r db' -> P db') ->
  forall s s', P (database s) -> rtc step s s' -> P (database s').
Proof.
  intros H s s' Hp Hr. induction Hr as [|s1 s2 s3 Hs Hr IH]; [done|]. apply IH. destruct Hs as [| |i R c k r db' _ Ha]; [done..|]. by eapply H.
Qed.

(** ** Concrete runs

    A handler whose answers are [answers] runs a program to its end, as one
    thread of the system. *)

Lemma step_last db now ts R (c : C R) k r db' : answers R c now db r db' ->
  step (mksystem db now (ts ++ [Do c k])) (mksystem db' now (ts ++ [k r])).
Proof.
  intros Ha. pose proof (step_thread (mksystem db now (ts ++ [Do c k])) (length ts) R c k r db') as H. cbn in H.
  rewrite insert_app_r_alt, Nat.sub_diag in H by done. apply H; [|done]. by rewrite lookup_app_r, Nat.sub_diag.
Qed.

Definition obeys (handle : forall R, C R -> Z * DB -> R * (Z * DB)) : Prop :=
  forall R (c : C R) now db, let '(r, (now', db')) := handle R c (now, db) in now' = now /\ answers R c now db r db'.

Lemma run_reaches handle now ts (p : prog C unit) db : obeys handle ->
  let '(_, (_, db')) := run_alone handle p (now, db) in
  rtc step (mksystem db now (ts ++ [p])) (mksystem db' now (ts ++ [Ret tt])).
Proof.
  intros Hh. revert db. induction p as [[]|R c k IH]; intros db; cbn [run_alone]; [constructor|].
  specialize (Hh R c now db). destruct (handle R c (now, db)) as [r [now' db']]. destruct Hh as [-> Ha].
  specialize (IH r db'). destruct (run_alone handle (k r) (now, db')) as [? [? db2]]. eapply rtc_l; [|exact IH].
  by apply step_last.
Qed.

(** ** Schedules

    A schedule starts programs and lets threads execute so many commands, each
    time with a handler of its own; what it leads to is reachable. *)

Definition handler : Type := forall R, C R -> Z * DB -> R * (Z * DB).

Fixpoint advance {A} (handle : handler) (n : nat) (p : prog C A) (st : Z * DB) : prog C A * (Z * DB) :=
  match n, p with
  | S n, Do c k => let '(r, st) := handle _ c st in advance handle n (k r) st
  | _, _ => (p, st)
  end.

Inductive action : Type :=
| Start (p : prog C unit)
| Run (i : nat) (handle : handler) (n : nat).

Definition act (s : system) (a : action) : system :=
  match a with
  | Start p => mksystem (database s) (time s) (threads s ++ [p])
  | Run i handle n =>
      match threads s !! i with
      | Some p => let '(p, (_, db)) := advance handle n p (time s, database s) in mksystem db (time s) (<[i := p]> (threads s))
      | None => s
      end
  end.

Definition valid (a : action) : Prop := match a with Start p => may_start p | Run _ handle _ => obeys handle end.

Lemma advance_reaches handle n : obeys handle -> forall (p : prog C unit) db now ts i, ts !! i = Some p ->
  let '(p', (_, db')) := advance handle n p (now, db) in
  rtc step (mksystem db now ts) (mksystem db' now (<[i := p']> ts)).
Proof.
  intros Hh. induction n as [|n IH]; intros p db now ts i Hi; [by cbn; rewrite list_insert_id|]. destruct p as [a|R c k]; cbn [advance].
  { by rewrite list_insert_id. }
  specialize (Hh R c now db). destruct (handle R c (now, db)) as [r [now' db1]]. destruct Hh as [-> Ha].
  specialize (IH (k r) db1 now (<[i := k r]> ts) i). destruct (advance handle n (k r) (now, db1)) as [p' [? db2]].
  eapply rtc_l; [exact (step_thread (mksystem db now ts) i R c k r db1 Hi Ha)|]. cbn. rewrite list_insert_insert_eq in IH. apply IH.
  apply list_lookup_insert_eq. by eapply lookup_lt_Some.
Qed.

Lemma act_reaches s a : valid a -> rtc step s (act s a).
Proof.
  destruct a as [p|i handle n]; cbn; intros Hv.
  - apply rtc_once. by constructor.
  - destruct (threads s !! i) as [p|] eqn:Hi; [|done]. pose proof (advance_reaches handle n Hv p (database s) (time s) _ _ Hi) as H.
    destruct (advance handle n p (time s, database s)) as [p' [? db']]. by destruct s.
Qed.

Lemma schedule_reaches l : Forall valid l -> forall s, rtc step s (foldl act s l).
Proof.
  induction 1 as [|a l Ha _ IH]; intros s; [done|]. cbn [foldl]. etrans; [by apply act_reaches | apply IH].
Qed.
End Interleaving.

Arguments mksystem {C DB} database time threads.
Arguments database {C DB} s.
Arguments time {C DB} s.
Arguments threads {C DB} s.

(** * Exclusive ownership in interleaved programs

    A thread of [Interleaving] may own tokens, of which no other thread owns a
    copy.  A command is permitted by the tokens of the thread that issues it,
    and changes them with its answer; the invariant speaks of the database and
    of all tokens, whoever owns them. *)

Section Ownership.
Context {C : Type -> Type} {DB : Type} {token : Type}.
Variable answers : forall R, C R -> Z -> DB -> R -> DB -> Prop.
Variable may_start : prog C unit -> Prop.
Variable permitted : forall R, C R -> list token -> Prop.
Variable after : forall R, C R -> R -> list token -> list token.
Variable possible : forall R, C R -> R -> Prop.

(** Owning [T], the program only issues permitted commands, and ends with [Q]
    of its result and of what it owns then. *)
Fixpoint owns {A} (p : prog C A) (T : list token) (Q : A -> list token -> Prop) : Prop :=
  match p with
  | Ret a => Q a T
  | Do c k => permitted _ c T /\ forall r, possible _ c r -> owns (k r) (after _ c r T) Q
  end.

Lemma owns_mono {A} (p : prog C A) T (Q Q' : A -> list token -> Prop) :
  owns p T Q -> (forall a T', Q a T' -> Q' a T') -> owns p T Q'.
Proof.
  intros H HQ. revert T H. induction p as [a|R c k IH]; intros T H; [by apply HQ|]. destruct H as [Hp Hk].
  split; [done|]. intros r Hr. by apply IH, Hk.
Qed.

Lemma owns_then {A B} (p : prog C A) (f : A -> prog C B) T P Q :
  owns p T P -> (forall a T', P a T' -> owns (f a) T' Q) -> owns (p ≫= f) T Q.
Proof.
  revert T. induction p as [a|R c k IH]; intros T H HP; [by apply HP|]. destruct H as [Hp Hk]. split; [done|].
  intros r Hr. apply IH; [by apply Hk | done].
Qed.

Lemma owns_call {R} (c : C R) T Q : permitted R c T -> (forall r, possible R c r -> Q r (after R c r T)) -> owns (call c) T Q.
Proof. by split. Qed.

Lemma owns_call_bind {R B} (c : C R) (f : R -> prog C B) T Q :
  permitted R c T -> (forall r, possible R c r -> owns (f r) (after R c r T) Q) -> owns (call c ≫= f) T Q.
Proof. by split. Qed.

(** ** The invariant *)

Variable Inv : DB -> list token -> Prop.
Hypothesis Inv_perm : forall db T T', T ≡ₚ T' -> Inv db T -> Inv db T'.
Hypothesis step_owned : forall R (c : C R) T F now db r db',
  Inv db (T ++ F) -> permitted R c T -> answers R c now db r db' -> possible R c r /\ Inv db' (after R c r T ++ F).
Hypothesis start_owned : forall p, may_start p -> owns p [] (fun _ _ => True).

Definition owned_by (p : prog C unit) (T : list token) : Prop := owns p T (fun _ _ => True).

Definition owned (s : system) : Prop :=
  exists Ts, Forall2 owned_by (threads s) Ts /\ Inv (database s) (concat Ts).

Lemma concat_middle (Ts1 : list (list token)) T Ts2 : concat (Ts1 ++ T :: Ts2) ≡ₚ T ++ concat Ts1 ++ concat Ts2.
Proof. rewrite concat_app. cbn. rewrite !(assoc_L (++)). apply Permutation_app_tail, Permutation_app_comm. Qed.

Lemma owned_step s s' : owned s -> step answers may_start s s' -> owned s'.
Proof.
  intros (Ts & Ht & Hi) Hs. destruct Hs as [t _|p Hp|i R c k r db Hth Ha].
  - by exists Ts.
  - exists (Ts ++ [[]]). split.
    + apply Forall2_app; [done|]. constructor; [by apply start_owned | constructor].
    + cbn [database]. rewrite concat_app. cbn. by rewrite app_nil_r.
  - destruct (Forall2_lookup_l _ _ _ _ _ Ht Hth) as (T & HT & [Hpe Hk]). set (F := concat (take i Ts) ++ concat (drop (S i) Ts)).
    destruct (step_owned R c T F (time s) (database s) r db) as [Hpo Hi']; try done.
    { eapply Inv_perm; [|exact Hi]. rewrite <- (take_drop_middle Ts i T HT) at 1. apply concat_middle. }
    exists (<[i := after R c r T]> Ts). cbn [threads database]. split; [by apply Forall2_insert, Hk|].
    eapply Inv_perm; [|exact Hi']. rewrite insert_take_drop by (by eapply lookup_lt_Some). by rewrite concat_middle.
Qed.

Theorem owned_reachable db now s : Inv db [] -> rtc (step answers may_start) (mksystem db now []) s ->
  exists T, Inv (database s) T.
Proof.
  intros Hi Hr. enough (owned s) as (Ts & _ & H) by (by eexists). assert (H0 : owned (mksystem db now [])) by (by exists []).
  revert H0. induction Hr as [|s1 s2 s3 Hs Hr IH]; [done|]. intros H0. apply IH. by eapply owned_step.
Qed.
End Ownership.
