(* ===== verification/PaymentData.v ===== *)
(** * Payment orders (internal/payment, internal/service/payment_fulfillment.go)

    Amounts are IEEE 754 doubles; an order is updated by a list of changes under
    a condition, the way the query builder of the ORM does. *)

From Stdlib Require Import Floats.SpecFloat.
From S2P Require Import Prelude GoStrings Json AppErrors.

(** ** float64 *)

Abbreviation float64 := spec_float.

Definition f64_sub : float64 -> float64 -> float64 := SFsub 53 1024.
Definition f64_add : float64 -> float64 -> float64 := SFadd 53 1024.
Definition f64_mul : float64 -> float64 -> float64 := SFmul 53 1024.
Definition f64_div : float64 -> float64 -> float64 := SFdiv 53 1024.
Definition f64_of_Z (z : Z) : float64 := binary_normalize 53 1024 z 0 false.
(** The literal [n/d]: the double nearest to the quotient. *)
Definition f64_ratio (n d : Z) : float64 := f64_div (f64_of_Z n) (f64_of_Z d).
Definition f64_zero : float64 := S754_zero false.

Definition is_nan (x : float64) : bool := match x with S754_nan => true | _ => false end.
Definition is_inf (x : float64) : bool := match x with S754_infinity _ => true | _ => false end.

(** [math.Round]: to the nearest integer, halves away from zero. *)
Definition f64_round (x : float64) : float64 :=
  match x with
  | S754_finite s m e =>
      if 0 <=? e then x else
      let q := (Z.pos m + 2 ^ (- e - 1)) / 2 ^ (- e) in
      binary_normalize 53 1024 (if s then - q else q) 0 s
  | _ => x
  end.

(** ** Currencies (payment/currency.go) *)

Definition DefaultPaymentCurrency : string := "CNY".

Record paymentCurrencyAmountUnit : Type := mkUnit { apiMinorUnit : Z; maxFractionDigits : Z }.

Definition zeroDecimalAmountUnit : paymentCurrencyAmountUnit := mkUnit 0 0.
Definition twoDecimalAmountUnit : paymentCurrencyAmountUnit := mkUnit 2 2.
Definition threeDecimalAmountUnit : paymentCurrencyAmountUnit := mkUnit 3 3.
Definition stripeLegacyZeroAmount : paymentCurrencyAmountUnit := mkUnit 2 0.

Definition paymentCurrencyAmountUnits (currency : string) : option paymentCurrencyAmountUnit :=
  if in_list currency ["BIF"; "CLP"; "DJF"; "GNF"; "JPY"; "KMF"; "KRW"; "MGA"; "PYG"; "RWF"; "VND"; "VUV"; "XAF"; "XOF"; "XPF"]
  then Some zeroDecimalAmountUnit
  else if in_list currency ["ISK"; "UGX"] then Some stripeLegacyZeroAmount
  else if in_list currency ["BHD"; "IQD"; "JOD"; "KWD"; "LYD"; "OMR"; "TND"] then Some threeDecimalAmountUnit
  else None.

(** [strings.ToUpper], as far as a result inside ASCII goes: the only runes
    outside ASCII whose upper case is a letter of it are U+0131 (I) and U+017F
    (S); the others stay outside and are left alone. *)
Definition upper_of (c : ascii) : ascii := if in_range 97 122 c then byte_of (byte_val c - 32) else c.

Fixpoint ToUpper (s : string) : string :=
  match s with
  | String a (String b s2 as s1) =>
      if (byte_val a =? 0xC4) && (byte_val b =? 0xB1) then String "I"%char (ToUpper s2)
      else if (byte_val a =? 0xC5) && (byte_val b =? 0xBF) then String "S"%char (ToUpper s2)
      else String (upper_of a) (ToUpper s1)
  | String a EmptyString => String (upper_of a) ""
  | EmptyString => ""
  end.

Definition NormalizePaymentCurrency (raw : string) : option string :=
  let currency := ToUpper (trim_space raw) in
  if currency =s? "" then Some DefaultPaymentCurrency else
  if negb (Z.of_nat (String.length currency) =? 3) then None else
  if all_bytes (in_range 65 90) currency then Some currency else None.

Definition paymentCurrencyAmountUnitFor (currency : string) : paymentCurrencyAmountUnit :=
  match NormalizePaymentCurrency currency with
  | None => twoDecimalAmountUnit
  | Some normalized => default twoDecimalAmountUnit (paymentCurrencyAmountUnits normalized)
  end.

Definition CurrencyMaxFractionDigits (currency : string) : Z := maxFractionDigits (paymentCurrencyAmountUnitFor currency).
Definition CurrencyMinorUnit (currency : string) : Z := apiMinorUnit (paymentCurrencyAmountUnitFor currency).

Definition amountToleranceCNY : float64 := f64_ratio 1 100.

Definition paymentAmountToleranceForCurrency (currency : string) : float64 :=
  let minorUnit := CurrencyMinorUnit currency in
  if minorUnit <=? 2 then amountToleranceCNY else f64_div (f64_ratio 1 (10 ^ minorUnit)) (f64_of_Z 2).

Definition isValidProviderAmount (amount : float64) : bool :=
  SFltb f64_zero amount && negb (is_nan amount) && negb (is_inf amount).

(** [math.Abs(a-b) > tolerance] *)
Definition differs_by_more (a b tolerance : float64) : bool := SFltb tolerance (SFabs (f64_sub a b)).

(** ** Orders *)

Definition OrderStatusPending : string := "PENDING".
Definition OrderStatusPaid : string := "PAID".
Definition OrderStatusRecharging : string := "RECHARGING".
Definition OrderStatusCompleted : string := "COMPLETED".
Definition OrderStatusExpired : string := "EXPIRED".
Definition OrderStatusCancelled : string := "CANCELLED".
Definition OrderStatusFailed : string := "FAILED".
Definition OrderStatusRefundRequested : string := "REFUND_REQUESTED".
Definition OrderStatusRefunding : string := "REFUNDING".
Definition OrderStatusRefundPending : string := "REFUND_PENDING".
Definition OrderStatusPartiallyRefunded : string := "PARTIALLY_REFUNDED".
Definition OrderStatusRefunded : string := "REFUNDED".
Definition OrderStatusRefundFailed : string := "REFUND_FAILED".

Definition OrderTypeBalance : string := "balance".
Definition OrderTypeSubscription : string := "subscription".
Definition OrderTypeShop : string := "shop".

(** What psOrderProviderSnapshot reads out of the stored snapshot, with its
    strings trimmed. *)
Record paymentOrderProviderSnapshot : Type := mkSnapshot {
  snap_SchemaVersion : Z;
  snap_ProviderInstanceID : string;
  snap_ProviderKey : string;
  snap_PaymentMode : string;
  snap_MerchantAppID : string;
  snap_MerchantID : string;
  snap_Currency : string;
}.

(** The fields this code reads; columns that are empty strings when they are
    null are strings.  Times are nanoseconds. *)
Record PaymentOrder : Type := mkPaymentOrder {
  order_ID : Z;
  UserID : Z;
  Amount : float64;
  PayAmount : float64;
  ProviderSnapshot : option paymentOrderProviderSnapshot;
  ProviderInstanceID : string;
  ProviderKey : string;
  OrderType : string;
  order_Status : string;
  PaidAt : option Z;
  order_ExpiresAt : Z;
  UpdatedAt : Z;
  PaymentTradeNo : string;
  PaymentType : string;
  OutTradeNo : string;
  RechargeCode : string;
  SubscriptionGroupID : option Z;
  SubscriptionDays : option Z;
  RefundAmount : float64;
  RefundReason : string;
  RefundRequestReason : option string;
  ForceRefund : bool;
}.
#[export] Instance eta_PaymentOrder : Settable PaymentOrder := fun o =>
  mkPaymentOrder (order_ID o) (UserID o) (Amount o) (PayAmount o) (ProviderSnapshot o) (ProviderInstanceID o) (ProviderKey o)
    (OrderType o) (order_Status o) (PaidAt o) (order_ExpiresAt o) (UpdatedAt o) (PaymentTradeNo o) (PaymentType o)
    (OutTradeNo o) (RechargeCode o) (SubscriptionGroupID o) (SubscriptionDays o) (RefundAmount o) (RefundReason o)
    (RefundRequestReason o) (ForceRefund o).

Definition psIsRefundStatus (s : string) : bool :=
  in_list s [OrderStatusRefundRequested; OrderStatusRefunding; OrderStatusRefundPending; OrderStatusPartiallyRefunded;
             OrderStatusRefunded; OrderStatusRefundFailed].

Definition PaymentOrderCurrency (o : PaymentOrder) : string :=
  match ProviderSnapshot o with
  | Some snapshot => default DefaultPaymentCurrency (NormalizePaymentCurrency (snap_Currency snapshot))
  | None => DefaultPaymentCurrency
  end.

(** ** Conditions and changes *)

Inductive condition : Type :=
| StatusIn (l : list string)
| ExpiresAtGTE (t : Z)
| ExpiresAtLTE (t : Z)
| UpdatedAtGTE (t : Z)
| UpdatedAtLTE (t : Z)
| UserIDEQ (u : Z)
| OrderTypeEQ (s : string)
| And (p q : condition)
| Or (p q : condition)
| Always.

Definition StatusEQ (s : string) : condition := StatusIn [s].

Fixpoint meets (p : condition) (o : PaymentOrder) : bool :=
  match p with
  | StatusIn l => in_list (order_Status o) l
  | ExpiresAtGTE t => t <=? order_ExpiresAt o
  | ExpiresAtLTE t => order_ExpiresAt o <=? t
  | UpdatedAtGTE t => t <=? UpdatedAt o
  | UpdatedAtLTE t => UpdatedAt o <=? t
  | UserIDEQ u => UserID o =? u
  | OrderTypeEQ s => OrderType o =s? s
  | And p q => meets p o && meets q o
  | Or p q => meets p o || meets q o
  | Always => true
  end.

(** completed_at, failed_at and failed_reason are written and never read here,
    and so are refund_at and who requested a refund when. *)
Inductive change : Type :=
| SetStatus (s : string)
| SetPayAmount (a : float64)
| SetPaymentTradeNo (s : string)
| SetPaidAt (t : Z)
| SetRefundAmount (a : float64)
| SetRefundReason (s : string)
| SetRefundRequestReason (s : string)
| SetForceRefund (b : bool).

Definition apply_change (c : change) (o : PaymentOrder) : PaymentOrder :=
  match c with
  | SetStatus s => o <| order_Status := s |>
  | SetPayAmount a => o <| PayAmount := a |>
  | SetPaymentTradeNo s => o <| PaymentTradeNo := s |>
  | SetPaidAt t => o <| PaidAt := Some t |>
  | SetRefundAmount a => o <| RefundAmount := a |>
  | SetRefundReason s => o <| RefundReason := s |>
  | SetRefundRequestReason s => o <| RefundRequestReason := Some s |>
  | SetForceRefund b => o <| ForceRefund := b |>
  end.

(** Every update sets updated_at. *)
Definition apply_changes (now : Z) (cs : list change) (o : PaymentOrder) : PaymentOrder :=
  foldl (fun o c => apply_change c o) o cs <| UpdatedAt := now |>.

(** ** Redeem codes *)

Definition StatusUnused : string := "unused".
Definition StatusUsed : string := "used".
Definition RedeemTypeBalance : string := "balance".
Definition RedeemTypePoints : string := "points".
Definition RedeemTypeConcurrency : string := "concurrency".
Definition RedeemTypeSubscription : string := "subscription".
Definition RedeemTypeInvitation : string := "invitation".

(** used_at and the notes are written and never read here. *)
Record RedeemCode : Type := mkRedeemCode {
  code_ID : Z;
  code_Code : string;
  code_Type : string;
  code_Value : float64;
  code_Status : string;
  UsedBy : option Z;
  code_GroupID : option Z;
  code_ValidityDays : Z;
}.
#[export] Instance eta_RedeemCode : Settable RedeemCode := fun c =>
  mkRedeemCode (code_ID c) (code_Code c) (code_Type c) (code_Value c) (code_Status c) (UsedBy c) (code_GroupID c) (code_ValidityDays c).

Definition IsUsed (c : RedeemCode) : bool := code_Status c =s? StatusUsed.
Definition CanUse (c : RedeemCode) : bool := code_Status c =s? StatusUnused.

(** ** Providers *)

Definition TypeAlipay : string := "alipay".
Definition TypeWxpay : string := "wxpay".
Definition TypeAlipayDirect : string := "alipay_direct".
Definition TypeWxpayDirect : string := "wxpay_direct".
Definition TypeStripe : string := "stripe".
Definition TypeCard : string := "card".
Definition TypeLink : string := "link".
Definition TypeEasyPay : string := "easypay".
Definition TypeAirwallex : string := "airwallex".

(** A configured account with a provider; its credentials are not read here. *)
Record PaymentProviderInstance : Type := mkInstance {
  inst_ID : Z;
  inst_ProviderKey : string;
  inst_SupportedTypes : string;
  inst_Enabled : bool;
  inst_AllowUserRefund : bool;
  inst_RefundEnabled : bool;
  inst_Limits : string;
  inst_SortOrder : Z;
}.

(** A provider client: its key, the identity of the merchant it reports (none
    if it does not), and whether the status of a refund can be queried. *)
Record Provider : Type := mkProvider {
  prov_ProviderKey : string;
  prov_MerchantIdentity : list (string * string);
  prov_QueriesRefunds : bool;
}.

Record RefundRequest : Type := mkRefundRequest { rr_TradeNo : string; rr_OrderID : string; rr_Amount : string; rr_Reason : string }.
Record RefundQueryRequest : Type :=
  mkRefundQueryRequest { rq_TradeNo : string; rq_OrderID : string; rq_RefundID : string; rq_Amount : string }.
Record RefundResponse : Type := mkRefundResponse { resp_RefundID : string; resp_RefundStatus : string }.

(** The part of the audit entry of a pending refund that is read again. *)
Record refundPendingAuditDetail : Type := mkPendingDetail { detail_RefundID : string; DeductionRollbackOK : bool }.

(** [strconv.ParseInt(s, 10, 64)], which takes a sign. *)
Definition ParseInt (s : string) : option Z :=
  let digits (s : string) := match s with String d _ => if is_digit d then parse_int64 s else None | EmptyString => None end in
  match s with
  | String c rest =>
      if Ascii.eqb c "+"%char then digits rest
      else if Ascii.eqb c "-"%char then match rest with String d _ => if is_digit d then parse_int64 s else None | EmptyString => None end
      else digits s
  | EmptyString => None
  end.

(** [int(x)] of a float64 that is in the range of an int: towards zero. *)
Definition f64_trunc (x : float64) : Z :=
  match x with
  | S754_finite s m e =>
      let q := if 0 <=? e then Z.pos m * 2 ^ e else Z.pos m / 2 ^ (- e) in
      if s then - q else q
  | _ => 0
  end.

(** [strings.EqualFold], by the simple folding of ASCII and of U+017F, U+212A. *)
Definition EqualFold (a b : string) : bool := fold_name a =s? fold_name b.

Example tolerance_CNY : paymentAmountToleranceForCurrency "cny" = S754_finite false 5764607523034235 (-59).
Proof. vm_compute. reflexivity. Qed.

Example tolerance_KWD : paymentAmountToleranceForCurrency "KWD" = S754_finite false 4611686018427388 (-63).
Proof. vm_compute. reflexivity. Qed.

Example round_halves : f64_round (f64_ratio 5 2) = f64_of_Z 3 /\ f64_round (SFopp (f64_ratio 5 2)) = f64_of_Z (-3).
Proof. split; vm_compute; reflexivity. Qed.
