(* ===== verification/Transactions.v ===== *)
(** * Database transactions

    The body of a transaction is a computation over the tables whose statements
    may fail; what it did is kept only if it is committed.  The answer of a
    commit can get lost after it took effect. *)

From Stdlib Require Import Floats.SpecFloat.
From S2P Require Import Prelude GoStrings AppErrors PaymentData.

(** ** Computations *)

Section Transactions.
Context {DB : Type}.

(** The tables, and how many statements were executed. *)
Definition TX (A : Type) : Type := nat * DB -> outcome A * (nat * DB).

#[export] Instance tx_mret : MRet TX := fun A a s => (Success a, s).
#[export] Instance tx_mbind : MBind TX := fun A B f m s =>
  match m s with
  | (Success a, s) => f a s
  | (Failure e, s) => (Failure e, s)
  end.

Definition fail {A} (e : error) : TX A := fun s => (Failure e, s).

(** The n-th statement of the transaction fails with [faults n]. *)
Context (faults : nat -> option error).

Definition statement {A} (f : DB -> outcome A * DB) : TX A := fun '(n, db) =>
  match faults n with
  | Some e => (Failure e, (S n, db))
  | None => let '(r, db) := f db in (r, (S n, db))
  end.

Definition query {A} (f : DB -> A) : TX A := statement (fun db => (Success (f db), db)).
Definition exec (f : DB -> DB) : TX unit := statement (fun db => (Success tt, f db)).

(** What a driver says to a statement with another number of arguments than placeholders. *)
Definition arity_error (placeholders arguments : nat) : option error :=
  if (arguments =? placeholders)%nat then None
  else Some (OtherError ("sql: expected " +:+ pretty (Z.of_nat placeholders) +:+ " arguments, got " +:+ pretty (Z.of_nat arguments))).

Definition refuse {A} (e : error) : TX A := statement (fun db => (Failure e, db)).

(** ** The end *)

Inductive commit_answer : Type := Committed | NotCommitted (e : error) | CommittedUnanswered (e : error).

(** [Some]: the body asks for a commit; [None]: it returns, and is rolled back. *)
Definition transaction {A} (body : TX (A * bool)) (answer : commit_answer) (db : DB) : outcome A * DB :=
  match body (0%nat, db) with
  | (Success (a, true), (_, db')) =>
      match answer with
      | Committed => (Success a, db')
      | NotCommitted e => (Failure e, db)
      | CommittedUnanswered e => (Failure e, db')
      end
  | (Success (a, false), _) => (Success a, db)
  | (Failure e, _) => (Failure e, db)
  end.

(** ** Reasoning *)

(** The relation holds if nothing fails. *)
Definition does {A} (m : TX A) (db : DB) (P : A -> DB -> Prop) : Prop :=
  forall n, match m (n, db) with (Success a, (_, db')) => P a db' | (Failure _, _) => True end.

Lemma does_ret {A} (a : A) db (P : A -> DB -> Prop) : P a db -> does (mret a) db P.
Proof. by intros H n. Qed.

Lemma does_fail {A} e db (P : A -> DB -> Prop) : does (fail e) db P.
Proof. done. Qed.

Lemma does_bind {A B} (m : TX A) (f : A -> TX B) db P Q :
  does m db P -> (forall a db', P a db' -> does (f a) db' Q) -> does (m ≫= f) db Q.
Proof.
  intros Hm Hf n. specialize (Hm n). unfold mbind, tx_mbind. destruct (m (n, db)) as [[a|e] [n' db']]; [|done].
  by apply Hf.
Qed.

Lemma does_mono {A} (m : TX A) db (P Q : A -> DB -> Prop) : does m db P -> (forall a db', P a db' -> Q a db') -> does m db Q.
Proof. intros Hm HQ n. specialize (Hm n). destruct (m (n, db)) as [[a|e] [n' db']]; auto. Qed.

Lemma does_statement {A} (f : DB -> outcome A * DB) db (P : A -> DB -> Prop) :
  (forall a db', f db = (Success a, db') -> P a db') -> does (statement f) db P.
Proof. intros H n. unfold statement. destruct (faults n); [done|]. destruct (f db) as [[a|e] db'] eqn:E; [by apply H | done]. Qed.

Lemma does_query {A} (f : DB -> A) db (P : A -> DB -> Prop) : P (f db) db -> does (query f) db P.
Proof. intros H. apply does_statement. by intros a db' [= <- <-]. Qed.

Lemma does_exec (f : DB -> DB) db (P : unit -> DB -> Prop) : P tt (f db) -> does (exec f) db P.
Proof. intros H. apply does_statement. by intros a db' [= <- <-]. Qed.

Lemma does_refuse {A} e db (P : A -> DB -> Prop) : does (refuse e) db P.
Proof. apply does_statement. done. Qed.

(** A transaction that leaves other tables was committed. *)
Lemma transaction_does {A} (body : TX (A * bool)) answer db (P : A * bool -> DB -> Prop) : does body db P ->
  let '(r, db') := transaction body answer db in
  match r with
  | Success a => P (a, true) db' \/ (exists db'', P (a, false) db'') /\ db' = db
  | Failure _ => db' = db \/ exists a, P (a, true) db'
  end.
Proof.
  intros H. specialize (H 0%nat). unfold transaction. destruct (body (0%nat, db)) as [[[a [|]]|e] [n' db']].
  - destruct answer; [by left | by left | by right; exists a].
  - right. by split; [exists db'|].
  - by left.
Qed.
End Transactions.

#[export] Hint Resolve does_fail does_refuse : core.
