(* ===== verification/Decimals.v ===== *)
(** * The decimal package (github.com/shopspring/decimal)

    Amounts of money are converted, multiplied and rounded by a package that is
    not part of the repository: its operations are an interface.  The code
    that uses them is proved for any implementation. *)

From Stdlib Require Import Floats.SpecFloat QArith.
From Stdlib Require Import Qround Qabs.
From S2P Require Import Prelude GoStrings Json PaymentData.

Open Scope Z_scope.

Class decimal_ops : Type := {
  decimal : Type;
  NewFromFloat : float64 -> decimal;
  NewFromString : string -> option decimal;
  NewFromInt : Z -> decimal;
  dec_New : Z -> Z -> decimal;                    (* value * 10 ^ exponent *)
  dec_Add : decimal -> decimal -> decimal;
  dec_Sub : decimal -> decimal -> decimal;
  dec_Mul : decimal -> decimal -> decimal;
  dec_Div : decimal -> decimal -> decimal;
  dec_Round : Z -> decimal -> decimal;            (* to so many places *)
  dec_RoundUp : Z -> decimal -> decimal;
  dec_Truncate : Z -> decimal -> decimal;
  dec_Equal : decimal -> decimal -> bool;
  dec_GreaterThan : decimal -> decimal -> bool;
  IsNegative : decimal -> bool;
  IsZero : decimal -> bool;
  IntPart : decimal -> Z;
  InexactFloat64 : decimal -> float64;
  StringFixed : Z -> decimal -> string;
}.

(** What is documented of its numbers: they are exact, Round gives the nearest
    decimal with so many places. *)
Definition places (n : Z) (q : Q) : Prop := exists z : Z, (q == z # Z.to_pos (10 ^ n))%Q.

Class decimal_laws (D : decimal_ops) : Type := {
  dval : decimal -> Q;
  dval_int : forall z, (dval (NewFromInt z) == inject_Z z)%Q;
  dval_sub : forall a b, (dval (dec_Sub a b) == dval a - dval b)%Q;
  dval_float : forall x, SFltb f64_zero x = true -> (0 <= dval (NewFromFloat x))%Q;
  round_places : forall n d, 0 <= n -> places n (dval (dec_Round n d));
  round_exact : forall n d, 0 <= n -> places n (dval d) -> (dval (dec_Round n d) == dval d)%Q;
  round_nonneg : forall n d, 0 <= n -> (0 <= dval d)%Q -> (0 <= dval (dec_Round n d))%Q;
  greater_spec : forall a b, dec_GreaterThan a b = true <-> (dval b < dval a)%Q;
  negative_spec : forall d, IsNegative d = true <-> (dval d < 0)%Q;
}.

Section Amounts.
Context {D : decimal_ops}.

(** ** payment/currency.go *)

Definition FormatAmountForCurrency (amount : float64) (currency : string) : string :=
  StringFixed (CurrencyMaxFractionDigits currency) (NewFromFloat amount).

(** [None]: an error. *)
Definition AmountToMinorUnit (amountStr currency : string) : option Z :=
  d ← NewFromString (trim_space amountStr);
  normalizedCurrency ← NormalizePaymentCurrency currency;
  let amountUnit := paymentCurrencyAmountUnitFor normalizedCurrency in
  let scaledForPrecision := dec_Mul d (dec_New 1 (maxFractionDigits amountUnit)) in
  if negb (dec_Equal scaledForPrecision (dec_Truncate 0 scaledForPrecision)) then None
  else Some (IntPart (dec_Mul d (dec_New 1 (apiMinorUnit amountUnit)))).

Definition MinorUnitToAmount (value : Z) (currency : string) : float64 :=
  InexactFloat64 (dec_Div (NewFromInt value) (dec_New 1 (CurrencyMinorUnit currency))).

(** ** payment/amount.go, payment/fee.go *)

Definition centsPerYuan : Z := 100.

Definition YuanToFen (yuanStr : string) : option Z :=
  d ← NewFromString yuanStr;
  Some (IntPart (dec_Mul d (NewFromInt centsPerYuan))).

Definition FenToYuan (fen : Z) : float64 := InexactFloat64 (dec_Div (NewFromInt fen) (NewFromInt centsPerYuan)).

(** The fee is rounded up. *)
Definition CalculatePayAmountForCurrency (rechargeAmount feeRate : float64) (currency : string) : string :=
  let fractionDigits := CurrencyMaxFractionDigits currency in
  let amount := NewFromFloat rechargeAmount in
  if SFleb feeRate f64_zero then StringFixed fractionDigits amount else
  let fee := dec_RoundUp fractionDigits (dec_Div (dec_Mul amount (NewFromFloat feeRate)) (NewFromInt 100)) in
  StringFixed fractionDigits (dec_Add amount fee).

Definition CalculatePayAmount (rechargeAmount feeRate : float64) : string :=
  CalculatePayAmountForCurrency rechargeAmount feeRate DefaultPaymentCurrency.

(** ** service/payment_amounts.go *)

Definition defaultBalanceRechargeMultiplier : float64 := f64_of_Z 1.

Definition normalizeBalanceRechargeMultiplier (multiplier : float64) : float64 :=
  if is_nan multiplier || is_inf multiplier || SFleb multiplier f64_zero then defaultBalanceRechargeMultiplier else multiplier.

Definition calculateCreditedBalance (paymentAmount multiplier : float64) : float64 :=
  InexactFloat64 (dec_Round 2 (dec_Mul (NewFromFloat paymentAmount) (NewFromFloat (normalizeBalanceRechargeMultiplier multiplier)))).

Definition calculateGatewayRefundAmount (orderAmount payAmount refundAmount : float64) (currency : string) : float64 :=
  if SFleb orderAmount f64_zero || SFleb payAmount f64_zero || SFleb refundAmount f64_zero then f64_zero else
  let fractionDigits := CurrencyMaxFractionDigits currency in
  if SFleb (SFabs (f64_sub refundAmount orderAmount)) (paymentAmountToleranceForCurrency currency)
  then InexactFloat64 (dec_Round fractionDigits (NewFromFloat payAmount))
  else InexactFloat64 (dec_Round fractionDigits
         (dec_Div (dec_Mul (NewFromFloat payAmount) (NewFromFloat refundAmount)) (NewFromFloat orderAmount))).
End Amounts.

(** * Decimals by rational numbers

    A concrete instance of the decimal interface, for runs on concrete inputs:
    exact rationals, rounded half away from zero. *)

Open Scope Z_scope.

Definition q_of_float (x : float64) : Q :=
  match x with
  | S754_finite s m e =>
      let z := if s then Z.neg m else Z.pos m in
      if 0 <=? e then inject_Z (z * 2 ^ e) else (z # Z.to_pos (2 ^ (- e)))%Q
  | _ => inject_Z 0
  end.

(** [q * 10^n] to an integer by [f] of its size, and back. *)
Definition q_scaled (f : Q -> Z) (n : Z) (q : Q) : Q :=
  let z := f (Qabs q * inject_Z (10 ^ n))%Q in
  ((if Qle_bool (inject_Z 0) q then z else - z) # Z.to_pos (10 ^ n))%Q.

Definition q_string (n : Z) (q : Q) : string :=
  let r := Qfloor (Qabs q * inject_Z (10 ^ n) + (1 # 2))%Q in
  let frac := pretty (r `mod` 10 ^ n) in
  let padded := String.concat "" (repeat "0" (Z.to_nat n - String.length frac)) +:+ frac in
  (if Qle_bool (inject_Z 0) q then "" else "-") +:+ pretty (r / 10 ^ n) +:+ (if n =? 0 then "" else "." +:+ padded).

Definition rational_decimals : decimal_ops := {|
  decimal := Q;
  NewFromFloat := q_of_float;
  NewFromString := fun s => inject_Z <$> parse_int64 s;
  NewFromInt := inject_Z;
  dec_New := fun v e => if 0 <=? e then inject_Z (v * 10 ^ e) else (v # Z.to_pos (10 ^ (- e)))%Q;
  dec_Add := Qplus;
  dec_Sub := Qminus;
  dec_Mul := Qmult;
  dec_Div := Qdiv;
  dec_Round := q_scaled (fun q => Qfloor (q + (1 # 2))%Q);
  dec_RoundUp := q_scaled Qceiling;
  dec_Truncate := q_scaled Qfloor;
  dec_Equal := Qeq_bool;
  dec_GreaterThan := fun a b => negb (Qle_bool a b);
  IsNegative := fun q => negb (Qle_bool (inject_Z 0) q);
  IsZero := fun q => Qeq_bool q (inject_Z 0);
  IntPart := fun q => Z.quot (Qnum q) (Z.pos (Qden q));
  InexactFloat64 := fun q => let q := Qred q in f64_ratio (Qnum q) (Z.pos (Qden q));
  StringFixed := q_string;
|}.

Example formats : @FormatAmountForCurrency rational_decimals (f64_ratio 5 2) "CNY" = "2.50".
Proof. vm_compute. reflexivity. Qed.

Example refund_part : @calculateGatewayRefundAmount rational_decimals (f64_of_Z 100) (f64_of_Z 10) (f64_of_Z 25) "CNY" = f64_ratio 5 2.
Proof. vm_compute. reflexivity. Qed.

(** ** Its laws *)

Lemma q_scaled_places f n q : places n (q_scaled f n q).
Proof. by eexists. Qed.

Lemma half_up_nonneg q : (0 <= q)%Q -> 0 <= Qfloor (q + (1 # 2)).
Proof.
  intros H. change 0 with (Qfloor (inject_Z 0)). apply Qfloor_resp_le. apply Qle_trans with (q + 0)%Q; [by rewrite Qplus_0_r | apply Qplus_le_r].
  unfold Qle. cbn. lia.
Qed.

Lemma q_scaled_nonneg n q : (0 <= q)%Q -> (0 <= q_scaled (fun q => Qfloor (q + (1 # 2))) n q)%Q.
Proof.
  intros H. unfold q_scaled. rewrite (proj2 (Qle_bool_iff (inject_Z 0) q)) by exact H.
  enough (Hz : 0 <= Qfloor (Qabs q * inject_Z (10 ^ n) + (1 # 2))).
  { revert Hz. generalize (Qfloor (Qabs q * inject_Z (10 ^ n) + (1 # 2))). intros z Hz. unfold Qle. cbn. lia. }
  apply half_up_nonneg. apply Qmult_le_0_compat; [apply Qabs_nonneg|].
  change 0%Q with (inject_Z 0). rewrite <- Zle_Qle. by apply Z.pow_nonneg.
Qed.

Lemma floor_int z : Qfloor (inject_Z z + (1 # 2)) = z.
Proof. unfold Qfloor, inject_Z. cbn. symmetry. apply (Z.div_unique _ 2 z 1); lia. Qed.

Lemma pow10_pos n : 0 <= n -> Z.pos (Z.to_pos (10 ^ n)) = 10 ^ n.
Proof. intros H. apply Z2Pos.id. by apply Z.pow_pos_nonneg. Qed.

Lemma q_scaled_exact n q : 0 <= n -> places n q -> (q_scaled (fun q => Qfloor (q + (1 # 2))) n q == q)%Q.
Proof.
  intros Hn [z Hz]. unfold q_scaled. pose proof (pow10_pos n Hn) as Hp. assert (Hp0 : 0 < 10 ^ n) by (by apply Z.pow_pos_nonneg).
  assert (Ha : (Qabs q * inject_Z (10 ^ n) + (1 # 2) == inject_Z (Z.abs z) + (1 # 2))%Q).
  { rewrite Hz. unfold Qabs, inject_Z, Qmult, Qplus, Qeq. cbn. rewrite !Pos.mul_1_r, ?Pos2Z.inj_mul, Hp. ring. }
  rewrite (Qfloor_comp _ _ Ha), floor_int. transitivity (z # Z.to_pos (10 ^ n))%Q; [|by symmetry]. unfold Qeq. cbn. f_equal.
  destruct (Qle_bool (inject_Z 0) q) eqn:E.
  - apply Qle_bool_iff in E. rewrite Hz in E. unfold Qle in E. cbn in E. lia.
  - assert (H : ~ (inject_Z 0 <= q)%Q) by (by rewrite <- Qle_bool_iff, E). rewrite Hz in H. unfold Qle in H. cbn in H. lia.
Qed.

Lemma q_of_float_nonneg x : SFltb f64_zero x = true -> (0 <= q_of_float x)%Q.
Proof.
  destruct x as [s|[]| |[] m e]; cbn; try done. intros _. destruct (0 <=? e) eqn:E; [|done]. unfold Qle. cbn.
  assert (0 <= Z.pos m * 2 ^ e); [|lia]. apply Z.mul_nonneg_nonneg; [lia | apply Z.pow_nonneg; lia].
Qed.

#[export] Instance rational_laws : decimal_laws rational_decimals.
Proof.
  unshelve econstructor; [exact (fun q : Q => q) | ..]; cbn.
  - done.
  - done.
  - exact q_of_float_nonneg.
  - intros n d _. apply q_scaled_places.
  - exact q_scaled_exact.
  - intros n d _. apply q_scaled_nonneg.
  - intros a b. rewrite negb_true_iff. rewrite <- not_true_iff_false, Qle_bool_iff. split; [apply Qnot_le_lt | apply Qlt_not_le].
  - intros d. rewrite negb_true_iff. rewrite <- not_true_iff_false, Qle_bool_iff. split; [apply Qnot_le_lt | apply Qlt_not_le].
Defined.
