(* ===== verification/PaymentCommands.v ===== *)
(** * The commands of the payment and redeem services, and the provider of an order

    The database statements, transactions, provider and cache calls their
    programs issue. *)

From Stdlib Require Import Floats.SpecFloat.
From S2P Require Import Prelude GoStrings Json AppErrors Program PaymentData.

Inductive lookup_result : Type := Found (o : PaymentOrder) | NotFoundRow | LookupError (e : error).

Inductive instance_lookup : Type := InstanceFound (i : PaymentProviderInstance) | InstanceMissing | InstanceError (e : error).

Record QueryOrderResponse : Type := mkQueryOrderResponse {
  resp_Status : string;
  resp_TradeNo : string;
  resp_Amount : float64;
  resp_Metadata : list (string * string);
}.

(** What the redeem service reads of a user. *)
Record account : Type := mkAccount { Balance : float64; Role : string; Concurrency : Z }.

(** What a redeemed code gives. *)
Inductive benefit : Type :=
| AddBalance (amount : float64)
| AddPoints (delta : float64)
| AddConcurrency (delta : Z)
| ShortenSubscription (groupID days : Z)
| ExtendSubscription (groupID days : Z).

Inductive cmd : Type -> Type :=
| Now : cmd Z
| GetOrder (oid : Z) : cmd (outcome PaymentOrder)
| FindByOutTradeNo (outTradeNo : string) : cmd lookup_result
| QueryOrders (p : condition) : cmd (outcome (list PaymentOrder))
| UpdateOrder (oid : Z) (p : condition) (cs : list change) : cmd (outcome Z)
| UpdateOneOrder (oid : Z) (cs : list change) : cmd (outcome unit)           (* UpdateOneID: the row must exist *)
| InsertOrder (o : PaymentOrder) (suffix : Z) : cmd (outcome PaymentOrder)   (* createOrderInTx *)
| CancelTx (oid : Z) (status : string) : cmd (outcome Z)                     (* the transaction of cancelCore *)
| HasAuditLog (oid : Z) (action : string) : cmd bool
| WriteAuditLog (oid : Z) (action : string) : cmd unit
| SelectCode (code : string) : cmd (outcome RedeemCode)
| InsertCode (c : RedeemCode) : cmd (outcome unit)
| UseTx (c : RedeemCode) (userID : Z) (grant : outcome benefit) : cmd (outcome bool) (* the transaction of Redeem *)
| RedeemAttempts (userID : Z) : cmd (option Z)                               (* None: no cache, or it failed *)
| IncrementRedeemErrors (userID : Z) : cmd unit
| LockCode (code : string) : cmd bool
| UnlockCode (code : string) : cmd unit
| GetUser (userID : Z) : cmd (outcome account)
| ReloadCode (id : Z) : cmd (outcome unit)
| GroupActive (groupID : Z) : cmd bool
| AssignOrExtendSubscription (oid userID groupID days : Z) : cmd (outcome unit)
| RebateTx (oid userID : Z) (amount : float64) : cmd (outcome unit)          (* the transaction of applyAffiliateRebateForOrder *)
| ConfirmPaidAndDeliver (oid : Z) : cmd (outcome unit)                       (* ShopService *)
| ReleaseStalePaymentReservations (t : Z) : cmd (outcome unit)               (* ShopService *)
| GetInstance (id : Z) : cmd instance_lookup
| ListInstances (providerKey : option string) : cmd (outcome (list PaymentProviderInstance))
| CountEnabledInstances (providerKey : string) : cmd (outcome Z)
| RegistryProviderKey (paymentType : string) : cmd string                    (* "" if none is registered *)
| RegistryProvider (paymentType : string) : cmd (outcome Provider)           (* EnsureProviders, GetProvider *)
| CreateProvider (i : PaymentProviderInstance) : cmd (outcome Provider)      (* createProviderFromInstance *)
| QueryProvider (oid : Z) (queryRef : string) : cmd (outcome QueryOrderResponse)
| CancelPayment (oid : Z) (queryRef : string) : cmd unit
| CreatePayment (oid : Z) : cmd (outcome string)                              (* its trade number *)
| ConfiguredOrderTimeout : cmd (outcome Z)                                   (* minutes *)
| UpdateBalance (oid userID : Z) (amount : float64) : cmd (outcome unit)
| GetActiveSubscription (userID groupID : Z) : cmd (outcome Z)               (* its id *)
| ExtendSubscriptionDays (oid subID days : Z) : cmd (outcome unit)           (* SubscriptionService.ExtendSubscription *)
| RevokeSubscription (subID : Z) : cmd (outcome unit)
| ProviderRefund (oid : Z) (p : Provider) (r : RefundRequest) : cmd (option RefundResponse * option error)
| ProviderQueryRefund (oid : Z) (p : Provider) (r : RefundQueryRequest) : cmd (option RefundResponse * option error)
| WriteRefundPending (oid : Z) (detail : refundPendingAuditDetail) : cmd unit (* the audit entry REFUND_PENDING *)
| LatestRefundPending (oid : Z) : cmd (option refundPendingAuditDetail).

(** [oid] marks, here and below, the order on whose behalf a call is made. *)
Abbreviation program := (prog cmd).

Definition failed {A} (e : error) : program (outcome A) := mret (Failure e).
Definition done_ : program (outcome unit) := mret (Success tt).

(** * Which provider an order belongs to (internal/payment/types.go, load_balancer.go,
    internal/service/payment_refund.go, payment_order_provider_snapshot.go,
    payment_fulfillment.go, payment_order_lifecycle.go)

    An order remembers the instance that took its payment; older orders are
    matched by their type.  Notifications and refunds are checked against it. *)

Definition GetBasePaymentType (t : string) : string :=
  if t =s? TypeEasyPay then TypeEasyPay
  else if t =s? TypeAirwallex then TypeAirwallex
  else if in_list t [TypeStripe; TypeCard; TypeLink] then TypeStripe
  else if has_prefix t TypeAlipay then TypeAlipay
  else if has_prefix t TypeWxpay then TypeWxpay
  else t.

Definition normalizeVisibleMethodSupportType (paymentType : string) : string :=
  let t := trim_space paymentType in
  if in_list t [TypeAlipay; TypeAlipayDirect] then TypeAlipay
  else if in_list t [TypeWxpay; TypeWxpayDirect] then TypeWxpay
  else t.

(** No list means every type. *)
Definition InstanceSupportsType (supportedTypes target : string) : bool :=
  if supportedTypes =s? "" then true else
  existsb (fun t => let supported := trim_space t in
             (supported =s? target) || (normalizeVisibleMethodSupportType supported =s? normalizeVisibleMethodSupportType target))
    (split_byte ","%char supportedTypes).

(** ** The instance of an order *)

Definition psLegacyOrderMatchesInstance (orderPaymentType : string) (inst : PaymentProviderInstance) : bool :=
  let baseType := GetBasePaymentType (trim_space orderPaymentType) in
  let instanceProviderKey := trim_space (inst_ProviderKey inst) in
  if baseType =s? "" then false
  else if baseType =s? TypeStripe then instanceProviderKey =s? TypeStripe
  else if instanceProviderKey =s? TypeStripe then false
  else if instanceProviderKey =s? baseType then true
  else InstanceSupportsType (inst_SupportedTypes inst) baseType.

Definition psFilterLegacyOrderProviderInstances (orderPaymentType : string) (instances : list PaymentProviderInstance)
    : list PaymentProviderInstance :=
  if trim_space orderPaymentType =s? "" then instances else List.filter (psLegacyOrderMatchesInstance orderPaymentType) instances.

Definition the_only {A} (l : list A) : option A := match l with [a] => Some a | _ => None end.

Definition resolveUniqueLegacyOrderProviderInstance (o : PaymentOrder) : program (outcome (option PaymentProviderInstance)) :=
  let paymentType := GetBasePaymentType (trim_space (PaymentType o)) in
  let providerKey := trim_space (ProviderKey o) in
  if (providerKey =s? "") && (paymentType =s? "") then mret (Success None) else
  instances ← call (ListInstances (if providerKey =s? "" then None else Some providerKey));
  mret (match instances with
        | Failure e => Failure e
        | Success l => Success (the_only (psFilterLegacyOrderProviderInstances paymentType l))
        end).

Definition order_error (o : PaymentOrder) (text : string) : error := OtherError ("order " +:+ pretty (order_ID o) +:+ " " +:+ text).

Definition resolveSnapshotOrderProviderInstance (o : PaymentOrder) (snapshot : paymentOrderProviderSnapshot)
    : program (outcome (option PaymentProviderInstance)) :=
  let columnInstanceID := trim_space (ProviderInstanceID o) in
  let snapshotInstanceID := if trim_space (snap_ProviderInstanceID snapshot) =s? "" then columnInstanceID
                            else trim_space (snap_ProviderInstanceID snapshot) in
  if snapshotInstanceID =s? "" then failed (order_error o "provider snapshot is missing provider_instance_id")
  else if (columnInstanceID <>s? "") && (snap_ProviderInstanceID snapshot <>s? "") &&
          negb (EqualFold columnInstanceID (snap_ProviderInstanceID snapshot))
  then failed (order_error o ("provider snapshot instance mismatch: snapshot=" +:+ snap_ProviderInstanceID snapshot +:+ " order=" +:+ columnInstanceID))
  else
    match ParseInt snapshotInstanceID with
    | None => failed (order_error o ("provider snapshot instance id is invalid: " +:+ snapshotInstanceID))
    | Some instID =>
        found ← call (GetInstance instID);
        match found with
        | InstanceMissing => failed (order_error o ("provider snapshot instance " +:+ snapshotInstanceID +:+ " is missing"))
        | InstanceError e => failed e
        | InstanceFound inst =>
            if (snap_ProviderKey snapshot <>s? "") && negb (EqualFold (trim_space (inst_ProviderKey inst)) (snap_ProviderKey snapshot))
            then failed (order_error o ("provider snapshot key mismatch: snapshot=" +:+ snap_ProviderKey snapshot +:+ " instance=" +:+ inst_ProviderKey inst))
            else mret (Success (Some inst))
        end
    end.

Definition instance_not_found : error := OtherError "payment_provider_instance not found".

(** [None]: it cannot be told. *)
Definition getOrderProviderInstance (o : PaymentOrder) : program (outcome (option PaymentProviderInstance)) :=
  match ProviderSnapshot o with
  | Some snapshot => resolveSnapshotOrderProviderInstance o snapshot
  | None =>
      let instIDStr := trim_space (ProviderInstanceID o) in
      if instIDStr =s? "" then resolveUniqueLegacyOrderProviderInstance o else
      match ParseInt instIDStr with
      | None => mret (Success None)
      | Some instID =>
          found ← call (GetInstance instID);
          mret (match found with
                | InstanceFound i => Success (Some i)
                | InstanceMissing => Failure instance_not_found
                | InstanceError e => Failure e
                end)
      end
  end.

(** A refund goes to the recorded instance; none is guessed. *)
Definition getRefundOrderProviderInstance (o : PaymentOrder) : program (outcome (option PaymentProviderInstance)) :=
  match ProviderSnapshot o with
  | Some snapshot => resolveSnapshotOrderProviderInstance o snapshot
  | None =>
      let instIDStr := trim_space (ProviderInstanceID o) in
      if instIDStr =s? "" then mret (Success None) else
      match ParseInt instIDStr with
      | None => failed (order_error o ("refund provider instance id is invalid: " +:+ instIDStr))
      | Some instID =>
          found ← call (GetInstance instID);
          mret (match found with
                | InstanceFound i => Success (Some i)
                | InstanceMissing => Failure (order_error o ("refund provider instance " +:+ instIDStr +:+ " is missing"))
                | InstanceError e => Failure e
                end)
      end
  end.

(** ** Its provider *)

Definition paymentOrderAllowsRegistryFallback (o : PaymentOrder) : bool :=
  match ProviderSnapshot o with Some _ => false | None => true end &&
  (trim_space (ProviderInstanceID o) =s? "") && (trim_space (ProviderKey o) =s? "").

Definition paymentOrderFallbackProviderKey (o : PaymentOrder) : program string :=
  registered ← call (RegistryProviderKey (PaymentType o));
  let key := trim_space registered in
  mret (if key <>s? "" then key else trim_space (GetBasePaymentType (trim_space (PaymentType o)))).

Definition webhookRegistryFallbackAllowed (providerKey : string) : program bool :=
  let providerKey := trim_space providerKey in
  if providerKey =s? "" then mret false else
  count ← call (CountEnabledInstances providerKey);
  mret (match count with Success n => n <=? 1 | Failure _ => false end).

Definition getOrderProvider (o : PaymentOrder) : program (outcome Provider) :=
  inst ← getOrderProviderInstance o;
  match inst with
  | Failure e => failed (WrappedError "load order provider instance" e)
  | Success (Some inst) => call (CreateProvider inst)
  | Success None =>
      if negb (paymentOrderAllowsRegistryFallback o) then failed (order_error o "provider instance is unresolved") else
      providerKey ← paymentOrderFallbackProviderKey o;
      if providerKey =s? "" then failed (order_error o "provider fallback key is missing") else
      allowed ← webhookRegistryFallbackAllowed providerKey;
      if negb allowed then failed (order_error o ("provider fallback is ambiguous for " +:+ providerKey)) else
      call (RegistryProvider (PaymentType o))
  end.

Definition expectedNotificationProviderKey (orderPaymentType orderProviderKey instanceProviderKey : string) : program string :=
  if trim_space instanceProviderKey <>s? "" then mret (trim_space instanceProviderKey)
  else if trim_space orderProviderKey <>s? "" then mret (trim_space orderProviderKey)
  else
    registered ← call (RegistryProviderKey orderPaymentType);
    mret (if trim_space registered <>s? "" then trim_space registered else trim_space orderPaymentType).

Definition expectedNotificationProviderKeyForOrder (o : PaymentOrder) (instanceProviderKey : string) : program string :=
  let orderProviderKey :=
    match ProviderSnapshot o with
    | Some snapshot => if snap_ProviderKey snapshot <>s? "" then snap_ProviderKey snapshot else ProviderKey o
    | None => ProviderKey o
    end in
  expectedNotificationProviderKey (PaymentType o) orderProviderKey instanceProviderKey.

(** ** The identity of the merchant *)

(** [m[k]] of a Go map of strings: the empty string where there is none. *)
Fixpoint metadata_at (md : list (string * string)) (k : string) : string :=
  match md with
  | [] => ""
  | (k', v) :: md => if k' =s? k then v else metadata_at md k
  end.

(** What the metadata has to say of a field, if the order expects something. *)
Definition field_mismatch (expected actual missing name : string) : option error :=
  if expected =s? "" then None
  else if actual =s? "" then Some (OtherError missing)
  else if negb (EqualFold expected actual) then Some (OtherError (name +:+ " mismatch: expected " +:+ expected +:+ ", got " +:+ actual))
  else None.

Definition status_mismatch (actual wanted name : string) : option error :=
  if (actual <>s? "") && negb (EqualFold actual wanted)
  then Some (OtherError (name +:+ " mismatch: expected " +:+ wanted +:+ ", got " +:+ actual)) else None.

Definition first_error (l : list (option error)) : option error := foldr (fun e r => match e with Some _ => e | None => r end) None l.

Definition validateProviderSnapshotMetadata (o : PaymentOrder) (providerKey : string) (metadata : list (string * string)) : option error :=
  let at_ k := trim_space (metadata_at metadata k) in
  match metadata, ProviderSnapshot o with
  | [], _ | _, None => None
  | _, Some snapshot =>
      let app := trim_space (snap_MerchantAppID snapshot) in
      let merchant := trim_space (snap_MerchantID snapshot) in
      let currency := trim_space (snap_Currency snapshot) in
      let key := trim_space providerKey in
      if key =s? TypeWxpay then
        first_error
          [field_mismatch app (at_ "appid") "wxpay notification missing appid" "wxpay appid";
           field_mismatch merchant (at_ "mchid") "wxpay notification missing mchid" "wxpay mchid";
           field_mismatch currency (ToUpper (at_ "currency")) "wxpay notification missing currency" "wxpay currency";
           status_mismatch (at_ "trade_state") "SUCCESS" "wxpay trade_state"]
      else if key =s? TypeAlipay then field_mismatch app (at_ "app_id") "alipay app_id missing" "alipay app_id"
      else if key =s? TypeEasyPay then field_mismatch merchant (at_ "pid") "easypay pid missing" "easypay pid"
      else if key =s? TypeStripe then
        field_mismatch currency (ToUpper (at_ "currency")) "stripe notification missing currency" "stripe currency"
      else if key =s? TypeAirwallex then
        first_error
          [field_mismatch merchant (at_ "account_id") "airwallex notification missing account_id" "airwallex account_id";
           field_mismatch currency (ToUpper (at_ "currency")) "airwallex notification missing currency" "airwallex currency";
           status_mismatch (at_ "status") "SUCCEEDED" "airwallex status"]
      else None
  end.
