(* ===== verification/Redeem.v ===== *)
(** * The redeem service (internal/service/redeem_service.go)

    A code is redeemed once: the transaction that marks it used also grants
    what it stands for. *)

From Stdlib Require Import Floats.SpecFloat.
From S2P Require Import Prelude GoStrings AppErrors Program PaymentData PaymentCommands.

Definition ErrRedeemCodeNotFound : error := NotFound "REDEEM_CODE_NOT_FOUND" "redeem code not found".
Definition ErrRedeemCodeUsed : error := Conflict "REDEEM_CODE_USED" "redeem code already used".
Definition ErrRedeemRateLimited : error := TooManyRequests "REDEEM_RATE_LIMITED" "too many failed attempts, please try again later".
Definition ErrRedeemCodeLocked : error := Conflict "REDEEM_CODE_LOCKED" "redeem code is being processed, please try again".
Definition ErrUserConcurrencyRange : error := BadRequest "USER_CONCURRENCY_INVALID" "user concurrency must be at least 1".

Definition redeemMaxErrorsPerHour : Z := 20.
Definition UserMinConcurrency : Z := 1.
Definition RoleUser : string := "user".

Definition validatePersonalUserConcurrency (concurrency : Z) : option error :=
  if concurrency <? UserMinConcurrency then Some ErrUserConcurrencyRange else None.

Definition unsupportedRedeemTypeError (codeType : string) : error :=
  if codeType =s? RedeemTypeInvitation
  then BadRequest "REDEEM_CODE_UNSUPPORTED_TYPE" "invitation codes can only be used during registration"
  else BadRequest "REDEEM_CODE_UNSUPPORTED_TYPE" ("unsupported redeem type: " +:+ codeType).

(** Why the code cannot be redeemed by this endpoint. *)
Definition redeem_precondition (c : RedeemCode) : option error :=
  if (code_Type c =s? RedeemTypeBalance) || (code_Type c =s? RedeemTypeConcurrency) then None
  else if code_Type c =s? RedeemTypePoints then
    if SFleb (code_Value c) f64_zero
    then Some (BadRequest "REDEEM_CODE_INVALID" "invalid points redeem code: value must be greater than 0") else None
  else if code_Type c =s? RedeemTypeSubscription then
    match code_GroupID c with
    | None => Some (BadRequest "REDEEM_CODE_INVALID" "invalid subscription redeem code: missing group_id")
    | Some _ => None
    end
  else Some (unsupportedRedeemTypeError (code_Type c)).

(** A refund never takes the balance below 0. *)
Definition balance_amount (c : RedeemCode) (balance : float64) : float64 :=
  if SFltb (code_Value c) f64_zero && SFltb (f64_add balance (code_Value c)) f64_zero then SFopp balance else code_Value c.

Definition concurrency_delta (c : RedeemCode) (user : account) : outcome benefit :=
  let delta := f64_trunc (code_Value c) in
  if Role user =s? RoleUser then
    let next := add64 (Concurrency user) delta in
    let '(delta, next) :=
      if next <? UserMinConcurrency then (sub64 UserMinConcurrency (Concurrency user), UserMinConcurrency) else (delta, next) in
    match validatePersonalUserConcurrency next with Some e => Failure e | None => Success (AddConcurrency delta) end
  else if (delta <? 0) && (add64 (Concurrency user) delta <? 0) then Success (AddConcurrency (sub64 0 (Concurrency user)))
  else Success (AddConcurrency delta).

(** What the transaction grants, after it marked the code used. *)
Definition granted (c : RedeemCode) (user : account) : outcome benefit :=
  if code_Type c =s? RedeemTypeBalance then Success (AddBalance (balance_amount c (Balance user)))
  else if code_Type c =s? RedeemTypePoints then Success (AddPoints (code_Value c))
  else if code_Type c =s? RedeemTypeConcurrency then concurrency_delta c user
  else if code_Type c =s? RedeemTypeSubscription then
    let gid := default 0 (code_GroupID c) in
    let days := code_ValidityDays c in
    if days <? 0 then Success (ShortenSubscription gid (sub64 0 days))
    else Success (ExtendSubscription gid (if days =? 0 then 30 else days))
  else Failure (unsupportedRedeemTypeError (code_Type c)).

(** Between the lock and its release. *)
Definition redeem_locked (userID : Z) (code : string) : program (outcome unit) :=
  found ← call (SelectCode code);
  match found with
  | Failure e =>
      if errors_Is e ErrRedeemCodeNotFound then _ ← call (IncrementRedeemErrors userID); failed ErrRedeemCodeNotFound
      else failed (WrappedError "get redeem code" e)
  | Success c =>
      if negb (CanUse c) then _ ← call (IncrementRedeemErrors userID); failed ErrRedeemCodeUsed else
      match redeem_precondition c with
      | Some e => failed e
      | None =>
          user ← call (GetUser userID);
          match user with
          | Failure e => failed (WrappedError "get user" e)
          | Success user =>
              used ← call (UseTx c userID (granted c user));
              match used with
              | Failure e => failed e
              | Success false => failed ErrRedeemCodeUsed
              | Success true =>
                  reloaded ← call (ReloadCode (code_ID c));
                  match reloaded with
                  | Failure e => failed (WrappedError "get updated redeem code" e)
                  | Success _ => done_
                  end
              end
          end
      end
  end.

(** checkRedeemRateLimit: a failing cache limits nobody. *)
Definition rate_limited (attempts : option Z) : bool :=
  match attempts with Some n => redeemMaxErrorsPerHour <=? n | None => false end.

Definition Redeem (userID : Z) (code : string) : program (outcome unit) :=
  attempts ← call (RedeemAttempts userID);
  if rate_limited attempts then failed ErrRedeemRateLimited else
  locked ← call (LockCode code);
  if negb locked then failed ErrRedeemCodeLocked else
  res ← redeem_locked userID code;
  _ ← call (UnlockCode code);
  mret res.

Definition validateRedeemCodeValue (codeType : string) (value : float64) : option error :=
  if codeType =s? RedeemTypeInvitation then None
  else if codeType =s? RedeemTypePoints then
    if SFleb value f64_zero then Some (OtherError "points value must be greater than 0") else None
  else if SFeqb value f64_zero then Some (OtherError "value must not be zero") else None.

Definition CreateCode (code : RedeemCode) : program (outcome unit) :=
  let code := code <| code_Code := trim_space (code_Code code) |> in
  if code_Code code =s? "" then failed (OtherError "code is required") else
  let code := code <| code_Type := if code_Type code =s? "" then RedeemTypeBalance else code_Type code |> in
  match validateRedeemCodeValue (code_Type code) (code_Value code) with
  | Some e => failed e
  | None =>
      let code := code <| code_Status := if code_Status code =s? "" then StatusUnused else code_Status code |> in
      res ← call (InsertCode code);
      match res with Failure e => failed (WrappedError "create redeem code" e) | Success _ => done_ end
  end.
