(* ===== verification/Payment.v ===== *)
(** * Fulfilment and lifecycle of payment orders (internal/service/payment_fulfillment.go,
    payment_order_lifecycle.go, payment_order.go)

    A notification of the provider, an administrator or a periodic check moves
    an order through its states; a paid order is fulfilled by creating and
    redeeming its code, or by extending a subscription.  Each operation is the
    program of the database statements and provider calls it makes. *)

From Stdlib Require Import Floats.SpecFloat.
From S2P Require Import Prelude GoStrings Json AppErrors Program PaymentData PaymentCommands Redeem.

Definition minute : Z := 60 * 1000000000.
Definition paymentGraceMinutes : Z := 5.
Definition orderIDPrefix : string := "sub2_".
Definition ErrOrderNotFound : error := OtherError "payment order not found".

(** The updates the service writes: what they set, under which condition. *)
Definition update (oid : Z) (p : condition) (cs : list change) : program (outcome Z) := call (UpdateOrder oid p cs).
Definition audit (oid : Z) (action : string) : program unit := call (WriteAuditLog oid action).

Definition invalid_status (message : string) : error := BadRequest "INVALID_STATUS" message.

(** ** Fulfilment *)

Definition affiliateRebateBaseAmount (o : PaymentOrder) : float64 :=
  if (OrderType o =s? OrderTypeBalance) || (OrderType o =s? OrderTypeSubscription) then Amount o else f64_zero.

Definition applyAffiliateRebateForOrder (o : PaymentOrder) : program (outcome unit) :=
  let baseAmount := affiliateRebateBaseAmount o in
  if SFleb baseAmount f64_zero then done_ else
  res ← call (RebateTx (order_ID o) (UserID o) baseAmount);
  match res with
  | Failure e => _ ← audit (order_ID o) "AFFILIATE_REBATE_FAILED"; failed e
  | Success _ => done_
  end.

Definition markCompleted (o : PaymentOrder) (auditAction : string) : program (outcome unit) :=
  res ← update (order_ID o) (StatusEQ OrderStatusRecharging) [SetStatus OrderStatusCompleted];
  match res with
  | Failure e => failed (WrappedError "mark completed" e)
  | Success _ => _ ← audit (order_ID o) auditAction; done_
  end.

Definition markFailed (oid : Z) : program unit :=
  res ← update oid (StatusEQ OrderStatusRecharging) [SetStatus OrderStatusFailed];
  match res with
  | Success c => if 0 <? c then audit oid "FULFILLMENT_FAILED" else mret tt
  | Failure _ => mret tt
  end.

(** After the code was redeemed, by this run or an earlier one. *)
Definition rebate_and_complete (o : PaymentOrder) (auditAction : string) : program (outcome unit) :=
  rebate ← applyAffiliateRebateForOrder o;
  match rebate with
  | Failure e => failed e
  | Success _ => markCompleted o auditAction
  end.

Definition redeem_and_complete (o : PaymentOrder) : program (outcome unit) :=
  redeemed ← Redeem (UserID o) (RechargeCode o);
  match redeemed with
  | Failure e => failed (WrappedError "redeem balance" e)
  | Success _ => rebate_and_complete o "RECHARGE_SUCCESS"
  end.

Inductive redeemAction : Type := redeemActionCreate | redeemActionRedeem | redeemActionSkipCompleted.

Definition resolveRedeemAction (existing : outcome RedeemCode) : redeemAction :=
  match existing with
  | Failure _ => redeemActionCreate
  | Success c => if IsUsed c then redeemActionSkipCompleted else redeemActionRedeem
  end.

Definition doBalance (o : PaymentOrder) : program (outcome unit) :=
  existing ← call (SelectCode (RechargeCode o));
  match resolveRedeemAction existing with
  | redeemActionSkipCompleted => rebate_and_complete o "RECHARGE_SUCCESS"
  | redeemActionCreate =>
      created ← CreateCode (mkRedeemCode 0 (RechargeCode o) RedeemTypeBalance (Amount o) StatusUnused None None 0);
      match created with
      | Failure e => failed (WrappedError "create redeem code" e)
      | Success _ => redeem_and_complete o
      end
  | redeemActionRedeem => redeem_and_complete o
  end.

Definition doSub (o : PaymentOrder) (gid days : Z) : program (outcome unit) :=
  active ← call (GroupActive gid);
  if negb active then failed (OtherError "group no longer exists or inactive") else
  assigned ← call (HasAuditLog (order_ID o) "SUBSCRIPTION_ASSIGNED");
  assigned ← (if assigned : bool then mret true else call (HasAuditLog (order_ID o) "SUBSCRIPTION_SUCCESS"));
  if assigned : bool then rebate_and_complete o "SUBSCRIPTION_SUCCESS" else
  res ← call (AssignOrExtendSubscription (order_ID o) (UserID o) gid days);
  match res with
  | Failure e => failed (WrappedError "assign subscription" e)
  | Success _ =>
      _ ← audit (order_ID o) "SUBSCRIPTION_ASSIGNED";
      rebate_and_complete o "SUBSCRIPTION_SUCCESS"
  end.

(** What ExecuteBalanceFulfillment and ExecuteSubscriptionFulfillment check
    first; [Some] is their result. *)
Definition not_fulfillable (o : PaymentOrder) : option (outcome unit) :=
  if order_Status o =s? OrderStatusCompleted then Some (Success tt)
  else if psIsRefundStatus (order_Status o) then Some (Failure (invalid_status "refund-related order cannot fulfill"))
  else if negb (in_list (order_Status o) [OrderStatusPaid; OrderStatusFailed])
  then Some (Failure (invalid_status ("order cannot fulfill in status " +:+ order_Status o)))
  else None.

(** The order is locked by its status, fulfilled by [work], or marked failed. *)
Definition locked_fulfillment (oid : Z) (work : program (outcome unit)) : program (outcome unit) :=
  locked ← update oid (StatusIn [OrderStatusPaid; OrderStatusFailed]) [SetStatus OrderStatusRecharging];
  match locked with
  | Failure e => failed (WrappedError "lock" e)
  | Success c =>
      if c =? 0 then done_ else
      res ← work;
      match res with
      | Failure e => _ ← markFailed oid; failed e
      | Success _ => done_
      end
  end.

Definition order_not_found : error := NotFound "NOT_FOUND" "order not found".

Definition ExecuteBalanceFulfillment (oid : Z) : program (outcome unit) :=
  got ← call (GetOrder oid);
  match got with
  | Failure _ => failed order_not_found
  | Success o => match not_fulfillable o with Some r => mret r | None => locked_fulfillment oid (doBalance o) end
  end.

Definition ExecuteSubscriptionFulfillment (oid : Z) : program (outcome unit) :=
  got ← call (GetOrder oid);
  match got with
  | Failure _ => failed order_not_found
  | Success o =>
      match not_fulfillable o with
      | Some r => mret r
      | None =>
          match SubscriptionGroupID o, SubscriptionDays o with
          | Some gid, Some days => locked_fulfillment oid (doSub o gid days)
          | _, _ => failed (invalid_status "missing subscription info")
          end
      end
  end.

Definition executeFulfillment (oid : Z) : program (outcome unit) :=
  got ← call (GetOrder oid);
  match got with
  | Failure e => failed (WrappedError "get order" e)
  | Success o =>
      if OrderType o =s? OrderTypeSubscription then ExecuteSubscriptionFulfillment oid
      else if OrderType o =s? OrderTypeShop then call (ConfirmPaidAndDeliver oid)
      else ExecuteBalanceFulfillment oid
  end.

(** ** Notifications *)

Definition alreadyProcessed (oid : Z) : program (outcome unit) :=
  got ← call (GetOrder oid);
  match got with
  | Failure _ => done_
  | Success cur =>
      if in_list (order_Status cur) [OrderStatusCompleted; OrderStatusRefunded] then done_
      else if order_Status cur =s? OrderStatusFailed then
        match PaidAt cur with
        | None => _ ← audit oid "PAYMENT_AFTER_FAILED_UNPAID"; done_
        | Some _ => executeFulfillment oid
        end
      else if in_list (order_Status cur) [OrderStatusPaid; OrderStatusRecharging]
      then failed (OtherError ("order " +:+ pretty oid +:+ " is being processed"))
      else if order_Status cur =s? OrderStatusExpired then _ ← audit oid "PAYMENT_AFTER_EXPIRY"; done_
      else done_
  end.

(** The orders a payment may still reach at [now]. *)
Definition payable (now : Z) : condition :=
  let grace := now - paymentGraceMinutes * minute in
  Or (StatusEQ OrderStatusPending)
    (Or (StatusEQ OrderStatusCancelled)
      (Or (And (StatusEQ OrderStatusFailed) (ExpiresAtGTE grace))
          (And (StatusEQ OrderStatusExpired) (UpdatedAtGTE grace)))).

Definition toPaid (o : PaymentOrder) (tradeNo : string) (paid : float64) : program (outcome unit) :=
  now ← call Now;
  res ← update (order_ID o) (payable now)
          [SetStatus OrderStatusPaid; SetPayAmount paid; SetPaymentTradeNo tradeNo; SetPaidAt now];
  match res with
  | Failure e => failed (WrappedError "update to PAID" e)
  | Success c =>
      if c =? 0 then alreadyProcessed (order_ID o) else
      _ ← (if in_list (order_Status o) [OrderStatusCancelled; OrderStatusExpired] then audit (order_ID o) "ORDER_RECOVERED" else mret tt);
      _ ← audit (order_ID o) "ORDER_PAID";
      executeFulfillment (order_ID o)
  end.

Definition confirmPayment (oid : Z) (tradeNo : string) (paid : float64) (pk : string) (metadata : list (string * string))
    : program (outcome unit) :=
  got ← call (GetOrder oid);
  match got with
  | Failure _ => done_
  | Success o =>
      inst ← getOrderProviderInstance o;
      let instanceProviderKey := match inst with Success (Some i) => inst_ProviderKey i | _ => "" end in
      expected ← expectedNotificationProviderKeyForOrder o instanceProviderKey;
      if (expected <>s? "") && (trim_space pk <>s? "") && negb (EqualFold expected (trim_space pk))
      then _ ← audit oid "PAYMENT_PROVIDER_MISMATCH"; failed (OtherError ("provider mismatch: expected " +:+ expected +:+ ", got " +:+ pk)) else
      match validateProviderSnapshotMetadata o pk metadata with
      | Some e => _ ← audit oid "PAYMENT_PROVIDER_METADATA_MISMATCH"; failed e
      | None =>
          if negb (isValidProviderAmount paid) then
            _ ← audit oid "PAYMENT_INVALID_AMOUNT"; failed (OtherError "invalid paid amount from provider")
          else if differs_by_more paid (PayAmount o) (paymentAmountToleranceForCurrency (PaymentOrderCurrency o)) then
            _ ← audit oid "PAYMENT_AMOUNT_MISMATCH"; failed (OtherError "amount mismatch")
          else toPaid o tradeNo paid
      end
  end.

Definition parseLegacyPaymentOrderID (orderID : string) : option Z :=
  trimmed ← cut_prefix (trim_space orderID) orderIDPrefix;
  oid ← ParseInt trimmed;
  if oid <=? 0 then None else Some oid.

Record PaymentNotification : Type := mkPaymentNotification {
  note_TradeNo : string;
  note_OrderID : string;
  note_Amount : float64;
  note_Status : string;
  note_Metadata : list (string * string);
}.

Definition NotificationStatusSuccess : string := "success".
Definition ProviderStatusPaid : string := "paid".

Definition HandlePaymentNotification (n : PaymentNotification) (pk : string) : program (outcome unit) :=
  if note_Status n <>s? NotificationStatusSuccess then done_ else
  found ← call (FindByOutTradeNo (note_OrderID n));
  match found with
  | Found o => confirmPayment (order_ID o) (note_TradeNo n) (note_Amount n) pk (note_Metadata n)
  | NotFoundRow =>
      match parseLegacyPaymentOrderID (note_OrderID n) with
      | Some oid => confirmPayment oid (note_TradeNo n) (note_Amount n) pk (note_Metadata n)
      | None => failed (WrappedError ("out_trade_no=" +:+ note_OrderID n) ErrOrderNotFound)
      end
  | LookupError e => failed (WrappedError "lookup order failed" e)
  end.

(** ** The administrator *)

Definition RetryFulfillment (oid : Z) : program (outcome unit) :=
  got ← call (GetOrder oid);
  match got with
  | Failure _ => failed order_not_found
  | Success o =>
      match PaidAt o with
      | None => failed (invalid_status "order is not paid")
      | Some _ =>
          if psIsRefundStatus (order_Status o) then failed (invalid_status "refund-related order cannot retry")
          else if order_Status o =s? OrderStatusRecharging then failed (Conflict "CONFLICT" "order is being processed")
          else if order_Status o =s? OrderStatusCompleted then failed (invalid_status "order already completed")
          else if negb (in_list (order_Status o) [OrderStatusFailed; OrderStatusPaid])
          then failed (invalid_status "only paid and failed orders can retry")
          else
            res ← update oid (StatusIn [OrderStatusFailed; OrderStatusPaid]) [SetStatus OrderStatusPaid];
            match res with
            | Failure e => failed (WrappedError "reset for retry" e)
            | Success _ => _ ← audit oid "RECHARGE_RETRY"; executeFulfillment oid
            end
      end
  end.

Definition defaultOrderTimeoutMin : Z := 30.

(** [hasConfig]: the configuration service is set. *)
Definition rechargingTimeout (hasConfig : bool) : program (outcome Z) :=
  timeoutMin ← (if hasConfig then call ConfiguredOrderTimeout else mret (Success defaultOrderTimeoutMin));
  mret (match timeoutMin with
        | Failure e => Failure (WrappedError "load payment config for fulfillment timeout" e)
        | Success m => Success (Z.max m paymentGraceMinutes * minute)
        end).

Definition isRechargingOrderStale (hasConfig : bool) (o : PaymentOrder) (now : Z) : program (outcome bool) :=
  if order_Status o <>s? OrderStatusRecharging then mret (Success false) else
  timeout ← rechargingTimeout hasConfig;
  mret (match timeout with Failure e => Failure e | Success t => Success (UpdatedAt o <=? now - t) end).

Record AdminManualFulfillmentRequest : Type := mkManual { req_PaidAmount : option float64; req_TradeNo : string; req_Reason : string }.

Definition validateManualPaidAmount (amount : float64) : bool :=
  negb (SFleb amount f64_zero) && negb (is_nan amount) && negb (is_inf amount).
Definition normalizeManualPaidAmount (amount : float64) : float64 :=
  f64_div (f64_round (f64_mul amount (f64_of_Z 100))) (f64_of_Z 100).

(** The number of runes; a byte that does not decode is one. *)
Fixpoint rune_count (s : string) : Z :=
  match s with
  | EmptyString => 0
  | String a r1 =>
      match r1 with
      | String b r2 =>
          if utf8_2 a b then 1 + rune_count r2 else
          match r2 with
          | String c r3 =>
              if utf8_3 a b c then 1 + rune_count r3 else
              match r3 with
              | String d r4 => if utf8_4 a b c d then 1 + rune_count r4 else 1 + rune_count r1
              | EmptyString => 1 + rune_count r1
              end
          | EmptyString => 1 + rune_count r1
          end
      | EmptyString => 1
      end
  end.

(** The order is made paid by hand; [None]: go on. *)
Definition manual_update (o : PaymentOrder) (paidAmount : float64) (tradeNo : string) (now : Z) : program (option error) :=
  let oid := order_ID o in
  let paid_at := match PaidAt o with None => [SetPaidAt now] | Some _ => [] end in
  let trade := if tradeNo =s? "" then [] else [SetPaymentTradeNo tradeNo] in
  if order_Status o <>s? OrderStatusPaid then
    res ← update oid (StatusEQ (order_Status o)) ([SetStatus OrderStatusPaid; SetPayAmount paidAmount] ++ paid_at ++ trade)%list;
    mret (match res with
          | Failure e => Some (WrappedError "mark order paid manually" e)
          | Success c => if c =? 0 then Some (Conflict "CONFLICT" "order status has changed") else None
          end)
  else if (tradeNo <>s? "") || differs_by_more paidAmount (PayAmount o) amountToleranceCNY || match PaidAt o with None => true | Some _ => false end then
    res ← call (UpdateOneOrder oid ([SetPayAmount paidAmount] ++ paid_at ++ trade)%list);
    mret (match res with Failure e => Some (WrappedError "update paid order manual details" e) | Success _ => None end)
  else mret None.

Definition manual_statuses : list string :=
  [OrderStatusPending; OrderStatusExpired; OrderStatusCancelled; OrderStatusFailed; OrderStatusPaid; OrderStatusRecharging].

(** After the order was found not to be in progress. *)
Definition manual_fulfill (o : PaymentOrder) (req : AdminManualFulfillmentRequest) (now : Z) : program (outcome unit) :=
  let oid := order_ID o in
  if negb (in_list (order_Status o) manual_statuses)
  then failed (invalid_status ("order cannot be manually fulfilled in status " +:+ order_Status o)) else
  let tradeNo := trim_space (req_TradeNo req) in
  match match req_PaidAmount req with
        | Some a => if validateManualPaidAmount a then Some (normalizeManualPaidAmount a) else None
        | None => Some (PayAmount o)
        end with
  | None => failed (BadRequest "INVALID_PAID_AMOUNT" "paid amount is invalid")
  | Some paidAmount =>
      if 128 <? Z.of_nat (String.length tradeNo) then failed (BadRequest "INVALID_TRADE_NO" "trade no is too long") else
      refused ← manual_update o paidAmount tradeNo now;
      match refused with
      | Some e => failed e
      | None => _ ← audit oid "ORDER_MANUAL_FULFILL"; executeFulfillment oid
      end
  end.

Definition AdminManualFulfillOrder (hasConfig : bool) (oid : Z) (req : AdminManualFulfillmentRequest) : program (outcome unit) :=
  let reason := trim_space (req_Reason req) in
  if reason =s? "" then failed (BadRequest "INVALID_REASON" "manual fulfillment reason is required") else
  if 500 <? rune_count reason then failed (BadRequest "INVALID_REASON" "manual fulfillment reason is too long") else
  got ← call (GetOrder oid);
  match got with
  | Failure _ => failed order_not_found
  | Success o =>
      if order_Status o =s? OrderStatusCompleted then failed (invalid_status "order already completed")
      else if psIsRefundStatus (order_Status o) then failed (invalid_status "refund-related order cannot fulfill") else
      now ← call Now;
      stale ← (if order_Status o =s? OrderStatusRecharging then isRechargingOrderStale hasConfig o now else mret (Success true));
      match stale with
      | Failure e => failed e
      | Success false => failed (Conflict "ORDER_PROCESSING" "order is still being fulfilled")
      | Success true => manual_fulfill o req now
      end
  end.

(** ** Cancelling and expiring *)

Definition checkPaidResultAlreadyPaid : string := "already_paid".
Definition checkPaidResultCancelled : string := "cancelled".

Definition first_nonempty (l : list string) : string := default "" (head (List.filter (fun s => s <>s? "") l)).

Definition paymentOrderQueryReference (o : PaymentOrder) (key : string) : string :=
  let providerKey := first_nonempty [trim_space key; trim_space (default "" (snap_ProviderKey <$> ProviderSnapshot o)); trim_space (ProviderKey o); trim_space (PaymentType o)] in
  if in_list (GetBasePaymentType providerKey) [TypeAlipay; TypeEasyPay; TypeWxpay] then trim_space (OutTradeNo o)
  else first_nonempty [trim_space (PaymentTradeNo o); trim_space (OutTradeNo o)].

Definition paymentOrderShouldPersistUpstreamTradeNo (queryRef upstreamTradeNo currentTradeNo : string) : bool :=
  let upstreamTradeNo := trim_space upstreamTradeNo in
  (upstreamTradeNo <>s? "") && negb (EqualFold upstreamTradeNo (trim_space currentTradeNo)) &&
  negb (EqualFold upstreamTradeNo (trim_space queryRef)).

Definition requeryPaidOrderOnce (oid : Z) (queryRef : string) : program (option QueryOrderResponse) :=
  if trim_space queryRef =s? "" then mret None else
  resp ← call (QueryProvider oid queryRef);
  mret (match resp with
        | Failure _ => None
        | Success r => if (resp_Status r =s? ProviderStatusPaid) && isValidProviderAmount (resp_Amount r) then Some r else None
        end).

(** The payment is confirmed by the provider: it is handled like a notification. *)
Definition handle_confirmed (o : PaymentOrder) (key queryRef : string) (resp : QueryOrderResponse) : program string :=
  let upstreamTradeNo := trim_space (resp_TradeNo resp) in
  let persist := paymentOrderShouldPersistUpstreamTradeNo queryRef upstreamTradeNo (PaymentTradeNo o) in
  _ ← (if persist then update (order_ID o) Always [SetPaymentTradeNo upstreamTradeNo] else mret (Success 0));
  let tradeNo := if persist then upstreamTradeNo else PaymentTradeNo o in
  _ ← HandlePaymentNotification
        (mkPaymentNotification tradeNo (OutTradeNo o) (resp_Amount resp) NotificationStatusSuccess (resp_Metadata resp)) key;
  mret checkPaidResultAlreadyPaid.

Definition checkPaid (o : PaymentOrder) : program string :=
  prov ← getOrderProvider o;
  match prov with
  | Failure _ => mret ""
  | Success prov =>
      let key := prov_ProviderKey prov in
      let queryRef := paymentOrderQueryReference o key in
      if queryRef =s? "" then mret "" else
      resp ← call (QueryProvider (order_ID o) queryRef);
      match resp with
      | Failure _ => mret ""
      | Success resp =>
          if resp_Status resp =s? ProviderStatusPaid then
            if isValidProviderAmount (resp_Amount resp) then handle_confirmed o key queryRef resp else
            _ ← audit (order_ID o) "PAYMENT_INVALID_AMOUNT";
            retried ← requeryPaidOrderOnce (order_ID o) queryRef;
            match retried with
            | None => mret ""
            | Some resp => handle_confirmed o key queryRef resp
            end
          else _ ← call (CancelPayment (order_ID o) queryRef); mret ""
      end
  end.

(** The order is set to [status], if it is still pending. *)
Definition cancel_pending (o : PaymentOrder) (status : string) : program (outcome string) :=
  res ← call (CancelTx (order_ID o) status);
  match res with
  | Failure e => failed e
  | Success c =>
      _ ← (if 0 <? c then audit (order_ID o) (if status =s? OrderStatusExpired then "ORDER_EXPIRED" else "ORDER_CANCELLED") else mret tt);
      mret (Success checkPaidResultCancelled)
  end.

Definition cancelCore (o : PaymentOrder) (status : string) : program (outcome string) :=
  if (PaymentTradeNo o <>s? "") || (PaymentType o <>s? "") then
    paid ← checkPaid o;
    if paid =s? checkPaidResultAlreadyPaid then mret (Success checkPaidResultAlreadyPaid) else cancel_pending o status
  else cancel_pending o status.

Definition not_cancellable : error := invalid_status "order cannot be cancelled in current status".

Definition CancelOrder (orderID userID : Z) : program (outcome string) :=
  got ← call (GetOrder orderID);
  match got with
  | Failure _ => failed order_not_found
  | Success o =>
      if negb (UserID o =? userID) then failed (Forbidden "FORBIDDEN" "no permission for this order")
      else if order_Status o <>s? OrderStatusPending then failed not_cancellable
      else cancelCore o OrderStatusCancelled
  end.

Definition AdminCancelOrder (orderID : Z) : program (outcome string) :=
  got ← call (GetOrder orderID);
  match got with
  | Failure _ => failed order_not_found
  | Success o => if order_Status o <>s? OrderStatusPending then failed not_cancellable else cancelCore o OrderStatusCancelled
  end.

Definition out_trade_no_byte (c : ascii) : bool :=
  in_range 97 122 c || in_range 65 90 c || in_range 48 57 c || Ascii.eqb c "_"%char || Ascii.eqb c "-"%char.

Definition normalizeOrderLookupOutTradeNo (raw : string) : outcome string :=
  let outTradeNo := trim_space raw in
  if outTradeNo =s? "" then Failure (BadRequest "INVALID_OUT_TRADE_NO" "out_trade_no is required")
  else if 64 <? Z.of_nat (String.length outTradeNo) then Failure (BadRequest "INVALID_OUT_TRADE_NO" "out_trade_no is invalid")
  else if all_bytes out_trade_no_byte outTradeNo then Success outTradeNo
  else Failure (BadRequest "INVALID_OUT_TRADE_NO" "out_trade_no is invalid").

Definition VerifyOrderByOutTradeNo (outTradeNo : string) (userID : Z) : program (outcome PaymentOrder) :=
  match normalizeOrderLookupOutTradeNo outTradeNo with
  | Failure e => failed e
  | Success outTradeNo =>
      found ← call (FindByOutTradeNo outTradeNo);
      match found with
      | Found o =>
          if negb (UserID o =? userID) then failed (Forbidden "FORBIDDEN" "no permission for this order") else
          if in_list (order_Status o) [OrderStatusPending; OrderStatusExpired] then
            result ← checkPaid o;
            if result =s? checkPaidResultAlreadyPaid then
              again ← call (GetOrder (order_ID o));
              match again with Failure e => failed (WrappedError "reload order" e) | Success o => mret (Success o) end
            else mret (Success o)
          else mret (Success o)
      | _ => failed order_not_found
      end
  end.

(** ** The periodic check *)

Fixpoint fail_stale (orders : list PaymentOrder) (cutoff : Z) (count : Z) : program (outcome Z) :=
  match orders with
  | [] => mret (Success count)
  | o :: orders =>
      res ← update (order_ID o) (And (StatusEQ OrderStatusRecharging) (UpdatedAtLTE cutoff)) [SetStatus OrderStatusFailed];
      match res with
      | Failure e => failed (WrappedError "mark stale recharging order failed" e)
      | Success c =>
          if c =? 0 then fail_stale orders cutoff count else
          _ ← audit (order_ID o) "FULFILLMENT_TIMEOUT";
          fail_stale orders cutoff (count + 1)
      end
  end.

Definition failStaleRechargingOrders (hasConfig : bool) (now : Z) : program (outcome Z) :=
  timeout ← rechargingTimeout hasConfig;
  match timeout with
  | Failure e => failed e
  | Success timeout =>
      let cutoff := now - timeout in
      got ← call (QueryOrders (And (StatusEQ OrderStatusRecharging) (UpdatedAtLTE cutoff)));
      match got with
      | Failure e => failed (WrappedError "query stale recharging orders" e)
      | Success orders => fail_stale orders cutoff 0
      end
  end.

Fixpoint expire_orders (orders : list PaymentOrder) (n : Z) : program (outcome Z) :=
  match orders with
  | [] => mret (Success n)
  | o :: orders =>
      res ← cancelCore o OrderStatusExpired;
      match res with
      | Success outcome => expire_orders orders (if outcome =s? checkPaidResultAlreadyPaid then n else n + 1)
      | Failure _ => expire_orders orders n
      end
  end.

Definition ExpireTimedOutOrders (hasConfig hasShop : bool) : program (outcome Z) :=
  now ← call Now;
  released ← (if hasShop then call (ReleaseStalePaymentReservations (now - paymentGraceMinutes * minute)) else mret (Success tt));
  match released with
  | Failure e => failed e
  | Success _ =>
      stale ← failStaleRechargingOrders hasConfig now;
      match stale with
      | Failure e => failed e
      | Success stale =>
          got ← call (QueryOrders (And (StatusEQ OrderStatusPending) (ExpiresAtLTE now)));
          match got with
          | Failure e => failed (WrappedError "query expired" e)
          | Success orders => expire_orders orders stale
          end
      end
  end.

(** ** Creating an order

    From the transaction on; [o] holds what the checks before it decided, and
    [suffix] is the clock reading of its code. *)

(** Around the provider's CreatePayment: what it prepares is left out, and of
    what it stores the links, the instance and the provider key, which the
    order already has. *)
Definition invokeProvider (oid : Z) : program (outcome unit) :=
  created ← call (CreatePayment oid);
  match created with
  | Failure e => failed e
  | Success tradeNo =>
      res ← call (UpdateOneOrder oid (if tradeNo =s? "" then [] else [SetPaymentTradeNo tradeNo]));
      match res with
      | Failure e => failed (WrappedError "update order with payment details" e)
      | Success _ => _ ← audit oid "ORDER_CREATED"; done_
      end
  end.

Definition CreateOrder (o : PaymentOrder) (suffix : Z) : program (outcome unit) :=
  created ← call (InsertOrder o suffix);
  match created with
  | Failure e => failed e
  | Success order =>
      res ← invokeProvider (order_ID order);
      match res with
      | Failure e => _ ← call (UpdateOneOrder (order_ID order) [SetStatus OrderStatusFailed]); failed e
      | Success _ => done_
      end
  end.
