(* ===== verification/Refund.v ===== *)
(** * Refunds (internal/service/payment_refund.go)

    A user asks for a refund, an administrator plans and executes it, or asks
    the provider what became of one it had not confirmed.  What was bought is
    taken back first, and given again if the provider refuses. *)

From Stdlib Require Import Floats.SpecFloat.
From S2P Require Import Prelude GoStrings AppErrors Program PaymentData Decimals PaymentCommands Payment.

Section Refund.
Context {D : decimal_ops}.

Definition ErrAdjustWouldExpire : error :=
  BadRequest "ADJUST_WOULD_EXPIRE" "adjustment would result in expired subscription (remaining days must be > 0)".

Definition ProviderStatusSuccess : string := "success".
Definition ProviderStatusRefunded : string := "refunded".
Definition ProviderStatusPending : string := "pending".
Definition ProviderStatusFailed : string := "failed".

Definition DeductionTypeBalance : string := "balance".
Definition DeductionTypeSubscription : string := "subscription".
Definition DeductionTypeNone : string := "none".

Record RefundPlan : Type := mkRefundPlan {
  plan_OrderID : Z;
  plan_Order : PaymentOrder;
  plan_RefundAmount : float64;
  plan_GatewayAmount : float64;
  plan_Reason : string;
  plan_Force : bool;
  plan_DeductBalance : bool;
  plan_DeductionType : string;
  plan_BalanceToDeduct : float64;
  plan_SubDaysToDeduct : Z;
  plan_SubscriptionID : Z;
}.
#[export] Instance eta_RefundPlan : Settable RefundPlan := fun p =>
  mkRefundPlan (plan_OrderID p) (plan_Order p) (plan_RefundAmount p) (plan_GatewayAmount p) (plan_Reason p) (plan_Force p)
    (plan_DeductBalance p) (plan_DeductionType p) (plan_BalanceToDeduct p) (plan_SubDaysToDeduct p) (plan_SubscriptionID p).

(** The texts that quote an error hold the error. *)
Inductive warning : Type :=
| NoWarning
| Warn (text : string)
| GatewayFailedRolledBack (e : error)
| GatewayRefundFailed (e : error).

Record RefundResult : Type := mkRefundResult {
  res_Success : bool;
  res_Warning : warning;
  res_RequireForce : bool;
  res_BalanceDeducted : float64;
  res_SubDaysDeducted : Z;
}.

Definition warned (w : warning) : RefundResult := mkRefundResult false w false f64_zero 0.
Definition needs_force (text : string) : RefundResult := mkRefundResult false (Warn text) true f64_zero 0.

(** [math.Min] *)
Definition f64_min (x y : float64) : float64 :=
  match x, y with
  | S754_infinity true, _ | _, S754_infinity true => S754_infinity true
  | S754_nan, _ | _, S754_nan => S754_nan
  | S754_zero s, S754_zero _ => if s then x else y
  | _, _ => if SFltb x y then x else y
  end.

(** ** Asking for a refund *)

Definition user_refund_disabled (message : string) : error := Forbidden "USER_REFUND_DISABLED" message.

Definition validateRefundRequest (oid uid : Z) : program (outcome PaymentOrder) :=
  got ← call (GetOrder oid);
  match got with
  | Failure _ => failed order_not_found
  | Success o =>
      if negb (UserID o =? uid) then failed (Forbidden "FORBIDDEN" "no permission")
      else if OrderType o <>s? OrderTypeBalance then failed (BadRequest "INVALID_ORDER_TYPE" "only balance orders can request refund")
      else if order_Status o <>s? OrderStatusCompleted then failed (invalid_status "only completed orders can request refund")
      else
        inst ← getRefundOrderProviderInstance o;
        match inst with
        | Success (Some i) =>
            if inst_AllowUserRefund i then mret (Success o)
            else failed (user_refund_disabled "user refund is not enabled for this provider")
        | _ => failed (user_refund_disabled "refund is not available for this order")
        end
  end.

Definition RequestRefund (oid uid : Z) (reason : string) : program (outcome unit) :=
  valid ← validateRefundRequest oid uid;
  match valid with
  | Failure e => failed e
  | Success o =>
      user ← call (GetUser (UserID o));
      match user with
      | Failure e => failed (WrappedError "get user" e)
      | Success u =>
          if SFltb (Balance u) (Amount o) then failed (BadRequest "BALANCE_NOT_ENOUGH" "refund amount exceeds balance") else
          res ← update oid (And (UserIDEQ uid) (And (StatusEQ OrderStatusCompleted) (OrderTypeEQ OrderTypeBalance)))
                  [SetStatus OrderStatusRefundRequested; SetRefundRequestReason (trim_space reason); SetRefundAmount (Amount o)];
          match res with
          | Failure e => failed (WrappedError "update" e)
          | Success c =>
              if c =? 0 then failed (Conflict "CONFLICT" "order status changed") else
              _ ← audit oid "REFUND_REQUESTED"; done_
          end
      end
  end.

(** ** Planning *)

Definition refundable_statuses : list string :=
  [OrderStatusCompleted; OrderStatusRefundRequested; OrderStatusRefundPending; OrderStatusRefundFailed].

(** What will be taken back; [Some] ends the request. *)
Definition prepDeduct (o : PaymentOrder) (p : RefundPlan) (force : bool) : program (RefundPlan * option RefundResult) :=
  if OrderType o =s? OrderTypeSubscription then
    let p := p <| plan_DeductionType := DeductionTypeSubscription |> in
    match SubscriptionGroupID o, SubscriptionDays o with
    | Some gid, Some days =>
        let p := p <| plan_SubDaysToDeduct := days |> in
        sub ← call (GetActiveSubscription (UserID o) gid);
        mret (match sub with
              | Success id => (p <| plan_SubscriptionID := id |>, None)
              | Failure _ =>
                  (p, if force then None else Some (needs_force "cannot find active subscription for deduction, use force"))
              end)
    | _, _ => mret (p, None)
    end
  else
    user ← call (GetUser (UserID o));
    mret (match user with
          | Failure _ => (p, if force then None else Some (needs_force "cannot fetch user balance, use force"))
          | Success u =>
              (p <| plan_DeductionType := DeductionTypeBalance |>
                 <| plan_BalanceToDeduct := f64_min (plan_RefundAmount p) (Balance u) |>, None)
          end).

(** A pending refund has reached the gateway: nothing is deducted again. *)
Definition without_deduction (p : RefundPlan) : RefundPlan :=
  p <| plan_DeductionType := DeductionTypeNone |> <| plan_BalanceToDeduct := f64_zero |>
    <| plan_SubDaysToDeduct := 0 |> <| plan_SubscriptionID := 0 |>.

Definition refund_reason (o : PaymentOrder) (reason : string) : string :=
  let rr := trim_space reason in
  let rr := if rr =s? "" then default "" (RefundRequestReason o) else rr in
  if rr =s? "" then "refund order:" +:+ pretty (order_ID o) else rr.

(** The plan of a refund, or the answer that asks for force. *)
Definition PrepareRefund (oid : Z) (amt : float64) (reason : string) (force deduct : bool)
    : program (outcome (RefundPlan + RefundResult)) :=
  got ← call (GetOrder oid);
  match got with
  | Failure _ => failed order_not_found
  | Success o =>
      if negb (in_list (order_Status o) refundable_statuses) then failed (invalid_status "order status does not allow refund") else
      inst ← getRefundOrderProviderInstance o;
      match inst with
      | Failure _ => failed (InternalServer "PROVIDER_LOOKUP_FAILED" "failed to look up payment provider for this order")
      | Success None => failed (Forbidden "REFUND_DISABLED" "refund is not available for this order")
      | Success (Some i) =>
          if negb (inst_RefundEnabled i) then failed (Forbidden "REFUND_DISABLED" "refund is not enabled for this provider")
          else if is_nan amt || is_inf amt then failed (BadRequest "INVALID_AMOUNT" "invalid refund amount")
          else
            let amt := if SFleb amt f64_zero then Amount o else amt in
            let orderCurrency := PaymentOrderCurrency o in
            if SFltb (paymentAmountToleranceForCurrency orderCurrency) (f64_sub amt (Amount o))
            then failed (BadRequest "REFUND_AMOUNT_EXCEEDED" "refund amount exceeds recharge")
            else
              let p := mkRefundPlan oid o amt (calculateGatewayRefundAmount (Amount o) (PayAmount o) amt orderCurrency)
                         (refund_reason o reason) force deduct DeductionTypeNone f64_zero 0 0 in
              prepared ← (if deduct then prepDeduct o p force else mret (p, None));
              mret (match prepared with
                    | (_, Some early) => Success (inr early)
                    | (p, None) => Success (inl (if order_Status o =s? OrderStatusRefundPending then without_deduction p else p))
                    end)
      end
  end.

(** ** The gateway *)

Definition formatGatewayRefundAmount (amount : float64) (o : PaymentOrder) : string :=
  FormatAmountForCurrency amount (PaymentOrderCurrency o).

Definition validateRefundProviderResponse (resp : option RefundResponse) : option error :=
  match resp with
  | None => Some (OtherError "payment refund response missing")
  | Some r =>
      let status := trim_space (resp_RefundStatus r) in
      if in_list status [ProviderStatusSuccess; ProviderStatusRefunded; ProviderStatusPending] then None
      else if status =s? ProviderStatusFailed then Some (OtherError ("payment refund failed: status " +:+ status))
      else Some (OtherError ("payment refund returned unknown status: " +:+ status))
  end.

Definition getRefundProvider (o : PaymentOrder) : program (outcome Provider) :=
  inst ← getRefundOrderProviderInstance o;
  match inst with
  | Failure e => failed e
  | Success None => failed (OtherError ("refund provider instance is unavailable for order " +:+ pretty (order_ID o)))
  | Success (Some i) => call (CreateProvider i)
  end.

(** What the provider's answer means; an error may come with a pending refund. *)
Definition refund_outcome (answer : option RefundResponse * option error) : outcome RefundResponse :=
  match answer with
  | (Some r, Some e) => if trim_space (resp_RefundStatus r) =s? ProviderStatusPending then Success r else Failure e
  | (None, Some e) => Failure e
  | (resp, None) =>
      match validateRefundProviderResponse resp, resp with
      | None, Some r => Success r
      | Some e, _ => Failure e
      | None, None => Failure (OtherError "payment refund response missing")
      end
  end.

Definition gwRefund (p : RefundPlan) : program (outcome RefundResponse) :=
  let o := plan_Order p in
  if PaymentTradeNo o =s? "" then
    _ ← audit (order_ID o) "REFUND_NO_TRADE_NO"; mret (Success (mkRefundResponse "" ProviderStatusSuccess))
  else
    prov ← getRefundProvider o;
    match prov with
    | Failure e => failed (WrappedError "get refund provider" e)
    | Success prov =>
        match validateProviderSnapshotMetadata o (prov_ProviderKey prov) (prov_MerchantIdentity prov) with
        | Some e => _ ← audit (order_ID o) "REFUND_PROVIDER_METADATA_MISMATCH"; failed e
        | None =>
            answer ← call (ProviderRefund (order_ID o) prov
                       (mkRefundRequest (PaymentTradeNo o) (OutTradeNo o) (formatGatewayRefundAmount (plan_GatewayAmount p) o) (plan_Reason p)));
            mret (refund_outcome answer)
        end
    end.

(** ** Giving back, and the end of a refund *)

Definition has_balance_deduction (p : RefundPlan) : bool :=
  (plan_DeductionType p =s? DeductionTypeBalance) && SFltb f64_zero (plan_BalanceToDeduct p).
Definition has_days_deduction (p : RefundPlan) : bool :=
  (plan_DeductionType p =s? DeductionTypeSubscription) && (0 <? plan_SubDaysToDeduct p) && (0 <? plan_SubscriptionID p).

Definition restoreStatus (p : RefundPlan) : program unit :=
  let rs := if order_Status (plan_Order p) =s? OrderStatusRefundRequested then OrderStatusRefundRequested else OrderStatusCompleted in
  _ ← call (UpdateOneOrder (plan_OrderID p) [SetStatus rs]);
  mret tt.

Definition rollback_failed (p : RefundPlan) : program bool := _ ← audit (plan_OrderID p) "REFUND_ROLLBACK_FAILED"; mret false.

Definition RollbackRefund (p : RefundPlan) : program bool :=
  balance ← (if has_balance_deduction p
             then call (UpdateBalance (plan_OrderID p) (UserID (plan_Order p)) (plan_BalanceToDeduct p)) else done_);
  match balance with
  | Failure _ => rollback_failed p
  | Success _ =>
      days ← (if has_days_deduction p
              then call (ExtendSubscriptionDays (plan_OrderID p) (plan_SubscriptionID p) (plan_SubDaysToDeduct p)) else done_);
      match days with
      | Failure _ => rollback_failed p
      | Success _ => mret true
      end
  end.

(** Its message is the text of [gErr], which is kept here as the cause. *)
Definition refund_failed (gErr : error) : error := ApplicationError 500 "REFUND_FAILED" "" [] (Some gErr).

Definition handleGwFail (p : RefundPlan) (gErr : error) : program (outcome RefundResult) :=
  rolledBack ← RollbackRefund p;
  if rolledBack : bool then
    _ ← restoreStatus p;
    _ ← audit (plan_OrderID p) "REFUND_GATEWAY_FAILED";
    mret (Success (warned (GatewayFailedRolledBack gErr)))
  else
    _ ← call (UpdateOneOrder (plan_OrderID p) [SetStatus OrderStatusRefundFailed]);
    _ ← audit (plan_OrderID p) "REFUND_FAILED";
    failed (refund_failed gErr).

Definition markRefundOk (p : RefundPlan) : program (outcome RefundResult) :=
  let fs := if SFltb (plan_RefundAmount p) (Amount (plan_Order p)) then OrderStatusPartiallyRefunded else OrderStatusRefunded in
  res ← call (UpdateOneOrder (plan_OrderID p)
          [SetStatus fs; SetRefundAmount (plan_RefundAmount p); SetRefundReason (plan_Reason p); SetForceRefund (plan_Force p)]);
  match res with
  | Failure e => failed (WrappedError "mark refund" e)
  | Success _ =>
      _ ← audit (plan_OrderID p) "REFUND_SUCCESS";
      mret (Success (mkRefundResult true NoWarning false (plan_BalanceToDeduct p) (plan_SubDaysToDeduct p)))
  end.

Definition markRefundPending (p : RefundPlan) (resp : RefundResponse) : program (outcome RefundResult) :=
  rollbackOK ← RollbackRefund p;
  res ← call (UpdateOneOrder (plan_OrderID p)
          [SetStatus OrderStatusRefundPending; SetRefundAmount (plan_RefundAmount p); SetRefundReason (plan_Reason p);
           SetForceRefund (plan_Force p)]);
  match res with
  | Failure e => failed (WrappedError "mark refund pending" e)
  | Success _ =>
      _ ← call (WriteRefundPending (plan_OrderID p) (mkPendingDetail (trim_space (resp_RefundID resp)) rollbackOK));
      mret (Success (warned (Warn (if rollbackOK : bool then "gateway refund is pending confirmation"
                                   else "gateway refund is pending confirmation; refund deduction rollback failed"))))
  end.

Definition finishRefund (p : RefundPlan) (resp : RefundResponse) : program (outcome RefundResult) :=
  match validateRefundProviderResponse (Some resp) with
  | Some e => handleGwFail p e
  | None =>
      let status := trim_space (resp_RefundStatus resp) in
      if in_list status [ProviderStatusSuccess; ProviderStatusRefunded] then markRefundOk p
      else if status =s? ProviderStatusPending then markRefundPending p resp
      else handleGwFail p (OtherError ("payment refund returned unknown status: " +:+ status))
  end.

(** ** Executing a plan *)

(** Both deductions are skipped where an earlier one could not be undone. *)
Definition deduct_balance (p : RefundPlan) : program (outcome RefundPlan) :=
  if negb (has_balance_deduction p) then mret (Success p) else
  kept ← call (HasAuditLog (plan_OrderID p) "REFUND_ROLLBACK_FAILED");
  if kept : bool then mret (Success (p <| plan_BalanceToDeduct := f64_zero |>)) else
  res ← call (UpdateBalance (plan_OrderID p) (UserID (plan_Order p)) (SFopp (plan_BalanceToDeduct p)));
  match res with
  | Failure e => _ ← restoreStatus p; failed (WrappedError "deduction" e)
  | Success _ => mret (Success p)
  end.

Definition deduct_days (p : RefundPlan) : program (outcome RefundPlan) :=
  if negb (has_days_deduction p) then mret (Success p) else
  kept ← call (HasAuditLog (plan_OrderID p) "REFUND_ROLLBACK_FAILED");
  if kept : bool then mret (Success (p <| plan_SubDaysToDeduct := 0 |>)) else
  res ← call (ExtendSubscriptionDays (plan_OrderID p) (plan_SubscriptionID p) (sub64 0 (plan_SubDaysToDeduct p)));
  match res with
  | Success _ => mret (Success p)
  | Failure e =>
      if errors_Is e ErrAdjustWouldExpire then
        revoked ← call (RevokeSubscription (plan_SubscriptionID p));
        match revoked with
        | Failure e => _ ← restoreStatus p; failed (WrappedError "revoke subscription" e)
        | Success _ => mret (Success p)
        end
      else _ ← restoreStatus p; failed (WrappedError "deduct subscription days" e)
  end.

(** After the order was locked. *)
Definition execute_locked (p : RefundPlan) : program (outcome RefundResult) :=
  d1 ← deduct_balance p;
  match d1 with
  | Failure e => failed e
  | Success p =>
      d2 ← deduct_days p;
      match d2 with
      | Failure e => failed e
      | Success p =>
          refunded ← gwRefund p;
          match refunded with
          | Failure e => handleGwFail p e
          | Success resp => finishRefund p resp
          end
      end
  end.

Definition ExecuteRefund (p : RefundPlan) : program (outcome RefundResult) :=
  locked ← update (plan_OrderID p) (StatusIn refundable_statuses) [SetStatus OrderStatusRefunding];
  match locked with
  | Failure e => failed (WrappedError "lock" e)
  | Success c => if c =? 0 then failed (Conflict "CONFLICT" "order status changed") else execute_locked p
  end.

(** The administrator's request (handler/admin/payment_handler.go). *)
Definition ProcessRefund (oid : Z) (amt : float64) (reason : string) (force deduct : bool) : program (outcome RefundResult) :=
  plan ← PrepareRefund oid amt reason force deduct;
  match plan with
  | Failure e => failed e
  | Success (inr early) => mret (Success early)
  | Success (inl p) => ExecuteRefund p
  end.

(** ** Finalizing a pending refund *)

Definition refundFinalizePlan (o : PaymentOrder) : RefundPlan :=
  let reason := trim_space (RefundReason o) in
  let reason := if reason =s? "" then "refund order:" +:+ pretty (order_ID o) else reason in
  mkRefundPlan (order_ID o) o (RefundAmount o)
    (calculateGatewayRefundAmount (Amount o) (PayAmount o) (RefundAmount o) (PaymentOrderCurrency o))
    reason (ForceRefund o) true DeductionTypeBalance
    (if OrderType o =s? OrderTypeBalance then RefundAmount o else f64_zero) 0 0.

Definition applyRefundFinalDeduction (p : RefundPlan) : program (outcome RefundPlan) :=
  applied ← call (HasAuditLog (plan_OrderID p) "REFUND_SUCCESS");
  if applied : bool then mret (Success (p <| plan_BalanceToDeduct := f64_zero |> <| plan_SubDaysToDeduct := 0 |>)) else
  balance ← (if has_balance_deduction p
             then call (UpdateBalance (plan_OrderID p) (UserID (plan_Order p)) (SFopp (plan_BalanceToDeduct p))) else done_);
  match balance with
  | Failure e => failed (WrappedError "deduction" e)
  | Success _ =>
      days ← (if has_days_deduction p
              then call (ExtendSubscriptionDays (plan_OrderID p) (plan_SubscriptionID p) (sub64 0 (plan_SubDaysToDeduct p))) else done_);
      match days with
      | Success _ => mret (Success p)
      | Failure e =>
          if errors_Is e ErrAdjustWouldExpire then
            revoked ← call (RevokeSubscription (plan_SubscriptionID p));
            match revoked with Failure e => failed (WrappedError "revoke subscription" e) | Success _ => mret (Success p) end
          else failed (WrappedError "deduct subscription days" e)
      end
  end.

Definition finalizeRefundFailed (o : PaymentOrder) (gErr : error) : program (outcome RefundResult) :=
  _ ← call (UpdateOneOrder (order_ID o) [SetStatus OrderStatusRefundFailed]);
  _ ← audit (order_ID o) "REFUND_FAILED";
  mret (Success (warned (GatewayRefundFailed gErr))).

Definition latestRefundPendingDetail (oid : Z) : program refundPendingAuditDetail :=
  entry ← call (LatestRefundPending oid);
  mret (match entry with
        | None => mkPendingDetail "" true
        | Some d => mkPendingDetail (trim_space (detail_RefundID d)) (DeductionRollbackOK d)
        end).

(** What is taken back now; [Some] ends the request. *)
Definition final_plan (o : PaymentOrder) (pendingDetail : refundPendingAuditDetail) : program (RefundPlan * option RefundResult) :=
  let plan := refundFinalizePlan o in
  if negb (DeductionRollbackOK pendingDetail)
  then mret (plan <| plan_BalanceToDeduct := f64_zero |> <| plan_SubDaysToDeduct := 0 |>, None)
  else if OrderType o =s? OrderTypeSubscription then prepDeduct o plan true
  else mret (plan, None).

Definition finalize_answered (o : PaymentOrder) (pendingDetail : refundPendingAuditDetail) (resp : RefundResponse)
    : program (outcome RefundResult) :=
  planned ← final_plan o pendingDetail;
  match planned with
  | (_, Some early) => mret (Success early)
  | (plan, None) =>
      let status := trim_space (resp_RefundStatus resp) in
      if in_list status [ProviderStatusSuccess; ProviderStatusRefunded] then
        deducted ← applyRefundFinalDeduction plan;
        match deducted with Failure e => failed e | Success plan => markRefundOk plan end
      else if status =s? ProviderStatusPending then
        _ ← audit (order_ID o) "REFUND_QUERY_PENDING";
        mret (Success (warned (Warn "gateway refund is still pending confirmation")))
      else finalizeRefundFailed o (OtherError ("payment refund returned unknown status: " +:+ status))
  end.

Definition QueryAndFinalizeRefund (oid : Z) : program (outcome RefundResult) :=
  got ← call (GetOrder oid);
  match got with
  | Failure _ => failed order_not_found
  | Success o =>
      if order_Status o <>s? OrderStatusRefundPending then failed (invalid_status "only refund pending orders can be finalized") else
      prov ← getRefundProvider o;
      match prov with
      | Failure e => failed (WrappedError "get refund provider" e)
      | Success prov =>
          if negb (prov_QueriesRefunds prov)
          then failed (BadRequest "REFUND_QUERY_UNSUPPORTED" "this payment provider does not support refund status query; please verify manually")
          else
            pendingDetail ← latestRefundPendingDetail oid;
            answer ← call (ProviderQueryRefund oid prov
                       (mkRefundQueryRequest (PaymentTradeNo o) (OutTradeNo o) (detail_RefundID pendingDetail)
                          (formatGatewayRefundAmount (RefundAmount o) o)));
            match answer with
            | (_, Some e) => failed (WrappedError "query refund" e)
            | (resp, None) =>
                match validateRefundProviderResponse resp, resp with
                | Some e, _ => finalizeRefundFailed o e
                | None, Some resp => finalize_answered o pendingDetail resp
                | None, None => finalizeRefundFailed o (OtherError "payment refund response missing")
                end
            end
      end
  end.
End Refund.
