(* ===== verification/PaymentStore.v ===== *)
(** * The database of the payment service

    The tables the programs use, and what a command may answer and do to them.
    A statement that reports an error may have been executed all the same; an
    audit entry may be lost without a trace. *)

From Stdlib Require Import Floats.SpecFloat.
From S2P Require Import Prelude GoStrings AppErrors Program PaymentData PaymentCommands Redeem.

(** What redeeming a code paid into a balance. *)
Record credit : Type := mkCredit { credit_code : string; credit_user : Z; credit_amount : float64 }.

(** What an order's subscription got. *)
Record assignment : Type := mkAssignment { assigned_order : Z; assigned_user : Z; assigned_group : Z; assigned_days : Z }.

(** What a provider reported refunded for an order. *)
Record refund : Type := mkRefund { refunded_order : Z; refunded_amount : string }.

(** What a refund took from a balance (negative) or gave back. *)
Record movement : Type := mkMovement { moved_order : Z; moved_user : Z; moved_amount : float64 }.

Record tables : Type := mkTables {
  orders : gmap Z PaymentOrder;
  next_order : Z;
  codes : gmap Z RedeemCode;
  next_code : Z;
  audits : list (Z * string);
  credits : list credit;
  assignments : list assignment;
  rebates : list Z;
  refunds : list refund;
  movements : list movement;
  pending_refunds : list (Z * refundPendingAuditDetail);
}.
#[export] Instance eta_tables : Settable tables := fun t =>
  mkTables (orders t) (next_order t) (codes t) (next_code t) (audits t) (credits t) (assignments t) (rebates t)
    (refunds t) (movements t) (pending_refunds t).

Definition empty_tables : tables := mkTables ∅ 1 ∅ 1 [] [] [] [] [] [] [].

(** ** What the statements do *)

(** UPDATE of the row [oid] where [p] holds: the number of rows. *)
Definition update_order (now oid : Z) (p : condition) (cs : list change) (db : tables) : outcome Z * tables :=
  match orders db !! oid with
  | Some o => if meets p o then (Success 1, db <| orders := <[oid := apply_changes now cs o]> (orders db) |>) else (Success 0, db)
  | None => (Success 0, db)
  end.

Definition update_one_order (now oid : Z) (cs : list change) (db : tables) : outcome unit * tables :=
  match orders db !! oid with
  | Some o => (Success tt, db <| orders := <[oid := apply_changes now cs o]> (orders db) |>)
  | None => (Failure (OtherError "payment_order not found"), db)
  end.

Definition recharge_code (oid suffix : Z) : string := "PAY-" +:+ pretty oid +:+ "-" +:+ pretty suffix.

(** The row of a new order: pending, with the code made of its number. *)
Definition insert_order (now : Z) (o : PaymentOrder) (suffix : Z) (db : tables) : outcome PaymentOrder * tables :=
  let oid := next_order db in
  let o := o <| order_ID := oid |> <| order_Status := OrderStatusPending |> <| PaidAt := None |> <| PaymentTradeNo := "" |>
             <| RechargeCode := recharge_code oid suffix |> <| UpdatedAt := now |> in
  (Success o, db <| orders := <[oid := o]> (orders db) |> <| next_order := oid + 1 |>).

(** The code column is unique. *)
Definition find_code (code : string) (db : tables) : option RedeemCode :=
  snd <$> List.find (fun r => code_Code (snd r) =s? code) (map_to_list (codes db)).

Definition insert_code (c : RedeemCode) (db : tables) : outcome unit * tables :=
  match find_code (code_Code c) db with
  | Some _ => (Failure (OtherError "duplicate key value violates unique constraint"), db)
  | None =>
      let id := next_code db in
      (Success tt, db <| codes := <[id := c <| code_ID := id |>]> (codes db) |> <| next_code := id + 1 |>)
  end.

(** Of what is granted, the payments into balances are recorded. *)
Definition add_benefit (code : string) (userID : Z) (b : benefit) (db : tables) : tables :=
  match b with
  | AddBalance amount => db <| credits := mkCredit code userID amount :: credits db |>
  | _ => db
  end.

(** The transaction: the code is marked used where it is unused, and the
    benefit granted; without a benefit it is rolled back. *)
Definition use_code (c : RedeemCode) (userID : Z) (grant : outcome benefit) (db : tables) : outcome bool * tables :=
  match codes db !! code_ID c with
  | Some row =>
      if negb (CanUse row) then (Success false, db) else
      match grant with
      | Failure e => (Failure e, db)
      | Success b =>
          (Success true,
           add_benefit (code_Code c) userID b
             (db <| codes := <[code_ID c := row <| code_Status := StatusUsed |> <| UsedBy := Some userID |>]> (codes db) |>))
      end
  | None => (Success false, db)
  end.

Definition write_audit (oid : Z) (action : string) (db : tables) : tables := db <| audits := (oid, action) :: audits db |>.

Definition has_audit (oid : Z) (action : string) (db : tables) : bool :=
  existsb (fun e => (fst e =? oid) && (snd e =s? action)) (audits db).

Definition add_assignment (a : assignment) (db : tables) : tables := db <| assignments := a :: assignments db |>.

(** The claim row and the rebate are written in one transaction; [applied]:
    the rebate is not zero. *)
Definition add_rebate (applied : bool) (oid : Z) (db : tables) : outcome unit * tables :=
  if has_audit oid "AFFILIATE_REBATE_APPLIED" db || has_audit oid "AFFILIATE_REBATE_SKIPPED" db then (Success tt, db)
  else if applied then (Success tt, write_audit oid "AFFILIATE_REBATE_APPLIED" db <| rebates := oid :: rebates db |>)
  else (Success tt, write_audit oid "AFFILIATE_REBATE_SKIPPED" db).

Definition add_movement (m : movement) (db : tables) : tables := db <| movements := m :: movements db |>.

Definition add_pending_refund (oid : Z) (detail : refundPendingAuditDetail) (db : tables) : tables :=
  write_audit oid "REFUND_PENDING" db <| pending_refunds := (oid, detail) :: pending_refunds db |>.

(** A refund that the provider reports done. *)
Definition reported_refunded (r : option RefundResponse * option error) : bool :=
  match r with
  | (Some resp, None) => in_list (trim_space (resp_RefundStatus resp)) ["success"; "refunded"]
  | _ => false
  end.

Definition provider_refund (oid : Z) (req : RefundRequest) (r : option RefundResponse * option error) (db : tables) : tables :=
  if reported_refunded r then db <| refunds := mkRefund oid (rr_Amount req) :: refunds db |> else db.

(** ** Answers *)

(** Reported as done, it is; reported as failed, it may be. *)
Definition statement {A} (r : outcome A) (db db' : tables) (effect : outcome A * tables) : Prop :=
  match r with
  | Success a => effect = (Success a, db')
  | Failure _ => db' = db \/ db' = snd effect
  end.

Definition reads (db db' : tables) (P : Prop) : Prop := db' = db /\ P.

(** The shop delivers what an order of its type paid for, or fails it. *)
Definition shop_delivery (now oid : Z) (db db' : tables) : Prop :=
  db' = db \/ exists o s, orders db !! oid = Some o /\ OrderType o = OrderTypeShop /\
    (s = OrderStatusCompleted \/ s = OrderStatusFailed) /\
    db' = db <| orders := <[oid := apply_changes now [SetStatus s] o]> (orders db) |>.

Definition answers R (c : cmd R) (now : Z) (db : tables) : R -> tables -> Prop :=
  match c in cmd R return R -> tables -> Prop with
  | Now => fun r db' => reads db db' (r = now)
  | GetOrder oid => fun r db' => reads db db' (match r with Success o => orders db !! oid = Some o | Failure _ => True end)
  | FindByOutTradeNo no => fun r db' => reads db db'
      (match r with
       | Found o => exists oid, orders db !! oid = Some o /\ OutTradeNo o = no
       | NotFoundRow => forall oid o, orders db !! oid = Some o -> OutTradeNo o <> no
       | LookupError _ => True
       end)
  | QueryOrders p => fun r db' => reads db db'
      (match r with Success l => l ≡ₚ List.filter (meets p) (map snd (map_to_list (orders db))) | Failure _ => True end)
  | UpdateOrder oid p cs => fun r db' => statement r db db' (update_order now oid p cs db)
  | UpdateOneOrder oid cs => fun r db' => statement r db db' (update_one_order now oid cs db)
  | InsertOrder o suffix => fun r db' => statement r db db' (insert_order now o suffix db)
  | CancelTx oid status => fun r db' => statement r db db' (update_order now oid (StatusEQ OrderStatusPending) [SetStatus status] db)
  | HasAuditLog oid action => fun r db' => reads db db' (r = true -> has_audit oid action db = true)
  | WriteAuditLog oid action => fun _ db' => db' = db \/ db' = write_audit oid action db
  | SelectCode code => fun r db' => reads db db'
      (match r with Success c => exists id, codes db !! id = Some c /\ code_Code c = code | Failure _ => True end)
  | InsertCode c => fun r db' => statement r db db' (insert_code c db)
  | UseTx c userID grant => fun r db' => statement r db db' (use_code c userID grant db)
  | AssignOrExtendSubscription oid userID gid days => fun r db' =>
      statement r db db' (Success tt, add_assignment (mkAssignment oid userID gid days) db)
  | RebateTx oid _ _ => fun r db' => exists applied, statement r db db' (add_rebate applied oid db)
  | ConfirmPaidAndDeliver oid => fun _ db' => shop_delivery now oid db db'
  | UpdateBalance oid userID amount => fun r db' => statement r db db' (Success tt, add_movement (mkMovement oid userID amount) db)
  | ProviderRefund oid _ req => fun r db' => db' = provider_refund oid req r db
  | WriteRefundPending oid detail => fun _ db' => db' = db \/ db' = add_pending_refund oid detail db
  | LatestRefundPending oid => fun r db' => reads db db'
      (match r with
       | Some detail => exists l1 l2, pending_refunds db = (l1 ++ (oid, detail) :: l2)%list /\ Forall (fun e => fst e <> oid) l1
       | None => True
       end)
  | _ => fun _ db' => db' = db
  end.
