(* ===== verification/PaymentSafety.v ===== *)
(** * Every paid order is credited once

    Notifications, administrators, users, the periodic check and redeeming of
    codes run in any interleaving, any statement may fail, and a program may
    stop anywhere.  What each program knows when it issues a statement keeps an
    invariant of the tables. *)

From Stdlib Require Import Floats.SpecFloat.
From S2P Require Import Prelude GoStrings Json JsonFacts AppErrors Program Interleaving PaymentData PaymentCommands Redeem Payment.
From S2P Require Import PaymentStore.

(** ** What never changes of an order *)

Definition same_order (o o' : PaymentOrder) : Prop :=
  order_ID o' = order_ID o /\ UserID o' = UserID o /\ Amount o' = Amount o /\ OrderType o' = OrderType o /\
  RechargeCode o' = RechargeCode o.

Definition paid (o : PaymentOrder) : Prop := PaidAt o <> None.

Lemma same_order_refl o : same_order o o.
Proof. done. Qed.

Lemma same_order_trans o1 o2 o3 : same_order o1 o2 -> same_order o2 o3 -> same_order o1 o3.
Proof. unfold same_order. intuition congruence. Qed.

Lemma apply_change_same c o : same_order o (apply_change c o) /\ (paid o -> paid (apply_change c o)).
Proof. by destruct c. Qed.

Lemma foldl_changes_same cs : forall o, same_order o (foldl (fun o c => apply_change c o) o cs) /\
  (paid o -> paid (foldl (fun o c => apply_change c o) o cs)).
Proof.
  induction cs as [|c cs IH]; intros o; [done|]. cbn [foldl]. destruct (IH (apply_change c o)) as [H1 H2].
  destruct (apply_change_same c o) as [H3 H4]. split; [by eapply same_order_trans | auto].
Qed.

Lemma apply_changes_same now cs o : same_order o (apply_changes now cs o) /\ (paid o -> paid (apply_changes now cs o)).
Proof. exact (foldl_changes_same cs o). Qed.

(** The status after the changes: the old one, or one of those they set. *)
Lemma foldl_changes_status cs : forall o, order_Status (foldl (fun o c => apply_change c o) o cs) = order_Status o \/
  SetStatus (order_Status (foldl (fun o c => apply_change c o) o cs)) ∈ cs.
Proof.
  induction cs as [|c cs IH]; intros o; [by left|]. cbn [foldl]. destruct (IH (apply_change c o)) as [H|H].
  - destruct c; rewrite H; [right; by left | by left..].
  - right. by right.
Qed.

Lemma foldl_changes_paid cs : forall o t, SetPaidAt t ∈ cs -> paid (foldl (fun o c => apply_change c o) o cs).
Proof.
  induction cs as [|c cs IH]; intros o t H; [by apply not_elem_of_nil in H|]. apply elem_of_cons in H as [<-|H].
  - apply (foldl_changes_same cs). done.
  - by apply (IH _ t).
Qed.

Definition sets_paid (cs : list change) : bool := existsb (fun c => match c with SetPaidAt _ => true | _ => false end) cs.

Lemma sets_paid_elem cs : sets_paid cs = true -> exists t, SetPaidAt t ∈ cs.
Proof. intros H. apply existsb_exists in H as (c & Hin & Hc). destruct c; try done. exists t. by apply list_elem_of_In. Qed.

(** ** The code of an order *)

Definition pay_prefix : string := "PAY-".

Lemma recharge_code_inj a s b t : 0 <= a -> 0 <= b -> recharge_code a s = recharge_code b t -> a = b.
Proof.
  intros Ha Hb E. unfold recharge_code in E. cbn [String.append] in E. injection E as E.
  apply (f_equal take_digits) in E.
  rewrite !take_all_digits in E by first [by apply pretty_digits | done]. injection E as E _. by apply (inj pretty) in E.
Qed.

Lemma digit_plain c : is_digit c = true -> negb (space1 c) && utf8_1 c = true.
Proof. each_byte c; intros H; try discriminate H; by_vm. Qed.

Lemma recharge_code_trimmed a s : 0 <= a -> 0 <= s -> trim_space (recharge_code a s) = recharge_code a s.
Proof.
  intros Ha Hs. apply trim_space_none. unfold recharge_code. rewrite !all_bytes_app.
  rewrite (all_digits_bytes _ digit_plain (pretty a)), (all_digits_bytes _ digit_plain (pretty s)) by by apply pretty_digits. done.
Qed.

Lemma recharge_code_prefix a s : has_prefix (recharge_code a s) pay_prefix = true.
Proof. apply has_prefix_app. Qed.

(** ** Facts *)

Inductive fact : Type :=
| OrderIs (o : PaymentOrder)
| IsPaid (oid : Z)
| Settled (oid : Z)
| CodeIs (c : RedeemCode)
| CodeUsed (code : string).

Definition same_code (c c' : RedeemCode) : Prop :=
  code_Code c' = code_Code c /\ code_Type c' = code_Type c /\ code_Value c' = code_Value c.

Definition code_used (code : string) (t : gmap Z RedeemCode) : Prop :=
  exists id c, t !! id = Some c /\ code_Code c = code /\ code_Status c = StatusUsed.

(** Orders that are fulfilled by a code: neither subscriptions nor the shop's. *)
Definition by_code (o : PaymentOrder) : Prop := OrderType o <> OrderTypeSubscription /\ OrderType o <> OrderTypeShop.

(** It is paid, and credited if it is credited by a code. *)
Definition settled (cs : gmap Z RedeemCode) (o : PaymentOrder) : Prop := paid o /\ (by_code o -> code_used (RechargeCode o) cs).

Definition holds (f : fact) (db : tables) : Prop :=
  match f with
  | OrderIs o => exists o', orders db !! order_ID o = Some o' /\ same_order o o'
  | IsPaid oid => exists o, orders db !! oid = Some o /\ paid o
  | Settled oid => exists o, orders db !! oid = Some o /\ settled (codes db) o
  | CodeIs c => exists c', codes db !! code_ID c = Some c' /\ same_code c c'
  | CodeUsed code => code_used code (codes db)
  end.

(** The states of an order that was completed, refunds included, and those of
    one that was paid. *)
Definition status_settled (s : string) : bool := (s =s? OrderStatusCompleted) || psIsRefundStatus s.
Definition status_paid (s : string) : bool := in_list s [OrderStatusPaid; OrderStatusRecharging] || status_settled s.

(** When an order may be set to [s]. *)
Definition status_allowed (oid : Z) (cs : list change) (s : string) (K : list fact) : Prop :=
  (s = OrderStatusPaid -> sets_paid cs = true \/ IsPaid oid ∈ K) /\
  (s = OrderStatusRecharging -> IsPaid oid ∈ K) /\
  (status_settled s = true -> Settled oid ∈ K \/ (IsPaid oid ∈ K /\ exists o, OrderIs o ∈ K /\ order_ID o = oid /\
     (OrderType o = OrderTypeSubscription \/ CodeUsed (RechargeCode o) ∈ K))).

Definition changes_allowed (oid : Z) (cs : list change) (K : list fact) : Prop :=
  forall s, SetStatus s ∈ cs -> status_allowed oid cs s K.

(** A code with the prefix of the orders' codes is only made for a paid order. *)
Definition code_allowed (c : RedeemCode) (K : list fact) : Prop :=
  has_prefix (code_Code c) pay_prefix = true ->
  exists o o1, OrderIs o ∈ K /\ IsPaid (order_ID o) ∈ K /\ OrderIs o1 ∈ K /\ order_ID o1 = order_ID o /\ by_code o1 /\
    code_Code c = trim_space (RechargeCode o) /\ code_Type c = RedeemTypeBalance /\ code_Value c = Amount o /\
    code_Status c = StatusUnused.

Definition allowed R (c : cmd R) (K : list fact) : Prop :=
  match c with
  | UpdateOrder oid _ cs | UpdateOneOrder oid cs => changes_allowed oid cs K
  | CancelTx _ status => status = OrderStatusCancelled \/ status = OrderStatusExpired
  | InsertOrder _ suffix => 0 <= suffix
  | InsertCode c => code_allowed c K
  | UseTx c _ grant => CodeIs c ∈ K /\ exists user, grant = granted c user
  | ConfirmPaidAndDeliver oid => IsPaid oid ∈ K
  | _ => True
  end.

(** A row that has been paid, by its columns. *)
Definition shows_paid (o : PaymentOrder) : bool :=
  match PaidAt o with Some _ => true | None => false end || status_paid (order_Status o).

Definition learned R (c : cmd R) : R -> list fact :=
  match c in cmd R return R -> list fact with
  | GetOrder oid => fun r =>
      match r with
      | Success o => OrderIs o :: (if shows_paid o then [IsPaid oid] else []) ++ (if status_settled (order_Status o) then [Settled oid] else [])
      | Failure _ => []
      end
  | UpdateOrder oid _ cs => fun r =>
      match r with Success n => if negb (n =? 0) && sets_paid cs then [IsPaid oid] else [] | Failure _ => [] end
  | UpdateOneOrder oid cs => fun r =>
      match r with Success _ => if sets_paid cs then [IsPaid oid] else [] | Failure _ => [] end
  | SelectCode _ => fun r =>
      match r with Success c => CodeIs c :: (if IsUsed c then [CodeUsed (code_Code c)] else []) | Failure _ => [] end
  | UseTx c _ _ => fun r => match r with Success true => [CodeUsed (code_Code c)] | _ => [] end
  | _ => fun _ => []
  end.

Definition possible R (c : cmd R) : R -> Prop :=
  match c in cmd R return R -> Prop with
  | GetOrder oid => fun r => match r with Success o => order_ID o = oid | Failure _ => True end
  | SelectCode code => fun r => match r with Success c => code_Code c = code | Failure _ => True end
  | _ => fun _ => True
  end.

(** ** The invariant *)

Definition order_ok (cs : gmap Z RedeemCode) (next oid : Z) (o : PaymentOrder) : Prop :=
  order_ID o = oid /\ 0 < oid < next /\ (exists n, 0 <= n /\ RechargeCode o = recharge_code oid n) /\
  (status_paid (order_Status o) = true -> paid o) /\
  (status_settled (order_Status o) = true -> by_code o -> code_used (RechargeCode o) cs).

Definition code_ok (os : gmap Z PaymentOrder) (next id : Z) (c : RedeemCode) : Prop :=
  code_ID c = id /\ 0 < id < next /\
  (has_prefix (code_Code c) pay_prefix = true ->
   exists oid o, os !! oid = Some o /\ code_Code c = RechargeCode o /\ paid o /\ by_code o /\
     code_Type c = RedeemTypeBalance /\ code_Value c = Amount o /\ (code_Status c = StatusUnused \/ code_Status c = StatusUsed)).

(** What was paid into balances for a code. *)
Definition credits_of (code : string) (l : list credit) : list credit := List.filter (fun k => credit_code k =s? code) l.

(** An unused code has paid nothing, a used one its value, once. *)
Definition credits_ok (l : list credit) (c : RedeemCode) : Prop :=
  has_prefix (code_Code c) pay_prefix = true ->
  if IsUsed c then exists user amount, credits_of (code_Code c) l = [mkCredit (code_Code c) user amount] /\
                     (SFltb (code_Value c) f64_zero = false -> amount = code_Value c)
  else credits_of (code_Code c) l = [].

Definition has_row (t : gmap Z RedeemCode) (k : credit) : Prop := exists id c, t !! id = Some c /\ code_Code c = credit_code k.

Definition claimed (db : tables) (oid : Z) : Prop :=
  has_audit oid "AFFILIATE_REBATE_APPLIED" db || has_audit oid "AFFILIATE_REBATE_SKIPPED" db = true.

Record Inv (db : tables) : Prop := mkInv {
  inv_next : 0 < next_order db /\ 0 < next_code db;
  inv_orders : forall oid o, orders db !! oid = Some o -> order_ok (codes db) (next_order db) oid o;
  inv_codes : forall id c, codes db !! id = Some c -> code_ok (orders db) (next_code db) id c;
  inv_unique : forall i j c d, codes db !! i = Some c -> codes db !! j = Some d -> code_Code c = code_Code d -> i = j;
  inv_credits : forall id c, codes db !! id = Some c -> credits_ok (credits db) c;
  inv_rows : Forall (has_row (codes db)) (credits db);
  inv_rebates : NoDup (rebates db) /\ Forall (claimed db) (rebates db);
}.

Definition keeps (db db' : tables) : Prop := forall f, holds f db -> holds f db'.

Lemma keeps_refl db : keeps db db.
Proof. by intros f. Qed.

Lemma inv_empty : Inv empty_tables.
Proof.
  split; cbn [empty_tables orders next_order codes next_code audits credits rebates].
  - done.
  - intros ?? H. by rewrite lookup_empty in H.
  - intros ?? H. by rewrite lookup_empty in H.
  - intros ???? H. by rewrite lookup_empty in H.
  - intros ?? H. by rewrite lookup_empty in H.
  - constructor.
  - split; constructor.
Qed.

(** *** An order changes *)

Lemma by_code_same o o' : same_order o o' -> by_code o' -> by_code o.
Proof. intros (_ & _ & _ & E & _). unfold by_code. by rewrite E. Qed.

Lemma settled_same cs o o' : same_order o o' -> (paid o -> paid o') -> settled cs o -> settled cs o'.
Proof.
  intros Hs Hp [H1 H2]. split; [by apply Hp|]. intros Hby. destruct (Hs) as (_ & _ & _ & _ & ->). apply H2. by eapply by_code_same.
Qed.

Lemma order_ok_same cs next oid o o' : order_ok cs next oid o -> same_order o o' ->
  (status_paid (order_Status o') = true -> paid o') ->
  (status_settled (order_Status o') = true -> by_code o' -> code_used (RechargeCode o') cs) ->
  order_ok cs next oid o'.
Proof. 
  intros (H1 & H2 & H3 & _) (E1 & _ & _ & _ & E2) Hp Hc.
  split_and!; [congruence | by destruct H2 | by destruct H2 | by rewrite E2 | done | done].
Qed.

Lemma inv_set_order db oid o o' : Inv db -> orders db !! oid = Some o -> same_order o o' -> (paid o -> paid o') ->
  order_ok (codes db) (next_order db) oid o' ->
  Inv (db <| orders := <[oid := o']> (orders db) |>) /\ keeps db (db <| orders := <[oid := o']> (orders db) |>).
Proof.
  intros Hi Ho Hs Hp Hok. split.
  - destruct Hi as [Hn Hor Hco Hu Hcr Hro Hre]. split; try done; cbn.
    + intros i x [[-> <-]|[Hne Hx]]%lookup_insert_Some; [done | by apply Hor].
    + intros i c Hc. destruct (Hco i c Hc) as (E1 & E2 & E3). refine (conj E1 (conj E2 _)). intros Hpre.
      destruct (E3 Hpre) as (k & x & Hx & Ec & Hpx & Hby & Et & Ev & Est). destruct (decide (oid = k)) as [->|Hne].
      * rewrite Ho in Hx. injection Hx as ->. exists k, o'. destruct Hs as (_ & _ & Ea & Ety & Erc).
        rewrite lookup_insert_eq, Ea, Erc. unfold by_code. rewrite Ety. auto 10.
      * exists k, x. rewrite lookup_insert_ne by done. auto 10.
  - intros [x|k|k|c|code] Hf; cbn in *; [| | |done|done].
    + destruct Hf as (y & Hy & Hsy). destruct (decide (oid = order_ID x)) as [->|Hne].
      * rewrite Ho in Hy. injection Hy as ->. exists o'. rewrite lookup_insert_eq. split; [done | by eapply same_order_trans].
      * exists y. by rewrite lookup_insert_ne.
    + destruct Hf as (y & Hy & Hpy). destruct (decide (oid = k)) as [->|Hne].
      * rewrite Ho in Hy. injection Hy as ->. exists o'. rewrite lookup_insert_eq. auto.
      * exists y. by rewrite lookup_insert_ne.
    + destruct Hf as (y & Hy & Hpy). destruct (decide (oid = k)) as [->|Hne].
      * rewrite Ho in Hy. injection Hy as ->. exists o'. rewrite lookup_insert_eq. split; [done|]. by eapply settled_same.
      * exists y. by rewrite lookup_insert_ne.
Qed.

Lemma known db K f : Forall (fun f => holds f db) K -> f ∈ K -> holds f db.
Proof. intros H Hf. by eapply Forall_forall in H. Qed.

Lemma changes_sound db oid o now cs K : Inv db -> Forall (fun f => holds f db) K -> changes_allowed oid cs K ->
  orders db !! oid = Some o -> order_ok (codes db) (next_order db) oid (apply_changes now cs o).
Proof.
  intros Hi HK Ha Ho. pose proof (inv_orders _ Hi _ _ Ho) as Hok. destruct (apply_changes_same now cs o) as [Hs Hp].
  assert (HP : IsPaid oid ∈ K -> paid (apply_changes now cs o)).
  { intros Hf. destruct (known db K _ HK Hf) as (x & Hx & Hpx). rewrite Ho in Hx. injection Hx as <-. auto. }
  assert (HS : Settled oid ∈ K -> settled (codes db) o).
  { intros Hf. destruct (known db K _ HK Hf) as (x & Hx & Hsx). rewrite Ho in Hx. by injection Hx as <-. }
  assert (HSp : Settled oid ∈ K -> paid (apply_changes now cs o)) by (intros Hf; by apply Hp, HS).
  eapply order_ok_same; [exact Hok | exact Hs | |].
  - intros Hin. destruct (foldl_changes_status cs o) as [E|E].
    + apply Hp. destruct Hok as (_ & _ & _ & Hst & _). apply Hst. revert Hin. unfold apply_changes. cbn. by rewrite E.
    + destruct (Ha _ E) as (H1 & H2 & H3). revert Hin H1 H2 H3. unfold apply_changes, status_paid. cbn [in_list existsb order_Status set_field].
      change (order_Status (_ <| UpdatedAt := _ |>)) with (order_Status (foldl (fun o c => apply_change c o) o cs)).
      intros [[H|[H|H]%orb_prop]%orb_prop|H]%orb_prop H1 H2 H3; [| |done|]; try apply String.eqb_eq in H.
      * destruct (H1 H) as [(t & Ht)%sets_paid_elem|Hf]; [by apply (foldl_changes_paid cs o t) | by apply HP].
      * by apply HP, H2.
      * destruct (H3 H) as [Hf|[Hf _]]; [by apply HSp | by apply HP].
  - intros Hst Hby. destruct (foldl_changes_status cs o) as [E|E].
    + destruct Hok as (_ & _ & _ & _ & Hcomp). destruct Hs as (_ & _ & _ & Ety & ->). apply Hcomp.
      * by rewrite <- E.
      * revert Hby. unfold by_code. by rewrite Ety.
    + destruct (Ha _ E) as (_ & _ & H3). destruct (H3 Hst) as [Hf|(_ & x & Hx & Ex & Hcase)].
      { destruct (HS Hf) as [_ Hu]. destruct (Hs) as (_ & _ & _ & _ & ->). apply Hu. by eapply by_code_same. }
      destruct (known db K _ HK Hx) as (y & Hy & Hsy). rewrite Ex, Ho in Hy. injection Hy as <-.
      pose proof (same_order_trans _ _ _ Hsy Hs) as (_ & _ & _ & Ety & Erc). rewrite Erc.
      destruct Hcase as [Hsub|Hused]; [|exact (known db K _ HK Hused)].
      destruct Hby as [Hby _]. rewrite Ety in Hby. done.
Qed.

(** *** A new order *)

Lemma inv_insert_order db o : Inv db -> order_ok (codes db) (next_order db + 1) (next_order db) o -> 
  let db' := db <| orders := <[next_order db := o]> (orders db) |> <| next_order := next_order db + 1 |> in Inv db' /\ keeps db db'.
Proof.
  intros Hi Hok. assert (Hfresh : forall oid x, orders db !! oid = Some x -> oid <> next_order db).
  { intros oid x Hx. destruct (inv_orders _ Hi _ _ Hx) as (_ & H & _). lia. }
  destruct Hi as [[Hn1 Hn2] Hor Hco Hu Hcr Hro Hre]. split.
  - split; try done; cbn.
    + lia.
    + intros i x [[<- <-]|[Hne Hx]]%lookup_insert_Some; [done|]. destruct (Hor _ _ Hx) as (E1 & E2 & E3).
      refine (conj E1 (conj _ E3)). lia.
    + intros i c Hc. destruct (Hco i c Hc) as (E1 & E2 & E3). refine (conj E1 (conj E2 _)). intros Hpre.
      destruct (E3 Hpre) as (k & x & Hx & Ec). exists k, x. by rewrite lookup_insert_ne by (apply not_eq_sym; by eapply Hfresh).
  - intros [x|k|k|c|code] Hf; cbn in *; [| | |done|done].
    + destruct Hf as (y & Hy & Hsy). exists y. by rewrite lookup_insert_ne by (apply not_eq_sym; by eapply Hfresh).
    + destruct Hf as (y & Hy & Hsy). exists y. by rewrite lookup_insert_ne by (apply not_eq_sym; by eapply Hfresh).
    + destruct Hf as (y & Hy & Hsy). exists y. by rewrite lookup_insert_ne by (apply not_eq_sym; by eapply Hfresh).
Qed.

(** *** The table of codes grows *)

Lemma same_code_refl c : same_code c c.
Proof. done. Qed.

(** Rows stay, with their code, type and value, and stay used. *)
Definition extends (t t' : gmap Z RedeemCode) : Prop :=
  forall id c, t !! id = Some c -> exists c', t' !! id = Some c' /\ same_code c c' /\ (code_Status c = StatusUsed -> code_Status c' = StatusUsed).

Lemma extends_used t t' code : extends t t' -> code_used code t -> code_used code t'.
Proof.
  intros He (id & c & Hc & Ec & Es). destruct (He _ _ Hc) as (c' & Hc' & Hs & Hu). exists id, c'.
  split; [done|]. split; [by rewrite (proj1 Hs) | by apply Hu].
Qed.

Lemma extends_row t t' k : extends t t' -> has_row t k -> has_row t' k.
Proof. intros He (id & c & Hc & Ec). destruct (He _ _ Hc) as (c' & Hc' & Hs & _). exists id, c'. by rewrite (proj1 Hs). Qed.

Lemma extends_orders t t' next oid o : extends t t' -> order_ok t next oid o -> order_ok t' next oid o.
Proof.
  intros He (H1 & H2 & H3 & H4 & H5). refine (conj H1 (conj H2 (conj H3 (conj H4 _)))). intros Hs Hby.
  eapply extends_used; [done | by apply H5].
Qed.

Lemma extends_keeps db db' : extends (codes db) (codes db') -> orders db' = orders db -> keeps db db'.
Proof.
  intros He Ho [x|k|k|c|code] Hf; cbn [holds] in *; rewrite ?Ho; [done..| | |by eapply extends_used].
  { destruct Hf as (y & Hy & Hp & Hu). exists y. split; [done|]. split; [done|]. intros Hby. eapply extends_used; [exact He | auto]. }
  destruct Hf as (c1 & Hc1 & Hs1). destruct (He _ _ Hc1) as (c2 & Hc2 & Hs2 & _). exists c2. split; [done|].
  unfold same_code in *. intuition congruence.
Qed.

Lemma find_code_None code db : find_code code db = None -> forall id c, codes db !! id = Some c -> code_Code c <> code.
Proof.
  unfold find_code. intros H id c Hc E. apply fmap_None in H. apply elem_of_map_to_list, list_elem_of_In in Hc.
  pose proof (find_none _ _ H _ Hc) as Hn. cbn in Hn. by rewrite E, String.eqb_refl in Hn.
Qed.

Lemma credits_of_none code l t : Forall (has_row t) l -> (forall id c, t !! id = Some c -> code_Code c <> code) -> credits_of code l = [].
Proof.
  intros Hl Ht. induction Hl as [|k l (id & c & Hc & Ec) Hl IH]; [done|]. cbn. destruct (String.eqb_spec (credit_code k) code) as [E|_].
  - destruct (Ht _ _ Hc). by rewrite Ec.
  - exact IH.
Qed.

Lemma insert_code_sound c K db : Inv db -> Forall (fun f => holds f db) K -> code_allowed c K ->
  Inv (snd (insert_code c db)) /\ keeps db (snd (insert_code c db)).
Proof.
  intros Hi HK Ha. unfold insert_code. destruct (find_code (code_Code c) db) as [x|] eqn:Ef; [by split; [|apply keeps_refl]|].
  pose proof (find_code_None _ _ Ef) as Hnew. cbn [snd]. set (id := next_code db). set (c' := c <| code_ID := id |>).
  assert (Hfresh : codes db !! id = None).
  { destruct (codes db !! id) as [x|] eqn:E; [|done]. destruct (inv_codes _ Hi _ _ E) as (_ & H & _). unfold id in H. lia. }
  assert (He : extends (codes db) (<[id := c']> (codes db))).
  { intros i x Hx. exists x. rewrite lookup_insert_ne by congruence. auto using same_code_refl. }
  split; [|by apply extends_keeps]. pose proof (inv_rows _ Hi) as Hro. destruct Hi as [[Hn1 Hn2] Hor Hco Hu Hcr _ Hre].
  split; try done; cbn.
  - split; [done|]. unfold id. lia.
  - intros i o Ho. eapply extends_orders; [exact He | by apply Hor].
  - intros i x [[<- <-]|[Hne Hx]]%lookup_insert_Some.
    + refine (conj eq_refl (conj _ _)); [unfold id; lia|]. intros Hpre.
      destruct (Ha Hpre) as (o & o1 & HO & HP & HO1 & E1 & Hby & Ec & Et & Ev & Es).
      destruct (known db K _ HK HO) as (y & Hy & Hsy). destruct (known db K _ HK HO1) as (y1 & Hy1 & Hsy1).
      destruct (known db K _ HK HP) as (y2 & Hy2 & Hp2). rewrite E1, Hy in Hy1. rewrite Hy in Hy2. injection Hy1 as <-. injection Hy2 as <-.
      destruct (Hor _ _ Hy) as (_ & Hrange & (n & Hn & Ern) & _). exists (order_ID o), y.
      destruct Hsy as (_ & _ & Ea & _ & Er). destruct Hsy1 as (_ & _ & _ & Ety & _).
      change (code_Code c') with (code_Code c). rewrite Ec, <- Er, Ern, recharge_code_trimmed by lia. unfold by_code. rewrite Ety, Ea. auto 10.
    + destruct (Hco _ _ Hx) as (E1 & E2 & E3). refine (conj E1 (conj _ E3)). unfold id. lia.
  - intros i j x y [[<- <-]|[Hni Hx]]%lookup_insert_Some [[<- <-]|[Hnj Hy]]%lookup_insert_Some E; [done | | |by eapply Hu].
    + by destruct (Hnew _ _ Hy).
    + by destruct (Hnew _ _ Hx).
  - intros i x [[<- <-]|[Hni Hx]]%lookup_insert_Some; [|by eapply Hcr]. intros Hpre.
    destruct (Ha Hpre) as (_ & _ & _ & _ & _ & _ & _ & _ & _ & _ & Es).
    change (IsUsed c') with (code_Status c =s? StatusUsed). rewrite Es. by eapply credits_of_none.
  - eapply Forall_impl; [exact Hro|]. intros k. by apply extends_row.
Qed.

(** *** A code is used *)

Lemma granted_balance c user b : code_Type c = RedeemTypeBalance -> granted c user = Success b ->
  exists amount, b = AddBalance amount /\ (SFltb (code_Value c) f64_zero = false -> amount = code_Value c).
Proof.
  intros Et. unfold granted. rewrite Et. intros E. injection E as <-. exists (balance_amount c (Balance user)). split; [done|].
  intros Hv. unfold balance_amount. by rewrite Hv.
Qed.

Lemma credits_of_other code code' u a l : code' <> code -> credits_of code (mkCredit code' u a :: l) = credits_of code l.
Proof. intros Hne. cbn. by destruct (String.eqb_spec code' code). Qed.

Lemma add_benefit_only code u b db : let db' := add_benefit code u b db in
  orders db' = orders db /\ codes db' = codes db /\ next_order db' = next_order db /\ next_code db' = next_code db /\
  rebates db' = rebates db /\ audits db' = audits db /\ 
  credits db' = match b with AddBalance a => mkCredit code u a :: credits db | _ => credits db end.
Proof. by destruct b. Qed.

Lemma claimed_audits db db' : audits db' = audits db -> forall oid, claimed db oid -> claimed db' oid.
Proof. intros E oid. unfold claimed, has_audit. by rewrite E. Qed.

Lemma use_code_sound c user acc K db : Inv db -> Forall (fun f => holds f db) K -> CodeIs c ∈ K ->
  Inv (snd (use_code c user (granted c acc) db)) /\ keeps db (snd (use_code c user (granted c acc) db)).
Proof.
  intros Hi HK Hc. destruct (known db K _ HK Hc) as (row & Hrow & Ecode & Etype & Eval). unfold use_code. rewrite Hrow.
  destruct (CanUse row) eqn:Ecan; cbn [negb]; [|by split; [|apply keeps_refl]]. apply String.eqb_eq in Ecan.
  destruct (granted c acc) as [b|e] eqn:Eg; [|by split; [|apply keeps_refl]]. cbn [snd].
  set (row' := row <| code_Status := StatusUsed |> <| UsedBy := Some user |>).
  set (db1 := db <| codes := <[code_ID c := row']> (codes db) |>).
  destruct (add_benefit_only (code_Code c) user b db1) as (Eo & Ec & En & Em & Er & Ea & Ek). revert Eo Ec En Em Er Ea Ek.
  set (db2 := add_benefit _ _ _ _). cbv zeta. intros Eo Ec En Em Er Ea Ek.
  change (codes db2 = <[code_ID c := row']> (codes db)) in Ec.
  assert (He : extends (codes db) (codes db2)).
  { rewrite Ec. intros i x Hx. destruct (decide (i = code_ID c)) as [->|Hne].
    - rewrite Hrow in Hx. injection Hx as <-. exists row'. by rewrite lookup_insert_eq.
    - exists x. rewrite lookup_insert_ne by done. auto using same_code_refl. }
  split; [|by apply extends_keeps]. destruct Hi as [Hn Hor Hco Hu Hcr Hro Hre].
  split; rewrite ?Eo, ?En, ?Em, ?Er.
  - done.
  - intros i o Ho. eapply extends_orders; [exact He | by apply Hor].
  - intros i x Hx. rewrite Ec in Hx. apply lookup_insert_Some in Hx as [[<- <-]|[Hne Hx]]; [|by apply Hco].
    destruct (Hco _ _ Hrow) as (E1 & E2 & E3). refine (conj E1 (conj E2 _)). intros Hpre.
    destruct (E3 Hpre) as (k & o & Ho & F1 & F2 & F3 & F4 & F5 & _). exists k, o. auto 10.
  - intros i j x y Hx Hy E. rewrite Ec in Hx, Hy.
    apply lookup_insert_Some in Hx as [[<- <-]|[Hni Hx]]; apply lookup_insert_Some in Hy as [[<- <-]|[Hnj Hy]].
    + done.
    + by apply (Hu _ _ row y).
    + by apply (Hu _ _ x row).
    + by apply (Hu _ _ x y).
  - intros i x Hx. rewrite Ec in Hx. rewrite Ek. apply lookup_insert_Some in Hx as [[<- <-]|[Hne Hx]]; intros Hpre.
    + destruct (Hco _ _ Hrow) as (_ & _ & E3). destruct (E3 Hpre) as (_ & _ & _ & _ & _ & _ & F4 & _).
      rewrite Etype in F4. destruct (granted_balance c acc b) as (amount & -> & Hv); [by rewrite <- F4 | done |].
      specialize (Hcr _ _ Hrow Hpre). unfold IsUsed in Hcr. rewrite Ecan in Hcr. cbn in Hcr.
      change (IsUsed row') with true. change (code_Code row') with (code_Code row). change (code_Value row') with (code_Value row).
      exists user, amount. rewrite <- Ecode. change (credits db1) with (credits db). cbn [credits_of List.filter credit_code].
      rewrite String.eqb_refl. unfold credits_of in Hcr. rewrite Hcr. rewrite Eval. done.
    + specialize (Hcr _ _ Hx Hpre). assert (Hneq : code_Code c <> code_Code x).
      { rewrite <- Ecode. intros E. apply Hne. by apply (Hu _ _ row x). }
      destruct b; try exact Hcr. by rewrite credits_of_other.
  - rewrite Ek. assert (Hall : Forall (has_row (codes db2)) (credits db)).
    { eapply Forall_impl; [exact Hro|]. intros k. by apply extends_row. }
    destruct b; try exact Hall. constructor; [|exact Hall]. exists (code_ID c), row'. rewrite Ec. by rewrite lookup_insert_eq.
  - destruct Hre as [H1 H2]. split; [done|]. eapply Forall_impl; [exact H2|]. apply claimed_audits. by rewrite Ea.
Qed.

(** *** The lists grow *)

Lemma inv_lists db db' : Inv db -> orders db' = orders db -> codes db' = codes db -> next_order db' = next_order db ->
  next_code db' = next_code db -> credits db' = credits db -> NoDup (rebates db') -> Forall (claimed db') (rebates db') ->
  Inv db' /\ keeps db db'.
Proof.
  intros Hi Eo Ec En Em Ek H1 H2. split.
  - destruct Hi as [Hn Hor Hco Hu Hcr Hro Hre]. by split; rewrite ?Eo, ?Ec, ?En, ?Em, ?Ek.
  - intros [x|k|k|c|code]; cbn [holds]; by rewrite ?Eo, ?Ec.
Qed.

Lemma has_audit_cons oid action a db : has_audit oid action db = true -> has_audit oid action (db <| audits := a :: audits db |>) = true.
Proof. intros H. unfold has_audit in *. cbn. by rewrite H, orb_true_r. Qed.

Lemma claimed_cons a db oid : claimed db oid -> claimed (db <| audits := a :: audits db |>) oid.
Proof. intros [H|H]%orb_prop; apply (has_audit_cons _ _ a) in H; unfold claimed; by rewrite H, ?orb_true_r. Qed.

Lemma inv_audit db a : Inv db -> Inv (db <| audits := a :: audits db |>) /\ keeps db (db <| audits := a :: audits db |>).
Proof.
  intros Hi. destruct (inv_rebates _ Hi) as [H1 H2]. apply inv_lists; try done.
  eapply Forall_impl; [exact H2|]. intros oid. apply claimed_cons.
Qed.

Lemma rebate_sound applied oid db : Inv db -> Inv (snd (add_rebate applied oid db)) /\ keeps db (snd (add_rebate applied oid db)).
Proof.
  intros Hi. unfold add_rebate. destruct (_ || _) eqn:Ec; [by split; [|apply keeps_refl]|]. destruct applied; cbn [snd]; [|by apply inv_audit].
  destruct (inv_audit db (oid, "AFFILIATE_REBATE_APPLIED") Hi) as [Hi1 Hk1].
  unfold write_audit. set (db1 := db <| audits := _ |>) in *. destruct (inv_rebates _ Hi1) as [H1 H2].
  destruct (inv_lists db1 (db1 <| rebates := oid :: rebates db1 |>) Hi1) as [Hi2 Hk2]; try done.
  - constructor; [|done]. intros Hin. destruct (inv_rebates _ Hi) as [_ H3]. eapply Forall_forall in H3; [|exact Hin].
    unfold claimed in H3. by rewrite Ec in H3.
  - constructor; [|exact H2]. unfold claimed, has_audit. cbn. by rewrite Z.eqb_refl.
Qed.

(** ** Every allowed command keeps the invariant *)

Definition sound_answer R (c : cmd R) (r : R) (db db' : tables) : Prop :=
  possible R c r /\ Inv db' /\ Forall (fun f => holds f db') (learned R c r) /\ keeps db db'.

Lemma sound_nothing R (c : cmd R) r db : Inv db -> possible R c r -> learned R c r = [] -> sound_answer R c r db db.
Proof. intros Hi Hp Hl. unfold sound_answer. rewrite Hl. exact (conj Hp (conj Hi (conj (List.Forall_nil _) (keeps_refl db)))). Qed.

(** A statement whose answers teach [learned] when they report success. *)
Lemma sound_statement {A} (c : cmd (outcome A)) r db db' eff : Inv db -> statement r db db' eff ->
  Inv (snd eff) /\ keeps db (snd eff) -> possible _ c r -> (forall e, learned _ c (Failure e) = []) ->
  (forall a, fst eff = Success a -> Forall (fun f => holds f (snd eff)) (learned _ c (Success a))) ->
  sound_answer _ c r db db'.
Proof.
  intros Hi Hs [Hi' Hk] Hp Hf Hl. destruct r as [a|e].
  - cbn in Hs. subst eff. refine (conj Hp (conj Hi' (conj _ Hk))). by apply Hl.
  - unfold sound_answer. rewrite Hf. destruct Hs as [-> | ->].
    + exact (conj Hp (conj Hi (conj (List.Forall_nil _) (keeps_refl db)))).
    + exact (conj Hp (conj Hi' (conj (List.Forall_nil _) Hk))).
Qed.

Lemma update_sound now oid p cs K db : Inv db -> Forall (fun f => holds f db) K -> changes_allowed oid cs K ->
  Inv (snd (update_order now oid p cs db)) /\ keeps db (snd (update_order now oid p cs db)).
Proof.
  intros Hi HK Ha. unfold update_order. destruct (orders db !! oid) as [o|] eqn:Ho; [|by split; [|apply keeps_refl]].
  destruct (meets p o); [|by split; [|apply keeps_refl]]. destruct (apply_changes_same now cs o) as [Hs Hp].
  apply (inv_set_order db oid o); try done. by eapply changes_sound.
Qed.

Lemma update_one_sound now oid cs K db : Inv db -> Forall (fun f => holds f db) K -> changes_allowed oid cs K ->
  Inv (snd (update_one_order now oid cs db)) /\ keeps db (snd (update_one_order now oid cs db)).
Proof.
  intros Hi HK Ha. unfold update_one_order. destruct (orders db !! oid) as [o|] eqn:Ho; [|by split; [|apply keeps_refl]].
  destruct (apply_changes_same now cs o) as [Hs Hp]. apply (inv_set_order db oid o); try done. by eapply changes_sound.
Qed.

Lemma set_paid_known db oid now cs o : orders db !! oid = Some o -> sets_paid cs = true ->
  holds (IsPaid oid) (db <| orders := <[oid := apply_changes now cs o]> (orders db) |>).
Proof.
  intros Ho [t Ht]%sets_paid_elem. exists (apply_changes now cs o). cbn. rewrite lookup_insert_eq. split; [done|].
  exact (foldl_changes_paid cs o t Ht).
Qed.

Lemma cancel_allowed oid status K : status = OrderStatusCancelled \/ status = OrderStatusExpired -> changes_allowed oid [SetStatus status] K.
Proof.
  intros H s Hs%list_elem_of_singleton. injection Hs as ->. destruct H as [->| ->]; by split_and!; intros.
Qed.

Lemma insert_order_sound now o suffix db : 0 <= suffix -> Inv db ->
  Inv (snd (insert_order now o suffix db)) /\ keeps db (snd (insert_order now o suffix db)).
Proof.
  intros Hs Hi. destruct (inv_next _ Hi). apply inv_insert_order; [done|]. split_and!; cbn; try done; try lia. by exists suffix.
Qed.

Lemma shop_sound now oid db db' : Inv db -> holds (IsPaid oid) db -> shop_delivery now oid db db' -> Inv db' /\ keeps db db'.
Proof.
  intros Hi (x & Hx & Hpaid) [-> | (o & s & Ho & Ht & Hs & ->)]; [by split; [|apply keeps_refl]|].
  rewrite Ho in Hx. injection Hx as <-. destruct (apply_changes_same now [SetStatus s] o) as [Hsame Hp].
  apply (inv_set_order db oid o); try done. eapply order_ok_same; [by apply inv_orders | done | auto |].
  intros _ [_ Hby]. by destruct Hsame as (_ & _ & _ & Ety & _); rewrite Ety in Hby.
Qed.

Lemma step_sound R (c : cmd R) K now db r db' : Inv db -> Forall (fun f => holds f db) K -> allowed R c K ->
  answers R c now db r db' -> sound_answer R c r db db'.
Proof.
  intros Hi HK Ha Hans. destruct c; cbn [allowed answers] in Ha, Hans; try (subst db'; by apply sound_nothing).
  - destruct Hans as [-> _]. by apply sound_nothing.
  - destruct Hans as [-> Hr]. destruct r as [o|e]; [|by apply sound_nothing].
    pose proof (inv_orders _ Hi _ _ Hr) as (Eid & _ & _ & Hst & Hse). refine (conj Eid (conj Hi (conj _ (keeps_refl db)))).
    constructor; [exists o; rewrite Eid; by split; [|apply same_order_refl]|]. apply Forall_app. split.
    + destruct (shows_paid o) eqn:Es; [|constructor]. constructor; [|constructor]. exists o. split; [done|].
      unfold paid, shows_paid in *. destruct (PaidAt o); [done | exact (Hst Es)].
    + destruct (status_settled (order_Status o)) eqn:Es; [|constructor]. constructor; [|constructor]. exists o. split; [done|].
      split; [|by apply Hse]. apply Hst. unfold status_paid. by rewrite Es, orb_true_r.
  - destruct Hans as [-> _]. by apply sound_nothing.
  - destruct Hans as [-> _]. by apply sound_nothing.
  - eapply sound_statement; [done | exact Hans | by eapply update_sound | done | done |]. intros n. unfold update_order. cbn [learned].
    destruct (orders db !! oid) as [o|] eqn:Ho; [|intros E; injection E as <-; constructor].
    destruct (meets p o); intros E; injection E as <-; [|constructor]. cbn [negb Z.eqb andb].
    destruct (sets_paid cs) eqn:Ec; [|constructor]. constructor; [by apply set_paid_known | constructor].
  - eapply sound_statement; [done | exact Hans | by eapply update_one_sound | done | done |]. intros n. unfold update_one_order. cbn [learned].
    destruct (orders db !! oid) as [o|] eqn:Ho; [|done]. intros _.
    destruct (sets_paid cs) eqn:Ec; [|constructor]. constructor; [by apply set_paid_known | constructor].
  - eapply sound_statement; [done | exact Hans | by apply insert_order_sound | done | done |]. constructor.
  - eapply sound_statement; [done | exact Hans | eapply update_sound; [done | exact HK | by apply cancel_allowed] | done | done |]. constructor.
  - destruct Hans as [-> _]. by apply sound_nothing.
  - destruct Hans as [-> | ->]; [by apply sound_nothing|]. destruct (inv_audit db (oid, action) Hi) as [Hi' Hk].
    refine (conj I (conj Hi' (conj (List.Forall_nil _) Hk))).
  - destruct Hans as [-> Hr]. destruct r as [c|e]; [|by apply sound_nothing]. destruct Hr as (id & Hid & Ecode).
    pose proof (inv_codes _ Hi _ _ Hid) as (Eid & _ & _). refine (conj Ecode (conj Hi (conj _ (keeps_refl db)))).
    constructor; [exists c; rewrite Eid; by split; [|apply same_code_refl]|]. destruct (IsUsed c) eqn:Eu; [|constructor].
    constructor; [|constructor]. exists id, c. split; [done|]. split; [done|]. by apply String.eqb_eq.
  - eapply sound_statement; [done | exact Hans | by eapply insert_code_sound | done | done |]. constructor.
  - destruct Ha as [Hc [acc ->]]. eapply sound_statement; [done | exact Hans | by eapply use_code_sound | done | done |].
    intros b. unfold use_code. destruct (known db K _ HK Hc) as (row & Hrow & Ecode & _). rewrite Hrow.
    destruct (negb (CanUse row)); [intros E; injection E as <-; constructor|].
    destruct (granted c acc) as [x|]; [|done]. intros E. injection E as <-. constructor; [|constructor].
    exists (code_ID c). cbn [snd]. destruct (add_benefit_only (code_Code c) userID x
      (db <| codes := <[code_ID c := row <| code_Status := StatusUsed |> <| UsedBy := Some userID |>]> (codes db) |>)) as (_ & -> & _).
    eexists. split; [apply lookup_insert_eq|]. split; [exact Ecode | done].
  - eapply sound_statement; [done | exact Hans | | done | done | constructor]. by apply inv_lists; try apply (inv_rebates _ Hi).
  - destruct Hans as [applied Hans]. eapply sound_statement; [done | exact Hans | by apply rebate_sound | done | done | constructor].
  - destruct (shop_sound now oid db db' Hi (known db K _ HK Ha) Hans) as [Hi' Hk].
    exact (conj I (conj Hi' (conj (List.Forall_nil _) Hk))).
  - eapply sound_statement; [done | exact Hans | by apply inv_lists; try apply (inv_rebates _ Hi) | done | done | constructor].
  - subst db'. assert (Inv (provider_refund oid r0 r db) /\ keeps db (provider_refund oid r0 r db)) as [Hi' Hk].
    { unfold provider_refund. destruct (reported_refunded r); [|by split; [|apply keeps_refl]]. by apply inv_lists; try apply (inv_rebates _ Hi). }
    exact (conj I (conj Hi' (conj (List.Forall_nil _) Hk))).
  - destruct Hans as [-> | ->]; [by apply sound_nothing|]. destruct (inv_audit db (oid, "REFUND_PENDING") Hi) as [Hi1 Hk1].
    assert (Inv (add_pending_refund oid detail db) /\ keeps (write_audit oid "REFUND_PENDING" db) (add_pending_refund oid detail db))
      as [Hi2 Hk2] by (by apply (inv_lists _ _ Hi1); try apply (inv_rebates _ Hi1)).
    refine (conj I (conj Hi2 (conj (List.Forall_nil _) _))). intros f Hf. by apply Hk2, Hk1.
  - destruct Hans as [-> _]. by apply sound_nothing.
Qed.

(** ** Every program only issues allowed commands *)

Abbreviation issues := (knows allowed learned possible).
Abbreviation any_end := (fun _ _ => True).

Lemma changes_other oid s K : status_paid s = false -> changes_allowed oid [SetStatus s] K.
Proof.
  intros H s' Hs%list_elem_of_singleton. injection Hs as ->. apply orb_false_elim in H as [H1 H2].
  split_and!; [intros ->; discriminate H1..|]. by rewrite H2.
Qed.

Lemma changes_paid oid s K : IsPaid oid ∈ K -> status_settled s = false -> changes_allowed oid [SetStatus s] K.
Proof. intros H Hs s' E%list_elem_of_singleton. injection E as ->. split_and!; intros; [by right | done | congruence]. Qed.

(** A settled order stays one. *)
Definition settled_changes (cs : list change) : bool :=
  forallb (fun c => match c with SetStatus s => status_settled s | _ => true end) cs.

Lemma changes_settled oid cs K : settled_changes cs = true -> Settled oid ∈ K -> changes_allowed oid cs K.
Proof.
  intros Hc H s Hs. pose proof (proj1 (forallb_forall _ _) Hc _ (proj1 (list_elem_of_In _ _) Hs)) as Hst. cbn in Hst.
  split_and!; intros; [by subst s..|by left].
Qed.

Lemma changes_no_status oid cs K : (forall s, SetStatus s ∉ cs) -> changes_allowed oid cs K.
Proof. intros H s Hs. by apply H in Hs. Qed.

(** The first change sets the status, to paid. *)
Lemma changes_to_paid oid cs K : (forall s, SetStatus s ∉ cs) -> sets_paid cs = true \/ IsPaid oid ∈ K ->
  changes_allowed oid (SetStatus OrderStatusPaid :: cs) K.
Proof.
  intros Hno Hp s [[= ->]|Hin]%elem_of_cons; [|by apply Hno in Hin]. by split_and!.
Qed.

(** The order can be completed with what is known. *)
Definition completable (oid : Z) (K : list fact) : Prop :=
  IsPaid oid ∈ K /\ exists o, OrderIs o ∈ K /\ order_ID o = oid /\ (OrderType o = OrderTypeSubscription \/ CodeUsed (RechargeCode o) ∈ K).

Lemma completable_mono oid K K' : K ⊆ K' -> completable oid K -> completable oid K'.
Proof. intros Hs (Hp & o & Ho & E & [Hc|Hc]); (split; [by apply Hs|]; exists o; split; [by apply Hs|]; split; [done|]); auto. Qed.

Lemma changes_completed oid K : completable oid K -> changes_allowed oid [SetStatus OrderStatusCompleted] K.
Proof. intros H s E%list_elem_of_singleton. injection E as ->. by split_and!; intros; [..|right]. Qed.

(** Subprograms that may be issued whatever is known, and teach nothing. *)
Create HintDb harmless.

(** One command after the other: [walk] follows the program, splits its cases
    and leaves what the commands need. *)
Ltac walk :=
  repeat match goal with
  | |- issues _ _ _ => progress cbv beta zeta
  | |- issues (call _ ≫= _) _ _ => apply knows_call_bind; [try exact I | intros ? ?; cbn [learned possible] in * ]
  | |- issues (mret ?a ≫= ?f) ?K ?Q => change (issues (f a) K Q)
  | |- issues (done_ ≫= ?f) ?K ?Q => change (issues (f (Success tt)) K Q)
  | |- issues (mret _) _ _ => cbn; try done
  | |- issues (failed _) _ _ => cbn; try done
  | |- issues done_ _ _ => cbn; try done
  | |- issues (match ?x with _ => _ end) _ _ => destruct x eqn:?
  | |- issues (match ?x with _ => _ end ≫= _) _ _ => destruct x eqn:?
  | |- issues (_ ≫= _) _ _ => eapply (knows_then _ _ _ _ _ _ any_end); [solve [auto 1 with harmless nocore] | intros ? ? _ ?]
  | |- issues _ _ any_end => solve [auto 1 with harmless nocore]
  end.

Lemma legacy_instance_issues o K : issues (resolveUniqueLegacyOrderProviderInstance o) K any_end.
Proof. unfold resolveUniqueLegacyOrderProviderInstance. walk. Qed.

Lemma snapshot_instance_issues o snapshot K : issues (resolveSnapshotOrderProviderInstance o snapshot) K any_end.
Proof. unfold resolveSnapshotOrderProviderInstance. walk. Qed.
#[export] Hint Resolve legacy_instance_issues snapshot_instance_issues : harmless.

Lemma order_instance_issues o K : issues (getOrderProviderInstance o) K any_end.
Proof. unfold getOrderProviderInstance. walk. Qed.

Lemma refund_instance_issues o K : issues (getRefundOrderProviderInstance o) K any_end.
Proof. unfold getRefundOrderProviderInstance. walk. Qed.

Lemma expected_key_issues o k K : issues (expectedNotificationProviderKeyForOrder o k) K any_end.
Proof. unfold expectedNotificationProviderKeyForOrder, expectedNotificationProviderKey. walk. Qed.

Lemma fallback_key_issues o K : issues (paymentOrderFallbackProviderKey o) K any_end.
Proof. unfold paymentOrderFallbackProviderKey. walk. Qed.

Lemma fallback_allowed_issues k K : issues (webhookRegistryFallbackAllowed k) K any_end.
Proof. unfold webhookRegistryFallbackAllowed. walk. Qed.
#[export] Hint Resolve order_instance_issues refund_instance_issues expected_key_issues fallback_key_issues fallback_allowed_issues : harmless.

Lemma order_provider_issues o K : issues (getOrderProvider o) K any_end.
Proof. unfold getOrderProvider. walk; by apply knows_call. Qed.
#[export] Hint Resolve order_provider_issues : harmless.

Lemma audit_issues oid action K : issues (audit oid action) K any_end.
Proof. by apply knows_call. Qed.

Lemma audit_then {B} oid action (f : unit -> program B) K Q : issues (f tt) K Q -> issues (audit oid action ≫= f) K Q.
Proof. intros H. apply knows_call_bind; [exact I|]. by intros [] _. Qed.

Lemma redeem_locked_issues userID code K :
  issues (redeem_locked userID code) K (fun r K' => r = Success tt -> CodeUsed code ∈ K').
Proof.
  unfold redeem_locked. walk.
  - split; [set_solver | by eexists].
  - subst. intros _. set_solver.
Qed.

Lemma Redeem_issues userID code K : issues (Redeem userID code) K (fun r K' => r = Success tt -> CodeUsed code ∈ K').
Proof.
  unfold Redeem. walk. eapply knows_then; [apply redeem_locked_issues|]. intros r1 K' Hr _. by walk.
Qed.

(** What CreateCode inserts. *)
Definition normalized_code (c : RedeemCode) : RedeemCode :=
  let c := c <| code_Code := trim_space (code_Code c) |> in
  let c := c <| code_Type := if code_Type c =s? "" then RedeemTypeBalance else code_Type c |> in
  c <| code_Status := if code_Status c =s? "" then StatusUnused else code_Status c |>.

Lemma CreateCode_issues c K : code_allowed (normalized_code c) K -> issues (CreateCode c) K any_end.
Proof. intros H. unfold CreateCode. walk. exact H. Qed.

Lemma rebate_issues o K : issues (applyAffiliateRebateForOrder o) K any_end.
Proof. unfold applyAffiliateRebateForOrder. walk. apply audit_then. by walk. Qed.

Lemma markCompleted_issues o action K : completable (order_ID o) K -> issues (markCompleted o action) K any_end.
Proof.
  intros H. unfold markCompleted, update. walk; [by apply changes_completed|]. apply audit_then. by walk.
Qed.

Lemma markFailed_issues oid K : issues (markFailed oid) K any_end.
Proof. unfold markFailed, update. walk; [by apply changes_other | apply audit_issues]. Qed.

Lemma rebate_and_complete_issues o action K : completable (order_ID o) K -> issues (rebate_and_complete o action) K any_end.
Proof.
  intros H. unfold rebate_and_complete. eapply knows_then; [apply rebate_issues|]. intros r K' _ Hs. walk.
  apply markCompleted_issues. by eapply completable_mono.
Qed.

Lemma redeem_and_complete_issues o K : OrderIs o ∈ K -> IsPaid (order_ID o) ∈ K -> issues (redeem_and_complete o) K any_end.
Proof.
  intros Ho Hp. unfold redeem_and_complete. eapply knows_then; [apply Redeem_issues|]. intros r K' Hr Hs. walk. destruct a.
  apply rebate_and_complete_issues. split; [by apply Hs|]. exists o. split; [by apply Hs|]. auto.
Qed.

(** The order and its type are known, and that it is paid. *)
Definition balance_ready (o : PaymentOrder) (K : list fact) : Prop :=
  OrderIs o ∈ K /\ IsPaid (order_ID o) ∈ K /\ exists o1, OrderIs o1 ∈ K /\ order_ID o1 = order_ID o /\ by_code o1.

Lemma code_of_order_allowed o K : balance_ready o K ->
  code_allowed (normalized_code (mkRedeemCode 0 (RechargeCode o) RedeemTypeBalance (Amount o) StatusUnused None None 0)) K.
Proof. intros (Ho & Hp & o1 & Ho1 & E & Hby) _. by exists o, o1. Qed.

Lemma doBalance_issues o K : balance_ready o K -> issues (doBalance o) K any_end.
Proof.
  intros Hr. assert (Hr' : forall K', K ⊆ K' -> balance_ready o K').
  { intros K' Hs. destruct Hr as (H1 & H2 & o1 & H3 & H4). split; [by apply Hs|]. split; [by apply Hs|]. exists o1. split; [by apply Hs | done]. }
  unfold doBalance. walk.
  - eapply knows_then; [apply CreateCode_issues, code_of_order_allowed, Hr'; set_solver|]. intros r1 K' _ Hs. walk.
    destruct (Hr' K') as (H1 & H2 & _); [set_solver|]. by apply redeem_and_complete_issues.
  - destruct (Hr' ((match r with Success c => CodeIs c :: (if IsUsed c then [CodeUsed (code_Code c)] else []) | Failure _ => [] end) ++ K))
      as (H1 & H2 & _); [set_solver|]. by apply redeem_and_complete_issues.
  - destruct r as [c|e]; [|done]. cbn in Heqr0. destruct (IsUsed c) eqn:Eu; [|done]. cbn in H. apply rebate_and_complete_issues.
    destruct (Hr' (CodeIs c :: [CodeUsed (code_Code c)] ++ K)) as (H1 & H2 & _); [set_solver|]. split; [exact H2|]. exists o.
    split; [exact H1|]. split; [done|]. right. rewrite <- H. by right; left.
Qed.

Lemma doSub_issues o gid days K : completable (order_ID o) K -> issues (doSub o gid days) K any_end.
Proof.
  intros H. assert (H' : forall K', K ⊆ K' -> completable (order_ID o) K') by (intros; by eapply completable_mono).
  unfold doSub. walk; try apply audit_then; apply rebate_and_complete_issues, H'; set_solver.
Qed.

Lemma locked_issues oid work K : IsPaid oid ∈ K -> (forall K', K ⊆ K' -> issues work K' any_end) ->
  issues (locked_fulfillment oid work) K any_end.
Proof.
  intros Hp Hw. unfold locked_fulfillment, update. walk; [by apply changes_paid|].
  eapply knows_then; [apply Hw; set_solver|]. intros r1 K' _ _. walk. eapply knows_then; [apply markFailed_issues|]. intros; by walk.
Qed.

Lemma ExecuteBalance_issues oid o1 K : IsPaid oid ∈ K -> OrderIs o1 ∈ K -> order_ID o1 = oid -> by_code o1 ->
  issues (ExecuteBalanceFulfillment oid) K any_end.
Proof.
  intros Hp Ho E Hby. unfold ExecuteBalanceFulfillment. walk. apply locked_issues; [set_solver|]. intros K' Hs.
  apply doBalance_issues. cbn in H. split; [apply Hs; set_solver|]. rewrite H. split; [apply Hs; set_solver|].
  exists o1. split; [apply Hs; set_solver | done].
Qed.

Lemma ExecuteSubscription_issues oid o1 K : IsPaid oid ∈ K -> OrderIs o1 ∈ K -> order_ID o1 = oid -> OrderType o1 = OrderTypeSubscription ->
  issues (ExecuteSubscriptionFulfillment oid) K any_end.
Proof.
  intros Hp Ho E Hty. unfold ExecuteSubscriptionFulfillment. walk. apply locked_issues; [set_solver|]. intros K' Hs.
  apply doSub_issues. cbn in H. rewrite H. split; [apply Hs; set_solver|]. exists o1. split; [apply Hs; set_solver | auto].
Qed.

Lemma executeFulfillment_issues oid K : IsPaid oid ∈ K -> issues (executeFulfillment oid) K any_end.
Proof.
  intros Hp. unfold executeFulfillment. walk; cbn in H.
  - apply String.eqb_eq in Heqb. apply (ExecuteSubscription_issues oid a); try done; set_solver.
  - apply knows_call; [|done]. cbn [allowed]. set_solver.
  - apply (ExecuteBalance_issues oid a); try done; [set_solver..|]. by split; apply String.eqb_neq.
Qed.

Lemma alreadyProcessed_issues oid K : issues (alreadyProcessed oid) K any_end.
Proof.
  unfold alreadyProcessed. walk; try (apply audit_then; by walk). apply executeFulfillment_issues.
  unfold shows_paid. rewrite Heqo0. cbn. set_solver.
Qed.

Lemma toPaid_issues o tradeNo amount K : issues (toPaid o tradeNo amount) K any_end.
Proof.
  unfold toPaid, update. walk.
  - apply changes_to_paid; [set_solver | by left].
  - apply alreadyProcessed_issues.
  - apply audit_then, audit_then, executeFulfillment_issues. by left.
  - apply audit_then, executeFulfillment_issues. by left.
Qed.

Lemma confirmPayment_issues oid tradeNo amount pk md K : issues (confirmPayment oid tradeNo amount pk md) K any_end.
Proof. unfold confirmPayment. walk; try (apply audit_then; by walk). apply toPaid_issues. Qed.

Lemma HandlePaymentNotification_issues n pk K : issues (HandlePaymentNotification n pk) K any_end.
Proof. unfold HandlePaymentNotification. walk; apply confirmPayment_issues. Qed.

Lemma RetryFulfillment_issues oid K : issues (RetryFulfillment oid) K any_end.
Proof.
  unfold RetryFulfillment, update. walk.
  - apply changes_paid; [|done]. unfold shows_paid. rewrite Heqo0. cbn. set_solver.
  - apply audit_then, executeFulfillment_issues. unfold shows_paid. rewrite Heqo0. cbn. set_solver.
Qed.

Lemma rechargingTimeout_issues hasConfig K : issues (rechargingTimeout hasConfig) K any_end.
Proof. unfold rechargingTimeout. by walk. Qed.

Lemma stale_issues hasConfig o now K : issues (isRechargingOrderStale hasConfig o now) K any_end.
Proof.
  unfold isRechargingOrderStale. walk. eapply knows_then; [apply rechargingTimeout_issues|]. intros; by walk.
Qed.

(** Made paid by hand, the order is paid. *)
Lemma manual_update_issues o amount tradeNo now K : (shows_paid o = true -> IsPaid (order_ID o) ∈ K) ->
  issues (manual_update o amount tradeNo now) K (fun r K' => r = None -> IsPaid (order_ID o) ∈ K').
Proof.
  intros Hp. unfold manual_update, update. set (paid_at := match PaidAt o with None => [SetPaidAt now] | Some _ => [] end).
  assert (Hs : sets_paid paid_at = true \/ IsPaid (order_ID o) ∈ K).
  { unfold paid_at. destruct (PaidAt o) eqn:E; [|by left]. right. apply Hp. unfold shows_paid. by rewrite E. }
  assert (Hcs : forall cs, sets_paid (cs ++ paid_at ++ (if tradeNo =s? "" then [] else [SetPaymentTradeNo tradeNo])) = true \/ IsPaid (order_ID o) ∈ K).
  { intros cs. destruct Hs as [E|]; [|by right]. left. unfold sets_paid in *. by rewrite !existsb_app, E, orb_true_r. }
  assert (Hno : forall s, SetStatus s ∉ paid_at ++ (if tradeNo =s? "" then [] else [SetPaymentTradeNo tradeNo])).
  { intros s. unfold paid_at. destruct (PaidAt o), (tradeNo =s? ""); set_solver. }
  destruct (order_Status o <>s? OrderStatusPaid) eqn:Est.
  - apply knows_call_bind.
    + apply changes_to_paid; [|apply (Hcs [SetPayAmount amount])]. intros s. specialize (Hno s). cbn [app]. rewrite elem_of_cons. naive_solver.
    + intros r _ Hr. destruct r as [c|]; [|done]. destruct (c =? 0) eqn:Ec; [done|]. cbn [learned]. rewrite Ec.
      destruct (Hcs [SetStatus OrderStatusPaid; SetPayAmount amount]) as [->|]; set_solver.
  - destruct (_ || _) eqn:Eo; [apply knows_call_bind|].
    + apply changes_no_status. intros s Hin. cbn [app] in Hin. apply elem_of_cons in Hin as [|Hin]; [done|]. by apply Hno in Hin.
    + intros r _ Hr. destruct r as [c|]; [|done]. cbn [learned].
      destruct (Hcs [SetPayAmount amount]) as [->|]; set_solver.
    + walk. intros _. apply Hp. unfold shows_paid. destruct (PaidAt o); [done|]. by rewrite orb_true_r in Eo.
Qed.

Lemma manual_fulfill_issues o req now K : (shows_paid o = true -> IsPaid (order_ID o) ∈ K) -> issues (manual_fulfill o req now) K any_end.
Proof.
  intros Hp. unfold manual_fulfill. walk; (eapply knows_then; [by apply manual_update_issues|]); intros r K' Hr Hs; walk;
    apply audit_then, executeFulfillment_issues; auto.
Qed.

Lemma AdminManualFulfillOrder_issues hasConfig oid req K : issues (AdminManualFulfillOrder hasConfig oid req) K any_end.
Proof.
  unfold AdminManualFulfillOrder. walk.
  - eapply knows_then; [apply stale_issues|]. intros r1 K' _ Hs. walk. apply manual_fulfill_issues. intros Hp. rewrite Hp in Hs. cbn in H. rewrite H. apply Hs. set_solver.
  - apply manual_fulfill_issues. intros ->. cbn in H. rewrite H. set_solver.
Qed.

Lemma handle_confirmed_issues o key queryRef resp K : issues (handle_confirmed o key queryRef resp) K any_end.
Proof.
  unfold handle_confirmed, update. eapply knows_then.
  - instantiate (1 := any_end). walk. apply knows_call; [|done]. apply changes_no_status. set_solver.
  - intros r K' _ _. eapply knows_then; [apply HandlePaymentNotification_issues|]. intros; by walk.
Qed.

Lemma requery_issues oid queryRef K : issues (requeryPaidOrderOnce oid queryRef) K any_end.
Proof. unfold requeryPaidOrderOnce. by walk. Qed.

Lemma checkPaid_issues o K : issues (checkPaid o) K any_end.
Proof.
  unfold checkPaid. walk; [apply handle_confirmed_issues|]. apply audit_then.
  eapply knows_then; [apply requery_issues|]. intros r2 K2 _ _. walk. apply handle_confirmed_issues.
Qed.

Lemma cancel_pending_issues o status K : status = OrderStatusCancelled \/ status = OrderStatusExpired -> issues (cancel_pending o status) K any_end.
Proof. intros H. unfold cancel_pending. walk; first [exact H | by apply audit_then]. Qed.

Lemma cancelCore_issues o status K : status = OrderStatusCancelled \/ status = OrderStatusExpired -> issues (cancelCore o status) K any_end.
Proof.
  intros H. unfold cancelCore. walk; [|by apply cancel_pending_issues]. eapply knows_then; [apply checkPaid_issues|]. intros r K' _ _.
  walk. by apply cancel_pending_issues.
Qed.

Lemma CancelOrder_issues oid userID K : issues (CancelOrder oid userID) K any_end.
Proof. unfold CancelOrder. walk. apply cancelCore_issues. by left. Qed.

Lemma AdminCancelOrder_issues oid K : issues (AdminCancelOrder oid) K any_end.
Proof. unfold AdminCancelOrder. walk. apply cancelCore_issues. by left. Qed.

Lemma VerifyOrder_issues no userID K : issues (VerifyOrderByOutTradeNo no userID) K any_end.
Proof. unfold VerifyOrderByOutTradeNo. walk. eapply knows_then; [apply checkPaid_issues|]. intros; by walk. Qed.

Lemma fail_stale_issues l cutoff : forall n K, issues (fail_stale l cutoff n) K any_end.
Proof.
  induction l as [|o l IH]; intros n K; [done|]. cbn [fail_stale]. unfold update. walk; first [by apply changes_other | apply IH | by apply audit_then].
Qed.

Lemma expire_orders_issues l : forall n K, issues (expire_orders l n) K any_end.
Proof.
  induction l as [|o l IH]; intros n K; [done|]. cbn [expire_orders]. eapply knows_then; [apply cancelCore_issues; by right|].
  intros r K' _ _. walk; apply IH.
Qed.

Lemma ExpireTimedOutOrders_issues hasConfig hasShop K : issues (ExpireTimedOutOrders hasConfig hasShop) K any_end.
Proof.
  assert (Hrest : forall now K, issues (stale ← failStaleRechargingOrders hasConfig now;
      match stale with
      | Failure e => failed e
      | Success stale =>
          got ← call (QueryOrders (And (StatusEQ OrderStatusPending) (ExpiresAtLTE now)));
          match got with Failure e => failed (WrappedError "query expired" e) | Success orders => expire_orders orders stale end
      end) K any_end).
  { intros now K0. unfold failStaleRechargingOrders. eapply knows_then.
    - eapply knows_then; [apply rechargingTimeout_issues|]. intros t K1 _ _. instantiate (1 := any_end). walk. apply fail_stale_issues.
    - intros t K1 _ _. walk. apply expire_orders_issues. }
  unfold ExpireTimedOutOrders. walk; apply Hrest.
Qed.

Lemma CreateOrder_issues o suffix K : 0 <= suffix -> issues (CreateOrder o suffix) K any_end.
Proof.
  intros Hs. unfold CreateOrder. walk; [exact Hs|]. eapply knows_then.
  - instantiate (1 := any_end). unfold invokeProvider. walk; [|apply audit_then; by walk].
    apply changes_no_status. intros s. destruct (a0 =s? ""); set_solver.
  - intros r1 K' _ _. walk. by apply changes_other.
Qed.
