(* ===== verification/PaymentSystem.v ===== *)
(** * The payment system: every operation side by side

    Payments, refunds, redeeming and the periodic check, in any interleaving
    and with any failures, credit every order once. *)

From Stdlib Require Import Floats.SpecFloat.
From S2P Require Import Prelude GoStrings AppErrors Program Interleaving PaymentData Decimals PaymentCommands Redeem Payment Refund.
From S2P Require Import PaymentStore PaymentSafety.

(** ** Refunds only move settled orders *)

Section Refunds.
Context {D : decimal_ops}.

(** [Settled] is known of the order of the plan. *)
Ltac settled_change := apply changes_settled; [by repeat case_match | set_solver].
Ltac audited := repeat (apply audit_then); walk.

Lemma validateRefundRequest_issues oid uid K :
  issues (validateRefundRequest oid uid) K (fun r K' => match r with Success _ => Settled oid ∈ K' | Failure _ => True end).
Proof.
  unfold validateRefundRequest. walk. apply negb_false_iff, String.eqb_eq in Heqb1. 
  match goal with H : _ ⊆ _ |- _ => apply H end. rewrite Heqb1. cbn. set_solver.
Qed.

Lemma RequestRefund_issues oid uid reason K : issues (RequestRefund oid uid reason) K any_end.
Proof.
  unfold RequestRefund, update. eapply knows_then; [apply validateRefundRequest_issues|]. intros r K' Hr _. walk.
  - settled_change.
  - audited.
Qed.

Lemma prepDeduct_issues o p force K : issues (prepDeduct o p force) K (fun r _ => plan_OrderID (fst r) = plan_OrderID p).
Proof. unfold prepDeduct. walk; by repeat case_match. Qed.

(** The plans that are executed are those of settled orders. *)
Lemma PrepareRefund_issues oid amt reason force deduct K :
  issues (PrepareRefund oid amt reason force deduct) K
    (fun r K' => match r with Success (inl p) => Settled oid ∈ K' /\ plan_OrderID p = oid | _ => True end).
Proof.
  assert (Hs : forall s, in_list s refundable_statuses = true -> status_settled s = true).
  { intros s H. apply existsb_exists in H as (x & Hx & ->%String.eqb_eq). by repeat destruct Hx as [<-|Hx]. }
  unfold PrepareRefund. walk; apply negb_false_iff, Hs in Heqb; rewrite Heqb in *.
  - eapply knows_then; [apply prepDeduct_issues|]. intros [q early] K2 Hp Hsub. cbn in Hp. walk.
    destruct early; [done|]. split; [set_solver|]. by destruct (_ =s? _).
  - split; [set_solver|]. by destruct (_ =s? _).
Qed.

Lemma refund_provider_issues o K : issues (getRefundProvider o) K any_end.
Proof. unfold getRefundProvider. walk. by apply knows_call. Qed.
#[local] Hint Resolve refund_provider_issues : harmless.

Lemma gwRefund_issues p K : issues (gwRefund p) K any_end.
Proof. unfold gwRefund. walk; audited. Qed.
#[local] Hint Resolve gwRefund_issues : harmless.

Lemma rollback_failed_issues p K : issues (rollback_failed p) K any_end.
Proof. unfold rollback_failed. audited. Qed.
#[local] Hint Resolve rollback_failed_issues : harmless.

Lemma RollbackRefund_issues p K : issues (RollbackRefund p) K any_end.
Proof. unfold RollbackRefund. walk. Qed.
#[local] Hint Resolve RollbackRefund_issues : harmless.

Lemma restoreStatus_issues p K : Settled (plan_OrderID p) ∈ K -> issues (restoreStatus p) K any_end.
Proof. intros Hs. unfold restoreStatus. walk. settled_change. Qed.
#[local] Hint Resolve restoreStatus_issues : harmless.

Lemma handleGwFail_issues p e K : Settled (plan_OrderID p) ∈ K -> issues (handleGwFail p e) K any_end.
Proof.
  intros Hs. unfold handleGwFail. walk.
  - eapply knows_then; [apply restoreStatus_issues; set_solver|]. intros. audited.
  - settled_change.
  - audited.
Qed.

Lemma markRefundOk_issues p K : Settled (plan_OrderID p) ∈ K -> issues (markRefundOk p) K any_end.
Proof. intros Hs. unfold markRefundOk. walk; [settled_change | audited]. Qed.

Lemma markRefundPending_issues p resp K : Settled (plan_OrderID p) ∈ K -> issues (markRefundPending p resp) K any_end.
Proof. intros Hs. unfold markRefundPending. walk. settled_change. Qed.

Lemma finishRefund_issues p resp K : Settled (plan_OrderID p) ∈ K -> issues (finishRefund p resp) K any_end.
Proof.
  intros Hs. unfold finishRefund. walk; first [by apply handleGwFail_issues | by apply markRefundOk_issues | by apply markRefundPending_issues].
Qed.

(** A deduction keeps the plan's order. *)
Abbreviation same_plan p := (fun r _ => match r with Success p' => plan_OrderID p' = plan_OrderID p | Failure _ => True end).

Lemma restore_then {A} p (e : error) K (Q : outcome A -> list fact -> Prop) : Settled (plan_OrderID p) ∈ K -> (forall K', Q (Failure e) K') ->
  issues (restoreStatus p ≫= fun _ => failed e) K Q.
Proof. intros Hs HQ. eapply knows_then; [by apply restoreStatus_issues|]. intros. apply HQ. Qed.

Lemma deduct_balance_issues p K : Settled (plan_OrderID p) ∈ K -> issues (deduct_balance p) K (same_plan p).
Proof. intros Hs. unfold deduct_balance. walk. apply restore_then; [set_solver | done]. Qed.

Lemma deduct_days_issues p K : Settled (plan_OrderID p) ∈ K -> issues (deduct_days p) K (same_plan p).
Proof. intros Hs. unfold deduct_days. walk; (apply restore_then; [set_solver | done]). Qed.

Lemma execute_locked_issues p K : Settled (plan_OrderID p) ∈ K -> issues (execute_locked p) K any_end.
Proof.
  intros Hs. unfold execute_locked. eapply knows_then; [by apply deduct_balance_issues|]. intros r1 K1 H1 Hs1. walk.
  eapply knows_then; [apply deduct_days_issues; rewrite H1; set_solver|]. intros r2 K2 H2 Hs2. walk;
    [apply finishRefund_issues | apply handleGwFail_issues]; rewrite H2, H1; set_solver.
Qed.

Lemma ExecuteRefund_issues p K : Settled (plan_OrderID p) ∈ K -> issues (ExecuteRefund p) K any_end.
Proof. intros Hs. unfold ExecuteRefund, update. walk; [settled_change | apply execute_locked_issues; set_solver]. Qed.

Lemma ProcessRefund_issues oid amt reason force deduct K : issues (ProcessRefund oid amt reason force deduct) K any_end.
Proof.
  unfold ProcessRefund. eapply knows_then; [apply PrepareRefund_issues|]. intros r K' Hr _. walk. destruct Hr as [Hs E].
  apply ExecuteRefund_issues. by rewrite E.
Qed.

Lemma final_deduction_issues p K : issues (applyRefundFinalDeduction p) K (same_plan p).
Proof. unfold applyRefundFinalDeduction. walk. Qed.

Lemma finalizeRefundFailed_issues o e K : Settled (order_ID o) ∈ K -> issues (finalizeRefundFailed o e) K any_end.
Proof. intros Hs. unfold finalizeRefundFailed. walk; [settled_change | audited]. Qed.

Lemma final_plan_issues o d K : issues (final_plan o d) K (fun r _ => plan_OrderID (fst r) = order_ID o).
Proof. unfold final_plan. walk. apply prepDeduct_issues. Qed.

Lemma finalize_answered_issues o d resp K : Settled (order_ID o) ∈ K -> issues (finalize_answered o d resp) K any_end.
Proof.
  intros Hs. unfold finalize_answered. eapply knows_then; [apply final_plan_issues|]. intros [p r1] K' Hp Hsub. cbn in Hp. walk.
  - eapply knows_then; [apply final_deduction_issues|]. intros r2 K2 H2 Hs2. walk. apply markRefundOk_issues. rewrite H2, Hp. set_solver.
  - audited.
  - apply finalizeRefundFailed_issues. set_solver.
Qed.

Lemma pending_detail_issues oid K : issues (latestRefundPendingDetail oid) K any_end.
Proof. unfold latestRefundPendingDetail. walk. Qed.
#[local] Hint Resolve pending_detail_issues : harmless.

Lemma QueryAndFinalizeRefund_issues oid K : issues (QueryAndFinalizeRefund oid) K any_end.
Proof.
  unfold QueryAndFinalizeRefund. walk;
    (apply negb_false_iff, String.eqb_eq in Heqb; rewrite Heqb in *; cbn in H; subst oid);
    first [apply finalizeRefundFailed_issues | apply finalize_answered_issues]; set_solver.
Qed.
End Refunds.

(** ** The system *)

Definition ignoring {A} (p : program A) : program unit := _ ← p; mret tt.

Section System.
Context {D : decimal_ops}.

(** Codes that administrators create have another form than those of orders. *)
Inductive may_start : program unit -> Prop :=
| start_notification n pk : may_start (ignoring (HandlePaymentNotification n pk))
| start_create o suffix : 0 <= suffix < 100000 -> may_start (ignoring (CreateOrder o suffix))
| start_cancel oid userID : may_start (ignoring (CancelOrder oid userID))
| start_admin_cancel oid : may_start (ignoring (AdminCancelOrder oid))
| start_verify no userID : may_start (ignoring (VerifyOrderByOutTradeNo no userID))
| start_retry oid : may_start (ignoring (RetryFulfillment oid))
| start_manual hasConfig oid req : may_start (ignoring (AdminManualFulfillOrder hasConfig oid req))
| start_expire hasConfig hasShop : may_start (ignoring (ExpireTimedOutOrders hasConfig hasShop))
| start_request_refund oid uid reason : may_start (ignoring (RequestRefund oid uid reason))
| start_refund oid amt reason force deduct : may_start (ignoring (ProcessRefund oid amt reason force deduct))
| start_finalize_refund oid : may_start (ignoring (QueryAndFinalizeRefund oid))
| start_redeem userID code : may_start (ignoring (Redeem userID code))
| start_create_code c : has_prefix (trim_space (code_Code c)) pay_prefix = false -> may_start (ignoring (CreateCode c)).

Lemma ignoring_issues {A} (p : program A) P : issues p [] P -> issues (ignoring p) [] any_end.
Proof. intros H. eapply knows_then; [exact H|]. intros; by walk. Qed.

Lemma start_sound p : may_start p -> issues p [] any_end.
Proof.
  intros H. destruct H; eapply ignoring_issues.
  - apply HandlePaymentNotification_issues.
  - apply CreateOrder_issues. lia.
  - apply CancelOrder_issues.
  - apply AdminCancelOrder_issues.
  - apply VerifyOrder_issues.
  - apply RetryFulfillment_issues.
  - apply AdminManualFulfillOrder_issues.
  - apply ExpireTimedOutOrders_issues.
  - apply RequestRefund_issues.
  - apply ProcessRefund_issues.
  - apply QueryAndFinalizeRefund_issues.
  - apply Redeem_issues.
  - apply CreateCode_issues. intros Hp. change (code_Code (normalized_code c)) with (trim_space (code_Code c)) in Hp. congruence.
Qed.

End System.

(** ** Theorems *)

Abbreviation reachable := (rtc (step answers may_start)).

Lemma reachable_inv {D : decimal_ops} now s : reachable (mksystem empty_tables now []) s -> Inv (database s).
Proof.
  intros Hr. eapply (invariant_reachable answers may_start holds allowed learned possible Inv step_sound start_sound); [apply inv_empty | exact Hr].
Qed.

Lemma credits_of_unused code l t : Forall (has_row t) l -> credits_of code l <> [] -> exists id c, t !! id = Some c /\ code_Code c = code.
Proof.
  intros Hl Hne. destruct (credits_of code l) as [|k r] eqn:E; [done|].
  assert (Hin : In k (credits_of code l)) by (rewrite E; by left). apply filter_In in Hin as [Hin Hk]. apply String.eqb_eq in Hk.
  apply list_elem_of_In in Hin. eapply Forall_forall in Hl as (id & c & Hc & Ec); [|exact Hin]. exists id, c. by rewrite Ec.
Qed.

Lemma credits_of_order db oid o : Inv db -> orders db !! oid = Some o ->
  (credits_of (RechargeCode o) (credits db) = [] /\ ~ code_used (RechargeCode o) (codes db)) \/
  (exists user amount, credits_of (RechargeCode o) (credits db) = [mkCredit (RechargeCode o) user amount] /\
     (SFltb (Amount o) f64_zero = false -> amount = Amount o) /\ paid o /\ by_code o).
Proof.
  intros Hi Ho. destruct (inv_orders _ Hi _ _ Ho) as (Eid & Hr & (n & Hn & Ern) & _).
  assert (Hpre : has_prefix (RechargeCode o) pay_prefix = true) by (rewrite Ern; apply recharge_code_prefix).
  assert (Hown : forall id c, codes db !! id = Some c -> code_Code c = RechargeCode o ->
     paid o /\ by_code o /\ code_Value c = Amount o).
  { intros id c Hc Ec. destruct (inv_codes _ Hi _ _ Hc) as (_ & _ & H). rewrite Ec in H. specialize (H Hpre).
    destruct H as (k & x & Hx & Ex & Hp & Hby & _ & Hv & _). destruct (inv_orders _ Hi _ _ Hx) as (_ & Hrx & (m & Hm & Erm) & _).
    rewrite Ern, Erm in Ex. apply recharge_code_inj in Ex; [|lia..]. subst k. rewrite Ho in Hx. injection Hx as <-. done. }
  destruct (find_code (RechargeCode o) db) as [c|] eqn:Ef.
  - unfold find_code in Ef. apply fmap_Some in Ef as ([id c'] & Hf & ->). apply find_some in Hf as [Hin Ec]. cbn in Ec |- *.
    apply String.eqb_eq in Ec. apply list_elem_of_In, elem_of_map_to_list in Hin.
    destruct (Hown _ _ Hin Ec) as (Hp & Hby & Hv). pose proof (inv_credits _ Hi _ _ Hin) as Hcr. unfold credits_ok in Hcr. rewrite Ec in Hcr.
    specialize (Hcr Hpre). destruct (IsUsed c') eqn:Eu.
    + right. destruct Hcr as (u & a & H1 & H2). exists u, a. rewrite <- Hv. auto.
    + left. split; [done|]. intros (j & d & Hd & Ed & Es). assert (j = id) as -> by (eapply inv_unique; [done.. | congruence]).
      rewrite Hin in Hd. injection Hd as <-. unfold IsUsed in Eu. by rewrite Es in Eu.
  - left. pose proof (find_code_None _ _ Ef) as Hno. split.
    + eapply credits_of_none; [by apply inv_rows | exact Hno].
    + intros (j & d & Hd & Ed & _). by apply (Hno j d).
Qed.

(** C1: whatever the interleaving of notifications, cancellations, retries and
    refunds by administrators, expiry and redeeming, and whichever statements
    fail, the code of an order pays into a balance at most once; if it does,
    the order is paid, is a balance order, and what was paid in is its amount
    (unless that is negative); a balance order that is completed, or in any
    state of a refund, was credited exactly once; and a rebate is given at most
    once per order. *)
Theorem orders_credited_once {D : decimal_ops} now s oid o :
  reachable (mksystem empty_tables now []) s -> orders (database s) !! oid = Some o ->
  let got := credits_of (RechargeCode o) (credits (database s)) in
  (length got <= 1)%nat /\
  (forall k, k ∈ got -> paid o /\ by_code o /\ (SFltb (Amount o) f64_zero = false -> credit_amount k = Amount o)) /\
  (status_settled (order_Status o) = true -> by_code o -> length got = 1%nat) /\
  NoDup (rebates (database s)).
Proof.
  intros Hr Ho. cbv zeta. pose proof (reachable_inv now s Hr) as Hi. destruct (inv_rebates _ Hi) as [Hnd _].
  destruct (inv_orders _ Hi _ _ Ho) as (_ & _ & _ & _ & Hcomp).
  destruct (credits_of_order _ _ _ Hi Ho) as [[-> Hno]|(u & a & -> & Ha & Hp & Hby)].
  - split; [cbn; lia|]. split; [by intros k Hk%not_elem_of_nil|]. split; [|done]. intros Hst Hby. by destruct Hno; apply Hcomp.
  - split; [done|]. split; [|done]. intros k ->%list_elem_of_singleton. done.
Qed.
