(* ===== verification/RefundSafety.v ===== *)
(** * No order is refunded twice (internal/service/payment_refund.go)

    The lock of a refund is the status REFUNDING.  A token stands for holding
    it, and remembers whether the provider has reported the refund done; with
    it every interleaving of the payment operations refunds an order at most
    once, as long as no pending refund is finalized beside them. *)

From Stdlib Require Import Floats.SpecFloat.
From S2P Require Import Prelude GoStrings AppErrors Program Interleaving PaymentData Decimals PaymentCommands Redeem Payment Refund.
From S2P Require Import PaymentStore PaymentSafety PaymentSystem.

(** ** Tokens *)

Inductive token : Type := Locked (oid : Z) (reported : bool).

Definition token_order (t : token) : Z := match t with Locked oid _ => oid end.

(** The states in which an order may have been refunded. *)
Definition status_closed (s : string) : bool :=
  in_list s [OrderStatusRefunding; OrderStatusRefunded; OrderStatusPartiallyRefunded].

(** A condition that no closed order meets. *)
Fixpoint only_open (p : condition) : bool :=
  match p with
  | StatusIn l => forallb (fun s => negb (status_closed s)) l
  | And p q => only_open p || only_open q
  | Or p q => only_open p && only_open q
  | _ => false
  end.

Definition sets_status (cs : list change) : bool := existsb (fun c => match c with SetStatus _ => true | _ => false end) cs.

Definition locks (cs : list change) : bool := match cs with [SetStatus s] => s =s? OrderStatusRefunding | _ => false end.

(** An order whose refund was reported may only be closed. *)
Definition closes (cs : list change) : bool :=
  forallb (fun c => match c with SetStatus s => status_closed s | _ => true end) cs.

Definition may_release (oid : Z) (cs : list change) (T : list token) : Prop :=
  Locked oid false ∈ T \/ (Locked oid true ∈ T /\ closes cs = true).

Definition permitted R (c : cmd R) (T : list token) : Prop :=
  match c with
  | UpdateOrder _ p cs => sets_status cs = false \/ only_open p = true
  | CancelTx _ status => status <> OrderStatusRefunding
  | UpdateOneOrder oid cs => sets_status cs = false \/ may_release oid cs T
  | InsertOrder _ _ => False
  | ProviderRefund oid _ _ => Locked oid false ∈ T
  | _ => True
  end.

Definition report (oid : Z) (t : token) : token := if token_order t =? oid then Locked oid true else t.

Definition after R (c : cmd R) : R -> list token -> list token :=
  match c in cmd R return R -> list token -> list token with
  | UpdateOrder oid _ cs => fun r T =>
      match r with
      | Success n => if negb (n =? 0) && locks cs then Locked oid false :: T else T
      | Failure _ => T
      end
  | UpdateOneOrder oid cs => fun _ T => if sets_status cs then List.filter (fun t => negb (token_order t =? oid)) T else T
  | ProviderRefund oid _ _ => fun r T => if reported_refunded r then List.map (report oid) T else T
  | _ => fun _ T => T
  end.

(** ** The invariant *)

Definition reported_for (oid : Z) (l : list refund) : nat := length (List.filter (fun r => refunded_order r =? oid) l).

Definition tokens_of (oid : Z) (T : list token) : list token := List.filter (fun t => token_order t =? oid) T.

(** The lock is held once, by an order in the state REFUNDING. *)
Definition hold_ok (l : list refund) (oid : Z) (o : PaymentOrder) (held : list token) : Prop :=
  match held with
  | [] => True
  | [Locked _ b] => order_Status o = OrderStatusRefunding /\ reported_for oid l = (if b then 1 else 0)%nat
  | _ => False
  end.

Definition order_inv (l : list refund) (T : list token) (oid : Z) (o : PaymentOrder) : Prop :=
  (reported_for oid l <= 1)%nat /\ (status_closed (order_Status o) = false -> reported_for oid l = 0%nat) /\
  hold_ok l oid o (tokens_of oid T).

(** The shop moves its orders itself. *)
Definition RInv (db : tables) (T : list token) : Prop := forall oid o, orders db !! oid = Some o ->
  order_ID o = oid /\ (OrderType o <> OrderTypeShop -> order_inv (refunds db) T oid o).

Definition possible_row R (c : cmd R) : R -> Prop :=
  match c in cmd R return R -> Prop with
  | GetOrder oid => fun r => match r with Success o => order_ID o = oid | Failure _ => True end
  | _ => fun _ => True
  end.

Lemma tokens_of_app oid T F : tokens_of oid (T ++ F) = tokens_of oid T ++ tokens_of oid F.
Proof. apply List.filter_app. Qed.

Lemma tokens_of_dropped oid k T : tokens_of k (List.filter (fun t => negb (token_order t =? oid)) T) = if k =? oid then [] else tokens_of k T.
Proof.
  unfold tokens_of. induction T as [|t T IH]; cbn; [by destruct (k =? oid)|].
  destruct (Z.eqb_spec (token_order t) oid) as [->|E]; cbn [negb].
  - rewrite IH, (Z.eqb_sym k oid). by destruct (oid =? k).
  - cbn. rewrite IH. destruct (Z.eqb_spec k oid) as [->|E2]; [by apply Z.eqb_neq in E as -> | done].
Qed.

Lemma tokens_of_reported oid k T : tokens_of k (List.map (report oid) T) = if k =? oid then List.map (report oid) (tokens_of k T) else tokens_of k T.
Proof.
  unfold tokens_of. induction T as [|t T IH]; cbn; [by destruct (k =? oid)|]. unfold report at 1.
  destruct (Z.eqb_spec (token_order t) oid) as [E|E]; cbn [token_order]; rewrite IH.
  - rewrite E. destruct (Z.eqb_spec oid k) as [<-|Hne].
    + rewrite !Z.eqb_refl. cbn. by f_equal.
    + by destruct (Z.eqb_spec k oid).
  - destruct (Z.eqb_spec (token_order t) k) as [E2|E2]; [|done]. destruct (Z.eqb_spec k oid); [congruence|].
    unfold report. by apply Z.eqb_neq in E as ->.
Qed.

Lemma Permutation_filter {A} (f : A -> bool) l l' : l ≡ₚ l' -> List.filter f l ≡ₚ List.filter f l'.
Proof.
  induction 1 as [|x l l' _ IH|x y l|l1 l2 l3 _ IH1 _ IH2]; cbn; [done|by destruct (f x); rewrite IH|
    destruct (f x), (f y); try done; constructor | by rewrite IH1].
Qed.

Lemma RInv_perm db T T' : T ≡ₚ T' -> RInv db T -> RInv db T'.
Proof.
  intros HT Hi oid o Ho. destruct (Hi oid o Ho) as [Eid H]. split; [done|]. intros Hty. destruct (H Hty) as (H1 & H2 & H3).
  split; [done|]. split; [done|].
  assert (Hp : tokens_of oid T ≡ₚ tokens_of oid T') by (by apply Permutation_filter).
  destruct (tokens_of oid T) as [|t [|t2 r]]; [| |by destruct t].
  - by apply Permutation_nil in Hp as ->.
  - by apply Permutation_singleton_l in Hp as <-.
Qed.

(** ** Every permitted command keeps the invariant *)

Lemma RInv_same db db' T : orders db' = orders db -> refunds db' = refunds db -> RInv db T -> RInv db' T.
Proof. unfold RInv. by intros -> ->. Qed.

Lemma RInv_set db T T' oid o o' : RInv db T -> orders db !! oid = Some o -> same_order o o' ->
  (forall k, k <> oid -> tokens_of k T' = tokens_of k T) ->
  (OrderType o <> OrderTypeShop -> order_inv (refunds db) T oid o -> order_inv (refunds db) T' oid o') ->
  RInv (db <| orders := <[oid := o']> (orders db) |>) T'.
Proof.
  intros Hi Ho (E1 & _ & _ & E2 & _) Hk Hoi k x Hx. cbn in Hx. apply lookup_insert_Some in Hx as [[<- <-]|[Hne Hx]].
  - destruct (Hi _ _ Ho) as [Eid H]. split; [by rewrite E1|]. rewrite E2. intros Hty. by apply Hoi, H.
  - destruct (Hi _ _ Hx) as [Eid H]. split; [done|]. intros Hty. destruct (H Hty) as (H1 & H2 & H3). by rewrite <- Hk in H3.
Qed.

Lemma RInv_tokens db T T' : (forall k, tokens_of k T' = tokens_of k T) -> RInv db T -> RInv db T'.
Proof. intros Hk Hi oid o Ho. unfold order_inv. rewrite Hk. by apply Hi. Qed.

Lemma keeps_status cs now o : sets_status cs = false -> order_Status (apply_changes now cs o) = order_Status o.
Proof.
  intros Hs. destruct (foldl_changes_status cs o) as [E|E]; [exact E|]. exfalso.
  assert (sets_status cs = true) as Hc; [|by rewrite Hc in Hs]. apply existsb_exists. eexists. split; [by apply list_elem_of_In|done].
Qed.

Lemma only_open_meets p o : only_open p = true -> meets p o = true -> status_closed (order_Status o) = false.
Proof.
  induction p as [l| | | | | | |p IHp q IHq|p IHp q IHq|]; cbn; intros Hp Hm; try done.
  - apply existsb_exists in Hm as (x & Hx & ->%String.eqb_eq). by apply negb_true_iff, (proj1 (forallb_forall _ _) Hp).
  - apply andb_true_iff in Hm as [H1 H2]. apply orb_true_iff in Hp as [Hp|Hp]; auto.
  - apply andb_true_iff in Hp as [H1 H2]. apply orb_true_iff in Hm as [Hm|Hm]; auto.
Qed.

Lemma closes_closed cs now o : closes cs = true -> status_closed (order_Status o) = true ->
  status_closed (order_Status (apply_changes now cs o)) = true.
Proof.
  intros Hc Ho. destruct (foldl_changes_status cs o) as [E|E].
  - unfold apply_changes. cbn. by rewrite E.
  - pose proof (proj1 (forallb_forall _ _) Hc _ (proj1 (list_elem_of_In _ _) E)) as H. exact H.
Qed.

Lemma locks_sets cs : locks cs = true -> sets_status cs = true.
Proof. by destruct cs as [|[] ?]. Qed.

Lemma locks_closed now cs o : locks cs = true -> order_Status (apply_changes now cs o) = OrderStatusRefunding.
Proof. destruct cs as [|[s| | | | | | |] [|]]; try done. cbn. by intros ->%String.eqb_eq. Qed.

(** An open order is not locked, and was not refunded. *)
Lemma open_unlocked l T oid o : order_inv l T oid o -> status_closed (order_Status o) = false ->
  reported_for oid l = 0%nat /\ tokens_of oid T = [].
Proof.
  intros (_ & H2 & H3) Hs. split; [auto|]. destruct (tokens_of oid T) as [|[k b] [|]]; try done. cbn in H3. destruct H3 as [E _].
  by rewrite E in Hs.
Qed.

Lemma order_inv_fresh l oid o T : reported_for oid l = 0%nat -> tokens_of oid T = [] -> order_inv l T oid o.
Proof. intros E1 E2. unfold order_inv. rewrite E1, E2. split_and!; [lia | done | done]. Qed.

Lemma update_owned now oid p cs T db r db' : RInv db T -> sets_status cs = false \/ only_open p = true ->
  statement r db db' (update_order now oid p cs db) ->
  RInv db' (match r with Success n => if negb (n =? 0) && locks cs then Locked oid false :: T else T | Failure _ => T end).
Proof.
  intros Hi Hp Hs. assert (RInv (snd (update_order now oid p cs db)) T /\
    forall n, update_order now oid p cs db = (Success n, snd (update_order now oid p cs db)) ->
      negb (n =? 0) && locks cs = true -> RInv (snd (update_order now oid p cs db)) (Locked oid false :: T)) as [H1 H2].
  { unfold update_order. destruct (orders db !! oid) as [o|] eqn:Ho; [|split; [done | intros n E; by injection E as <-]].
    destruct (meets p o) eqn:Em; [|split; [done | intros n E; by injection E as <-]]. cbn [snd].
    destruct (apply_changes_same now cs o) as [Hso _]. split.
    - eapply RInv_set; [done..|]. intros Hty Ho1. destruct Hp as [Hp|Hp].
      + destruct Ho1 as (A1 & A2 & A3). unfold order_inv. rewrite keeps_status by done. split; [done|]. split; [done|].
        unfold hold_ok in *. by rewrite keeps_status.
      + destruct (open_unlocked _ _ _ _ Ho1 (only_open_meets p o Hp Em)). by apply order_inv_fresh.
    - intros n _ [_ Hl]%andb_true_iff. destruct Hp as [Hp|Hp]; [by rewrite (locks_sets cs Hl) in Hp|].
      eapply RInv_set; [done..| |].
      + intros k Hne. cbn. by destruct (Z.eqb_spec oid k).
      + intros Hty Ho1. destruct (open_unlocked _ _ _ _ Ho1 (only_open_meets p o Hp Em)) as [E1 E2].
        unfold order_inv. cbn [tokens_of List.filter token_order]. rewrite Z.eqb_refl. change (List.filter _ T) with (tokens_of oid T).
        rewrite E1, E2. unfold hold_ok. rewrite locks_closed by done. split_and!; [lia | done..]. }
  destruct r as [n|e]; cbn in Hs.
  - destruct (negb (n =? 0) && locks cs) eqn:E.
    + specialize (H2 n). rewrite Hs in H2. cbn in H2. auto.
    + by rewrite Hs in H1.
  - by destruct Hs as [-> | ->].
Qed.

Lemma permitted_held oid b l o T F : hold_ok l oid o (tokens_of oid (T ++ F)) -> Locked oid b ∈ T ->
  tokens_of oid T = [Locked oid b] /\ tokens_of oid F = [].
Proof.
  intros Hh Hin. assert (Hin' : Locked oid b ∈ tokens_of oid T).
  { apply list_elem_of_In, filter_In. split; [by apply list_elem_of_In | apply Z.eqb_refl]. }
  rewrite tokens_of_app in Hh. destruct (tokens_of oid T) as [|t [|t2 T']]; [by apply not_elem_of_nil in Hin'| |by destruct t].
  apply list_elem_of_singleton in Hin' as <-. split; [done|]. by destruct (tokens_of oid F).
Qed.

(** The lock is released with the change of the status. *)
Lemma release_owned now oid cs T F db r db' : RInv db (T ++ F) -> sets_status cs = false \/ may_release oid cs T ->
  statement r db db' (update_one_order now oid cs db) ->
  RInv db' ((if sets_status cs then List.filter (fun t => negb (token_order t =? oid)) T else T) ++ F).
Proof.
  intros Hi Hp Hs. set (T' := if sets_status cs then _ else T).
  assert (Hk : forall k, k <> oid -> tokens_of k (T' ++ F) = tokens_of k (T ++ F)).
  { intros k Hne. rewrite !tokens_of_app. unfold T'. destruct (sets_status cs); [|done]. by rewrite tokens_of_dropped, (proj2 (Z.eqb_neq k oid)). }
  assert (Hdrop : RInv db (T' ++ F)).
  { intros k o Ho. destruct (Hi k o Ho) as [Eid H]. split; [done|]. intros Hty. destruct (H Hty) as (H1 & H2 & H3).
    split; [done|]. split; [done|]. destruct (decide (k = oid)) as [->|Hne]; [|by rewrite Hk].
    unfold T'. destruct (sets_status cs) eqn:Ec; [|done]. destruct Hp as [Hp|Hp]; [done|]. rewrite tokens_of_app, tokens_of_dropped, Z.eqb_refl.
    by destruct Hp as [Hp|[Hp _]]; destruct (permitted_held _ _ _ _ _ _ H3 Hp) as [_ ->]. }
  assert (Heff : RInv (snd (update_one_order now oid cs db)) (T' ++ F)).
  { unfold update_one_order. destruct (orders db !! oid) as [o|] eqn:Ho; [|exact Hdrop]. cbn [snd].
    destruct (apply_changes_same now cs o) as [Hso _]. eapply RInv_set; [exact Hi | done..|]. intros Hty (H1 & H2 & H3). unfold order_inv, T'.
    destruct (sets_status cs) eqn:Ec.
    - destruct Hp as [Hp|Hp]; [done|]. rewrite tokens_of_app, tokens_of_dropped, Z.eqb_refl. split; [done|].
      destruct Hp as [Hp|[Hp Hcl]]; destruct (permitted_held _ _ _ _ _ _ H3 Hp) as [E1 E2]; rewrite tokens_of_app, E1, E2 in H3; rewrite E2;
        destruct H3 as [Hst H3]; (split; [|done]).
      + by rewrite H3.
      + intros Hop. by rewrite (closes_closed cs now o Hcl (f_equal status_closed Hst)) in Hop.
    - rewrite keeps_status by done. split; [done|]. split; [done|]. unfold hold_ok in *. by rewrite keeps_status. }
  destruct r as [[]|e]; cbn in Hs; [by rewrite Hs in Heff | by destruct Hs as [-> | ->]].
Qed.

Lemma reported_cons k oid a l : reported_for k (mkRefund oid a :: l) = ((if (k =? oid)%Z then 1 else 0) + reported_for k l)%nat.
Proof. unfold reported_for. cbn. rewrite (Z.eqb_sym oid k). by destruct (k =? oid). Qed.

(** The provider is only asked by the holder of the lock. *)
Lemma refund_owned oid req T F db r : RInv db (T ++ F) -> Locked oid false ∈ T ->
  RInv (provider_refund oid req r db) ((if reported_refunded r then List.map (report oid) T else T) ++ F).
Proof.
  intros Hi Hin. unfold provider_refund. destruct (reported_refunded r); [|done]. intros k o Ho. cbn in Ho.
  destruct (Hi k o Ho) as [Eid H]. split; [done|]. intros Hty. destruct (H Hty) as (H1 & H2 & H3).
  change (order_inv (mkRefund oid (rr_Amount req) :: refunds db) (List.map (report oid) T ++ F) k o). unfold order_inv.
  rewrite tokens_of_app, tokens_of_reported, reported_cons.
  destruct (Z.eqb_spec k oid) as [->|Hne].
  - destruct (permitted_held _ _ _ _ _ _ H3 Hin) as [E1 E2]. rewrite tokens_of_app, E1, E2 in H3. rewrite E1, E2. destruct H3 as [Hst H3].
    assert (Er : report oid (Locked oid false) = Locked oid true) by (unfold report; cbn; by rewrite Z.eqb_refl).
    cbn [List.map app]. rewrite Er. unfold hold_ok. rewrite reported_cons, Z.eqb_refl, H3, Hst. by split_and!.
  - rewrite <- tokens_of_app. split_and!; [done..|]. unfold hold_ok in *. rewrite reported_cons. by rewrite (proj2 (Z.eqb_neq k oid)).
Qed.

Lemma shop_owned now oid db db' T : RInv db T -> shop_delivery now oid db db' -> RInv db' T.
Proof.
  intros Hi [-> | (o & s & Ho & Ht & _ & ->)]; [done|]. destruct (apply_changes_same now [SetStatus s] o) as [Hs _].
  by eapply RInv_set.
Qed.

Lemma statement_same {A} (r : outcome A) db db' eff T : orders (snd eff) = orders db -> refunds (snd eff) = refunds db ->
  RInv db T -> statement r db db' eff -> RInv db' T.
Proof.
  intros E1 E2 Hi Hs. assert (RInv (snd eff) T) by (by eapply RInv_same). destruct r; cbn in Hs; [by rewrite Hs in * | by destruct Hs as [-> | ->]].
Qed.

Lemma insert_code_tables c db : orders (snd (insert_code c db)) = orders db /\ refunds (snd (insert_code c db)) = refunds db.
Proof. unfold insert_code. by destruct (find_code _ _). Qed.

Lemma use_code_tables c u g db : orders (snd (use_code c u g db)) = orders db /\ refunds (snd (use_code c u g db)) = refunds db.
Proof. unfold use_code. repeat case_match; try done. by destruct a. Qed.

Lemma rebate_tables a oid db : orders (snd (add_rebate a oid db)) = orders db /\ refunds (snd (add_rebate a oid db)) = refunds db.
Proof. unfold add_rebate. by repeat case_match. Qed.

Lemma step_owned R (c : cmd R) T F now db r db' : RInv db (T ++ F) -> permitted R c T -> answers R c now db r db' ->
  possible_row R c r /\ RInv db' (after R c r T ++ F).
Proof.
  intros Hi Hp Hans.
  destruct c; cbn [permitted answers after possible_row] in *; try (split; [exact I|]; by subst db');
    try (match type of Hans with reads _ _ _ => split; [exact I|]; by destruct Hans as [-> _] end).
  - destruct Hans as [-> Hr]. split; [|done]. destruct r as [o|]; [|done]. by destruct (Hi _ _ Hr).
  - split; [exact I|]. pose proof (update_owned _ _ _ _ _ _ _ _ Hi Hp Hans) as H. destruct r as [n|]; [|exact H].
    by destruct (negb (n =? 0) && locks cs).
  - split; [exact I|]. by eapply release_owned.
  - done.
  - split; [exact I|]. pose proof (update_owned now oid (StatusEQ OrderStatusPending) [SetStatus status] _ _ r db' Hi (or_intror eq_refl) Hans) as H.
    destruct r as [n|]; [|exact H]. apply String.eqb_neq in Hp. unfold locks in H. by rewrite Hp, andb_false_r in H.
  - split; [exact I|]. destruct Hans as [-> | ->]; [done|]. by eapply RInv_same; [..|exact Hi].
  - split; [exact I|]. eapply statement_same; [apply insert_code_tables..|exact Hi|exact Hans].
  - split; [exact I|]. eapply statement_same; [apply use_code_tables..|exact Hi|exact Hans].
  - split; [exact I|]. by eapply statement_same; [..|exact Hi|exact Hans].
  - split; [exact I|]. destruct Hans as [applied Hans]. eapply statement_same; [apply (rebate_tables applied)..|exact Hi|exact Hans].
  - split; [exact I|]. by eapply shop_owned.
  - split; [exact I|]. by eapply statement_same; [..|exact Hi|exact Hans].
  - split; [exact I|]. subst db'. by apply refund_owned.
  - split; [exact I|]. destruct Hans as [-> | ->]; [done|]. by eapply RInv_same; [..|exact Hi].
Qed.

(** ** Every program owns what it needs *)

Abbreviation holding := (owns permitted after possible_row).
Abbreviation keeping T := (fun _ T' => T' = T).

Lemma update_keeps {B} oid p cs (f : outcome Z -> program B) T Q : locks cs = false -> sets_status cs = false \/ only_open p = true ->
  (forall r, holding (f r) T Q) -> holding (update oid p cs ≫= f) T Q.
Proof.
  intros Hl Hp Hf. apply owns_call_bind; [exact Hp|]. intros r _. cbn [after]. rewrite Hl. destruct r as [n|]; [|done].
  by rewrite andb_false_r.
Qed.

Lemma update_one_keeps {B} oid cs (f : outcome unit -> program B) T Q : sets_status cs = false ->
  (forall r, holding (f r) T Q) -> holding (call (UpdateOneOrder oid cs) ≫= f) T Q.
Proof. intros Hs Hf. apply owns_call_bind; [by left|]. intros r _. cbn [after]. by rewrite Hs. Qed.

(** Programs without a lock. *)
Create HintDb lockless.

Ltac stride :=
  repeat match goal with
  | |- holding _ _ _ => progress cbv beta zeta
  | |- holding (update _ _ _ ≫= _) _ _ => apply update_keeps; [reflexivity | first [by left | by right | idtac] | intros ?]
  | |- holding (call (UpdateOneOrder _ _) ≫= _) _ _ => apply update_one_keeps; [reflexivity | intros ?]
  | |- holding (audit _ _ ≫= _) _ _ => apply owns_call_bind; [exact I | intros ? _; cbn [after]]
  | |- holding (audit _ _) _ _ => apply owns_call; [exact I | by intros]
  | |- holding (call _ ≫= _) _ _ => apply owns_call_bind; [try exact I | intros ? ?; cbn [after possible_row] in *]
  | |- holding (call _) _ _ => apply owns_call; [try exact I | intros ? ?; cbn [after possible_row] in *; try done]
  | |- holding (mret ?a ≫= ?f) ?T ?Q => change (holding (f a) T Q)
  | |- holding (done_ ≫= ?f) ?T ?Q => change (holding (f (Success tt)) T Q)
  | |- holding (mret _) _ _ => cbn; try done
  | |- holding (failed _) _ _ => cbn; try done
  | |- holding done_ _ _ => cbn; try done
  | |- holding (match ?x with _ => _ end) _ _ => destruct x eqn:?
  | |- holding (match ?x with _ => _ end ≫= _) _ _ => destruct x eqn:?
  | |- holding (_ ≫= _) ?T _ => eapply (owns_then _ _ _ _ _ _ (keeping T)); [solve [auto 2 with lockless nocore] | intros ? ? ->]
  | |- holding _ _ _ => solve [auto 2 with lockless nocore]
  end.

Section Lockless.
Context {D : decimal_ops}.
Implicit Types T : list token.

Lemma legacy_instance_keeps o T : holding (resolveUniqueLegacyOrderProviderInstance o) T (keeping T).
Proof. unfold resolveUniqueLegacyOrderProviderInstance. stride. Qed.

Lemma snapshot_instance_keeps o s T : holding (resolveSnapshotOrderProviderInstance o s) T (keeping T).
Proof. unfold resolveSnapshotOrderProviderInstance. stride. Qed.
#[local] Hint Resolve legacy_instance_keeps snapshot_instance_keeps : lockless.

Lemma order_instance_keeps o T : holding (getOrderProviderInstance o) T (keeping T).
Proof. unfold getOrderProviderInstance. stride. Qed.

Lemma refund_instance_keeps o T : holding (getRefundOrderProviderInstance o) T (keeping T).
Proof. unfold getRefundOrderProviderInstance. stride. Qed.

Lemma expected_key_keeps o k T : holding (expectedNotificationProviderKeyForOrder o k) T (keeping T).
Proof. unfold expectedNotificationProviderKeyForOrder, expectedNotificationProviderKey. stride. Qed.

Lemma fallback_key_keeps o T : holding (paymentOrderFallbackProviderKey o) T (keeping T).
Proof. unfold paymentOrderFallbackProviderKey. stride. Qed.

Lemma fallback_allowed_keeps k T : holding (webhookRegistryFallbackAllowed k) T (keeping T).
Proof. unfold webhookRegistryFallbackAllowed. stride. Qed.
#[local] Hint Resolve order_instance_keeps refund_instance_keeps expected_key_keeps fallback_key_keeps fallback_allowed_keeps : lockless.

Lemma order_provider_keeps o T : holding (getOrderProvider o) T (keeping T).
Proof. unfold getOrderProvider. stride. Qed.

Lemma redeem_locked_keeps u c T : holding (redeem_locked u c) T (keeping T).
Proof. unfold redeem_locked. stride. Qed.
#[local] Hint Resolve order_provider_keeps redeem_locked_keeps : lockless.

Lemma Redeem_keeps u c T : holding (Redeem u c) T (keeping T).
Proof. unfold Redeem. stride. Qed.

Lemma CreateCode_keeps c T : holding (CreateCode c) T (keeping T).
Proof. unfold CreateCode. stride. Qed.

Lemma rebate_keeps o T : holding (applyAffiliateRebateForOrder o) T (keeping T).
Proof. unfold applyAffiliateRebateForOrder. stride. Qed.

Lemma markCompleted_keeps o a T : holding (markCompleted o a) T (keeping T).
Proof. unfold markCompleted. stride. Qed.

Lemma markFailed_keeps oid T : holding (markFailed oid) T (keeping T).
Proof. unfold markFailed. stride. Qed.
#[local] Hint Resolve Redeem_keeps CreateCode_keeps rebate_keeps markCompleted_keeps markFailed_keeps : lockless.

Lemma rebate_and_complete_keeps o a T : holding (rebate_and_complete o a) T (keeping T).
Proof. unfold rebate_and_complete. stride. Qed.
#[local] Hint Resolve rebate_and_complete_keeps : lockless.

Lemma redeem_and_complete_keeps o T : holding (redeem_and_complete o) T (keeping T).
Proof. unfold redeem_and_complete. stride. Qed.
#[local] Hint Resolve redeem_and_complete_keeps : lockless.

Lemma doBalance_keeps o T : holding (doBalance o) T (keeping T).
Proof. unfold doBalance. stride. Qed.

Lemma doSub_keeps o gid days T : holding (doSub o gid days) T (keeping T).
Proof. unfold doSub. stride. Qed.
#[local] Hint Resolve doBalance_keeps doSub_keeps : lockless.

Lemma locked_fulfillment_keeps oid work T : holding work T (keeping T) -> holding (locked_fulfillment oid work) T (keeping T).
Proof.
  intros Hw. unfold locked_fulfillment. stride.
Qed.
#[local] Hint Resolve locked_fulfillment_keeps : lockless.

Lemma executeFulfillment_keeps oid T : holding (executeFulfillment oid) T (keeping T).
Proof.
  unfold executeFulfillment, ExecuteSubscriptionFulfillment, ExecuteBalanceFulfillment.
  stride.
Qed.
#[local] Hint Resolve executeFulfillment_keeps : lockless.

Lemma alreadyProcessed_keeps oid T : holding (alreadyProcessed oid) T (keeping T).
Proof. unfold alreadyProcessed. stride. Qed.
#[local] Hint Resolve alreadyProcessed_keeps : lockless.

Lemma toPaid_keeps o t p T : holding (toPaid o t p) T (keeping T).
Proof. unfold toPaid. stride. Qed.
#[local] Hint Resolve toPaid_keeps : lockless.

Lemma confirmPayment_keeps oid t p pk md T : holding (confirmPayment oid t p pk md) T (keeping T).
Proof. unfold confirmPayment. stride. Qed.
#[local] Hint Resolve confirmPayment_keeps : lockless.

Lemma HandlePaymentNotification_keeps n pk T : holding (HandlePaymentNotification n pk) T (keeping T).
Proof. unfold HandlePaymentNotification. stride. Qed.

Lemma RetryFulfillment_keeps oid T : holding (RetryFulfillment oid) T (keeping T).
Proof. unfold RetryFulfillment. stride. Qed.
#[local] Hint Resolve HandlePaymentNotification_keeps RetryFulfillment_keeps : lockless.

Lemma rechargingTimeout_keeps hasConfig T : holding (rechargingTimeout hasConfig) T (keeping T).
Proof. unfold rechargingTimeout. stride. Qed.
#[local] Hint Resolve rechargingTimeout_keeps : lockless.

Lemma stale_keeps hasConfig o now T : holding (isRechargingOrderStale hasConfig o now) T (keeping T).
Proof. unfold isRechargingOrderStale. stride. Qed.
#[local] Hint Resolve stale_keeps : lockless.

(** What is made paid by hand was read in a state that is not closed. *)
Lemma manual_update_keeps o a t now T : in_list (order_Status o) manual_statuses = true ->
  holding (manual_update o a t now) T (keeping T).
Proof.
  intros Hs. assert (Hopen : status_closed (order_Status o) = false).
  { apply existsb_exists in Hs as (x & Hx & ->%String.eqb_eq). by repeat destruct Hx as [<-|Hx]. }
  unfold manual_update. destruct (PaidAt o), (t =s? ""); stride;
    (right; change (negb (status_closed (order_Status o)) && true = true); by rewrite Hopen).
Qed.

Lemma AdminManualFulfillOrder_keeps hasConfig oid req T : holding (AdminManualFulfillOrder hasConfig oid req) T (keeping T).
Proof.
  unfold AdminManualFulfillOrder, manual_fulfill. stride; (eapply owns_then; [apply manual_update_keeps; by apply negb_false_iff|]; intros ? ? ->; stride).
Qed.

Lemma handle_confirmed_keeps o key q resp T : holding (handle_confirmed o key q resp) T (keeping T).
Proof. unfold handle_confirmed. stride. Qed.

Lemma requery_keeps oid q T : holding (requeryPaidOrderOnce oid q) T (keeping T).
Proof. unfold requeryPaidOrderOnce. stride. Qed.
#[local] Hint Resolve handle_confirmed_keeps requery_keeps : lockless.

Lemma checkPaid_keeps o T : holding (checkPaid o) T (keeping T).
Proof. unfold checkPaid. stride. Qed.
#[local] Hint Resolve checkPaid_keeps : lockless.

Lemma cancelCore_keeps o status T : status <> OrderStatusRefunding -> holding (cancelCore o status) T (keeping T).
Proof. intros Hs. unfold cancelCore, cancel_pending. stride; try exact Hs. Qed.

Lemma CancelOrder_keeps oid userID T : holding (CancelOrder oid userID) T (keeping T).
Proof. unfold CancelOrder. stride. by apply cancelCore_keeps. Qed.

Lemma AdminCancelOrder_keeps oid T : holding (AdminCancelOrder oid) T (keeping T).
Proof. unfold AdminCancelOrder. stride. by apply cancelCore_keeps. Qed.

Lemma VerifyOrder_keeps no userID T : holding (VerifyOrderByOutTradeNo no userID) T (keeping T).
Proof. unfold VerifyOrderByOutTradeNo. stride. Qed.

Lemma fail_stale_keeps l cutoff T : forall n, holding (fail_stale l cutoff n) T (keeping T).
Proof. induction l as [|o l IH]; intros n; [done|]. cbn [fail_stale]. stride. Qed.

Lemma expire_orders_keeps l T : forall n, holding (expire_orders l n) T (keeping T).
Proof.
  induction l as [|o l IH]; intros n; [done|]. cbn [expire_orders]. eapply owns_then; [by apply cancelCore_keeps|]. intros ? ? ->. stride.
Qed.
#[local] Hint Resolve fail_stale_keeps expire_orders_keeps : lockless.

Lemma failStale_keeps hasConfig now T : holding (failStaleRechargingOrders hasConfig now) T (keeping T).
Proof. unfold failStaleRechargingOrders. stride. Qed.
#[local] Hint Resolve failStale_keeps : lockless.

Lemma ExpireTimedOutOrders_keeps hasConfig hasShop T : holding (ExpireTimedOutOrders hasConfig hasShop) T (keeping T).
Proof. unfold ExpireTimedOutOrders. stride. Qed.

(** ** Refunds own the lock *)

Abbreviation any_tokens := (fun _ _ => True).
Definition held (p : RefundPlan) (b : bool) : list token := [Locked (plan_OrderID p) b].
Definition own_plan (p : RefundPlan) : Prop := order_ID (plan_Order p) = plan_OrderID p.

(** The same order: what deductions keep of a plan. *)
Definition plan_of (p p' : RefundPlan) : Prop := plan_OrderID p' = plan_OrderID p /\ plan_Order p' = plan_Order p.

Lemma held_same p p' b : plan_of p p' -> held p' b = held p b.
Proof. intros [E _]. unfold held. by rewrite E. Qed.

Lemma own_same p p' : plan_of p p' -> own_plan p -> own_plan p'.
Proof. intros [E1 E2]. unfold own_plan. by rewrite E1, E2. Qed.

Lemma release_any {B} p b cs (f : outcome unit -> program B) : b = false \/ closes cs = true ->
  (forall r T, holding (f r) T any_tokens) -> holding (call (UpdateOneOrder (plan_OrderID p) cs) ≫= f) (held p b) any_tokens.
Proof.
  intros Hb Hf. apply owns_call_bind.
  - right. destruct b; [right | left]; [destruct Hb; [done|]|]; [split; [by left | done] | by left].
  - intros r _. apply Hf.
Qed.

Lemma RequestRefund_keeps oid uid reason T : holding (RequestRefund oid uid reason) T (keeping T).
Proof.
  unfold RequestRefund. eapply (owns_then _ _ _ _ _ _ (keeping T)); [unfold validateRefundRequest; stride|]. intros ? ? ->. stride.
Qed.

Lemma prepDeduct_keeps o p force T : holding (prepDeduct o p force) T (fun r T' => T' = T /\ plan_of p (fst r)).
Proof. unfold prepDeduct. stride; by repeat case_match. Qed.

Lemma PrepareRefund_keeps oid amt reason force deduct T : holding (PrepareRefund oid amt reason force deduct) T
  (fun r T' => T' = T /\ match r with Success (inl p) => own_plan p | _ => True end).
Proof.
  unfold PrepareRefund. stride.
  - eapply owns_then; [apply prepDeduct_keeps|]. intros [q early] T' [-> [E1 E2]]. cbn in E1, E2. stride.
    split; [done|]. destruct early; [done|]. unfold own_plan. destruct (_ =s? _); cbn; rewrite E1, E2; exact H.
  - split; [done|]. by destruct (_ =s? _).
Qed.

Lemma RollbackRefund_keeps p T : holding (RollbackRefund p) T (keeping T).
Proof. unfold RollbackRefund, rollback_failed. stride. Qed.

Lemma restore_releases p : holding (restoreStatus p) (held p false) any_tokens.
Proof. unfold restoreStatus. apply release_any; [by left|]. intros. stride. Qed.

Lemma handleGwFail_releases p e : holding (handleGwFail p e) (held p false) any_tokens.
Proof.
  unfold handleGwFail. eapply owns_then; [apply RollbackRefund_keeps|]. intros r ? ->. destruct r.
  - eapply owns_then; [apply restore_releases|]. intros ? T' _. stride.
  - apply release_any; [by left|]. intros. stride.
Qed.

Lemma markRefundOk_releases p b : holding (markRefundOk p) (held p b) any_tokens.
Proof. unfold markRefundOk. apply release_any; [by right; destruct (SFltb _ _)|]. intros. stride. Qed.

Lemma markRefundPending_releases p resp : holding (markRefundPending p resp) (held p false) any_tokens.
Proof.
  unfold markRefundPending. eapply owns_then; [apply RollbackRefund_keeps|]. intros r ? ->. apply release_any; [by left|]. intros. stride.
Qed.

Definition reports_done (resp : RefundResponse) : bool :=
  in_list (trim_space (resp_RefundStatus resp)) [ProviderStatusSuccess; ProviderStatusRefunded].

(** A reported refund is marked done. *)
Lemma finishRefund_releases p resp b : (b = true -> reports_done resp = true) -> holding (finishRefund p resp) (held p b) any_tokens.
Proof.
  intros Hb. unfold finishRefund. destruct b.
  - specialize (Hb eq_refl). unfold reports_done in Hb.
    assert (validateRefundProviderResponse (Some resp) = None) as ->.
    { unfold validateRefundProviderResponse. apply existsb_exists in Hb as (x & Hx & E%String.eqb_eq). rewrite E. by repeat destruct Hx as [<-|Hx]. }
    cbv zeta. rewrite Hb. apply markRefundOk_releases.
  - stride; first [apply handleGwFail_releases | apply markRefundOk_releases | apply markRefundPending_releases].
Qed.

Lemma reported_outcome answer : reported_refunded answer = true -> exists resp, refund_outcome answer = Success resp /\ reports_done resp = true.
Proof.
  destruct answer as [[r|] [e|]]; try done. intros H. exists r. split; [|exact H]. unfold refund_outcome, validateRefundProviderResponse.
  change (reports_done r = true) in H. apply existsb_exists in H as (x & Hx & E%String.eqb_eq). rewrite E. by repeat destruct Hx as [<-|Hx].
Qed.

Lemma gwRefund_reports p : own_plan p -> holding (gwRefund p) (held p false) (fun r T => exists b, T = held p b /\
  (b = true -> exists resp, r = Success resp /\ reports_done resp = true)).
Proof.
  intros Hown. assert (Hno : forall r, exists b, held p false = held p b /\ (b = true -> exists resp, r = Success resp /\ reports_done resp = true))
    by (intros r; by exists false).
  unfold gwRefund. stride; try apply Hno.
  eapply (owns_then _ _ _ _ _ _ (keeping (held p false))); [unfold getRefundProvider; stride|]. intros r ? ->. stride; try apply Hno.
  - unfold held. rewrite Hown. by left.
  - cbn [after]. destruct (reported_refunded _) eqn:Er; [|apply Hno]. exists true. split; [|intros _; by apply reported_outcome].
    unfold held. cbn. unfold report. cbn. by rewrite Hown, Z.eqb_refl.
Qed.

Abbreviation deducted p := (fun r T' => match r with Success p' => T' = held p false /\ plan_of p p' | Failure _ => True end).

Lemma restore_fails p (e : error) : holding (restoreStatus p ≫= fun _ => failed e) (held p false) (deducted p).
Proof. eapply owns_then; [apply restore_releases|]. done. Qed.

Lemma deduct_balance_keeps p : holding (deduct_balance p) (held p false) (deducted p).
Proof. unfold deduct_balance. stride. apply restore_fails. Qed.

Lemma deduct_days_keeps p : holding (deduct_days p) (held p false) (deducted p).
Proof. unfold deduct_days. stride; apply restore_fails. Qed.

Lemma execute_locked_releases p : own_plan p -> holding (execute_locked p) (held p false) any_tokens.
Proof.
  intros Hown. unfold execute_locked. eapply owns_then; [apply deduct_balance_keeps|]. intros [p1|e] T1 H1; [|done]. destruct H1 as [-> H1].
  rewrite <- (held_same _ _ _ H1). eapply owns_then; [apply deduct_days_keeps|]. intros [p2|e] T2 H2; [|done]. destruct H2 as [-> H2].
  rewrite <- (held_same _ _ _ H2). eapply owns_then; [by apply gwRefund_reports; eapply own_same; [|eapply own_same]|].
  intros r T3 (b & -> & Hb). destruct r as [resp|e].
  - apply finishRefund_releases. intros E. destruct (Hb E) as (x & [= ->] & H). exact H.
  - destruct b; [by destruct (Hb eq_refl) as (x & ? & _)|]. apply handleGwFail_releases.
Qed.

Lemma ExecuteRefund_owns p : own_plan p -> holding (ExecuteRefund p) [] any_tokens.
Proof.
  intros Hown. unfold ExecuteRefund. apply owns_call_bind; [by right|]. intros r _. cbn [after]. stride.
  by apply execute_locked_releases.
Qed.

Lemma ProcessRefund_owns oid amt reason force deduct : holding (ProcessRefund oid amt reason force deduct) [] any_tokens.
Proof.
  unfold ProcessRefund. eapply owns_then; [apply PrepareRefund_keeps|]. intros r T' [-> Hr]. stride. by apply ExecuteRefund_owns.
Qed.

(** ** The theorem *)

(** Every operation on existing orders, except for finalizing pending refunds. *)
Inductive may_refund : program unit -> Prop :=
| refund_notification n pk : may_refund (ignoring (HandlePaymentNotification n pk))
| refund_cancel oid userID : may_refund (ignoring (CancelOrder oid userID))
| refund_admin_cancel oid : may_refund (ignoring (AdminCancelOrder oid))
| refund_verify no userID : may_refund (ignoring (VerifyOrderByOutTradeNo no userID))
| refund_retry oid : may_refund (ignoring (RetryFulfillment oid))
| refund_manual hasConfig oid req : may_refund (ignoring (AdminManualFulfillOrder hasConfig oid req))
| refund_expire hasConfig hasShop : may_refund (ignoring (ExpireTimedOutOrders hasConfig hasShop))
| refund_request oid uid reason : may_refund (ignoring (RequestRefund oid uid reason))
| refund_process oid amt reason force deduct : may_refund (ignoring (ProcessRefund oid amt reason force deduct))
| refund_redeem userID code : may_refund (ignoring (Redeem userID code))
| refund_create_code c : may_refund (ignoring (CreateCode c)).

Lemma ignoring_owns {A} (p : program A) T Q : holding p T Q -> holding (ignoring p) T any_tokens.
Proof. intros H. eapply owns_then; [exact H|]. done. Qed.

Lemma start_owned p : may_refund p -> holding p [] any_tokens.
Proof.
  intros H. destruct H; eapply ignoring_owns.
  - apply HandlePaymentNotification_keeps.
  - apply CancelOrder_keeps.
  - apply AdminCancelOrder_keeps.
  - apply VerifyOrder_keeps.
  - apply RetryFulfillment_keeps.
  - apply AdminManualFulfillOrder_keeps.
  - apply ExpireTimedOutOrders_keeps.
  - apply RequestRefund_keeps.
  - apply ProcessRefund_owns.
  - apply Redeem_keeps.
  - apply CreateCode_keeps.
Qed.
End Lockless.

(** C8: starting with orders that were never refunded, in every interleaving of
    refunds with the other operations on them (but for the finalization of a
    pending refund), with any failures and any answers of the provider, the
    provider reports at most one refund of an order as done, and an order it was
    reported for stays in REFUNDING or in one of the refunded states: it is
    never open to another refund.  (Orders of the shop excepted, whose states
    the shop sets.) *)
Theorem refunded_at_most_once {D : decimal_ops} now db s oid o :
  refunds db = [] -> (forall k x, orders db !! k = Some x -> order_ID x = k) ->
  rtc (step answers may_refund) (mksystem db now []) s ->
  orders (database s) !! oid = Some o -> OrderType o <> OrderTypeShop ->
  (reported_for oid (refunds (database s)) <= 1)%nat /\
  (reported_for oid (refunds (database s)) = 1%nat -> status_closed (order_Status o) = true).
Proof.
  intros He Hid Hr Ho Hty.
  destruct (owned_reachable answers may_refund permitted after possible_row RInv RInv_perm step_owned start_owned db now s) as [T Hi]; [|exact Hr|].
  - intros k x Hx. split; [by apply Hid|]. intros _. rewrite He. by apply order_inv_fresh.
  - destruct (Hi oid o Ho) as [_ H]. destruct (H Hty) as (H1 & H2 & _). split; [done|]. intros E.
    destruct (status_closed (order_Status o)); [done|]. rewrite (H2 eq_refl) in E. done.
Qed.
