(* ===== verification/PaymentRuns.v ===== *)
(** * Runs of the payment service

    A handler that executes every statement, with a choice of what fails; runs
    with it are runs of the system.  A paid balance order is completed by a
    retry in which nothing fails; a subscription can be granted twice. *)

From Stdlib Require Import Floats.SpecFloat.
From S2P Require Import Prelude GoStrings Json JsonFacts AppErrors Program Interleaving PaymentData Decimals PaymentCommands Redeem.
From S2P Require Import Payment Refund PaymentStore PaymentSafety PaymentSystem.

(** What goes wrong in a run: audit entries that are lost, rebates and updates
    of single orders that fail; what is on an account, and what a provider
    answers to refunds and to queries of refunds. *)
Record faults : Type := mkFaults {
  audit_lost : string -> bool;
  rebate_fails : bool;
  update_one_fails : bool;
  account_balance : float64;
  refund_answer : option RefundResponse * option error;
  query_answer : option RefundResponse * option error;
}.
#[export] Instance eta_faults : Settable faults := fun w => 
  mkFaults (audit_lost w) (rebate_fails w) (update_one_fails w) (account_balance w) (refund_answer w) (query_answer w).

Definition refund_is (status : string) : option RefundResponse * option error := (Some (mkRefundResponse "R1" status), None).
Definition no_faults : faults := 
  mkFaults (fun _ => false) false false f64_zero (refund_is ProviderStatusSuccess) (refund_is ProviderStatusSuccess).

(** The only instance; it allows refunds. *)
Definition an_instance : PaymentProviderInstance := mkInstance 5 TypeAlipay "" true true true "" 0.

Definition latest_pending (oid : Z) (db : tables) : option refundPendingAuditDetail :=
  snd <$> List.find (fun e => fst e =? oid) (pending_refunds db).

Definition find_order (no : string) (db : tables) : option PaymentOrder :=
  snd <$> List.find (fun r => OutTradeNo (snd r) =s? no) (map_to_list (orders db)).

Definition answered_in {A} (now : Z) (e : A * tables) : A * (Z * tables) := (fst e, (now, snd e)).

(** The provider knows of no payment and creates every one; the caches answer
    and the groups exist. *)
Definition serve (w : faults) R (c : cmd R) (st : Z * tables) : R * (Z * tables) :=
  let now := fst st in
  let db := snd st in
  match c in cmd R return R * (Z * tables) with
  | Now => (now, st)
  | GetOrder oid => (match orders db !! oid with Some o => Success o | None => Failure (OtherError "payment_order not found") end, st)
  | FindByOutTradeNo no => (match find_order no db with Some o => Found o | None => NotFoundRow end, st)
  | QueryOrders p => (Success (List.filter (meets p) (map snd (map_to_list (orders db)))), st)
  | UpdateOrder oid p cs => answered_in now (update_order now oid p cs db)
  | UpdateOneOrder oid cs => if update_one_fails w then (Failure (OtherError "database is locked"), st) else answered_in now (update_one_order now oid cs db)
  | InsertOrder o suffix => answered_in now (insert_order now o suffix db)
  | CancelTx oid status => answered_in now (update_order now oid (StatusEQ OrderStatusPending) [SetStatus status] db)
  | HasAuditLog oid action => (has_audit oid action db, st)
  | WriteAuditLog oid action => (tt, if audit_lost w action then st else (now, write_audit oid action db))
  | SelectCode code => (match find_code code db with Some c => Success c | None => Failure ErrRedeemCodeNotFound end, st)
  | InsertCode c => answered_in now (insert_code c db)
  | UseTx c userID grant => answered_in now (use_code c userID grant db)
  | RedeemAttempts _ => (Some 0, st)
  | IncrementRedeemErrors _ => (tt, st)
  | LockCode _ => (true, st)
  | UnlockCode _ => (tt, st)
  | GetUser _ => (Success (mkAccount (account_balance w) RoleUser 1), st)
  | ReloadCode _ => (Success tt, st)
  | GroupActive _ => (true, st)
  | AssignOrExtendSubscription oid userID gid days => (Success tt, (now, add_assignment (mkAssignment oid userID gid days) db))
  | RebateTx oid _ _ => if rebate_fails w then (Failure (OtherError "begin affiliate rebate tx"), st) else answered_in now (add_rebate true oid db)
  | ConfirmPaidAndDeliver _ => (Failure (ServiceUnavailable "SHOP_FULFILLMENT_NOT_CONFIGURED" "shop fulfillment service is not configured"), st)
  | ReleaseStalePaymentReservations _ => (Success tt, st)
  | GetInstance id => (if id =? inst_ID an_instance then InstanceFound an_instance else InstanceMissing, st)
  | ListInstances _ => (Success [an_instance], st)
  | CountEnabledInstances _ => (Success 1, st)
  | RegistryProviderKey _ => ("", st)
  | RegistryProvider _ => (Failure (NotFound "PROVIDER_NOT_FOUND" "payment provider not registered"), st)
  | CreateProvider i => (Success (mkProvider (inst_ProviderKey i) [] true), st)
  | QueryProvider _ _ => (Failure (OtherError "unknown"), st)
  | CancelPayment _ _ => (tt, st)
  | CreatePayment _ => (Success "T1", st)
  | ConfiguredOrderTimeout => (Success 30, st)
  | UpdateBalance oid userID amount => (Success tt, (now, add_movement (mkMovement oid userID amount) db))
  | GetActiveSubscription _ _ => (Success 1, st)
  | ExtendSubscriptionDays _ _ _ => (Success tt, st)
  | RevokeSubscription _ => (Success tt, st)
  | ProviderRefund oid _ req => (refund_answer w, (now, provider_refund oid req (refund_answer w) db))
  | ProviderQueryRefund _ _ _ => (query_answer w, st)
  | WriteRefundPending oid detail => (tt, (now, add_pending_refund oid detail db))
  | LatestRefundPending oid => (latest_pending oid db, st)
  end.

Lemma find_order_some no db o : find_order no db = Some o -> exists oid, orders db !! oid = Some o /\ OutTradeNo o = no.
Proof.
  unfold find_order. intros ([oid o'] & Hf & ->)%fmap_Some. apply find_some in Hf as [Hin E]. exists oid.
  apply list_elem_of_In, elem_of_map_to_list in Hin. split; [exact Hin | by apply String.eqb_eq].
Qed.

Lemma find_order_none no db : find_order no db = None -> forall oid o, orders db !! oid = Some o -> OutTradeNo o <> no.
Proof.
  unfold find_order. intros H%fmap_None oid o Ho E. apply elem_of_map_to_list, list_elem_of_In in Ho.
  pose proof (find_none _ _ H _ Ho) as Hn. cbn in Hn. by rewrite E, String.eqb_refl in Hn.
Qed.

Lemma find_code_some code db c : find_code code db = Some c -> exists id, codes db !! id = Some c /\ code_Code c = code.
Proof.
  unfold find_code. intros ([id c'] & Hf & ->)%fmap_Some. apply find_some in Hf as [Hin E]. exists id.
  apply list_elem_of_In, elem_of_map_to_list in Hin. split; [exact Hin | by apply String.eqb_eq].
Qed.

Lemma find_first {B} (l : list (Z * B)) oid k d : List.find (fun e => fst e =? oid) l = Some (k, d) ->
  exists l1 l2, l = (l1 ++ (oid, d) :: l2)%list /\ Forall (fun e => fst e <> oid) l1.
Proof.
  induction l as [|[k' d'] l IH]; cbn; [done|]. destruct (Z.eqb_spec k' oid) as [->|Hne].
  - intros [= -> ->]. by exists [], l.
  - intros (l1 & l2 & -> & H)%IH. exists ((k', d') :: l1), l2. split; [done | by constructor].
Qed.

Lemma statement_of {A} (e : outcome A * tables) db : statement (fst e) db (snd e) e.
Proof. destruct e as [[a|x] db']; [done | by right]. Qed.

Lemma serve_obeys w : obeys answers (serve w).
Proof.
  intros R c now db. destruct c; cbn [serve answers fst snd answered_in]; try (split; [done|]; try apply statement_of; done).
  - split; [done|]. split; [done|]. by destruct (orders db !! oid).
  - split; [done|]. split; [done|]. destruct (find_order outTradeNo db) eqn:E; [by apply find_order_some | by apply find_order_none].
  - destruct (update_one_fails w); (split; [done|]); [by left | apply statement_of].
  - destruct (audit_lost w action); (split; [done|]); [by left | by right].
  - split; [done|]. split; [done|]. destruct (find_code code db) eqn:E; [|done]. by apply find_code_some.
  - destruct (rebate_fails w); cbn [answered_in fst snd].
    + split; [done|]. exists true. by left.
    + split; [done|]. exists true. apply statement_of.
  - split; [done|]. by left.
  - split; [done|]. by right.
  - split; [done|]. split; [done|]. unfold latest_pending. destruct (List.find _ _) as [[k d]|] eqn:E; [|done]. by eapply find_first.
Qed.

(** ** Concrete runs *)

Abbreviation running := (@mksystem cmd tables).

Definition a_balance_order : PaymentOrder :=
  mkPaymentOrder 0 7 (f64_of_Z 10) (f64_of_Z 10) None "" "" OrderTypeBalance "" None 100000000000000 0 "" "alipay" "sub2_x" "" None None
    f64_zero "" None false.

Definition a_subscription_order : PaymentOrder :=
  mkPaymentOrder 0 7 (f64_of_Z 10) (f64_of_Z 10) None "" "" OrderTypeSubscription "" None 100000000000000 0 "" "alipay" "sub2_x" "" (Some 3) (Some 30)
    f64_zero "" None false.

Definition a_notification : PaymentNotification := mkPaymentNotification "T1" "sub2_x" (f64_of_Z 10) NotificationStatusSuccess [].

(** The tables after the programs ran one after the other, each with its faults. *)
Definition after (l : list (faults * program unit)) (now : Z) : tables :=
  foldl (fun db wp => snd (snd (run_alone (serve (fst wp)) (snd wp) (now, db)))) empty_tables l.

Lemma serve_reaches {D : decimal_ops} w p now ts db : may_start p ->
  rtc (step answers may_start) (running db now ts) (running (snd (snd (run_alone (serve w) p (now, db)))) now (ts ++ [Ret tt])).
Proof.
  intros Hp. eapply rtc_l; [by apply (step_start answers may_start (running db now ts) p)|]. cbn [database time threads].
  pose proof (run_reaches answers may_start (serve w) now ts p db (serve_obeys w)) as H.
  by destruct (run_alone (serve w) p (now, db)) as [r [now' db2]].
Qed.

Lemma after_reaches {D : decimal_ops} l now : Forall (fun wp => may_start (snd wp)) l ->
  exists ts, reachable (running empty_tables now []) (running (after l now) now ts).
Proof.
  unfold after. generalize empty_tables (@nil (program unit)). induction l as [|[w p] l IH]; intros db ts Hl; [by exists ts|].
  apply Forall_cons_1 in Hl as [Hp Hl]. cbn [foldl fst snd] in Hp |- *.
  destruct (IH (snd (snd (run_alone (serve w) p (now, db)))) (ts ++ [Ret tt]) Hl) as [ts' Hr]. exists ts'.
  etrans; [by apply serve_reaches | exact Hr].
Qed.

(** The runs are of the system with decimals as rationals. *)
#[local] Existing Instance rational_decimals.

Definition paid_run : list (faults * program unit) :=
  [(no_faults, ignoring (CreateOrder a_balance_order 5)); (no_faults, ignoring (HandlePaymentNotification a_notification "alipay"))].

Lemma paid_run_starts : Forall (fun wp => may_start (snd wp)) paid_run.
Proof. by repeat constructor. Qed.

Lemma orders_credited_once_witness : exists s o,
  reachable (running empty_tables 10 []) s /\ orders (database s) !! 1 = Some o /\ order_Status o = OrderStatusCompleted /\
  (length (credits_of (RechargeCode o) (credits (database s))) <= 1)%nat.
Proof.
  destruct (after_reaches paid_run 10 paid_run_starts) as [ts Hr].
  set (db := after paid_run 10) in *. destruct (orders db !! 1) as [o|] eqn:Ho; [|exfalso; revert Ho; vm_compute; discriminate].
  assert (Hst : match orders db !! 1 with Some o => order_Status o | None => "" end = OrderStatusCompleted) by (vm_compute; reflexivity).
  rewrite Ho in Hst. exists (running db 10 ts), o. split; [exact Hr|]. split; [exact Ho|]. split; [exact Hst|].
  exact (proj1 (orders_credited_once 10 _ 1 o Hr Ho)).
Defined.

(** The first fulfilment extends the subscription, loses its audit entry and
    then fails; the retry finds no entry. *)
Definition twice_run : list (faults * program unit) :=
  [(no_faults, ignoring (CreateOrder a_subscription_order 5));
   (no_faults <| audit_lost := fun action => action =s? "SUBSCRIPTION_ASSIGNED" |> <| rebate_fails := true |>, ignoring (HandlePaymentNotification a_notification "alipay"));
   (no_faults, ignoring (RetryFulfillment 1))].

(** Subscriptions have no such guarantee, because what was granted is only
    remembered by an audit entry that is written afterwards and whose failure
    is ignored: if it is lost and the fulfilment fails after it, a retry grants
    the subscription of a single paid order a second time. *)
Theorem subscription_granted_twice : exists s o,
  reachable (running empty_tables 10 []) s /\ orders (database s) !! 1 = Some o /\ order_Status o = OrderStatusCompleted /\
  assignments (database s) = [mkAssignment 1 (UserID o) 3 30; mkAssignment 1 (UserID o) 3 30].
Proof.
  assert (Hl : Forall (fun wp => may_start (snd wp)) twice_run) by (by repeat constructor).
  destruct (after_reaches twice_run 10 Hl) as [ts Hr]. set (db := after twice_run 10) in *.
  destruct (orders db !! 1) as [o|] eqn:Ho; [|exfalso; revert Ho; vm_compute; discriminate].
  assert (Hst : match orders db !! 1 with Some o => (order_Status o, UserID o) | None => ("", 0) end = (OrderStatusCompleted, 7))
    by (vm_compute; reflexivity).
  rewrite Ho in Hst. injection Hst as Hst Hu. exists (running db 10 ts), o. rewrite Hu. split; [exact Hr|]. split; [exact Ho|]. split; [exact Hst|].
  vm_compute. reflexivity.
Qed.

(** ** A retry completes what earlier attempts left *)

Abbreviation run p db now := (run_alone (serve no_faults) p (now, db)).

Lemma run_call {R B} (c : cmd R) (f : R -> program B) st :
  run_alone (serve no_faults) (call c ≫= f) st = (let '(r, st') := serve no_faults _ c st in run_alone (serve no_faults) (f r) st').
Proof. done. Qed.

Lemma run_then {A B} (p : program A) (f : A -> program B) db db' now a :
  run p db now = (a, (now, db')) -> run (p ≫= f) db now = run (f a) db' now.
Proof. intros H. by rewrite run_alone_bind, H. Qed.

(** One command of the run is executed. *)
Ltac exec := rewrite run_call; cbn [serve answered_in fst snd].

Lemma update_order_hit now oid p cs db o : orders db !! oid = Some o -> meets p o = true ->
  update_order now oid p cs db = (Success 1, db <| orders := <[oid := apply_changes now cs o]> (orders db) |>).
Proof. intros Ho Hm. unfold update_order. by rewrite Ho, Hm. Qed.

Lemma meets_status l o s : order_Status o = s -> in_list s l = true -> meets (StatusIn l) o = true.
Proof. intros <-. done. Qed.

Lemma find_code_is db id c : Inv db -> codes db !! id = Some c -> find_code (code_Code c) db = Some c.
Proof.
  intros Hi Hc. destruct (find_code (code_Code c) db) as [d|] eqn:E.
  - apply find_code_some in E as (j & Hd & Ed). assert (j = id) as -> by (eapply inv_unique; [done.. | congruence]). congruence.
  - by destruct (find_code_None _ _ E _ _ Hc).
Qed.

(** The code of an order is a balance code. *)
Lemma code_of_order db oid o c : Inv db -> orders db !! oid = Some o -> find_code (RechargeCode o) db = Some c ->
  codes db !! code_ID c = Some c /\ code_Code c = RechargeCode o /\ code_Type c = RedeemTypeBalance /\
  (code_Status c = StatusUnused \/ code_Status c = StatusUsed).
Proof.
  intros Hi Ho (id & Hc & Ec)%find_code_some. destruct (inv_codes _ Hi _ _ Hc) as (-> & _ & H).
  destruct (inv_orders _ Hi _ _ Ho) as (_ & _ & (n & _ & Ern) & _). rewrite Ec, Ern in H.
  destruct (H (recharge_code_prefix oid n)) as (k & x & _ & _ & _ & _ & Ht & _ & Hst). done.
Qed.

(** Redeeming the unused code of an order marks it used and changes no order. *)
Lemma run_redeem db now oid o c u : Inv db -> orders db !! oid = Some o -> find_code (RechargeCode o) db = Some c ->
  CanUse c = true -> exists db', run (Redeem u (RechargeCode o)) db now = (Success tt, (now, db')) /\ orders db' = orders db.
Proof.
  intros Hi Ho Hf Hu. destruct (code_of_order db oid o c Hi Ho Hf) as (Hc & Ec & Et & _).
  assert (Hg : granted c (mkAccount f64_zero RoleUser 1) = Success (AddBalance (balance_amount c f64_zero))) by (unfold granted; by rewrite Et).
  set (db' := snd (use_code c u (granted c (mkAccount f64_zero RoleUser 1)) db)).
  assert (Huse : use_code c u (granted c (mkAccount f64_zero RoleUser 1)) db = (Success true, db')).
  { unfold db', use_code. by rewrite Hc, Hu, Hg. }
  exists db'. split.
  - unfold Redeem. exec. change (rate_limited (Some 0)) with false. cbv iota. exec. cbn [negb]. cbv iota.
    erewrite run_then; [exec; done|]. unfold redeem_locked. exec. rewrite Hf, Hu. cbn [negb]. cbv iota.
    assert (redeem_precondition c = None) as -> by (unfold redeem_precondition; by rewrite Et). exec.
    rewrite run_call. cbn [serve answered_in fst snd]. change (account_balance no_faults) with f64_zero. rewrite Huse. cbn [fst snd]. by exec.
  - unfold db', use_code. rewrite Hc, Hu, Hg. cbn [negb snd]. by destruct (add_benefit_only (code_Code c) u (AddBalance (balance_amount c f64_zero))
      (db <| codes := <[code_ID c := c <| code_Status := StatusUsed |> <| UsedBy := Some u |>]> (codes db) |>)) as (-> & _).
Qed.

(** The rebate, and the last update. *)
Lemma run_complete db now o o2 action : orders db !! order_ID o = Some o2 -> order_Status o2 = OrderStatusRecharging ->
  exists db', run (rebate_and_complete o action) db now = (Success tt, (now, db')) /\
    orders db' !! order_ID o = Some (apply_changes now [SetStatus OrderStatusCompleted] o2).
Proof.
  intros Ho Hst. unfold rebate_and_complete.
  assert (exists db1, run (applyAffiliateRebateForOrder o) db now = (Success tt, (now, db1)) /\ orders db1 = orders db) as (db1 & Hr & E1).
  { unfold applyAffiliateRebateForOrder. destruct (SFleb _ _); [by exists db|]. exists (snd (add_rebate true (order_ID o) db)).
    exec. cbn [rebate_fails no_faults answered_in]. unfold add_rebate. by destruct (_ || _). }
  rewrite (run_then _ _ _ _ _ _ Hr). unfold markCompleted, update. exec.
  erewrite update_order_hit; [|rewrite E1; exact Ho | by apply (meets_status _ _ _ Hst)]. cbn [fst snd].
  unfold audit. exec. cbn [audit_lost no_faults]. eexists. split; [done|]. cbn. by rewrite lookup_insert_eq.
Qed.

Lemma run_CreateCode db now c : trim_space (code_Code c) = code_Code c -> (code_Code c =s? "") = false -> code_Type c = RedeemTypeBalance ->
  code_Status c = StatusUnused -> SFeqb (code_Value c) f64_zero = false ->
  run (CreateCode c) db now = (match fst (insert_code c db) with Success _ => Success tt | Failure e => Failure (WrappedError "create redeem code" e) end,
    (now, snd (insert_code c db))).
Proof.
  destruct c as [id code ty v st us g d]. cbn [code_Code code_Type code_Status code_Value]. intros Et Ee -> -> Ev.
  unfold CreateCode. cbn [code_Code set_field]. rewrite Et. cbn -[insert_code String.eqb serve]. rewrite Ee.
  unfold validateRedeemCodeValue. cbn -[insert_code serve]. rewrite Ev. cbn -[insert_code]. by destruct (fst (insert_code _ db)) as [[]|].
Qed.

(** Whatever became of the code: not made, unused or used. *)
Lemma run_doBalance db now oid o o2 : Inv db -> orders db !! oid = Some o2 -> same_order o o2 -> order_Status o2 = OrderStatusRecharging ->
  by_code o -> paid o2 -> SFeqb (Amount o) f64_zero = false ->
  exists db', run (doBalance o) db now = (Success tt, (now, db')) /\
    orders db' !! oid = Some (apply_changes now [SetStatus OrderStatusCompleted] o2).
Proof.
  intros Hi Ho Hs Hst Hby Hpaid Ham. pose proof Hs as (Eid & _ & Ea & Ety & Erc).
  destruct (inv_orders _ Hi _ _ Ho) as (Eid2 & _ & (n & Hn & Ern) & _). assert (oid = order_ID o) as -> by congruence.
  assert (Hredeem : forall db1 c, Inv db1 -> orders db1 = orders db -> find_code (RechargeCode o) db1 = Some c -> CanUse c = true ->
    exists db', run (redeem_and_complete o) db1 now = (Success tt, (now, db')) /\
      orders db' !! order_ID o = Some (apply_changes now [SetStatus OrderStatusCompleted] o2)).
  { intros db1 c Hi1 E1 Hf Hu. rewrite <- Erc in Hf. destruct (run_redeem db1 now (order_ID o) o2 c (UserID o) Hi1) as (db2 & Hr & E2); try done; [by rewrite E1|].
    unfold redeem_and_complete. rewrite <- Erc. rewrite (run_then _ _ _ _ _ _ Hr). apply run_complete; [|done]. by rewrite E2, E1. }
  unfold doBalance. exec. destruct (find_code (RechargeCode o) db) as [c|] eqn:Ef; cbn [resolveRedeemAction].
  - rewrite <- Erc in Ef. destruct (code_of_order db (order_ID o) o2 c Hi Ho Ef) as (Hc & Ec & Et & Hcst). rewrite Erc in Ef.
    destruct Hcst as [E|E]; unfold IsUsed; rewrite E; cbn [String.eqb].
    + change (StatusUnused =s? StatusUsed) with false. cbv iota. apply (Hredeem db c); try done. unfold CanUse. by rewrite E.
    + change (StatusUsed =s? StatusUsed) with true. cbv iota. by apply run_complete.
  - set (c := mkRedeemCode 0 (RechargeCode o) RedeemTypeBalance (Amount o) StatusUnused None None 0).
    assert (Etrim : trim_space (RechargeCode o) = RechargeCode o).
    { rewrite <- Erc, Ern. apply recharge_code_trimmed; [|done]. destruct (inv_orders _ Hi _ _ Ho) as (_ & H & _). lia. }
    assert (Hcr : run (CreateCode c) db now = (match fst (insert_code c db) with Success _ => Success tt | Failure e => Failure (WrappedError "create redeem code" e) end, (now, snd (insert_code c db)))).
    { apply run_CreateCode; [done | | done..]. change ((RechargeCode o =s? "") = false). by rewrite <- Erc, Ern. }
    rewrite (run_then _ _ _ _ _ _ Hcr).
    assert (Hins : fst (insert_code c db) = Success tt /\ orders (snd (insert_code c db)) = orders db /\
      codes (snd (insert_code c db)) !! next_code db = Some (c <| code_ID := next_code db |>)).
    { unfold insert_code. change (code_Code c) with (RechargeCode o). rewrite Ef. split; [done|]. split; [done|]. cbn. by rewrite lookup_insert_eq. }
    destruct Hins as (-> & E1 & Hrow).
    assert (Hi1 : Inv (snd (insert_code c db))).
    { refine (proj1 (insert_code_sound c [OrderIs o; IsPaid (order_ID o)] db Hi _ _)).
      - constructor; [exists o2; by split|]. constructor; [by exists o2 | constructor].
      - intros _. exists o, o. rewrite !elem_of_cons, Etrim. auto 20. }
    apply (Hredeem _ (c <| code_ID := next_code db |>)); [done | done | | done].
    exact (find_code_is _ _ _ Hi1 Hrow).
Qed.

(** An update to a status other than completed, as an UPDATE statement. *)
Lemma run_set_status db now oid o l st : Inv db -> orders db !! oid = Some o -> paid o -> in_list (order_Status o) l = true ->
  status_settled st = false -> exists db',
  run (update oid (StatusIn l) [SetStatus st]) db now = (Success 1, (now, db')) /\ Inv db' /\
  orders db' !! oid = Some (apply_changes now [SetStatus st] o).
Proof.
  intros Hi Ho Hp Hl Hst. exists (snd (update_order now oid (StatusIn l) [SetStatus st] db)).
  assert (Hi' : Inv (snd (update_order now oid (StatusIn l) [SetStatus st] db))).
  { apply (update_sound now oid (StatusIn l) [SetStatus st] [IsPaid oid] db Hi).
    - constructor; [by exists o | constructor].
    - apply changes_paid; [by left | done]. }
  revert Hi'. unfold update, call. cbn [run_alone serve answered_in fst snd]. rewrite (update_order_hit now oid (StatusIn l) [SetStatus st] db o Ho Hl). cbn [fst snd].
  intros Hi'. split; [done|]. split; [done|]. cbn. by rewrite lookup_insert_eq.
Qed.

Lemma run_audit db now oid action : Inv db -> run (audit oid action) db now = (tt, (now, write_audit oid action db)) /\
  Inv (write_audit oid action db) /\ orders (write_audit oid action db) = orders db.
Proof. intros Hi. split; [done|]. split; [by apply inv_audit | done]. Qed.

Lemma not_fulfillable_paid now o : not_fulfillable (apply_changes now [SetStatus OrderStatusPaid] o) = None.
Proof. done. Qed.

(** Fulfilling a paid order whose row shows it. *)
Lemma run_fulfillment db now oid o : Inv db -> orders db !! oid = Some (apply_changes now [SetStatus OrderStatusPaid] o) ->
  by_code o -> paid o -> SFeqb (Amount o) f64_zero = false ->
  exists db' o2, run (executeFulfillment oid) db now = (Success tt, (now, db')) /\
    orders db' !! oid = Some o2 /\ order_Status o2 = OrderStatusCompleted /\ by_code o2.
Proof.
  set (o1 := apply_changes now [SetStatus OrderStatusPaid] o). intros Hi Ho [Hs1 Hs2] Hp Ham.
  unfold executeFulfillment. exec. rewrite Ho. change (OrderType o1) with (OrderType o).
  apply String.eqb_neq in Hs1 as E1, Hs2 as E2. rewrite E1, E2. unfold ExecuteBalanceFulfillment. exec. rewrite Ho. unfold o1 at 1.
  rewrite not_fulfillable_paid. fold o1. unfold locked_fulfillment.
  destruct (run_set_status db now oid o1 [OrderStatusPaid; OrderStatusFailed] OrderStatusRecharging) as (db3 & Hr3 & Hi3 & Ho3); try done.
  rewrite (run_then _ _ _ _ _ _ Hr3). cbn [Z.eqb].
  set (o2 := apply_changes now [SetStatus OrderStatusRecharging] o1) in *.
  destruct (run_doBalance db3 now oid o1 o2) as (db4 & Hr4 & Ho4); try done.
  rewrite (run_then _ _ _ _ _ _ Hr4). by exists db4, (apply_changes now [SetStatus OrderStatusCompleted] o2).
Qed.

(** C11: a retry by the administrator completes a paid balance order that is in
    the state PAID or FAILED and whose amount is not zero, provided nothing fails
    this time: whatever earlier attempts left behind, afterwards the order is
    completed and its code has been credited exactly once.  (An order that a
    crash left in RECHARGING is not retried.) *)
Theorem retry_completes {D : decimal_ops} now ts db oid o :
  reachable (mksystem empty_tables now []) (running db now ts) -> orders db !! oid = Some o ->
  by_code o -> paid o -> in_list (order_Status o) [OrderStatusPaid; OrderStatusFailed] = true -> SFeqb (Amount o) f64_zero = false ->
  let '(res, (_, db')) := run_alone (serve no_faults) (RetryFulfillment oid) (now, db) in
  res = Success tt /\ exists o', orders db' !! oid = Some o' /\ order_Status o' = OrderStatusCompleted /\
    length (credits_of (RechargeCode o') (credits db')) = 1%nat.
Proof.
  intros Hr Ho Hby Hp Hst Ham. pose proof (reachable_inv now _ Hr) as Hi. cbn [database] in Hi.
  destruct (inv_orders _ Hi _ _ Ho) as (Eid & _).
  enough (exists db' o2, run (RetryFulfillment oid) db now = (Success tt, (now, db')) /\
    orders db' !! oid = Some o2 /\ order_Status o2 = OrderStatusCompleted /\ by_code o2) as (db' & o2 & E & Ho2 & Hst2 & Hby2).
  { rewrite E. split; [done|]. exists o2. split; [done|]. split; [done|].
    pose proof (serve_reaches no_faults _ now ts db (start_retry oid)) as Hr2.
    assert (Hrun : run (ignoring (RetryFulfillment oid)) db now = (tt, (now, db'))) by (unfold ignoring; by rewrite (run_then _ _ _ _ _ _ E)).
    rewrite Hrun in Hr2. cbn [snd] in Hr2. assert (Hr3 : reachable (mksystem empty_tables now []) (running db' now (ts ++ [Ret tt]))) by (etrans; [exact Hr | exact Hr2]).
    pose proof (reachable_inv now _ Hr3) as Hi3. cbn [database] in Hi3. destruct (inv_orders _ Hi3 _ _ Ho2) as (_ & _ & _ & _ & Hc).
    destruct (credits_of_order _ _ _ Hi3 Ho2) as [[_ Hno]|(u & a & -> & _)]; [by destruct Hno; apply Hc; [rewrite Hst2|] | done]. }
  assert (Hcase : order_Status o = OrderStatusPaid \/ order_Status o = OrderStatusFailed).
  { apply orb_prop in Hst as [E|[E|E]%orb_prop]; [left | right | done]; by apply String.eqb_eq. }
  unfold RetryFulfillment. exec. rewrite Ho. destruct (PaidAt o) as [t|] eqn:Et; [|by destruct Hp].
  assert (psIsRefundStatus (order_Status o) = false /\ (order_Status o =s? OrderStatusRecharging) = false /\
    (order_Status o =s? OrderStatusCompleted) = false /\ in_list (order_Status o) [OrderStatusFailed; OrderStatusPaid] = true)
    as (-> & -> & -> & Hl) by (by destruct Hcase as [-> | ->]).
  rewrite Hl. cbn [negb].
  destruct (run_set_status db now oid o [OrderStatusFailed; OrderStatusPaid] OrderStatusPaid) as (db1 & Hr1 & Hi1 & Ho1); try done.
  rewrite (run_then _ _ _ _ _ _ Hr1). destruct (run_audit db1 now oid "RECHARGE_RETRY" Hi1) as (Hr2 & Hi2 & Eo2).
  rewrite (run_then _ _ _ _ _ _ Hr2). by apply (run_fulfillment _ now oid o).
Qed.

Definition failed_run : list (faults * program unit) :=
  [(no_faults, ignoring (CreateOrder a_balance_order 5));
   (no_faults <| rebate_fails := true |>, ignoring (HandlePaymentNotification a_notification "alipay"))].

Lemma retry_completes_witness : exists ts o, let db := after failed_run 10 in
  reachable (mksystem empty_tables 10 []) (running db 10 ts) /\ orders db !! 1 = Some o /\ order_Status o = OrderStatusFailed /\
  fst (run_alone (serve no_faults) (RetryFulfillment 1) (10, db)) = Success tt.
Proof.
  assert (Hl : Forall (fun wp => may_start (snd wp)) failed_run) by (by repeat constructor).
  destruct (after_reaches failed_run 10 Hl) as [ts Hr]. set (db := after failed_run 10) in *.
  destruct (orders db !! 1) as [o|] eqn:Ho; [|exfalso; revert Ho; vm_compute; discriminate].
  assert (Hst : match orders db !! 1 with Some o => (order_Status o, PaidAt o, OrderType o, SFeqb (Amount o) f64_zero) | None => ("", None, "", true) end =
    (OrderStatusFailed, Some 10, OrderTypeBalance, false)) by (vm_compute; reflexivity).
  rewrite Ho in Hst. injection Hst as Hst Hp Hty Ham. exists ts, o. split; [exact Hr|]. split; [done|]. split; [done|].
  assert (Hby : by_code o) by (by unfold by_code; rewrite Hty).
  assert (Hpaid : paid o) by (by unfold paid; rewrite Hp).
  assert (Hin : in_list (order_Status o) [OrderStatusPaid; OrderStatusFailed] = true) by (by rewrite Hst).
  pose proof (retry_completes 10 ts db 1 o Hr Ho Hby Hpaid Hin Ham) as H.
  destruct (run_alone (serve no_faults) (RetryFulfillment 1) (10, db)) as [r [t db']]. exact (proj1 H).
Defined.
