(* ===== verification/RefundRuns.v ===== *)
(** * Runs of refunds

    What a refund that is not disturbed does, for every answer of the provider;
    what the retry and the finalization of a pending refund take from the
    balance; and runs in which an order is refunded twice. *)

From Stdlib Require Import Floats.SpecFloat.
From S2P Require Import Prelude GoStrings Json AppErrors Program Interleaving PaymentData Decimals PaymentCommands Redeem Payment Refund.
From S2P Require Import PaymentStore PaymentSafety PaymentSystem RefundSafety PaymentRuns.

#[local] Existing Instance rational_decimals.

(** ** Concrete runs *)

(** The order of [paid_run], paid through an instance that allows refunds. *)
Definition a_refundable_order : PaymentOrder := a_balance_order <| ProviderInstanceID := "5" |>.

Definition completed_run : list (faults * program unit) :=
  [(no_faults, ignoring (CreateOrder a_refundable_order 5)); (no_faults, ignoring (HandlePaymentNotification a_notification "alipay"))].

(** Ten are on the account, and the provider answers [status]. *)
Definition refunding (status : string) : faults :=
  no_faults <| account_balance := f64_of_Z 10 |> <| refund_answer := refund_is status |>.

Definition refund_all (deduct : bool) : program unit := ignoring (ProcessRefund 1 (f64_of_Z 10) "wrong item" false deduct).

(** ** Finalizing beside a refund *)

(** A program from its start to its end, as thread [i]. *)
Definition whole (i : nat) (w : faults) (p : program unit) : list (@action cmd tables) := [Start p; Run i (serve w) 100].

(** The query finds that the pending refund has failed; before it writes that
    down, a retry refunds the order. *)
Definition overtaken_schedule : list (@action cmd tables) :=
  whole 0 no_faults (ignoring (CreateOrder a_refundable_order 5)) ++
  whole 1 no_faults (ignoring (HandlePaymentNotification a_notification "alipay")) ++
  whole 2 (refunding ProviderStatusPending) (refund_all true) ++
  [Start (ignoring (QueryAndFinalizeRefund 1)); Run 3 (serve (no_faults <| query_answer := refund_is ProviderStatusFailed |>)) 5] ++
  whole 4 (refunding ProviderStatusSuccess) (refund_all true) ++
  [Run 3 (serve no_faults) 100] ++
  whole 5 (refunding ProviderStatusSuccess) (refund_all true).

Lemma overtaken_valid : Forall (valid answers may_start) overtaken_schedule.
Proof. repeat (apply List.Forall_cons; [first [apply serve_obeys | constructor; lia]|]). constructor. Qed.

Definition order_summary (db : tables) : option (string * string * nat) :=
  (fun o => (order_Status o, OrderType o, reported_for 1 (refunds db))) <$> orders db !! 1.

Lemma schedule_summary l x : Forall (valid answers may_start) l ->
  order_summary (database (foldl act (running empty_tables 10 []) l)) = x ->
  exists s, reachable (running empty_tables 10 []) s /\ order_summary (database s) = x.
Proof. intros Hl Hx. eexists. split; [by apply (schedule_reaches answers may_start l Hl) | exact Hx]. Qed.

Lemma overtaken_reached : exists s, reachable (running empty_tables 10 []) s /\
  order_summary (database s) = Some (OrderStatusRefunded, OrderTypeBalance, 2%nat).
Proof. apply (schedule_summary overtaken_schedule); [exact overtaken_valid | vm_compute; reflexivity]. Qed.

(** The finalization of a pending refund ignores the lock that the status
    REFUNDING is: it read the order before a retry locked and refunded it, and
    then sets the refunded order to REFUND_FAILED without a condition, so that
    a third request has the provider refund the order a second time. *)
Theorem finalizing_breaks_the_lock : exists s o, reachable (running empty_tables 10 []) s /\
  orders (database s) !! 1 = Some o /\ order_Status o = OrderStatusRefunded /\ OrderType o = OrderTypeBalance /\
  reported_for 1 (refunds (database s)) = 2%nat.
Proof.
  destruct overtaken_reached as (s & Hr & (o & Ho & E)%fmap_Some). injection E as E1 E2 E3. by exists s, o.
Qed.

(** ** A refund that nothing disturbs *)

(** What the service takes for done was reported so. *)
Lemma outcome_reported answer resp : refund_outcome answer = Success resp -> reports_done resp = true -> reported_refunded answer = true.
Proof.
  destruct answer as [[r|] [e|]]; cbn [refund_outcome]; try done.
  - destruct (_ =s? _) eqn:Ep; [|done]. intros [= <-] Hd. apply String.eqb_eq in Ep. unfold reports_done in Hd. by rewrite Ep in Hd.
  - destruct (validateRefundProviderResponse _); [done|]. by intros [= <-].
Qed.

Lemma outcome_valid answer resp : refund_outcome answer = Success resp -> reports_done resp = false ->
  trim_space (resp_RefundStatus resp) = ProviderStatusPending.
Proof.
  destruct answer as [[r|] [e|]]; cbn [refund_outcome]; try done.
  - destruct (_ =s? _) eqn:Ep; [|done]. intros [= <-] _. by apply String.eqb_eq.
  - unfold validateRefundProviderResponse. destruct (in_list _ _) eqn:El; [|by destruct (_ =s? _)]. intros [= <-] Hd. unfold reports_done in Hd.
    cbn in El, Hd. apply orb_false_elim in Hd as [H1 H2]. rewrite orb_false_r in H2. rewrite H1, H2, orb_false_r in El. by apply String.eqb_eq.
Qed.

Lemma finish_done {D : decimal_ops} p resp : reports_done resp = true -> finishRefund p resp = markRefundOk p.
Proof.
  intros Hd. unfold finishRefund, validateRefundProviderResponse, reports_done in *. apply existsb_exists in Hd as (x & Hx & E%String.eqb_eq).
  cbv zeta. rewrite E. by repeat destruct Hx as [<-|Hx].
Qed.

Lemma finish_pending {D : decimal_ops} answer p resp : refund_outcome answer = Success resp -> reports_done resp = false ->
  finishRefund p resp = markRefundPending p resp.
Proof.
  intros Ho Hd. unfold finishRefund, validateRefundProviderResponse. cbv zeta. by rewrite (outcome_valid _ _ Ho Hd).
Qed.

Section Undisturbed.
Context {D : decimal_ops} (w : faults) (now : Z).
Hypothesis updates_work : update_one_fails w = false.

Abbreviation runs_to p db := (run_alone (serve w) p (now, db)).

Lemma run_call_w {R B} (c : cmd R) (f : R -> program B) st :
  run_alone (serve w) (call c ≫= f) st = (let '(r, st') := serve w _ c st in run_alone (serve w) (f r) st').
Proof. done. Qed.

Lemma run_then_w {A B} (p : program A) (f : A -> program B) db db' a :
  runs_to p db = (a, (now, db')) -> runs_to (p ≫= f) db = runs_to (f a) db'.
Proof. intros H. by rewrite run_alone_bind, H. Qed.

Ltac exec_w := rewrite run_call_w; cbn [serve answered_in fst snd].

(** What is kept by an audit entry, lost or not. *)
Definition audited_as (oid : Z) (db db' : tables) : Prop :=
  orders db' = orders db /\ refunds db' = refunds db /\ movements db' = movements db /\ pending_refunds db' = pending_refunds db.

Lemma run_audit_w oid a db : exists db', runs_to (audit oid a) db = (tt, (now, db')) /\ audited_as oid db db'.
Proof.
  unfold audit, call. cbn [run_alone serve fst snd]. destruct (audit_lost w a); eexists; (split; [reflexivity | by split_and!]).
Qed.

Lemma run_update_one cs db oid o : orders db !! oid = Some o ->
  runs_to (call (UpdateOneOrder oid cs)) db = (Success tt, (now, db <| orders := <[oid := apply_changes now cs o]> (orders db) |>)).
Proof. intros Ho. unfold call. cbn [run_alone serve fst snd answered_in]. rewrite updates_work. unfold update_one_order. by rewrite Ho. Qed.

Variables (oid : Z) (o : PaymentOrder) (amt : float64).
Hypothesis Hid : order_ID o = oid.
Hypothesis Htype : OrderType o = OrderTypeBalance.
Hypothesis Hstatus : order_Status o = OrderStatusCompleted \/ order_Status o = OrderStatusRefundRequested.
Hypothesis Hinstance : ProviderSnapshot o = None /\ trim_space (ProviderInstanceID o) = "5".
Hypothesis Htrade : PaymentTradeNo o <> "".
Hypothesis Hamt : is_nan amt = false /\ is_inf amt = false /\ SFleb amt f64_zero = false /\
  SFltb (paymentAmountToleranceForCurrency (PaymentOrderCurrency o)) (f64_sub amt (Amount o)) = false.

(** What is taken from the account. *)
Definition deduction : float64 := f64_min amt (account_balance w).
Definition movement_of (a : float64) : list movement := if SFltb f64_zero deduction then [mkMovement oid (UserID o) a] else [].
Definition gateway_amount : string :=
  formatGatewayRefundAmount (calculateGatewayRefundAmount (Amount o) (PayAmount o) amt (PaymentOrderCurrency o)) o.

Definition the_plan (reason : string) (force : bool) : RefundPlan :=
  mkRefundPlan oid o amt (calculateGatewayRefundAmount (Amount o) (PayAmount o) amt (PaymentOrderCurrency o))
    (refund_reason o reason) force true DeductionTypeBalance deduction 0 0.

Lemma refund_instance_found db : runs_to (getRefundOrderProviderInstance o) db = (Success (Some an_instance), (now, db)).
Proof.
  destruct Hinstance as [Hs Hi]. unfold getRefundOrderProviderInstance. rewrite Hs, Hi. reflexivity.
Qed.

Lemma refund_provider_found db :
  runs_to (getRefundProvider o) db = (Success (mkProvider (inst_ProviderKey an_instance) [] true), (now, db)).
Proof. unfold getRefundProvider. by rewrite (run_then_w _ _ _ _ _ (refund_instance_found db)). Qed.

Lemma run_PrepareRefund reason force db : orders db !! oid = Some o ->
  runs_to (PrepareRefund oid amt reason force true) db = (Success (inl (the_plan reason force)), (now, db)).
Proof.
  intros Ho. destruct Hamt as (E1 & E2 & E3 & E4). unfold PrepareRefund. exec_w. rewrite Ho.
  assert (in_list (order_Status o) refundable_statuses = true /\ (order_Status o =s? OrderStatusRefundPending) = false) as [-> Hp]
    by (by destruct Hstatus as [-> | ->]).
  cbn [negb]. rewrite (run_then_w _ _ _ _ _ (refund_instance_found db)). cbn [inst_RefundEnabled an_instance negb].
  rewrite E1, E2. cbn [orb]. cbv zeta. rewrite E3, E4. unfold prepDeduct. rewrite Htype. change (OrderTypeBalance =s? OrderTypeSubscription) with false.
  cbv iota. rewrite run_alone_bind. exec_w. cbn [run_alone mret prog_mret]. rewrite Hp. reflexivity.
Qed.

Lemma run_lock db : orders db !! oid = Some o ->
  runs_to (update oid (StatusIn refundable_statuses) [SetStatus OrderStatusRefunding]) db =
    (Success 1, (now, db <| orders := <[oid := apply_changes now [SetStatus OrderStatusRefunding] o]> (orders db) |>)).
Proof.
  intros Ho. unfold update, call. cbn [run_alone serve fst snd answered_in].
  rewrite (update_order_hit now oid _ _ db o Ho); [done|]. by destruct Hstatus as [Hs|Hs]; apply (meets_status _ _ _ Hs).
Qed.

Lemma run_deduct reason force db : has_audit oid "REFUND_ROLLBACK_FAILED" db = false ->
  exists db', runs_to (deduct_balance (the_plan reason force)) db = (Success (the_plan reason force), (now, db')) /\
    movements db' = movement_of (SFopp deduction) ++ movements db /\ orders db' = orders db /\ refunds db' = refunds db /\
    pending_refunds db' = pending_refunds db.
Proof.
  intros Ha. unfold deduct_balance, has_balance_deduction, movement_of. cbn [plan_DeductionType the_plan plan_BalanceToDeduct].
  change (DeductionTypeBalance =s? DeductionTypeBalance) with true. cbn [andb]. destruct (SFltb f64_zero deduction); cbn [negb].
  - exec_w. cbn [plan_OrderID the_plan]. rewrite Ha. exec_w. by eexists.
  - by exists db.
Qed.

Lemma run_gateway p db : plan_Order p = o ->
  plan_GatewayAmount p = calculateGatewayRefundAmount (Amount o) (PayAmount o) amt (PaymentOrderCurrency o) -> exists db',
  runs_to (gwRefund p) db = (refund_outcome (refund_answer w), (now, db')) /\
  movements db' = movements db /\ orders db' = orders db /\ pending_refunds db' = pending_refunds db /\
  refunds db' = if reported_refunded (refund_answer w) then mkRefund oid gateway_amount :: refunds db else refunds db.
Proof.
  intros Hp Hg. unfold gwRefund. rewrite Hp. apply String.eqb_neq in Htrade as ->.
  rewrite (run_then_w _ _ _ _ _ (refund_provider_found db)).
  change (validateProviderSnapshotMetadata o _ _) with (@None error). rewrite Hid, Hg. exec_w. eexists. split; [reflexivity|]. unfold provider_refund, gateway_amount. by destruct (reported_refunded _).
Qed.

Lemma run_rollback reason force db : exists db',
  runs_to (RollbackRefund (the_plan reason force)) db = (true, (now, db')) /\
  movements db' = movement_of deduction ++ movements db /\ orders db' = orders db /\ refunds db' = refunds db /\
  pending_refunds db' = pending_refunds db.
Proof.
  unfold RollbackRefund, has_balance_deduction, movement_of. cbn [plan_DeductionType the_plan plan_BalanceToDeduct].
  change (DeductionTypeBalance =s? DeductionTypeBalance) with true. cbn [andb]. destruct (SFltb f64_zero deduction).
  - exec_w. by eexists.
  - by exists db.
Qed.

(** The last update of the order's row, whichever it is. *)
Lemma run_last cs db1 o1 : orders db1 !! oid = Some o1 -> exists db2,
  runs_to (call (UpdateOneOrder oid cs)) db1 = (Success tt, (now, db2)) /\ orders db2 !! oid = Some (apply_changes now cs o1) /\
  movements db2 = movements db1 /\ refunds db2 = refunds db1 /\ pending_refunds db2 = pending_refunds db1.
Proof.
  intros Ho. eexists. split; [by apply run_update_one|]. cbn. by rewrite lookup_insert_eq.
Qed.

Lemma run_failed_refund reason force e db1 o1 : orders db1 !! oid = Some o1 -> exists db2 o2,
  runs_to (handleGwFail (the_plan reason force) e) db1 = (Success (warned (GatewayFailedRolledBack e)), (now, db2)) /\
  orders db2 !! oid = Some o2 /\ order_Status o2 = order_Status o /\
  movements db2 = movement_of deduction ++ movements db1 /\ refunds db2 = refunds db1.
Proof.
  intros Ho. destruct (run_rollback reason force db1) as (db2 & Hr & Hm & Hor & Href & _). unfold handleGwFail.
  rewrite (run_then_w _ _ _ _ _ Hr). cbv iota. set (rs := [SetStatus (if order_Status o =s? OrderStatusRefundRequested then OrderStatusRefundRequested else OrderStatusCompleted)]).
  rewrite <- Hor in Ho. destruct (run_last rs db2 o1 Ho) as (db3 & Hr3 & Ho3 & Hm3 & Href3 & _).
  rewrite (run_then_w (restoreStatus _) _ db2 db3 tt) by (unfold restoreStatus; by rewrite (run_then_w _ _ _ _ _ Hr3)).
  destruct (run_audit_w oid "REFUND_GATEWAY_FAILED" db3) as (db4 & Hr4 & Hor4 & Href4 & Hm4 & _).
  cbn [plan_OrderID the_plan]. rewrite (run_then_w _ _ _ _ _ Hr4). exists db4, (apply_changes now rs o1).
  split_and!; [done | congruence | | congruence | congruence]. by destruct Hstatus as [Hs|Hs]; unfold rs; rewrite Hs.
Qed.

Lemma run_done_refund p db1 o1 : plan_OrderID p = oid -> plan_Order p = o -> plan_RefundAmount p = amt -> orders db1 !! oid = Some o1 ->
  exists db2 o2,
  runs_to (markRefundOk p) db1 = (Success (mkRefundResult true NoWarning false (plan_BalanceToDeduct p) (plan_SubDaysToDeduct p)), (now, db2)) /\
  orders db2 !! oid = Some o2 /\ order_Status o2 = (if SFltb amt (Amount o) then OrderStatusPartiallyRefunded else OrderStatusRefunded) /\
  RefundAmount o2 = amt /\ movements db2 = movements db1 /\ refunds db2 = refunds db1.
Proof.
  intros E1 E2 E3 Ho. unfold markRefundOk. rewrite E1, E2, E3. cbv zeta.
  set (cs := [SetStatus _; _; _; _]). destruct (run_last cs db1 o1 Ho) as (db2 & Hr & Ho2 & Hm & Href & _).
  rewrite (run_then_w _ _ _ _ _ Hr). destruct (run_audit_w oid "REFUND_SUCCESS" db2) as (db3 & Hr3 & Hor3 & Href3 & Hm3 & _).
  rewrite (run_then_w _ _ _ _ _ Hr3). exists db3, (apply_changes now cs o1). by split_and!; [|congruence|..|congruence|congruence].
Qed.

Lemma run_pending_refund reason force resp db1 o1 : orders db1 !! oid = Some o1 -> exists db2 o2 r,
  runs_to (markRefundPending (the_plan reason force) resp) db1 = (Success r, (now, db2)) /\
  orders db2 !! oid = Some o2 /\ order_Status o2 = OrderStatusRefundPending /\
  movements db2 = movement_of deduction ++ movements db1 /\ refunds db2 = refunds db1 /\
  latest_pending oid db2 = Some (mkPendingDetail (trim_space (resp_RefundID resp)) true).
Proof.
  intros Ho. destruct (run_rollback reason force db1) as (db2 & Hr & Hm & Hor & Href & _). unfold markRefundPending.
  rewrite (run_then_w _ _ _ _ _ Hr). cbv iota. cbn [plan_OrderID plan_RefundAmount plan_Order plan_Reason plan_Force the_plan].
  set (cs := [SetStatus _; _; _; _]). rewrite <- Hor in Ho. destruct (run_last cs db2 o1 Ho) as (db3 & Hr3 & Ho3 & Hm3 & Href3 & _).
  rewrite (run_then_w _ _ _ _ _ Hr3). exec_w. eexists _, (apply_changes now cs o1), _. split; [reflexivity|].
  cbn [orders movements refunds add_pending_refund]. split_and!; [done | done | cbn; congruence | cbn; congruence |].
  unfold latest_pending. cbn. by rewrite Z.eqb_refl.
Qed.

(** C9: a refund that nothing disturbs, of a completed balance order, by the
    answer of the provider.  Done: the amount, or what is left of the balance if
    that is less, is taken from it once, the provider refunds the formatted
    share of what was paid, once, and the order is refunded or partially
    refunded.  Refused: what was taken is given back and the order is in the
    state it was in.  Pending: it is given back too, and the order is pending
    with the provider's reference. *)
Theorem undisturbed_refund reason force db :
  orders db !! oid = Some o -> has_audit oid "REFUND_ROLLBACK_FAILED" db = false ->
  exists db' o' res, runs_to (ProcessRefund oid amt reason force true) db = (Success res, (now, db')) /\ orders db' !! oid = Some o' /\
  match refund_outcome (refund_answer w) with
  | Failure e =>
      res = warned (GatewayFailedRolledBack e) /\ order_Status o' = order_Status o /\
      movements db' = movement_of deduction ++ movement_of (SFopp deduction) ++ movements db /\ refunds db' = refunds db
  | Success resp =>
      if reports_done resp then
        res = mkRefundResult true NoWarning false deduction 0 /\ RefundAmount o' = amt /\
        order_Status o' = (if SFltb amt (Amount o) then OrderStatusPartiallyRefunded else OrderStatusRefunded) /\
        movements db' = movement_of (SFopp deduction) ++ movements db /\ refunds db' = mkRefund oid gateway_amount :: refunds db
      else
        order_Status o' = OrderStatusRefundPending /\ refunds db' = refunds db /\
        movements db' = movement_of deduction ++ movement_of (SFopp deduction) ++ movements db /\
        latest_pending oid db' = Some (mkPendingDetail (trim_space (resp_RefundID resp)) true)
  end.
Proof.
  intros Ho Ha. unfold ProcessRefund. rewrite (run_then_w _ _ _ _ _ (run_PrepareRefund reason force db Ho)).
  unfold ExecuteRefund. cbn [plan_OrderID the_plan]. rewrite (run_then_w _ _ _ _ _ (run_lock db Ho)). cbn [Z.eqb].
  set (db1 := db <| orders := _ |>). set (o1 := apply_changes now [SetStatus OrderStatusRefunding] o).
  assert (Ho1 : orders db1 !! oid = Some o1) by apply lookup_insert_eq. unfold execute_locked.
  destruct (run_deduct reason force db1 Ha) as (db2 & Hr2 & Hm2 & Hor2 & Href2 & _). rewrite (run_then_w _ _ _ _ _ Hr2).
  rewrite (run_then_w _ _ db2 db2 (Success (the_plan reason force))) by done.
  destruct (run_gateway (the_plan reason force) db2 eq_refl eq_refl) as (db3 & Hr3 & Hm3 & Hor3 & _ & Href3). rewrite (run_then_w _ _ _ _ _ Hr3).
  rewrite <- Hor2, <- Hor3 in Ho1. assert (Hm : movements db3 = movement_of (SFopp deduction) ++ movements db) by (rewrite Hm3, Hm2; done).
  destruct (refund_outcome (refund_answer w)) as [resp|e] eqn:Eout.
  - destruct (reports_done resp) eqn:Ed.
    + assert (Hrep : reported_refunded (refund_answer w) = true) by (by eapply outcome_reported).
      rewrite Hrep, Href2 in Href3. destruct (run_done_refund (the_plan reason force) db3 o1 eq_refl eq_refl eq_refl Ho1) as (db4 & o4 & Hr4 & Ho4 & Hs4 & Ha4 & Hm4 & Href4).
      exists db4, o4. eexists. rewrite (finish_done _ resp Ed). split; [exact Hr4|]. split_and!; try done; [by rewrite Hm4 | by rewrite Href4, Href3].
    + assert (Hrep : reported_refunded (refund_answer w) = false).
      { destruct (reported_refunded (refund_answer w)) eqn:E; [|done]. destruct (reported_outcome _ E) as (x & E1 & E2). congruence. }
      rewrite Hrep, Href2 in Href3. destruct (run_pending_refund reason force resp db3 o1 Ho1) as (db4 & o4 & r & Hr4 & Ho4 & Hs4 & Hm4 & Href4 & Hl4).
      exists db4, o4, r. rewrite (finish_pending _ _ resp Eout Ed). split; [exact Hr4|]. split_and!; try done; [by rewrite Href4, Href3 | by rewrite Hm4, Hm].
  - assert (Hrep : reported_refunded (refund_answer w) = false).
    { destruct (reported_refunded (refund_answer w)) eqn:E; [|done]. destruct (reported_outcome _ E) as (x & E1 & E2). congruence. }
    rewrite Hrep, Href2 in Href3. destruct (run_failed_refund reason force e db3 o1 Ho1) as (db4 & o4 & Hr4 & Ho4 & Hs4 & Hm4 & Href4).
    exists db4, o4. eexists. split; [exact Hr4|]. split_and!; try done; [by rewrite Hm4, Hm | by rewrite Href4, Href3].
Qed.
(** *** Pending refunds *)

Hypothesis Hpending : order_Status o = OrderStatusRefundPending.




End Undisturbed.

Section Finalizing.
Context {D : decimal_ops} (w : faults) (now : Z) (oid : Z) (o : PaymentOrder).
Hypothesis Hid : order_ID o = oid.
Hypothesis Htype : OrderType o = OrderTypeBalance.
Hypothesis Hpending : order_Status o = OrderStatusRefundPending.
Hypothesis Hinstance : ProviderSnapshot o = None /\ trim_space (ProviderInstanceID o) = "5".

Abbreviation runs_to p db := (run_alone (serve w) p (now, db)).

Ltac exec_w := rewrite (run_call_w w); cbn [serve answered_in fst snd].

End Finalizing.





Lemma undisturbed_refund_witness : exists o db' o' res, let db := after completed_run 10 in
  orders db !! 1 = Some o /\ order_Status o = OrderStatusCompleted /\
  run_alone (serve (refunding ProviderStatusSuccess)) (ProcessRefund 1 (f64_of_Z 4) "" false true) (10, db) = (Success res, (10, db')) /\
  orders db' !! 1 = Some o' /\ order_Status o' = OrderStatusPartiallyRefunded /\
  movements db' = [mkMovement 1 7 (SFopp (f64_of_Z 4))] /\ refunds db' = [mkRefund 1 "4.00"].
Proof.
  set (db := after completed_run 10).
  destruct (orders db !! 1) as [o|] eqn:Ho; [|exfalso; revert Ho; vm_compute; discriminate].
  assert (Hf : match orders db !! 1 with
     | Some o => (order_ID o, UserID o, OrderType o, order_Status o, ProviderSnapshot o, trim_space (ProviderInstanceID o), PaymentTradeNo o, Amount o, PayAmount o)
     | None => (0, 0, "", "", None, "", "", f64_zero, f64_zero) end =
     (1, 7, OrderTypeBalance, OrderStatusCompleted, None, "5", "T1", f64_of_Z 10, f64_of_Z 10)) by (vm_compute; reflexivity).
  rewrite Ho in Hf. injection Hf as Hid Hu Hty Hst Hsn Hin Htr Ham Hpay.
  assert (Ha : has_audit 1 "REFUND_ROLLBACK_FAILED" db = false) by (vm_compute; reflexivity).
  assert (Hm : movements db = []) by (vm_compute; reflexivity). assert (Hr : refunds db = []) by (vm_compute; reflexivity).
  cbv zeta. clearbody db.
  assert (Hcur : PaymentOrderCurrency o = DefaultPaymentCurrency) by (unfold PaymentOrderCurrency; by rewrite Hsn).
  destruct (undisturbed_refund (refunding ProviderStatusSuccess) 10 eq_refl 1 o (f64_of_Z 4) Hid Hty (or_introl Hst) (conj Hsn Hin)
    ltac:(by rewrite Htr) ltac:(rewrite Hcur, Ham; by vm_compute) "" false db Ho Ha)
    as (db' & o' & res & Hrun & Ho' & Hres).
  exists o, db', o', res. split; [exact Ho|]. split; [exact Hst|]. split; [exact Hrun|]. split; [exact Ho'|].
  cbn [refund_outcome refund_answer] in Hres. unfold gateway_amount, formatGatewayRefundAmount, movement_of in Hres.
  rewrite Hcur, Ham, Hpay, Hu in Hres. destruct Hres as (_ & _ & H1 & H2 & H3). rewrite H1, H2, H3, Hm, Hr.
  split; [by vm_compute|]. split; vm_compute; reflexivity.
Defined.

(** The order is refunded, and a second refund of it fails. *)
Definition twice_schedule : list (@action cmd tables) :=
  whole 0 (refunding ProviderStatusSuccess) (refund_all true) ++ whole 1 (refunding ProviderStatusSuccess) (refund_all true).

Lemma refunded_at_most_once_witness : exists s, rtc (step answers may_refund) (running (after completed_run 10) 10 []) s /\
  (reported_for 1 (refunds (database s)) <= 1)%nat /\ reported_for 1 (refunds (database s)) = 1%nat.
Proof.
  assert (Hv : Forall (valid answers may_refund) twice_schedule).
  { repeat (apply List.Forall_cons; [first [apply serve_obeys | constructor]|]). constructor. }
  pose proof (schedule_reaches answers may_refund twice_schedule Hv (running (after completed_run 10) 10 [])) as Hr.
  assert (Hs : order_summary (database (foldl act (running (after completed_run 10) 10 []) twice_schedule)) =
    Some (OrderStatusRefunded, OrderTypeBalance, 1%nat)) by (vm_compute; reflexivity).
  revert Hr Hs. generalize (foldl act (running (after completed_run 10) 10 []) twice_schedule). intros s Hr Hs.
  apply fmap_Some in Hs as (o & Ho & E). injection E as E1 E2 E3. exists s. split; [exact Hr|]. split; [|by rewrite E3].
  apply (refunded_at_most_once 10 (after completed_run 10) s 1 o); [vm_compute; reflexivity | | exact Hr | exact Ho | by rewrite <- E2].
  intros k x Hx. destruct (after_reaches completed_run 10) as [ts Hrun]; [by repeat constructor|].
  by destruct (inv_orders _ (reachable_inv 10 _ Hrun) _ _ Hx).
Defined.
