(* ===== verification/RateSchedules.v ===== *)
(** * Group rate schedules (internal/service/group_rate_schedule.go,
    internal/repository/group_rate_schedule_repo.go)

    A group's rate multiplier, or that of one of its users, follows a schedule
    of minutes of the day; the value from before is kept and restored.  SQL
    statements get their arguments by position; a driver refuses a statement
    with another number of arguments than placeholders. *)

From Stdlib Require Import Floats.SpecFloat.
From Stdlib Require Import Sorting.Permutation Sorting.Sorted.
From S2P Require Import Prelude GoStrings AppErrors PaymentData.

(** The names and the times of a row are only shown. *)
Record GroupRateSchedule : Type := mkSchedule {
  schedule_ID : Z;
  GroupID : Z;
  TargetUserID : option Z;
  StartMinute : Z;
  EndMinute : Z;
  RateMultiplier : float64;
  Enabled : bool;
}.

Record GroupRateScheduleInput : Type := mkInput {
  in_TargetUserID : option Z;
  in_StartMinute : Z;
  in_EndMinute : Z;
  in_RateMultiplier : float64;
  in_Enabled : bool;
}.

(** ** Validation *)

Definition invalid_schedule (message : string) (i : Z) : error :=
  BadRequest "INVALID_RATE_SCHEDULE" (message +:+ " (index=" +:+ pretty i +:+ ")").

Definition validate_one (i : Z) (s : GroupRateScheduleInput) : option error :=
  if (in_StartMinute s <? 0) || (1440 <=? in_StartMinute s) then Some (invalid_schedule "start_minute must be between 0 and 1439" i)
  else if (in_EndMinute s <=? 0) || (1440 <? in_EndMinute s) then Some (invalid_schedule "end_minute must be between 1 and 1440" i)
  else if in_EndMinute s <=? in_StartMinute s then Some (invalid_schedule "end_minute must be greater than start_minute" i)
  else if SFleb (in_RateMultiplier s) f64_zero || is_nan (in_RateMultiplier s) || is_inf (in_RateMultiplier s)
  then Some (invalid_schedule "rate_multiplier must be greater than 0" i)
  else match in_TargetUserID s with
       | Some u => if u <=? 0 then Some (invalid_schedule "target_user_id must be greater than 0" i) else None
       | None => None
       end.

Fixpoint validate_each (i : Z) (l : list GroupRateScheduleInput) : option error :=
  match l with
  | [] => None
  | s :: l => match validate_one i s with Some e => Some e | None => validate_each (i + 1) l end
  end.

Definition targetKey (s : GroupRateScheduleInput) : Z := default 0 (in_TargetUserID s).

(** The comparison of the stable sort. *)
Definition schedule_before (a b : GroupRateScheduleInput) : bool :=
  if in_StartMinute a =? in_StartMinute b then in_EndMinute a <? in_EndMinute b else in_StartMinute a <? in_StartMinute b.

Fixpoint insert_schedule_input (s : GroupRateScheduleInput) (l : list GroupRateScheduleInput) : list GroupRateScheduleInput :=
  match l with
  | [] => [s]
  | t :: l' => if schedule_before t s then t :: insert_schedule_input s l' else s :: l
  end.

Definition sort_schedules (l : list GroupRateScheduleInput) : list GroupRateScheduleInput := foldr insert_schedule_input [] l.

(** Neighbours in the order overlap. *)
Fixpoint neighbours_overlap (l : list GroupRateScheduleInput) : bool :=
  match l with
  | a :: ((b :: _) as l') => (in_StartMinute b <? in_EndMinute a) || neighbours_overlap l'
  | _ => false
  end.

(** The targets, each once; the order of the map does not matter, every
    target's error is the same. *)
Definition targets (l : list GroupRateScheduleInput) : list Z := remove_dups (map targetKey l).

Definition for_target (t : Z) (l : list GroupRateScheduleInput) : list GroupRateScheduleInput :=
  List.filter (fun s => targetKey s =? t) l.

Definition validateGroupRateSchedules (l : list GroupRateScheduleInput) : option error :=
  match validate_each 0 l with
  | Some e => Some e
  | None =>
      if existsb (fun t => neighbours_overlap (sort_schedules (for_target t l))) (targets l)
      then Some (Conflict "RATE_SCHEDULE_OVERLAP" "schedule time ranges cannot overlap for the same target")
      else None
  end.

Fixpoint findActiveGroupRateSchedule (l : list GroupRateSchedule) (currentMinute : Z) : option GroupRateSchedule :=
  match l with
  | [] => None
  | s :: l =>
      if negb (Enabled s) then findActiveGroupRateSchedule l currentMinute
      else if (StartMinute s <=? currentMinute) && (currentMinute <? EndMinute s) then Some s
      else findActiveGroupRateSchedule l currentMinute
  end.

(** ** Tables and statements *)

Record rate_tables : Type := mkRates {
  groups : gmap Z float64;                       (* rate_multiplier of the groups that are not deleted *)
  users : gset Z;
  rows : list GroupRateSchedule;
  next_row : Z;
  group_states : gmap Z (float64 * Z);           (* base multiplier, applied schedule *)
  user_states : gmap (Z * Z) (option float64 * Z);
  user_rates : gmap (Z * Z) (option float64 * bool);   (* multiplier; whether rpm_override is set *)
  invalidated : list Z;                          (* groups whose cached keys were dropped *)
}.
#[export] Instance eta_rate_tables : Settable rate_tables := fun t =>
  mkRates (groups t) (users t) (rows t) (next_row t) (group_states t) (user_states t) (user_rates t) (invalidated t).

Inductive value : Type := VInt (z : Z) | VFloat (x : float64) | VBool (b : bool) | VTime (t : Z) | VNull.

Inductive statement : Type :=
| DeleteSchedules | InsertSchedule | UpsertGroupState | UpdateGroup | DeleteGroupState
| UpsertUserState | UpsertUserRate | ClearUserRate | DropUserRate | DeleteUserState
| SelectManagedUsers.

(** The question marks in the text. *)
Definition placeholders (q : statement) : nat :=
  match q with
  | DeleteSchedules => 1 | InsertSchedule => 8 | UpsertGroupState => 5 | UpdateGroup => 3 | DeleteGroupState => 1
  | UpsertUserState => 6 | UpsertUserRate => 5 | ClearUserRate => 3 | DropUserRate => 2 | DeleteUserState => 2
  | SelectManagedUsers => 2
  end.

Definition nullable_float (v : value) : option (option float64) :=
  match v with VFloat x => Some (Some x) | VNull => Some None | _ => None end.
Definition nullable_int (v : value) : option (option Z) :=
  match v with VInt z => Some (Some z) | VNull => Some None | _ => None end.

Section Repository.
(** What the database makes of arguments of other types than those of the columns. *)
Variable converted : statement -> list value -> rate_tables -> outcome unit * rate_tables.

Definition done_with (db : rate_tables) : outcome unit * rate_tables := (Success tt, db).

(** The effect with arguments of the columns' types. *)
Definition effect_of (q : statement) (args : list value) (db : rate_tables) : option rate_tables :=
  match q, args with
  | DeleteSchedules, [VInt g] => Some (db <| rows := List.filter (fun s => negb (GroupID s =? g)) (rows db) |>)
  | InsertSchedule, [VInt g; target; VInt a; VInt b; VFloat m; VBool e; VTime _; VTime _] =>
      target ← nullable_int target;
      Some (db <| rows := (rows db ++ [mkSchedule (next_row db) g target a b m e])%list |> <| next_row := next_row db + 1 |>)
  | UpsertGroupState, [VInt g; VFloat base; VInt sid; VTime _; VTime _] =>
      Some (db <| group_states := <[g := (match group_states db !! g with Some (old, _) => old | None => base end, sid)]> (group_states db) |>)
  | UpdateGroup, [VFloat m; VTime _; VInt g] => Some (db <| groups := alter (fun _ => m) g (groups db) |>)
  | DeleteGroupState, [VInt g] => Some (db <| group_states := delete g (group_states db) |>)
  | UpsertUserState, [VInt g; VInt u; base; VInt sid; VTime _; VTime _] =>
      base ← nullable_float base;
      Some (db <| user_states := <[(g, u) := (match user_states db !! (g, u) with Some (old, _) => old | None => base end, sid)]> (user_states db) |>)
  | UpsertUserRate, [VInt u; VInt g; VFloat m; VTime _; VTime _] =>
      Some (db <| user_rates := <[(g, u) := (Some m, match user_rates db !! (g, u) with Some (_, rpm) => rpm | None => false end)]> (user_rates db) |>)
  | ClearUserRate, [VTime _; VInt g; VInt u] => Some (db <| user_rates := alter (fun r => (None, snd r)) (g, u) (user_rates db) |>)
  | DropUserRate, [VInt g; VInt u] =>
      Some (match user_rates db !! (g, u) with
            | Some (None, false) => db <| user_rates := delete (g, u) (user_rates db) |>
            | _ => db
            end)
  | DeleteUserState, [VInt g; VInt u] => Some (db <| user_states := delete (g, u) (user_states db) |>)
  | _, _ => None
  end.

(** What database/sql does first, for ExecContext and QueryContext alike. *)
Definition wrong_arity (q : statement) (args : list value) : option error :=
  if (length args =? placeholders q)%nat then None
  else Some (OtherError ("sql: expected " +:+ pretty (Z.of_nat (placeholders q)) +:+ " arguments, got " +:+ pretty (Z.of_nat (length args)))).

(** ExecContext. *)
Definition exec (q : statement) (args : list value) (db : rate_tables) : outcome unit * rate_tables :=
  match wrong_arity q args with
  | Some e => (Failure e, db)
  | None =>
      match effect_of q args db with Some db' => done_with db' | None => converted q args db end
  end.

(** [f] after [e]; the first failure ends it. *)
Definition and_then {A B} (e : outcome A * rate_tables) (f : A -> rate_tables -> outcome B * rate_tables) : outcome B * rate_tables :=
  match e with
  | (Success a, db) => f a db
  | (Failure x, db) => (Failure x, db)
  end.

(** A transaction that fails is rolled back. *)
Definition transaction {A} (body : rate_tables -> outcome A * rate_tables) (db : rate_tables) : outcome A * rate_tables :=
  match body db with
  | (Success a, db') => (Success a, db')
  | (Failure e, _) => (Failure e, db)
  end.

(** ** The repository *)

Definition ErrGroupNotFound : error := NotFound "GROUP_NOT_FOUND" "group not found".
Definition groupRateScheduleMultiplierEpsilon : float64 := f64_ratio 1 10000000.
Definition mathAbs (v : float64) : float64 := if SFltb v f64_zero then SFopp v else v.

Definition multiplier_changed (current target : float64) : bool :=
  SFltb groupRateScheduleMultiplierEpsilon (mathAbs (f64_sub current target)).

Definition nullFloatChanged (a b : option float64) : bool :=
  match a, b with
  | Some a, Some b => multiplier_changed a b
  | None, None => false
  | _, _ => true
  end.

(** The rows of a group; ORDER BY only orders them. *)
Definition ListByGroupID (groupID : Z) (db : rate_tables) : list GroupRateSchedule :=
  List.filter (fun s => GroupID s =? groupID) (rows db).
Definition live (db : rate_tables) (g : Z) : bool := bool_decide (is_Some (groups db !! g)).
Definition ListEnabled (db : rate_tables) : list GroupRateSchedule :=
  List.filter (fun s => Enabled s && live db (GroupID s)) (rows db).
Definition ListManagedGroupIDs (db : rate_tables) : list Z :=
  remove_dups (List.filter (live db)
    (map GroupID (List.filter Enabled (rows db)) ++ map fst (map_to_list (group_states db)) ++ map (fun r => fst (fst r)) (map_to_list (user_states db)))).
Definition ListManagedTargetUserIDs (groupID : Z) (db : rate_tables) : outcome (list Z) :=
  match wrong_arity SelectManagedUsers [VInt groupID] with
  | Some e => Failure e
  | None =>
      Success (remove_dups (List.filter (fun u => bool_decide (u ∈ users db))
        (omap TargetUserID (List.filter (fun s => Enabled s && (GroupID s =? groupID)) (rows db)) ++
         map (fun r => snd (fst r)) (List.filter (fun r => fst (fst r) =? groupID) (map_to_list (user_states db))))))
  end.

Fixpoint insert_all (groupID : Z) (l : list GroupRateScheduleInput) (now : Z) (db : rate_tables) : outcome unit * rate_tables :=
  match l with
  | [] => done_with db
  | s :: l =>
      and_then (exec InsertSchedule
                  [VInt groupID; match in_TargetUserID s with Some u => VInt u | None => VNull end; VInt (in_StartMinute s);
                   VInt (in_EndMinute s); VFloat (in_RateMultiplier s); VBool (in_Enabled s); VTime now] db)
        (fun _ db => insert_all groupID l now db)
  end.

Definition ReplaceForGroup (groupID : Z) (l : list GroupRateScheduleInput) (now : Z) : rate_tables -> outcome (list GroupRateSchedule) * rate_tables :=
  transaction (fun db =>
    if negb (live db groupID) then (Failure ErrGroupNotFound, db) else
    and_then (exec DeleteSchedules [VInt groupID] db) (fun _ db =>
    and_then (insert_all groupID l now db) (fun _ db => (Success (ListByGroupID groupID db), db)))).

Definition ApplyScheduledMultiplier (groupID scheduleID : Z) (rateMultiplier : float64) (now : Z) : rate_tables -> outcome bool * rate_tables :=
  transaction (fun db =>
    match groups db !! groupID with
    | None => (Failure ErrGroupNotFound, db)
    | Some currentMultiplier =>
        and_then (exec UpsertGroupState [VInt groupID; VFloat currentMultiplier; VInt scheduleID; VTime now] db) (fun _ db =>
        let changed := multiplier_changed currentMultiplier rateMultiplier in
        if changed then and_then (exec UpdateGroup [VInt groupID; VFloat rateMultiplier; VTime now] db) (fun _ db => (Success changed, db))
        else (Success changed, db))
    end).

Definition RestoreBaseMultiplier (groupID : Z) (now : Z) : rate_tables -> outcome bool * rate_tables :=
  transaction (fun db =>
    match group_states db !! groupID with
    | None => (Success false, db)
    | Some (baseMultiplier, _) =>
        match groups db !! groupID with
        | None => (Failure ErrGroupNotFound, db)
        | Some currentMultiplier =>
            let changed := multiplier_changed currentMultiplier baseMultiplier in
            and_then (if changed then exec UpdateGroup [VInt groupID; VFloat baseMultiplier; VTime now] db else done_with db) (fun _ db =>
            and_then (exec DeleteGroupState [VInt groupID] db) (fun _ db => (Success changed, db)))
        end
    end).

(** The multiplier of a user, if the row exists and it is not null. *)
Definition user_rate (db : rate_tables) (groupID userID : Z) : option float64 :=
  match user_rates db !! (groupID, userID) with Some (m, _) => m | None => None end.

Definition ApplyScheduledUserMultiplier (groupID userID scheduleID : Z) (rateMultiplier : float64) (now : Z) : rate_tables -> outcome bool * rate_tables :=
  transaction (fun db =>
    let currentMultiplier := user_rate db groupID userID in
    let baseMultiplier := match currentMultiplier with Some m => VFloat m | None => VNull end in
    and_then (exec UpsertUserState [VInt groupID; VInt userID; baseMultiplier; VInt scheduleID; VTime now] db) (fun _ db =>
    let changed := match currentMultiplier with None => true | Some m => multiplier_changed m rateMultiplier end in
    if changed then and_then (exec UpsertUserRate [VInt userID; VInt groupID; VFloat rateMultiplier; VTime now] db) (fun _ db => (Success changed, db))
    else (Success changed, db))).

Definition RestoreBaseUserMultiplier (groupID userID : Z) (now : Z) : rate_tables -> outcome bool * rate_tables :=
  transaction (fun db =>
    match user_states db !! (groupID, userID) with
    | None => (Success false, db)
    | Some (baseMultiplier, _) =>
        let changed := nullFloatChanged (user_rate db groupID userID) baseMultiplier in
        and_then
          (if changed then
             match baseMultiplier with
             | Some m => exec UpsertUserRate [VInt userID; VInt groupID; VFloat m; VTime now] db
             | None =>
                 and_then (exec ClearUserRate [VInt groupID; VInt userID; VTime now] db) (fun _ db =>
                 exec DropUserRate [VInt groupID; VInt userID] db)
             end
           else done_with db) (fun _ db =>
        and_then (exec DeleteUserState [VInt groupID; VInt userID] db) (fun _ db => (Success changed, db)))
    end).

(** ** The service *)

Definition invalidate (changed : bool) (groupID : Z) (db : rate_tables) : rate_tables :=
  if changed then db <| invalidated := groupID :: invalidated db |> else db.

Definition applyUserLocked (groupID userID : Z) (schedules : list GroupRateSchedule) (currentMinute now : Z) (db : rate_tables)
    : outcome unit * rate_tables :=
  and_then
    (match findActiveGroupRateSchedule schedules currentMinute with
     | None => RestoreBaseUserMultiplier groupID userID now db
     | Some active => ApplyScheduledUserMultiplier groupID userID (schedule_ID active) (RateMultiplier active) now db
     end)
    (fun changed db => done_with (invalidate changed groupID db)).

(** The failure of one user is logged. *)
Fixpoint apply_users (groupID : Z) (us : list Z) (userSchedules : Z -> list GroupRateSchedule) (currentMinute now : Z) (db : rate_tables) : rate_tables :=
  match us with
  | [] => db
  | u :: us => apply_users groupID us userSchedules currentMinute now (snd (applyUserLocked groupID u (userSchedules u) currentMinute now db))
  end.

Definition applyGroupLocked (groupID : Z) (schedules : list GroupRateSchedule) (currentMinute now : Z) (db : rate_tables)
    : outcome unit * rate_tables :=
  let groupSchedules := List.filter (fun s => match TargetUserID s with None => true | Some _ => false end) schedules in
  let userSchedules := fun u => List.filter (fun s => match TargetUserID s with Some v => (0 <? v) && (v =? u) | None => false end) schedules in
  and_then
    (match findActiveGroupRateSchedule groupSchedules currentMinute with
     | None => RestoreBaseMultiplier groupID now db
     | Some active => ApplyScheduledMultiplier groupID (schedule_ID active) (RateMultiplier active) now db
     end)
    (fun changed db =>
       let db := invalidate changed groupID db in
       match ListManagedTargetUserIDs groupID db with
       | Failure e => (Failure e, db)
       | Success managedUserIDs => done_with (apply_users groupID managedUserIDs userSchedules currentMinute now db)
       end).

Definition ApplyGroup (groupID currentMinute now : Z) (db : rate_tables) : outcome unit * rate_tables :=
  applyGroupLocked groupID (List.filter Enabled (ListByGroupID groupID db)) currentMinute now db.

(** The failure of one group is logged. *)
Fixpoint apply_groups (ids : list Z) (schedulesByGroup : Z -> list GroupRateSchedule) (currentMinute now : Z) (db : rate_tables) : rate_tables :=
  match ids with
  | [] => db
  | g :: ids => apply_groups ids schedulesByGroup currentMinute now (snd (applyGroupLocked g (schedulesByGroup g) currentMinute now db))
  end.

Definition ApplyOnce (currentMinute now : Z) (db : rate_tables) : outcome unit * rate_tables :=
  let enabledSchedules := ListEnabled db in
  let schedulesByGroup := fun g => List.filter (fun s => GroupID s =? g) enabledSchedules in
  done_with (apply_groups (ListManagedGroupIDs db) schedulesByGroup currentMinute now db).

Definition Replace (groupID : Z) (l : list GroupRateScheduleInput) (currentMinute now : Z) (db : rate_tables)
    : outcome (list GroupRateSchedule) * rate_tables :=
  if groupID <=? 0 then (Failure (BadRequest "INVALID_GROUP_ID" "group_id must be greater than 0"), db) else
  if negb (live db groupID) then (Failure ErrGroupNotFound, db) else
  match validateGroupRateSchedules l with
  | Some e => (Failure e, db)
  | None =>
      and_then (ReplaceForGroup groupID l now db) (fun updated db =>
      and_then (ApplyGroup groupID currentMinute now db) (fun _ db => (Success updated, db)))
  end.

Definition List_ (groupID : Z) (db : rate_tables) : outcome (list GroupRateSchedule) :=
  if groupID <=? 0 then Failure (BadRequest "INVALID_GROUP_ID" "group_id must be greater than 0") else
  if negb (live db groupID) then Failure ErrGroupNotFound else Success (ListByGroupID groupID db).
End Repository.

(** * What group rate schedules guarantee, and that none is ever applied

    Accepted schedules never overlap for a target, so the active one is unique.
    The statements that would store and apply them get too few arguments. *)

(** ** Ordered pairs *)

Lemma pairs_lookup {A} (R : A -> A -> Prop) l :
  ForallOrdPairs R l <-> (forall i j a b, (i < j)%nat -> l !! i = Some a -> l !! j = Some b -> R a b).
Proof.
  split.
  - intros H. induction H as [|x l Hx Hl IH]; intros i j a b Hij Ha Hb; [done|]. destruct j as [|j]; [lia|]. destruct i as [|i].
    + injection Ha as <-. cbn in Hb. eapply List.Forall_forall in Hx; [exact Hx|]. by eapply list_elem_of_In, list_elem_of_lookup_2.
    + apply (IH i j); [lia | done | done].
  - induction l as [|x l IH]; intros H; constructor.
    + apply List.Forall_forall. intros b Hb. apply list_elem_of_In, list_elem_of_lookup in Hb as [j Hj].
      by apply (H 0%nat (S j)); [lia | |].
    + apply IH. intros i j a b Hij Ha Hb. by apply (H (S i) (S j)); [lia | |].
Qed.

Lemma pairs_perm {A} (R : A -> A -> Prop) l l' : (forall a b, R a b -> R b a) -> Permutation l l' -> ForallOrdPairs R l -> ForallOrdPairs R l'.
Proof.
  intros Hs Hp. induction Hp as [|x l l' Hp IH|x y l|l1 l2 l3 H1 IH1 H2 IH2]; intros H; [done | | |auto].
  - inversion_clear H as [|? ? Hx Hl]. constructor; [|auto]. by eapply Permutation_Forall.
  - inversion_clear H as [|? ? Hy Hl]. inversion_clear Hl as [|? ? Hx Hl']. apply Forall_cons_1 in Hy as [Hyx Hyl].
    by repeat constructor; auto.
Qed.

(** A property of pairs of the same class, class by class. *)
Lemma pairs_by_class {A} (R : A -> A -> Prop) (key : A -> Z) l :
  ForallOrdPairs (fun a b => key a = key b -> R a b) l <-> (forall t, ForallOrdPairs R (List.filter (fun a => key a =? t) l)).
Proof.
  induction l as [|x l IH]; [by split; intros; constructor|]. split.
  - intros H t. inversion_clear H as [|? ? Hx Hl]. cbn [List.filter]. destruct (Z.eqb_spec (key x) t) as [<-|_]; [|by apply IH].
    constructor; [|by apply IH]. apply List.Forall_forall. intros b [Hb Ek]%filter_In. apply Z.eqb_eq in Ek.
    eapply List.Forall_forall in Hx; [|exact Hb]. auto.
  - intros H. constructor.
    + specialize (H (key x)). cbn [List.filter] in H. rewrite Z.eqb_refl in H. inversion_clear H as [|? ? Hx _].
      apply List.Forall_forall. intros b Hb Ek. eapply List.Forall_forall in Hx; [exact Hx|]. apply filter_In. by rewrite Ek, Z.eqb_refl.
    + apply IH. intros t. specialize (H t). cbn [List.filter] in H. destruct (key x =? t); [|done]. by inversion H.
Qed.

(** ** Validation *)

(** The minutes of a schedule: from its start up to, and without, its end. *)
Definition covers (s : GroupRateScheduleInput) (m : Z) : Prop := in_StartMinute s <= m < in_EndMinute s.

Definition well_formed (s : GroupRateScheduleInput) : Prop :=
  0 <= in_StartMinute s < in_EndMinute s /\ in_EndMinute s <= 1440 /\
  SFleb (in_RateMultiplier s) f64_zero = false /\ is_nan (in_RateMultiplier s) = false /\ is_inf (in_RateMultiplier s) = false /\
  (forall u, in_TargetUserID s = Some u -> 0 < u).

Definition apart (a b : GroupRateScheduleInput) : Prop := forall m, ~ (covers a m /\ covers b m).

Lemma validate_one_None i s : validate_one i s = None <-> well_formed s.
Proof.
  unfold validate_one, well_formed.
  destruct ((in_StartMinute s <? 0) || (1440 <=? in_StartMinute s)) eqn:E1; [split; [done | intros; lia]|].
  destruct ((in_EndMinute s <=? 0) || (1440 <? in_EndMinute s)) eqn:E2; [split; [done | intros; lia]|].
  destruct (in_EndMinute s <=? in_StartMinute s) eqn:E3; [split; [done | intros; lia]|].
  destruct (SFleb _ _); cbn [orb]; [naive_solver|]. destruct (is_nan _); cbn [orb]; [naive_solver|].
  destruct (is_inf _); [naive_solver|].
  destruct (in_TargetUserID s) as [u|].
  - destruct (Z.leb_spec u 0).
    + split; [done|]. intros (_ & _ & _ & _ & _ & H1). specialize (H1 u eq_refl). lia.
    + split; [|done]. intros _. split_and!; try done; try lia. by intros v [= <-].
  - split; [|done]. intros _. by split_and!; try lia.
Qed.

Lemma validate_each_None l : forall i, validate_each i l = None <-> Forall well_formed l.
Proof.
  induction l as [|s l IH]; intros i; cbn [validate_each]; [done|]. rewrite Forall_cons, <- (validate_one_None i s), <- (IH (i + 1)).
  destruct (validate_one i s); naive_solver.
Qed.

Lemma apart_sym a b : apart a b -> apart b a.
Proof. intros H m [Ha Hb]. by apply (H m). Qed.

Lemma insert_input_perm s l : Permutation (insert_schedule_input s l) (s :: l).
Proof.
  induction l as [|t l IH]; cbn; [done|]. destruct (schedule_before t s); [|done].
  etransitivity; [by apply perm_skip | apply perm_swap].
Qed.

Lemma sort_perm l : Permutation (sort_schedules l) l.
Proof. induction l as [|s l IH]; cbn; [done|]. etransitivity; [apply insert_input_perm | by apply perm_skip]. Qed.

Definition starts_before (a b : GroupRateScheduleInput) : Prop := in_StartMinute a <= in_StartMinute b.

Lemma before_starts a b : schedule_before a b = true -> starts_before a b.
Proof. unfold schedule_before, starts_before. destruct (Z.eqb_spec (in_StartMinute a) (in_StartMinute b)); lia. Qed.

Lemma not_before_starts a b : schedule_before a b = false -> starts_before b a.
Proof. unfold schedule_before, starts_before. destruct (Z.eqb_spec (in_StartMinute a) (in_StartMinute b)); lia. Qed.

Lemma insert_input_sorted s l : Sorted starts_before l -> Sorted starts_before (insert_schedule_input s l).
Proof.
  induction l as [|t l IH]; intros H; cbn; [by repeat constructor|]. destruct (schedule_before t s) eqn:E.
  - apply Sorted_inv in H as [Hl Hh]. constructor; [by apply IH|]. destruct l as [|u l]; cbn; [constructor; by apply before_starts|].
    destruct (schedule_before u s); constructor; [by inversion Hh | by apply before_starts].
  - constructor; [done|]. constructor. by apply not_before_starts.
Qed.

Lemma sort_sorted l : Sorted starts_before (sort_schedules l).
Proof. induction l as [|s l IH]; cbn; [constructor | by apply insert_input_sorted]. Qed.

Lemma neighbours_tail a l : neighbours_overlap (a :: l) = false -> neighbours_overlap l = false.
Proof. destruct l as [|b l]; [done|]. intros H. exact (proj2 (orb_false_elim _ _ H)). Qed.

(** In the order of their starts, neighbours are enough. *)
Lemma neighbours_apart l : Forall (fun s => in_StartMinute s < in_EndMinute s) l -> Sorted starts_before l ->
  neighbours_overlap l = false <-> ForallOrdPairs apart l.
Proof.
  intros Hw Hs. split.
  - clear Hs. intros Hn. enough (H : StronglySorted (fun a b => in_EndMinute a <= in_StartMinute b) l).
    { induction H as [|a l _ IH Ha]; [constructor|]. inversion_clear Hw as [|? ? _ Hw'].
      constructor; [|apply neighbours_tail in Hn; auto].
      eapply Forall_impl; [exact Ha|]. intros b Hb m [[_ H1] [H2 _]]. cbn in Hb. lia. }
    induction l as [|a l IH]; [constructor|]. inversion_clear Hw as [|? ? Ha Hw'].
    pose proof (neighbours_tail _ _ Hn) as Hn'.
    specialize (IH Hw' Hn'). constructor; [done|]. destruct l as [|b l]; [constructor|].
    assert (Hab : in_EndMinute a <= in_StartMinute b) by (apply orb_false_elim in Hn as [Hn _]; lia).
    inversion_clear IH as [|? ? _ Hb]. inversion_clear Hw' as [|? ? Hbw _]. constructor; [done|].
    eapply Forall_impl; [exact Hb|]. intros c Hc. cbn in Hc. lia.
  - induction Hs as [|a l Hl IH Hh]; intros H; [done|]. inversion_clear Hw as [|? ? Ha Hw']. inversion_clear H as [|? ? Hap Hp].
    destruct l as [|b l]; [done|]. apply orb_false_intro; [|by apply IH].
    inversion_clear Hh as [|? ? Hab]. inversion_clear Hw' as [|? ? Hb _]. inversion_clear Hap as [|? ? Habp _]. unfold starts_before in Hab.
    destruct (Z.ltb_spec (in_StartMinute b) (in_EndMinute a)); [|done]. exfalso. apply (Habp (in_StartMinute b)). unfold covers. lia.
Qed.

Lemma overlap_targets l : Forall well_formed l ->
  existsb (fun t => neighbours_overlap (sort_schedules (for_target t l))) (targets l) = false <->
  ForallOrdPairs (fun a b => targetKey a = targetKey b -> apart a b) l.
Proof.
  intros Hw. rewrite (pairs_by_class apart targetKey l).
  assert (Hone : forall t, neighbours_overlap (sort_schedules (for_target t l)) = false <-> ForallOrdPairs apart (for_target t l)).
  { intros t. rewrite neighbours_apart; [|eapply Permutation_Forall; [symmetry; apply sort_perm|] | apply sort_sorted].
    - split; apply pairs_perm; try apply apart_sym; [|symmetry]; apply sort_perm.
    - apply List.Forall_forall. intros s [Hs _]%filter_In. eapply List.Forall_forall in Hw; [|exact Hs]. by destruct Hw as [[_ ?] _]. }
  split.
  - intros H t. apply Hone. destruct (decide (t ∈ targets l)) as [Ht|Ht].
    + destruct (neighbours_overlap _) eqn:E; [|done]. rewrite <- H. symmetry. apply existsb_exists. exists t. split; [by apply list_elem_of_In | done].
    + replace (for_target t l) with (@nil GroupRateScheduleInput); [done|]. unfold for_target. symmetry.
      destruct (List.filter _ l) as [|s r] eqn:E; [done|]. destruct Ht. unfold targets. apply elem_of_remove_dups, list_elem_of_In, in_map_iff.
      assert (Hs : In s (s :: r)) by by left. rewrite <- E in Hs. apply filter_In in Hs as [Hs Ek]. apply Z.eqb_eq in Ek. by exists s.
  - intros H. destruct (existsb _ _) eqn:E; [|done]. apply existsb_exists in E as (t & _ & E). rewrite <- E. apply Hone, H.
Qed.

(** ** The active schedule *)

(** The input a stored row came from. *)
Definition input_of (s : GroupRateSchedule) : GroupRateScheduleInput :=
  mkInput (TargetUserID s) (StartMinute s) (EndMinute s) (RateMultiplier s) (Enabled s).

Lemma active_spec l m : match findActiveGroupRateSchedule l m with
  | Some s => s ∈ l /\ Enabled s = true /\ covers (input_of s) m
  | None => forall s, s ∈ l -> Enabled s = true -> ~ covers (input_of s) m
  end.
Proof.
  induction l as [|s l IH]; cbn [findActiveGroupRateSchedule]; [by intros s Hs%not_elem_of_nil|]. destruct (Enabled s) eqn:Ee; cbn [negb].
  - destruct (_ && _) eqn:Ec.
    + split; [by left|]. split; [done|]. unfold covers. cbn. lia.
    + destruct (findActiveGroupRateSchedule l m) as [x|]; [by destruct IH as [Hx IH]; split; [right|]|].
      intros x [->|Hx]%elem_of_cons Hen; [|by apply IH]. unfold covers. cbn. lia.
  - destruct (findActiveGroupRateSchedule l m) as [x|]; [by destruct IH as [Hx IH]; split; [right|]|].
    intros x [->|Hx]%elem_of_cons Hen; [congruence | by apply IH].
Qed.

Definition same_target (a b : GroupRateScheduleInput) : Prop := targetKey a = targetKey b.

Lemma validated_apart l : validateGroupRateSchedules l = None <->
  Forall well_formed l /\ ForallOrdPairs (fun a b => same_target a b -> apart a b) l.
Proof.
  unfold validateGroupRateSchedules. destruct (validate_each 0 l) as [e|] eqn:E.
  - split; [done|]. intros [Hw _]. apply (validate_each_None l 0) in Hw. congruence.
  - apply validate_each_None in E. rewrite <- (overlap_targets l E). destruct (existsb _ _); naive_solver.
Qed.

(** C25: schedules are accepted exactly if each is well formed and no minute of
    the day is covered by two schedules of the same target; so, of the rows
    stored for a target, the active one at any minute is the only enabled one
    that covers it, in whatever order they are read. *)
Theorem accepted_schedules_disjoint l :
  (validateGroupRateSchedules l = None <->
   Forall well_formed l /\
   (forall i j a b m, (i < j)%nat -> l !! i = Some a -> l !! j = Some b -> same_target a b -> ~ (covers a m /\ covers b m))) /\
  (validateGroupRateSchedules l = None -> forall rows m s,
     Permutation (map input_of rows) l -> (forall a b, a ∈ rows -> b ∈ rows -> TargetUserID a = TargetUserID b) ->
     findActiveGroupRateSchedule rows m = Some s <-> s ∈ rows /\ Enabled s = true /\ covers (input_of s) m).
Proof.
  split.
  - rewrite validated_apart, pairs_lookup. split; intros [Hw H]; (split; [done|]).
    + intros i j a b m Hij Ha Hb Ht. by apply (H i j a b).
    + intros i j a b Hij Ha Hb Ht m. by apply (H i j a b).
  - intros [_ Hp]%validated_apart rows m s Hperm Hone. pose proof (active_spec rows m) as Ha.
    destruct (findActiveGroupRateSchedule rows m) as [x|]; [|split; [done|]; intros (Hs & He & Hc); by destruct (Ha s Hs He)].
    split; [by intros [= <-]|]. intros (Hs & He & Hc). destruct Ha as (Hx & Hex & Hcx). f_equal.
    assert (Hq : ForallOrdPairs (fun a b => same_target a b -> apart a b) (map input_of rows)).
    { eapply pairs_perm; [|symmetry; exact Hperm | exact Hp]. intros a b H Ht. apply apart_sym, H. by symmetry. }
    rewrite pairs_lookup in Hq. apply list_elem_of_lookup in Hs as [i Hi], Hx as [j Hj].
    assert (Hlook : forall k r, rows !! k = Some r -> map input_of rows !! k = Some (input_of r)).
    { intros k r Hk. rewrite list_lookup_fmap. by rewrite Hk. }
    assert (Ht : same_target (input_of s) (input_of x)).
    { unfold same_target, targetKey. cbn. f_equal. apply Hone; by eapply list_elem_of_lookup_2. }
    destruct (Nat.lt_trichotomy i j) as [Hij|[->|Hij]]; [exfalso | congruence | exfalso].
    + eapply (Hq i j); [done | by apply Hlook | by apply Hlook | done | by split].
    + eapply (Hq j i); [done | by apply Hlook | by apply Hlook | by symmetry | by split].
Qed.

(** ** Statements with too few arguments *)

Section Inert.
Variable converted : statement -> list value -> rate_tables -> outcome unit * rate_tables.

(** The call fails and leaves the tables. *)
Definition refused {A} (e : outcome A * rate_tables) (db : rate_tables) : Prop := (exists x, fst e = Failure x) /\ snd e = db.

(** Nothing is stored and nothing applied. *)
Definition unused (db : rate_tables) : Prop := rows db = [] /\ group_states db = ∅ /\ user_states db = ∅.

Lemma insert_refused groupID s l now db : refused (insert_all converted groupID (s :: l) now db) db.
Proof. split; [by eexists | done]. Qed.

Lemma delete_none groupID db : rows db = [] -> exec converted DeleteSchedules [VInt groupID] db = (Success tt, db).
Proof. intros H. destruct db. cbn in *. by subst. Qed.

Lemma apply_group_refused groupID sid m now db : refused (ApplyScheduledMultiplier converted groupID sid m now db) db.
Proof. unfold ApplyScheduledMultiplier, transaction. by destruct (groups db !! groupID); split; [eexists | | eexists |]. Qed.

Lemma apply_user_refused groupID userID sid m now db : refused (ApplyScheduledUserMultiplier converted groupID userID sid m now db) db.
Proof. split; [by eexists | done]. Qed.

Lemma restore_group_idle groupID now db : unused db -> RestoreBaseMultiplier converted groupID now db = (Success false, db).
Proof. intros (_ & H & _). unfold RestoreBaseMultiplier, transaction. by rewrite H, lookup_empty. Qed.

Lemma apply_group_locked_refused groupID l minute now db : unused db -> refused (applyGroupLocked converted groupID l minute now db) db.
Proof.
  intros Hu. unfold applyGroupLocked. destruct (findActiveGroupRateSchedule _ _) as [s|].
  - destruct (apply_group_refused groupID (schedule_ID s) (RateMultiplier s) now db) as [[x Hx] Hdb].
    destruct (ApplyScheduledMultiplier _ _ _ _ _ db) as [r db']. cbn in Hx, Hdb. subst. split; [by eexists | done].
  - rewrite restore_group_idle by done. split; [by eexists | done].
Qed.

Lemma apply_groups_idle ids by_group minute now db : unused db -> apply_groups converted ids by_group minute now db = db.
Proof.
  intros Hu. induction ids as [|g ids IH]; [done|]. cbn [apply_groups].
  destruct (apply_group_locked_refused g (by_group g) minute now db Hu) as [_ ->]. exact IH.
Qed.

Lemma replace_refused groupID l minute now db : unused db -> refused (Replace converted groupID l minute now db) db.
Proof.
  intros Hu. unfold Replace. destruct (groupID <=? 0); [by split; [eexists|]|]. destruct (live db groupID) eqn:Hl; [|by split; [eexists|]].
  cbn [negb]. destruct (validateGroupRateSchedules l); [by split; [eexists|]|]. unfold ReplaceForGroup, transaction. rewrite Hl. cbn [negb].
  rewrite delete_none by apply Hu. cbn [and_then]. destruct l as [|s l].
  - cbn [insert_all done_with and_then].
    destruct (apply_group_locked_refused groupID (List.filter Enabled (ListByGroupID groupID db)) minute now db Hu) as [[x Hx] Hdb].
    unfold ApplyGroup. destruct (applyGroupLocked _ _ _ _ _ db) as [r db']. cbn in Hx, Hdb. subst. by split; [eexists|].
  - destruct (insert_refused groupID s l now db) as [[x Hx] _]. destruct (insert_all converted groupID (s :: l) now db) as [r db'].
    cbn in Hx. subst. by split; [eexists|].
Qed.

(** The calls of the service that change tables. *)
Inductive service_call : Type :=
| CallReplace (groupID : Z) (l : list GroupRateScheduleInput) (minute now : Z)
| CallApplyGroup (groupID minute now : Z)
| CallApplyOnce (minute now : Z).

Definition perform (db : rate_tables) (c : service_call) : rate_tables :=
  match c with
  | CallReplace groupID l minute now => snd (Replace converted groupID l minute now db)
  | CallApplyGroup groupID minute now => snd (ApplyGroup converted groupID minute now db)
  | CallApplyOnce minute now => snd (ApplyOnce converted minute now db)
  end.
End Inert.

(** The feature does nothing: where no schedules are stored, whatever the
    administrator configures and however often the timer runs, every attempt to
    configure schedules fails and no table ever changes, because the statements
    that store a schedule, keep the base multiplier and list the managed users
    have more placeholders than arguments. *)
Theorem schedules_never_applied converted calls db : unused db ->
  foldl (perform converted) db calls = db /\
  (forall groupID l minute now, exists e, fst (Replace converted groupID l minute now db) = Failure e).
Proof.
  intros Hu. split.
  - induction calls as [|c calls IH]; [done|]. cbn [foldl]. replace (perform converted db c) with db; [exact IH|]. symmetry. destruct c; cbn [perform].
    + by apply replace_refused.
    + by apply apply_group_locked_refused.
    + by apply apply_groups_idle.
  - intros. by apply replace_refused.
Qed.

Definition one_group : rate_tables := mkRates {[3 := f64_of_Z 1]} ∅ [] 1 ∅ ∅ ∅ [].
Definition one_schedule : GroupRateScheduleInput := mkInput None 60 120 (f64_of_Z 2) true.

Lemma schedules_never_applied_witness : validateGroupRateSchedules [one_schedule] = None /\ live one_group 3 = true /\
  exists e, fst (Replace (fun _ _ db => (Success tt, db)) 3 [one_schedule] 90 0 one_group) = Failure e.
Proof.
  split; [vm_compute; reflexivity|]. split; [vm_compute; reflexivity|].
  exact (proj2 (schedules_never_applied (fun _ _ db => (Success tt, db)) [] one_group (conj eq_refl (conj eq_refl eq_refl))) 3 [one_schedule] 90 0).
Defined.

Lemma accepted_schedules_disjoint_witness :
  findActiveGroupRateSchedule [mkSchedule 1 3 None 60 120 (f64_of_Z 2) true] 90 = Some (mkSchedule 1 3 None 60 120 (f64_of_Z 2) true).
Proof.
  apply (proj2 (accepted_schedules_disjoint [one_schedule])).
  - vm_compute. reflexivity.
  - apply Permutation_refl.
  - intros a b ->%list_elem_of_singleton ->%list_elem_of_singleton. reflexivity.
  - split; [by left|]. split; [reflexivity|]. unfold covers. cbn. lia.
Defined.
