(* ===== verification/AnthropicGrammar.v ===== *)
(** * The grammar of an Anthropic event stream

    The protocol the Anthropic clients expect and the Anthropic upstreams
    speak, as an acceptor: what [ResponsesToAnthropic] promises about its
    output and what [AnthropicToResponsesResponse] assumes of its input. *)

From S2P Require Import Prelude GoStrings Json Types.

Inductive anth_state : Type :=
| AStart                                   (* nothing sent *)
| ABody (next : Z) (open : option string)  (* the index and type of the block *)
| ADelta                                   (* message_delta sent *)
| AStop.                                   (* message_stop sent *)

(** Which delta a block type may carry. *)
Definition delta_fits (block_type delta_type : string) : bool :=
  ((block_type =s? "text") && (delta_type =s? "text_delta")) ||
  ((block_type =s? "thinking") && ((delta_type =s? "thinking_delta") || (delta_type =s? "signature_delta"))) ||
  ((block_type =s? "tool_use") && (delta_type =s? "input_json_delta")).

Definition index_is (n : Z) (idx : option Z) : bool :=
  match idx with Some i => i =? n | None => false end.

Definition anth_step (q : anth_state) (e : AnthropicStreamEvent) : option anth_state :=
  let typ := ase_Type e in
  match q with
  | AStart => if (typ =s? "message_start") && is_some (ase_Message e) then Some (ABody 0 None) else None
  | ABody n None =>
      if typ =s? "content_block_start" then
        match ase_ContentBlock e with
        | Some b => if index_is n (ase_Index e) then Some (ABody n (Some (acb_Type b))) else None
        | None => None
        end
      else if typ =s? "message_delta" then
        if is_some (ase_Delta e) && is_some (ase_Usage e) then Some ADelta else None
      else None
  | ABody n (Some ty) =>
      if typ =s? "content_block_delta" then
        match ase_Delta e with
        | Some d => if index_is n (ase_Index e) && delta_fits ty (ad_Type d) then Some q else None
        | None => None
        end
      else if typ =s? "content_block_stop" then
        if index_is n (ase_Index e) then Some (ABody (add64 n 1) None) else None
      else None
  | ADelta => if typ =s? "message_stop" then Some AStop else None
  | AStop => None
  end.
