(* ===== verification/AnthropicToResponses.v ===== *)
(** * apicompat: Anthropic requests to Responses requests
      (internal/pkg/apicompat/anthropic_to_responses.go) *)

From S2P Require Import Prelude GoStrings Json Types Codec.

(** ** Call identifiers *)

(** toResponsesCallID converts an Anthropic tool ID to a Responses call ID. *)
Definition toResponsesCallID (id : string) : string :=
  if has_prefix id "fc_" then id else "fc_" +:+ id.

(** fromResponsesCallID strips the prefix toResponsesCallID added. *)
Definition fromResponsesCallID (id : string) : string :=
  match cut_prefix id "fc_" with
  | Some after =>
      if has_prefix after "toolu_" || has_prefix after "call_" then after else id
  | None => id
  end.

(** ** Images and tool results *)

Definition anthropicImageToDataURI (src : option AnthropicImageSource) : string :=
  match src with
  | None => ""
  | Some src =>
      if ais_Data src =s? "" then ""
      else
        let mediaType := if ais_MediaType src =s? "" then "image/png" else ais_MediaType src in
        "data:" +:+ mediaType +:+ ";base64," +:+ ais_Data src
  end.

(** The [case "image"] of both loops that collect parts. *)
Definition image_part (b : AnthropicContentBlock) : list ResponsesContentPart :=
  let uri := anthropicImageToDataURI (acb_Source b) in
  if uri =s? "" then [] else
  [zero_ResponsesContentPart <| rcp_Type := "input_image" |> <| rcp_ImageURL := uri |>].

(** extractAnthropicTextFromBlocks joins all text blocks. *)
Definition text_of_block (b : AnthropicContentBlock) : list string :=
  if (acb_Type b =s? "text") && (acb_Text b <>s? "") then [acb_Text b] else [].

Definition extractAnthropicTextFromBlocks (blocks : list AnthropicContentBlock) : string :=
  join (concat (map text_of_block blocks)) (String newline (String newline "")).

Definition convertToolResultOutput (b : AnthropicContentBlock) : string * list ResponsesContentPart :=
  if acb_Content b =s? "" then ("(empty)", []) else
  match unmarshal dec_string "" (acb_Content b) with
  | Ok s => (if s =s? "" then "(empty)" else s, [])
  | Err _ =>
      match unmarshal (dec_slice dec_AnthropicContentBlock zero_AnthropicContentBlock) [] (acb_Content b) with
      | Err _ => ("(empty)", [])
      | Ok inner =>
          let textParts := concat (map text_of_block inner) in
          let imageParts := concat (map (fun ib => if acb_Type ib =s? "image" then image_part ib else []) inner) in
          let text := join textParts (String newline (String newline "")) in
          (if text =s? "" then "(empty)" else text, imageParts)
      end
  end.

(** ** Messages *)

Definition parseAnthropicSystemPrompt (raw : RawMessage) : result string :=
  match unmarshal dec_string "" raw with
  | Ok s => Ok s
  | Err _ =>
      blocks ← unmarshal (dec_slice dec_AnthropicContentBlock zero_AnthropicContentBlock) [] raw;
      mret (join (concat (map text_of_block blocks)) (String newline (String newline "")))
  end.

(** One [tool_result] block: its [function_call_output] item and the images
    that travel in the user message. *)
Definition tool_result_item (b : AnthropicContentBlock) : list (ResponsesInputItem * list ResponsesContentPart) :=
  if acb_Type b <>s? "tool_result" then [] else
  let '(outputText, imageParts) := convertToolResultOutput b in
  [(zero_ResponsesInputItem <| rii_Type := "function_call_output" |>
      <| rii_CallID := toResponsesCallID (acb_ToolUseID b) |>
      <| rii_Output := jsonRawString outputText |>, imageParts)].

Definition user_part (b : AnthropicContentBlock) : list ResponsesContentPart :=
  if acb_Type b =s? "text" then
    if acb_Text b =s? "" then [] else
    [zero_ResponsesContentPart <| rcp_Type := "input_text" |> <| rcp_Text := acb_Text b |>]
  else if acb_Type b =s? "image" then image_part b
  else [].

Definition enc_parts (parts : list ResponsesContentPart) : Enc := enc_slice enc_ResponsesContentPart parts.

Definition anthropicUserToResponses (raw : RawMessage) : result (list ResponsesInputItem) :=
  match unmarshal dec_string "" raw with
  | Ok s =>
      let content := marshal_or_nil (enc_string s) in
      Ok [zero_ResponsesInputItem <| rii_Role := "user" |> <| rii_Content := content |>]
  | Err _ =>
      blocks ← unmarshal (dec_slice dec_AnthropicContentBlock zero_AnthropicContentBlock) [] raw;
      let results := concat (map tool_result_item blocks) in
      let out := map fst results in
      let toolResultImageParts := concat (map snd results) in
      let parts := (concat (map user_part blocks) ++ toolResultImageParts)%list in
      if nonempty parts then
        content ← marshal (enc_parts parts);
        mret (out ++ [zero_ResponsesInputItem <| rii_Role := "user" |> <| rii_Content := content |>])%list
      else mret out
  end.

(** One [tool_use] block: its [function_call] item. *)
Definition tool_use_item (b : AnthropicContentBlock) : list ResponsesInputItem :=
  if acb_Type b <>s? "tool_use" then [] else
  let args := if acb_Input b =s? "" then "{}" else acb_Input b in
  [zero_ResponsesInputItem <| rii_Type := "function_call" |>
     <| rii_CallID := toResponsesCallID (acb_ID b) |>
     <| rii_Name := acb_Name b |> <| rii_Arguments := jsonRawString args |>].

Definition assistant_item (text : string) : result ResponsesInputItem :=
  partsJSON ← marshal (enc_parts [zero_ResponsesContentPart <| rcp_Type := "output_text" |> <| rcp_Text := text |>]);
  mret (zero_ResponsesInputItem <| rii_Role := "assistant" |> <| rii_Content := partsJSON |>).

Definition anthropicAssistantToResponses (raw : RawMessage) : result (list ResponsesInputItem) :=
  match unmarshal dec_string "" raw with
  | Ok s => item ← assistant_item s; mret [item]
  | Err _ =>
      blocks ← unmarshal (dec_slice dec_AnthropicContentBlock zero_AnthropicContentBlock) [] raw;
      let text := extractAnthropicTextFromBlocks blocks in
      items ← (if text =s? "" then mret [] else item ← assistant_item text; mret [item]);
      mret (items ++ concat (map tool_use_item blocks))%list
  end.

Definition anthropicMsgToResponsesItems (m : AnthropicMessage) : result (list ResponsesInputItem) :=
  if am_Role m =s? "user" then anthropicUserToResponses (am_Content m)
  else if am_Role m =s? "assistant" then anthropicAssistantToResponses (am_Content m)
  else anthropicUserToResponses (am_Content m).

(** The loop over the messages: the first error ends it. *)
Fixpoint convert_messages {M} (f : M -> result (list ResponsesInputItem)) (msgs : list M)
    : result (list ResponsesInputItem) :=
  match msgs with
  | [] => Ok []
  | m :: msgs' => items ← f m; rest ← convert_messages f msgs'; mret (items ++ rest)%list
  end.

Definition convertAnthropicToResponsesInput (system : RawMessage) (msgs : list AnthropicMessage)
    : result (list ResponsesInputItem) :=
  out ← (if system =s? "" then mret [] else
         sysText ← parseAnthropicSystemPrompt system;
         if sysText =s? "" then mret [] else
         let content := marshal_or_nil (enc_string sysText) in
         mret [zero_ResponsesInputItem <| rii_Role := "system" |> <| rii_Content := content |>]);
  items ← convert_messages anthropicMsgToResponsesItems msgs;
  mret (out ++ items)%list.

(** ** Tools, tool choice and effort *)

Definition mapAnthropicEffortToResponses (effort : string) : string :=
  if effort =s? "max" then "xhigh" else effort.

Definition normalizeToolParameters (schema : RawMessage) : RawMessage :=
  if (schema =s? "") || (schema =s? "null") then dq "{'type':'object','properties':{}}" else
  match unmarshal dec_raw_map ∅ schema with
  | Err _ => schema
  | Ok m =>
      let typ := default "" (m !! "type") in
      if typ <>s? dq "'object'" then schema else
      match m !! "properties" with
      | Some _ => schema
      | None =>
          match marshal (enc_raw_map (<["properties" := "{}"]> m)) with
          | Err _ => schema
          | Ok out => out
          end
      end
  end.

Definition convertAnthropicToolsToResponses (tools : list AnthropicTool) : list ResponsesTool :=
  map (fun t =>
    if has_prefix (at_Type t) "web_search" then zero_ResponsesTool <| rt_Type := "web_search" |>
    else zero_ResponsesTool <| rt_Type := "function" |> <| rt_Name := at_Name t |>
           <| rt_Description := at_Description t |>
           <| rt_Parameters := normalizeToolParameters (at_InputSchema t) |>) tools.

(** The anonymous struct of convertAnthropicToolChoiceToResponses. *)
Record toolChoice : Type := mktoolChoice { tc_Type : string; tc_Name : string }.
Definition zero_toolChoice : toolChoice := mktoolChoice "" "".
#[export] Instance eta_toolChoice : Settable toolChoice := fun r => mktoolChoice (tc_Type r) (tc_Name r).
Definition dec_toolChoice : Dec toolChoice :=
  dec_struct [
    field "type" tc_Type (fun v r => r <| tc_Type := v |>) dec_string;
    field "name" tc_Name (fun v r => r <| tc_Name := v |>) dec_string].

(** A [map[string]any] or [map[string]string] with the keys "type" and
    "name"; keys are marshalled in order. *)
Definition enc_type_name (typ name : string) : Enc :=
  enc_object [mem "name" (enc_string name); mem "type" (enc_string typ)].

Definition convertAnthropicToolChoiceToResponses (raw : RawMessage) : result RawMessage :=
  tc ← unmarshal dec_toolChoice zero_toolChoice raw;
  if tc_Type tc =s? "auto" then marshal (enc_string "auto")
  else if tc_Type tc =s? "any" then marshal (enc_string "required")
  else if tc_Type tc =s? "none" then marshal (enc_string "none")
  else if tc_Type tc =s? "tool" then marshal (enc_type_name "function" (tc_Name tc))
  else Ok raw.

(** ** The request *)

(** [v := n; if v < minMaxOutputTokens { v = minMaxOutputTokens }] for a positive [n]. *)
Definition clampMaxOutputTokens (n : Z) : option Z :=
  if 0 <? n then Some (if n <? minMaxOutputTokens then minMaxOutputTokens else n) else None.

Definition AnthropicToResponses (req : AnthropicRequest) : result ResponsesRequest :=
  input ← convertAnthropicToResponsesInput (areq_System req) (areq_Messages req);
  inputJSON ← marshal (enc_slice enc_ResponsesInputItem input);
  let out := zero_ResponsesRequest
    <| rreq_Model := areq_Model req |> <| rreq_Input := inputJSON |>
    <| rreq_Temperature := areq_Temperature req |> <| rreq_TopP := areq_TopP req |>
    <| rreq_Stream := areq_Stream req |> <| rreq_Include := ["reasoning.encrypted_content"] |>
    <| rreq_Store := Some false |>
    <| rreq_MaxOutputTokens := clampMaxOutputTokens (areq_MaxTokens req) |> in
  let out := if nonempty (areq_Tools req)
             then out <| rreq_Tools := convertAnthropicToolsToResponses (areq_Tools req) |> else out in
  let effort := match areq_OutputConfig req with
                | Some oc => if aoc_Effort oc =s? "" then "high" else aoc_Effort oc
                | None => "high"
                end in
  let out := out <| rreq_Reasoning :=
    Some (mkResponsesReasoning (mapAnthropicEffortToResponses effort) "auto") |> in
  if areq_ToolChoice req =s? "" then mret out else
  tc ← wrap_err "convert tool_choice" (convertAnthropicToolChoiceToResponses (areq_ToolChoice req));
  mret (out <| rreq_ToolChoice := tc |>).
