(* ===== verification/ResponsesToAnthropic.v ===== *)
(** * apicompat: Responses output to Anthropic output
      (internal/pkg/apicompat/responses_to_anthropic.go)

    The non-streaming conversion and the stateful stream converter, with the
    grammar of the Anthropic event stream as an acceptor. *)

From S2P Require Import Prelude GoStrings Json Types Codec Streaming AnthropicToResponses.

(** ** Non-streaming *)

Definition anthropicUsageFromResponsesUsage (usage : option ResponsesUsage) : AnthropicUsage :=
  match usage with
  | None => zero_AnthropicUsage
  | Some usage =>
      let cachedTokens := match ru_InputTokensDetails usage with
                          | Some d => ritd_CachedTokens d
                          | None => 0
                          end in
      let inputTokens := sub64 (ru_InputTokens usage) cachedTokens in
      let inputTokens := if inputTokens <? 0 then 0 else inputTokens in
      zero_AnthropicUsage <| au_InputTokens := inputTokens |>
        <| au_OutputTokens := ru_OutputTokens usage |>
        <| au_CacheReadInputTokens := cachedTokens |>
  end.

Definition responsesStatusToAnthropicStopReason (status : string)
    (details : option ResponsesIncompleteDetails) (blocks : list AnthropicContentBlock) : string :=
  if status =s? "incomplete" then
    match details with
    | Some d => if rid_Reason d =s? "max_output_tokens" then "max_tokens" else "end_turn"
    | None => "end_turn"
    end
  else if status =s? "completed" then
    match last blocks with
    | Some b => if acb_Type b =s? "tool_use" then "tool_use" else "end_turn"
    | None => "end_turn"
    end
  else "end_turn".

Definition sanitizeAnthropicToolUseInput (name raw : string) : RawMessage :=
  if (name <>s? "Read") || (raw =s? "") then raw else
  match unmarshal dec_raw_map ∅ raw with
  | Err _ => raw
  | Ok input =>
      match input !! "pages" with
      | None => raw
      | Some pages =>
          if pages <>s? dq "''" then raw else
          match marshal (enc_raw_map (delete "pages" input)) with
          | Err _ => raw
          | Ok sanitized => sanitized
          end
      end
  end.

(** [json.Marshal(map[string]string{"query": query})] and
    [json.Marshal([]struct{}{})]. *)
Definition enc_query (query : string) : Enc := enc_object [mem "query" (enc_string query)].
Definition emptyResults : RawMessage := marshal_or_nil (enc_list []).

Definition web_search_query (item : ResponsesOutput) : string :=
  match ro_Action item with Some a => wsa_Query a | None => "" end.

Definition server_tool_use_block (item : ResponsesOutput) : AnthropicContentBlock :=
  zero_AnthropicContentBlock <| acb_Type := "server_tool_use" |>
    <| acb_ID := "srvtoolu_" +:+ ro_ID item |> <| acb_Name := "web_search" |>
    <| acb_Input := marshal_or_nil (enc_query (web_search_query item)) |>.

Definition web_search_result_block (item : ResponsesOutput) : AnthropicContentBlock :=
  zero_AnthropicContentBlock <| acb_Type := "web_search_tool_result" |>
    <| acb_ToolUseID := "srvtoolu_" +:+ ro_ID item |> <| acb_Content := emptyResults |>.

(** The [+=] over the summary texts, and the blocks of one output item. *)
Definition summary_text (l : list ResponsesSummary) : string :=
  foldl (fun acc s => if (rs_Type s =s? "summary_text") && (rs_Text s <>s? "") then acc +:+ rs_Text s else acc) "" l.

Definition text_blocks (parts : list ResponsesContentPart) : list AnthropicContentBlock :=
  concat (map (fun p =>
    if (rcp_Type p =s? "output_text") && (rcp_Text p <>s? "")
    then [zero_AnthropicContentBlock <| acb_Type := "text" |> <| acb_Text := rcp_Text p |>] else []) parts).

Definition output_blocks (item : ResponsesOutput) : list AnthropicContentBlock :=
  if ro_Type item =s? "reasoning" then
    let summaryText := summary_text (ro_Summary item) in
    if summaryText =s? "" then [] else
    [zero_AnthropicContentBlock <| acb_Type := "thinking" |> <| acb_Thinking := summaryText |>]
  else if ro_Type item =s? "message" then text_blocks (ro_Content item)
  else if ro_Type item =s? "function_call" then
    [zero_AnthropicContentBlock <| acb_Type := "tool_use" |>
       <| acb_ID := fromResponsesCallID (ro_CallID item) |> <| acb_Name := ro_Name item |>
       <| acb_Input := sanitizeAnthropicToolUseInput (ro_Name item) (ro_Arguments item) |>]
  else if ro_Type item =s? "web_search_call" then
    [server_tool_use_block item; web_search_result_block item]
  else [].

Definition ResponsesToAnthropic (resp : ResponsesResponse) (model : string) : AnthropicResponse :=
  let blocks := concat (map output_blocks (rres_Output resp)) in
  let blocks := if nonempty blocks then blocks
                else [zero_AnthropicContentBlock <| acb_Type := "text" |> <| acb_Text := "" |>] in
  zero_AnthropicResponse <| ares_ID := rres_ID resp |> <| ares_Type := "message" |>
    <| ares_Role := "assistant" |> <| ares_Model := model |> <| ares_Content := blocks |>
    <| ares_StopReason :=
         responsesStatusToAnthropicStopReason (rres_Status resp) (rres_IncompleteDetails resp) blocks |>
    <| ares_Usage := anthropicUsageFromResponsesUsage (rres_Usage resp) |>.

(** ** Streaming *)

Record ResponsesEventToAnthropicState : Type := mkResponsesEventToAnthropicState {
  MessageStartSent : bool;
  MessageStopSent : bool;
  ContentBlockIndex : Z;
  ContentBlockOpen : bool;
  CurrentBlockType : string;
  CurrentToolName : string;
  CurrentToolArgs : string;
  OutputIndexToBlockIdx : gmap Z Z;
  InputTokens : Z;
  OutputTokens : Z;
  CacheReadInputTokens : Z;
  ResponseID : string;
  Model : string;
  Created : Z
}.
#[export] Instance eta_ResponsesEventToAnthropicState : Settable ResponsesEventToAnthropicState := fun r =>
  mkResponsesEventToAnthropicState (MessageStartSent r) (MessageStopSent r) (ContentBlockIndex r)
    (ContentBlockOpen r) (CurrentBlockType r) (CurrentToolName r) (CurrentToolArgs r)
    (OutputIndexToBlockIdx r) (InputTokens r) (OutputTokens r) (CacheReadInputTokens r)
    (ResponseID r) (Model r) (Created r).

(** NewResponsesEventToAnthropicState at time [now]. *)
Definition NewResponsesEventToAnthropicState (now : Z) : ResponsesEventToAnthropicState :=
  mkResponsesEventToAnthropicState false false 0 false "" "" "" ∅ 0 0 0 "" "" now.

Abbreviation State := ResponsesEventToAnthropicState.
Abbreviation Event := AnthropicStreamEvent.

Definition block_start (idx : Z) (block : AnthropicContentBlock) : Event :=
  zero_AnthropicStreamEvent <| ase_Type := "content_block_start" |>
    <| ase_Index := Some idx |> <| ase_ContentBlock := Some block |>.
Definition block_delta (idx : Z) (delta : AnthropicDelta) : Event :=
  zero_AnthropicStreamEvent <| ase_Type := "content_block_delta" |>
    <| ase_Index := Some idx |> <| ase_Delta := Some delta |>.
Definition block_stop (idx : Z) : Event :=
  zero_AnthropicStreamEvent <| ase_Type := "content_block_stop" |> <| ase_Index := Some idx |>.
Definition message_delta (stopReason : string) (st : State) : Event :=
  zero_AnthropicStreamEvent <| ase_Type := "message_delta" |>
    <| ase_Delta := Some (zero_AnthropicDelta <| ad_StopReason := stopReason |>) |>
    <| ase_Usage := Some (zero_AnthropicUsage <| au_InputTokens := InputTokens st |>
                            <| au_OutputTokens := OutputTokens st |>
                            <| au_CacheReadInputTokens := CacheReadInputTokens st |>) |>.
Definition message_stop : Event := zero_AnthropicStreamEvent <| ase_Type := "message_stop" |>.

Definition closeCurrentBlock (st : State) : State * list Event :=
  if negb (ContentBlockOpen st) then (st, []) else
  let idx := ContentBlockIndex st in
  (st <| ContentBlockOpen := false |> <| ContentBlockIndex := add64 idx 1 |>
      <| CurrentToolName := "" |> <| CurrentToolArgs := "" |>,
   [block_stop idx]).

Definition resToAnthHandleCreated (evt : ResponsesStreamEvent) (st : State) : State * list Event :=
  let st := match rse_Response evt with
            | Some r =>
                let st := st <| ResponseID := rres_ID r |> in
                if Model st =s? "" then st <| Model := rres_Model r |> else st
            | None => st
            end in
  if MessageStartSent st then (st, []) else
  let st := st <| MessageStartSent := true |> in
  (st, [zero_AnthropicStreamEvent <| ase_Type := "message_start" |>
          <| ase_Message := Some (zero_AnthropicResponse <| ares_ID := ResponseID st |>
               <| ares_Type := "message" |> <| ares_Role := "assistant" |> <| ares_Content := [] |>
               <| ares_Model := Model st |>) |>]).

Definition resToAnthHandleOutputItemAdded (evt : ResponsesStreamEvent) (st : State) : State * list Event :=
  match rse_Item evt with
  | None => (st, [])
  | Some item =>
      if (ro_Type item =s? "function_call") || (ro_Type item =s? "custom_tool_call") then
        let '(st, events) := closeCurrentBlock st in
        let idx := ContentBlockIndex st in
        let st := st <| OutputIndexToBlockIdx := <[rse_OutputIndex evt := idx]> (OutputIndexToBlockIdx st) |>
                     <| ContentBlockOpen := true |> <| CurrentBlockType := "tool_use" |>
                     <| CurrentToolName := ro_Name item |> <| CurrentToolArgs := "" |> in
        (st, events ++ [block_start idx (zero_AnthropicContentBlock <| acb_Type := "tool_use" |>
                          <| acb_ID := fromResponsesCallID (ro_CallID item) |>
                          <| acb_Name := ro_Name item |> <| acb_Input := "{}" |>)])%list
      else if ro_Type item =s? "reasoning" then
        let '(st, events) := closeCurrentBlock st in
        let idx := ContentBlockIndex st in
        let st := st <| OutputIndexToBlockIdx := <[rse_OutputIndex evt := idx]> (OutputIndexToBlockIdx st) |>
                     <| ContentBlockOpen := true |> <| CurrentBlockType := "thinking" |> in
        (st, events ++ [block_start idx (zero_AnthropicContentBlock <| acb_Type := "thinking" |>)])%list
      else (st, [])
  end.

Definition resToAnthHandleTextDelta (evt : ResponsesStreamEvent) (st : State) : State * list Event :=
  if rse_Delta evt =s? "" then (st, []) else
  let '(st, events) :=
    if negb (ContentBlockOpen st) || (CurrentBlockType st <>s? "text") then
      let '(st, events) := closeCurrentBlock st in
      let idx := ContentBlockIndex st in
      (st <| ContentBlockOpen := true |> <| CurrentBlockType := "text" |>,
       events ++ [block_start idx (zero_AnthropicContentBlock <| acb_Type := "text" |> <| acb_Text := "" |>)])%list
    else (st, []) in
  let idx := ContentBlockIndex st in
  (st, events ++ [block_delta idx (zero_AnthropicDelta <| ad_Type := "text_delta" |>
                                     <| ad_Text := rse_Delta evt |>)])%list.

Definition resToAnthHandleFuncArgsDelta (evt : ResponsesStreamEvent) (st : State) : State * list Event :=
  if rse_Delta evt =s? "" then (st, []) else
  if (CurrentBlockType st =s? "tool_use") && (CurrentToolName st =s? "Read") then
    (st <| CurrentToolArgs := CurrentToolArgs st +:+ rse_Delta evt |>, [])
  else
  match OutputIndexToBlockIdx st !! rse_OutputIndex evt with
  | None => (st, [])
  | Some blockIdx =>
      (st, [block_delta blockIdx (zero_AnthropicDelta <| ad_Type := "input_json_delta" |>
                                    <| ad_PartialJSON := rse_Delta evt |>)])
  end.

Definition resToAnthHandleBlockDone (st : State) : State * list Event :=
  if negb (ContentBlockOpen st) then (st, []) else closeCurrentBlock st.

Definition resToAnthHandleFuncArgsDone (evt : ResponsesStreamEvent) (st : State) : State * list Event :=
  if (CurrentBlockType st <>s? "tool_use") || (CurrentToolName st <>s? "Read") then resToAnthHandleBlockDone st else
  let raw := if rse_Arguments evt =s? "" then CurrentToolArgs st else rse_Arguments evt in
  let sanitized := sanitizeAnthropicToolUseInput (CurrentToolName st) raw in
  if sanitized =s? "" then closeCurrentBlock st else
  let idx := ContentBlockIndex st in
  let delta := block_delta idx (zero_AnthropicDelta <| ad_Type := "input_json_delta" |>
                                  <| ad_PartialJSON := sanitized |>) in
  let '(st, events) := closeCurrentBlock st in
  (st, delta :: events).

Definition resToAnthHandleReasoningDelta (evt : ResponsesStreamEvent) (st : State) : State * list Event :=
  if rse_Delta evt =s? "" then (st, []) else
  match OutputIndexToBlockIdx st !! rse_OutputIndex evt with
  | None => (st, [])
  | Some blockIdx =>
      (st, [block_delta blockIdx (zero_AnthropicDelta <| ad_Type := "thinking_delta" |>
                                    <| ad_Thinking := rse_Delta evt |>)])
  end.

Definition resToAnthHandleWebSearchDone (item : ResponsesOutput) (st : State) : State * list Event :=
  let '(st, events) := closeCurrentBlock st in
  let idx1 := ContentBlockIndex st in
  let st := st <| ContentBlockIndex := add64 idx1 1 |> in
  let idx2 := ContentBlockIndex st in
  let st := st <| ContentBlockIndex := add64 idx2 1 |> in
  (st, events ++ [block_start idx1 (server_tool_use_block item); block_stop idx1;
                  block_start idx2 (web_search_result_block item); block_stop idx2])%list.

Definition resToAnthHandleOutputItemDone (evt : ResponsesStreamEvent) (st : State) : State * list Event :=
  match rse_Item evt with
  | None => (st, [])
  | Some item =>
      if (ro_Type item =s? "web_search_call") && (ro_Status item =s? "completed")
      then resToAnthHandleWebSearchDone item st
      else if ContentBlockOpen st then closeCurrentBlock st else (st, [])
  end.

Definition resToAnthHandleCompleted (evt : ResponsesStreamEvent) (st : State) : State * list Event :=
  if MessageStopSent st then (st, []) else
  let '(st, events) := closeCurrentBlock st in
  let '(st, stopReason) :=
    match rse_Response evt with
    | None => (st, "end_turn")
    | Some r =>
        let st := match rres_Usage r with
                  | Some _ =>
                      let usage := anthropicUsageFromResponsesUsage (rres_Usage r) in
                      st <| InputTokens := au_InputTokens usage |>
                         <| OutputTokens := au_OutputTokens usage |>
                         <| CacheReadInputTokens := au_CacheReadInputTokens usage |>
                  | None => st
                  end in
        (st,
         if rres_Status r =s? "incomplete" then
           match rres_IncompleteDetails r with
           | Some d => if rid_Reason d =s? "max_output_tokens" then "max_tokens" else "end_turn"
           | None => "end_turn"
           end
         else if rres_Status r =s? "completed" then
           if (0 <? ContentBlockIndex st) && (CurrentBlockType st =s? "tool_use") then "tool_use" else "end_turn"
         else "end_turn")
    end in
  (st <| MessageStopSent := true |>, events ++ [message_delta stopReason st; message_stop])%list.

Definition ResponsesEventToAnthropicEvents (evt : ResponsesStreamEvent) (st : State) : State * list Event :=
  let typ := rse_Type evt in
  if typ =s? "response.created" then resToAnthHandleCreated evt st
  else if typ =s? "response.output_item.added" then resToAnthHandleOutputItemAdded evt st
  else if typ =s? "response.output_text.delta" then resToAnthHandleTextDelta evt st
  else if typ =s? "response.output_text.done" then resToAnthHandleBlockDone st
  else if (typ =s? "response.function_call_arguments.delta") || (typ =s? "response.custom_tool_call_input.delta")
  then resToAnthHandleFuncArgsDelta evt st
  else if typ =s? "response.function_call_arguments.done" then resToAnthHandleFuncArgsDone evt st
  else if typ =s? "response.output_item.done" then resToAnthHandleOutputItemDone evt st
  else if (typ =s? "response.reasoning_summary_text.delta") || (typ =s? "response.reasoning_text.delta")
  then resToAnthHandleReasoningDelta evt st
  else if typ =s? "response.reasoning_summary_text.done" then resToAnthHandleBlockDone st
  else if (typ =s? "response.completed") || (typ =s? "response.incomplete") || (typ =s? "response.failed")
  then resToAnthHandleCompleted evt st
  else (st, []).

Definition FinalizeResponsesAnthropicStream (st : State) : State * list Event :=
  if negb (MessageStartSent st) || MessageStopSent st then (st, []) else
  let '(st, events) := closeCurrentBlock st in
  (st <| MessageStopSent := true |>, events ++ [message_delta "end_turn" st; message_stop])%list.

(** An event as the two lines of a server-sent event. *)
Definition sse_frame (typ data : string) : string :=
  "event: " +:+ typ +:+ String newline ("data: " +:+ data +:+ String newline (String newline "")).

Definition ResponsesAnthropicEventToSSE (evt : Event) : result string :=
  data ← marshal (enc_AnthropicStreamEvent evt);
  mret (sse_frame (ase_Type evt) data).

#[export] Instance responses_to_anthropic_converter : StreamConverter State ResponsesStreamEvent Event := {|
  sc_step := ResponsesEventToAnthropicEvents;
  sc_finalize := FinalizeResponsesAnthropicStream;
|}.
