(* ===== verification/ResponsesToAnthropicSpec.v ===== *)
(** * Contract of the Responses to Anthropic stream converter

    The grammar of an Anthropic event stream is an acceptor over the emitted
    events; the discipline of a Responses stream is a guard over the consumed
    ones.  The converter refines the grammar: a disciplined upstream, however
    it ends, gives an accepted stream. *)

From S2P Require Import Prelude GoStrings Json Types Codec Streaming AnthropicGrammar AnthropicToResponses.
From S2P Require Import ResponsesToAnthropic.

(** ** The discipline of a Responses stream *)

(** What the converter sees of an upstream event. *)
Inductive up_event : Type :=
| UpCreated
| UpOpen (i : Z) (ty : string)  (* an item that gets a block of its own *)
| UpText                        (* a non-empty text delta *)
| UpArgs (i : Z)                (* a non-empty argument delta *)
| UpReasoning (i : Z)           (* a non-empty reasoning delta *)
| UpClose                       (* an event that ends the current block *)
| UpTerminal
| UpIgnored.
#[export] Instance up_event_eq_dec : EqDecision up_event.
Proof. solve_decision. Defined.

Definition up_item (e : ResponsesStreamEvent) : up_event :=
  match rse_Item e with
  | None => UpIgnored
  | Some item =>
      if (ro_Type item =s? "function_call") || (ro_Type item =s? "custom_tool_call")
      then UpOpen (rse_OutputIndex e) "tool_use"
      else if ro_Type item =s? "reasoning" then UpOpen (rse_OutputIndex e) "thinking"
      else UpIgnored
  end.

Definition classify (e : ResponsesStreamEvent) : up_event :=
  let typ := rse_Type e in
  let unless_empty k := if rse_Delta e =s? "" then UpIgnored else k in
  if typ =s? "response.created" then UpCreated
  else if typ =s? "response.output_item.added" then up_item e
  else if typ =s? "response.output_text.delta" then unless_empty UpText
  else if typ =s? "response.output_text.done" then UpClose
  else if (typ =s? "response.function_call_arguments.delta") || (typ =s? "response.custom_tool_call_input.delta")
  then unless_empty (UpArgs (rse_OutputIndex e))
  else if typ =s? "response.function_call_arguments.done" then UpClose
  else if typ =s? "response.output_item.done" then (if is_some (rse_Item e) then UpClose else UpIgnored)
  else if (typ =s? "response.reasoning_summary_text.delta") || (typ =s? "response.reasoning_text.delta")
  then unless_empty (UpReasoning (rse_OutputIndex e))
  else if typ =s? "response.reasoning_summary_text.done" then UpClose
  else if (typ =s? "response.completed") || (typ =s? "response.incomplete") || (typ =s? "response.failed")
  then UpTerminal
  else UpIgnored.

(** The item a delta may belong to: the one most recently opened and not
    ended; a text delta opens the text block itself. *)
Inductive up_current : Type :=
| NoItem
| TextItem
| OwnItem (i : Z) (ty : string).

Inductive up_state : Type :=
| UInit
| UBody (cur : up_current)
| UEnd.

Definition up_guard (g : up_state) (e : ResponsesStreamEvent) : option up_state :=
  match g, classify e with
  | _, UpIgnored => Some g
  | UInit, UpCreated => Some (UBody NoItem)
  | UInit, _ => None
  | UBody _, UpCreated => Some g
  | UBody _, UpOpen i ty => Some (UBody (OwnItem i ty))
  | UBody _, UpText => Some (UBody TextItem)
  | UBody (OwnItem j ty), UpArgs i => if (i =? j) && (ty =s? "tool_use") then Some g else None
  | UBody (OwnItem j ty), UpReasoning i => if (i =? j) && (ty =s? "thinking") then Some g else None
  | UBody _, UpArgs _ | UBody _, UpReasoning _ => None
  | UBody _, UpClose => Some (UBody NoItem)
  | UBody _, UpTerminal => Some UEnd
  | UEnd, UpCreated | UEnd, UpTerminal => Some g
  | UEnd, _ => None
  end.

Definition disciplined (g : up_state) (evts : list ResponsesStreamEvent) : option up_state :=
  foldl (fun og e => g ← og; up_guard g e) (Some g) evts.

(** ** Simulation *)

Definition open_block (st : State) : option string :=
  if ContentBlockOpen st then Some (CurrentBlockType st) else None.
Definition body_of (st : State) : anth_state := ABody (ContentBlockIndex st) (open_block st).

(** The block that belongs to the current upstream item is the open one. *)
Definition current_open (cur : up_current) (st : State) : Prop :=
  match cur with
  | NoItem => ContentBlockOpen st = false
  | TextItem => open_block st = Some "text"
  | OwnItem i ty => open_block st = Some ty /\ OutputIndexToBlockIdx st !! i = Some (ContentBlockIndex st)
  end.

Definition simulates (g : up_state) (st : State) (q : anth_state) : Prop :=
  (CurrentToolName st <> "" -> open_block st = Some "tool_use") /\
  match g with
  | UInit => MessageStartSent st = false /\ MessageStopSent st = false /\ ContentBlockOpen st = false /\
             ContentBlockIndex st = 0 /\ q = AStart
  | UBody cur => MessageStartSent st = true /\ MessageStopSent st = false /\
                 current_open cur st /\ q = body_of st
  | UEnd => MessageStartSent st = true /\ MessageStopSent st = true /\ q = AStop
  end.

Lemma simulates_init now : simulates UInit (NewResponsesEventToAnthropicState now) AStart.
Proof. by repeat split. Qed.

(** Closing the current block is one accepted step, or none. *)
Lemma close_accepted st st' outs :
  (CurrentToolName st <> "" -> open_block st = Some "tool_use") ->
  closeCurrentBlock st = (st', outs) ->
  accepts anth_step (body_of st) outs = Some (ABody (ContentBlockIndex st') None) /\
  ContentBlockOpen st' = false /\ CurrentToolName st' = "" /\
  MessageStartSent st' = MessageStartSent st /\ MessageStopSent st' = MessageStopSent st /\
  OutputIndexToBlockIdx st' = OutputIndexToBlockIdx st.
Proof.
  unfold closeCurrentBlock, body_of, open_block. intros Hname.
  destruct (ContentBlockOpen st) eqn:E; cbn; intros [= <- <-]; cbn.
  - by rewrite Z.eqb_refl.
  - repeat split; try done. destruct (decide (CurrentToolName st = "")) as [|n]; [done|].
    by specialize (Hname n).
Qed.

(** Closes the state part of a simulation from the equations in context. *)
Ltac sim_done :=
  unfold simulates, current_open, body_of, open_block in *; cbn in *;
  repeat match goal with H : ?x = _ |- context [?x] => rewrite H end;
  repeat match goal with
    | Ho : ContentBlockOpen ?s = _, Hn : context [ContentBlockOpen ?s] |- _ =>
        match type of Hn with _ -> _ => rewrite Ho in Hn end
    end;
  repeat split; try done; try congruence.

(** A handler called on a state related to [g] emits an accepted sequence and
    reaches a state related to [g']. *)
Definition refines (g g' : up_state) (h : State -> State * list Event) : Prop :=
  forall st q, simulates g st q ->
    exists q', accepts anth_step q (snd (h st)) = Some q' /\ simulates g' (fst (h st)) q'.

Lemma refines_nothing g : refines g g (fun st => (st, [])).
Proof. intros st q H. by exists q. Qed.

Lemma refines_close cur : refines (UBody cur) (UBody NoItem) closeCurrentBlock.
Proof.
  intros st q (Hname & Hstart & Hstop & _ & ->).
  destruct (closeCurrentBlock st) as [st' outs] eqn:E.
  destruct (close_accepted _ _ _ Hname E) as (Hacc & Hopen & Hname' & Hs & Ht & _).
  exists (body_of st'). cbn. rewrite Hacc. split; [unfold body_of, open_block; by rewrite Hopen|]. sim_done.
Qed.

Lemma refines_block_done cur : refines (UBody cur) (UBody NoItem) resToAnthHandleBlockDone.
Proof.
  intros st q H. unfold resToAnthHandleBlockDone.
  destruct (ContentBlockOpen st) eqn:E; cbn; [by apply (refines_close cur)|].
  pose proof (refines_close cur st q H) as Hc. unfold closeCurrentBlock in Hc. by rewrite E in Hc.
Qed.

(** Closing, then opening a block at the current index. *)
Lemma refines_open cur i ty st q st1 outs block st2 :
  simulates (UBody cur) st q ->
  closeCurrentBlock st = (st1, outs) ->
  acb_Type block = ty ->
  ContentBlockOpen st2 = true -> CurrentBlockType st2 = ty ->
  ContentBlockIndex st2 = ContentBlockIndex st1 ->
  MessageStartSent st2 = MessageStartSent st1 -> MessageStopSent st2 = MessageStopSent st1 ->
  (CurrentToolName st2 <> "" -> ty = "tool_use") ->
  OutputIndexToBlockIdx st2 !! i = Some (ContentBlockIndex st1) ->
  exists q', accepts anth_step q (outs ++ [block_start (ContentBlockIndex st1) block])%list = Some q' /\
             simulates (UBody (OwnItem i ty)) st2 q'.
Proof.
  intros (Hname & Hstart & Hstop & _ & ->) E Hty Hopen Hcur Hidx Hs Ht Hn Hmap.
  destruct (close_accepted _ _ _ Hname E) as (Hacc & _ & _ & Hs1 & Ht1 & _).
  exists (body_of st2). rewrite accepts_app, Hacc.
  unfold simulates, current_open, body_of, open_block. rewrite Hopen, Hcur, Hidx, Hs, Ht, Hs1, Ht1.
  cbn. rewrite Z.eqb_refl, Hty. cbn. repeat split; try done. intros H; f_equal; auto.
Qed.

Lemma refines_item_added cur e :
  refines (UBody cur) (match up_item e with UpOpen i ty => UBody (OwnItem i ty) | _ => UBody cur end)
    (resToAnthHandleOutputItemAdded e).
Proof.
  intros st q H. unfold resToAnthHandleOutputItemAdded, up_item.
  destruct (rse_Item e) as [item|]; [|by apply refines_nothing].
  destruct (closeCurrentBlock st) as [st1 outs] eqn:E.
  pose proof (close_accepted st st1 outs (proj1 H) E) as (_ & _ & Hn1 & _).
  destruct (_ || _); [|destruct (_ =s? "reasoning"); [|by apply refines_nothing]].
  - eapply refines_open; eauto; cbn; try done. by rewrite lookup_insert_eq.
  - eapply refines_open; eauto; cbn; try done. by rewrite lookup_insert_eq.
Qed.

Lemma refines_text_delta cur e :
  (rse_Delta e =s? "") = false ->
  refines (UBody cur) (UBody TextItem) (resToAnthHandleTextDelta e).
Proof.
  intros Hd st q H. unfold resToAnthHandleTextDelta. rewrite Hd.
  destruct (_ || _) eqn:Ec.
  - destruct (closeCurrentBlock st) as [st1 outs] eqn:E.
    destruct H as (Hname & Hstart & Hstop & _ & ->).
    destruct (close_accepted _ _ _ Hname E) as (Hacc & _ & Hn1 & Hs1 & Ht1 & _).
    eexists. cbn. rewrite <- app_assoc, accepts_app, Hacc. cbn. rewrite !Z.eqb_refl. cbn. rewrite Z.eqb_refl. cbn.
    split; [reflexivity|]. unfold simulates, current_open, body_of, open_block. cbn. rewrite Hn1, Hs1, Ht1.
    by repeat split.
  - apply orb_false_iff in Ec as [Ho Hty].
    apply negb_false_iff in Ho, Hty. apply String.eqb_eq in Hty.
    destruct H as (Hname & Hstart & Hstop & _ & ->).
    exists (body_of st). cbn. unfold body_of, open_block. rewrite Ho, Hty. cbn. rewrite Z.eqb_refl. cbn.
    unfold simulates, current_open, body_of, open_block in *. rewrite Ho, Hty in *.
    by repeat split.
Qed.

(** The state component of [simulates] that an appended argument touches. *)
Lemma simulates_args cur st q a :
  simulates (UBody cur) st q -> simulates (UBody cur) (st <| CurrentToolArgs := a |>) q.
Proof. destruct cur; cbn; intuition. Qed.

(** A delta for the block the current item owns. *)
Lemma own_delta_accepted i ty st q d :
  simulates (UBody (OwnItem i ty)) st q -> delta_fits ty (ad_Type d) = true ->
  accepts anth_step q [block_delta (ContentBlockIndex st) d] = Some q.
Proof.
  intros (_ & _ & _ & (Hopen & _) & ->) Hd. unfold body_of. rewrite Hopen. cbn.
  by rewrite Z.eqb_refl, Hd.
Qed.

Lemma refines_args_delta i ty e :
  (rse_Delta e =s? "") = false -> rse_OutputIndex e = i -> ty = "tool_use" ->
  refines (UBody (OwnItem i ty)) (UBody (OwnItem i ty)) (resToAnthHandleFuncArgsDelta e).
Proof.
  intros Hd Hi -> st q H. unfold resToAnthHandleFuncArgsDelta. rewrite Hd, Hi.
  destruct (_ && _); [exists q; split; [done | by apply simulates_args]|].
  destruct H as (Hn & Hs & Ht & (Hopen & Hmap) & Hq). rewrite Hmap.
  exists q. split; [|by repeat split].
  by eapply own_delta_accepted.
Qed.

Lemma refines_reasoning_delta i ty e :
  (rse_Delta e =s? "") = false -> rse_OutputIndex e = i -> ty = "thinking" ->
  refines (UBody (OwnItem i ty)) (UBody (OwnItem i ty)) (resToAnthHandleReasoningDelta e).
Proof.
  intros Hd Hi -> st q H. unfold resToAnthHandleReasoningDelta. rewrite Hd, Hi.
  destruct H as (Hn & Hs & Ht & (Hopen & Hmap) & Hq). rewrite Hmap.
  exists q. split; [|by repeat split].
  by eapply own_delta_accepted.
Qed.

(** The buffered arguments of a Read call go to the block that is open. *)
Lemma refines_args_done cur e : refines (UBody cur) (UBody NoItem) (resToAnthHandleFuncArgsDone e).
Proof.
  intros st q H. unfold resToAnthHandleFuncArgsDone.
  destruct (_ || _) eqn:Ec; [by apply (refines_block_done cur)|].
  set (san := sanitizeAnthropicToolUseInput _ _).
  destruct (san =s? ""); [by apply (refines_close cur)|].
  apply orb_false_iff in Ec as [_ Hn]. apply negb_false_iff, String.eqb_eq in Hn.
  destruct (refines_close cur st q H) as (q' & Hacc & Hsim).
  destruct (closeCurrentBlock st) as [st1 outs]. exists q'. split; [|exact Hsim].
  destruct H as (Hname & _ & _ & _ & ->).
  assert (Hb : open_block st = Some "tool_use") by (apply Hname; congruence).
  cbn [snd accepts anth_step body_of]. unfold body_of in *. rewrite Hb in *. cbn.
  rewrite Z.eqb_refl. exact Hacc.
Qed.

Lemma empty_block_accepted n b outs :
  accepts anth_step (ABody n None) (block_start n b :: block_stop n :: outs) =
  accepts anth_step (ABody (add64 n 1) None) outs.
Proof. cbn. rewrite !Z.eqb_refl. cbn. by rewrite Z.eqb_refl. Qed.

Lemma refines_item_done cur e :
  refines (UBody cur) (if is_some (rse_Item e) then UBody NoItem else UBody cur) (resToAnthHandleOutputItemDone e).
Proof.
  intros st q H. unfold resToAnthHandleOutputItemDone.
  destruct (rse_Item e) as [item|]; [cbn | by apply refines_nothing].
  destruct (_ && _).
  - unfold resToAnthHandleWebSearchDone. destruct (closeCurrentBlock st) as [st1 outs] eqn:E.
    destruct H as (Hname & Hstart & Hstop & _ & ->).
    destruct (close_accepted _ _ _ Hname E) as (Hacc & Ho & Hn1 & Hs1 & Ht1 & _).
    eexists. cbn [fst snd]. rewrite accepts_app, Hacc. cbn [mbind option_bind].
    rewrite !empty_block_accepted. split; [reflexivity|]. sim_done.
  - pose proof (refines_block_done cur st q H) as Hb. unfold resToAnthHandleBlockDone in Hb.
    by destruct (ContentBlockOpen st).
Qed.

Lemma refines_completed cur e : refines (UBody cur) UEnd (resToAnthHandleCompleted e).
Proof.
  intros st q H. unfold resToAnthHandleCompleted.
  destruct H as (Hname & Hstart & Hstop & _ & ->). rewrite Hstop.
  destruct (closeCurrentBlock st) as [st1 outs] eqn:E.
  destruct (close_accepted _ _ _ Hname E) as (Hacc & Ho & Hn1 & Hs1 & Ht1 & _).
  exists AStop.
  destruct (rse_Response e) as [r|]; [destruct (rres_Usage r)|]; cbn;
    rewrite accepts_app, Hacc; cbn; (split; [done|]); unfold simulates; cbn; rewrite Hn1, Hs1; by repeat split.
Qed.

(** Before response.created, after the terminal event, and a repeated
    response.created: nothing but the state's identifiers may change. *)
Lemma refines_created g e :
  refines g (match g with UInit => UBody NoItem | _ => g end) (resToAnthHandleCreated e).
Proof.
  intros st q H. unfold resToAnthHandleCreated.
  set (st1 := match rse_Response e with Some _ => _ | None => _ end).
  assert (H1 : simulates g st1 q /\ MessageStartSent st1 = MessageStartSent st).
  { subst st1. destruct (rse_Response e) as [r|]; [|done]. destruct (Model _ =s? ""); (split; [|done]);
      destruct g as [|[]|]; exact H. }
  clearbody st1. clear H. destruct H1 as [H _].
  destruct g as [|cur|]; destruct H as (Hname & Hstart & H); rewrite Hstart.
  - destruct H as (Hstop & Ho & Hi & ->). eexists. split; [reflexivity|]. sim_done.
  - exists q. split; [done|]. exact (conj Hname (conj Hstart H)).
  - exists q. split; [done|]. exact (conj Hname (conj Hstart H)).
Qed.

(** The two handlers of a terminal event: it ends the body, and is ignored
    afterwards. *)
Lemma refines_terminal_end e : refines UEnd UEnd (resToAnthHandleCompleted e).
Proof.
  intros st q (Hn & Hs & Ht & ->). unfold resToAnthHandleCompleted. rewrite Ht. exists AStop. sim_done.
Qed.

(** The handler an event is dispatched to, up to its class. *)
Lemma dispatch_ignored e st :
  classify e = UpIgnored -> ResponsesEventToAnthropicEvents e st = (st, []).
Proof.
  unfold classify, ResponsesEventToAnthropicEvents, up_item, resToAnthHandleOutputItemAdded,
    resToAnthHandleTextDelta, resToAnthHandleFuncArgsDelta, resToAnthHandleReasoningDelta,
    resToAnthHandleOutputItemDone.
  repeat case_match; try done.
Qed.

Lemma guard_ignored g e g' : classify e = UpIgnored -> up_guard g e = Some g' -> g' = g.
Proof. unfold up_guard. intros ->. destruct g as [|[]|]; congruence. Qed.

(** An event the guard takes that is neither created, ignored nor terminal
    stands in the body. *)
Lemma guard_body g e g' :
  up_guard g e = Some g' ->
  match classify e with UpCreated | UpIgnored | UpTerminal => False | _ => True end ->
  exists cur, g = UBody cur.
Proof. unfold up_guard. destruct g, (classify e); intros; try done; eauto. Qed.

(** The cases of the dispatch: the guard is in the body, and the handler's
    own lemma applies. *)
Ltac in_body Hb lem := destruct Hb as [cur ->]; [done|]; destruct cur; simplify_eq; by eapply lem.
Ltac own_delta Hb Hg lem :=
  destruct Hb as [cur ->]; [done|]; destruct cur as [| |j ty]; try done;
  destruct (_ && _) eqn:E; [|done]; injection Hg as <-;
  apply andb_true_iff in E as [E1 E2]; apply Z.eqb_eq in E1; apply String.eqb_eq in E2;
  by apply (lem j ty).

Lemma refines_step g e g' :
  up_guard g e = Some g' -> refines g g' (ResponsesEventToAnthropicEvents e).
Proof.
  intros Hg st q H.
  destruct (decide (classify e = UpIgnored)) as [Ei|Ei].
  { rewrite dispatch_ignored by done. rewrite (guard_ignored _ _ _ Ei Hg). by apply refines_nothing. }
  pose proof (guard_body _ _ _ Hg) as Hb. unfold up_guard in Hg.
  remember (classify e) as k eqn:Ek. symmetry in Ek.
  unfold classify in Ek. unfold ResponsesEventToAnthropicEvents. cbv zeta in *.
  destruct (rse_Type e =s? "response.created").
  { subst k. assert (g' = match g with UInit => UBody NoItem | _ => g end) as ->
      by (destruct g as [|[]|]; congruence). by apply refines_created. }
  destruct (rse_Type e =s? "response.output_item.added").
  { destruct Hb as [cur ->]; [by unfold up_item in Ek; subst k; repeat case_match|].
    pose proof (refines_item_added cur e st q H) as Hr. rewrite Ek in Hr.
    unfold up_item in Ek. by repeat case_match; simplify_eq. }
  destruct (rse_Type e =s? "response.output_text.delta").
  { destruct (rse_Delta e =s? "") eqn:Ed; [congruence|]. subst k. in_body Hb refines_text_delta. }
  destruct (rse_Type e =s? "response.output_text.done"); [subst k; in_body Hb refines_block_done|].
  destruct (_ || _).
  { destruct (rse_Delta e =s? "") eqn:Ed; [congruence|]. subst k. own_delta Hb Hg refines_args_delta. }
  destruct (rse_Type e =s? "response.function_call_arguments.done"); [subst k; in_body Hb refines_args_done|].
  destruct (rse_Type e =s? "response.output_item.done").
  { destruct (is_some (rse_Item e)) eqn:Es; [|congruence]. subst k. destruct Hb as [cur ->]; [done|].
    pose proof (refines_item_done cur e st q H) as Hr. rewrite Es in Hr. by destruct cur; simplify_eq. }
  destruct (_ || _).
  { destruct (rse_Delta e =s? "") eqn:Ed; [congruence|]. subst k. own_delta Hb Hg refines_reasoning_delta. }
  destruct (rse_Type e =s? "response.reasoning_summary_text.done"); [subst k; in_body Hb refines_block_done|].
  destruct (_ || _); [subst k | congruence].
  destruct g as [|cur|]; [done| |injection Hg as <-; by apply refines_terminal_end].
  destruct cur; simplify_eq; by eapply refines_completed.
Qed.

Lemma refines_finalize g :
  refines g (match g with UInit => UInit | _ => UEnd end) FinalizeResponsesAnthropicStream.
Proof.
  intros st q H. unfold FinalizeResponsesAnthropicStream.
  destruct g as [|cur|].
  - exists q. rewrite (proj1 (proj2 H)). by split.
  - destruct H as (Hname & Hstart & Hstop & _ & ->). rewrite Hstart, Hstop. cbn [negb orb].
    destruct (closeCurrentBlock st) as [st1 outs] eqn:E.
    destruct (close_accepted _ _ _ Hname E) as (Hacc & Ho & Hn1 & Hs1 & Ht1 & _).
    exists AStop. cbn. rewrite accepts_app, Hacc. split; [done|]. sim_done.
  - exists q. destruct H as (Hn & Hs & Ht & ->). rewrite Hs, Ht. by repeat split.
Qed.

(** ** Conservation *)

(** The text an emitted event carries, and the text an upstream event brings. *)
Definition out_text (o : AnthropicStreamEvent) : string :=
  match ase_Delta o with
  | Some d => if ad_Type d =s? "text_delta" then ad_Text d else ""
  | None => ""
  end.
Definition in_text (e : ResponsesStreamEvent) : string :=
  if rse_Type e =s? "response.output_text.delta" then rse_Delta e else "".
Definition flat {A} (f : A -> string) (l : list A) : string := foldr (fun a s => f a +:+ s) "" l.

Lemma flat_app {A} (f : A -> string) l1 l2 : flat f (l1 ++ l2)%list = flat f l1 +:+ flat f l2.
Proof. unfold flat. induction l1 as [|a l1 IH]; cbn; [done|]. by rewrite IH, string_app_assoc. Qed.

Lemma close_no_text st : flat out_text (snd (closeCurrentBlock st)) = "".
Proof. unfold closeCurrentBlock. by destruct (ContentBlockOpen st). Qed.

(** How many events of a type were emitted. *)
Definition b2n (b : bool) : nat := if b then 1%nat else 0%nat.
Definition count_type (typ : string) (outs : list AnthropicStreamEvent) : nat :=
  foldr (fun o n => (b2n (ase_Type o =s? typ) + n)%nat) 0%nat outs.

Lemma count_type_app typ l1 l2 : count_type typ (l1 ++ l2)%list = (count_type typ l1 + count_type typ l2)%nat.
Proof. unfold count_type. induction l1 as [|o l1 IH]; cbn; [done|]. rewrite IH. lia. Qed.

(** What a handler sends: [text] in text deltas, and message_start and
    message_stop exactly when it sets the corresponding flag. *)
Definition sends (text : string) (st : State) (r : State * list Event) : Prop :=
  flat out_text (snd r) = text /\
  b2n (MessageStartSent (fst r)) = (b2n (MessageStartSent st) + count_type "message_start" (snd r))%nat /\
  b2n (MessageStopSent (fst r)) = (b2n (MessageStopSent st) + count_type "message_stop" (snd r))%nat.

Ltac sends_cases :=
  unfold sends, count_type, resToAnthHandleBlockDone, closeCurrentBlock; intros;
  repeat (case_match; simplify_eq); cbn in *; simplify_eq; try done;
  repeat split; cbn; rewrite ?string_app_nil_r; try done; try lia;
  repeat match goal with H : MessageStartSent _ = _ |- _ => rewrite H | H : MessageStopSent _ = _ |- _ => rewrite H end;
  cbn; try lia.

Lemma sends_step e st : sends (in_text e) st (ResponsesEventToAnthropicEvents e st).
Proof.
  unfold ResponsesEventToAnthropicEvents, in_text.
  destruct (rse_Type e =s? "response.created") eqn:E1; [apply String.eqb_eq in E1; rewrite E1; cbn|].
  { unfold resToAnthHandleCreated. sends_cases. }
  destruct (rse_Type e =s? "response.output_item.added") eqn:E2; [apply String.eqb_eq in E2; rewrite E2; cbn|].
  { unfold resToAnthHandleOutputItemAdded. sends_cases. }
  destruct (rse_Type e =s? "response.output_text.delta").
  { unfold resToAnthHandleTextDelta.
    destruct (String.eqb_spec (rse_Delta e) "") as [->|_]; sends_cases. }
  unfold resToAnthHandleFuncArgsDelta, resToAnthHandleFuncArgsDone, resToAnthHandleOutputItemDone,
    resToAnthHandleWebSearchDone, resToAnthHandleReasoningDelta, resToAnthHandleCompleted.
  repeat (match goal with |- context [rse_Type e =s? ?s] => destruct (rse_Type e =s? s) end; cbn [orb]);
  sends_cases.
Qed.

Lemma sends_finalize st : sends "" st (FinalizeResponsesAnthropicStream st).
Proof.
  unfold FinalizeResponsesAnthropicStream.
  destruct (MessageStartSent st) eqn:E1, (MessageStopSent st) eqn:E2; sends_cases.
Qed.

Lemma sends_run evts st : sends (flat in_text evts) st (run evts st).
Proof.
  revert st. induction evts as [|e evts IH]; intros st; [repeat split; cbn; lia|].
  cbn. pose proof (sends_step e st) as Hs. destruct (ResponsesEventToAnthropicEvents e st) as [st1 o1].
  specialize (IH st1). destruct (run evts st1) as [st2 o2].
  destruct Hs as (H1 & H2 & H3), IH as (H4 & H5 & H6). unfold sends. cbn [fst snd] in *.
  rewrite flat_app, !count_type_app, H1, H4. repeat split; lia.
Qed.

Lemma sends_session evts st : sends (flat in_text evts) st (session evts st).
Proof.
  unfold session, sends. pose proof (sends_run evts st) as (H1 & H2 & H3). destruct (run evts st) as [st1 o1].
  pose proof (sends_finalize st1) as (H4 & H5 & H6). cbn [sc_finalize responses_to_anthropic_converter].
  destruct (FinalizeResponsesAnthropicStream st1) as [st2 o2]. cbn [fst snd] in *.
  rewrite flat_app, !count_type_app, H1, H4, string_app_nil_r. repeat split; lia.
Qed.

(** The initial state with the model override the handlers may set. *)
Definition initial (now : Z) (model : string) : State := NewResponsesEventToAnthropicState now <| Model := model |>.

(** After the finalizer, a started message is stopped. *)
Lemma finalize_stops st :
  MessageStartSent st = true -> MessageStopSent (fst (FinalizeResponsesAnthropicStream st)) = true.
Proof.
  unfold FinalizeResponsesAnthropicStream, closeCurrentBlock. intros ->.
  destruct (MessageStopSent st) eqn:E; cbn; [done|]. by destruct (ContentBlockOpen st).
Qed.

Lemma start_sent_mono evts st : MessageStartSent st = true -> MessageStartSent (fst (run evts st)) = true.
Proof.
  intros H. pose proof (sends_run evts st) as (_ & H2 & _). rewrite H in H2.
  by destruct (MessageStartSent (run evts st).1); [|cbn in H2; lia].
Qed.

Lemma created_starts evts st :
  existsb (fun e => rse_Type e =s? "response.created") evts = true ->
  MessageStartSent (fst (run evts st)) = true.
Proof.
  revert st. induction evts as [|e evts IH]; intros st; cbn; [discriminate|].
  intros H. destruct (ResponsesEventToAnthropicEvents e st) as [st1 o1] eqn:E1.
  assert (Hfst : MessageStartSent (fst (run evts st1)) = true).
  { apply orb_true_iff in H as [H|H]; [|by apply IH]. apply start_sent_mono.
    unfold ResponsesEventToAnthropicEvents in E1. rewrite H in E1.
    revert E1. unfold resToAnthHandleCreated. set (st0 := match _ with Some _ => _ | None => _ end).
    destruct (MessageStartSent st0) eqn:E; intros [= <- _]; done. }
  by destruct (run evts st1).
Qed.

(** ** Properties *)

(** C12: Whatever prefix of a disciplined Responses stream arrives, the events
    the converter and its finalizer emit form an Anthropic stream: one
    message_start first, blocks opened with consecutive indexes and closed
    before the next, every delta inside an open block of its own type, then
    message_delta and message_stop; nothing when the stream never began. *)
Theorem disciplined_stream_accepted (now : Z) (model : string) (evts : list ResponsesStreamEvent) (g : up_state)
    (Hdisc : disciplined UInit evts = Some g) :
  accepts anth_step AStart (snd (session evts (initial now model))) =
  Some (match g with UInit => AStart | _ => AStop end).
Proof.
  assert (Hinit : simulates UInit (initial now model) AStart) by by repeat split.
  destruct (run_accepted anth_step up_guard simulates) with (evts := evts) (g := UInit) (g' := g)
    (st := initial now model) (q := AStart) as (q1 & Hacc & Hsim); try done.
  { intros g0 st q e g' HR Hg. exact (refines_step _ _ _ Hg st q HR). }
  destruct (refines_finalize g _ _ Hsim) as (q2 & Hacc2 & Hsim2).
  unfold session. destruct (run evts (initial now model)) as [st1 o1]. cbn in *.
  destruct (FinalizeResponsesAnthropicStream st1) as [st2 o2]. cbn in *.
  rewrite accepts_app, Hacc. cbn. rewrite Hacc2.
  destruct Hsim2 as [_ Hsim2]. destruct g; cbn in Hsim2; destruct_and!; congruence.
Qed.

(** For every sequence of upstream events, disciplined or not, at most one
    message_start and one message_stop are sent, and exactly one of each when
    a response.created event is among them. *)
Theorem message_framed_once (now : Z) (model : string) (evts : list ResponsesStreamEvent) :
  let outs := snd (session evts (initial now model)) in
  (count_type "message_start" outs <= 1)%nat /\ (count_type "message_stop" outs <= 1)%nat /\
  (existsb (fun e => rse_Type e =s? "response.created") evts = true ->
   count_type "message_start" outs = 1%nat /\ count_type "message_stop" outs = 1%nat).
Proof.
  cbn zeta. pose proof (sends_session evts (initial now model)) as (_ & H2 & H3).
  change (MessageStartSent (initial _ _)) with false in H2. change (MessageStopSent (initial _ _)) with false in H3.
  cbn [b2n Nat.add] in H2, H3.
  rewrite <- H2, <- H3.
  repeat split; try (by destruct (MessageStartSent _); cbn; lia); try (by destruct (MessageStopSent _); cbn; lia).
  all: pose proof (created_starts evts (initial now model) ltac:(assumption)) as Hs;
    unfold session in *; destruct (run evts (initial now model)) as [st1 o1]; cbn in *.
  - pose proof (sends_finalize st1) as (_ & H4 & _). rewrite Hs in H4.
    destruct (FinalizeResponsesAnthropicStream st1) as [st2 o2]; cbn in *.
    destruct (MessageStartSent st2); [done | cbn in H4; lia].
  - pose proof (finalize_stops st1 Hs) as H4. destruct (FinalizeResponsesAnthropicStream st1) as [st2 o2].
    cbn in *. by rewrite H4.
Qed.

(** C13: For every sequence of upstream events from every state, the text sent
    downstream, concatenated over the text deltas, is the text received in
    response.output_text.delta events: none is lost, repeated or reordered. *)
Theorem text_conserved (evts : list ResponsesStreamEvent) (st : ResponsesEventToAnthropicState) :
  flat out_text (snd (session evts st)) = flat in_text evts.
Proof. exact (proj1 (sends_session evts st)). Qed.

(** An event with the fields the examples use. *)
Definition up (typ : string) (i : Z) (delta : string) : ResponsesStreamEvent :=
  zero_ResponsesStreamEvent <| rse_Type := typ |> <| rse_OutputIndex := i |> <| rse_Delta := delta |>.
Definition up_added (i : Z) (item : ResponsesOutput) : ResponsesStreamEvent :=
  up "response.output_item.added" i "" <| rse_Item := Some item |>.
Definition reasoning_item : ResponsesOutput := zero_ResponsesOutput <| ro_Type := "reasoning" |>.

(** A reasoning item whose summary has two parts. *)
Definition two_part_summary : list ResponsesStreamEvent :=
  [up "response.created" 0 ""; up_added 0 reasoning_item;
   up "response.reasoning_summary_text.delta" 0 "a"; up "response.reasoning_summary_text.done" 0 "";
   up "response.reasoning_summary_text.delta" 0 "b" <| rse_SummaryIndex := 1 |>;
   up "response.reasoning_summary_text.done" 0 "" <| rse_SummaryIndex := 1 |>; up "response.completed" 0 ""].

(** When a reasoning item has a summary of two parts, the first part's
    done event closes the thinking block and the second part's delta is sent
    to the closed block: the emitted stream is not an Anthropic stream. *)
Theorem two_part_summary_rejected (now : Z) (model : string) :
  accepts anth_step AStart (snd (session two_part_summary (initial now model))) = None.
Proof. reflexivity. Qed.

(** A disciplined stream: thinking, text, a tool call and a web search. *)
Definition sample_stream : list ResponsesStreamEvent :=
  [up "response.created" 0 ""; up_added 0 reasoning_item;
   up "response.reasoning_summary_text.delta" 0 "think"; up "response.reasoning_summary_text.done" 0 "";
   up_added 1 (zero_ResponsesOutput <| ro_Type := "message" |>);
   up "response.output_text.delta" 1 "hel"; up "response.output_text.delta" 1 "lo";
   up "response.output_text.done" 1 "";
   up_added 2 (zero_ResponsesOutput <| ro_Type := "function_call" |> <| ro_Name := "Read" |>
                 <| ro_CallID := "fc_toolu_1" |>);
   up "response.function_call_arguments.delta" 2 "{}"; up "response.function_call_arguments.done" 2 "";
   up "response.output_item.done" 3 "" <| rse_Item := Some (zero_ResponsesOutput
      <| ro_Type := "web_search_call" |> <| ro_Status := "completed" |>) |>;
   up "response.completed" 0 ""].

Example disciplined_stream_accepted_witness :
  disciplined UInit sample_stream = Some UEnd /\
  accepts anth_step AStart (snd (session sample_stream (initial 0 "m"))) = Some AStop.
Proof.
  split; [reflexivity|]. exact (disciplined_stream_accepted 0 "m" sample_stream UEnd eq_refl).
Defined.
