(* ===== verification/AnthropicToResponsesResponse.v ===== *)
(** * apicompat: Anthropic output to Responses output
      (internal/pkg/apicompat/anthropic_to_responses_response.go)

    The non-streaming conversion and the stateful stream converter.  Item
    identifiers come from [crypto/rand]: the source of randomness is a
    stream of 12-byte draws, and a handler is a computation over the
    converter's state and that stream. *)

From S2P Require Import Prelude GoStrings Json Types Codec Streaming Crypto AnthropicToResponses.

(** ** Random identifiers *)

Definition generateResponsesID : ST Rand string := b ← rand_read; mret ("resp_" +:+ hex_encode b).
Definition generateItemID : ST Rand string := b ← rand_read; mret ("item_" +:+ hex_encode b).

(** ** Non-streaming *)

Definition anthropicStopReasonToResponsesStatus (stopReason : string) (blocks : list AnthropicContentBlock) : string :=
  if stopReason =s? "max_tokens" then "incomplete"
  else if (stopReason =s? "end_turn") || (stopReason =s? "tool_use") || (stopReason =s? "stop_sequence") then "completed"
  else "completed".

Definition output_text_part (text : string) : ResponsesContentPart :=
  zero_ResponsesContentPart <| rcp_Type := "output_text" |> <| rcp_Text := text |>.

Definition message_output (id : string) (parts : list ResponsesContentPart) : ResponsesOutput :=
  zero_ResponsesOutput <| ro_Type := "message" |> <| ro_ID := id |> <| ro_Role := "assistant" |>
    <| ro_Content := parts |> <| ro_Status := "completed" |>.

(** One iteration of the loop over the blocks: what it appends to [outputs]
    and to [msgParts]. *)
Definition block_outputs (block : AnthropicContentBlock)
    : ST Rand (list ResponsesOutput * list ResponsesContentPart) :=
  if acb_Type block =s? "thinking" then
    if acb_Thinking block =s? "" then mret ([], []) else
    id ← generateItemID;
    mret ([zero_ResponsesOutput <| ro_Type := "reasoning" |> <| ro_ID := id |>
             <| ro_Summary := [mkResponsesSummary "summary_text" (acb_Thinking block)] |>], [])
  else if acb_Type block =s? "text" then
    mret (if acb_Text block =s? "" then ([], []) else ([], [output_text_part (acb_Text block)]))
  else if acb_Type block =s? "tool_use" then
    let args := if acb_Input block =s? "" then "{}" else acb_Input block in
    id ← generateItemID;
    mret ([zero_ResponsesOutput <| ro_Type := "function_call" |> <| ro_ID := id |>
             <| ro_CallID := toResponsesCallID (acb_ID block) |> <| ro_Name := acb_Name block |>
             <| ro_Arguments := args |> <| ro_Status := "completed" |>], [])
  else mret ([], []).

Fixpoint blocks_outputs (blocks : list AnthropicContentBlock)
    : ST Rand (list ResponsesOutput * list ResponsesContentPart) :=
  match blocks with
  | [] => mret ([], [])
  | b :: blocks' =>
      '(o1, p1) ← block_outputs b;
      '(o2, p2) ← blocks_outputs blocks';
      mret ((o1 ++ o2)%list, (p1 ++ p2)%list)
  end.

Definition responsesUsageFromCounts (input output cacheRead : Z) : ResponsesUsage :=
  let usage := zero_ResponsesUsage <| ru_InputTokens := input |> <| ru_OutputTokens := output |>
                 <| ru_TotalTokens := add64 input output |> in
  if 0 <? cacheRead
  then usage <| ru_InputTokensDetails :=
                  Some (zero_ResponsesInputTokensDetails <| ritd_CachedTokens := cacheRead |>) |>
  else usage.

Definition AnthropicToResponsesResponse (resp : AnthropicResponse) : ST Rand ResponsesResponse :=
  id ← (if ares_ID resp =s? "" then generateResponsesID else mret (ares_ID resp));
  '(outputs, msgParts) ← blocks_outputs (ares_Content resp);
  outputs ← (if nonempty msgParts
             then mid ← generateItemID; mret (outputs ++ [message_output mid msgParts])%list
             else mret outputs);
  outputs ← (if nonempty outputs then mret outputs
             else mid ← generateItemID; mret [message_output mid [output_text_part ""]]);
  let status := anthropicStopReasonToResponsesStatus (ares_StopReason resp) (ares_Content resp) in
  mret (zero_ResponsesResponse <| rres_ID := id |> <| rres_Object := "response" |>
          <| rres_Model := ares_Model resp |> <| rres_Output := outputs |> <| rres_Status := status |>
          <| rres_IncompleteDetails :=
               if status =s? "incomplete" then Some (mkResponsesIncompleteDetails "max_output_tokens") else None |>
          <| rres_Usage := Some (responsesUsageFromCounts (au_InputTokens (ares_Usage resp))
               (au_OutputTokens (ares_Usage resp)) (au_CacheReadInputTokens (ares_Usage resp))) |>).

(** ** Streaming *)

Record AnthropicEventToResponsesState : Type := mkAnthropicEventToResponsesState {
  ResponseID : string;
  Model : string;
  Created : Z;
  SequenceNumber : Z;
  CreatedSent : bool;
  CompletedSent : bool;
  OutputIndex : Z;
  CurrentItemID : string;
  CurrentItemType : string;
  ContentIndex : Z;
  CurrentText : string;
  CurrentCallID : string;
  CurrentName : string;
  CurrentArguments : string;
  InputTokens : Z;
  OutputTokens : Z;
  CacheReadInputTokens : Z
}.
#[export] Instance eta_AnthropicEventToResponsesState : Settable AnthropicEventToResponsesState := fun r =>
  mkAnthropicEventToResponsesState (ResponseID r) (Model r) (Created r) (SequenceNumber r) (CreatedSent r)
    (CompletedSent r) (OutputIndex r) (CurrentItemID r) (CurrentItemType r) (ContentIndex r) (CurrentText r)
    (CurrentCallID r) (CurrentName r) (CurrentArguments r) (InputTokens r) (OutputTokens r)
    (CacheReadInputTokens r).

(** NewAnthropicEventToResponsesState at time [now]. *)
Definition NewAnthropicEventToResponsesState (now : Z) : AnthropicEventToResponsesState :=
  mkAnthropicEventToResponsesState "" "" now 0 false false 0 "" "" 0 "" "" "" "" 0 0 0.

(** The converter's state and the random source. *)
Record World : Type := mkWorld { state : AnthropicEventToResponsesState; rand : Rand }.
#[export] Instance eta_World : Settable World := fun w => mkWorld (state w) (rand w).

Abbreviation Event := ResponsesStreamEvent.
Abbreviation M := (ST World).

Definition get_state : M AnthropicEventToResponsesState := st_gets state.
Definition update (f : AnthropicEventToResponsesState -> AnthropicEventToResponsesState) : M unit :=
  st_modify (fun w => w <| state := f (state w) |>).
Definition fresh_item_id : M string := fun w =>
  let '(id, r) := generateItemID (rand w) in (id, w <| rand := r |>).

Definition makeResponsesEvent (eventType : string) (template : Event) : M Event :=
  st ← get_state;
  let seq := SequenceNumber st in
  _ ← update (fun st => st <| SequenceNumber := add64 seq 1 |>);
  mret (template <| rse_Type := eventType |> <| rse_SequenceNumber := seq |>).

Definition makeResponsesCreatedEvent : M Event :=
  st ← get_state;
  let seq := SequenceNumber st in
  _ ← update (fun st => st <| SequenceNumber := add64 seq 1 |>);
  mret (zero_ResponsesStreamEvent <| rse_Type := "response.created" |> <| rse_SequenceNumber := seq |>
          <| rse_Response := Some (zero_ResponsesResponse <| rres_ID := ResponseID st |>
               <| rres_Object := "response" |> <| rres_Model := Model st |>
               <| rres_Status := "in_progress" |> <| rres_Output := [] |>) |>).

Definition makeResponsesCompletedEvent (status : string) (incompleteDetails : option ResponsesIncompleteDetails) : M Event :=
  st ← get_state;
  let seq := SequenceNumber st in
  _ ← update (fun st => st <| SequenceNumber := add64 seq 1 |>);
  let usage := responsesUsageFromCounts (InputTokens st) (OutputTokens st) (CacheReadInputTokens st) in
  mret (zero_ResponsesStreamEvent <| rse_Type := "response.completed" |> <| rse_SequenceNumber := seq |>
          <| rse_Response := Some (zero_ResponsesResponse <| rres_ID := ResponseID st |>
               <| rres_Object := "response" |> <| rres_Model := Model st |> <| rres_Status := status |>
               <| rres_Output := [] |> <| rres_Usage := Some usage |>
               <| rres_IncompleteDetails := incompleteDetails |>) |>).

Definition nonEmptyArguments (args : string) : string :=
  if trim_space args =s? "" then "{}" else args.

(** The item of the output_item.done event. *)
Definition done_item (st : AnthropicEventToResponsesState) : ResponsesOutput :=
  let doneItem := zero_ResponsesOutput <| ro_Type := CurrentItemType st |> <| ro_ID := CurrentItemID st |>
                    <| ro_Status := "completed" |> in
  if CurrentItemType st =s? "message" then
    doneItem <| ro_Role := "assistant" |> <| ro_Content := [output_text_part (CurrentText st)] |>
  else if CurrentItemType st =s? "function_call" then
    doneItem <| ro_CallID := CurrentCallID st |> <| ro_Name := CurrentName st |>
      <| ro_Arguments := nonEmptyArguments (CurrentArguments st) |>
  else doneItem.

Definition closeCurrentResponsesItem : M (list Event) :=
  st ← get_state;
  if CurrentItemType st =s? "" then mret [] else
  _ ← update (fun st => st <| CurrentItemType := "" |> <| CurrentItemID := "" |> <| CurrentCallID := "" |>
                           <| CurrentName := "" |> <| CurrentText := "" |> <| CurrentArguments := "" |>
                           <| OutputIndex := add64 (OutputIndex st) 1 |> <| ContentIndex := 0 |>);
  let doneItem := done_item st in
  st ← get_state;
  e ← makeResponsesEvent "response.output_item.done"
        (zero_ResponsesStreamEvent <| rse_OutputIndex := sub64 (OutputIndex st) 1 |> <| rse_Item := Some doneItem |>);
  mret [e].

Definition anthToResHandleMessageStart (evt : AnthropicStreamEvent) : M (list Event) :=
  _ ← update (fun st =>
    match ase_Message evt with
    | None => st
    | Some m =>
        let st := st <| ResponseID := ares_ID m |> in
        let st := if Model st =s? "" then st <| Model := ares_Model m |> else st in
        if 0 <? au_InputTokens (ares_Usage m) then st <| InputTokens := au_InputTokens (ares_Usage m) |> else st
    end);
  st ← get_state;
  if CreatedSent st then mret [] else
  _ ← update (fun st => st <| CreatedSent := true |>);
  e ← makeResponsesCreatedEvent;
  mret [e].

Definition anthToResHandleContentBlockStart (evt : AnthropicStreamEvent) : M (list Event) :=
  match ase_ContentBlock evt with
  | None => mret []
  | Some block =>
      if acb_Type block =s? "thinking" then
        id ← fresh_item_id;
        _ ← update (fun st => st <| CurrentItemID := id |> <| CurrentItemType := "reasoning" |> <| ContentIndex := 0 |>);
        st ← get_state;
        e ← makeResponsesEvent "response.output_item.added"
              (zero_ResponsesStreamEvent <| rse_OutputIndex := OutputIndex st |>
                 <| rse_Item := Some (zero_ResponsesOutput <| ro_Type := "reasoning" |> <| ro_ID := CurrentItemID st |>) |>);
        mret [e]
      else if acb_Type block =s? "text" then
        st ← get_state;
        if CurrentItemType st =s? "message" then mret [] else
        id ← fresh_item_id;
        _ ← update (fun st => st <| CurrentItemID := id |> <| CurrentItemType := "message" |>
                                 <| ContentIndex := 0 |> <| CurrentText := "" |>);
        st ← get_state;
        e1 ← makeResponsesEvent "response.output_item.added"
               (zero_ResponsesStreamEvent <| rse_OutputIndex := OutputIndex st |>
                  <| rse_Item := Some (zero_ResponsesOutput <| ro_Type := "message" |> <| ro_ID := CurrentItemID st |>
                                         <| ro_Role := "assistant" |> <| ro_Status := "in_progress" |>) |>);
        e2 ← makeResponsesEvent "response.content_part.added"
               (zero_ResponsesStreamEvent <| rse_OutputIndex := OutputIndex st |>
                  <| rse_ContentIndex := ContentIndex st |> <| rse_ItemID := CurrentItemID st |>
                  <| rse_Part := Some (output_text_part "") |>);
        mret [e1; e2]
      else if acb_Type block =s? "tool_use" then
        events ← closeCurrentResponsesItem;
        id ← fresh_item_id;
        _ ← update (fun st => st <| CurrentItemID := id |> <| CurrentItemType := "function_call" |>
                                 <| CurrentCallID := toResponsesCallID (acb_ID block) |>
                                 <| CurrentName := acb_Name block |> <| CurrentArguments := "" |>);
        st ← get_state;
        e ← makeResponsesEvent "response.output_item.added"
              (zero_ResponsesStreamEvent <| rse_OutputIndex := OutputIndex st |>
                 <| rse_Item := Some (zero_ResponsesOutput <| ro_Type := "function_call" |>
                      <| ro_ID := CurrentItemID st |> <| ro_CallID := CurrentCallID st |>
                      <| ro_Name := CurrentName st |> <| ro_Status := "in_progress" |>) |>);
        mret (events ++ [e])%list
      else mret []
  end.

Definition anthToResHandleContentBlockDelta (evt : AnthropicStreamEvent) : M (list Event) :=
  match ase_Delta evt with
  | None => mret []
  | Some delta =>
      if ad_Type delta =s? "text_delta" then
        if ad_Text delta =s? "" then mret [] else
        _ ← update (fun st => st <| CurrentText := CurrentText st +:+ ad_Text delta |>);
        st ← get_state;
        e ← makeResponsesEvent "response.output_text.delta"
              (zero_ResponsesStreamEvent <| rse_OutputIndex := OutputIndex st |>
                 <| rse_ContentIndex := ContentIndex st |> <| rse_Delta := ad_Text delta |>
                 <| rse_ItemID := CurrentItemID st |>);
        mret [e]
      else if ad_Type delta =s? "thinking_delta" then
        if ad_Thinking delta =s? "" then mret [] else
        st ← get_state;
        e ← makeResponsesEvent "response.reasoning_summary_text.delta"
              (zero_ResponsesStreamEvent <| rse_OutputIndex := OutputIndex st |> <| rse_SummaryIndex := 0 |>
                 <| rse_Delta := ad_Thinking delta |> <| rse_ItemID := CurrentItemID st |>);
        mret [e]
      else if ad_Type delta =s? "input_json_delta" then
        if ad_PartialJSON delta =s? "" then mret [] else
        _ ← update (fun st => st <| CurrentArguments := CurrentArguments st +:+ ad_PartialJSON delta |>);
        st ← get_state;
        e ← makeResponsesEvent "response.function_call_arguments.delta"
              (zero_ResponsesStreamEvent <| rse_OutputIndex := OutputIndex st |>
                 <| rse_Delta := ad_PartialJSON delta |> <| rse_ItemID := CurrentItemID st |>
                 <| rse_CallID := CurrentCallID st |> <| rse_Name := CurrentName st |>);
        mret [e]
      else mret []
  end.

Definition anthToResHandleContentBlockStop (evt : AnthropicStreamEvent) : M (list Event) :=
  st ← get_state;
  if CurrentItemType st =s? "reasoning" then
    e ← makeResponsesEvent "response.reasoning_summary_text.done"
          (zero_ResponsesStreamEvent <| rse_OutputIndex := OutputIndex st |> <| rse_SummaryIndex := 0 |>
             <| rse_ItemID := CurrentItemID st |>);
    events ← closeCurrentResponsesItem;
    mret (e :: events)
  else if CurrentItemType st =s? "function_call" then
    e ← makeResponsesEvent "response.function_call_arguments.done"
          (zero_ResponsesStreamEvent <| rse_OutputIndex := OutputIndex st |> <| rse_ItemID := CurrentItemID st |>
             <| rse_CallID := CurrentCallID st |> <| rse_Name := CurrentName st |>
             <| rse_Arguments := nonEmptyArguments (CurrentArguments st) |>);
    events ← closeCurrentResponsesItem;
    mret (e :: events)
  else if CurrentItemType st =s? "message" then
    e1 ← makeResponsesEvent "response.output_text.done"
           (zero_ResponsesStreamEvent <| rse_OutputIndex := OutputIndex st |>
              <| rse_ContentIndex := ContentIndex st |> <| rse_ItemID := CurrentItemID st |>
              <| rse_Text := CurrentText st |>);
    e2 ← makeResponsesEvent "response.content_part.done"
           (zero_ResponsesStreamEvent <| rse_OutputIndex := OutputIndex st |>
              <| rse_ContentIndex := ContentIndex st |> <| rse_ItemID := CurrentItemID st |>
              <| rse_Part := Some (output_text_part (CurrentText st)) |>);
    mret [e1; e2]
  else mret [].

Definition anthToResHandleMessageDelta (evt : AnthropicStreamEvent) : M (list Event) :=
  _ ← update (fun st =>
    match ase_Usage evt with
    | None => st
    | Some u =>
        let st := st <| OutputTokens := au_OutputTokens u |> in
        if 0 <? au_CacheReadInputTokens u then st <| CacheReadInputTokens := au_CacheReadInputTokens u |> else st
    end);
  mret [].

(** The common end of anthToResHandleMessageStop and of the finalizer. *)
Definition complete_response : M (list Event) :=
  events ← closeCurrentResponsesItem;
  e ← makeResponsesCompletedEvent "completed" None;
  _ ← update (fun st => st <| CompletedSent := true |>);
  mret (events ++ [e])%list.

Definition anthToResHandleMessageStop : M (list Event) :=
  st ← get_state;
  if CompletedSent st then mret [] else complete_response.

Definition AnthropicEventToResponsesEvents (evt : AnthropicStreamEvent) : M (list Event) :=
  let typ := ase_Type evt in
  if typ =s? "message_start" then anthToResHandleMessageStart evt
  else if typ =s? "content_block_start" then anthToResHandleContentBlockStart evt
  else if typ =s? "content_block_delta" then anthToResHandleContentBlockDelta evt
  else if typ =s? "content_block_stop" then anthToResHandleContentBlockStop evt
  else if typ =s? "message_delta" then anthToResHandleMessageDelta evt
  else if typ =s? "message_stop" then anthToResHandleMessageStop
  else mret [].

Definition FinalizeAnthropicResponsesStream : M (list Event) :=
  st ← get_state;
  if negb (CreatedSent st) || CompletedSent st then mret [] else complete_response.

Definition ResponsesEventToSSE (evt : Event) : result string :=
  data ← marshal (enc_ResponsesStreamEvent evt);
  mret ("event: " +:+ rse_Type evt +:+ String newline ("data: " +:+ data +:+ String newline (String newline ""))).

(** The interface runs a handler as a function on the world. *)
Definition flip_step {A} (m : M A) (w : World) : World * A := let '(a, w') := m w in (w', a).

#[export] Instance anthropic_to_responses_converter : StreamConverter World AnthropicStreamEvent Event := {|
  sc_step e := flip_step (AnthropicEventToResponsesEvents e);
  sc_finalize := flip_step FinalizeAnthropicResponsesStream;
|}.
