(* ===== verification/AnthropicToResponsesSpec.v ===== *)
(** * Contract of the Anthropic to Responses stream converter *)

From S2P Require Import Prelude GoStrings Json Types Codec Streaming Crypto AnthropicGrammar.
From S2P Require Import AnthropicToResponses AnthropicToResponsesResponse.

(** ** The Responses event grammar

    Output items are opened with consecutive indexes and one at a time; the
    events of an item name its index and identifier; an item's done events
    repeat what its deltas carried ([oi_acc]). *)

Record open_item : Type := mkopen_item { oi_type : string; oi_id : string; oi_acc : string }.

Inductive resp_state : Type :=
| RStart
| RBody (next : Z) (open : option open_item)
| RDone.

Definition item_type_ok (t : string) : bool :=
  (t =s? "message") || (t =s? "reasoning") || (t =s? "function_call").

(** An item's done event against the deltas. *)
Definition done_fits (it : open_item) (o : ResponsesOutput) : bool :=
  (ro_Type o =s? oi_type it) && (ro_ID o =s? oi_id it) &&
  (if oi_type it =s? "message" then
     match ro_Content o with [p] => rcp_Text p =s? oi_acc it | _ => false end
   else if oi_type it =s? "function_call" then ro_Arguments o =s? nonEmptyArguments (oi_acc it)
   else true).

Definition in_item (it : open_item) (t : string) (e : ResponsesStreamEvent) : bool :=
  (oi_type it =s? t) && (rse_ItemID e =s? oi_id it).

Definition resp_item_step (n : Z) (it : open_item) (e : ResponsesStreamEvent) : option resp_state :=
  let typ := rse_Type e in
  let stay := Some (RBody n (Some it)) in
  let grow := Some (RBody n (Some (mkopen_item (oi_type it) (oi_id it) (oi_acc it +:+ rse_Delta e)))) in
  if typ =s? "response.content_part.added" then if in_item it "message" e then stay else None
  else if typ =s? "response.output_text.delta" then if in_item it "message" e then grow else None
  else if typ =s? "response.output_text.done" then
    if in_item it "message" e && (rse_Text e =s? oi_acc it) then stay else None
  else if typ =s? "response.content_part.done" then
    match rse_Part e with
    | Some p => if in_item it "message" e && (rcp_Text p =s? oi_acc it) then stay else None
    | None => None
    end
  else if typ =s? "response.reasoning_summary_text.delta" then if in_item it "reasoning" e then stay else None
  else if typ =s? "response.reasoning_summary_text.done" then if in_item it "reasoning" e then stay else None
  else if typ =s? "response.function_call_arguments.delta" then if in_item it "function_call" e then grow else None
  else if typ =s? "response.function_call_arguments.done" then
    if in_item it "function_call" e && (rse_Arguments e =s? nonEmptyArguments (oi_acc it)) then stay else None
  else if typ =s? "response.output_item.done" then
    match rse_Item e with
    | Some o => if done_fits it o then Some (RBody (add64 n 1) None) else None
    | None => None
    end
  else None.

Definition resp_step (q : resp_state) (e : ResponsesStreamEvent) : option resp_state :=
  match q with
  | RStart =>
      if (rse_Type e =s? "response.created") && is_some (rse_Response e) then Some (RBody 0 None) else None
  | RBody n None =>
      if rse_Type e =s? "response.output_item.added" then
        match rse_Item e with
        | Some o =>
            if (rse_OutputIndex e =? n) && item_type_ok (ro_Type o)
            then Some (RBody n (Some (mkopen_item (ro_Type o) (ro_ID o) ""))) else None
        | None => None
        end
      else if rse_Type e =s? "response.completed" then
        if is_some (rse_Response e) then Some RDone else None
      else None
  | RBody n (Some it) => if rse_OutputIndex e =? n then resp_item_step n it e else None
  | RDone => None
  end.

(** ** The discipline of the Anthropic stream

    The stream is grammatical, pings apart, and no thinking block follows a
    text block unless a tool use stands between them: [m] says that the last
    block that gets an output item was a text block. *)
Definition down_guard (g : anth_state * bool) (e : AnthropicStreamEvent) : option (anth_state * bool) :=
  let '(q, m) := g in
  if ase_Type e =s? "ping" then Some g else
  q' ← anth_step q e;
  match q', ase_ContentBlock e with
  | ABody _ (Some _), Some b =>
      if ase_Type e =s? "content_block_start" then
        if acb_Type b =s? "text" then Some (q', true)
        else if acb_Type b =s? "tool_use" then Some (q', false)
        else if acb_Type b =s? "thinking" then (if m then None else Some (q', false))
        else Some (q', m)
      else Some (q', m)
  | _, _ => Some (q', m)
  end.

Definition grammatical (evts : list AnthropicStreamEvent) : option (anth_state * bool) :=
  foldl (fun og e => g ← og; down_guard g e) (Some (AStart, false)) evts.

(** ** Simulation *)

Abbreviation State := AnthropicEventToResponsesState.

(** The item the state has open. *)
Definition item_of (st : State) : option open_item :=
  if CurrentItemType st =s? "" then None else
  Some (mkopen_item (CurrentItemType st) (CurrentItemID st)
          (if CurrentItemType st =s? "message" then CurrentText st
           else if CurrentItemType st =s? "function_call" then CurrentArguments st else "")).

(** The type of that item, from the upstream's position. *)
Definition type_for (open : option string) (m : bool) : string :=
  match open with
  | Some ty => if ty =s? "thinking" then "reasoning"
               else if ty =s? "tool_use" then "function_call"
               else if m then "message" else ""
  | None => if m then "message" else ""
  end.

(** What [m] is inside a block. *)
Definition coherent (open : option string) (m : bool) : Prop :=
  match open with
  | Some ty => (ty = "text" -> m = true) /\ (ty = "thinking" \/ ty = "tool_use" -> m = false)
  | None => True
  end.

Definition in_body (open : option string) (m : bool) (st : State) (q : resp_state) : Prop :=
  CreatedSent st = true /\ CompletedSent st = false /\ int64_range (OutputIndex st) /\
  CurrentItemType st = type_for open m /\ coherent open m /\
  q = RBody (OutputIndex st) (item_of st).

Definition simulates (g : anth_state * bool) (w : World) (q : resp_state) : Prop :=
  let st := state w in
  match g with
  | (AStart, m) => m = false /\ CreatedSent st = false /\ CompletedSent st = false /\ OutputIndex st = 0 /\
                   CurrentItemType st = "" /\ q = RStart
  | (ABody _ open, m) => in_body open m st q
  | (ADelta, m) => in_body None m st q
  | (AStop, _) => CreatedSent st = true /\ CompletedSent st = true /\ q = RDone
  end.

(** Runs a handler symbolically. *)
Ltac exec :=
  cbv [flip_step makeResponsesEvent makeResponsesCreatedEvent makeResponsesCompletedEvent get_state update
       fresh_item_id generateItemID rand_read st_gets st_modify mret mbind st_ret st_bind] in *; cbn in *.

(** Runs the acceptor on the emitted events. *)
Ltac accept := unfold resp_item_step, in_item; repeat progress (cbn; rewrite ?Z.eqb_refl, ?String.eqb_refl).

(** Closes [exists q', Some q = Some q' /\ simulates g' w q'] fact by fact. *)
Ltac simulated :=
  eexists; split; [reflexivity|]; unfold simulates, in_body; cbn [state];
  split_and!; cbn; try done; try congruence; try (intuition congruence).

Lemma flip_bind {A B} (m : M A) (f : A -> M B) w :
  flip_step (m ≫= f) w = let '(w1, a) := flip_step m w in flip_step (f a) w1.
Proof. unfold flip_step, mbind, st_bind. destruct (m w) as [a w1]. done. Qed.

(** Closing the open item is one accepted step, or none. *)
Lemma close_item_accepted n st r :
  int64_range (OutputIndex st) -> n = OutputIndex st ->
  item_type_ok (CurrentItemType st) = true \/ CurrentItemType st = "" ->
  exists st' outs,
    closeCurrentResponsesItem (mkWorld st r) = (outs, mkWorld st' r) /\
    accepts resp_step (RBody n (item_of st)) outs = Some (RBody (OutputIndex st') None) /\
    item_of st' = None /\ CurrentItemType st' = "" /\ int64_range (OutputIndex st') /\
    CreatedSent st' = CreatedSent st /\ CompletedSent st' = CompletedSent st.
Proof.
  intros Hr -> Ht. unfold closeCurrentResponsesItem, item_of. exec.
  destruct (CurrentItemType st =s? "") eqn:E; exec.
  { exists st, []. apply String.eqb_eq in E. rewrite E. done. }
  eexists _, _. split; [reflexivity|]. cbn. rewrite sub64_add64, Z.eqb_refl by done.
  assert (Hok : item_type_ok (CurrentItemType st) = true)
    by (destruct Ht as [|Ht]; [done | by rewrite Ht in E]).
  unfold resp_item_step, done_fits, done_item. cbn.
  destruct (CurrentItemType st =s? "message") eqn:E1; [|destruct (CurrentItemType st =s? "function_call") eqn:E2];
    cbn; rewrite !String.eqb_refl, ?E1, ?E2; cbn; rewrite ?String.eqb_refl;
    (split; [done|]); repeat split; try done; apply wrap64_range.
Qed.
#[local] Arguments closeCurrentResponsesItem : simpl never.

Lemma type_for_ok open m : item_type_ok (type_for open m) = true \/ type_for open m = "".
Proof. unfold type_for. repeat case_match; subst; auto. Qed.

(** The conclusion every handler's lemma shares. *)
Definition emits (m : M (list Event)) (w : World) (q : resp_state) (g' : anth_state * bool) : Prop :=
  exists q', accepts resp_step q (snd (flip_step m w)) = Some q' /\ simulates g' (fst (flip_step m w)) q'.

Lemma start_emits evt w q m g' :
  simulates (AStart, m) w q -> ase_Type evt = "message_start" -> down_guard (AStart, m) evt = Some g' ->
  emits (anthToResHandleMessageStart evt) w q g'.
Proof.
  destruct w as [st r]. intros (-> & Hc & Hd & Ho & Ht & ->) Ety Hg. unfold down_guard in Hg.
  rewrite Ety in Hg. cbn in Hg, Hc, Hd, Ho, Ht. rewrite Ety in Hg. cbn in Hg.
  destruct (ase_Message evt) as [msg|] eqn:Em; [|done]. cbn in Hg. injection Hg as <-.
  unfold emits, anthToResHandleMessageStart. exec. rewrite Em.
  destruct (Model st =s? ""), (0 <? au_InputTokens (ares_Usage msg)); exec; rewrite Hc; exec;
    (eexists; split; [done|]); repeat split; cbn; try done; unfold item_of; cbn; rewrite ?Ht, ?Ho; done.
Qed.

(** The item-opening handler, for the block types that get an item and the others. *)
Lemma block_start_emits evt w n m g' q :
  simulates (ABody n None, m) w q -> ase_Type evt = "content_block_start" ->
  down_guard (ABody n None, m) evt = Some g' ->
  emits (anthToResHandleContentBlockStart evt) w q g'.
Proof.
  destruct w as [st r]. intros (Hc & Hd & Hr & Ht & _ & ->) Ety Hg. cbn in Hc, Hd, Hr, Ht.
  unfold down_guard in Hg. unfold anth_step in Hg. rewrite Ety in Hg. cbn in Hg.
  destruct (ase_ContentBlock evt) as [b|] eqn:Eb; [|done].
  destruct (index_is n (ase_Index evt)); cbn in Hg; [|done].
  unfold emits, anthToResHandleContentBlockStart. rewrite Eb.
  destruct (acb_Type b =s? "text") eqn:E1; [apply String.eqb_eq in E1; rewrite E1 in *; cbn in Hg|].
  { injection Hg as <-. cbn. destruct m; exec; rewrite Ht; [simulated|].
    unfold item_of. rewrite Ht. accept. simulated. }
  destruct (acb_Type b =s? "tool_use") eqn:E2; [apply String.eqb_eq in E2; rewrite E2 in *; cbn in Hg|].
  { injection Hg as <-. cbn.
    destruct (close_item_accepted (OutputIndex st) st r Hr eq_refl) as (st' & outs & Hclose & Hacc & Hi & Ht' & Hr' & Hc' & Hd').
    { cbn in Ht. rewrite Ht. destruct m; auto. }
    exec. rewrite Hclose. exec. rewrite accepts_app, Hacc. accept. simulated. }
  destruct (acb_Type b =s? "thinking") eqn:E3; [apply String.eqb_eq in E3; rewrite E3 in *; cbn in Hg|].
  { destruct m; [done|]. injection Hg as <-. cbn. exec. unfold item_of. rewrite Ht. accept. simulated. }
  injection Hg as <-. cbn. simulated.
  - rewrite E3, E2. done.
  - apply String.eqb_neq in E1, E2, E3. intuition congruence.
Qed.

Lemma delta_emits evt w n ty m g' q :
  simulates (ABody n (Some ty), m) w q -> ase_Type evt = "content_block_delta" ->
  down_guard (ABody n (Some ty), m) evt = Some g' ->
  emits (anthToResHandleContentBlockDelta evt) w q g'.
Proof.
  destruct w as [st r]. intros (Hc & Hd & Hr & Ht & Hm & ->) Ety Hg. cbn in Hc, Hd, Hr, Ht, Hm.
  unfold down_guard in Hg. unfold anth_step in Hg. rewrite Ety in Hg. cbn in Hg.
  destruct (ase_Delta evt) as [d|] eqn:Ed; [|done].
  destruct (index_is n (ase_Index evt)); cbn in Hg; [|done].
  destruct (delta_fits ty (ad_Type d)) eqn:Ef; cbn in Hg; [|done].
  assert (Hg' : g' = (ABody n (Some ty), m)) by (destruct (ase_ContentBlock evt); congruence).
  clear Hg. subst g'. unfold emits, anthToResHandleContentBlockDelta. rewrite Ed. unfold delta_fits in Ef.
  apply orb_prop in Ef as [Ef|Ef]; [apply orb_prop in Ef as [Ef|Ef]|];
    apply andb_prop in Ef as [-> %String.eqb_eq Ef].
  - rewrite Ef. cbn in Ht. assert (m = true) as -> by (by apply Hm).
    destruct (ad_Text d =s? ""); [simulated|]. exec. unfold item_of. rewrite Ht. accept. simulated.
  - cbn in Ht. assert (m = false) as -> by (apply Hm; by left).
    destruct (ad_Type d =s? "text_delta") eqn:E1.
    { apply String.eqb_eq in E1. rewrite E1 in Ef. done. }
    destruct (ad_Type d =s? "thinking_delta") eqn:E2.
    + destruct (ad_Thinking d =s? ""); [simulated|]. exec. unfold item_of. rewrite Ht. accept. simulated.
    + destruct (ad_Type d =s? "input_json_delta") eqn:E3.
      { apply String.eqb_eq in E3. rewrite E3 in Ef. done. }
      simulated.
  - apply String.eqb_eq in Ef as Ef'. rewrite Ef'. cbn in Ht. assert (m = false) as -> by (apply Hm; by right). cbn.
    destruct (ad_PartialJSON d =s? ""); [simulated|]. exec. unfold item_of. rewrite Ht. accept. simulated.
Qed.

Lemma block_stop_emits evt w n ty m g' q :
  simulates (ABody n (Some ty), m) w q -> ase_Type evt = "content_block_stop" ->
  down_guard (ABody n (Some ty), m) evt = Some g' ->
  emits (anthToResHandleContentBlockStop evt) w q g'.
Proof.
  destruct w as [st r]. intros (Hc & Hd & Hr & Ht & Hm & ->) Ety Hg. cbn in Hc, Hd, Hr, Ht, Hm.
  unfold down_guard in Hg. unfold anth_step in Hg. rewrite Ety in Hg. cbn in Hg.
  destruct (index_is n (ase_Index evt)); cbn in Hg; [|done].
  assert (Hg' : g' = (ABody (add64 n 1) None, m)) by (destruct (ase_ContentBlock evt); congruence).
  clear Hg. subst g'. unfold emits, anthToResHandleContentBlockStop. exec. rewrite Ht.
  pose (st1 := st <| SequenceNumber := add64 (SequenceNumber st) 1 |>).
  destruct (close_item_accepted (OutputIndex st) st1 r Hr eq_refl)
    as (st' & outs & Hclose & Hacc & Hi & Ht' & Hr' & Hc' & Hd').
  { cbn. rewrite Ht. apply (type_for_ok (Some ty)). }
  subst st1. cbn in Hclose, Hc', Hd'.
  destruct (ty =s? "thinking") eqn:E1; [|destruct (ty =s? "tool_use") eqn:E2].
  - apply String.eqb_eq in E1. assert (m = false) as -> by (apply Hm; by left).
    cbn. rewrite Hclose. cbn. unfold item_of in Hacc |- *. cbn in Hacc. rewrite Ht in Hacc |- *. cbn in Hacc. accept. rewrite Hacc. simulated.
  - apply String.eqb_eq in E2. assert (m = false) as -> by (apply Hm; by right).
    cbn. rewrite Hclose. cbn. unfold item_of in Hacc |- *. cbn in Hacc. rewrite Ht in Hacc |- *. cbn in Hacc. accept. rewrite Hacc. simulated.
  - destruct m; cbn; [|simulated]. unfold item_of. rewrite Ht. accept. simulated.
Qed.

(** What completing a response emits closes the open item and the stream. *)
Lemma complete_emits w q open m :
  in_body open m (state w) q -> emits complete_response w q (AStop, m).
Proof.
  destruct w as [st r]. intros (Hc & Hd & Hr & Ht & _ & ->). cbn in *.
  destruct (close_item_accepted (OutputIndex st) st r Hr eq_refl)
    as (st' & outs & Hclose & Hacc & Hi & Ht' & Hr' & Hc' & Hd').
  { rewrite Ht. apply type_for_ok. }
  unfold emits, complete_response. exec. rewrite Hclose. exec. rewrite accepts_app, Hacc. accept. simulated.
Qed.

Lemma message_delta_emits evt w n m g' q :
  simulates (ABody n None, m) w q -> ase_Type evt = "message_delta" ->
  down_guard (ABody n None, m) evt = Some g' ->
  emits (anthToResHandleMessageDelta evt) w q g'.
Proof.
  destruct w as [st r]. intros (Hc & Hd & Hr & Ht & _ & ->) Ety Hg. cbn in Hc, Hd, Hr, Ht.
  unfold down_guard in Hg. unfold anth_step in Hg. rewrite Ety in Hg. cbn in Hg.
  destruct (is_some (ase_Delta evt) && is_some (ase_Usage evt)); cbn in Hg; [|done]. injection Hg as <-.
  unfold emits, anthToResHandleMessageDelta. exec.
  destruct (ase_Usage evt) as [u|]; [destruct (0 <? au_CacheReadInputTokens u)|]; cbn; simulated.
Qed.

(** Every event the discipline allows is answered by events the Responses
    grammar allows, and the states stay related. *)
Lemma step_simulates g w q evt g' :
  simulates g w q -> down_guard g evt = Some g' -> emits (AnthropicEventToResponsesEvents evt) w q g'.
Proof.
  intros HR Hg. unfold AnthropicEventToResponsesEvents. pose proof Hg as Hg'. unfold down_guard in Hg'.
  destruct g as [a m]. destruct (ase_Type evt =s? "ping") eqn:E0.
  { apply String.eqb_eq in E0. rewrite E0. injection Hg' as <-. exists q. done. }
  unfold anth_step in Hg'. destruct a as [|n [ty|]| |].
  - destruct (ase_Type evt =s? "message_start") eqn:E; [|done]. apply String.eqb_eq in E.
    eapply start_emits; eauto.
  - destruct (ase_Type evt =s? "content_block_delta") eqn:E1;
      [|destruct (ase_Type evt =s? "content_block_stop") eqn:E2; [|done]].
    + apply String.eqb_eq in E1. rewrite E1. eapply delta_emits; eauto.
    + apply String.eqb_eq in E2. rewrite E2. eapply block_stop_emits; eauto.
  - destruct (ase_Type evt =s? "content_block_start") eqn:E1;
      [|destruct (ase_Type evt =s? "message_delta") eqn:E2; [|done]].
    + apply String.eqb_eq in E1. rewrite E1. eapply block_start_emits; eauto.
    + apply String.eqb_eq in E2. rewrite E2. eapply message_delta_emits; eauto.
  - destruct (ase_Type evt =s? "message_stop") eqn:E; [|done]. apply String.eqb_eq in E. rewrite E.
    cbn in Hg'. injection Hg' as <-. cbn. pose proof HR as (_ & Hd & _).
    unfold emits, anthToResHandleMessageStop. rewrite flip_bind.
    change (flip_step get_state w) with (w, state w). cbv iota beta. rewrite Hd.
    exact (complete_emits w q None m HR).
  - done.
Qed.

(** ** What the converter promises *)

(** The converter's initial state; [ResponsesEventToSSE]'s callers may set the
    model before the first event. *)
Definition initial (now : Z) (model : string) (r : Rand) : World :=
  mkWorld (NewAnthropicEventToResponsesState now <| Model := model |>) r.

Lemma finalize_accepted g w q :
  simulates g w q ->
  accepts resp_step q (snd (flip_step FinalizeAnthropicResponsesStream w)) =
  Some (match fst g with AStart => RStart | _ => RDone end).
Proof.
  intros HR. unfold FinalizeAnthropicResponsesStream. rewrite flip_bind.
  change (flip_step get_state w) with (w, state w). cbv iota beta.
  assert (Hbody : forall open m, in_body open m (state w) q ->
    accepts resp_step q (snd (flip_step (if negb (CreatedSent (state w)) || CompletedSent (state w)
                                         then mret [] else complete_response) w)) = Some RDone).
  { intros open m Hb. destruct (complete_emits w q open m Hb) as (q' & Hacc & _ & _ & ->).
    destruct Hb as (-> & -> & _). done. }
  destruct g as [[|n open| |] m]; try (by eapply Hbody); destruct w as [st r]; cbn in HR |- *.
  - destruct HR as (_ & -> & _ & _ & _ & ->). done.
  - destruct HR as (-> & -> & ->). done.
Qed.

(** C14: A client of the converter sees a well-formed Responses stream: for every
    stream of Anthropic events that is grammatical as far as it goes and in which
    no thinking block follows a text block, cut anywhere, the events of the session (the handlers, then the finalizer)
    open output items at consecutive indexes one at a time, name the open item
    in every event of it, repeat in the done events exactly the text or
    arguments of the deltas, and end with one response.completed, unless the
    stream was empty. *)
Theorem grammatical_stream_accepted (now : Z) (model : string) (r : Rand)
    (evts : list AnthropicStreamEvent) (g : anth_state * bool) :
  grammatical evts = Some g ->
  accepts resp_step RStart (snd (session evts (initial now model r))) =
  Some (match fst g with AStart => RStart | _ => RDone end).
Proof.
  intros Hg. unfold session.
  destruct (run_accepted resp_step down_guard simulates) with (evts := evts) (g := (AStart, false))
    (st := initial now model r) (q := RStart) (g' := g) as (q & Hacc & HR); [| done | exact Hg |].
  - intros g1 st q e g' HR Hg'. exact (step_simulates g1 st q e g' HR Hg').
  - pose proof (finalize_accepted g _ q HR) as Hfin.
    destruct (run evts (initial now model r)) as [w1 o1]. cbn in Hacc, Hfin |- *.
    destruct (flip_step FinalizeAnthropicResponsesStream w1) as [w2 o2]. cbn in *.
    rewrite accepts_app, Hacc. exact Hfin.
Qed.

Definition start_event : AnthropicStreamEvent :=
  zero_AnthropicStreamEvent <| ase_Type := "message_start" |>
    <| ase_Message := Some (zero_AnthropicResponse <| ares_ID := "msg_1" |>) |>.

Definition open_event (i : Z) (b : AnthropicContentBlock) : AnthropicStreamEvent :=
  zero_AnthropicStreamEvent <| ase_Type := "content_block_start" |> <| ase_Index := Some i |>
    <| ase_ContentBlock := Some b |>.

Definition delta_event (i : Z) (d : AnthropicDelta) : AnthropicStreamEvent :=
  zero_AnthropicStreamEvent <| ase_Type := "content_block_delta" |> <| ase_Index := Some i |>
    <| ase_Delta := Some d |>.

Definition close_event (i : Z) : AnthropicStreamEvent :=
  zero_AnthropicStreamEvent <| ase_Type := "content_block_stop" |> <| ase_Index := Some i |>.

(** Text, then a tool call, cut before its block is closed. *)
Definition sample_stream : list AnthropicStreamEvent :=
  [start_event;
   open_event 0 (zero_AnthropicContentBlock <| acb_Type := "text" |>);
   delta_event 0 (zero_AnthropicDelta <| ad_Type := "text_delta" |> <| ad_Text := "hello" |>);
   close_event 0;
   open_event 1 (zero_AnthropicContentBlock <| acb_Type := "tool_use" |> <| acb_ID := "toolu_1" |>
                   <| acb_Name := "Read" |>);
   delta_event 1 (zero_AnthropicDelta <| ad_Type := "input_json_delta" |> <| ad_PartialJSON := "{}" |>)].

Lemma grammatical_stream_accepted_witness :
  grammatical sample_stream = Some (ABody 1 (Some "tool_use"), false) /\
  accepts resp_step RStart (snd (session sample_stream (initial 0 "" (mkRand (fun n => pretty n) 0)))) = Some RDone.
Proof.
  split; [vm_compute; reflexivity|].
  apply (grammatical_stream_accepted 0 "" (mkRand (fun n => pretty n) 0) sample_stream
           (ABody 1 (Some "tool_use"), false)).
  vm_compute. reflexivity.
Defined.

(** ** Sequence numbers *)

Definition seq_step (n : Z) (e : ResponsesStreamEvent) : option Z :=
  if rse_SequenceNumber e =? n then Some (add64 n 1) else None.

Definition numbers (m : M (list Event)) : Prop := forall w,
  accepts seq_step (SequenceNumber (state w)) (snd (flip_step m w)) = Some (SequenceNumber (state (fst (flip_step m w)))).

(** Runs every branch of a handler and reads the numbers of its events. *)
Ltac numbered :=
  intros [st r]; unfold seq_step; unfold closeCurrentResponsesItem; exec;
  repeat (case_match; exec; simplify_eq/=; try congruence; rewrite ?Z.eqb_refl); repeat progress (cbn; rewrite ?Z.eqb_refl); reflexivity.

Lemma step_numbers evt : numbers (AnthropicEventToResponsesEvents evt).
Proof.
  unfold AnthropicEventToResponsesEvents. repeat case_match.
  - unfold anthToResHandleMessageStart. numbered.
  - unfold anthToResHandleContentBlockStart. numbered.
  - unfold anthToResHandleContentBlockDelta. numbered.
  - unfold anthToResHandleContentBlockStop. numbered.
  - unfold anthToResHandleMessageDelta. numbered.
  - unfold anthToResHandleMessageStop, complete_response. numbered.
  - numbered.
Qed.

Lemma finalize_numbers : numbers FinalizeAnthropicResponsesStream.
Proof. unfold FinalizeAnthropicResponsesStream, complete_response. numbered. Qed.

(** What every step and the finalizer keep, a session keeps. *)
Lemma run_preserves (P : World -> list Event -> World -> Prop) :
  (forall w, P w [] w) ->
  (forall w1 o1 w2 o2 w3, P w1 o1 w2 -> P w2 o2 w3 -> P w1 (o1 ++ o2)%list w3) ->
  (forall evt w, P w (snd (flip_step (AnthropicEventToResponsesEvents evt) w))
                   (fst (flip_step (AnthropicEventToResponsesEvents evt) w))) ->
  (forall w, P w (snd (flip_step FinalizeAnthropicResponsesStream w))
               (fst (flip_step FinalizeAnthropicResponsesStream w))) ->
  forall evts w, P w (snd (session evts w)) (fst (session evts w)).
Proof.
  intros H0 Happ Hstep Hfin evts w. unfold session.
  assert (Hrun : P w (snd (run evts w)) (fst (run evts w))).
  { revert w. induction evts as [|e evts IH]; intros w; cbn [run]; [apply H0|].
    pose proof (Hstep e w) as Hs. cbn [sc_step anthropic_to_responses_converter].
    destruct (flip_step (AnthropicEventToResponsesEvents e) w) as [w1 o1].
    pose proof (IH w1) as Hr. destruct (run evts w1) as [w2 o2]. cbn in *. eapply Happ; eauto. }
  destruct (run evts w) as [w1 o1]. pose proof (Hfin w1) as Hf. cbn [sc_finalize anthropic_to_responses_converter].
  destruct (flip_step FinalizeAnthropicResponsesStream w1) as [w2 o2]. cbn in *. eapply Happ; eauto.
Qed.

(** Whatever the upstream sends, the events of a session carry the
    sequence numbers 0, 1, 2, ... in the order they are sent (modulo the
    64-bit wrap), the finalizer's included. *)
Theorem sequence_numbers_consecutive (now : Z) (model : string) (r : Rand) (evts : list AnthropicStreamEvent) :
  let outs := snd (session evts (initial now model r)) in
  map rse_SequenceNumber outs = map (fun i => wrap64 (Z.of_nat i)) (seq 0 (length outs)).
Proof.
  intros outs. subst outs.
  assert (H : accepts seq_step (SequenceNumber (state (initial now model r))) (snd (session evts (initial now model r))) =
              Some (SequenceNumber (state (fst (session evts (initial now model r)))))).
  { apply (run_preserves (fun w o w' => accepts seq_step (SequenceNumber (state w)) o = Some (SequenceNumber (state w'))));
      [intros w; reflexivity | | exact step_numbers | exact finalize_numbers].
    intros ????? H1 H2. cbv beta in *. rewrite accepts_app, H1. exact H2. }
  revert H. generalize (fst (session evts (initial now model r))). generalize (snd (session evts (initial now model r))).
  intros o w. change (SequenceNumber (state (initial now model r))) with (wrap64 (Z.of_nat 0)).
  generalize 0%nat. induction o as [|e o IH]; intros n H; [done|]. cbn [accepts] in H.
  destruct (seq_step (wrap64 (Z.of_nat n)) e) as [n'|] eqn:E; [|done]. unfold seq_step in E.
  destruct (Z.eqb_spec (rse_SequenceNumber e) (wrap64 (Z.of_nat n))) as [En|]; [|done]. injection E as <-.
  cbn. rewrite En. f_equal. apply IH. cbn in H. rewrite <- H, add64_wrap. repeat f_equal. lia.
Qed.

(** ** The stop reason *)

Definition reports_completed (e : ResponsesStreamEvent) : bool :=
  if rse_Type e =s? "response.completed" then
    match rse_Response e with
    | Some resp => (rres_Status resp =s? "completed") && negb (is_some (rres_IncompleteDetails resp))
    | None => false
    end
  else true.

Definition all_completed (m : M (list Event)) : Prop := forall w,
  forallb reports_completed (snd (flip_step m w)) = true.

Ltac completed :=
  intros [st r]; unfold closeCurrentResponsesItem; exec;
  repeat (case_match; exec; simplify_eq/=; try congruence); reflexivity.

Lemma step_completed evt : all_completed (AnthropicEventToResponsesEvents evt).
Proof.
  unfold AnthropicEventToResponsesEvents. repeat case_match.
  - unfold anthToResHandleMessageStart. completed.
  - unfold anthToResHandleContentBlockStart. completed.
  - unfold anthToResHandleContentBlockDelta. completed.
  - unfold anthToResHandleContentBlockStop. completed.
  - unfold anthToResHandleMessageDelta. completed.
  - unfold anthToResHandleMessageStop, complete_response. completed.
  - completed.
Qed.

Lemma finalize_completed : all_completed FinalizeAnthropicResponsesStream.
Proof. unfold FinalizeAnthropicResponsesStream, complete_response. completed. Qed.

(** The stop reason is lost in streams: whatever the upstream's
    message_delta says (max_tokens included), a streamed response is reported
    with status "completed" and no incomplete details, while the
    non-streaming conversion of a message stopped by max_tokens reports
    "incomplete" with reason max_output_tokens. *)
Theorem stop_reason_only_in_buffered (now : Z) (model : string) (r : Rand)
    (evts : list AnthropicStreamEvent) (resp : AnthropicResponse) :
  forallb reports_completed (snd (session evts (initial now model r))) = true /\
  let buffered := fst (AnthropicToResponsesResponse resp r) in
  rres_Status buffered = (if ares_StopReason resp =s? "max_tokens" then "incomplete" else "completed") /\
  option_map rid_Reason (rres_IncompleteDetails buffered) =
    (if ares_StopReason resp =s? "max_tokens" then Some "max_output_tokens" else None).
Proof.
  split.
  - apply (run_preserves (fun _ o _ => forallb reports_completed o = true));
      [done | | intros; apply step_completed | intros; apply finalize_completed].
    intros ????? H1 H2. rewrite forallb_app, H1, H2. done.
  - unfold AnthropicToResponsesResponse, anthropicStopReasonToResponsesStatus. cbv [mbind st_bind mret st_ret].
    repeat (case_match; simplify_eq/=); auto.
Qed.

(** A text block, then a thinking block: grammatical for Anthropic. *)
Definition text_then_thinking : list AnthropicStreamEvent :=
  [start_event;
   open_event 0 (zero_AnthropicContentBlock <| acb_Type := "text" |>);
   delta_event 0 (zero_AnthropicDelta <| ad_Type := "text_delta" |> <| ad_Text := "hello" |>);
   close_event 0;
   open_event 1 (zero_AnthropicContentBlock <| acb_Type := "thinking" |>)].

(** A thinking block after a text block breaks the Responses stream: the
    handler of content_block_start closes the open item before a tool call
    but not before a thinking block, so the reasoning item is added while
    the message item is open, at the same output index, and the message's
    output_item.done is never sent. *)
Theorem thinking_after_text_rejected (now : Z) (model : string) (r : Rand) :
  accepts anth_step AStart text_then_thinking = Some (ABody 1 (Some "thinking")) /\
  accepts resp_step RStart (snd (run text_then_thinking (initial now model r))) = None /\
  map (fun e => (rse_Type e, rse_OutputIndex e))
    (List.filter (fun e => has_prefix (rse_Type e) "response.output_item")
       (snd (session text_then_thinking (initial now model r)))) =
  [("response.output_item.added", 0); ("response.output_item.added", 0); ("response.output_item.done", 0)].
Proof.
  split; [vm_compute; reflexivity|]. unfold session, initial.
  split; cbn; unfold anthToResHandleMessageStart, anthToResHandleContentBlockStart, anthToResHandleContentBlockDelta,
    anthToResHandleContentBlockStop, FinalizeAnthropicResponsesStream, complete_response, closeCurrentResponsesItem;
    exec; destruct (model =s? ""); accept; reflexivity.
Qed.
