(* ===== verification/ResponsesToChat.v ===== *)
(** * apicompat: Responses output to Chat Completions output
      (internal/pkg/apicompat/responses_to_chatcompletions.go)

    The non-streaming conversion, the stateful stream converter, and the
    accumulator that rebuilds a response from its delta events. *)

From S2P Require Import Prelude GoStrings Json Types Codec Streaming Crypto.

Definition generateChatCmplID : ST Rand string := b ← rand_read; mret ("chatcmpl-" +:+ hex_encode b).

(** ** Usage *)

Definition promptDetailsFromResponses (src : option ResponsesInputTokensDetails) : option ChatTokenDetails :=
  match src with
  | None => None
  | Some src =>
      if (ritd_CachedTokens src =? 0) && (ritd_AudioTokens src =? 0) &&
         (ritd_CacheCreationTokens src =? 0) && (ritd_CacheWriteTokens src =? 0) then None else
      Some (zero_ChatTokenDetails <| ctd_CachedTokens := ritd_CachedTokens src |>
              <| ctd_AudioTokens := ritd_AudioTokens src |>
              <| ctd_CacheCreationTokens := ritd_CacheCreationTokens src |>
              <| ctd_CacheWriteTokens := ritd_CacheWriteTokens src |>)
  end.

Definition completionDetailsFromResponses (src : option ResponsesOutputTokensDetails) : option ChatTokenDetails :=
  match src with
  | None => None
  | Some src =>
      if (rotd_ReasoningTokens src =? 0) && (rotd_AudioTokens src =? 0) &&
         (rotd_AcceptedPredictionTokens src =? 0) && (rotd_RejectedPredictionTokens src =? 0) then None else
      Some (zero_ChatTokenDetails <| ctd_ReasoningTokens := rotd_ReasoningTokens src |>
              <| ctd_AudioTokens := rotd_AudioTokens src |>
              <| ctd_AcceptedPredictionTokens := rotd_AcceptedPredictionTokens src |>
              <| ctd_RejectedPredictionTokens := rotd_RejectedPredictionTokens src |>)
  end.

Definition chatUsageFromResponsesUsage (u : ResponsesUsage) : ChatUsage :=
  let usage := zero_ChatUsage <| cu_PromptTokens := ru_InputTokens u |>
                 <| cu_CompletionTokens := ru_OutputTokens u |>
                 <| cu_TotalTokens := add64 (ru_InputTokens u) (ru_OutputTokens u) |>
                 <| cu_PromptTokensDetails := promptDetailsFromResponses (ru_InputTokensDetails u) |> in
  let usage :=
    if 0 <? ru_CacheCreationInputTokens u then
      let d := default zero_ChatTokenDetails (cu_PromptTokensDetails usage) in
      usage <| cu_PromptTokensDetails := Some
        (if (ctd_CacheWriteTokens d =? 0) && (ctd_CacheCreationTokens d =? 0)
         then d <| ctd_CacheCreationTokens := ru_CacheCreationInputTokens u |> else d) |>
    else usage in
  usage <| cu_CompletionTokensDetails := completionDetailsFromResponses (ru_OutputTokensDetails u) |>.

(** ** Non-streaming *)

Definition responsesStatusToChatFinishReason (status : string) (details : option ResponsesIncompleteDetails)
    (toolCalls : list ChatToolCall) : string :=
  if status =s? "incomplete" then
    match details with
    | Some d => if rid_Reason d =s? "max_output_tokens" then "length" else "stop"
    | None => "stop"
    end
  else if status =s? "completed" then
    if nonempty toolCalls then "tool_calls" else "stop"
  else "stop".

(** [contentText], [reasoningText] and [toolCalls] of the loop. *)
Record Collected : Type := mkCollected {
  contentText : string;
  reasoningText : string;
  toolCalls : list ChatToolCall
}.
#[export] Instance eta_Collected : Settable Collected := fun r =>
  mkCollected (contentText r) (reasoningText r) (toolCalls r).

Definition collect_part (acc : Collected) (part : ResponsesContentPart) : Collected :=
  if (rcp_Type part =s? "output_text") && (rcp_Text part <>s? "")
  then acc <| contentText := contentText acc +:+ rcp_Text part |> else acc.

Definition collect_summary (acc : Collected) (s : ResponsesSummary) : Collected :=
  if (rs_Type s =s? "summary_text") && (rs_Text s <>s? "")
  then acc <| reasoningText := reasoningText acc +:+ rs_Text s |> else acc.

Definition collect_item (acc : Collected) (item : ResponsesOutput) : Collected :=
  if ro_Type item =s? "message" then foldl collect_part acc (ro_Content item)
  else if ro_Type item =s? "function_call" then
    acc <| toolCalls := (toolCalls acc ++
      [zero_ChatToolCall <| ctc_ID := ro_CallID item |> <| ctc_Type := "function" |>
         <| ctc_Function := mkChatFunctionCall (ro_Name item) (ro_Arguments item) |>])%list |>
  else if ro_Type item =s? "reasoning" then foldl collect_summary acc (ro_Summary item)
  else acc.

Definition ResponsesToChatCompletions (now : Z) (resp : ResponsesResponse) (model : string)
    : ST Rand ChatCompletionsResponse :=
  id ← (if rres_ID resp =s? "" then generateChatCmplID else mret (rres_ID resp));
  let out := zero_ChatCompletionsResponse <| cres_ID := id |> <| cres_Object := "chat.completion" |>
               <| cres_Created := now |> <| cres_Model := model |> in
  let c := foldl collect_item (mkCollected "" "" []) (rres_Output resp) in
  let msg := zero_ChatMessage <| cm_Role := "assistant" |> <| cm_ToolCalls := toolCalls c |> in
  let msg := if contentText c =s? "" then msg
             else msg <| cm_Content := marshal_or_nil (enc_string (contentText c)) |> in
  let msg := if reasoningText c =s? "" then msg
             else msg <| cm_ReasoningContent := reasoningText c |> in
  let finishReason :=
    responsesStatusToChatFinishReason (rres_Status resp) (rres_IncompleteDetails resp) (toolCalls c) in
  mret (out <| cres_Choices := [mkChatChoice 0 msg finishReason] |>
            <| cres_Usage := option_map chatUsageFromResponsesUsage (rres_Usage resp) |>).

(** ** Streaming *)

Record ResponsesEventToChatState : Type := mkResponsesEventToChatState {
  ID : string;
  Model : string;
  Created : Z;
  SentRole : bool;
  SawToolCall : bool;
  SawText : bool;
  Finalized : bool;
  NextToolCallIndex : Z;
  OutputIndexToToolIndex : gmap Z Z;
  IncludeUsage : bool;
  Usage : option ChatUsage
}.
#[export] Instance eta_ResponsesEventToChatState : Settable ResponsesEventToChatState := fun r =>
  mkResponsesEventToChatState (ID r) (Model r) (Created r) (SentRole r) (SawToolCall r) (SawText r)
    (Finalized r) (NextToolCallIndex r) (OutputIndexToToolIndex r) (IncludeUsage r) (Usage r).

Abbreviation Chunk := ChatCompletionsChunk.

Definition NewResponsesEventToChatState (now : Z) : ST Rand ResponsesEventToChatState :=
  id ← generateChatCmplID;
  mret (mkResponsesEventToChatState id "" now false false false false 0 ∅ false None).

Definition base_chunk (state : ResponsesEventToChatState) : Chunk :=
  zero_ChatCompletionsChunk <| chunk_ID := ID state |> <| chunk_Object := "chat.completion.chunk" |>
    <| chunk_Created := Created state |> <| chunk_Model := Model state |>.

Definition makeChatDeltaChunk (state : ResponsesEventToChatState) (delta : ChatDelta) : Chunk :=
  base_chunk state <| chunk_Choices := [mkChatChunkChoice 0 delta None] |>.

Definition makeChatFinishChunk (state : ResponsesEventToChatState) (finishReason : string) : Chunk :=
  base_chunk state <| chunk_Choices :=
    [mkChatChunkChoice 0 (zero_ChatDelta <| cd_Content := Some "" |>) (Some finishReason)] |>.

(** The usage chunk both terminal paths append. *)
Definition usage_chunks (state : ResponsesEventToChatState) : list Chunk :=
  if IncludeUsage state && is_some (Usage state)
  then [base_chunk state <| chunk_Choices := [] |> <| chunk_Usage := Usage state |>] else [].

Definition resToChatHandleCreated (evt : ResponsesStreamEvent) (state : ResponsesEventToChatState)
    : ResponsesEventToChatState * list Chunk :=
  let state :=
    match rse_Response evt with
    | None => state
    | Some resp =>
        let state := if rres_ID resp =s? "" then state else state <| ID := rres_ID resp |> in
        if (Model state =s? "") && (rres_Model resp <>s? "") then state <| Model := rres_Model resp |> else state
    end in
  if SentRole state then (state, []) else
  let state := state <| SentRole := true |> in
  (state, [makeChatDeltaChunk state (zero_ChatDelta <| cd_Role := "assistant" |>)]).

Definition resToChatHandleTextDelta (evt : ResponsesStreamEvent) (state : ResponsesEventToChatState)
    : ResponsesEventToChatState * list Chunk :=
  if rse_Delta evt =s? "" then (state, []) else
  let state := state <| SawText := true |> in
  (state, [makeChatDeltaChunk state (zero_ChatDelta <| cd_Content := Some (rse_Delta evt) |>)]).

Definition is_tool_item (item : ResponsesOutput) : bool :=
  (ro_Type item =s? "function_call") || (ro_Type item =s? "custom_tool_call").

Definition resToChatHandleOutputItemAdded (evt : ResponsesStreamEvent) (state : ResponsesEventToChatState)
    : ResponsesEventToChatState * list Chunk :=
  match rse_Item evt with
  | None => (state, [])
  | Some item =>
      if negb (is_tool_item item) then (state, []) else
      let idx := NextToolCallIndex state in
      let state := state <| SawToolCall := true |>
        <| OutputIndexToToolIndex := <[rse_OutputIndex evt := idx]> (OutputIndexToToolIndex state) |>
        <| NextToolCallIndex := add64 idx 1 |> in
      (state, [makeChatDeltaChunk state (zero_ChatDelta <| cd_ToolCalls :=
         [zero_ChatToolCall <| ctc_Index := Some idx |> <| ctc_ID := ro_CallID item |> <| ctc_Type := "function" |>
            <| ctc_Function := mkChatFunctionCall (ro_Name item) "" |>] |>)])
  end.

Definition resToChatHandleFuncArgsDelta (evt : ResponsesStreamEvent) (state : ResponsesEventToChatState)
    : ResponsesEventToChatState * list Chunk :=
  if rse_Delta evt =s? "" then (state, []) else
  match OutputIndexToToolIndex state !! rse_OutputIndex evt with
  | None => (state, [])
  | Some idx =>
      (state, [makeChatDeltaChunk state (zero_ChatDelta <| cd_ToolCalls :=
         [zero_ChatToolCall <| ctc_Index := Some idx |>
            <| ctc_Function := mkChatFunctionCall "" (rse_Delta evt) |>] |>)])
  end.

Definition resToChatHandleReasoningDelta (evt : ResponsesStreamEvent) (state : ResponsesEventToChatState)
    : ResponsesEventToChatState * list Chunk :=
  if rse_Delta evt =s? "" then (state, []) else
  (state, [makeChatDeltaChunk state (zero_ChatDelta <| cd_ReasoningContent := Some (rse_Delta evt) |>)]).

Definition resToChatHandleCompleted (evt : ResponsesStreamEvent) (state : ResponsesEventToChatState)
    : ResponsesEventToChatState * list Chunk :=
  let state := state <| Finalized := true |> in
  let state := match rse_Usage evt with
               | Some u => state <| Usage := Some (chatUsageFromResponsesUsage u) |>
               | None => state
               end in
  let '(state, finishReason) :=
    match rse_Response evt with
    | Some resp =>
        let state := match rres_Usage resp with
                     | Some u => state <| Usage := Some (chatUsageFromResponsesUsage u) |>
                     | None => state
                     end in
        (state,
         if rres_Status resp =s? "incomplete" then
           match rres_IncompleteDetails resp with
           | Some d => if rid_Reason d =s? "max_output_tokens" then "length" else "stop"
           | None => "stop"
           end
         else if rres_Status resp =s? "completed" then
           if SawToolCall state then "tool_calls" else "stop"
         else "stop")
    | None => (state, if SawToolCall state then "tool_calls" else "stop")
    end in
  (state, makeChatFinishChunk state finishReason :: usage_chunks state).

Definition is_args_delta (typ : string) : bool :=
  (typ =s? "response.function_call_arguments.delta") || (typ =s? "response.custom_tool_call_input.delta").
Definition is_reasoning_delta (typ : string) : bool :=
  (typ =s? "response.reasoning_summary_text.delta") || (typ =s? "response.reasoning_text.delta").
Definition is_terminal (typ : string) : bool :=
  (typ =s? "response.completed") || (typ =s? "response.incomplete") || (typ =s? "response.failed").

Definition ResponsesEventToChatChunks (evt : ResponsesStreamEvent) (state : ResponsesEventToChatState)
    : ResponsesEventToChatState * list Chunk :=
  let typ := rse_Type evt in
  if typ =s? "response.created" then resToChatHandleCreated evt state
  else if typ =s? "response.output_text.delta" then resToChatHandleTextDelta evt state
  else if typ =s? "response.output_item.added" then resToChatHandleOutputItemAdded evt state
  else if is_args_delta typ then resToChatHandleFuncArgsDelta evt state
  else if is_reasoning_delta typ then resToChatHandleReasoningDelta evt state
  else if typ =s? "response.reasoning_summary_text.done" then (state, [])
  else if is_terminal typ then resToChatHandleCompleted evt state
  else (state, []).

Definition FinalizeResponsesChatStream (state : ResponsesEventToChatState)
    : ResponsesEventToChatState * list Chunk :=
  if Finalized state then (state, []) else
  let state := state <| Finalized := true |> in
  let finishReason := if SawToolCall state then "tool_calls" else "stop" in
  (state, makeChatFinishChunk state finishReason :: usage_chunks state).

Definition ChatChunkToSSE (chunk : Chunk) : result string :=
  data ← marshal (enc_ChatCompletionsChunk chunk);
  mret ("data: " +:+ data +:+ String newline (String newline "")).

#[export] Instance responses_to_chat_converter : StreamConverter ResponsesEventToChatState ResponsesStreamEvent Chunk := {|
  sc_step := ResponsesEventToChatChunks;
  sc_finalize := FinalizeResponsesChatStream;
|}.

(** ** BufferedResponseAccumulator

    [funcCalls] is a Go slice of structs that embed a [strings.Builder].  A
    builder remembers the address of its first write and panics when written
    to from another address; [append] moves the elements when the capacity is
    exhausted.  The backing array is named by the number of moves, [grow]
    is the runtime's choice of the next capacity. *)

Section Accumulator.
Variable grow : nat -> nat.

Record Builder : Type := mkBuilder { addr : option nat; buf : string }.

Definition WriteString (here : nat) (b : Builder) (s : string) : option Builder :=
  match addr b with
  | None => Some (mkBuilder (Some here) (buf b +:+ s))
  | Some a => if (a =? here)%nat then Some (mkBuilder (Some a) (buf b +:+ s)) else None
  end.

Record bufferedFuncCall : Type := mkbufferedFuncCall { CallID : string; Name : string; Args : Builder }.

Record BufferedResponseAccumulator : Type := mkBufferedResponseAccumulator {
  text : string;
  reasoning : string;
  funcCalls : list bufferedFuncCall;
  backing : nat;  (* the array that holds funcCalls *)
  capacity : nat; (* its length *)
  outputIndexToFuncIdx : gmap Z nat
}.
#[export] Instance eta_BufferedResponseAccumulator : Settable BufferedResponseAccumulator := fun r =>
  mkBufferedResponseAccumulator (text r) (reasoning r) (funcCalls r) (backing r) (capacity r) (outputIndexToFuncIdx r).

Definition NewBufferedResponseAccumulator : BufferedResponseAccumulator :=
  mkBufferedResponseAccumulator "" "" [] 0 0 ∅.

Definition append_call (c : bufferedFuncCall) (a : BufferedResponseAccumulator) : BufferedResponseAccumulator :=
  let a := if (length (funcCalls a) <? capacity a)%nat then a
           else a <| backing := S (backing a) |> <| capacity := grow (capacity a) |> in
  a <| funcCalls := (funcCalls a ++ [c])%list |>.

(** [None] is the panic of [WriteString]. *)
Definition ProcessEvent (event : ResponsesStreamEvent) (a : BufferedResponseAccumulator)
    : option BufferedResponseAccumulator :=
  let typ := rse_Type event in
  if typ =s? "response.output_text.delta" then
    Some (if rse_Delta event =s? "" then a else a <| text := text a +:+ rse_Delta event |>)
  else if typ =s? "response.output_item.added" then
    match rse_Item event with
    | None => Some a
    | Some item =>
        if negb (is_tool_item item) then Some a else
        let idx := length (funcCalls a) in
        let a := a <| outputIndexToFuncIdx := <[rse_OutputIndex event := idx]> (outputIndexToFuncIdx a) |> in
        Some (append_call (mkbufferedFuncCall (ro_CallID item) (ro_Name item) (mkBuilder None "")) a)
    end
  else if is_args_delta typ then
    if rse_Delta event =s? "" then Some a else
    match outputIndexToFuncIdx a !! rse_OutputIndex event with
    | None => Some a
    | Some idx =>
        c ← funcCalls a !! idx;
        b ← WriteString (backing a) (Args c) (rse_Delta event);
        Some (a <| funcCalls := <[idx := mkbufferedFuncCall (CallID c) (Name c) b]> (funcCalls a) |>)
    end
  else if is_reasoning_delta typ then
    Some (if rse_Delta event =s? "" then a else a <| reasoning := reasoning a +:+ rse_Delta event |>)
  else Some a.

Definition process (events : list ResponsesStreamEvent) (a : BufferedResponseAccumulator)
    : option BufferedResponseAccumulator :=
  foldl (fun oa e => a ← oa; ProcessEvent e a) (Some a) events.
End Accumulator.

Definition HasContent (a : BufferedResponseAccumulator) : bool :=
  (text a <>s? "") || nonempty (funcCalls a) || (reasoning a <>s? "").

Definition BuildOutput (a : BufferedResponseAccumulator) : list ResponsesOutput :=
  ((if reasoning a =s? "" then [] else
      [zero_ResponsesOutput <| ro_Type := "reasoning" |>
         <| ro_Summary := [mkResponsesSummary "summary_text" (reasoning a)] |>]) ++
   (if text a =s? "" then [] else
      [zero_ResponsesOutput <| ro_Type := "message" |> <| ro_Role := "assistant" |>
         <| ro_Content := [zero_ResponsesContentPart <| rcp_Type := "output_text" |> <| rcp_Text := text a |>] |>]) ++
   map (fun c => zero_ResponsesOutput <| ro_Type := "function_call" |> <| ro_CallID := CallID c |>
                   <| ro_Name := Name c |> <| ro_Arguments := buf (Args c) |>) (funcCalls a))%list.

Definition SupplementResponseOutput (a : BufferedResponseAccumulator) (resp : option ResponsesResponse)
    : option ResponsesResponse :=
  match resp with
  | None => None
  | Some resp =>
      if nonempty (rres_Output resp) then Some resp
      else if negb (HasContent a) then Some resp
      else Some (resp <| rres_Output := BuildOutput a |>)
  end.
