(* ===== verification/ResponsesToChatSpec.v ===== *)
(** * Contract of the Responses to Chat Completions conversions

    A streaming client rebuilds the message from the chunks; a non-streaming
    one gets the message the accumulator and [ResponsesToChatCompletions]
    build.  They agree. *)

From S2P Require Import Prelude GoStrings Json Types Codec Streaming Crypto ResponsesToChat.

(** ** What a client makes of the chunks *)

Record ClientCall : Type := mkClientCall { cl_id : string; cl_name : string; cl_args : string }.

Record Client : Type := mkClient {
  cl_text : string;
  cl_reasoning : string;
  cl_calls : list ClientCall;
  cl_finish : list string (* the finish reasons, in order *)
}.

(** A tool-call delta with the next index opens a call; one with an earlier
    index extends that call. *)
Definition apply_call (calls : list ClientCall) (tc : ChatToolCall) : list ClientCall :=
  let f := ctc_Function tc in
  match ctc_Index tc with
  | None => calls
  | Some i =>
      if i =? Z.of_nat (length calls)
      then (calls ++ [mkClientCall (ctc_ID tc) (cfc_Name f) (cfc_Arguments f)])%list
      else alter (fun c => mkClientCall (cl_id c +:+ ctc_ID tc) (cl_name c +:+ cfc_Name f) (cl_args c +:+ cfc_Arguments f))
             (Z.to_nat i) calls
  end.

Definition apply_choice (c : Client) (choice : ChatChunkChoice) : Client :=
  let d := ccc_Delta choice in
  mkClient (cl_text c +:+ default "" (cd_Content d)) (cl_reasoning c +:+ default "" (cd_ReasoningContent d))
    (foldl apply_call (cl_calls c) (cd_ToolCalls d))
    (cl_finish c ++ match ccc_FinishReason choice with Some r => [r] | None => [] end)%list.

Definition apply_chunk (c : Client) (chunk : Chunk) : Client := foldl apply_choice c (chunk_Choices chunk).

Definition reconstruct (chunks : list Chunk) : Client := foldl apply_chunk (mkClient "" "" [] []) chunks.

(** ** The stream and the accumulator in step *)

Definition client_call (c : bufferedFuncCall) : ClientCall := mkClientCall (CallID c) (Name c) (buf (Args c)).

Definition in_step (st : ResponsesEventToChatState) (a : BufferedResponseAccumulator) (c : Client) : Prop :=
  cl_text c = text a /\ cl_reasoning c = reasoning a /\ cl_calls c = map client_call (funcCalls a) /\
  NextToolCallIndex st = Z.of_nat (length (funcCalls a)) /\
  SawToolCall st = nonempty (funcCalls a) /\
  OutputIndexToToolIndex st = Z.of_nat <$> outputIndexToFuncIdx a /\
  map_Forall (fun _ i => (i < length (funcCalls a))%nat) (outputIndexToFuncIdx a).

(** The chunks of a terminal event change nothing a client collects. *)
Lemma apply_terminal c st reason :
  let c' := foldl apply_chunk c (makeChatFinishChunk st reason :: usage_chunks st) in
  cl_text c' = cl_text c /\ cl_reasoning c' = cl_reasoning c /\ cl_calls c' = cl_calls c /\
  cl_finish c' = (cl_finish c ++ [reason])%list.
Proof.
  unfold usage_chunks. destruct (IncludeUsage st && is_some (Usage st)); cbn; rewrite !string_app_nil_r; done.
Qed.

Lemma completed_in_step evt st a c :
  in_step st a c ->
  in_step (fst (resToChatHandleCompleted evt st)) a (foldl apply_chunk c (snd (resToChatHandleCompleted evt st))).
Proof.
  intros (H1 & H2 & H3 & H4 & H5 & H6 & H7). unfold resToChatHandleCompleted.
  destruct (rse_Response evt) as [resp|]; [destruct (rres_Usage resp)|]; destruct (rse_Usage evt); cbn [fst snd];
    match goal with |- in_step ?s _ (foldl _ _ (makeChatFinishChunk _ ?r :: _)) =>
      pose proof (apply_terminal c s r) as (E1 & E2 & E3 & _) end;
    unfold in_step; rewrite E1, E2, E3; done.
Qed.

Lemma created_in_step evt st a c :
  in_step st a c ->
  in_step (fst (resToChatHandleCreated evt st)) a (foldl apply_chunk c (snd (resToChatHandleCreated evt st))).
Proof.
  intros H. unfold resToChatHandleCreated.
  assert (Hid : forall st', NextToolCallIndex st' = NextToolCallIndex st -> SawToolCall st' = SawToolCall st ->
    OutputIndexToToolIndex st' = OutputIndexToToolIndex st -> in_step st' a c).
  { unfold in_step in *. intros st' -> -> ->. done. }
  assert (Hrole : forall st' st'', in_step st' a c ->
    in_step st' a (foldl apply_chunk c [makeChatDeltaChunk st'' (zero_ChatDelta <| cd_Role := "assistant" |>)])).
  { unfold in_step. cbn. intros st' _. rewrite !string_app_nil_r. done. }
  repeat (case_match; cbn [fst snd]); try (apply Hrole); apply Hid; done.
Qed.

Lemma added_in_step grow evt st a c a' :
  in_step st a c -> Z.of_nat (length (funcCalls a)) < 2 ^ 62 ->
  rse_Type evt = "response.output_item.added" -> ProcessEvent grow evt a = Some a' ->
  in_step (fst (resToChatHandleOutputItemAdded evt st)) a'
    (foldl apply_chunk c (snd (resToChatHandleOutputItemAdded evt st))).
Proof.
  intros H Hlen Ety Ha. unfold ProcessEvent in Ha. rewrite Ety in Ha. cbn in Ha.
  unfold resToChatHandleOutputItemAdded. destruct (rse_Item evt) as [item|]; [|by injection Ha as <-].
  destruct (is_tool_item item); cbn in Ha |- *; [|by injection Ha as <-]. injection Ha as <-.
  destruct H as (H1 & H2 & H3 & H4 & H5 & H6 & H7). unfold in_step, append_call. cbn.
  case_match; cbn;
    (rewrite H1, H2, H3, H4, H6, length_map, Z.eqb_refl, !string_app_nil_r, map_app, length_app; cbn;
     split_and!; [done..| | | | ]).
  all: try (rewrite add64_id by (unfold int64_range; lia); lia).
  all: try (destruct (funcCalls a); done).
  all: try (rewrite fmap_insert; done).
  all: apply map_Forall_insert_2; [lia | eapply map_Forall_impl; [exact H7 | cbn; lia]].
Qed.

Lemma args_in_step grow evt st a c a' :
  in_step st a c -> is_args_delta (rse_Type evt) = true -> ProcessEvent grow evt a = Some a' ->
  in_step (fst (resToChatHandleFuncArgsDelta evt st)) a'
    (foldl apply_chunk c (snd (resToChatHandleFuncArgsDelta evt st))).
Proof.
  intros H Ety Ha. unfold ProcessEvent in Ha. rewrite Ety in Ha.
  assert (Hty : rse_Type evt = "response.function_call_arguments.delta" \/
                rse_Type evt = "response.custom_tool_call_input.delta").
  { unfold is_args_delta in Ety. apply orb_prop in Ety as [Ety|Ety]; apply String.eqb_eq in Ety; auto. }
  destruct H as (H1 & H2 & H3 & H4 & H5 & H6 & H7). unfold resToChatHandleFuncArgsDelta. rewrite H6, lookup_fmap.
  assert (Ha' : (if rse_Delta evt =s? "" then Some a else
    match outputIndexToFuncIdx a !! rse_OutputIndex evt with
    | None => Some a
    | Some idx =>
        c ← funcCalls a !! idx;
        b ← WriteString (backing a) (Args c) (rse_Delta evt);
        Some (a <| funcCalls := <[idx := mkbufferedFuncCall (CallID c) (Name c) b]> (funcCalls a) |>)
    end) = Some a').
  { destruct Hty as [E|E]; rewrite E in Ha; exact Ha. }
  clear Ha. destruct (rse_Delta evt =s? ""); [injection Ha' as <-; done|].
  destruct (outputIndexToFuncIdx a !! rse_OutputIndex evt) as [idx|] eqn:Ei; cbn in Ha' |- *; [|injection Ha' as <-; done].
  pose proof (H7 _ _ Ei) as Hidx. cbn in Hidx.
  destruct (funcCalls a !! idx) as [fc|] eqn:Ef; cbn in Ha'; [|done].
  destruct (WriteString (backing a) (Args fc) (rse_Delta evt)) as [b|] eqn:Ew; cbn in Ha'; [|done]. injection Ha' as <-.
  assert (Hb : buf b = buf (Args fc) +:+ rse_Delta evt).
  { unfold WriteString in Ew. repeat case_match; simplify_eq/=; done. }
  unfold in_step. cbn. rewrite H3, length_map, !string_app_nil_r.
  replace (Z.of_nat idx =? _) with false by lia. rewrite Nat2Z.id, length_insert.
  split_and!; try done.
  - apply list_eq. intros j. rewrite list_lookup_fmap. destruct (decide (j = idx)) as [->|Hj].
    + rewrite list_lookup_alter_eq, list_lookup_insert_eq, list_lookup_fmap, Ef by done. cbn.
      unfold client_call. cbn. rewrite Hb, !string_app_nil_r. done.
    + rewrite list_lookup_alter_ne, list_lookup_insert_ne, list_lookup_fmap by done. done.
  - rewrite H5. assert (length (<[idx:=mkbufferedFuncCall (CallID fc) (Name fc) b]> (funcCalls a)) = length (funcCalls a))
      by apply length_insert. destruct (funcCalls a), (<[_:=_]> _); done.
Qed.

Lemma step_in_step grow evt st a c a' :
  in_step st a c -> Z.of_nat (length (funcCalls a)) < 2 ^ 62 -> ProcessEvent grow evt a = Some a' ->
  in_step (fst (ResponsesEventToChatChunks evt st)) a' (foldl apply_chunk c (snd (ResponsesEventToChatChunks evt st))).
Proof.
  intros H Hlen Ha. unfold ResponsesEventToChatChunks.
  destruct (is_args_delta (rse_Type evt)) eqn:Eargs.
  { pose proof (args_in_step grow evt st a c a' H Eargs Ha) as Hs.
    unfold is_args_delta in Eargs. apply orb_prop in Eargs as [E|E]; apply String.eqb_eq in E; rewrite E; exact Hs. }
  destruct (rse_Type evt =s? "response.output_item.added") eqn:Eadd.
  { apply String.eqb_eq in Eadd. rewrite Eadd. cbn. eapply added_in_step; eauto. }
  unfold ProcessEvent in Ha. rewrite Eargs, Eadd in Ha.
  destruct (rse_Type evt =s? "response.created") eqn:E1.
  { apply String.eqb_eq in E1. rewrite E1 in Ha. injection Ha as <-. by apply created_in_step. }
  destruct (rse_Type evt =s? "response.output_text.delta") eqn:E2.
  { injection Ha as <-. unfold resToChatHandleTextDelta. destruct (rse_Delta evt =s? ""); [done|].
    destruct H as (H1 & H2 & H3 & H). unfold in_step. cbn. rewrite H1, H2, H3, !string_app_nil_r. done. }
  destruct (is_reasoning_delta (rse_Type evt)) eqn:E3.
  { injection Ha as <-. unfold resToChatHandleReasoningDelta. destruct (rse_Delta evt =s? ""); [done|].
    destruct H as (H1 & H2 & H3 & H). unfold in_step. cbn. rewrite H1, H2, H3, !string_app_nil_r. done. }
  injection Ha as <-. destruct (rse_Type evt =s? "response.reasoning_summary_text.done"); [done|].
  destruct (is_terminal (rse_Type evt)); [by apply completed_in_step | done].
Qed.

Lemma process_None grow evts : foldl (fun oa e => a ← oa; ProcessEvent grow e a) None evts = None.
Proof. by induction evts. Qed.

Lemma process_cons grow e evts a : process grow (e :: evts) a = (a' ← ProcessEvent grow e a; process grow evts a').
Proof. unfold process. cbn. destruct (ProcessEvent grow e a); cbn; [done | apply process_None]. Qed.

Lemma calls_grow grow e a a' :
  ProcessEvent grow e a = Some a' -> (length (funcCalls a') <= S (length (funcCalls a)))%nat.
Proof.
  unfold ProcessEvent, append_call. intros H.
  repeat (case_match; cbn in *; simplify_eq/=); cbn; rewrite ?length_app; cbn; try lia.
  all: destruct (funcCalls a !! _); cbn in H; [|done]; destruct (WriteString _ _ _); cbn in H; [|done]; injection H as <-;
    cbn; rewrite length_insert; lia.
Qed.

Lemma run_in_step grow evts st a c a' :
  in_step st a c -> Z.of_nat (length (funcCalls a) + length evts) < 2 ^ 62 -> process grow evts a = Some a' ->
  in_step (fst (run evts st)) a' (foldl apply_chunk c (snd (run evts st))).
Proof.
  revert st a c. induction evts as [|e evts IH]; intros st a c H Hlen Ha.
  { injection Ha as <-. done. }
  rewrite process_cons in Ha. destruct (ProcessEvent grow e a) as [a1|] eqn:E; cbn in Ha; [|done].
  pose proof (step_in_step grow e st a c a1 H ltac:(lia) E) as H1. pose proof (calls_grow grow e a a1 E).
  cbn [run sc_step responses_to_chat_converter]. cbn [length] in Hlen.
  destruct (ResponsesEventToChatChunks e st) as [st1 o1]. cbn [fst snd] in H1.
  pose proof (IH st1 a1 _ H1 ltac:(lia) Ha) as H2. destruct (run evts st1) as [st2 o2]. cbn [fst snd] in *.
  rewrite foldl_app. exact H2.
Qed.

(** The converter's state as the handlers set it up. *)
Definition initial (id : string) (now : Z) (model : string) (usage : bool) : ResponsesEventToChatState :=
  mkResponsesEventToChatState id model now false false false false 0 ∅ usage None.

Lemma initial_in_step id now model usage :
  in_step (initial id now model usage) NewBufferedResponseAccumulator (mkClient "" "" [] []).
Proof. unfold in_step. cbn. split_and!; try done. Qed.

(** ** Finish chunks *)

Definition reasons (chunks : list Chunk) : list string :=
  concat (map (fun ch => omap ccc_FinishReason (chunk_Choices ch)) chunks).

Definition terminals (evts : list ResponsesStreamEvent) : nat :=
  length (List.filter (fun e => is_terminal (rse_Type e)) evts).

Lemma reasons_app l1 l2 : reasons (l1 ++ l2)%list = (reasons l1 ++ reasons l2)%list.
Proof. unfold reasons. rewrite map_app, concat_app. done. Qed.

Lemma apply_reasons c chunks : cl_finish (foldl apply_chunk c chunks) = (cl_finish c ++ reasons chunks)%list.
Proof.
  revert c. induction chunks as [|ch chunks IH]; intros c; cbn; [by rewrite app_nil_r|].
  rewrite IH. unfold reasons. cbn. rewrite (assoc_L (++)). f_equal. unfold apply_chunk.
  generalize (chunk_Choices ch). intros l. revert c. induction l as [|x l IHl]; intros c; cbn; [by rewrite app_nil_r|].
  rewrite IHl. cbn. rewrite <- (assoc_L (++)). f_equal. destruct (ccc_FinishReason x); done.
Qed.

Lemma reasons_usage st : reasons (usage_chunks st) = [].
Proof. unfold usage_chunks. by destruct (IncludeUsage st && is_some (Usage st)). Qed.

Lemma is_terminal_cases t :
  is_terminal t = true -> t = "response.completed" \/ t = "response.incomplete" \/ t = "response.failed".
Proof. unfold is_terminal. rewrite !orb_true_iff, !String.eqb_eq. tauto. Qed.

Lemma terminal_step e st :
  is_terminal (rse_Type e) = true -> ResponsesEventToChatChunks e st = resToChatHandleCompleted e st.
Proof. unfold ResponsesEventToChatChunks. intros [-> | [-> | ->]]%is_terminal_cases; done. Qed.

(** The finish reason of the chunk a terminal event gives. *)
Definition terminal_reason (saw : bool) (resp : option ResponsesResponse) : string :=
  match resp with
  | Some resp => responsesStatusToChatFinishReason (rres_Status resp) (rres_IncompleteDetails resp)
                   (if saw then [zero_ChatToolCall] else [])
  | None => if saw then "tool_calls" else "stop"
  end.

Lemma completed_reasons e st :
  reasons (snd (resToChatHandleCompleted e st)) = [terminal_reason (SawToolCall st) (rse_Response e)] /\
  Finalized (fst (resToChatHandleCompleted e st)) = true.
Proof.
  assert (Hf : forall st' r l, l = usage_chunks st' -> reasons (makeChatFinishChunk st' r :: l) = [r]).
  { intros st' r l ->. change (_ :: usage_chunks st') with ([makeChatFinishChunk st' r] ++ usage_chunks st')%list.
    rewrite reasons_app, reasons_usage. done. }
  unfold resToChatHandleCompleted. destruct (rse_Response e) as [resp|]; [destruct (rres_Usage resp)|];
    destruct (rse_Usage e); cbn [fst snd]; (split; [rewrite (Hf _ _ _ eq_refl)|done]); cbn;
    unfold responsesStatusToChatFinishReason; destruct (SawToolCall st); done.
Qed.

Lemma step_reasons e st : is_terminal (rse_Type e) = false ->
  reasons (snd (ResponsesEventToChatChunks e st)) = [] /\
  Finalized (fst (ResponsesEventToChatChunks e st)) = Finalized st.
Proof.
  intros Ht. unfold ResponsesEventToChatChunks. rewrite Ht.
  unfold resToChatHandleCreated, resToChatHandleTextDelta, resToChatHandleOutputItemAdded, resToChatHandleFuncArgsDelta,
    resToChatHandleReasoningDelta.
  repeat (case_match; cbn); done.
Qed.

Lemma finalize_reasons st :
  length (reasons (snd (FinalizeResponsesChatStream st))) = if Finalized st then 0%nat else 1%nat.
Proof.
  unfold FinalizeResponsesChatStream. destruct (Finalized st); [done|]. cbn [snd].
  change (?x :: ?l) with ([x] ++ l)%list. rewrite reasons_app, reasons_usage. done.
Qed.

Lemma run_reasons evts st :
  length (reasons (snd (run evts st))) = terminals evts /\
  Finalized (fst (run evts st)) = Finalized st || negb (terminals evts =? 0)%nat.
Proof.
  revert st. induction evts as [|e evts IH]; intros st; cbn [run]; [by rewrite orb_false_r|].
  cbn [sc_step responses_to_chat_converter]. unfold terminals in *. cbn [List.filter].
  destruct (is_terminal (rse_Type e)) eqn:Et.
  - rewrite terminal_step by done. pose proof (completed_reasons e st) as [H1 H2].
    destruct (resToChatHandleCompleted e st) as [st1 o1]. cbn [fst snd] in *.
    destruct (IH st1) as [H3 H4]. destruct (run evts st1) as [st2 o2]. cbn [fst snd length] in *.
    rewrite reasons_app, H1, length_app, H3, H4, H2. by rewrite orb_true_r.
  - pose proof (step_reasons e st Et) as [H1 H2]. destruct (ResponsesEventToChatChunks e st) as [st1 o1].
    cbn [fst snd] in *. destruct (IH st1) as [H3 H4]. destruct (run evts st1) as [st2 o2]. cbn [fst snd] in *.
    rewrite reasons_app, H1, length_app, H3, H4, H2. done.
Qed.

(** Whatever the upstream sends, a session has at least one finish chunk;
    it has exactly one when at most one terminal event arrives, and one per
    terminal event otherwise: resToChatHandleCompleted, unlike the finalizer,
    does not look at Finalized. *)
Theorem finish_chunk_per_terminal (id : string) (now : Z) (model : string) (usage : bool)
    (evts : list ResponsesStreamEvent) :
  length (cl_finish (reconstruct (snd (session evts (initial id now model usage))))) = Nat.max 1 (terminals evts).
Proof.
  unfold session, reconstruct. rewrite apply_reasons. cbn [cl_finish app].
  destruct (run_reasons evts (initial id now model usage)) as [H1 H2].
  destruct (run evts (initial id now model usage)) as [st1 o1].
  pose proof (finalize_reasons st1) as H3. cbn [sc_finalize responses_to_chat_converter].
  destruct (FinalizeResponsesChatStream st1) as [st2 o2]. cbn [fst snd] in *.
  rewrite reasons_app, length_app, H1, H3, H2. cbn. destruct (Nat.eqb_spec (terminals evts) 0); cbn; lia.
Qed.

(** ** The buffered response *)

Definition call_item (c : bufferedFuncCall) : ResponsesOutput :=
  zero_ResponsesOutput <| ro_Type := "function_call" |> <| ro_CallID := CallID c |>
    <| ro_Name := Name c |> <| ro_Arguments := buf (Args c) |>.

Definition call_of_item (item : ResponsesOutput) : ChatToolCall :=
  zero_ChatToolCall <| ctc_ID := ro_CallID item |> <| ctc_Type := "function" |>
    <| ctc_Function := mkChatFunctionCall (ro_Name item) (ro_Arguments item) |>.

Lemma collect_calls t r tcs calls :
  foldl collect_item (mkCollected t r tcs) (map call_item calls) =
  mkCollected t r (tcs ++ map (fun c => call_of_item (call_item c)) calls).
Proof.
  revert tcs. induction calls as [|c calls IH]; intros tcs; cbn [map foldl]; [by rewrite app_nil_r|].
  unfold collect_item at 2. cbn. rewrite IH, <- (assoc_L (++)). done.
Qed.

Lemma collect_built a :
  foldl collect_item (mkCollected "" "" []) (BuildOutput a) =
  mkCollected (text a) (reasoning a) (map (fun c => call_of_item (call_item c)) (funcCalls a)).
Proof.
  unfold BuildOutput. rewrite !foldl_app.
  assert (Hr : forall t, foldl collect_item (mkCollected t "" []) (if reasoning a =s? "" then [] else
    [zero_ResponsesOutput <| ro_Type := "reasoning" |>
       <| ro_Summary := [mkResponsesSummary "summary_text" (reasoning a)] |>]) = mkCollected t (reasoning a) []).
  { intros t. destruct (reasoning a =s? "") eqn:E; [by apply String.eqb_eq in E as ->|].
    cbn. unfold collect_item, collect_summary. cbn. rewrite E. done. }
  rewrite Hr. clear Hr.
  assert (Ht : forall r, foldl collect_item (mkCollected "" r []) (if text a =s? "" then [] else
      [zero_ResponsesOutput <| ro_Type := "message" |> <| ro_Role := "assistant" |>
         <| ro_Content := [zero_ResponsesContentPart <| rcp_Type := "output_text" |> <| rcp_Text := text a |>] |>]) =
    mkCollected (text a) r []).
  { intros r. destruct (text a =s? "") eqn:E; [by apply String.eqb_eq in E as ->|].
    cbn. unfold collect_item, collect_part. cbn. rewrite E. done. }
  rewrite Ht. exact (collect_calls _ _ [] (funcCalls a)).
Qed.

Definition call_of (tc : ChatToolCall) : ClientCall :=
  mkClientCall (ctc_ID tc) (cfc_Name (ctc_Function tc)) (cfc_Arguments (ctc_Function tc)).

(** The message content of the non-streaming response for a text. *)
Definition content_of (s : string) : RawMessage := if s =s? "" then "" else marshal_or_nil (enc_string s).

(** The single choice of the converted response. *)
Lemma chat_choice now resp model r :
  let c := foldl collect_item (mkCollected "" "" []) (rres_Output resp) in
  let msg := zero_ChatMessage <| cm_Role := "assistant" |> <| cm_ToolCalls := toolCalls c |> in
  let msg := if contentText c =s? "" then msg
             else msg <| cm_Content := marshal_or_nil (enc_string (contentText c)) |> in
  let msg := if reasoningText c =s? "" then msg else msg <| cm_ReasoningContent := reasoningText c |> in
  cres_Choices (fst (ResponsesToChatCompletions now resp model r)) =
  [mkChatChoice 0 msg
     (responsesStatusToChatFinishReason (rres_Status resp) (rres_IncompleteDetails resp) (toolCalls c))].
Proof.
  unfold ResponsesToChatCompletions. cbv [mbind st_bind mret st_ret].
  destruct (rres_ID resp =s? ""); [destruct (generateChatCmplID r)|]; done.
Qed.

(** What the accumulator puts into an empty output is what it collected. *)
Lemma supplemented a resp : rres_Output resp = [] ->
  exists buffered, SupplementResponseOutput a (Some resp) = Some buffered /\
    rres_Status buffered = rres_Status resp /\ rres_IncompleteDetails buffered = rres_IncompleteDetails resp /\
    foldl collect_item (mkCollected "" "" []) (rres_Output buffered) =
    mkCollected (text a) (reasoning a) (map (fun c => call_of_item (call_item c)) (funcCalls a)).
Proof.
  intros Hout. unfold SupplementResponseOutput. rewrite Hout. cbn.
  destruct (HasContent a) eqn:E; cbn; (eexists; split; [done|]); split_and!; try done.
  - apply collect_built.
  - rewrite Hout. unfold HasContent in E. destruct (text a), (reasoning a), (funcCalls a); done.
Qed.

Lemma run_no_reasons evts st : terminals evts = 0%nat -> reasons (snd (run evts st)) = [].
Proof. intros H. apply length_zero_iff_nil. rewrite (proj1 (run_reasons evts st)). done. Qed.

(** The session of a stream that ends in one terminal event. *)
Lemma stream_ends grow id now model usage evts last a :
  process grow evts NewBufferedResponseAccumulator = Some a -> Z.of_nat (length evts) < 2 ^ 62 ->
  terminals evts = 0%nat -> is_terminal (rse_Type last) = true ->
  let client := reconstruct (snd (session (evts ++ [last]) (initial id now model usage))) in
  cl_text client = text a /\ cl_reasoning client = reasoning a /\ cl_calls client = map client_call (funcCalls a) /\
  cl_finish client = [terminal_reason (nonempty (funcCalls a)) (rse_Response last)].
Proof.
  intros Ha Hlen Hev Hlast. cbv zeta. unfold session, reconstruct.
  pose proof (run_in_step grow evts _ _ _ a (initial_in_step id now model usage) Hlen Ha) as Hin.
  pose proof (run_no_reasons evts (initial id now model usage) Hev) as Hno. rewrite run_app.
  destruct (run evts (initial id now model usage)) as [st1 o1]. cbn [fst snd] in *.
  cbn [run sc_step responses_to_chat_converter]. rewrite terminal_step by done.
  pose proof (completed_in_step last st1 a _ Hin) as Hin2. destruct (completed_reasons last st1) as [Hr Hfin].
  destruct (resToChatHandleCompleted last st1) as [st2 o2]. cbn [fst snd] in *.
  cbn [sc_finalize responses_to_chat_converter]. unfold FinalizeResponsesChatStream. rewrite Hfin. cbn [fst snd].
  rewrite !app_nil_r, apply_reasons, reasons_app, Hno, Hr, foldl_app.
  destruct Hin2 as (-> & -> & -> & _). destruct Hin as (_ & _ & _ & _ & -> & _). done.
Qed.

(** C15: Streaming and buffering agree.  For every upstream stream that ends in
    a terminal event whose output array is empty (and whose argument deltas do
    not trip the accumulator), the response the non-streaming path builds from
    the accumulated deltas has one choice, whose text, reasoning, tool calls
    (identifier, name and arguments, in order) and finish reason are those a
    streaming client reconstructs from the chunks of the same events. *)
Theorem streamed_equals_buffered (grow : nat -> nat) (id : string) (now : Z) (model : string) (usage : bool) (r : Rand)
    (evts : list ResponsesStreamEvent) (last : ResponsesStreamEvent) (resp : ResponsesResponse)
    (a : BufferedResponseAccumulator) :
  process grow evts NewBufferedResponseAccumulator = Some a ->
  Z.of_nat (length evts) < 2 ^ 62 ->
  terminals evts = 0%nat -> is_terminal (rse_Type last) = true ->
  rse_Response last = Some resp -> rres_Output resp = [] ->
  let client := reconstruct (snd (session (evts ++ [last]) (initial id now model usage))) in
  exists buffered choice,
    SupplementResponseOutput a (Some resp) = Some buffered /\
    cres_Choices (fst (ResponsesToChatCompletions now buffered model r)) = [choice] /\
    cm_Content (cc_Message choice) = content_of (cl_text client) /\
    cm_ReasoningContent (cc_Message choice) = cl_reasoning client /\
    map call_of (cm_ToolCalls (cc_Message choice)) = cl_calls client /\
    cl_finish client = [cc_FinishReason choice].
Proof.
  intros Ha Hlen Hev Hlast Hresp Hout client.
  destruct (stream_ends grow id now model usage evts last a Ha Hlen Hev Hlast) as (Ht & Hr & Hc & Hf).
  subst client. set (client := reconstruct _) in *.
  destruct (supplemented a resp Hout) as (buffered & Hs & Hst & Hd & Hcol).
  exists buffered. eexists. split; [exact Hs|]. rewrite chat_choice. split; [reflexivity|]. cbn.
  rewrite Hcol. cbn. rewrite Hst, Hd, Ht, Hr, Hc, Hf, Hresp. unfold content_of.
  split_and!; try done.
  - destruct (text a =s? ""), (reasoning a =s? ""); done.
  - destruct (reasoning a =s? "") eqn:E; [apply String.eqb_eq in E; rewrite E|]; destruct (text a =s? ""); done.
  - destruct (text a =s? ""), (reasoning a =s? ""); cbn; rewrite !map_map; done.
  - f_equal. unfold terminal_reason, responsesStatusToChatFinishReason. destruct (funcCalls a); done.
Qed.

Definition added_event (index : Z) (call name : string) : ResponsesStreamEvent :=
  zero_ResponsesStreamEvent <| rse_Type := "response.output_item.added" |> <| rse_OutputIndex := index |>
    <| rse_Item := Some (zero_ResponsesOutput <| ro_Type := "function_call" |> <| ro_CallID := call |>
                           <| ro_Name := name |>) |>.

Definition args_event (index : Z) (delta : string) : ResponsesStreamEvent :=
  zero_ResponsesStreamEvent <| rse_Type := "response.function_call_arguments.delta" |>
    <| rse_OutputIndex := index |> <| rse_Delta := delta |>.

Definition text_event (delta : string) : ResponsesStreamEvent :=
  zero_ResponsesStreamEvent <| rse_Type := "response.output_text.delta" |> <| rse_Delta := delta |>.

Definition end_event (resp : ResponsesResponse) : ResponsesStreamEvent :=
  zero_ResponsesStreamEvent <| rse_Type := "response.completed" |> <| rse_Response := Some resp |>.

Definition sample_events : list ResponsesStreamEvent :=
  [text_event "hel"; text_event "lo"; added_event 1 "call_1" "Read"; args_event 1 "{}"; added_event 2 "call_2" "Ls"].

Definition sample_response : ResponsesResponse := zero_ResponsesResponse <| rres_Status := "completed" |>.

Definition sample_accumulated : BufferedResponseAccumulator :=
  mkBufferedResponseAccumulator "hello" ""
    [mkbufferedFuncCall "call_1" "Read" (mkBuilder (Some 1%nat) "{}"); mkbufferedFuncCall "call_2" "Ls" (mkBuilder None "")]
    2 2 (<[2 := 1%nat]> {[1 := 0%nat]}).

Lemma streamed_equals_buffered_witness :
  let client := reconstruct (snd (session (sample_events ++ [end_event sample_response]) (initial "id" 0 "m" false))) in
  cl_calls client = [mkClientCall "call_1" "Read" "{}"; mkClientCall "call_2" "Ls" ""] /\
  exists buffered choice,
    SupplementResponseOutput sample_accumulated (Some sample_response) = Some buffered /\
    cres_Choices (fst (ResponsesToChatCompletions 0 buffered "m" (mkRand (fun _ => "") 0))) = [choice] /\
    cm_Content (cc_Message choice) = content_of (cl_text client) /\
    cm_ReasoningContent (cc_Message choice) = cl_reasoning client /\
    map call_of (cm_ToolCalls (cc_Message choice)) = cl_calls client /\
    cl_finish client = [cc_FinishReason choice].
Proof.
  split; [vm_compute; reflexivity|].
  apply (streamed_equals_buffered (fun c => if (c =? 0)%nat then 1%nat else (2 * c)%nat) "id" 0 "m" false
           (mkRand (fun _ => "") 0) sample_events (end_event sample_response) sample_response sample_accumulated);
    vm_compute; reflexivity.
Defined.

(** ** When the accumulator survives

    The stream is serial when argument deltas only go to the tool call added
    last: [cur] is its output index. *)
Definition serial_step (cur : option Z) (e : ResponsesStreamEvent) : option (option Z) :=
  if rse_Type e =s? "response.output_item.added" then
    match rse_Item e with
    | Some item => Some (if is_tool_item item then Some (rse_OutputIndex e) else cur)
    | None => Some cur
    end
  else if is_args_delta (rse_Type e) && (rse_Delta e <>s? "") then
    match cur with
    | Some i => if rse_OutputIndex e =? i then Some cur else None
    | None => None
    end
  else Some cur.

(** The call of output index [cur] is the last one, and its builder has been
    written to, if at all, where the calls now are. *)
Definition last_writable (cur : option Z) (a : BufferedResponseAccumulator) : Prop :=
  match cur with
  | None => True
  | Some i => exists calls c, funcCalls a = (calls ++ [c])%list /\
      outputIndexToFuncIdx a !! i = Some (length calls) /\
      (addr (Args c) = None \/ addr (Args c) = Some (backing a))
  end.

Lemma serial_step_writable grow cur e a cur' :
  last_writable cur a -> serial_step cur e = Some cur' ->
  exists a', ProcessEvent grow e a = Some a' /\ last_writable cur' a'.
Proof.
  intros Hw Hs. unfold serial_step in Hs. unfold ProcessEvent.
  destruct (rse_Type e =s? "response.output_item.added") eqn:E1.
  { apply String.eqb_eq in E1. rewrite E1. cbn. destruct (rse_Item e) as [item|]; [|injection Hs as <-; eauto].
    destruct (is_tool_item item); cbn; injection Hs as <-; [|eauto].
    eexists. split; [done|]. unfold append_call. cbn.
    case_match; (eexists (funcCalls a), _; split; [done|]; cbn; split; [by rewrite lookup_insert_eq | auto]). }
  destruct (rse_Type e =s? "response.output_text.delta") eqn:E2.
  { apply String.eqb_eq in E2. rewrite E2 in Hs. injection Hs as <-. eexists. split; [done|].
    destruct (rse_Delta e =s? ""), cur; done. }
  destruct (is_args_delta (rse_Type e)) eqn:E3; cbn in Hs |- *.
  - destruct (rse_Delta e =s? ""); cbn in Hs |- *; [injection Hs as <-; eauto|].
    destruct cur as [i|]; [|done]. destruct (Z.eqb_spec (rse_OutputIndex e) i) as [->|]; [|done]. injection Hs as <-.
    destruct Hw as (calls & c & Hc & Hi & Haddr). rewrite Hi, Hc, list_lookup_middle by done. cbn.
    unfold WriteString. destruct Haddr as [-> | ->]; rewrite ?Nat.eqb_refl; cbn; (eexists; split; [done|]);
      (exists calls; eexists; cbn; split; [by rewrite insert_app_r_alt, Nat.sub_diag by done | auto]).
  - injection Hs as <-. destruct (is_reasoning_delta (rse_Type e)); [destruct (rse_Delta e =s? "")|]; eexists;
      (split; [done|]); destruct cur; done.
Qed.

(** A serial stream never makes the accumulator panic, however the runtime
    grows the slice: the non-streaming path gets a result for every stream in
    which argument deltas go to the tool call added last. *)
Theorem serial_never_panics (grow : nat -> nat) (evts : list ResponsesStreamEvent) (cur : option Z) :
  foldl (fun oc e => c ← oc; serial_step c e) (Some None) evts = Some cur ->
  exists a, process grow evts NewBufferedResponseAccumulator = Some a.
Proof.
  assert (H : last_writable None NewBufferedResponseAccumulator) by done.
  revert H. generalize NewBufferedResponseAccumulator as a, (@None Z) as c0.
  induction evts as [|e evts IH]; intros a c0 Hw Hs; [by exists a|].
  cbn in Hs. destruct (serial_step c0 e) as [c1|] eqn:E.
  2: { exfalso. clear -Hs. induction evts; cbn in Hs; [done | auto]. }
  destruct (serial_step_writable grow c0 e a c1 Hw E) as (a1 & Ha & Hw1).
  rewrite process_cons, Ha. cbn. exact (IH a1 c1 Hw1 Hs).
Qed.

Lemma serial_never_panics_witness :
  exists a, process S sample_events NewBufferedResponseAccumulator = Some a.
Proof. apply (serial_never_panics S sample_events (Some 2)). vm_compute. reflexivity. Defined.

(** Parallel tool calls whose argument deltas interleave panic: when the
    runtime allocates a one-element array for the first call (as it does), the
    second call moves it, and the next delta of the first writes to a copied
    strings.Builder.  The streaming conversion serves the same events. *)
Theorem interleaved_calls_panic (grow : nat -> nat) (id : string) (now : Z) (model : string) :
  grow 0%nat = 1%nat ->
  let evts := [added_event 0 "call_1" "Read"; args_event 0 "{"; added_event 1 "call_2" "Ls"; args_event 0 "}"] in
  process grow evts NewBufferedResponseAccumulator = None /\
  cl_calls (reconstruct (snd (run evts (initial id now model false)))) =
  [mkClientCall "call_1" "Read" "{}"; mkClientCall "call_2" "Ls" ""].
Proof.
  intros Hg. split; [|vm_compute; reflexivity].
  unfold process. cbn. unfold append_call. cbn. rewrite Hg. cbn. done.
Qed.

Lemma interleaved_calls_panic_witness :
  process (fun c => if (c =? 0)%nat then 1%nat else (2 * c)%nat)
    [added_event 0 "call_1" "Read"; args_event 0 "{"; added_event 1 "call_2" "Ls"; args_event 0 "}"]
    NewBufferedResponseAccumulator = None.
Proof.
  apply (interleaved_calls_panic (fun c => if (c =? 0)%nat then 1%nat else (2 * c)%nat) "id" 0 "m" eq_refl).
Defined.
