(* ===== verification/SseSpec.v ===== *)
(** * Server-sent events: what the clients read back

    The three converters write their events as SSE frames.  A reader that
    follows the event-stream format recovers the event names and the JSON
    documents, whatever text the model produced. *)

From S2P Require Import Prelude GoStrings Json JsonFacts Types Codec Streaming Crypto AnthropicToResponses.
From S2P Require Import ResponsesToAnthropic AnthropicToResponsesResponse ResponsesToChat.

(** ** The reader *)

Fixpoint split_lines (s : string) : list string :=
  match s with
  | EmptyString => []
  | String c s' =>
      if Ascii.eqb c newline then EmptyString :: split_lines s' else
      match split_lines s' with
      | l :: ls => String c l :: ls
      | [] => [String c EmptyString]
      end
  end.

(** One line: a field of the frame being read, or the blank line that ends it. *)
Fixpoint dispatch (event : string) (data : option string) (lines : list string) : list (string * string) :=
  match lines with
  | [] => []
  | line :: lines =>
      if line =s? "" then
        match data with
        | Some d => (event, d) :: dispatch "" None lines
        | None => dispatch "" None lines
        end
      else
        match cut_prefix line "event: ", cut_prefix line "data: " with
        | Some e, _ => dispatch e data lines
        | _, Some d => dispatch event (Some (match data with Some d0 => d0 +:+ String newline d | None => d end)) lines
        | None, None => dispatch event data lines
        end
  end.

Definition read_sse (s : string) : list (string * string) := dispatch "" None (split_lines s).

Lemma split_line l s : no_ctl l = true -> split_lines (l +:+ String newline s) = l :: split_lines s.
Proof.
  induction l as [|c l IH]; [done|]. cbn [no_ctl]. intros [Hc Hl]%andb_true_iff. cbn [String.append split_lines].
  rewrite IH by done. assert (Ascii.eqb c newline = false) as ->; [|done].
  apply negb_true_iff in Hc. revert Hc. clear. each_byte c; intros H; try discriminate H; by_vm.
Qed.

Lemma dispatch_frame event data lines : no_ctl event = true ->
  dispatch "" None (("event: " +:+ event) :: ("data: " +:+ data) :: "" :: lines) = (event, data) :: dispatch "" None lines.
Proof.
  intros _. cbn [dispatch String.append String.eqb Ascii.eqb Bool.eqb].
  change (String "e" (String "v" (String "e" (String "n" (String "t" (String ":" (String " " event)))))))
    with ("event: " +:+ event).
  change (String "d" (String "a" (String "t" (String "a" (String ":" (String " " data))))))
    with ("data: " +:+ data). rewrite !cut_prefix_app. done.
Qed.

Lemma dispatch_data data lines :
  dispatch "" None (("data: " +:+ data) :: "" :: lines) = ("", data) :: dispatch "" None lines.
Proof.
  cbn [dispatch String.append String.eqb Ascii.eqb Bool.eqb].
  change (String "d" (String "a" (String "t" (String "a" (String ":" (String " " data))))))
    with ("data: " +:+ data). rewrite cut_prefix_app. done.
Qed.

(** Reading a frame, then the rest. *)
Lemma read_frame event data s : no_ctl event = true -> no_ctl data = true ->
  read_sse (sse_frame event data +:+ s) = (event, data) :: read_sse s.
Proof.
  intros He Hd. unfold read_sse.
  replace (sse_frame event data +:+ s)
    with (("event: " +:+ event) +:+ String newline (("data: " +:+ data) +:+ String newline ("" +:+ String newline s)))
    by (unfold sse_frame; rewrite !string_app_assoc; cbn [String.append]; rewrite !string_app_assoc; reflexivity).
  rewrite !split_line by (rewrite ?no_ctl_app; done). apply dispatch_frame. done.
Qed.

Lemma read_data data s : no_ctl data = true ->
  read_sse (("data: " +:+ data +:+ String newline (String newline "")) +:+ s) = ("", data) :: read_sse s.
Proof.
  intros Hd. unfold read_sse.
  replace (_ +:+ s) with (("data: " +:+ data) +:+ String newline ("" +:+ String newline s))
    by (rewrite !string_app_assoc; cbn [String.append]; rewrite ?string_app_assoc; reflexivity).
  rewrite !split_line by (rewrite ?no_ctl_app; done). apply dispatch_data.
Qed.

(** ** The encoders *)

Ltac encodes := intros r; apply enc_object_wf; repeat constructor; cbn [snd mem mem_if]; auto with json.

Lemma wf_ResponsesContentPart : forall r, enc_wf (enc_ResponsesContentPart r). Proof. encodes. Qed.
#[local] Hint Resolve wf_ResponsesContentPart : json.
Lemma wf_WebSearchAction : forall r, enc_wf (enc_WebSearchAction r). Proof. encodes. Qed.
#[local] Hint Resolve wf_WebSearchAction : json.
Lemma wf_ResponsesSummary : forall r, enc_wf (enc_ResponsesSummary r). Proof. encodes. Qed.
#[local] Hint Resolve wf_ResponsesSummary : json.
Lemma wf_ResponsesOutput : forall r, enc_wf (enc_ResponsesOutput r). Proof. encodes. Qed.
#[local] Hint Resolve wf_ResponsesOutput : json.
Lemma wf_ResponsesInputTokensDetails : forall r, enc_wf (enc_ResponsesInputTokensDetails r). Proof. encodes. Qed.
#[local] Hint Resolve wf_ResponsesInputTokensDetails : json.
Lemma wf_ResponsesOutputTokensDetails : forall r, enc_wf (enc_ResponsesOutputTokensDetails r). Proof. encodes. Qed.
#[local] Hint Resolve wf_ResponsesOutputTokensDetails : json.
Lemma wf_ResponsesUsage : forall r, enc_wf (enc_ResponsesUsage r). Proof. encodes. Qed.
#[local] Hint Resolve wf_ResponsesUsage : json.
Lemma wf_ResponsesIncompleteDetails : forall r, enc_wf (enc_ResponsesIncompleteDetails r). Proof. encodes. Qed.
#[local] Hint Resolve wf_ResponsesIncompleteDetails : json.
Lemma wf_ResponsesError : forall r, enc_wf (enc_ResponsesError r). Proof. encodes. Qed.
#[local] Hint Resolve wf_ResponsesError : json.
Lemma wf_ResponsesResponse : forall r, enc_wf (enc_ResponsesResponse r). Proof. encodes. Qed.
#[local] Hint Resolve wf_ResponsesResponse : json.
Lemma wf_ResponsesStreamEvent : forall r, enc_wf (enc_ResponsesStreamEvent r). Proof. encodes. Qed.
#[local] Hint Resolve wf_ResponsesStreamEvent : json.
Lemma wf_AnthropicImageSource : forall r, enc_wf (enc_AnthropicImageSource r). Proof. encodes. Qed.
#[local] Hint Resolve wf_AnthropicImageSource : json.
Lemma wf_AnthropicContentBlock : forall r, enc_wf (enc_AnthropicContentBlock r). Proof. encodes. Qed.
#[local] Hint Resolve wf_AnthropicContentBlock : json.
Lemma wf_AnthropicUsage : forall r, enc_wf (enc_AnthropicUsage r). Proof. encodes. Qed.
#[local] Hint Resolve wf_AnthropicUsage : json.
Lemma wf_AnthropicResponse : forall r, enc_wf (enc_AnthropicResponse r). Proof. encodes. Qed.
#[local] Hint Resolve wf_AnthropicResponse : json.
Lemma wf_AnthropicDelta : forall r, enc_wf (enc_AnthropicDelta r). Proof. encodes. Qed.
#[local] Hint Resolve wf_AnthropicDelta : json.
Lemma wf_AnthropicStreamEvent : forall r, enc_wf (enc_AnthropicStreamEvent r). Proof. encodes. Qed.
#[local] Hint Resolve wf_AnthropicStreamEvent : json.
Lemma wf_ChatFunctionCall : forall r, enc_wf (enc_ChatFunctionCall r). Proof. encodes. Qed.
#[local] Hint Resolve wf_ChatFunctionCall : json.
Lemma wf_ChatToolCall : forall r, enc_wf (enc_ChatToolCall r). Proof. encodes. Qed.
#[local] Hint Resolve wf_ChatToolCall : json.
Lemma wf_ChatTokenDetails : forall r, enc_wf (enc_ChatTokenDetails r). Proof. encodes. Qed.
#[local] Hint Resolve wf_ChatTokenDetails : json.
Lemma wf_ChatUsage : forall r, enc_wf (enc_ChatUsage r). Proof. encodes. Qed.
#[local] Hint Resolve wf_ChatUsage : json.
Lemma wf_ChatDelta : forall r, enc_wf (enc_ChatDelta r). Proof. encodes. Qed.
#[local] Hint Resolve wf_ChatDelta : json.
Lemma wf_ChatChunkChoice : forall r, enc_wf (enc_ChatChunkChoice r). Proof. encodes. Qed.
#[local] Hint Resolve wf_ChatChunkChoice : json.
Lemma wf_ChatCompletionsChunk : forall r, enc_wf (enc_ChatCompletionsChunk r). Proof. encodes. Qed.
#[local] Hint Resolve wf_ChatCompletionsChunk : json.

Lemma join_empty_cons x l : join (x :: l) "" = x +:+ join l "".
Proof. destruct l; [symmetry; apply string_app_nil_r | done]. Qed.

(** Frames that are read back one by one are read back together. *)
Lemma frames_read_back {A} (frame : A -> result string) (name : A -> string) (enc : A -> Enc) evts frames :
  (forall a fr, a ∈ evts -> frame a = Ok fr -> exists data, marshal (enc a) = Ok data /\
     forall s, read_sse (fr +:+ s) = (name a, data) :: read_sse s) ->
  mapM frame evts = Ok frames ->
  Forall2 (fun a r => fst r = name a /\ marshal (enc a) = Ok (snd r)) evts (read_sse (join frames "")).
Proof.
  intros Hf. revert frames. induction evts as [|a evts IH]; intros frames H; cbn in H.
  { injection H as <-. constructor. }
  destruct (frame a) as [fr|] eqn:E; [|done]. cbn in H. destruct (mapM frame evts) as [frs|] eqn:E2; [|done]. injection H as <-.
  destruct (Hf a fr ltac:(left) E) as (data & Hd & Hr). rewrite join_empty_cons, Hr. constructor; [done|].
  apply IH; [|done]. intros a' fr' Ha'. apply Hf. by right.
Qed.

(** C17: Model output cannot break the framing of a stream.  For any events the
    converters emit (or any others, as long as the event name is one line),
    whatever bytes their texts, arguments and identifiers hold, the
    concatenation of the SSE frames is read back by a client as exactly those
    events: one frame per event, with its name and its JSON document on one
    line. *)
Theorem sse_streams_read_back :
  (forall evts frames, Forall (fun e => no_ctl (rse_Type e) = true) evts ->
     mapM ResponsesEventToSSE evts = Ok frames ->
     Forall2 (fun e r => fst r = rse_Type e /\ marshal (enc_ResponsesStreamEvent e) = Ok (snd r)) evts
       (read_sse (join frames ""))) /\
  (forall evts frames, Forall (fun e => no_ctl (ase_Type e) = true) evts ->
     mapM ResponsesAnthropicEventToSSE evts = Ok frames ->
     Forall2 (fun e r => fst r = ase_Type e /\ marshal (enc_AnthropicStreamEvent e) = Ok (snd r)) evts
       (read_sse (join frames ""))) /\
  (forall chunks frames, mapM ChatChunkToSSE chunks = Ok frames ->
     Forall2 (fun e r => fst r = "" /\ marshal (enc_ChatCompletionsChunk e) = Ok (snd r)) chunks
       (read_sse (join frames ""))).
Proof.
  split_and!.
  - intros evts frames Ht. apply frames_read_back. intros e fr He H. unfold ResponsesEventToSSE in H.
    destruct (marshal (enc_ResponsesStreamEvent e)) as [data|] eqn:E; [|done]. injection H as <-. exists data. split; [done|].
    intros s. apply read_frame; [|exact (print_enc_no_ctl _ _ (wf_ResponsesStreamEvent e) E)].
    rewrite Forall_forall in Ht. by apply Ht.
  - intros evts frames Ht. apply frames_read_back. intros e fr He H. unfold ResponsesAnthropicEventToSSE in H.
    destruct (marshal (enc_AnthropicStreamEvent e)) as [data|] eqn:E; [|done]. injection H as <-. exists data. split; [done|].
    intros s. apply read_frame; [|exact (print_enc_no_ctl _ _ (wf_AnthropicStreamEvent e) E)].
    rewrite Forall_forall in Ht. by apply Ht.
  - intros evts frames. apply frames_read_back. intros e fr He H. unfold ChatChunkToSSE in H.
    destruct (marshal (enc_ChatCompletionsChunk e)) as [data|] eqn:E; [|done]. injection H as <-. exists data. split; [done|].
    intros s. apply read_data. exact (print_enc_no_ctl _ _ (wf_ChatCompletionsChunk e) E).
Qed.

(** A delta whose text would end the frame and forge another. *)
Definition forging_event : ResponsesStreamEvent :=
  zero_ResponsesStreamEvent <| rse_Type := "response.output_text.delta" |>
    <| rse_Delta := String newline (String newline "event: response.completed") |>.

Lemma sse_streams_read_back_witness :
  exists frame, ResponsesEventToSSE forging_event = Ok frame /\
  Forall2 (fun e r => fst r = rse_Type e /\ marshal (enc_ResponsesStreamEvent e) = Ok (snd r)) [forging_event]
    (read_sse (join [frame] "")).
Proof.
  eexists. split; [vm_compute; reflexivity|].
  apply (proj1 sse_streams_read_back); [constructor; [vm_compute; reflexivity | constructor] | vm_compute; reflexivity].
Defined.
