(* ===== verification/ChatToResponses.v ===== *)
(** * apicompat: Chat Completions requests to Responses requests
      (internal/pkg/apicompat/chatcompletions_to_responses.go) *)

From S2P Require Import Prelude GoStrings Json Types Codec AnthropicToResponses.

(** ** Message content *)

Record chatMessageContent : Type := mkchatMessageContent {
  cmc_Text : option string;
  cmc_Parts : list ChatContentPart
}.

Definition parseChatMessageContent (raw : RawMessage) : result chatMessageContent :=
  if raw =s? "" then Ok (mkchatMessageContent (Some "") []) else
  match unmarshal dec_string "" raw with
  | Ok s => Ok (mkchatMessageContent (Some s) [])
  | Err _ =>
      match unmarshal (dec_slice dec_ChatContentPart zero_ChatContentPart) [] raw with
      | Ok parts => Ok (mkchatMessageContent None parts)
      | Err _ => Err (ErrMsg "parse content as string or parts array")
      end
  end.

Definition isEmptyBase64DataURI (raw : string) : bool :=
  match cut_prefix raw "data:" with
  | None => false
  | Some rest =>
      match cut_byte ";"%char rest with
      | None => false
      | Some (_, rest) =>
          match cut_prefix rest "base64," with
          | None => false
          | Some payload => trim_space payload =s? ""
          end
      end
  end.

Definition chat_part (p : ChatContentPart) : list ResponsesContentPart :=
  if ccp_Type p =s? "text" then
    if ccp_Text p =s? "" then [] else
    [zero_ResponsesContentPart <| rcp_Type := "input_text" |> <| rcp_Text := ccp_Text p |>]
  else if ccp_Type p =s? "image_url" then
    match ccp_ImageURL p with
    | None => []
    | Some img =>
        if (ciu_URL img =s? "") || isEmptyBase64DataURI (ciu_URL img) then [] else
        [zero_ResponsesContentPart <| rcp_Type := "input_image" |> <| rcp_ImageURL := ciu_URL img |>]
    end
  else [].

Definition convertChatContentPartsToResponses (parts : list ChatContentPart) : list ResponsesContentPart :=
  concat (map chat_part parts).

Definition marshalChatInputContent (content : chatMessageContent) : result RawMessage :=
  match cmc_Text content with
  | Some s => marshal (enc_string s)
  | None => marshal (enc_parts (convertChatContentPartsToResponses (cmc_Parts content)))
  end.

Definition flattenChatContentParts (parts : list ChatContentPart) : string :=
  join (concat (map (fun p => if (ccp_Type p =s? "text") && (ccp_Text p <>s? "") then [ccp_Text p] else []) parts)) "".

Definition parseChatContent (raw : RawMessage) : result string :=
  parsed ← parseChatMessageContent raw;
  mret (match cmc_Text parsed with Some s => s | None => flattenChatContentParts (cmc_Parts parsed) end).

(** One element of [[]map[string]any]: its members, none for [null]. *)
Definition dec_any_map : Dec (list (string * jval)) := fun t cur =>
  match t with
  | JNull => Some []
  | JObj _ ms => if any_ok t then Some ms else None
  | _ => None
  end.

Definition tagged_thinking (s : string) : string := "<thinking>" +:+ s +:+ "</thinking>".

(** What one part writes to the builder. *)
Definition assistant_part (p : list (string * jval)) : string :=
  let typ := any_string_member "type" p in
  let text := any_string_member "text" p in
  let thinking := any_string_member "thinking" p in
  if (typ =s? "thinking") || (typ =s? "reasoning") then
    if thinking <>s? "" then tagged_thinking thinking
    else if text <>s? "" then tagged_thinking text
    else ""
  else text.

Definition parseAssistantContent (raw : RawMessage) : string :=
  if raw =s? "" then "" else
  match unmarshal dec_string "" raw with
  | Ok s => s
  | Err _ =>
      match unmarshal (dec_slice dec_any_map []) [] raw with
      | Err _ => ""
      | Ok parts => foldl (fun b p => b +:+ assistant_part p) "" parts
      end
  end.

(** ** Messages *)

Definition chatSystemToResponses (m : ChatMessage) : result (list ResponsesInputItem) :=
  parsed ← parseChatMessageContent (cm_Content m);
  content ← marshalChatInputContent parsed;
  mret [zero_ResponsesInputItem <| rii_Role := "system" |> <| rii_Content := content |>].

Definition chatUserToResponses (m : ChatMessage) : result (list ResponsesInputItem) :=
  parsed ← wrap_err "parse user content" (parseChatMessageContent (cm_Content m));
  content ← marshalChatInputContent parsed;
  mret [zero_ResponsesInputItem <| rii_Role := "user" |> <| rii_Content := content |>].

Definition tool_call_item (tc : ChatToolCall) : ResponsesInputItem :=
  let args := if cfc_Arguments (ctc_Function tc) =s? "" then "{}" else cfc_Arguments (ctc_Function tc) in
  zero_ResponsesInputItem <| rii_Type := "function_call" |> <| rii_CallID := ctc_ID tc |>
    <| rii_Name := cfc_Name (ctc_Function tc) |> <| rii_Arguments := jsonRawString args |>.

Definition chatAssistantToResponses (m : ChatMessage) : result (list ResponsesInputItem) :=
  items ← (if cm_Content m =s? "" then mret [] else
           let s := parseAssistantContent (cm_Content m) in
           if s =s? "" then mret [] else item ← assistant_item s; mret [item]);
  mret (items ++ map tool_call_item (cm_ToolCalls m))%list.

(** The common body of the tool and the legacy function results. *)
Definition call_output (call_id : string) (content : RawMessage) : result (list ResponsesInputItem) :=
  output ← parseChatContent content;
  let output := if output =s? "" then "(empty)" else output in
  mret [zero_ResponsesInputItem <| rii_Type := "function_call_output" |> <| rii_CallID := call_id |>
          <| rii_Output := jsonRawString output |>].

Definition chatToolToResponses (m : ChatMessage) : result (list ResponsesInputItem) :=
  call_output (cm_ToolCallID m) (cm_Content m).

Definition chatFunctionToResponses (m : ChatMessage) : result (list ResponsesInputItem) :=
  call_output (cm_Name m) (cm_Content m).

Definition chatMessageToResponsesItems (m : ChatMessage) : result (list ResponsesInputItem) :=
  if cm_Role m =s? "system" then chatSystemToResponses m
  else if cm_Role m =s? "user" then chatUserToResponses m
  else if cm_Role m =s? "assistant" then chatAssistantToResponses m
  else if cm_Role m =s? "tool" then chatToolToResponses m
  else if cm_Role m =s? "function" then chatFunctionToResponses m
  else chatUserToResponses m.

Definition convertChatMessagesToResponsesInput (msgs : list ChatMessage) : result (list ResponsesInputItem) :=
  convert_messages chatMessageToResponsesItems msgs.

(** ** Tools and tool choice *)

Definition defaultStrictFalse (src : option bool) : option bool :=
  match src with None => Some false | Some b => Some b end.

Definition function_tool (f : ChatFunction) : ResponsesTool :=
  zero_ResponsesTool <| rt_Type := "function" |> <| rt_Name := cf_Name f |>
    <| rt_Description := cf_Description f |> <| rt_Parameters := cf_Parameters f |>
    <| rt_Strict := defaultStrictFalse (cf_Strict f) |>.

Definition convertChatToolsToResponses (tools : list ChatTool) (functions : list ChatFunction) : list ResponsesTool :=
  (concat (map (fun t =>
     match ct_Function t with
     | Some f => if ct_Type t =s? "function" then [function_tool f] else []
     | None => []
     end) tools) ++ map function_tool functions)%list.

Definition dec_name_object : Dec string := dec_struct [field "name" id (fun v _ => v) dec_string].

Definition convertChatFunctionCallToToolChoice (raw : RawMessage) : result RawMessage :=
  match unmarshal dec_string "" raw with
  | Ok s => marshal (enc_string s)
  | Err _ => name ← unmarshal dec_name_object "" raw; marshal (enc_type_name "function" name)
  end.

(** ** The request *)

Definition ChatCompletionsToResponses (req : ChatCompletionsRequest) : result ResponsesRequest :=
  input ← convertChatMessagesToResponsesInput (creq_Messages req);
  inputJSON ← marshal (enc_slice enc_ResponsesInputItem input);
  let maxTokens := match creq_MaxCompletionTokens req with
                   | Some n => n
                   | None => default 0 (creq_MaxTokens req)
                   end in
  let out := zero_ResponsesRequest
    <| rreq_Model := creq_Model req |> <| rreq_Instructions := creq_Instructions req |>
    <| rreq_Input := inputJSON |> <| rreq_Temperature := creq_Temperature req |>
    <| rreq_TopP := creq_TopP req |> <| rreq_Stream := true |>
    <| rreq_Include := ["reasoning.encrypted_content"] |>
    <| rreq_ServiceTier := creq_ServiceTier req |>
    <| rreq_ParallelToolCalls := creq_ParallelToolCalls req |>
    <| rreq_Store := Some false |>
    <| rreq_MaxOutputTokens := clampMaxOutputTokens maxTokens |> in
  let out := if creq_ReasoningEffort req =s? "" then out
             else out <| rreq_Reasoning := Some (mkResponsesReasoning (creq_ReasoningEffort req) "auto") |> in
  let out := if nonempty (creq_Tools req) || nonempty (creq_Functions req)
             then out <| rreq_Tools := convertChatToolsToResponses (creq_Tools req) (creq_Functions req) |>
             else out in
  if creq_ToolChoice req <>s? "" then mret (out <| rreq_ToolChoice := creq_ToolChoice req |>)
  else if creq_FunctionCall req <>s? "" then
    tc ← wrap_err "convert function_call" (convertChatFunctionCallToToolChoice (creq_FunctionCall req));
    mret (out <| rreq_ToolChoice := tc |>)
  else mret out.
