(* ===== verification/ResponsesToAnthropicRequest.v ===== *)
(** * apicompat: Responses requests to Anthropic requests
      (internal/pkg/apicompat/responses_to_anthropic_request.go) *)

From S2P Require Import Prelude GoStrings Json Types Codec AnthropicToResponses.

Definition paragraph : string := String newline (String newline "").

(** ** Identifiers, images, effort *)

Definition fromResponsesCallIDToAnthropic (id : string) : string :=
  let synthetic := if has_prefix id "toolu_" || has_prefix id "call_" then id else "toolu_" +:+ id in
  match cut_prefix id "fc_" with
  | Some after => if has_prefix after "toolu_" || has_prefix after "call_" then after else synthetic
  | None => synthetic
  end.

Definition dataURIToAnthropicImageSource (dataURI : string) : option AnthropicImageSource :=
  rest ← cut_prefix dataURI "data:";
  '(mediaType, rest) ← cut_byte ";"%char rest;
  data ← cut_prefix rest "base64,";
  Some (mkAnthropicImageSource "base64" mediaType data).

Definition defaultThinkingBudget (effort : string) : Z :=
  if effort =s? "low" then 1024
  else if effort =s? "medium" then 4096
  else if effort =s? "high" then 10240
  else if effort =s? "max" then 32768
  else 10240.

Definition mapResponsesEffortToAnthropic (effort : string) : string :=
  if effort =s? "xhigh" then "max" else effort.

(** ** Content *)

Definition enc_text_block (text : string) : Enc :=
  enc_object [mem "text" (enc_string text); mem "type" (enc_string "text")].

Definition buildSystemJSON (parts : list string) : RawMessage :=
  let joined := trim_space (join parts paragraph) in
  if joined =s? "" then "" else marshal_or_nil (enc_list [enc_text_block joined]).

Definition dec_response_parts : Dec (list ResponsesContentPart) :=
  dec_slice dec_ResponsesContentPart zero_ResponsesContentPart.

Definition extractTextFromContent (raw : RawMessage) : string :=
  if raw =s? "" then "" else
  match unmarshal dec_string "" raw with
  | Ok s => s
  | Err _ =>
      match unmarshal dec_response_parts [] raw with
      | Ok parts =>
          join (concat (map (fun p =>
            if ((rcp_Type p =s? "input_text") || (rcp_Type p =s? "output_text") || (rcp_Type p =s? "text"))
               && (rcp_Text p <>s? "")
            then [rcp_Text p] else []) parts)) paragraph
      | Err _ => ""
      end
  end.

Definition text_block (text : string) : AnthropicContentBlock :=
  zero_AnthropicContentBlock <| acb_Type := "text" |> <| acb_Text := text |>.

Definition user_block (p : ResponsesContentPart) : list AnthropicContentBlock :=
  if (rcp_Type p =s? "input_text") || (rcp_Type p =s? "text") then
    if rcp_Text p =s? "" then [] else [text_block (rcp_Text p)]
  else if rcp_Type p =s? "input_image" then
    match dataURIToAnthropicImageSource (rcp_ImageURL p) with
    | Some src => [zero_AnthropicContentBlock <| acb_Type := "image" |> <| acb_Source := Some src |>]
    | None => []
    end
  else [].

Definition enc_blocks (blocks : list AnthropicContentBlock) : Enc := enc_slice enc_AnthropicContentBlock blocks.

Definition convertResponsesUserToAnthropicContent (raw : RawMessage) : result RawMessage :=
  if raw =s? "" then marshal (enc_string "") else
  match unmarshal dec_string "" raw with
  | Ok s => marshal (enc_string s)
  | Err _ =>
      match unmarshal dec_response_parts [] raw with
      | Err _ => Ok raw
      | Ok parts =>
          let blocks := concat (map user_block parts) in
          if nonempty blocks then marshal (enc_blocks blocks) else marshal (enc_string "")
      end
  end.

Definition assistant_block (p : ResponsesContentPart) : list AnthropicContentBlock :=
  if ((rcp_Type p =s? "output_text") || (rcp_Type p =s? "text")) && (rcp_Text p <>s? "")
  then [text_block (rcp_Text p)] else [].

Definition convertResponsesAssistantToAnthropicContent (raw : RawMessage) : result RawMessage :=
  if raw =s? "" then marshal (enc_blocks [text_block ""]) else
  match unmarshal dec_string "" raw with
  | Ok s => marshal (enc_blocks [text_block s])
  | Err _ =>
      match unmarshal dec_response_parts [] raw with
      | Err _ => Ok raw
      | Ok parts =>
          let blocks := concat (map assistant_block parts) in
          marshal (enc_blocks (if nonempty blocks then blocks else [text_block ""]))
      end
  end.

Definition normalizeResponsesArguments (raw : RawMessage) : RawMessage :=
  let trimmed := trim_space raw in
  if (trimmed =s? "") || (trimmed =s? "null") then "{}" else
  match unmarshal dec_string "" trimmed with
  | Ok s =>
      let inner := trim_space s in
      if inner =s? "" then "{}" else if valid inner then inner else "{}"
  | Err _ => trimmed
  end.

Definition extractResponsesOutputText (raw : RawMessage) : string :=
  let trimmed := trim_space raw in
  if (trimmed =s? "") || (trimmed =s? "null") then "" else
  match unmarshal dec_string "" trimmed with
  | Ok s => s
  | Err _ =>
      match unmarshal dec_response_parts [] trimmed with
      | Ok parts => join (concat (map (fun p => if rcp_Text p =s? "" then [] else [rcp_Text p]) parts)) paragraph
      | Err _ => trimmed
      end
  end.

(** ** Merging *)

(** The blocks of a content, [None] for a nil slice (content that is null or
    no content at all): a nil slice is written as null, an empty one as []. *)
Definition parseContentBlocks (raw : RawMessage) : option (list AnthropicContentBlock) :=
  match unmarshal (dec_ptr (dec_slice dec_AnthropicContentBlock zero_AnthropicContentBlock) []) None raw with
  | Ok blocks => blocks
  | Err _ =>
      match unmarshal dec_string "" raw with
      | Ok s => Some [text_block s]
      | Err _ => None
      end
  end.

Definition append_blocks (l1 l2 : option (list AnthropicContentBlock)) : option (list AnthropicContentBlock) :=
  match l1, l2 with
  | None, None | None, Some [] => None
  | _, _ => Some (default [] l1 ++ default [] l2)%list
  end.

(** [last.Content] after merging [msg] into [last]. *)
Definition merge_content (last msg : AnthropicMessage) : RawMessage :=
  marshal_or_nil (enc_ptr (fun blocks => enc_list (map enc_AnthropicContentBlock blocks))
    (append_blocks (parseContentBlocks (am_Content last)) (parseContentBlocks (am_Content msg)))).

(** One iteration over [merged], which is kept with its last element first. *)
Definition merge_step (merged : list AnthropicMessage) (msg : AnthropicMessage) : list AnthropicMessage :=
  match merged with
  | [] => [msg]
  | last :: rest =>
      if am_Role last <>s? am_Role msg then msg :: merged
      else (last <| am_Content := merge_content last msg |>) :: rest
  end.

Definition mergeConsecutiveMessages (messages : list AnthropicMessage) : list AnthropicMessage :=
  if (length messages <=? 1)%nat then messages else rev (foldl merge_step [] messages).

(** ** Input *)

(** What one input item adds to [systemParts] and to [messages]. *)
Definition input_item (item : ResponsesInputItem) : result (list string * list AnthropicMessage) :=
  if (rii_Role item =s? "system") || (rii_Role item =s? "developer") then
    let text := trim_space (extractTextFromContent (rii_Content item)) in
    mret (if text =s? "" then [] else [text], [])
  else if rii_Type item =s? "function_call" then
    let block := zero_AnthropicContentBlock <| acb_Type := "tool_use" |>
      <| acb_ID := fromResponsesCallIDToAnthropic (rii_CallID item) |> <| acb_Name := rii_Name item |>
      <| acb_Input := normalizeResponsesArguments (rii_Arguments item) |> in
    mret ([], [mkAnthropicMessage "assistant" (marshal_or_nil (enc_blocks [block]))])
  else if rii_Type item =s? "function_call_output" then
    let outputContent := extractResponsesOutputText (rii_Output item) in
    let outputContent := if outputContent =s? "" then "(empty)" else outputContent in
    let block := zero_AnthropicContentBlock <| acb_Type := "tool_result" |>
      <| acb_ToolUseID := fromResponsesCallIDToAnthropic (rii_CallID item) |>
      <| acb_Content := marshal_or_nil (enc_string outputContent) |> in
    mret ([], [mkAnthropicMessage "user" (marshal_or_nil (enc_blocks [block]))])
  else if rii_Role item =s? "user" then
    content ← convertResponsesUserToAnthropicContent (rii_Content item);
    mret ([], [mkAnthropicMessage "user" content])
  else if rii_Role item =s? "assistant" then
    content ← convertResponsesAssistantToAnthropicContent (rii_Content item);
    mret ([], [mkAnthropicMessage "assistant" content])
  else mret ([], if rii_Content item =s? "" then [] else [mkAnthropicMessage "user" (rii_Content item)]).

Fixpoint input_items (items : list ResponsesInputItem) : result (list string * list AnthropicMessage) :=
  match items with
  | [] => mret ([], [])
  | item :: items' =>
      '(s1, m1) ← input_item item;
      '(s2, m2) ← input_items items';
      mret ((s1 ++ s2)%list, (m1 ++ m2)%list)
  end.

Definition convertResponsesInputToAnthropic (instructions : string) (inputRaw : RawMessage)
    : result (RawMessage * list AnthropicMessage) :=
  let systemParts := let s := trim_space instructions in if s =s? "" then [] else [s] in
  match unmarshal dec_string "" inputRaw with
  | Ok inputStr =>
      mret (buildSystemJSON systemParts, [mkAnthropicMessage "user" (marshal_or_nil (enc_string inputStr))])
  | Err _ =>
      items ← wrap_err "parse responses input"
                (unmarshal (dec_slice dec_ResponsesInputItem zero_ResponsesInputItem) [] inputRaw);
      '(parts, messages) ← input_items items;
      mret (buildSystemJSON (systemParts ++ parts)%list, mergeConsecutiveMessages messages)
  end.

(** ** Tools and tool choice *)

Definition emptyObjectSchema : RawMessage := dq "{'type':'object','properties':{}}".

Definition normalizeAnthropicInputSchema (schema : RawMessage) : RawMessage :=
  let trimmed := trim_space schema in
  if (trimmed =s? "") || (trimmed =s? "null") then emptyObjectSchema else
  match unmarshal dec_raw_map ∅ schema with
  | Err _ => emptyObjectSchema
  | Ok m =>
      let typeRaw := default "" (m !! "type") in
      let typed :=
        if (trim_space typeRaw =s? "") || (typeRaw =s? "null")
        then Some (<["type" := dq "'object'"]> m)
        else match unmarshal dec_string "" typeRaw with
             | Ok typ => if typ =s? "object" then Some m else None
             | Err _ => None
             end in
      match typed with
      | None => emptyObjectSchema
      | Some m =>
          let m := match m !! "properties" with
                   | Some _ => m
                   | None => <["properties" := "{}"]> m
                   end in
          match marshal (enc_raw_map m) with
          | Ok out => out
          | Err _ => emptyObjectSchema
          end
      end
  end.

Definition is_search_type (t : string) : bool :=
  (t =s? "web_search") || (t =s? "google_search") || (t =s? "web_search_20250305").

Definition convertResponsesToAnthropicTools (tools : list ResponsesTool) : list AnthropicTool :=
  map (fun t =>
    let name := trim_space (rt_Name t) in
    let name := if name =s? "" then if is_search_type (rt_Type t) then "web_search" else trim_space (rt_Type t)
                else name in
    let tool := zero_AnthropicTool <| at_Name := name |> <| at_Description := rt_Description t |>
                  <| at_InputSchema := normalizeAnthropicInputSchema (rt_Parameters t) |> in
    if (rt_Type t =s? "custom") || (rt_Type t =s? "function") || (rt_Type t =s? "") || is_search_type (rt_Type t)
    then tool else tool <| at_Type := rt_Type t |>) tools.

(** The anonymous struct of convertResponsesToAnthropicToolChoice. *)
Record functionChoice : Type := mkfunctionChoice { fc_Type : string; fc_Name : string; fc_Function : string }.
Definition zero_functionChoice : functionChoice := mkfunctionChoice "" "" "".
#[export] Instance eta_functionChoice : Settable functionChoice := fun r =>
  mkfunctionChoice (fc_Type r) (fc_Name r) (fc_Function r).
Definition dec_function_name : Dec string := dec_struct [field "name" id (fun v _ => v) dec_string].
Definition dec_functionChoice : Dec functionChoice :=
  dec_struct [
    field "type" fc_Type (fun v r => r <| fc_Type := v |>) dec_string;
    field "name" fc_Name (fun v r => r <| fc_Name := v |>) dec_string;
    field "function" fc_Function (fun v r => r <| fc_Function := v |>) dec_function_name].

Definition enc_type (typ : string) : Enc := enc_object [mem "type" (enc_string typ)].

Definition convertResponsesToAnthropicToolChoice (raw : RawMessage) : result RawMessage :=
  match unmarshal dec_string "" raw with
  | Ok s =>
      if s =s? "auto" then marshal (enc_type "auto")
      else if s =s? "required" then marshal (enc_type "any")
      else if s =s? "none" then marshal (enc_type "none")
      else Ok raw
  | Err _ =>
      match unmarshal dec_functionChoice zero_functionChoice raw with
      | Ok tc =>
          if fc_Type tc <>s? "function" then Ok raw else
          let name := trim_space (fc_Name tc) in
          let name := if name =s? "" then trim_space (fc_Function tc) else name in
          if name =s? "" then Ok raw else marshal (enc_type_name "tool" name)
      | Err _ => Ok raw
      end
  end.

(** ** The request *)

(** The last block: [reasoning.effort] to [output_config.effort] and [thinking]. *)
Definition apply_effort (reasoning : option ResponsesReasoning) (out : AnthropicRequest) : AnthropicRequest :=
  match reasoning with
  | None => out
  | Some r =>
      if rr_Effort r =s? "" then out else
      let effort := mapResponsesEffortToAnthropic (rr_Effort r) in
      let out := out <| areq_OutputConfig := Some (mkAnthropicOutputConfig effort) |> in
      if effort =s? "low" then out
      else out <| areq_Thinking := Some (mkAnthropicThinking "enabled" (defaultThinkingBudget effort)) |>
  end.

Definition ResponsesToAnthropicRequest (req : ResponsesRequest) : result AnthropicRequest :=
  '(system, messages) ← convertResponsesInputToAnthropic (rreq_Instructions req) (rreq_Input req);
  let maxTokens := match rreq_MaxOutputTokens req with
                   | Some n => if 0 <? n then n else 0
                   | None => 0
                   end in
  let out := zero_AnthropicRequest <| areq_Model := rreq_Model req |> <| areq_Messages := messages |>
    <| areq_Temperature := rreq_Temperature req |> <| areq_TopP := rreq_TopP req |>
    <| areq_Stream := rreq_Stream req |> <| areq_System := system |>
    <| areq_MaxTokens := if maxTokens =? 0 then 8192 else maxTokens |> in
  let out := if nonempty (rreq_Tools req)
             then out <| areq_Tools := convertResponsesToAnthropicTools (rreq_Tools req) |> else out in
  out ← (if rreq_ToolChoice req =s? "" then mret out else
         tc ← wrap_err "convert tool_choice" (convertResponsesToAnthropicToolChoice (rreq_ToolChoice req));
         mret (out <| areq_ToolChoice := tc |>));
  mret (apply_effort (rreq_Reasoning req) out).
