(* ===== verification/RequestSpec.v ===== *)
(** * Contract of the request conversions

    First tool schemas and tool inputs: what the conversions guarantee of the JSON objects they rewrite: tool
    schemas sent to either upstream, and the sanitized input of a tool call. *)

From S2P Require Import Prelude GoStrings Json JsonFacts Types Codec AnthropicToResponses ChatToResponses.
From S2P Require Import ResponsesToAnthropic ResponsesToAnthropicRequest.

(** ** Literals of plain text are not changed by HTML escaping *)

Fixpoint clean (u : string) : bool :=
  match u with String c u' => utf8_1 c && negb (is_html c) && clean u' | EmptyString => true end.

Lemma clean_app a b : clean (a +:+ b) = clean a && clean b.
Proof. induction a as [|c a IH]; [done|]. cbn. rewrite IH. by rewrite !andb_assoc. Qed.

Lemma hex4_hex a b c d r : hex4 a b c d = Some r -> is_hex a = true /\ is_hex b = true /\ is_hex c = true /\ is_hex d = true.
Proof.
  unfold hex4, is_hex. destruct (hex_val a); [|done]. destruct (hex_val b); [|done].
  destruct (hex_val c); [|done]. by destruct (hex_val d).
Qed.

Lemma not_clean_high a s : utf8_1 a = false -> clean (String a s) = false.
Proof. intros H. cbn. by rewrite H. Qed.

Lemma not_clean_rune r s : 0x80 <= r < 0x110000 -> clean (encode_rune r +:+ s) = false.
Proof.
  intros Hr. unfold encode_rune. assert (H : forall z x, 0x80 <= z < 256 -> clean (String (byte_of z) x) = false).
  { intros z x Hz. apply not_clean_high. unfold utf8_1. rewrite byte_val_of; lia. }
  destruct (Z.ltb_spec r 0x80); [lia|].
  destruct (Z.ltb_spec r 0x800); [|destruct (Z.ltb_spec r 0x10000)]; cbn [String.append]; apply H.
  - assert (0 <= r / 64 < 32) by (split; [apply Z.div_le_lower_bound | apply Z.div_lt_upper_bound]; lia). lia.
  - assert (0 <= r / 4096 < 16) by (split; [apply Z.div_le_lower_bound | apply Z.div_lt_upper_bound]; lia). lia.
  - assert (0 <= r / 262144 < 5) by (split; [apply Z.div_le_lower_bound | apply Z.div_lt_upper_bound]; lia). lia.
Qed.

Lemma escape_html_ascii a s : utf8_1 a = true -> is_html a = false -> escape_html (String a s) = String a (escape_html s).
Proof. intros H1 H2. apply escape_html_skip; [done|]. unfold utf8_1 in H1. lia. Qed.

Lemma clean_literal l u : unquote l = Some u -> clean u = true -> escape_html l = l.
Proof.
  revert u. induction l as [l IH] using string_len_ind. intros u H Hc. destruct l as [|a s1]; [done|].
  assert (Hbs : utf8_1 backslash = true /\ is_html backslash = false) by done.
  assert (Hrep : forall s, (u0 ← unquote s; Some (replacement +:+ u0)) = Some u -> False).
  { intros s Hu. apply option_bind_Some in Hu as (u0 & _ & [= <-]). done. }
  cbn [unquote] in H. destruct (Ascii.eqb a backslash) eqn:Ea.
  - apply Ascii.eqb_eq in Ea as ->. destruct s1 as [|e s2]; [done|]. destruct (Ascii.eqb e "u"%char) eqn:Eu.
    + apply Ascii.eqb_eq in Eu as ->. destruct s2 as [|h1 [|h2 [|h3 [|h4 s6]]]]; try done.
      destruct (hex4 h1 h2 h3 h4) as [r|] eqn:Er; [|done].
      destruct (hex4_hex _ _ _ _ _ Er) as ([? ?]%is_hex_bytes & [? ?]%is_hex_bytes & [? ?]%is_hex_bytes & [? ?]%is_hex_bytes).
      apply hex4_range in Er. destruct (is_surrogate r) eqn:Es; cbn [negb] in H.
      2: { apply option_bind_Some in H as (u0 & Hu & [= <-]). rewrite clean_app in Hc. apply andb_true_iff in Hc as [_ Hc].
           rewrite !escape_html_skip by (done || by_vm). rewrite (IH s6 ltac:(cbn; lia) _ Hu Hc). done. }
      exfalso. destruct s6 as [|x [|y [|g1 [|g2 [|g3 [|g4 s12]]]]]]; try (by eapply Hrep).
      destruct (if Ascii.eqb x backslash && Ascii.eqb y "u"%char then hex4 g1 g2 g3 g4 else None) as [r1|]; [|by eapply Hrep].
      destruct (is_high_surrogate r && is_low_surrogate r1) eqn:Ehl; [|by eapply Hrep].
      apply andb_true_iff in Ehl as [Eh El]. pose proof (decode_surrogates_range _ _ Eh El).
      apply option_bind_Some in H as (u0 & _ & [= <-]). rewrite not_clean_rune in Hc by lia. done.
    + apply option_bind_Some in H as (c & He & H). apply option_bind_Some in H as (u0 & Hu & [= <-]).
      assert (is_html e = false /\ (byte_val e =? 0xE2) = false) as [? ?].
      { revert He. unfold simple_unescape. clear. each_byte e; intros H; try discriminate H; split; by_vm. }
      cbn [clean] in Hc. apply andb_true_iff in Hc as [_ Hc].
      rewrite !escape_html_skip by (done || by_vm). rewrite (IH s2 ltac:(cbn; lia) _ Hu Hc). done.
  - destruct (Ascii.eqb a dquote || (byte_val a <? 32)); [done|]. destruct (utf8_1 a) eqn:E1.
    { apply option_bind_Some in H as (u0 & Hu & [= <-]). cbn [clean] in Hc. rewrite E1 in Hc. cbn [andb] in Hc.
      apply andb_true_iff in Hc as [Hh Hc]. apply negb_true_iff in Hh. rewrite escape_html_ascii by done.
      rewrite (IH s1 ltac:(cbn; lia) _ Hu Hc). done. }
    exfalso. assert (Ha : forall s x, (u0 ← unquote s; Some (String a (x u0))) = Some u -> False).
    { intros s x Hu. apply option_bind_Some in Hu as (u0 & _ & [= <-]). rewrite not_clean_high in Hc by done. done. }
    destruct s1 as [|b s2]; [injection H as <-; done|]. destruct (utf8_2 a b); [by eapply (Ha s2 (String b))|].
    destruct s2 as [|c s3]; [by eapply Hrep|]. destruct (utf8_3 a b c); [by eapply (Ha s3 (fun u => String b (String c u)))|].
    destruct s3 as [|d s4]; [by eapply Hrep|]. destruct (utf8_4 a b c d); [|by eapply Hrep].
    by eapply (Ha s4 (fun u => String b (String c (String d u)))).
Qed.

(** A clean string value keeps its meaning when its document is compacted. *)
Lemma compact_string r s : clean s = true -> s <> "" -> unmarshal dec_string "" r = Ok s ->
  unmarshal dec_string "" (compact r) = Ok s.
Proof.
  intros Hc Hne. unfold unmarshal at 1, compact. destruct (parse r) as [t|] eqn:E; [|done]. cbn [mbind option_bind].
  destruct t as [ | b | lit | lit | raw es | raw ms]; cbn [dec_string]; try done.
  destruct (unquote lit) as [u|] eqn:Eu; [|done]. intros [= ->]. apply parse_wf in E as [Hok _]. cbn [wf] in Hok.
  cbn [html_tree]. rewrite (clean_literal lit s Eu Hc). rewrite unmarshal_print by done. cbn [norm dec_string]. by rewrite Eu.
Qed.

Lemma document_literal r : (exists v, parse r = Some v /\ depth v <= 1) -> document r.
Proof. intros (v & Hv & Hd). exists v. split; [done|]. unfold max_nesting_depth. lia. Qed.

Lemma document_empty_object : document "{}".
Proof. apply document_literal. eexists. split; [vm_compute; reflexivity | done]. Qed.

Lemma document_object_string : document (dq "'object'").
Proof. apply document_literal. eexists. split; [vm_compute; reflexivity | done]. Qed.

Lemma insert_documents m k r : documents m -> valid_utf8 k = true -> document r -> documents (<[k := r]> m).
Proof. intros Hm Hk Hr. by apply map_Forall_insert_2. Qed.

(** An object schema: it has the type "object" and some properties. *)
Definition object_schema (schema : RawMessage) : Prop := exists m tr,
  unmarshal dec_raw_map ∅ schema = Ok m /\ is_some (m !! "properties") = true /\
  m !! "type" = Some tr /\ unmarshal dec_string "" tr = Ok "object".

Lemma emptyObjectSchema_object : object_schema emptyObjectSchema.
Proof.
  exists (<["properties" := "{}"]> (<["type" := dq "'object'"]> ∅)), (dq "'object'").
  split_and!; vm_compute; reflexivity.
Qed.

(** Marshalling a map with those two members gives an object schema. *)
Lemma marshalled_object m tr : documents m -> is_some (m !! "properties") = true ->
  m !! "type" = Some tr -> unmarshal dec_string "" tr = Ok "object" ->
  object_schema (match marshal (enc_raw_map m) with Ok out => out | Err _ => emptyObjectSchema end).
Proof.
  intros Hm Hp Ht Htr. destruct (raw_map_round_trip m Hm) as (out & -> & Hout).
  exists (compact <$> m), (compact tr). split_and!; [exact Hout | | by rewrite lookup_fmap, Ht |].
  - rewrite lookup_fmap. by destruct (m !! "properties").
  - by apply compact_string.
Qed.

(** Whatever schema a Responses tool carries (none, null, not JSON, an
    array, an object of another type or without a type), the input_schema sent
    to Anthropic is a JSON object whose type is "object" and which has
    properties. *)
Theorem input_schema_always_object (schema : RawMessage) : object_schema (normalizeAnthropicInputSchema schema).
Proof.
  unfold normalizeAnthropicInputSchema.
  destruct (_ || _); [apply emptyObjectSchema_object|].
  destruct (unmarshal dec_raw_map ∅ schema) as [m|] eqn:Em; [|apply emptyObjectSchema_object].
  pose proof (unmarshal_raw_map_documents _ _ Em) as Hdoc. cbv zeta.
  set (typed := if (trim_space _ =s? "") || _ then _ else _).
  assert (Htyped : typed = None \/ exists m' tr, typed = Some m' /\ documents m' /\
    m' !! "type" = Some tr /\ unmarshal dec_string "" tr = Ok "object").
  { subst typed. destruct (m !! "type") as [tr|] eqn:Et; cbn [default from_option id]; unfold id.
    - destruct (_ || _) eqn:Eb.
      + right. eexists _, _. split; [done|]. split; [apply insert_documents; auto using document_object_string|].
        split; [apply lookup_insert_eq | vm_compute; reflexivity].
      + destruct (unmarshal dec_string "" tr) as [typ|] eqn:Etyp; [|by left]. destruct (typ =s? "object") eqn:Eo; [|by left].
        apply String.eqb_eq in Eo as ->. right. eexists _, _. done.
    - right. eexists _, _. split; [done|]. split; [apply insert_documents; auto using document_object_string|].
      split; [apply lookup_insert_eq | vm_compute; reflexivity]. }
  destruct Htyped as [-> | (m' & tr & -> & Hdoc' & Ht & Htr)]; [apply emptyObjectSchema_object|].
  destruct (m' !! "properties") as [p|] eqn:Ep.
  - apply (marshalled_object m' tr); try done. by rewrite Ep.
  - apply (marshalled_object _ tr); [| by rewrite lookup_insert_eq | by rewrite lookup_insert_ne | done].
    apply insert_documents; [done | done | apply document_empty_object].
Qed.

(** A tool schema sent to a Responses upstream that says it is an object
    has properties, and nothing else of it is lost: for every schema, either
    it is passed on as it is, or it was empty, or it is the given object with
    "properties" added. *)
Theorem tool_parameters_have_properties (schema : RawMessage) :
  let out := normalizeToolParameters schema in
  (forall m, unmarshal dec_raw_map ∅ out = Ok m -> m !! "type" = Some (dq "'object'") ->
     is_some (m !! "properties") = true) /\
  (out = schema \/ ((schema = "" \/ schema = "null") /\ out = emptyObjectSchema) \/
   exists m, unmarshal dec_raw_map ∅ schema = Ok m /\
     unmarshal dec_raw_map ∅ out = Ok (compact <$> <["properties" := "{}"]> m)).
Proof.
  cbn zeta. unfold normalizeToolParameters. fold emptyObjectSchema.
  destruct ((schema =s? "") || (schema =s? "null")) eqn:E0.
  { split; [|right; left; split; [|done]; apply orb_prop in E0 as [E|E]; apply String.eqb_eq in E; auto].
    intros m Hm _. revert Hm. vm_compute. intros [= <-]. done. }
  destruct (unmarshal dec_raw_map ∅ schema) as [m|] eqn:Em.
  2: { split; [intros m Hm; congruence | by left]. }
  destruct (default "" (m !! "type") <>s? dq "'object'") eqn:Et.
  { split; [|by left]. intros m' Hm' Ht. assert (m' = m) as -> by congruence. rewrite Ht in Et. done. }
  destruct (m !! "properties") as [p|] eqn:Ep.
  { split; [|by left]. intros m' Hm' _. assert (m' = m) as -> by congruence. by rewrite Ep. }
  assert (Hdoc : documents (<["properties" := "{}"]> m)).
  { apply insert_documents; [by eapply unmarshal_raw_map_documents | done | apply document_empty_object]. }
  destruct (raw_map_round_trip _ Hdoc) as (out & -> & Hout). split; [|right; right; by exists m].
  intros m' Hm' _. assert (m' = compact <$> <["properties" := "{}"]> m) as -> by congruence.
  by rewrite lookup_fmap, lookup_insert_eq.
Qed.

(** The input of a tool call is only changed to drop an empty "pages" of
    the Read tool: the sanitized input is the given one, or the tool is Read,
    its input an object with an empty "pages", and the result that object
    without it; a sanitized Read never has an empty "pages". *)
Theorem sanitize_drops_only_empty_pages (name raw : string) :
  let out := sanitizeAnthropicToolUseInput name raw in
  (out = raw \/
   exists m, name = "Read" /\ unmarshal dec_raw_map ∅ raw = Ok m /\ m !! "pages" = Some (dq "''") /\
     unmarshal dec_raw_map ∅ out = Ok (compact <$> delete "pages" m)) /\
  (name = "Read" -> forall m, unmarshal dec_raw_map ∅ out = Ok m -> m !! "pages" <> Some (dq "''")).
Proof.
  cbn zeta. unfold sanitizeAnthropicToolUseInput. destruct (name =s? "Read") eqn:En; cbn [negb orb].
  2: { split; [by left|]. intros ->. done. }
  apply String.eqb_eq in En as ->. destruct (raw =s? "") eqn:E0.
  { split; [by left|]. apply String.eqb_eq in E0 as ->. intros _ m Hm. by vm_compute in Hm. }
  destruct (unmarshal dec_raw_map ∅ raw) as [m|] eqn:Em.
  2: { split; [by left|]. intros _ m' Hm'. congruence. }
  destruct (m !! "pages") as [p|] eqn:Ep.
  2: { split; [by left|]. intros _ m' Hm'. congruence. }
  destruct (p =s? dq "''") eqn:Eq; cbn [negb].
  2: { split; [by left|]. intros _ m' Hm' Hp. assert (m' = m) as -> by congruence. rewrite Ep in Hp. injection Hp as ->. done. }
  apply String.eqb_eq in Eq as ->.
  assert (Hdoc : documents (delete "pages" m)).
  { apply map_Forall_delete. by eapply unmarshal_raw_map_documents. }
  destruct (raw_map_round_trip _ Hdoc) as (out & -> & Hout). split; [right; by exists m|].
  intros _ m' Hm'. assert (m' = compact <$> delete "pages" m) as -> by congruence.
  rewrite lookup_fmap, lookup_delete_eq. done.
Qed.

(** * What survives a request

    What survives the way from an Anthropic request to a Responses request
    and back, and what the conversions guarantee of any input. *)

(** ** Roles alternate *)

(** The reference: keep the first of every run of equal roles. *)
Fixpoint runs (roles : list string) : list string :=
  match roles with
  | [] => []
  | r :: roles' =>
      match runs roles' with
      | r' :: l => if r =s? r' then r' :: l else r :: r' :: l
      | [] => [r]
      end
  end.

Fixpoint alternating (roles : list string) : bool :=
  match roles with
  | r :: (r' :: _) as roles' => (r <>s? r') && alternating roles'
  | _ => true
  end.

Lemma runs_alternating roles : alternating (runs roles) = true.
Proof.
  induction roles as [|r roles IH]; [done|]. cbn [runs]. destruct (runs roles) as [|r' l] eqn:E; [done|].
  destruct (r =s? r') eqn:Er; [done|]. cbn [alternating]. rewrite Er. exact IH.
Qed.

Lemma runs_head r roles : exists l, runs (r :: roles) = r :: l.
Proof.
  cbn [runs]. destruct (runs roles) as [|r' l]; [by exists []|].
  destruct (r =s? r') eqn:E; [apply String.eqb_eq in E as ->; by exists l | by eexists].
Qed.

Lemma runs_same r roles : runs (r :: r :: roles) = runs (r :: roles).
Proof.
  cbn [runs]. destruct (runs_head r roles) as [l E]. cbn [runs] in E. rewrite E. by rewrite String.eqb_refl.
Qed.

Lemma runs_other r r' roles : (r =s? r') = false -> runs (r :: r' :: roles) = r :: runs (r' :: roles).
Proof.
  intros H. change (runs (r :: r' :: roles)) with
    (match runs (r' :: roles) with r'' :: l => if r =s? r'' then r'' :: l else r :: r'' :: l | [] => [r] end).
  destruct (runs_head r' roles) as [l ->]. by rewrite H.
Qed.

(** The loop: [rest] is final, [last] may still absorb messages. *)
Lemma merge_roles msgs : forall last rest,
  map am_Role (rev (foldl merge_step (last :: rest) msgs)) =
  (map am_Role (rev rest) ++ runs (am_Role last :: map am_Role msgs))%list.
Proof.
  induction msgs as [|m msgs IH]; intros last rest; [cbn; by rewrite map_app|].
  cbn [foldl map]. unfold merge_step at 2. destruct (am_Role last =s? am_Role m) eqn:E; cbn [negb].
  - rewrite IH. apply String.eqb_eq in E. cbn. rewrite <- E. symmetry. f_equal. apply runs_same.
  - rewrite IH, (runs_other _ _ _ E). cbn [rev]. rewrite map_app, <- (assoc_L (++)). done.
Qed.

(** Merging makes the roles alternate, as Anthropic requires: for any
    messages, the roles of the merged messages are the given ones with every
    run of equal roles collapsed into one, and no two neighbours are equal. *)
Theorem merged_roles_alternate (messages : list AnthropicMessage) :
  let roles := map am_Role (mergeConsecutiveMessages messages) in
  roles = runs (map am_Role messages) /\ alternating roles = true.
Proof.
  assert (H : map am_Role (mergeConsecutiveMessages messages) = runs (map am_Role messages)).
  { unfold mergeConsecutiveMessages. destruct messages as [|m [|m2 messages]]; [done..|].
    exact (merge_roles (m2 :: messages) m []). }
  cbn zeta. rewrite H. split; [done | apply runs_alternating].
Qed.

(** ** Identifiers of tool calls *)

Definition anthropic_id (id : string) : bool := has_prefix id "toolu_" || has_prefix id "call_".

(** The identifiers the API makes come back as they were. *)
Lemma call_id_back id : anthropic_id id = true ->
  fromResponsesCallIDToAnthropic (toResponsesCallID id) = id /\ fromResponsesCallID (toResponsesCallID id) = id.
Proof.
  intros H. unfold toResponsesCallID. destruct (has_prefix id "fc_") eqn:Efc.
  - apply has_prefix_inv in Efc as [r ->]. by unfold anthropic_id in H.
  - unfold fromResponsesCallIDToAnthropic, fromResponsesCallID. rewrite cut_prefix_app. unfold anthropic_id in H.
    by rewrite H.
Qed.

(** The identifier of a tool call survives the way to a Responses upstream
    and back.  An Anthropic or OpenAI identifier comes back unchanged through
    both reverse functions; any other one is sent as one the request converter
    maps to a well-formed Anthropic identifier, so that a tool_use and its
    tool_result, which go through the same functions, keep matching. *)
Theorem call_id_round_trip (id : string) :
  let sent := toResponsesCallID id in
  has_prefix sent "fc_" = true /\
  (if anthropic_id id
   then fromResponsesCallIDToAnthropic sent = id /\ fromResponsesCallID sent = id
   else anthropic_id (fromResponsesCallIDToAnthropic sent) = true).
Proof.
  cbn zeta. destruct (anthropic_id id) eqn:Eid.
  { split; [|by apply call_id_back]. unfold toResponsesCallID.
    destruct (has_prefix id "fc_") eqn:E; [done | by rewrite has_prefix_app]. }
  unfold toResponsesCallID. destruct (has_prefix id "fc_") eqn:Efc.
  - split; [done|]. apply has_prefix_inv in Efc as [r ->].
    unfold fromResponsesCallIDToAnthropic. rewrite cut_prefix_app.
    fold (anthropic_id r). destruct (anthropic_id r) eqn:E; [done|].
    fold (anthropic_id ("fc_" +:+ r)). unfold anthropic_id. cbn. done.
  - split; [by rewrite has_prefix_app|].
    unfold fromResponsesCallIDToAnthropic. rewrite cut_prefix_app. fold (anthropic_id id).
    rewrite Eid. unfold anthropic_id. cbn. done.
Qed.

(** ** Images *)

Lemma cut_byte_app c a b : cut_byte c a = None -> cut_byte c (a +:+ String c b) = Some (a, b).
Proof.
  induction a as [|d a IH]; cbn [cut_byte String.append]; intros H; [by rewrite Ascii.eqb_refl|].
  destruct (Ascii.eqb d c); [done|]. destruct (cut_byte c a) as [[]|]; [done|]. rewrite IH by done. done.
Qed.

(** An image survives the way through a data URI: for a non-empty payload
    and a media type without a semicolon, the source decoded from the URI has
    the payload and the media type of the original (image/png when it has
    none), and a Chat request with that URI keeps the image. *)
Theorem image_round_trip (src : AnthropicImageSource) :
  ais_Data src <> "" -> cut_byte ";"%char (ais_MediaType src) = None ->
  let uri := anthropicImageToDataURI (Some src) in
  dataURIToAnthropicImageSource uri =
    Some (mkAnthropicImageSource "base64"
            (if ais_MediaType src =s? "" then "image/png" else ais_MediaType src) (ais_Data src)) /\
  isEmptyBase64DataURI uri = (trim_space (ais_Data src) =s? "").
Proof.
  intros Hd Hm. cbn zeta. unfold anthropicImageToDataURI.
  destruct (ais_Data src =s? "") eqn:E; [apply String.eqb_eq in E; done|].
  set (mt := if ais_MediaType src =s? "" then "image/png" else ais_MediaType src).
  assert (Hmt : cut_byte ";"%char mt = None) by (subst mt; destruct (ais_MediaType src =s? ""); done).
  change (";base64," +:+ ais_Data src) with (String ";"%char ("base64," +:+ ais_Data src)).
  unfold dataURIToAnthropicImageSource, isEmptyBase64DataURI. rewrite cut_prefix_app. cbn [mbind option_bind].
  rewrite cut_byte_app by done. cbn [mbind option_bind]. rewrite cut_prefix_app. done.
Qed.

Lemma image_round_trip_witness :
  let src := mkAnthropicImageSource "base64" "image/jpeg" "AAAA" in
  dataURIToAnthropicImageSource (anthropicImageToDataURI (Some src)) = Some src.
Proof.
  apply (image_round_trip (mkAnthropicImageSource "base64" "image/jpeg" "AAAA")); [discriminate | reflexivity].
Defined.

(** ** Strings and tool arguments through JSON *)

Lemma unmarshal_enc_string s zero : valid_utf8 s = true -> unmarshal dec_string zero (print (JStr (quote s))) = Ok s.
Proof.
  intros Hs. rewrite unmarshal_print; [|apply str_ok_quote | done]. cbn. by rewrite unquote_quote.
Qed.

(** A literal between its quotes has no blanks to trim. *)
Lemma trim_space_quoted lit : trim_space (quoted lit) = quoted lit.
Proof.
  unfold trim_space, quoted. rewrite trim_left_head by by_vm. unfold trim_right.
  change (String dquote (lit +:+ String dquote "")) with (String dquote lit +:+ String dquote "").
  rewrite string_rev_snoc, trim_left_rev_head by by_vm. rewrite <- string_rev_snoc. apply string_rev_involutive.
Qed.

(** What the request converter makes of a JSON string. *)
Lemma normalize_string args : valid_utf8 args = true ->
  normalizeResponsesArguments (jsonRawString args) = (if valid (trim_space args) then trim_space args else "{}").
Proof.
  intros Hu. unfold jsonRawString, marshal, enc_string, normalizeResponsesArguments. cbn [or_zero print]. rewrite trim_space_quoted.
  change (quoted (quote args) =s? "") with false. change (quoted (quote args) =s? "null") with false. cbn [orb].
  change (quoted (quote args)) with (print (JStr (quote args))). rewrite unmarshal_enc_string by done.
  destruct (trim_space args =s? "") eqn:E; [|done]. apply String.eqb_eq in E as ->. done.
Qed.

(** The input of a tool call survives the string it travels in: what
    normalizeResponsesArguments makes of the JSON string jsonRawString makes
    of any valid UTF-8 text is that text, trimmed, when it is a JSON document,
    and an empty object otherwise; so what reaches Anthropic is always valid
    JSON. *)
Theorem arguments_round_trip (args : string) :
  valid_utf8 args = true ->
  let input := normalizeResponsesArguments (jsonRawString args) in
  input = (if valid (trim_space args) then trim_space args else "{}") /\ valid input = true.
Proof.
  intros Hu. cbn zeta. rewrite normalize_string by done. split; [done|].
  destruct (valid (trim_space args)) eqn:E; [done | vm_compute; reflexivity].
Qed.

Lemma arguments_round_trip_witness :
  normalizeResponsesArguments (jsonRawString (dq " {'path':'a'}")) = dq "{'path':'a'}".
Proof. apply (arguments_round_trip (dq " {'path':'a'}")). vm_compute. reflexivity. Defined.

(** ** Tool choice *)

(** The tool choices of the Anthropic API. *)
Definition choice_json (typ : string) : RawMessage := marshal_or_nil (enc_type typ).
Definition tool_json (name : string) : RawMessage := marshal_or_nil (enc_type_name "tool" name).

Definition type_name_tree (typ name : string) : jval :=
  JObj "" [(quote "name", JStr (quote name)); (quote "type", JStr (quote typ))].

Lemma marshal_type_name typ name : marshal (enc_type_name typ name) = Ok (print (type_name_tree typ name)).
Proof. done. Qed.

Lemma parse_type_name typ name :
  parse (print (type_name_tree typ name)) =
  Some (JObj (print (type_name_tree typ name)) [(quote "name", JStr (quote name)); (quote "type", JStr (quote typ))]).
Proof. apply parse_print; [cbn; split_and!; apply str_ok_quote || done | done]. Qed.

(** Every tool choice of the Anthropic API survives the way to a Responses
    request and back: auto, any and none become auto, required and none, a
    forced tool becomes a function choice, and the reverse conversion gives
    the original document. *)
Theorem tool_choice_round_trip (name : string) :
  valid_utf8 name = true -> trim_space name = name -> name <> "" ->
  let back raw := sent ← convertAnthropicToolChoiceToResponses raw; convertResponsesToAnthropicToolChoice sent in
  back (choice_json "auto") = Ok (choice_json "auto") /\
  back (choice_json "any") = Ok (choice_json "any") /\
  back (choice_json "none") = Ok (choice_json "none") /\
  back (tool_json name) = Ok (tool_json name).
Proof.
  intros Hu Ht Hne. cbn zeta. split; [by_vm|]. split; [by_vm|]. split; [by_vm|].
  unfold tool_json, marshal_or_nil. rewrite marshal_type_name. cbn [or_zero].
  unfold convertAnthropicToolChoiceToResponses, unmarshal. rewrite parse_type_name.
  unfold dec_toolChoice, dec_struct. cbn [mbind option_bind]. decode.
  cbn [result_bind mbind set_field tc_Type tc_Name]. cbn -[enc_type_name marshal convertResponsesToAnthropicToolChoice].
  rewrite marshal_type_name. cbn -[convertResponsesToAnthropicToolChoice type_name_tree].
  unfold convertResponsesToAnthropicToolChoice, unmarshal. rewrite parse_type_name. cbn [mbind option_bind].
  unfold dec_functionChoice, dec_struct. decode.
  cbn -[enc_type_name marshal trim_space print type_name_tree]. rewrite Ht.
  destruct (name =s? "") eqn:E; [by apply String.eqb_eq in E|].
  rewrite E. rewrite marshal_type_name. done.
Qed.

Lemma tool_choice_round_trip_witness :
  (sent ← convertAnthropicToolChoiceToResponses (tool_json "Read"); convertResponsesToAnthropicToolChoice sent)
  = Ok (tool_json "Read").
Proof. apply (tool_choice_round_trip "Read"); [vm_compute; reflexivity | vm_compute; reflexivity | discriminate]. Defined.

(** ** Parameters *)

(** The effort an Anthropic request asks for. *)
Definition requested_effort (req : AnthropicRequest) : string :=
  match areq_OutputConfig req with
  | Some oc => if aoc_Effort oc =s? "" then "high" else aoc_Effort oc
  | None => "high"
  end.

Lemma sent_parameters req sent : AnthropicToResponses req = Ok sent ->
  rreq_Model sent = areq_Model req /\ rreq_Temperature sent = areq_Temperature req /\
  rreq_TopP sent = areq_TopP req /\ rreq_Stream sent = areq_Stream req /\
  rreq_MaxOutputTokens sent = clampMaxOutputTokens (areq_MaxTokens req) /\
  rreq_Reasoning sent = Some (mkResponsesReasoning (mapAnthropicEffortToResponses (requested_effort req)) "auto").
Proof.
  unfold AnthropicToResponses. destruct (convertAnthropicToResponsesInput _ _) as [input|]; [|done]. cbn [mbind result_bind].
  destruct (marshal _) as [inputJSON|]; [|done]. cbn [mbind result_bind]. fold (requested_effort req).
  intros H. destruct (nonempty (areq_Tools req)), (areq_ToolChoice req =s? ""); cbn in H;
    try (injection H as <-; done);
    (destruct (convertAnthropicToolChoiceToResponses _); cbn in H; [injection H as <-; done | done]).
Qed.

(** What the last block leaves alone, and what it sets. *)
Lemma apply_effort_keeps r out : let back := apply_effort r out in
  areq_Model back = areq_Model out /\ areq_Temperature back = areq_Temperature out /\
  areq_TopP back = areq_TopP out /\ areq_Stream back = areq_Stream out /\ areq_StopSeqs back = areq_StopSeqs out /\
  areq_MaxTokens back = areq_MaxTokens out.
Proof. unfold apply_effort. repeat case_match; done. Qed.

Lemma apply_effort_sets e s out : e <> "" -> areq_Thinking out = None ->
  let effort := mapResponsesEffortToAnthropic e in
  let back := apply_effort (Some (mkResponsesReasoning e s)) out in
  areq_OutputConfig back = Some (mkAnthropicOutputConfig effort) /\
  areq_Thinking back = (if effort =s? "low" then None
                        else Some (mkAnthropicThinking "enabled" (defaultThinkingBudget effort))).
Proof.
  intros He Ht. apply String.eqb_neq in He. cbn -[mapResponsesEffortToAnthropic defaultThinkingBudget]. rewrite He.
  destruct (mapResponsesEffortToAnthropic e =s? "low"); done.
Qed.

(** The request before its last block. *)
Lemma back_base sent back : ResponsesToAnthropicRequest sent = Ok back ->
  exists out, back = apply_effort (rreq_Reasoning sent) out /\ areq_Thinking out = None /\
    areq_Model out = rreq_Model sent /\ areq_Temperature out = rreq_Temperature sent /\
    areq_TopP out = rreq_TopP sent /\ areq_Stream out = rreq_Stream sent /\ areq_StopSeqs out = [] /\
    areq_MaxTokens out =
      (if 0 <? default 0 (rreq_MaxOutputTokens sent) then default 0 (rreq_MaxOutputTokens sent) else 8192).
Proof.
  unfold ResponsesToAnthropicRequest. destruct (convertResponsesInputToAnthropic _ _) as [[system messages]|]; [|done].
  cbn [mbind result_bind]. intros H.
  set (n := match rreq_MaxOutputTokens sent with Some n => if 0 <? n then n else 0 | None => 0 end) in H.
  assert (Hn : (if n =? 0 then 8192 else n) =
    (if 0 <? default 0 (rreq_MaxOutputTokens sent) then default 0 (rreq_MaxOutputTokens sent) else 8192)).
  { subst n. destruct (rreq_MaxOutputTokens sent) as [n|]; [|done]. cbn. destruct (Z.ltb_spec 0 n); [|done].
    destruct (Z.eqb_spec n 0); [lia | done]. }
  rewrite <- Hn. clearbody n. clear Hn.
  destruct (nonempty (rreq_Tools sent)), (rreq_ToolChoice sent =s? ""); cbn [mbind result_bind mret result_ret] in H;
    try (injection H as <-; eexists; split; [reflexivity | done]);
    (destruct (convertResponsesToAnthropicToolChoice _); cbn [wrap_err mbind result_bind mret result_ret] in H;
     [injection H as <-; eexists; split; [reflexivity | done] | done]).
Qed.

(** C18: The parameters of an Anthropic request that is converted to a
    Responses request and back: model, sampling parameters and the stream flag
    are kept; max_tokens is kept from 128 up, raised to 128 below, and 8192
    when it was not positive; the effort is kept ("high" when absent, and
    xhigh becomes max), and thinking is enabled with that effort's budget
    unless it is low; stop sequences do not survive. *)
Theorem request_parameters_survive (req : AnthropicRequest) (sent : ResponsesRequest) (back : AnthropicRequest) :
  AnthropicToResponses req = Ok sent -> ResponsesToAnthropicRequest sent = Ok back ->
  let effort := if requested_effort req =s? "xhigh" then "max" else requested_effort req in
  areq_Model back = areq_Model req /\ areq_Temperature back = areq_Temperature req /\
  areq_TopP back = areq_TopP req /\ areq_Stream back = areq_Stream req /\
  areq_MaxTokens back = (if 0 <? areq_MaxTokens req then Z.max (areq_MaxTokens req) 128 else 8192) /\
  areq_OutputConfig back = Some (mkAnthropicOutputConfig effort) /\
  areq_Thinking back = (if effort =s? "low" then None
                        else Some (mkAnthropicThinking "enabled" (defaultThinkingBudget effort))) /\
  areq_StopSeqs back = [].
Proof.
  intros Hs Hb. destruct (sent_parameters _ _ Hs) as (S1 & S2 & S3 & S4 & S5 & S6).
  destruct (back_base _ _ Hb) as (out & -> & B7 & B1 & B2 & B3 & B4 & B5 & B6). rewrite S6.
  assert (Hne : requested_effort req <> "").
  { unfold requested_effort. destruct (areq_OutputConfig req) as [oc|]; [|done]. destruct (aoc_Effort oc =s? "") eqn:E; [done|].
    by apply String.eqb_neq. }
  destruct (apply_effort_keeps (Some (mkResponsesReasoning (mapAnthropicEffortToResponses (requested_effort req)) "auto")) out)
    as (K1 & K2 & K3 & K4 & K5 & K6).
  destruct (apply_effort_sets (mapAnthropicEffortToResponses (requested_effort req)) "auto" out) as [B8 B9]; [|done|].
  { unfold mapAnthropicEffortToResponses. by destruct (requested_effort req =s? "max"). }
  assert (He : mapResponsesEffortToAnthropic (mapAnthropicEffortToResponses (requested_effort req)) =
               if requested_effort req =s? "xhigh" then "max" else requested_effort req).
  { unfold mapResponsesEffortToAnthropic, mapAnthropicEffortToResponses.
    destruct (requested_effort req =s? "max") eqn:E; [apply String.eqb_eq in E as ->|]; done. }
  rewrite He in B8, B9. cbn zeta. split_and!; try congruence.
  rewrite K6, B6, S5. unfold clampMaxOutputTokens, minMaxOutputTokens.
  destruct (Z.ltb_spec 0 (areq_MaxTokens req)); [|done]. cbn.
  destruct (Z.ltb_spec (areq_MaxTokens req) 128); [rewrite Z.max_r by lia; done|]. rewrite Z.max_l by lia.
  destruct (Z.ltb_spec 0 (areq_MaxTokens req)); [done | lia].
Qed.

Definition sample_request : AnthropicRequest :=
  zero_AnthropicRequest <| areq_Model := "m" |> <| areq_MaxTokens := 16 |>
    <| areq_Messages := [mkAnthropicMessage "user" (dq "'hi'")] |>.

Definition sample_sent : ResponsesRequest := or_zero zero_ResponsesRequest (AnthropicToResponses sample_request).
Definition sample_back : AnthropicRequest := or_zero zero_AnthropicRequest (ResponsesToAnthropicRequest sample_sent).

Lemma request_parameters_survive_witness : areq_Model sample_back = "m" /\ areq_MaxTokens sample_back = 128.
Proof.
  destruct (request_parameters_survive sample_request sample_sent sample_back) as (H1 & _ & _ & _ & H2 & _);
    [vm_compute; reflexivity | vm_compute; reflexivity | exact (conj H1 H2)].
Defined.
