(* ===== verification/ConversationSpec.v ===== *)
(** * Conversations survive the round trip

    A conversation of plain turns (texts, tool calls and tool results), as an
    Anthropic request, converted to the input of a Responses request, sent as
    JSON, and converted back, is the conversation it was. *)

From S2P Require Import Prelude GoStrings Json JsonFacts Types Codec AnthropicToResponses.
From S2P Require Import ChatToResponses ResponsesToAnthropicRequest RequestSpec.

(** ** Escaped trees

    A document whose literals HTML escaping leaves alone keeps its text when
    it travels in a RawMessage. *)

Fixpoint escaped (t : jval) : Prop :=
  match t with
  | JStr lit => escape_html lit = lit
  | JArr _ es => foldr (fun e P => escaped e /\ P) True es
  | JObj _ ms => foldr (fun '(k, v) P => escape_html k = k /\ escaped v /\ P) True ms
  | _ => True
  end.

(** A literal of [quote] has nothing to escape. *)
Lemma escape_html_escape_ascii a s : utf8_1 a = true -> escape_html (escape_ascii a +:+ s) = escape_ascii a +:+ escape_html s.
Proof.
  each_byte a; intros H; try discriminate H; clear H; eval_escape;
    repeat (rewrite escape_html_skip by by_vm); reflexivity.
Qed.

Lemma escape_html_high b s : utf8_1 b = false -> (byte_val b =? 0xE2) = false ->
  escape_html (String b s) = String b (escape_html s).
Proof. intros H1 H2. apply escape_html_skip; [|done]. revert H1. each_byte b; intros H; try discriminate H; by_vm. Qed.

Lemma utf8_tail_bytes a b c d :
  (utf8_2 a b = true -> (byte_val a =? 0xE2) = false /\ (byte_val b =? 0xE2) = false) /\
  (utf8_3 a b c = true -> (byte_val b =? 0xE2) = false /\ (byte_val c =? 0xE2) = false) /\
  (utf8_4 a b c d = true -> (byte_val a =? 0xE2) = false /\ (byte_val b =? 0xE2) = false /\
     (byte_val c =? 0xE2) = false /\ (byte_val d =? 0xE2) = false).
Proof.
  unfold utf8_2, utf8_3, utf8_4, cont, in_range. split_and!; intros H; repeat rewrite ?andb_true_iff, ?orb_true_iff in H; lia.
Qed.

Lemma escape_html_quote s : escape_html (quote s) = quote s.
Proof.
  induction s as [s IH] using string_len_ind.
  destruct (quote_cases s) as [->|[(a & s1 & -> & H1 & ->)|[(a & s1 & -> & H1 & _ & ->)|
    [(a & b & s2 & -> & H1 & H2 & -> & _)|[(a & b & c & s3 & -> & H1 & _ & H3 & _ & ->)|
    (a & b & c & d & s4 & -> & H1 & _ & _ & H4 & _ & ->)]]]]].
  - done.
  - rewrite escape_html_escape_ascii, IH by (done || (cbn; lia)). done.
  - cbn [String.append]. rewrite !escape_html_skip, IH by (by_vm || (cbn; lia)). done.
  - destruct (utf8_tail_bytes a b a a) as (Hx & _). destruct (Hx H2) as [Ha Hb]. apply utf8_2_high in H2.
    rewrite !escape_html_high, IH by (done || (cbn; lia)). done.
  - destruct (utf8_tail_bytes a b c a) as (_ & Hx & _). destruct (Hx H3) as [Hb Hc]. apply utf8_3_high in H3 as [? ?].
    destruct (is_line_sep a b c) eqn:E.
    + apply line_sep_cases in E as (-> & -> & [-> | ->]); cbn [String.append].
      * change (escape_line_sep _) with "\u2028". cbn [String.append]. rewrite !escape_html_skip, IH by (by_vm || (cbn; lia)). done.
      * change (escape_line_sep _) with "\u2029". cbn [String.append]. rewrite !escape_html_skip, IH by (by_vm || (cbn; lia)). done.
    + cbn [String.append]. assert (Hs : forall x, escape_html (String a (String b (String c x))) =
        String a (escape_html (String b (String c x)))).
      { intros x. cbn [escape_html]. rewrite E. assert (is_html a = false) as ->; [|done].
        revert H1. clear. each_byte a; intros H; try discriminate H; by_vm. }
      rewrite Hs, !escape_html_high, IH by (done || (cbn; lia)). done.
  - destruct (utf8_tail_bytes a b c d) as (_ & _ & Hx). destruct (Hx H4) as (Ha & Hb & Hc & Hd). apply utf8_4_high in H4 as (? & ? & ?).
    rewrite !escape_html_high, IH by (done || (cbn; lia)). done.
Qed.

(** A document kept in a RawMessage, written and read again. *)
Lemma enc_raw_escaped t : wf t -> escaped t -> depth t <= max_nesting_depth ->
  exists u, enc_raw (print t) = Some u /\ wf u /\ depth u = depth t /\ print u = print t /\ raw_of (norm u) = print t.
Proof.
  intros Hwf He Hd. exists (html_tree (norm t)). unfold enc_raw.
  destruct (print t =s? "") eqn:E.
  { destruct (print_head t Hwf) as (c & s & Hp & _). rewrite Hp in E. done. }
  assert (Hp : parse (print t) = Some (norm t)) by by apply parse_print. rewrite Hp. split; [done|].
  destruct (parse_wf _ _ Hp) as [Hw _].
  assert (Hprint : print (html_tree (norm t)) = print t).
  { clear -He. induction t as [ | b | lit | lit | raw es IH | raw ms IH] using jval_induction; try done.
    - cbn [norm html_tree print]. cbn [escaped] in He. by rewrite He.
    - cbn [norm html_tree print escaped] in *. do 2 f_equal. rewrite !map_map. f_equal.
      induction IH as [|e es Hx IH IHes]; [done|]. destruct He as [He1 He2]. cbn [map]. f_equal; auto.
    - cbn [norm html_tree escaped] in *. rewrite !print_obj. do 3 f_equal. rewrite !map_map.
      induction IH as [|[k v] ms Hx IH IHms]; [done|]. destruct He as (He1 & He2 & He3). cbn [map]. f_equal; [|auto].
      unfold print_member. cbn [fst snd] in *. by rewrite He1, Hx. }
  split_and!; [by apply html_tree_wf | | done |].
  - rewrite html_tree_depth. clear. induction t as [ | b | lit | lit | raw es IH | raw ms IH] using jval_induction; try done.
    + cbn [norm depth]. f_equal. induction IH as [|e es Hx IH IHes]; [done|]. cbn. by rewrite Hx, IHes.
    + cbn [norm depth]. f_equal. induction IH as [|[k v] ms Hx IH IHms]; [done|]. cbn in *. by rewrite Hx, IHms.
  - by rewrite raw_of_norm.
Qed.

Ltac wf_tree := cbn [wf foldr]; split_and!; first [apply str_ok_quote | exact I | assumption].

(** ** Turns *)

Inductive turn : Type :=
| UserText (s : string)
| ToolResult (id output : string)
| AssistantText (s : string)
| ToolUse (id name : string) (input : jval).

Definition role_of (t : turn) : string :=
  match t with UserText _ | ToolResult _ _ => "user" | AssistantText _ | ToolUse _ _ _ => "assistant" end.

(** The content of the Anthropic message: a string, or one block. *)
Definition result_block (id output : string) : AnthropicContentBlock :=
  zero_AnthropicContentBlock <| acb_Type := "tool_result" |> <| acb_ToolUseID := id |>
    <| acb_Content := marshal_or_nil (enc_string output) |>.
Definition use_block (id name : string) (input : jval) : AnthropicContentBlock :=
  zero_AnthropicContentBlock <| acb_Type := "tool_use" |> <| acb_ID := id |> <| acb_Name := name |>
    <| acb_Input := print input |>.

Definition message_of (t : turn) : AnthropicMessage :=
  mkAnthropicMessage (role_of t)
    (match t with
     | UserText s => marshal_or_nil (enc_string s)
     | ToolResult id output => marshal_or_nil (enc_blocks [result_block id output])
     | AssistantText s => marshal_or_nil (enc_blocks [text_block s])
     | ToolUse id name input => marshal_or_nil (enc_blocks [use_block id name input])
     end).

(** What the round trip assumes of a turn: valid UTF-8, no empty text (it is
    dropped or replaced), an identifier Anthropic or OpenAI made, and an input
    that is a compact document. *)
Definition turn_ok (t : turn) : Prop :=
  match t with
  | UserText s => valid_utf8 s = true
  | ToolResult id output => anthropic_id id = true /\ valid_utf8 id = true /\ valid_utf8 output = true /\ output <> ""
  | AssistantText s => valid_utf8 s = true /\ s <> ""
  | ToolUse id name input => anthropic_id id = true /\ valid_utf8 id = true /\ valid_utf8 name = true /\ name <> "" /\
      wf input /\ escaped input /\ depth input <= max_nesting_depth - 2 /\
      valid_utf8 (print input) = true /\ trim_space (print input) = print input
  end.

(** The Responses input item of a turn. *)
Definition item_of (t : turn) : ResponsesInputItem :=
  match t with
  | UserText s => zero_ResponsesInputItem <| rii_Role := "user" |> <| rii_Content := marshal_or_nil (enc_string s) |>
  | ToolResult id output => zero_ResponsesInputItem <| rii_Type := "function_call_output" |>
      <| rii_CallID := toResponsesCallID id |> <| rii_Output := jsonRawString output |>
  | AssistantText s => zero_ResponsesInputItem <| rii_Role := "assistant" |> <| rii_Content := marshal_or_nil (enc_parts
      [zero_ResponsesContentPart <| rcp_Type := "output_text" |> <| rcp_Text := s |>]) |>
  | ToolUse id name input => zero_ResponsesInputItem <| rii_Type := "function_call" |>
      <| rii_CallID := toResponsesCallID id |> <| rii_Name := name |> <| rii_Arguments := jsonRawString (print input) |>
  end.

Lemma eqb_false s : s <> "" -> (s =s? "") = false.
Proof. apply String.eqb_neq. Qed.

(** ** Forward *)

Lemma forward_user s : valid_utf8 s = true -> anthropicMsgToResponsesItems (message_of (UserText s)) = Ok [item_of (UserText s)].
Proof.
  intros Hs. unfold anthropicMsgToResponsesItems. cbn [message_of role_of am_Role am_Content].
  change ("user" =s? "user") with true. cbv iota. unfold anthropicUserToResponses, marshal_or_nil.
  cbn [enc_string marshal or_zero]. rewrite unmarshal_enc_string by done. done.
Qed.

(** The tree of a one-block message and what it decodes to. *)
Lemma decode_block b members : enc_AnthropicContentBlock b = Some (JObj "" members) ->
  marshal (enc_blocks [b]) = Ok (print (JArr "" [JObj "" members])).
Proof. intros H. unfold enc_blocks, enc_slice, enc_list. cbn [map mapM]. rewrite H. done. Qed.

Definition text_part_tree (s : string) : jval :=
  JArr "" [JObj "" [(quote "type", JStr (quote "output_text")); (quote "text", JStr (quote s))]].

Lemma marshal_text_part s : s <> "" ->
  marshal (enc_parts [zero_ResponsesContentPart <| rcp_Type := "output_text" |> <| rcp_Text := s |>]) =
  Ok (print (text_part_tree s)).
Proof.
  intros H%eqb_false. unfold enc_parts, enc_slice, enc_list, enc_ResponsesContentPart, enc_object. cbn -[quote print].
  rewrite H. done.
Qed.

Lemma assistant_item_of s : s <> "" -> assistant_item s = Ok (item_of (AssistantText s)).
Proof. intros H. unfold assistant_item, item_of, marshal_or_nil. by rewrite marshal_text_part. Qed.

Definition text_block_tree (s : string) : jval :=
  JArr "" [JObj "" [(quote "type", JStr (quote "text")); (quote "text", JStr (quote s))]].

Lemma marshal_text_block s : s <> "" -> marshal (enc_blocks [text_block s]) = Ok (print (text_block_tree s)).
Proof.
  intros Hne%eqb_false. apply decode_block. unfold enc_AnthropicContentBlock, enc_object. cbn -[quote]. rewrite Hne. done.
Qed.

Lemma forward_text s : turn_ok (AssistantText s) ->
  anthropicMsgToResponsesItems (message_of (AssistantText s)) = Ok [item_of (AssistantText s)].
Proof.
  intros [Hs Hne0]. pose proof (eqb_false _ Hne0) as Hne. unfold anthropicMsgToResponsesItems. cbn [message_of role_of am_Role am_Content].
  change ("assistant" =s? "user") with false. change ("assistant" =s? "assistant") with true. cbv iota.
  unfold marshal_or_nil. rewrite marshal_text_block by done. cbn [or_zero]. unfold text_block_tree.
  unfold anthropicAssistantToResponses, unmarshal.
  rewrite parse_print; [| wf_tree | done].
  cbn [norm map mbind option_bind dec_string dec_slice mapM]. unfold dec_AnthropicContentBlock, dec_struct. decode.
  cbn [mret option_ret]. unfold extractAnthropicTextFromBlocks, text_of_block. cbn -[quote item_of]. rewrite Hne.
  cbn -[quote item_of]. rewrite Hne, assistant_item_of by done. done.
Qed.

Lemma anthropic_id_not_empty id : anthropic_id id = true -> (id =s? "") = false.
Proof. by destruct id. Qed.

Lemma string_content_document s : valid_utf8 s = true ->
  exists u, enc_raw (print (JStr (quote s))) = Some u /\ wf u /\ depth u = 0 /\ raw_of (norm u) = print (JStr (quote s)).
Proof.
  intros Hs. destruct (enc_raw_escaped (JStr (quote s))) as (u & Hu & Hw & Hd & _ & Hr);
    [apply str_ok_quote | apply escape_html_quote | done |]. by exists u.
Qed.

Lemma forward_result id output : turn_ok (ToolResult id output) ->
  anthropicMsgToResponsesItems (message_of (ToolResult id output)) = Ok [item_of (ToolResult id output)].
Proof.
  intros (Hid & Hu & Hs & Hne). pose proof (anthropic_id_not_empty _ Hid) as Hid0. pose proof (eqb_false _ Hne) as Hne0.
  unfold anthropicMsgToResponsesItems. cbn [message_of role_of am_Role am_Content].
  change ("user" =s? "user") with true. cbv iota.
  destruct (string_content_document output Hs) as (u & Hu1 & Hw & Hd & Hr).
  assert (He : enc_AnthropicContentBlock (result_block id output) =
    Some (JObj "" [(quote "type", JStr (quote "tool_result")); (quote "tool_use_id", JStr (quote id)); (quote "content", u)])).
  { unfold enc_AnthropicContentBlock, enc_object, result_block, marshal_or_nil, marshal, enc_string. cbn -[quote print enc_raw].
    rewrite Hid0. cbn -[quote print enc_raw]. rewrite Hu1. done. }
  unfold marshal_or_nil at 1. rewrite (decode_block _ _ He). cbn [or_zero].
  unfold anthropicUserToResponses, unmarshal.
  rewrite parse_print; [| wf_tree | cbn [depth foldr]; rewrite Hd; done].
  cbn [norm map mbind option_bind dec_string dec_slice mapM]. unfold dec_AnthropicContentBlock, dec_struct. decode.
  cbn [mret option_ret dec_raw mbind option_bind]. rewrite Hr.
  cbn -[quote print convertToolResultOutput toResponsesCallID jsonRawString].
  unfold convertToolResultOutput. cbn -[quote print toResponsesCallID jsonRawString unmarshal].
  rewrite unmarshal_enc_string by done. rewrite Hne0. done.
Qed.

Lemma forward_use id name input : turn_ok (ToolUse id name input) ->
  anthropicMsgToResponsesItems (message_of (ToolUse id name input)) = Ok [item_of (ToolUse id name input)].
Proof.
  intros (Hid & Hu & Hn & Hne & Hwf & Hesc & Hdep & _). pose proof (anthropic_id_not_empty _ Hid) as Hid0.
  pose proof (eqb_false _ Hne) as Hne0.
  unfold anthropicMsgToResponsesItems. cbn [message_of role_of am_Role am_Content].
  change ("assistant" =s? "user") with false. change ("assistant" =s? "assistant") with true. cbv iota.
  destruct (enc_raw_escaped input) as (u & Hu1 & Hw & Hd & Hp & Hr); [done | done | lia |].
  assert (Hp0 : (print input =s? "") = false).
  { destruct (print_head input Hwf) as (c & s & -> & _). done. }
  assert (He : enc_AnthropicContentBlock (use_block id name input) =
    Some (JObj "" [(quote "type", JStr (quote "tool_use")); (quote "id", JStr (quote id)); (quote "name", JStr (quote name));
                   (quote "input", u)])).
  { unfold enc_AnthropicContentBlock, enc_object, use_block. cbn -[quote print enc_raw].
    rewrite Hid0, Hne0, Hp0. cbn -[quote print enc_raw]. rewrite Hu1. done. }
  unfold marshal_or_nil at 1. rewrite (decode_block _ _ He). cbn [or_zero].
  unfold anthropicAssistantToResponses, unmarshal.
  rewrite parse_print; [| wf_tree | cbn [depth foldr]; rewrite Hd; unfold max_nesting_depth in *; lia].
  cbn [norm map mbind option_bind dec_string dec_slice mapM]. unfold dec_AnthropicContentBlock, dec_struct. decode.
  cbn [mret option_ret dec_raw mbind option_bind]. rewrite Hr.
  cbn -[quote print toResponsesCallID jsonRawString]. rewrite Hp0. done.
Qed.

Lemma forward t : turn_ok t -> anthropicMsgToResponsesItems (message_of t) = Ok [item_of t].
Proof. destruct t; [apply forward_user | apply forward_result | apply forward_text | apply forward_use]. Qed.

(** ** The items as JSON *)

Definition travels (item : ResponsesInputItem) : Prop := exists tree,
  enc_ResponsesInputItem item = Some tree /\ wf tree /\ depth tree <= max_nesting_depth - 1 /\
  dec_ResponsesInputItem (norm tree) zero_ResponsesInputItem = Some item.

Lemma print_not_empty t : wf t -> (print t =s? "") = false.
Proof. intros Hwf. by destruct (print_head t Hwf) as (c & s & -> & _). Qed.

Lemma travels_by item tree : enc_ResponsesInputItem item = Some tree -> wf tree -> depth tree <= max_nesting_depth - 1 ->
  dec_ResponsesInputItem (norm tree) zero_ResponsesInputItem = Some item -> travels item.
Proof. intros ? ? ? ?. by exists tree. Qed.

Lemma toResponsesCallID_facts id : valid_utf8 id = true ->
  valid_utf8 (toResponsesCallID id) = true /\ (toResponsesCallID id =s? "") = false.
Proof.
  intros H. unfold toResponsesCallID. destruct (has_prefix id "fc_") eqn:E; [|done].
  split; [done|]. by destruct id.
Qed.

(** A message item travels when its content does. *)
Lemma travel_message role content u : (role =s? "") = false -> valid_utf8 role = true -> (content =s? "") = false ->
  enc_raw content = Some u -> wf u -> depth u <= 5 -> raw_of (norm u) = content ->
  travels (zero_ResponsesInputItem <| rii_Role := role |> <| rii_Content := content |>).
Proof.
  intros Hr Hv Hc Hu Hw Hd Hn.
  apply (travels_by _ (JObj "" [(quote "role", JStr (quote role)); (quote "content", u)]));
    [| wf_tree | cbn [depth foldr]; unfold max_nesting_depth; lia |].
  - unfold enc_ResponsesInputItem, enc_object. cbn -[quote enc_raw]. rewrite Hr, Hc. cbn -[quote enc_raw]. by rewrite Hu.
  - cbn [norm map]. unfold dec_ResponsesInputItem, dec_struct. decode. cbn [dec_raw mbind option_bind]. by rewrite Hn.
Qed.

Lemma travel_user s : turn_ok (UserText s) -> travels (item_of (UserText s)).
Proof.
  intros Hs. destruct (string_content_document s Hs) as (u & Hu & Hw & Hd & Hr).
  apply (travel_message _ _ u); [done | done | apply (print_not_empty (JStr (quote s))), str_ok_quote | done | done | lia | done].
Qed.

Lemma travel_result id output : turn_ok (ToolResult id output) -> travels (item_of (ToolResult id output)).
Proof.
  intros (_ & Hid & Hs & _). destruct (string_content_document output Hs) as (u & Hu & Hw & Hd & Hr).
  destruct (toResponsesCallID_facts id Hid) as [Hc Hc0].
  apply (travels_by _ (JObj "" [(quote "type", JStr (quote "function_call_output")); (quote "call_id", JStr (quote (toResponsesCallID id)));
                   (quote "output", u)])); [| wf_tree | cbn [depth foldr]; rewrite Hd; done |].
  - abstract (unfold enc_ResponsesInputItem, enc_object, item_of, jsonRawString, marshal, enc_string;
    cbn -[quote print enc_raw toResponsesCallID]; rewrite Hc0; cbn -[quote print enc_raw toResponsesCallID]; rewrite Hu; done).
  - abstract (cbn [norm map]; unfold dec_ResponsesInputItem, dec_struct; decode; cbn [dec_raw mbind option_bind]; rewrite Hr; done).
Qed.

Lemma travel_text s : turn_ok (AssistantText s) -> travels (item_of (AssistantText s)).
Proof.
  intros [Hs Hne]. destruct (enc_raw_escaped (text_part_tree s)) as (u & Hu & Hw & Hd & _ & Hr).
  { unfold text_part_tree. wf_tree. } { cbn [escaped foldr text_part_tree]; split_and!; first [apply escape_html_quote | exact I]. } { done. }
  unfold item_of, marshal_or_nil. rewrite marshal_text_part by done.
  apply (travel_message _ _ u); [done | done | | done | done | rewrite Hd; cbn; lia | done].
  apply print_not_empty. unfold text_part_tree. wf_tree.
Qed.

Lemma travel_use id name input : turn_ok (ToolUse id name input) -> travels (item_of (ToolUse id name input)).
Proof.
  intros (_ & Hid & Hn & Hne & _ & _ & _ & Hu8 & _). destruct (string_content_document (print input) Hu8) as (u & Hu & Hw & Hd & Hr).
  destruct (toResponsesCallID_facts id Hid) as [Hc Hc0]. pose proof (eqb_false _ Hne) as Hne0.
  apply (travels_by _ (JObj "" [(quote "type", JStr (quote "function_call")); (quote "call_id", JStr (quote (toResponsesCallID id)));
                   (quote "name", JStr (quote name)); (quote "arguments", u)])); [| wf_tree | cbn [depth foldr]; rewrite Hd; done |].
  - abstract (unfold enc_ResponsesInputItem, enc_object, item_of, jsonRawString, marshal, enc_string;
    cbn -[quote print enc_raw toResponsesCallID]; rewrite Hc0, Hne0; cbn -[quote print enc_raw toResponsesCallID];
    rewrite (print_not_empty (JStr (quote (print input)))) by apply str_ok_quote; rewrite Hu; done).
  - abstract (cbn [norm map]; unfold dec_ResponsesInputItem, dec_struct; decode; cbn [dec_raw mbind option_bind]; rewrite Hr; done).
Qed.

Lemma items_travel t : turn_ok t -> travels (item_of t).
Proof. destruct t; [apply travel_user | apply travel_result | apply travel_text | apply travel_use]. Qed.

(** ** Backward *)

Lemma back_user s : turn_ok (UserText s) -> input_item (item_of (UserText s)) = Ok ([], [message_of (UserText s)]).
Proof.
  intros Hs. unfold input_item. cbn -[quote print convertResponsesUserToAnthropicContent].
  unfold convertResponsesUserToAnthropicContent. rewrite (print_not_empty (JStr (quote s))) by apply str_ok_quote.
  rewrite unmarshal_enc_string by done. done.
Qed.

Lemma back_result id output : turn_ok (ToolResult id output) ->
  input_item (item_of (ToolResult id output)) = Ok ([], [message_of (ToolResult id output)]).
Proof.
  intros (Hid & _ & Hs & Hne). unfold input_item.
  cbn -[quote print toResponsesCallID fromResponsesCallIDToAnthropic extractResponsesOutputText jsonRawString marshal_or_nil enc_blocks enc_string].
  destruct (call_id_back id Hid) as [-> _].
  assert (extractResponsesOutputText (jsonRawString output) = output) as ->.
  { unfold extractResponsesOutputText, jsonRawString, marshal, enc_string. cbn [or_zero print]. rewrite trim_space_quoted.
    change (quoted (quote output) =s? "") with false. change (quoted (quote output) =s? "null") with false. cbn [orb].
    change (quoted (quote output)) with (print (JStr (quote output))). by rewrite unmarshal_enc_string. }
  rewrite eqb_false by done. done.
Qed.

Lemma back_text s : turn_ok (AssistantText s) ->
  input_item (item_of (AssistantText s)) = Ok ([], [message_of (AssistantText s)]).
Proof.
  intros [Hs Hne]. unfold input_item, item_of. unfold marshal_or_nil. rewrite marshal_text_part by done.
  cbn -[quote print text_part_tree convertResponsesAssistantToAnthropicContent enc_blocks].
  assert (Hw : wf (text_part_tree s)) by (unfold text_part_tree; wf_tree).
  unfold convertResponsesAssistantToAnthropicContent. rewrite print_not_empty by done.
  rewrite !unmarshal_print by done. cbn [text_part_tree norm map dec_string].
  unfold dec_response_parts. cbn [dec_slice mapM]. unfold dec_ResponsesContentPart, dec_struct.
  cbn [mbind option_bind]. decode. unfold assistant_block. cbn -[quote enc_blocks].
  rewrite (eqb_false s) by done. cbn [negb nonempty app]. unfold message_of, marshal_or_nil.
  match goal with |- context [enc_blocks [?b]] => change b with (text_block s) end.
  rewrite !(marshal_text_block s) by done. done.
Qed.

Lemma back_use id name input : turn_ok (ToolUse id name input) ->
  input_item (item_of (ToolUse id name input)) = Ok ([], [message_of (ToolUse id name input)]).
Proof.
  intros (Hid & _ & _ & _ & Hwf & _ & Hd & Hu & Ht). unfold input_item.
  cbn -[quote print toResponsesCallID fromResponsesCallIDToAnthropic normalizeResponsesArguments jsonRawString marshal_or_nil enc_blocks].
  destruct (call_id_back id Hid) as [-> _]. rewrite normalize_string, Ht by done.
  assert (valid (print input) = true) as ->.
  { unfold valid. rewrite parse_print by (done || lia). done. }
  done.
Qed.

Lemma back t : turn_ok t -> input_item (item_of t) = Ok ([], [message_of t]).
Proof. destruct t; [apply back_user | apply back_result | apply back_text | apply back_use]. Qed.

(** ** Whole conversations *)

Lemma merge_alternating msgs : forall last rest, alternating (am_Role last :: map am_Role msgs) = true ->
  foldl merge_step (last :: rest) msgs = (rev msgs ++ last :: rest)%list.
Proof.
  induction msgs as [|m msgs IH]; intros last rest H; [done|].
  cbn [map alternating] in H. apply andb_true_iff in H as [H1 H2]. cbn [foldl rev]. unfold merge_step at 2. rewrite H1.
  rewrite IH by done. by rewrite <- (assoc_L (++)).
Qed.

Lemma merge_of_alternating msgs : alternating (map am_Role msgs) = true -> mergeConsecutiveMessages msgs = msgs.
Proof.
  unfold mergeConsecutiveMessages. destruct msgs as [|m [|m2 msgs]]; [done..|]. intros H.
  change (foldl merge_step [] (m :: m2 :: msgs)) with (foldl merge_step [m] (m2 :: msgs)).
  rewrite merge_alternating by done. by rewrite rev_app_distr, rev_involutive.
Qed.

Lemma items_of_turns turns : Forall turn_ok turns ->
  convertAnthropicToResponsesInput "" (map message_of turns) = Ok (map item_of turns).
Proof.
  intros H. unfold convertAnthropicToResponsesInput. cbn [String.eqb mbind result_bind mret result_ret].
  assert (E : convert_messages anthropicMsgToResponsesItems (map message_of turns) = Ok (map item_of turns)).
  { induction H as [|t turns Ht H IH]; [done|]. cbn [map convert_messages]. rewrite forward by done.
    cbn [mbind result_bind]. rewrite IH. done. }
  rewrite E. done.
Qed.

Lemma travel_trees items : Forall travels items -> exists trees,
  mapM id (map enc_ResponsesInputItem items) = Some trees /\ wf (JArr "" trees) /\
  depth (JArr "" trees) <= max_nesting_depth /\
  mapM (fun e => dec_ResponsesInputItem e zero_ResponsesInputItem) (map norm trees) = Some items.
Proof.
  induction 1 as [|item items (tree & He & Hw & Hd & Hdec) _ (trees & Es & Ws & Ds & Decs)]; [by exists []|].
  exists (tree :: trees). cbn [map mapM id wf depth foldr] in *. unfold id in *. rewrite He, Hdec, Es, Decs.
  cbn [mbind option_bind]. split_and!; [done | done | done | lia | done].
Qed.

(** Items sent as JSON are read back, and are not taken for a string. *)
Lemma travel_items items : Forall travels items -> items <> [] -> exists text,
  marshal (enc_slice enc_ResponsesInputItem items) = Ok text /\
  unmarshal dec_string "" text = Err err_json /\
  unmarshal (dec_slice dec_ResponsesInputItem zero_ResponsesInputItem) [] text = Ok items.
Proof.
  intros (trees & Es & Ws & Ds & Decs)%travel_trees Hne. exists (print (JArr "" trees)).
  unfold marshal. replace (enc_slice enc_ResponsesInputItem items) with (Some (JArr "" trees)).
  - rewrite !unmarshal_print by done. cbn [norm dec_string dec_slice]. by rewrite Decs.
  - destruct items; [done|]. unfold enc_slice, enc_list. by rewrite Es.
Qed.

Lemma turns_of_items turns : Forall turn_ok turns -> input_items (map item_of turns) = Ok ([], map message_of turns).
Proof.
  induction 1 as [|t turns Ht H IH]; [done|]. cbn [map input_items]. rewrite back by done. cbn [mbind result_bind].
  rewrite IH. done.
Qed.

(** C16: A conversation of texts, tool calls and tool results in which the roles
    alternate survives the way through a Responses request: converting its
    messages to input items, sending them as JSON and converting the received
    input back gives exactly the messages it was. *)
Theorem conversation_round_trip (turns : list turn) :
  Forall turn_ok turns -> turns <> [] -> alternating (map role_of turns) = true ->
  (items ← convertAnthropicToResponsesInput "" (map message_of turns);
   input ← marshal (enc_slice enc_ResponsesInputItem items);
   convertResponsesInputToAnthropic "" input) = Ok ("", map message_of turns).
Proof.
  intros H Hne Ha. rewrite items_of_turns by done. cbn [mbind result_bind].
  destruct (travel_items (map item_of turns)) as (text & H1 & H2 & H3).
  { apply Forall_map. eapply Forall_impl; [exact H | exact items_travel]. }
  { by destruct turns. }
  rewrite H1. cbn [mbind result_bind]. unfold convertResponsesInputToAnthropic. rewrite H2, H3. cbn [wrap_err mbind result_bind].
  rewrite turns_of_items by done. cbn [mbind result_bind]. rewrite merge_of_alternating; [done|].
  by rewrite map_map.
Qed.

Definition sample_turns : list turn :=
  [UserText "what is in a?"; ToolUse "toolu_1" "Read" (JObj "" [(quote "path", JStr (quote "a"))]);
   ToolResult "toolu_1" "hello"; AssistantText "a says <hello>"].

Lemma sample_turns_ok : Forall turn_ok sample_turns.
Proof. repeat constructor; try discriminate; vm_compute; try reflexivity; try discriminate. Qed.

Lemma conversation_round_trip_witness :
  (items ← convertAnthropicToResponsesInput "" (map message_of sample_turns);
   input ← marshal (enc_slice enc_ResponsesInputItem items);
   convertResponsesInputToAnthropic "" input) = Ok ("", map message_of sample_turns).
Proof.
  apply (conversation_round_trip sample_turns); [exact sample_turns_ok | discriminate | vm_compute; reflexivity].
Defined.
