(* ===== verification/GeminiTypes.v ===== *)
(** * The Gemini and Claude wire types (internal/pkg/antigravity/gemini_types.go, claude_types.go)

    One [Record] per Go struct, fields in the Go order and prefixed with the
    initials of the struct, with the JSON encoders and decoders their tags
    derive.  A [map[string]any] is [None] when nil; a slice that is written
    without [omitempty] is [null] when nil, and no operation of the package
    builds an empty one there. *)

From Stdlib Require Import SpecFloat.
From S2P Require Import Prelude GoStrings Json AnyJson Types.

(** ** float64 and maps of any *)

Definition enc_float (x : float64) : Enc :=
  match x with
  | S754_zero s => Some (JNum (if s then "-0" else "0"))
  | S754_finite s m e => Some (JNum ((if s then "-" else "") +:+ format_float64 (Z.pos m) e))
  | _ => None
  end.

Definition dec_float : Dec float64 := fun t cur =>
  match t with
  | JNull => Some cur
  | JNum lit =>
      let (s, digits) := match cut_prefix lit "-" with Some d => (true, d) | None => (false, lit) end in
      '(m, e) ← parse_float64 digits;
      Some (if m =? 0 then S754_zero s else S754_finite s (Z.to_pos m) e)
  | _ => None
  end.

Abbreviation any_map := (list (string * any)).

Definition is_nil (v : any) : bool := match v with ANil => true | _ => false end.
Definition has_members (m : option any_map) : bool := match m with Some (_ :: _) => true | _ => false end.

Definition enc_any (v : any) : Enc := Some (encode_any v).
Definition enc_any_map (m : option any_map) : Enc := enc_ptr (fun m => enc_any (AMap m)) m.

(** Members are added to the map the field holds. *)
Definition dec_any_map : Dec (option any_map) := fun t cur =>
  match t with
  | JNull => Some None
  | JObj _ ms =>
      m ← foldl (fun acc '(k, t) => m ← acc; key ← unquote k; v ← decode_any t; Some (set_member key v m)) (Some (default [] cur)) ms;
      Some (Some m)
  | _ => None
  end.

(** [m[key]], and with a type assertion. *)
Fixpoint member_of (key : string) (m : any_map) : option any :=
  match m with
  | [] => None
  | (k, v) :: m => if k =s? key then Some v else member_of key m
  end.

Definition as_string (v : any) : option string := match v with AStr s => Some s | _ => None end.
Definition as_map (v : any) : option any_map := match v with AMap m => Some m | _ => None end.
Definition as_array (v : any) : option (list any) := match v with AArr l => Some l | _ => None end.

(** A map literal. *)
Definition any_of (ms : list (string * any)) : any := AMap (foldl (fun m '(k, v) => set_member k v m) [] ms).

Definition AInt (z : Z) : any := ANum (pretty z).

(** ** Data *)

Record GeminiInlineData : Type := mkGeminiInlineData { gid_MimeType : string; gid_Data : string }.
Definition zero_GeminiInlineData : GeminiInlineData := mkGeminiInlineData "" "".
#[export] Instance eta_GeminiInlineData : Settable GeminiInlineData :=
  fun r => mkGeminiInlineData (gid_MimeType r) (gid_Data r).

Record GeminiFunctionCall : Type := mkGeminiFunctionCall { gfc_Name : string; gfc_Args : any; gfc_ID : string }.
Definition zero_GeminiFunctionCall : GeminiFunctionCall := mkGeminiFunctionCall "" ANil "".
#[export] Instance eta_GeminiFunctionCall : Settable GeminiFunctionCall :=
  fun r => mkGeminiFunctionCall (gfc_Name r) (gfc_Args r) (gfc_ID r).

Record GeminiFunctionResponse : Type := mkGeminiFunctionResponse { gfr_Name : string; gfr_Response : option any_map;
  gfr_ID : string }.
Definition zero_GeminiFunctionResponse : GeminiFunctionResponse := mkGeminiFunctionResponse "" None "".
#[export] Instance eta_GeminiFunctionResponse : Settable GeminiFunctionResponse :=
  fun r => mkGeminiFunctionResponse (gfr_Name r) (gfr_Response r) (gfr_ID r).

Record GeminiPart : Type := mkGeminiPart { gp_Text : string; gp_Thought : bool; gp_ThoughtSignature : string;
  gp_InlineData : option GeminiInlineData; gp_FunctionCall : option GeminiFunctionCall;
  gp_FunctionResponse : option GeminiFunctionResponse }.
Definition zero_GeminiPart : GeminiPart := mkGeminiPart "" false "" None None None.
#[export] Instance eta_GeminiPart : Settable GeminiPart :=
  fun r => mkGeminiPart (gp_Text r) (gp_Thought r) (gp_ThoughtSignature r) (gp_InlineData r) (gp_FunctionCall r)
  (gp_FunctionResponse r).

Record GeminiContent : Type := mkGeminiContent { gc_Role : string; gc_Parts : list GeminiPart }.
Definition zero_GeminiContent : GeminiContent := mkGeminiContent "" [].
#[export] Instance eta_GeminiContent : Settable GeminiContent :=
  fun r => mkGeminiContent (gc_Role r) (gc_Parts r).

Record GeminiImageConfig : Type := mkGeminiImageConfig { gic_AspectRatio : string; gic_ImageSize : string }.
Definition zero_GeminiImageConfig : GeminiImageConfig := mkGeminiImageConfig "" "".
#[export] Instance eta_GeminiImageConfig : Settable GeminiImageConfig :=
  fun r => mkGeminiImageConfig (gic_AspectRatio r) (gic_ImageSize r).

Record GeminiThinkingConfig : Type := mkGeminiThinkingConfig { gtc_IncludeThoughts : bool; gtc_ThinkingBudget : Z }.
Definition zero_GeminiThinkingConfig : GeminiThinkingConfig := mkGeminiThinkingConfig false 0.
#[export] Instance eta_GeminiThinkingConfig : Settable GeminiThinkingConfig :=
  fun r => mkGeminiThinkingConfig (gtc_IncludeThoughts r) (gtc_ThinkingBudget r).

Record GeminiGenerationConfig : Type := mkGeminiGenerationConfig { ggc_MaxOutputTokens : Z; ggc_Temperature : option float64;
  ggc_TopP : option float64; ggc_TopK : option Z; ggc_ThinkingConfig : option GeminiThinkingConfig;
  ggc_StopSequences : list string; ggc_ImageConfig : option GeminiImageConfig }.
Definition zero_GeminiGenerationConfig : GeminiGenerationConfig := mkGeminiGenerationConfig 0 None None None None [] None.
#[export] Instance eta_GeminiGenerationConfig : Settable GeminiGenerationConfig :=
  fun r => mkGeminiGenerationConfig (ggc_MaxOutputTokens r) (ggc_Temperature r) (ggc_TopP r) (ggc_TopK r)
  (ggc_ThinkingConfig r) (ggc_StopSequences r) (ggc_ImageConfig r).

Record GeminiFunctionDecl : Type := mkGeminiFunctionDecl { gfd_Name : string; gfd_Description : string;
  gfd_Parameters : option any_map }.
Definition zero_GeminiFunctionDecl : GeminiFunctionDecl := mkGeminiFunctionDecl "" "" None.
#[export] Instance eta_GeminiFunctionDecl : Settable GeminiFunctionDecl :=
  fun r => mkGeminiFunctionDecl (gfd_Name r) (gfd_Description r) (gfd_Parameters r).

Record GeminiImageSearch : Type := mkGeminiImageSearch { gis_MaxResultCount : Z }.
Definition zero_GeminiImageSearch : GeminiImageSearch := mkGeminiImageSearch 0.
#[export] Instance eta_GeminiImageSearch : Settable GeminiImageSearch :=
  fun r => mkGeminiImageSearch (gis_MaxResultCount r).

Record GeminiEnhancedContent : Type := mkGeminiEnhancedContent { gec_ImageSearch : option GeminiImageSearch }.
Definition zero_GeminiEnhancedContent : GeminiEnhancedContent := mkGeminiEnhancedContent None.
#[export] Instance eta_GeminiEnhancedContent : Settable GeminiEnhancedContent :=
  fun r => mkGeminiEnhancedContent (gec_ImageSearch r).

Record GeminiGoogleSearch : Type := mkGeminiGoogleSearch { ggs_EnhancedContent : option GeminiEnhancedContent }.
Definition zero_GeminiGoogleSearch : GeminiGoogleSearch := mkGeminiGoogleSearch None.
#[export] Instance eta_GeminiGoogleSearch : Settable GeminiGoogleSearch :=
  fun r => mkGeminiGoogleSearch (ggs_EnhancedContent r).

Record GeminiToolDeclaration : Type := mkGeminiToolDeclaration { gtd_FunctionDeclarations : list GeminiFunctionDecl;
  gtd_GoogleSearch : option GeminiGoogleSearch }.
Definition zero_GeminiToolDeclaration : GeminiToolDeclaration := mkGeminiToolDeclaration [] None.
#[export] Instance eta_GeminiToolDeclaration : Settable GeminiToolDeclaration :=
  fun r => mkGeminiToolDeclaration (gtd_FunctionDeclarations r) (gtd_GoogleSearch r).

Record GeminiFunctionCallingConfig : Type := mkGeminiFunctionCallingConfig { gfcc_Mode : string }.
Definition zero_GeminiFunctionCallingConfig : GeminiFunctionCallingConfig := mkGeminiFunctionCallingConfig "".
#[export] Instance eta_GeminiFunctionCallingConfig : Settable GeminiFunctionCallingConfig :=
  fun r => mkGeminiFunctionCallingConfig (gfcc_Mode r).

Record GeminiToolConfig : Type := mkGeminiToolConfig { gtco_FunctionCallingConfig : option GeminiFunctionCallingConfig }.
Definition zero_GeminiToolConfig : GeminiToolConfig := mkGeminiToolConfig None.
#[export] Instance eta_GeminiToolConfig : Settable GeminiToolConfig :=
  fun r => mkGeminiToolConfig (gtco_FunctionCallingConfig r).

Record GeminiSafetySetting : Type := mkGeminiSafetySetting { gss_Category : string; gss_Threshold : string }.
Definition zero_GeminiSafetySetting : GeminiSafetySetting := mkGeminiSafetySetting "" "".
#[export] Instance eta_GeminiSafetySetting : Settable GeminiSafetySetting :=
  fun r => mkGeminiSafetySetting (gss_Category r) (gss_Threshold r).

Record GeminiRequest : Type := mkGeminiRequest { greq_Contents : list GeminiContent;
  greq_SystemInstruction : option GeminiContent; greq_GenerationConfig : option GeminiGenerationConfig;
  greq_Tools : list GeminiToolDeclaration; greq_ToolConfig : option GeminiToolConfig;
  greq_SafetySettings : list GeminiSafetySetting; greq_SessionID : string }.
Definition zero_GeminiRequest : GeminiRequest := mkGeminiRequest [] None None [] None [] "".
#[export] Instance eta_GeminiRequest : Settable GeminiRequest :=
  fun r => mkGeminiRequest (greq_Contents r) (greq_SystemInstruction r) (greq_GenerationConfig r) (greq_Tools r)
  (greq_ToolConfig r) (greq_SafetySettings r) (greq_SessionID r).

Record V1InternalRequest : Type := mkV1InternalRequest { vreq_Project : string; vreq_RequestID : string;
  vreq_UserAgent : string; vreq_RequestType : string; vreq_Model : string; vreq_Request : GeminiRequest }.
Definition zero_V1InternalRequest : V1InternalRequest := mkV1InternalRequest "" "" "" "" "" zero_GeminiRequest.
#[export] Instance eta_V1InternalRequest : Settable V1InternalRequest :=
  fun r => mkV1InternalRequest (vreq_Project r) (vreq_RequestID r) (vreq_UserAgent r) (vreq_RequestType r) (vreq_Model r)
  (vreq_Request r).

Record GeminiTokenDetail : Type := mkGeminiTokenDetail { gtok_Modality : string; gtok_TokenCount : Z }.
Definition zero_GeminiTokenDetail : GeminiTokenDetail := mkGeminiTokenDetail "" 0.
#[export] Instance eta_GeminiTokenDetail : Settable GeminiTokenDetail :=
  fun r => mkGeminiTokenDetail (gtok_Modality r) (gtok_TokenCount r).

Record GeminiUsageMetadata : Type := mkGeminiUsageMetadata { gum_PromptTokenCount : Z; gum_CandidatesTokenCount : Z;
  gum_CachedContentTokenCount : Z; gum_TotalTokenCount : Z; gum_ThoughtsTokenCount : Z;
  gum_CandidatesTokensDetails : list GeminiTokenDetail; gum_PromptTokensDetails : list GeminiTokenDetail }.
Definition zero_GeminiUsageMetadata : GeminiUsageMetadata := mkGeminiUsageMetadata 0 0 0 0 0 [] [].
#[export] Instance eta_GeminiUsageMetadata : Settable GeminiUsageMetadata :=
  fun r => mkGeminiUsageMetadata (gum_PromptTokenCount r) (gum_CandidatesTokenCount r) (gum_CachedContentTokenCount r)
  (gum_TotalTokenCount r) (gum_ThoughtsTokenCount r) (gum_CandidatesTokensDetails r) (gum_PromptTokensDetails r).

Record GeminiGroundingWeb : Type := mkGeminiGroundingWeb { ggw_Title : string; ggw_URI : string }.
Definition zero_GeminiGroundingWeb : GeminiGroundingWeb := mkGeminiGroundingWeb "" "".
#[export] Instance eta_GeminiGroundingWeb : Settable GeminiGroundingWeb :=
  fun r => mkGeminiGroundingWeb (ggw_Title r) (ggw_URI r).

Record GeminiGroundingChunk : Type := mkGeminiGroundingChunk { ggch_Web : option GeminiGroundingWeb }.
Definition zero_GeminiGroundingChunk : GeminiGroundingChunk := mkGeminiGroundingChunk None.
#[export] Instance eta_GeminiGroundingChunk : Settable GeminiGroundingChunk :=
  fun r => mkGeminiGroundingChunk (ggch_Web r).

Record GeminiGroundingMetadata : Type := mkGeminiGroundingMetadata { ggm_WebSearchQueries : list string;
  ggm_GroundingChunks : list GeminiGroundingChunk }.
Definition zero_GeminiGroundingMetadata : GeminiGroundingMetadata := mkGeminiGroundingMetadata [] [].
#[export] Instance eta_GeminiGroundingMetadata : Settable GeminiGroundingMetadata :=
  fun r => mkGeminiGroundingMetadata (ggm_WebSearchQueries r) (ggm_GroundingChunks r).

Record GeminiCandidate : Type := mkGeminiCandidate { gca_Content : option GeminiContent; gca_FinishReason : string;
  gca_Index : Z; gca_GroundingMetadata : option GeminiGroundingMetadata }.
Definition zero_GeminiCandidate : GeminiCandidate := mkGeminiCandidate None "" 0 None.
#[export] Instance eta_GeminiCandidate : Settable GeminiCandidate :=
  fun r => mkGeminiCandidate (gca_Content r) (gca_FinishReason r) (gca_Index r) (gca_GroundingMetadata r).

Record GeminiResponse : Type := mkGeminiResponse { gres_Candidates : list GeminiCandidate;
  gres_UsageMetadata : option GeminiUsageMetadata; gres_ResponseID : string; gres_ModelVersion : string }.
Definition zero_GeminiResponse : GeminiResponse := mkGeminiResponse [] None "" "".
#[export] Instance eta_GeminiResponse : Settable GeminiResponse :=
  fun r => mkGeminiResponse (gres_Candidates r) (gres_UsageMetadata r) (gres_ResponseID r) (gres_ModelVersion r).

Record V1InternalResponse : Type := mkV1InternalResponse { vres_Response : GeminiResponse; vres_ResponseID : string;
  vres_ModelVersion : string }.
Definition zero_V1InternalResponse : V1InternalResponse := mkV1InternalResponse zero_GeminiResponse "" "".
#[export] Instance eta_V1InternalResponse : Settable V1InternalResponse :=
  fun r => mkV1InternalResponse (vres_Response r) (vres_ResponseID r) (vres_ModelVersion r).

Record ClaudeMessage : Type := mkClaudeMessage { cmsg_Role : string; cmsg_Content : RawMessage }.
Definition zero_ClaudeMessage : ClaudeMessage := mkClaudeMessage "" "".
#[export] Instance eta_ClaudeMessage : Settable ClaudeMessage :=
  fun r => mkClaudeMessage (cmsg_Role r) (cmsg_Content r).

Record ThinkingConfig : Type := mkThinkingConfig { thc_Type : string; thc_BudgetTokens : Z }.
Definition zero_ThinkingConfig : ThinkingConfig := mkThinkingConfig "" 0.
#[export] Instance eta_ThinkingConfig : Settable ThinkingConfig :=
  fun r => mkThinkingConfig (thc_Type r) (thc_BudgetTokens r).

Record ClaudeMetadata : Type := mkClaudeMetadata { cmet_UserID : string }.
Definition zero_ClaudeMetadata : ClaudeMetadata := mkClaudeMetadata "".
#[export] Instance eta_ClaudeMetadata : Settable ClaudeMetadata :=
  fun r => mkClaudeMetadata (cmet_UserID r).

Record CustomToolSpec : Type := mkCustomToolSpec { cts_Description : string; cts_InputSchema : option any_map }.
Definition zero_CustomToolSpec : CustomToolSpec := mkCustomToolSpec "" None.
#[export] Instance eta_CustomToolSpec : Settable CustomToolSpec :=
  fun r => mkCustomToolSpec (cts_Description r) (cts_InputSchema r).

Record ClaudeTool : Type := mkClaudeTool { ctool_Type : string; ctool_Name : string; ctool_Description : string;
  ctool_InputSchema : option any_map; ctool_Custom : option CustomToolSpec }.
Definition zero_ClaudeTool : ClaudeTool := mkClaudeTool "" "" "" None None.
#[export] Instance eta_ClaudeTool : Settable ClaudeTool :=
  fun r => mkClaudeTool (ctool_Type r) (ctool_Name r) (ctool_Description r) (ctool_InputSchema r) (ctool_Custom r).

Record ClaudeRequest : Type := mkClaudeRequest { crq_Model : string; crq_Messages : list ClaudeMessage; crq_MaxTokens : Z;
  crq_System : RawMessage; crq_Stream : bool; crq_Temperature : option float64; crq_TopP : option float64; crq_TopK : option Z;
  crq_Tools : list ClaudeTool; crq_Thinking : option ThinkingConfig; crq_Metadata : option ClaudeMetadata }.
Definition zero_ClaudeRequest : ClaudeRequest := mkClaudeRequest "" [] 0 "" false None None None [] None None.
#[export] Instance eta_ClaudeRequest : Settable ClaudeRequest :=
  fun r => mkClaudeRequest (crq_Model r) (crq_Messages r) (crq_MaxTokens r) (crq_System r) (crq_Stream r) (crq_Temperature r)
  (crq_TopP r) (crq_TopK r) (crq_Tools r) (crq_Thinking r) (crq_Metadata r).

Record SystemBlock : Type := mkSystemBlock { sysb_Type : string; sysb_Text : string }.
Definition zero_SystemBlock : SystemBlock := mkSystemBlock "" "".
#[export] Instance eta_SystemBlock : Settable SystemBlock :=
  fun r => mkSystemBlock (sysb_Type r) (sysb_Text r).

Record ImageSource : Type := mkImageSource { imgs_Type : string; imgs_MediaType : string; imgs_Data : string }.
Definition zero_ImageSource : ImageSource := mkImageSource "" "" "".
#[export] Instance eta_ImageSource : Settable ImageSource :=
  fun r => mkImageSource (imgs_Type r) (imgs_MediaType r) (imgs_Data r).

Record ContentBlock : Type := mkContentBlock { cbk_Type : string; cbk_Text : string; cbk_Thinking : string;
  cbk_Signature : string; cbk_ID : string; cbk_Name : string; cbk_Input : any; cbk_ToolUseID : string; cbk_Content : RawMessage;
  cbk_IsError : bool; cbk_Source : option ImageSource }.
Definition zero_ContentBlock : ContentBlock := mkContentBlock "" "" "" "" "" "" ANil "" "" false None.
#[export] Instance eta_ContentBlock : Settable ContentBlock :=
  fun r => mkContentBlock (cbk_Type r) (cbk_Text r) (cbk_Thinking r) (cbk_Signature r) (cbk_ID r) (cbk_Name r) (cbk_Input r)
  (cbk_ToolUseID r) (cbk_Content r) (cbk_IsError r) (cbk_Source r).

Record ClaudeContentItem : Type := mkClaudeContentItem { cci_Type : string; cci_Text : string; cci_Thinking : string;
  cci_Signature : string; cci_ID : string; cci_Name : string; cci_Input : any }.
Definition zero_ClaudeContentItem : ClaudeContentItem := mkClaudeContentItem "" "" "" "" "" "" ANil.
#[export] Instance eta_ClaudeContentItem : Settable ClaudeContentItem :=
  fun r => mkClaudeContentItem (cci_Type r) (cci_Text r) (cci_Thinking r) (cci_Signature r) (cci_ID r) (cci_Name r)
  (cci_Input r).

Record ClaudeUsage : Type := mkClaudeUsage { cus_InputTokens : Z; cus_OutputTokens : Z; cus_CacheCreationInputTokens : Z;
  cus_CacheReadInputTokens : Z; cus_ImageOutputTokens : Z }.
Definition zero_ClaudeUsage : ClaudeUsage := mkClaudeUsage 0 0 0 0 0.
#[export] Instance eta_ClaudeUsage : Settable ClaudeUsage :=
  fun r => mkClaudeUsage (cus_InputTokens r) (cus_OutputTokens r) (cus_CacheCreationInputTokens r) (cus_CacheReadInputTokens r)
  (cus_ImageOutputTokens r).

Record ClaudeResponse : Type := mkClaudeResponse { crs_ID : string; crs_Type : string; crs_Role : string; crs_Model : string;
  crs_Content : list ClaudeContentItem; crs_StopReason : string; crs_StopSequence : option string; crs_Usage : ClaudeUsage }.
Definition zero_ClaudeResponse : ClaudeResponse := mkClaudeResponse "" "" "" "" [] "" None zero_ClaudeUsage.
#[export] Instance eta_ClaudeResponse : Settable ClaudeResponse :=
  fun r => mkClaudeResponse (crs_ID r) (crs_Type r) (crs_Role r) (crs_Model r) (crs_Content r) (crs_StopReason r)
  (crs_StopSequence r) (crs_Usage r).

(** ** Encoders *)

Definition enc_GeminiInlineData (r : GeminiInlineData) : Enc :=
  enc_object [
    mem "mimeType" (enc_string (gid_MimeType r));
    mem "data" (enc_string (gid_Data r))].

Definition enc_GeminiFunctionCall (r : GeminiFunctionCall) : Enc :=
  enc_object [
    mem "name" (enc_string (gfc_Name r));
    mem_if (negb (is_nil (gfc_Args r))) "args" (enc_any (gfc_Args r));
    mem_if ((gfc_ID r) <>s? "") "id" (enc_string (gfc_ID r))].

Definition enc_GeminiFunctionResponse (r : GeminiFunctionResponse) : Enc :=
  enc_object [
    mem "name" (enc_string (gfr_Name r));
    mem "response" (enc_any_map (gfr_Response r));
    mem_if ((gfr_ID r) <>s? "") "id" (enc_string (gfr_ID r))].

Definition enc_GeminiPart (r : GeminiPart) : Enc :=
  enc_object [
    mem_if ((gp_Text r) <>s? "") "text" (enc_string (gp_Text r));
    mem_if (gp_Thought r) "thought" (enc_bool (gp_Thought r));
    mem_if ((gp_ThoughtSignature r) <>s? "") "thoughtSignature" (enc_string (gp_ThoughtSignature r));
    mem_if (is_some (gp_InlineData r)) "inlineData" (enc_ptr enc_GeminiInlineData (gp_InlineData r));
    mem_if (is_some (gp_FunctionCall r)) "functionCall" (enc_ptr enc_GeminiFunctionCall (gp_FunctionCall r));
    mem_if (is_some (gp_FunctionResponse r)) "functionResponse" (enc_ptr enc_GeminiFunctionResponse (gp_FunctionResponse r))].

Definition enc_GeminiContent (r : GeminiContent) : Enc :=
  enc_object [
    mem "role" (enc_string (gc_Role r));
    mem "parts" (enc_slice enc_GeminiPart (gc_Parts r))].

Definition enc_GeminiImageConfig (r : GeminiImageConfig) : Enc :=
  enc_object [
    mem_if ((gic_AspectRatio r) <>s? "") "aspectRatio" (enc_string (gic_AspectRatio r));
    mem_if ((gic_ImageSize r) <>s? "") "imageSize" (enc_string (gic_ImageSize r))].

Definition enc_GeminiThinkingConfig (r : GeminiThinkingConfig) : Enc :=
  enc_object [
    mem "includeThoughts" (enc_bool (gtc_IncludeThoughts r));
    mem_if (negb ((gtc_ThinkingBudget r) =? 0)) "thinkingBudget" (enc_int (gtc_ThinkingBudget r))].

Definition enc_GeminiGenerationConfig (r : GeminiGenerationConfig) : Enc :=
  enc_object [
    mem_if (negb ((ggc_MaxOutputTokens r) =? 0)) "maxOutputTokens" (enc_int (ggc_MaxOutputTokens r));
    mem_if (is_some (ggc_Temperature r)) "temperature" (enc_ptr enc_float (ggc_Temperature r));
    mem_if (is_some (ggc_TopP r)) "topP" (enc_ptr enc_float (ggc_TopP r));
    mem_if (is_some (ggc_TopK r)) "topK" (enc_ptr enc_int (ggc_TopK r));
    mem_if (is_some (ggc_ThinkingConfig r)) "thinkingConfig" (enc_ptr enc_GeminiThinkingConfig (ggc_ThinkingConfig r));
    mem_if (nonempty (ggc_StopSequences r)) "stopSequences" (enc_list (map enc_string (ggc_StopSequences r)));
    mem_if (is_some (ggc_ImageConfig r)) "imageConfig" (enc_ptr enc_GeminiImageConfig (ggc_ImageConfig r))].

Definition enc_GeminiFunctionDecl (r : GeminiFunctionDecl) : Enc :=
  enc_object [
    mem "name" (enc_string (gfd_Name r));
    mem_if ((gfd_Description r) <>s? "") "description" (enc_string (gfd_Description r));
    mem_if (has_members (gfd_Parameters r)) "parameters" (enc_any_map (gfd_Parameters r))].

Definition enc_GeminiImageSearch (r : GeminiImageSearch) : Enc :=
  enc_object [
    mem_if (negb ((gis_MaxResultCount r) =? 0)) "maxResultCount" (enc_int (gis_MaxResultCount r))].

Definition enc_GeminiEnhancedContent (r : GeminiEnhancedContent) : Enc :=
  enc_object [
    mem_if (is_some (gec_ImageSearch r)) "imageSearch" (enc_ptr enc_GeminiImageSearch (gec_ImageSearch r))].

Definition enc_GeminiGoogleSearch (r : GeminiGoogleSearch) : Enc :=
  enc_object [
    mem_if (is_some (ggs_EnhancedContent r)) "enhancedContent" (enc_ptr enc_GeminiEnhancedContent (ggs_EnhancedContent r))].

Definition enc_GeminiToolDeclaration (r : GeminiToolDeclaration) : Enc :=
  enc_object [
    mem_if (nonempty (gtd_FunctionDeclarations r)) "functionDeclarations" (enc_list (map enc_GeminiFunctionDecl (gtd_FunctionDeclarations r)));
    mem_if (is_some (gtd_GoogleSearch r)) "googleSearch" (enc_ptr enc_GeminiGoogleSearch (gtd_GoogleSearch r))].

Definition enc_GeminiFunctionCallingConfig (r : GeminiFunctionCallingConfig) : Enc :=
  enc_object [
    mem_if ((gfcc_Mode r) <>s? "") "mode" (enc_string (gfcc_Mode r))].

Definition enc_GeminiToolConfig (r : GeminiToolConfig) : Enc :=
  enc_object [
    mem_if (is_some (gtco_FunctionCallingConfig r)) "functionCallingConfig" (enc_ptr enc_GeminiFunctionCallingConfig (gtco_FunctionCallingConfig r))].

Definition enc_GeminiSafetySetting (r : GeminiSafetySetting) : Enc :=
  enc_object [
    mem "category" (enc_string (gss_Category r));
    mem "threshold" (enc_string (gss_Threshold r))].

Definition enc_GeminiRequest (r : GeminiRequest) : Enc :=
  enc_object [
    mem "contents" (enc_slice enc_GeminiContent (greq_Contents r));
    mem_if (is_some (greq_SystemInstruction r)) "systemInstruction" (enc_ptr enc_GeminiContent (greq_SystemInstruction r));
    mem_if (is_some (greq_GenerationConfig r)) "generationConfig" (enc_ptr enc_GeminiGenerationConfig (greq_GenerationConfig r));
    mem_if (nonempty (greq_Tools r)) "tools" (enc_list (map enc_GeminiToolDeclaration (greq_Tools r)));
    mem_if (is_some (greq_ToolConfig r)) "toolConfig" (enc_ptr enc_GeminiToolConfig (greq_ToolConfig r));
    mem_if (nonempty (greq_SafetySettings r)) "safetySettings" (enc_list (map enc_GeminiSafetySetting (greq_SafetySettings r)));
    mem_if ((greq_SessionID r) <>s? "") "sessionId" (enc_string (greq_SessionID r))].

Definition enc_V1InternalRequest (r : V1InternalRequest) : Enc :=
  enc_object [
    mem "project" (enc_string (vreq_Project r));
    mem "requestId" (enc_string (vreq_RequestID r));
    mem "userAgent" (enc_string (vreq_UserAgent r));
    mem_if ((vreq_RequestType r) <>s? "") "requestType" (enc_string (vreq_RequestType r));
    mem "model" (enc_string (vreq_Model r));
    mem "request" (enc_GeminiRequest (vreq_Request r))].

Definition enc_ClaudeContentItem (r : ClaudeContentItem) : Enc :=
  enc_object [
    mem "type" (enc_string (cci_Type r));
    mem_if ((cci_Text r) <>s? "") "text" (enc_string (cci_Text r));
    mem_if ((cci_Thinking r) <>s? "") "thinking" (enc_string (cci_Thinking r));
    mem_if ((cci_Signature r) <>s? "") "signature" (enc_string (cci_Signature r));
    mem_if ((cci_ID r) <>s? "") "id" (enc_string (cci_ID r));
    mem_if ((cci_Name r) <>s? "") "name" (enc_string (cci_Name r));
    mem_if (negb (is_nil (cci_Input r))) "input" (enc_any (cci_Input r))].

Definition enc_ClaudeUsage (r : ClaudeUsage) : Enc :=
  enc_object [
    mem "input_tokens" (enc_int (cus_InputTokens r));
    mem "output_tokens" (enc_int (cus_OutputTokens r));
    mem_if (negb ((cus_CacheCreationInputTokens r) =? 0)) "cache_creation_input_tokens" (enc_int (cus_CacheCreationInputTokens r));
    mem_if (negb ((cus_CacheReadInputTokens r) =? 0)) "cache_read_input_tokens" (enc_int (cus_CacheReadInputTokens r));
    mem_if (negb ((cus_ImageOutputTokens r) =? 0)) "image_output_tokens" (enc_int (cus_ImageOutputTokens r))].

(** The content of a response is never nil. *)
Definition enc_ClaudeResponse (r : ClaudeResponse) : Enc :=
  enc_object [
    mem "id" (enc_string (crs_ID r));
    mem "type" (enc_string (crs_Type r));
    mem "role" (enc_string (crs_Role r));
    mem "model" (enc_string (crs_Model r));
    mem "content" (enc_list (map enc_ClaudeContentItem (crs_Content r)));
    mem_if ((crs_StopReason r) <>s? "") "stop_reason" (enc_string (crs_StopReason r));
    mem_if (is_some (crs_StopSequence r)) "stop_sequence" (enc_ptr enc_string (crs_StopSequence r));
    mem "usage" (enc_ClaudeUsage (crs_Usage r))].

(** ** Decoders *)

Definition dec_GeminiInlineData : Dec GeminiInlineData :=
  dec_struct [
    field "mimeType" gid_MimeType (fun v r => r <| gid_MimeType := v |>) dec_string;
    field "data" gid_Data (fun v r => r <| gid_Data := v |>) dec_string].

Definition dec_GeminiFunctionCall : Dec GeminiFunctionCall :=
  dec_struct [
    field "name" gfc_Name (fun v r => r <| gfc_Name := v |>) dec_string;
    field "args" gfc_Args (fun v r => r <| gfc_Args := v |>) dec_any;
    field "id" gfc_ID (fun v r => r <| gfc_ID := v |>) dec_string].

Definition dec_GeminiFunctionResponse : Dec GeminiFunctionResponse :=
  dec_struct [
    field "name" gfr_Name (fun v r => r <| gfr_Name := v |>) dec_string;
    field "response" gfr_Response (fun v r => r <| gfr_Response := v |>) dec_any_map;
    field "id" gfr_ID (fun v r => r <| gfr_ID := v |>) dec_string].

Definition dec_GeminiPart : Dec GeminiPart :=
  dec_struct [
    field "text" gp_Text (fun v r => r <| gp_Text := v |>) dec_string;
    field "thought" gp_Thought (fun v r => r <| gp_Thought := v |>) dec_bool;
    field "thoughtSignature" gp_ThoughtSignature (fun v r => r <| gp_ThoughtSignature := v |>) dec_string;
    field "inlineData" gp_InlineData (fun v r => r <| gp_InlineData := v |>) (dec_ptr dec_GeminiInlineData zero_GeminiInlineData);
    field "functionCall" gp_FunctionCall (fun v r => r <| gp_FunctionCall := v |>) (dec_ptr dec_GeminiFunctionCall zero_GeminiFunctionCall);
    field "functionResponse" gp_FunctionResponse (fun v r => r <| gp_FunctionResponse := v |>) (dec_ptr dec_GeminiFunctionResponse zero_GeminiFunctionResponse)].

Definition dec_GeminiContent : Dec GeminiContent :=
  dec_struct [
    field "role" gc_Role (fun v r => r <| gc_Role := v |>) dec_string;
    field "parts" gc_Parts (fun v r => r <| gc_Parts := v |>) (dec_slice dec_GeminiPart zero_GeminiPart)].

Definition dec_GeminiTokenDetail : Dec GeminiTokenDetail :=
  dec_struct [
    field "modality" gtok_Modality (fun v r => r <| gtok_Modality := v |>) dec_string;
    field "tokenCount" gtok_TokenCount (fun v r => r <| gtok_TokenCount := v |>) dec_int].

Definition dec_GeminiUsageMetadata : Dec GeminiUsageMetadata :=
  dec_struct [
    field "promptTokenCount" gum_PromptTokenCount (fun v r => r <| gum_PromptTokenCount := v |>) dec_int;
    field "candidatesTokenCount" gum_CandidatesTokenCount (fun v r => r <| gum_CandidatesTokenCount := v |>) dec_int;
    field "cachedContentTokenCount" gum_CachedContentTokenCount (fun v r => r <| gum_CachedContentTokenCount := v |>) dec_int;
    field "totalTokenCount" gum_TotalTokenCount (fun v r => r <| gum_TotalTokenCount := v |>) dec_int;
    field "thoughtsTokenCount" gum_ThoughtsTokenCount (fun v r => r <| gum_ThoughtsTokenCount := v |>) dec_int;
    field "candidatesTokensDetails" gum_CandidatesTokensDetails (fun v r => r <| gum_CandidatesTokensDetails := v |>) (dec_slice dec_GeminiTokenDetail zero_GeminiTokenDetail);
    field "promptTokensDetails" gum_PromptTokensDetails (fun v r => r <| gum_PromptTokensDetails := v |>) (dec_slice dec_GeminiTokenDetail zero_GeminiTokenDetail)].

Definition dec_GeminiGroundingWeb : Dec GeminiGroundingWeb :=
  dec_struct [
    field "title" ggw_Title (fun v r => r <| ggw_Title := v |>) dec_string;
    field "uri" ggw_URI (fun v r => r <| ggw_URI := v |>) dec_string].

Definition dec_GeminiGroundingChunk : Dec GeminiGroundingChunk :=
  dec_struct [
    field "web" ggch_Web (fun v r => r <| ggch_Web := v |>) (dec_ptr dec_GeminiGroundingWeb zero_GeminiGroundingWeb)].

Definition dec_GeminiGroundingMetadata : Dec GeminiGroundingMetadata :=
  dec_struct [
    field "webSearchQueries" ggm_WebSearchQueries (fun v r => r <| ggm_WebSearchQueries := v |>) (dec_slice dec_string "");
    field "groundingChunks" ggm_GroundingChunks (fun v r => r <| ggm_GroundingChunks := v |>) (dec_slice dec_GeminiGroundingChunk zero_GeminiGroundingChunk)].

Definition dec_GeminiCandidate : Dec GeminiCandidate :=
  dec_struct [
    field "content" gca_Content (fun v r => r <| gca_Content := v |>) (dec_ptr dec_GeminiContent zero_GeminiContent);
    field "finishReason" gca_FinishReason (fun v r => r <| gca_FinishReason := v |>) dec_string;
    field "index" gca_Index (fun v r => r <| gca_Index := v |>) dec_int;
    field "groundingMetadata" gca_GroundingMetadata (fun v r => r <| gca_GroundingMetadata := v |>) (dec_ptr dec_GeminiGroundingMetadata zero_GeminiGroundingMetadata)].

Definition dec_GeminiResponse : Dec GeminiResponse :=
  dec_struct [
    field "candidates" gres_Candidates (fun v r => r <| gres_Candidates := v |>) (dec_slice dec_GeminiCandidate zero_GeminiCandidate);
    field "usageMetadata" gres_UsageMetadata (fun v r => r <| gres_UsageMetadata := v |>) (dec_ptr dec_GeminiUsageMetadata zero_GeminiUsageMetadata);
    field "responseId" gres_ResponseID (fun v r => r <| gres_ResponseID := v |>) dec_string;
    field "modelVersion" gres_ModelVersion (fun v r => r <| gres_ModelVersion := v |>) dec_string].

Definition dec_V1InternalResponse : Dec V1InternalResponse :=
  dec_struct [
    field "response" vres_Response (fun v r => r <| vres_Response := v |>) dec_GeminiResponse;
    field "responseId" vres_ResponseID (fun v r => r <| vres_ResponseID := v |>) dec_string;
    field "modelVersion" vres_ModelVersion (fun v r => r <| vres_ModelVersion := v |>) dec_string].

Definition dec_SystemBlock : Dec SystemBlock :=
  dec_struct [
    field "type" sysb_Type (fun v r => r <| sysb_Type := v |>) dec_string;
    field "text" sysb_Text (fun v r => r <| sysb_Text := v |>) dec_string].

Definition dec_ImageSource : Dec ImageSource :=
  dec_struct [
    field "type" imgs_Type (fun v r => r <| imgs_Type := v |>) dec_string;
    field "media_type" imgs_MediaType (fun v r => r <| imgs_MediaType := v |>) dec_string;
    field "data" imgs_Data (fun v r => r <| imgs_Data := v |>) dec_string].

Definition dec_ContentBlock : Dec ContentBlock :=
  dec_struct [
    field "type" cbk_Type (fun v r => r <| cbk_Type := v |>) dec_string;
    field "text" cbk_Text (fun v r => r <| cbk_Text := v |>) dec_string;
    field "thinking" cbk_Thinking (fun v r => r <| cbk_Thinking := v |>) dec_string;
    field "signature" cbk_Signature (fun v r => r <| cbk_Signature := v |>) dec_string;
    field "id" cbk_ID (fun v r => r <| cbk_ID := v |>) dec_string;
    field "name" cbk_Name (fun v r => r <| cbk_Name := v |>) dec_string;
    field "input" cbk_Input (fun v r => r <| cbk_Input := v |>) dec_any;
    field "tool_use_id" cbk_ToolUseID (fun v r => r <| cbk_ToolUseID := v |>) dec_string;
    field "content" cbk_Content (fun v r => r <| cbk_Content := v |>) dec_raw;
    field "is_error" cbk_IsError (fun v r => r <| cbk_IsError := v |>) dec_bool;
    field "source" cbk_Source (fun v r => r <| cbk_Source := v |>) (dec_ptr dec_ImageSource zero_ImageSource)].

Definition dec_ClaudeMessage : Dec ClaudeMessage :=
  dec_struct [
    field "role" cmsg_Role (fun v r => r <| cmsg_Role := v |>) dec_string;
    field "content" cmsg_Content (fun v r => r <| cmsg_Content := v |>) dec_raw].

Definition dec_ThinkingConfig : Dec ThinkingConfig :=
  dec_struct [
    field "type" thc_Type (fun v r => r <| thc_Type := v |>) dec_string;
    field "budget_tokens" thc_BudgetTokens (fun v r => r <| thc_BudgetTokens := v |>) dec_int].

Definition dec_ClaudeMetadata : Dec ClaudeMetadata :=
  dec_struct [
    field "user_id" cmet_UserID (fun v r => r <| cmet_UserID := v |>) dec_string].

Definition dec_CustomToolSpec : Dec CustomToolSpec :=
  dec_struct [
    field "description" cts_Description (fun v r => r <| cts_Description := v |>) dec_string;
    field "input_schema" cts_InputSchema (fun v r => r <| cts_InputSchema := v |>) dec_any_map].

Definition dec_ClaudeTool : Dec ClaudeTool :=
  dec_struct [
    field "type" ctool_Type (fun v r => r <| ctool_Type := v |>) dec_string;
    field "name" ctool_Name (fun v r => r <| ctool_Name := v |>) dec_string;
    field "description" ctool_Description (fun v r => r <| ctool_Description := v |>) dec_string;
    field "input_schema" ctool_InputSchema (fun v r => r <| ctool_InputSchema := v |>) dec_any_map;
    field "custom" ctool_Custom (fun v r => r <| ctool_Custom := v |>) (dec_ptr dec_CustomToolSpec zero_CustomToolSpec)].

Definition dec_ClaudeRequest : Dec ClaudeRequest :=
  dec_struct [
    field "model" crq_Model (fun v r => r <| crq_Model := v |>) dec_string;
    field "messages" crq_Messages (fun v r => r <| crq_Messages := v |>) (dec_slice dec_ClaudeMessage zero_ClaudeMessage);
    field "max_tokens" crq_MaxTokens (fun v r => r <| crq_MaxTokens := v |>) dec_int;
    field "system" crq_System (fun v r => r <| crq_System := v |>) dec_raw;
    field "stream" crq_Stream (fun v r => r <| crq_Stream := v |>) dec_bool;
    field "temperature" crq_Temperature (fun v r => r <| crq_Temperature := v |>) (dec_ptr dec_float (S754_zero false));
    field "top_p" crq_TopP (fun v r => r <| crq_TopP := v |>) (dec_ptr dec_float (S754_zero false));
    field "top_k" crq_TopK (fun v r => r <| crq_TopK := v |>) (dec_ptr dec_int 0);
    field "tools" crq_Tools (fun v r => r <| crq_Tools := v |>) (dec_slice dec_ClaudeTool zero_ClaudeTool);
    field "thinking" crq_Thinking (fun v r => r <| crq_Thinking := v |>) (dec_ptr dec_ThinkingConfig zero_ThinkingConfig);
    field "metadata" crq_Metadata (fun v r => r <| crq_Metadata := v |>) (dec_ptr dec_ClaudeMetadata zero_ClaudeMetadata)].

(** ** ImageOutputTokens *)

Definition ImageOutputTokens (m : GeminiUsageMetadata) : Z :=
  match List.find (fun d => gtok_Modality d =s? "IMAGE") (gum_CandidatesTokensDetails m) with
  | Some d => gtok_TokenCount d
  | None => 0
  end.

Example decodes_chunk :
  (r ← unmarshal dec_V1InternalResponse zero_V1InternalResponse
     (dq "{'response':{'candidates':[{'content':{'role':'model','parts':[{'text':'hi'},{'functionCall':{'name':'f','args':{'b':1,'a':[]}}}]},'finishReason':'STOP'}]},'responseId':'r1'}");
   Ok (vres_ResponseID r, gres_Candidates (vres_Response r))) =
  Ok ("r1", [zero_GeminiCandidate <| gca_Content := Some (mkGeminiContent "model"
       [zero_GeminiPart <| gp_Text := "hi" |>;
        zero_GeminiPart <| gp_FunctionCall := Some (mkGeminiFunctionCall "f" (AMap [("a", AArr []); ("b", ANum "1")]) "") |>]) |>
     <| gca_FinishReason := "STOP" |>]).
Proof. vm_compute. reflexivity. Qed.
