(* ===== verification/AntigravityResponse.v ===== *)
(** * Gemini responses to Claude responses, buffered (internal/pkg/antigravity/response_transformer.go)

    The parts of the first candidate become content blocks; texts and thoughts
    are collected until something else comes.  Logging is left out. *)

From S2P Require Import Prelude GoStrings Json Crypto AnyJson Types GeminiTypes.

(** ** Random identifiers

    [crypto/rand.Read] does not fail in the Go version of the module, so the
    branch that makes pseudo-random bytes is not reached. *)

Definition id_chars : string := "abcdefghijklmnopqrstuvwxyzABCDEFGHIJKLMNOPQRSTUVWXYZ0123456789".

Definition byte_at (s : string) (n : Z) : ascii := default "000"%char (String.get (Z.to_nat n) s).

Fixpoint id_of_bytes (s : string) : string :=
  match s with
  | EmptyString => EmptyString
  | String b s => String (byte_at id_chars (byte_val b `mod` 62)) (id_of_bytes s)
  end.

Definition generateRandomID : ST Rand string := b ← rand_read; mret (id_of_bytes b).

(** ** Grounding *)

Definition grounding_link (n : Z) (web : GeminiGroundingWeb) : string :=
  let title := trim_space (ggw_Title web) in
  let title := if title =s? "" then "Source" else title in
  let uri := trim_space (ggw_URI web) in
  let uri := if uri =s? "" then "#" else uri in
  "[" +:+ pretty n +:+ "] [" +:+ title +:+ "](" +:+ uri +:+ ")".

(** Chunks count whether or not they are links. *)
Fixpoint grounding_links (n : Z) (chunks : list GeminiGroundingChunk) : list string :=
  match chunks with
  | [] => []
  | c :: chunks =>
      match ggch_Web c with
      | Some web => grounding_link n web :: grounding_links (n + 1) chunks
      | None => grounding_links (n + 1) chunks
      end
  end.

Definition lf : string := String newline "".

Definition buildGroundingText (grounding : GeminiGroundingMetadata) : string :=
  let queries := if nonempty (ggm_WebSearchQueries grounding)
                 then lf +:+ lf +:+ "---" +:+ lf +:+ "Web search queries: " +:+ join (ggm_WebSearchQueries grounding) ", " else "" in
  let links := grounding_links 1 (ggm_GroundingChunks grounding) in
  queries +:+ (if nonempty links then lf +:+ lf +:+ "Sources:" +:+ lf +:+ join links lf else "").

(** ** The processor *)

Record NonStreamingProcessor : Type := mkNonStreamingProcessor {
  contentBlocks : list ClaudeContentItem;
  textBuilder : string;
  thinkingBuilder : string;
  thinkingSignature : string;
  nsp_trailingSignature : string;
  hasToolCall : bool;
}.
#[export] Instance eta_NonStreamingProcessor : Settable NonStreamingProcessor := fun p =>
  mkNonStreamingProcessor (contentBlocks p) (textBuilder p) (thinkingBuilder p) (thinkingSignature p)
    (nsp_trailingSignature p) (hasToolCall p).

Definition NewNonStreamingProcessor : NonStreamingProcessor := mkNonStreamingProcessor [] "" "" "" "" false.

Definition text_item (text : string) : ClaudeContentItem :=
  zero_ClaudeContentItem <| cci_Type := "text" |> <| cci_Text := text |>.
Definition thinking_item (thinking signature : string) : ClaudeContentItem :=
  zero_ClaudeContentItem <| cci_Type := "thinking" |> <| cci_Thinking := thinking |> <| cci_Signature := signature |>.

Definition append_block (item : ClaudeContentItem) (p : NonStreamingProcessor) : NonStreamingProcessor :=
  p <| contentBlocks := (contentBlocks p ++ [item])%list |>.

Definition flushText (p : NonStreamingProcessor) : NonStreamingProcessor :=
  if textBuilder p =s? "" then p else append_block (text_item (textBuilder p)) p <| textBuilder := "" |>.

Definition flushThinking (p : NonStreamingProcessor) : NonStreamingProcessor :=
  if (thinkingBuilder p =s? "") && (thinkingSignature p =s? "") then p else
  append_block (thinking_item (thinkingBuilder p) (thinkingSignature p)) p
    <| thinkingBuilder := "" |> <| thinkingSignature := "" |>.

(** [before] is what is flushed ahead of the pending signature. *)
Definition put_trailing (before : NonStreamingProcessor -> NonStreamingProcessor) (p : NonStreamingProcessor)
    : NonStreamingProcessor :=
  if nsp_trailingSignature p =s? "" then p else
  append_block (thinking_item "" (nsp_trailingSignature p)) (before p) <| nsp_trailingSignature := "" |>.

Definition image_markdown (data : GeminiInlineData) : string :=
  "![image](data:" +:+ gid_MimeType data +:+ ";base64," +:+ gid_Data data +:+ ")".

Definition tool_id (fc : GeminiFunctionCall) : ST Rand string :=
  if gfc_ID fc =s? "" then id ← generateRandomID; mret (gfc_Name fc +:+ "-" +:+ id) else mret (gfc_ID fc).

Definition process_call (fc : GeminiFunctionCall) (signature : string) (p : NonStreamingProcessor)
    : ST Rand NonStreamingProcessor :=
  let p := put_trailing id (flushText (flushThinking p)) <| hasToolCall := true |> in
  toolID ← tool_id fc;
  mret (append_block (zero_ClaudeContentItem <| cci_Type := "tool_use" |> <| cci_ID := toolID |> <| cci_Name := gfc_Name fc |>
                        <| cci_Input := gfc_Args fc |> <| cci_Signature := signature |>) p).

Definition process_thought (text signature : string) (p : NonStreamingProcessor) : NonStreamingProcessor :=
  let p := put_trailing flushThinking (flushText p) in
  let p := p <| thinkingBuilder := thinkingBuilder p +:+ text |> in
  if signature =s? "" then p else p <| thinkingSignature := signature |>.

(** A text that is not empty. *)
Definition process_text (text signature : string) (p : NonStreamingProcessor) : NonStreamingProcessor :=
  let p := put_trailing flushText (flushThinking p) in
  if signature =s? "" then p <| textBuilder := textBuilder p +:+ text |>
  else append_block (thinking_item "" signature) (append_block (text_item text) p).

Definition process_image (data : option GeminiInlineData) (p : NonStreamingProcessor) : NonStreamingProcessor :=
  match data with
  | Some d =>
      if gid_Data d =s? "" then p else
      let p := flushThinking p in
      flushText (p <| textBuilder := textBuilder p +:+ image_markdown d |>)
  | None => p
  end.

Definition NonStreaming_processPart (part : GeminiPart) (p : NonStreamingProcessor) : ST Rand NonStreamingProcessor :=
  let signature := gp_ThoughtSignature part in
  match gp_FunctionCall part with
  | Some fc => process_call fc signature p
  | None =>
      mret (if (gp_Text part <>s? "") || gp_Thought part then
              if gp_Thought part then process_image (gp_InlineData part) (process_thought (gp_Text part) signature p)
              else if gp_Text part =s? "" then
                if signature <>s? "" then p <| nsp_trailingSignature := signature |> else p
              else process_image (gp_InlineData part) (process_text (gp_Text part) signature p)
            else process_image (gp_InlineData part) p)
  end.

Fixpoint process_parts (parts : list GeminiPart) (p : NonStreamingProcessor) : ST Rand NonStreamingProcessor :=
  match parts with
  | [] => mret p
  | part :: parts => p ← NonStreaming_processPart part p; process_parts parts p
  end.

Definition processGrounding (grounding : GeminiGroundingMetadata) (p : NonStreamingProcessor) : NonStreamingProcessor :=
  let groundingText := buildGroundingText grounding in
  if groundingText =s? "" then p else
  let p := flushText (flushThinking p) in
  flushText (p <| textBuilder := textBuilder p +:+ groundingText |>).

(** ** The response *)

Definition candidate_parts (resp : GeminiResponse) : list GeminiPart :=
  match gres_Candidates resp with
  | c :: _ => match gca_Content c with Some content => gc_Parts content | None => [] end
  | [] => []
  end.

Definition candidate_finish (resp : GeminiResponse) : string :=
  match gres_Candidates resp with c :: _ => gca_FinishReason c | [] => "" end.

Definition candidate_grounding (resp : GeminiResponse) : option GeminiGroundingMetadata :=
  match gres_Candidates resp with c :: _ => gca_GroundingMetadata c | [] => None end.

Definition claude_stop_reason (usedTool : bool) (finishReason : string) : string :=
  if usedTool then "tool_use" else if finishReason =s? "MAX_TOKENS" then "max_tokens" else "end_turn".

(** The prompt count of Gemini includes the cached tokens, that of Claude does not. *)
Definition usage_of (meta : option GeminiUsageMetadata) : ClaudeUsage :=
  match meta with
  | None => zero_ClaudeUsage
  | Some m =>
      let cached := gum_CachedContentTokenCount m in
      zero_ClaudeUsage <| cus_InputTokens := sub64 (gum_PromptTokenCount m) cached |>
        <| cus_OutputTokens := add64 (gum_CandidatesTokenCount m) (gum_ThoughtsTokenCount m) |>
        <| cus_CacheReadInputTokens := cached |> <| cus_ImageOutputTokens := ImageOutputTokens m |>
  end.

Definition response_id (responseID : string) (resp : GeminiResponse) : ST Rand string :=
  if responseID <>s? "" then mret responseID
  else if gres_ResponseID resp <>s? "" then mret (gres_ResponseID resp)
  else id ← generateRandomID; mret ("msg_" +:+ id).

Definition buildResponse (resp : GeminiResponse) (responseID originalModel : string) (p : NonStreamingProcessor)
    : ST Rand ClaudeResponse :=
  respID ← response_id responseID resp;
  mret (zero_ClaudeResponse <| crs_ID := respID |> <| crs_Type := "message" |> <| crs_Role := "assistant" |>
          <| crs_Model := originalModel |> <| crs_Content := contentBlocks p |>
          <| crs_StopReason := claude_stop_reason (hasToolCall p) (candidate_finish resp) |>
          <| crs_Usage := usage_of (gres_UsageMetadata resp) |>).

Definition Process (resp : GeminiResponse) (responseID originalModel : string) : ST Rand ClaudeResponse :=
  p ← process_parts (candidate_parts resp) NewNonStreamingProcessor;
  let p := match candidate_grounding resp with Some g => processGrounding g p | None => p end in
  let p := flushText (flushThinking p) in
  let p := if nsp_trailingSignature p =s? "" then p else append_block (thinking_item "" (nsp_trailingSignature p)) p in
  buildResponse resp responseID originalModel p.

(** ** Reading *)

Definition unwrap (direct : GeminiResponse) : V1InternalResponse :=
  mkV1InternalResponse direct (gres_ResponseID direct) (gres_ModelVersion direct).

(** A document without candidates is read again as a response of its own. *)
Definition parse_buffered (geminiResp : string) : result V1InternalResponse :=
  match unmarshal dec_V1InternalResponse zero_V1InternalResponse geminiResp with
  | Err e =>
      match unmarshal dec_GeminiResponse zero_GeminiResponse geminiResp with
      | Err _ => wrap_err "parse gemini response" (Err e)
      | Ok directResp => Ok (unwrap directResp)
      end
  | Ok v1Resp =>
      if nonempty (gres_Candidates (vres_Response v1Resp)) then Ok v1Resp
      else unwrap <$> wrap_err "parse gemini response as direct" (unmarshal dec_GeminiResponse zero_GeminiResponse geminiResp)
  end.

Definition TransformGeminiToClaude (geminiResp originalModel : string) : ST Rand (result (string * ClaudeUsage)) :=
  match parse_buffered geminiResp with
  | Err e => mret (Err e)
  | Ok v1Resp =>
      claudeResp ← Process (vres_Response v1Resp) (vres_ResponseID v1Resp) originalModel;
      mret (respBytes ← wrap_err "marshal claude response" (marshal (enc_ClaudeResponse claudeResp));
            Ok (respBytes, crs_Usage claudeResp))
  end.
