(* ===== verification/AntigravityStream.v ===== *)
(** * Gemini streams to Claude event streams (internal/pkg/antigravity/stream_transformer.go)

    The processor reads one SSE line of the upstream at a time and writes the
    Claude events it gives.  An event is its name and its data, a
    [map[string]any]; the usage of an event is a struct or, when a hook may
    change it, a map.  Logging is left out. *)

From S2P Require Import Prelude GoStrings Json Crypto AnyJson Types GeminiTypes AntigravityResponse.

(** ** State *)

Inductive BlockType : Type := BlockTypeNone | BlockTypeText | BlockTypeThinking | BlockTypeFunction.

#[export] Instance BlockType_eq_dec : EqDecision BlockType.
Proof. solve_decision. Defined.

Definition UsageMapHook : Type := any_map -> any_map.

Record StreamingProcessor : Type := mkStreamingProcessor {
  blockType : BlockType;
  blockIndex : Z;
  messageStartSent : bool;
  messageStopSent : bool;
  usedTool : bool;
  pendingSignature : string;
  trailingSignature : string;
  originalModel : string;
  webSearchQueries : list string;
  groundingChunks : list GeminiGroundingChunk;
  usageMapHook : option UsageMapHook;
  inputTokens : Z;
  outputTokens : Z;
  cacheReadTokens : Z;
  imageOutputTokens : Z;
}.
#[export] Instance eta_StreamingProcessor : Settable StreamingProcessor := fun p =>
  mkStreamingProcessor (blockType p) (blockIndex p) (messageStartSent p) (messageStopSent p) (usedTool p) (pendingSignature p)
    (trailingSignature p) (originalModel p) (webSearchQueries p) (groundingChunks p) (usageMapHook p) (inputTokens p)
    (outputTokens p) (cacheReadTokens p) (imageOutputTokens p).

Definition NewStreamingProcessor (model : string) : StreamingProcessor :=
  mkStreamingProcessor BlockTypeNone 0 false false false "" "" model [] [] None 0 0 0 0.

Definition SetUsageMapHook (fn : option UsageMapHook) (p : StreamingProcessor) : StreamingProcessor := p <| usageMapHook := fn |>.

(** The processor and the source of random bytes. *)
Record World : Type := mkWorld { proc : StreamingProcessor; rand : Rand }.
#[export] Instance eta_World : Settable World := fun w => mkWorld (proc w) (rand w).

Abbreviation M := (ST World).

Definition get_proc : M StreamingProcessor := st_gets proc.
Definition update (f : StreamingProcessor -> StreamingProcessor) : M unit := st_modify (fun w => w <| proc := f (proc w) |>).
Definition with_rand {A} (m : ST Rand A) : M A := fun w => let '(a, r) := m (rand w) in (a, w <| rand := r |>).

(** ** Events *)

Record sse_event : Type := mkSse { sse_name : string; sse_data : any }.

Definition formatSSE (e : sse_event) : string :=
  "event: " +:+ sse_name e +:+ lf +:+ "data: " +:+ marshal_any (sse_data e) +:+ lf +:+ lf.

(** What the results are written to. *)
Abbreviation events := (list sse_event).

Definition emit (name : string) (data : list (string * any)) : events := [mkSse name (any_of data)].

Definition some_int (name : string) (n : Z) : list (string * any) := if 0 <? n then [(name, AInt n)] else [].

Definition usageToMap (u : ClaudeUsage) : any_map :=
  foldl (fun m '(k, v) => set_member k v m) []
    ([("input_tokens", AInt (cus_InputTokens u)); ("output_tokens", AInt (cus_OutputTokens u))] ++
     some_int "cache_creation_input_tokens" (cus_CacheCreationInputTokens u) ++
     some_int "cache_read_input_tokens" (cus_CacheReadInputTokens u) ++
     some_int "image_output_tokens" (cus_ImageOutputTokens u)).

Definition nonzero_int (name : string) (n : Z) : list (string * any) := if n =? 0 then [] else [(name, AInt n)].

(** The struct, with its members in the order in which they are written. *)
Definition usage_struct (u : ClaudeUsage) : any :=
  AMap ([("input_tokens", AInt (cus_InputTokens u)); ("output_tokens", AInt (cus_OutputTokens u))] ++
        nonzero_int "cache_creation_input_tokens" (cus_CacheCreationInputTokens u) ++
        nonzero_int "cache_read_input_tokens" (cus_CacheReadInputTokens u) ++
        nonzero_int "image_output_tokens" (cus_ImageOutputTokens u)).

Definition usage_value (hook : option UsageMapHook) (u : ClaudeUsage) : any :=
  match hook with
  | None => usage_struct u
  | Some fn => AMap (fn (usageToMap u))
  end.

(** ** Blocks *)

Definition emitDelta (deltaType : string) (deltaContent : list (string * any)) : M events :=
  p ← get_proc;
  mret (emit "content_block_delta"
          [("type", AStr "content_block_delta"); ("index", AInt (blockIndex p)); ("delta", any_of (("type", AStr deltaType) :: deltaContent))]).

Definition endBlock : M events :=
  p ← get_proc;
  if decide (blockType p = BlockTypeNone) then mret [] else
  e1 ← (if bool_decide (blockType p = BlockTypeThinking) && (pendingSignature p <>s? "") then
          e ← emitDelta "signature_delta" [("signature", AStr (pendingSignature p))];
          _ ← update (fun p => p <| pendingSignature := "" |>);
          mret e
        else mret []);
  _ ← update (fun p => p <| blockIndex := add64 (blockIndex p) 1 |> <| blockType := BlockTypeNone |>);
  mret (e1 ++ emit "content_block_stop" [("type", AStr "content_block_stop"); ("index", AInt (blockIndex p))])%list.

Definition startBlock (typ : BlockType) (contentBlock : list (string * any)) : M events :=
  p ← get_proc;
  e1 ← (if decide (blockType p = BlockTypeNone) then mret [] else endBlock);
  p ← get_proc;
  _ ← update (fun p => p <| blockType := typ |>);
  mret (e1 ++ emit "content_block_start"
          [("type", AStr "content_block_start"); ("index", AInt (blockIndex p)); ("content_block", any_of contentBlock)])%list.

Definition text_block : list (string * any) := [("type", AStr "text"); ("text", AStr "")].
Definition thinking_block : list (string * any) := [("type", AStr "thinking"); ("thinking", AStr "")].

Definition emitEmptyThinkingWithSignature (signature : string) : M events :=
  e1 ← startBlock BlockTypeThinking thinking_block;
  e2 ← emitDelta "thinking_delta" [("thinking", AStr "")];
  e3 ← emitDelta "signature_delta" [("signature", AStr signature)];
  e4 ← endBlock;
  mret (e1 ++ e2 ++ e3 ++ e4)%list.

(** A signature that waits for the next part. *)
Definition emit_trailing : M events :=
  p ← get_proc;
  if trailingSignature p =s? "" then mret [] else
  e1 ← endBlock;
  e2 ← emitEmptyThinkingWithSignature (trailingSignature p);
  _ ← update (fun p => p <| trailingSignature := "" |>);
  mret (e1 ++ e2)%list.

(** ** Parts *)

Definition processThinking (text signature : string) : M events :=
  e1 ← emit_trailing;
  p ← get_proc;
  e2 ← (if decide (blockType p = BlockTypeThinking) then mret [] else startBlock BlockTypeThinking thinking_block);
  e3 ← (if text <>s? "" then emitDelta "thinking_delta" [("thinking", AStr text)] else mret []);
  _ ← (if signature <>s? "" then update (fun p => p <| pendingSignature := signature |>) else mret tt);
  mret (e1 ++ e2 ++ e3)%list.

Definition processText (text signature : string) : M events :=
  if text =s? "" then
    _ ← (if signature <>s? "" then update (fun p => p <| trailingSignature := signature |>) else mret tt);
    mret []
  else
    e1 ← emit_trailing;
    if signature <>s? "" then
      e2 ← startBlock BlockTypeText text_block;
      e3 ← emitDelta "text_delta" [("text", AStr text)];
      e4 ← endBlock;
      e5 ← emitEmptyThinkingWithSignature signature;
      mret (e1 ++ e2 ++ e3 ++ e4 ++ e5)%list
    else
      p ← get_proc;
      e2 ← (if decide (blockType p = BlockTypeText) then mret [] else startBlock BlockTypeText text_block);
      e3 ← emitDelta "text_delta" [("text", AStr text)];
      mret (e1 ++ e2 ++ e3)%list.

Definition processFunctionCall (fc : GeminiFunctionCall) (signature : string) : M events :=
  _ ← update (fun p => p <| usedTool := true |>);
  toolID ← with_rand (tool_id fc);
  let toolUse := [("type", AStr "tool_use"); ("id", AStr toolID); ("name", AStr (gfc_Name fc)); ("input", AMap [])] ++
                 (if signature <>s? "" then [("signature", AStr signature)] else []) in
  e1 ← startBlock BlockTypeFunction toolUse;
  e2 ← (if is_nil (gfc_Args fc) then mret []
        else emitDelta "input_json_delta" [("partial_json", AStr (marshal_any (gfc_Args fc)))]);
  e3 ← endBlock;
  mret (e1 ++ e2 ++ e3)%list.

Definition processPart (part : GeminiPart) : M events :=
  let signature := gp_ThoughtSignature part in
  match gp_FunctionCall part with
  | Some fc => e1 ← emit_trailing; e2 ← processFunctionCall fc signature; mret (e1 ++ e2)%list
  | None =>
      e1 ← (if (gp_Text part <>s? "") || gp_Thought part then
              if gp_Thought part then processThinking (gp_Text part) signature else processText (gp_Text part) signature
            else mret []);
      e2 ← match gp_InlineData part with
           | Some d => if gid_Data d <>s? "" then processText (image_markdown d) "" else mret []
           | None => mret []
           end;
      mret (e1 ++ e2)%list
  end.

Fixpoint processParts (parts : list GeminiPart) : M events :=
  match parts with
  | [] => mret []
  | part :: parts => e1 ← processPart part; e2 ← processParts parts; mret (e1 ++ e2)%list
  end.

(** ** Messages *)

Definition emitMessageStart (v1Resp : V1InternalResponse) : M events :=
  p ← get_proc;
  if messageStartSent p then mret [] else
  responseID ← with_rand (response_id (vres_ResponseID v1Resp) (vres_Response v1Resp));
  let message := any_of
    [("id", AStr responseID); ("type", AStr "message"); ("role", AStr "assistant"); ("content", AArr []);
     ("model", AStr (originalModel p)); ("stop_reason", ANil); ("stop_sequence", ANil);
     ("usage", usage_value (usageMapHook p) (usage_of (gres_UsageMetadata (vres_Response v1Resp))))] in
  _ ← update (fun p => p <| messageStartSent := true |>);
  mret (emit "message_start" [("type", AStr "message_start"); ("message", message)]).

Definition captureGrounding (grounding : option GeminiGroundingMetadata) : M unit :=
  match grounding with
  | None => mret tt
  | Some g =>
      update (fun p =>
        let p := if nonempty (ggm_WebSearchQueries g) && negb (nonempty (webSearchQueries p))
                 then p <| webSearchQueries := ggm_WebSearchQueries g |> else p in
        if nonempty (ggm_GroundingChunks g) && negb (nonempty (groundingChunks p))
        then p <| groundingChunks := ggm_GroundingChunks g |> else p)
  end.

(** The usage that was seen last. *)
Definition current_usage (p : StreamingProcessor) : ClaudeUsage :=
  zero_ClaudeUsage <| cus_InputTokens := inputTokens p |> <| cus_OutputTokens := outputTokens p |>
    <| cus_CacheReadInputTokens := cacheReadTokens p |> <| cus_ImageOutputTokens := imageOutputTokens p |>.

Definition emit_grounding : M events :=
  p ← get_proc;
  if nonempty (webSearchQueries p) || nonempty (groundingChunks p) then
    let groundingText := buildGroundingText (mkGeminiGroundingMetadata (webSearchQueries p) (groundingChunks p)) in
    if groundingText =s? "" then mret [] else
    e1 ← startBlock BlockTypeText text_block;
    e2 ← emitDelta "text_delta" [("text", AStr groundingText)];
    e3 ← endBlock;
    mret (e1 ++ e2 ++ e3)%list
  else mret [].

Definition message_stop : M events :=
  p ← get_proc;
  if messageStopSent p then mret [] else
  _ ← update (fun p => p <| messageStopSent := true |>);
  mret (emit "message_stop" [("type", AStr "message_stop")]).

Definition emitFinish (finishReason : string) : M events :=
  e1 ← endBlock;
  e2 ← emit_trailing;
  e3 ← emit_grounding;
  p ← get_proc;
  let e4 := emit "message_delta"
    [("type", AStr "message_delta");
     ("delta", any_of [("stop_reason", AStr (claude_stop_reason (usedTool p) finishReason)); ("stop_sequence", ANil)]);
     ("usage", usage_value (usageMapHook p) (current_usage p))] in
  e5 ← message_stop;
  mret (e1 ++ e2 ++ e3 ++ e4 ++ e5)%list.

Definition note_usage (meta : option GeminiUsageMetadata) : M unit :=
  match meta with
  | None => mret tt
  | Some m =>
      let u := usage_of (Some m) in
      update (fun p => p <| inputTokens := cus_InputTokens u |> <| outputTokens := cus_OutputTokens u |>
                         <| cacheReadTokens := cus_CacheReadInputTokens u |> <| imageOutputTokens := cus_ImageOutputTokens u |>)
  end.

(** ** Lines *)

(** The document of a line; [None]: the line is skipped. *)
Definition parse_line (line : string) : option V1InternalResponse :=
  let line := trim_space line in
  if (line =s? "") || negb (has_prefix line "data:") then None else
  let data := trim_space (trim_prefix line "data:") in
  if (data =s? "") || (data =s? "[DONE]") then None else
  match unmarshal dec_V1InternalResponse zero_V1InternalResponse data with
  | Ok v1Resp => Some v1Resp
  | Err _ =>
      match unmarshal dec_GeminiResponse zero_GeminiResponse data with
      | Ok directResp => Some (unwrap directResp)
      | Err _ => None
      end
  end.

Definition process_response (v1Resp : V1InternalResponse) : M events :=
  let geminiResp := vres_Response v1Resp in
  e1 ← emitMessageStart v1Resp;
  _ ← note_usage (gres_UsageMetadata geminiResp);
  e2 ← processParts (candidate_parts geminiResp);
  _ ← captureGrounding (candidate_grounding geminiResp);
  e3 ← (if candidate_finish geminiResp <>s? "" then emitFinish (candidate_finish geminiResp) else mret []);
  mret (e1 ++ e2 ++ e3)%list.

Definition ProcessLine (line : string) : M events :=
  match parse_line line with
  | None => mret []
  | Some v1Resp => process_response v1Resp
  end.

Definition Finish : M (events * ClaudeUsage) :=
  p ← get_proc;
  let usage := current_usage p in
  if negb (messageStartSent p) then mret ([], usage) else
  e ← (if messageStopSent p then mret [] else emitFinish "");
  mret (e, usage).
