(* ===== verification/AntigravityStreamSpec.v ===== *)
(** * A client of the Claude event stream, and what Gemini streams become to it

    What a client makes of the events of a response: it follows the grammar,
    collects the blocks and reads the stop reason and the usage. *)

From S2P Require Import Prelude GoStrings Json JsonFacts Types Streaming Crypto AnyJson AnthropicGrammar GeminiTypes AntigravityResponse.
From S2P Require Import AntigravityStream.

(** ** Reading data *)

Definition at_ (key : string) (v : any) : option any := match v with AMap m => member_of key m | _ => None end.
Definition string_at (key : string) (v : any) : string := match at_ key v with Some (AStr s) => s | _ => "" end.
Definition int_at (key : string) (v : any) : option Z := match at_ key v with Some (ANum lit) => parse_int64 lit | _ => None end.
Definition map_at (key : string) (v : any) : option any := match at_ key v with Some (AMap m) => Some (AMap m) | _ => None end.

(** An event as the grammar reads it. *)
Definition view (e : sse_event) : AnthropicStreamEvent :=
  let d := sse_data e in
  zero_AnthropicStreamEvent <| ase_Type := string_at "type" d |>
    <| ase_Message := (fun v => zero_AnthropicResponse <| ares_ID := string_at "id" v |> <| ares_Model := string_at "model" v |>) <$> map_at "message" d |>
    <| ase_Index := int_at "index" d |>
    <| ase_ContentBlock := (fun v => zero_AnthropicContentBlock <| acb_Type := string_at "type" v |>) <$> map_at "content_block" d |>
    <| ase_Delta := (fun v => zero_AnthropicDelta <| ad_Type := string_at "type" v |> <| ad_StopReason := string_at "stop_reason" v |>)
         <$> map_at "delta" d |>
    <| ase_Usage := (fun v => zero_AnthropicUsage <| au_InputTokens := default 0 (int_at "input_tokens" v) |>
         <| au_OutputTokens := default 0 (int_at "output_tokens" v) |>) <$> map_at "usage" d |>.

(** ** Collecting blocks *)

Inductive block : Type :=
| BText (text : string)
| BThinking (thinking signature : string)
| BTool (id name signature input : string).

Definition block_type (b : block) : string :=
  match b with BText _ => "text" | BThinking _ _ => "thinking" | BTool _ _ _ _ => "tool_use" end.

Definition read_block (v : any) : block :=
  if string_at "type" v =s? "text" then BText (string_at "text" v)
  else if string_at "type" v =s? "thinking" then BThinking (string_at "thinking" v) (string_at "signature" v)
  else BTool (string_at "id" v) (string_at "name" v) (string_at "signature" v) "".

Definition apply_delta (d : any) (b : block) : block :=
  let is_type t := string_at "type" d =s? t in
  match b with
  | BText t => if is_type "text_delta" then BText (t +:+ string_at "text" d) else b
  | BThinking t s => if is_type "thinking_delta" then BThinking (t +:+ string_at "thinking" d) s
                     else if is_type "signature_delta" then BThinking t (string_at "signature" d) else b
  | BTool i n s j => if is_type "input_json_delta" then BTool i n s (j +:+ string_at "partial_json" d) else b
  end.

Record message : Type := mkMessage {
  m_id : string; m_model : string; m_closed : list block; m_open : option block; m_stop_reason : string; m_usage : any }.
#[export] Instance eta_message : Settable message := fun m =>
  mkMessage (m_id m) (m_model m) (m_closed m) (m_open m) (m_stop_reason m) (m_usage m).

Definition no_message : message := mkMessage "" "" [] None "" ANil.

Definition m_close (m : message) : message := m <| m_closed := (m_closed m ++ option_list (m_open m))%list |> <| m_open := None |>.

Definition message_step (m : message) (e : sse_event) : message :=
  let d := sse_data e in
  let is_type t := string_at "type" d =s? t in
  if is_type "message_start" then
    let v := default ANil (map_at "message" d) in m <| m_id := string_at "id" v |> <| m_model := string_at "model" v |>
  else if is_type "content_block_start" then m <| m_open := read_block <$> map_at "content_block" d |>
  else if is_type "content_block_delta" then m <| m_open := apply_delta (default ANil (map_at "delta" d)) <$> m_open m |>
  else if is_type "content_block_stop" then m_close m
  else if is_type "message_delta" then
    m <| m_stop_reason := string_at "stop_reason" (default ANil (map_at "delta" d)) |> <| m_usage := default ANil (map_at "usage" d) |>
  else m.

(** [None]: the stream is malformed. *)
Definition client_step (c : anth_state * message) (e : sse_event) : option (anth_state * message) :=
  q ← anth_step (fst c) (view e); Some (q, message_step (snd c) e).

Lemma client_grammar es q m q' m' :
  accepts client_step (q, m) es = Some (q', m') -> accepts anth_step q (map view es) = Some q'.
Proof.
  revert q m. induction es as [|e es IH]; intros q m; cbn [accepts map]; [by intros [= <- <-]|].
  destruct (client_step (q, m) e) as [[q1 m1]|] eqn:E; [|done]. unfold client_step in E. cbn [fst snd] in E.
  destruct (anth_step q (view e)) as [q2|]; [|done]. injection E as -> _. apply IH.
Qed.

(** ** The events of the processor *)

Definition block_start (n : Z) (b : any) : sse_event :=
  mkSse "content_block_start" (any_of [("type", AStr "content_block_start"); ("index", AInt n); ("content_block", b)]).
Definition block_delta (n : Z) (d : any) : sse_event :=
  mkSse "content_block_delta" (any_of [("type", AStr "content_block_delta"); ("index", AInt n); ("delta", d)]).
Definition block_stop (n : Z) : sse_event :=
  mkSse "content_block_stop" (any_of [("type", AStr "content_block_stop"); ("index", AInt n)]).

Lemma start_data n b : sse_data (block_start n b) = AMap [("content_block", b); ("index", AInt n); ("type", AStr "content_block_start")].
Proof. reflexivity. Qed.
Lemma delta_data n d : sse_data (block_delta n d) = AMap [("delta", d); ("index", AInt n); ("type", AStr "content_block_delta")].
Proof. reflexivity. Qed.
Lemma stop_data n : sse_data (block_stop n) = AMap [("index", AInt n); ("type", AStr "content_block_stop")].
Proof. reflexivity. Qed.

(** Reads the members of a map with concrete keys. *)
Ltac members := cbn [member_of String.eqb Ascii.eqb Bool.eqb].

Lemma client_start n b m : int64_range n ->
  client_step (ABody n None, m) (block_start n (AMap b)) =
  Some (ABody n (Some (string_at "type" (AMap b))), m <| m_open := Some (read_block (AMap b)) |>).
Proof.
  intros Hn. unfold client_step, view, message_step. rewrite start_data. unfold int_at, map_at, string_at, at_. members.
  unfold AInt. rewrite parse_int64_pretty by done. cbn -[String.eqb]. by rewrite Z.eqb_refl.
Qed.

Lemma client_delta n ty d m : int64_range n -> delta_fits ty (string_at "type" (AMap d)) = true ->
  client_step (ABody n (Some ty), m) (block_delta n (AMap d)) =
  Some (ABody n (Some ty), m <| m_open := apply_delta (AMap d) <$> m_open m |>).
Proof.
  intros Hn Hd. unfold client_step, view, message_step. rewrite delta_data. unfold int_at, map_at, string_at, at_ in *. members.
  unfold AInt. rewrite parse_int64_pretty by done. cbn -[String.eqb delta_fits]. rewrite Z.eqb_refl, Hd. reflexivity.
Qed.

Lemma client_stop n ty m : int64_range n ->
  client_step (ABody n (Some ty), m) (block_stop n) = Some (ABody (add64 n 1) None, m_close m).
Proof.
  intros Hn. unfold client_step, view, message_step. rewrite stop_data. unfold int_at, map_at, string_at, at_ in *. members.
  unfold AInt. rewrite parse_int64_pretty by done. cbn -[String.eqb add64]. rewrite Z.eqb_refl. reflexivity.
Qed.

Definition message_start (m : any) : sse_event := mkSse "message_start" (any_of [("type", AStr "message_start"); ("message", m)]).
Definition message_delta (reason : string) (usage : any) : sse_event :=
  mkSse "message_delta" (any_of [("type", AStr "message_delta");
    ("delta", any_of [("stop_reason", AStr reason); ("stop_sequence", ANil)]); ("usage", usage)]).
Definition message_stop_event : sse_event := mkSse "message_stop" (any_of [("type", AStr "message_stop")]).

Lemma client_message_start v m : client_step (AStart, m) (message_start (AMap v)) =
  Some (ABody 0 None, m <| m_id := string_at "id" (AMap v) |> <| m_model := string_at "model" (AMap v) |>).
Proof. reflexivity. Qed.

Lemma client_message_delta n reason u m : client_step (ABody n None, m) (message_delta reason (AMap u)) =
  Some (ADelta, m <| m_stop_reason := reason |> <| m_usage := AMap u |>).
Proof. reflexivity. Qed.

Lemma client_message_stop m : client_step (ADelta, m) message_stop_event = Some (AStop, m).
Proof. reflexivity. Qed.

Lemma usage_value_map hook u : exists l, usage_value hook u = AMap l.
Proof. destruct hook; by eexists. Qed.

(** ** Blocks up to splitting

    Texts that follow each other are one text, and a thinking block without
    text and signature says nothing. *)

Definition add_block (b : block) (l : list block) : list block :=
  match b, l with
  | BThinking t s, _ => if (t =s? "") && (s =s? "") then l else b :: l
  | BText t, BText t' :: l => BText (t +:+ t') :: l
  | _, _ => b :: l
  end.

Definition norm (l : list block) : list block := foldr add_block [] l.

Lemma add_block_text t t' l : add_block (BText t) (add_block (BText t') l) = add_block (BText (t +:+ t')) l.
Proof. destruct l as [|[] ?]; cbn; by rewrite ?string_app_assoc. Qed.

Lemma foldr_add_block k b l : foldr add_block k (add_block b l) = add_block b (foldr add_block k l).
Proof.
  destruct b as [t|t s|i n s j]; cbn.
  - destruct l as [|[t'|t' s'|i n s j] l]; [done| |done..]. exact (eq_sym (add_block_text t t' _)).
  - by destruct ((t =s? "") && (s =s? "")) eqn:E; cbn; rewrite ?E.
  - by destruct l.
Qed.

Lemma foldr_norm k l : foldr add_block k l = foldr add_block k (norm l).
Proof. induction l as [|b l IH]; cbn; [done|]. by rewrite foldr_add_block, IH. Qed.

Lemma norm_app a b : norm (a ++ b) = foldr add_block (norm b) (norm a).
Proof. unfold norm at 1. rewrite foldr_app. apply foldr_norm. Qed.

Lemma norm_app_l a a' b : norm a = norm a' -> norm (a ++ b) = norm (a' ++ b).
Proof. rewrite !norm_app. by intros ->. Qed.

Lemma norm_app_r a b b' : norm b = norm b' -> norm (a ++ b) = norm (a ++ b').
Proof. rewrite !norm_app. by intros ->. Qed.

Lemma norm_texts l t t' r : norm (l ++ BText (t +:+ t') :: r) = norm (l ++ BText t :: BText t' :: r).
Proof. apply norm_app_r. exact (eq_sym (add_block_text t t' (norm r))). Qed.

(** Only message_start names the message. *)
Lemma client_step_named q m e q' m' : q <> AStart -> client_step (q, m) e = Some (q', m') ->
  m_id m' = m_id m /\ m_model m' = m_model m /\ q' <> AStart.
Proof.
  unfold client_step. cbn [fst snd]. intros Hq H. destruct (anth_step q (view e)) as [q1|] eqn:E; [|done]. injection H as -> <-.
  assert (Ht : (string_at "type" (sse_data e) =s? "message_start") = false).
  { destruct (string_at "type" (sse_data e) =s? "message_start") eqn:Et; [|done]. apply String.eqb_eq in Et. exfalso. revert E.
    unfold anth_step, view. cbn. rewrite Et. by destruct q as [|n [ty|]| |]. }
  unfold message_step. rewrite Ht. split_and!; [by repeat case_match..|].
  unfold anth_step in E. intros ->. repeat case_match; done.
Qed.

Lemma accepts_named q m es q' m' : q <> AStart -> accepts client_step (q, m) es = Some (q', m') ->
  m_id m' = m_id m /\ m_model m' = m_model m.
Proof.
  revert q m. induction es as [|e es IH]; intros q m Hq; cbn [accepts]; [by intros [= <- <-]|].
  destruct (client_step (q, m) e) as [[q1 m1]|] eqn:E; [|done]. cbn [mbind option_bind].
  destruct (client_step_named _ _ _ _ _ Hq E) as (<- & <- & Hq1). by apply IH.
Qed.

(** * What Gemini streams become

    A reference collects the blocks of a response part by part.  The stream
    processor is shown to lead a client to it, by one lemma per emission, and
    the buffered processor to build it. *)

(** ** Emissions *)

Definition block_name (t : BlockType) : option string :=
  match t with
  | BlockTypeNone => None
  | BlockTypeText => Some "text"
  | BlockTypeThinking => Some "thinking"
  | BlockTypeFunction => Some "tool_use"
  end.

(** Where the grammar stands between message_start and message_delta. *)
Definition body (p : StreamingProcessor) : anth_state := ABody (blockIndex p) (block_name (blockType p)).

Definition wf (p : StreamingProcessor) (m : message) : Prop :=
  int64_range (blockIndex p) /\ block_type <$> m_open m = block_name (blockType p).

(** The client follows the events from where [p] and [m] stand to [p'] and [m']. *)
Definition leads (p : StreamingProcessor) (m : message) (evts : events) (p' : StreamingProcessor) (m' : message) : Prop :=
  wf p m -> accepts client_step (body p, m) evts = Some (body p', m') /\ wf p' m'.

Lemma leads_nil p m : leads p m [] p m.
Proof. done. Qed.

Lemma leads_app p m e1 p1 m1 e2 p2 m2 : leads p m e1 p1 m1 -> leads p1 m1 e2 p2 m2 -> leads p m (e1 ++ e2) p2 m2.
Proof.
  intros H1 H2 Hw. destruct (H1 Hw) as [Ha Hw1]. destruct (H2 Hw1) as [Hb Hw2]. split; [|done].
  rewrite accepts_app, Ha. exact Hb.
Qed.

Lemma st_bind_eq {S A B} (m : ST S A) (f : A -> ST S B) s a s' : m s = (a, s') -> (m ≫= f) s = f a s'.
Proof. unfold mbind, st_bind. by intros ->. Qed.

(** What [endBlock] leaves. *)
Definition ended (p : StreamingProcessor) : StreamingProcessor :=
  match blockType p with
  | BlockTypeNone => p
  | BlockTypeThinking =>
      (if pendingSignature p =s? "" then p else p <| pendingSignature := "" |>)
        <| blockIndex := add64 (blockIndex p) 1 |> <| blockType := BlockTypeNone |>
  | _ => p <| blockIndex := add64 (blockIndex p) 1 |> <| blockType := BlockTypeNone |>
  end.

Definition sign (s : string) (b : block) : block :=
  match b with BThinking t s0 => if s =s? "" then b else BThinking t s | _ => b end.

Definition m_end (s : string) (m : message) : message := m_close (m <| m_open := sign s <$> m_open m |>).

(** One event. *)
Lemma delta_leads p m d ty : block_name (blockType p) = Some ty -> delta_fits ty (string_at "type" (AMap d)) = true ->
  leads p m [block_delta (blockIndex p) (AMap d)] p (m <| m_open := apply_delta (AMap d) <$> m_open m |>).
Proof.
  intros Hty Hd [Hi Hm]. split.
  - cbn [accepts]. unfold body. rewrite Hty, client_delta by done. done.
  - split; [done|]. rewrite <- Hm. destruct m as [id mo cl [b|] sr us]; [|done]. cbn. f_equal. by destruct b; cbn; repeat case_match.
Qed.

Lemma stop_leads p m p' ty : block_name (blockType p) = Some ty -> blockType p' = BlockTypeNone -> blockIndex p' = add64 (blockIndex p) 1 ->
  leads p m [block_stop (blockIndex p)] p' (m_close m).
Proof.
  intros Hty Hb Hi' [Hi Hm]. split.
  - cbn [accepts]. unfold body. by rewrite Hty, client_stop, Hb, Hi' by done.
  - split; [rewrite Hi'; apply wrap64_range | by rewrite Hb].
Qed.

Lemma start_leads p m p' b : blockType p = BlockTypeNone -> blockIndex p' = blockIndex p ->
  block_name (blockType p') = Some (string_at "type" (AMap b)) -> block_type (read_block (AMap b)) = string_at "type" (AMap b) ->
  leads p m [block_start (blockIndex p) (AMap b)] p' (m <| m_open := Some (read_block (AMap b)) |>).
Proof.
  intros Hb Hi' Hty Hr [Hi Hm]. split.
  - cbn [accepts]. unfold body. by rewrite Hb, client_start, Hi', Hty by done.
  - split; [by rewrite Hi' | cbn; by rewrite Hty, Hr].
Qed.

(** A change of the processor that the client does not see. *)
Lemma leads_silent p m e p1 m1 p' : leads p m e p1 m1 -> blockType p' = blockType p1 -> blockIndex p' = blockIndex p1 ->
  leads p m e p' m1.
Proof.
  intros H E1 E2 Hw. destruct (H Hw) as [Ha Hw1]. unfold body, wf in *. by rewrite E1, E2.
Qed.

Lemma m_end_nothing s p m : wf p m -> blockType p = BlockTypeNone -> m_end s m = m.
Proof. intros [_ Hm] E. rewrite E in Hm. destruct m as [id mo cl [b|] sr us]; [done|]. unfold m_end, m_close. cbn. by rewrite app_nil_r. Qed.

Lemma m_end_unsigned s p m : wf p m -> s = "" \/ blockType p <> BlockTypeThinking -> m_end s m = m_close m.
Proof.
  intros [_ Hm] H. unfold m_end. destruct m as [id mo cl [b|] sr us]; [|done]. unfold m_close. cbn in *. do 2 f_equal.
  destruct b; cbn in *; [done| |done]. destruct H as [->|H]; [done|]. by destruct (blockType p).
Qed.

Definition signature_delta (s : string) : any := any_of [("type", AStr "signature_delta"); ("signature", AStr s)].

Lemma m_end_signed s p m : wf p m -> blockType p = BlockTypeThinking -> (s =s? "") = false ->
  m_end s m = m_close (m <| m_open := apply_delta (signature_delta s) <$> m_open m |>).
Proof.
  intros [_ Hm] Ht Hs. rewrite Ht in Hm. unfold m_end. do 2 f_equal. destruct m as [id mo cl [b|] sr us]; [|done]. cbn in *.
  destruct b; try done. cbn. by rewrite Hs.
Qed.

Lemma endBlock_leads p r m : exists evts : events, endBlock (mkWorld p r) = (evts, mkWorld (ended p) r) /\
  leads p m evts (ended p) (m_end (pendingSignature p) m).
Proof.
  unfold endBlock. rewrite (st_bind_eq _ _ _ p (mkWorld p r)) by done.
  destruct (decide (blockType p = BlockTypeNone)) as [E|E].
  { exists []. unfold ended. rewrite E. split; [done|]. intros Hw. by rewrite (m_end_nothing _ p m). }
  assert (Ht : exists ty, block_name (blockType p) = Some ty) by (destruct (blockType p); by eauto). destruct Ht as [ty Ht].
  assert (Hn : blockType (ended p) = BlockTypeNone /\ blockIndex (ended p) = add64 (blockIndex p) 1).
  { unfold ended. destruct (blockType p); try done; by destruct (pendingSignature p =s? ""). }
  destruct Hn as [Hn Hi].
  destruct (bool_decide (blockType p = BlockTypeThinking) && (pendingSignature p <>s? "")) eqn:Es.
  - apply andb_true_iff in Es as [Et%bool_decide_eq_true Es%negb_true_iff].
    exists ([block_delta (blockIndex p) (signature_delta (pendingSignature p))] ++
            [block_stop (blockIndex p)]).
    split; [unfold ended; by rewrite Et, Es|]. intros Hw. rewrite (m_end_signed _ p m Hw Et Es). revert Hw. eapply leads_app.
    { apply delta_leads with "thinking"; [by rewrite Et | done]. }
    by apply stop_leads with ty.
  - exists [block_stop (blockIndex p)]. split.
    + unfold ended. destruct (blockType p) eqn:Et; try done. cbn in Es. apply negb_false_iff in Es. by rewrite Es.
    + intros Hw. rewrite (m_end_unsigned _ p m Hw); [by apply stop_leads with ty; eauto|].
      apply andb_false_iff in Es as [?%bool_decide_eq_false|Es%negb_false_iff%String.eqb_eq]; auto.
Qed.

Lemma ended_none p : blockType (ended p) = BlockTypeNone.
Proof. unfold ended. by destruct (blockType p) eqn:E. Qed.

Lemma startBlock_leads typ cb p r m : block_name typ = Some (string_at "type" (any_of cb)) ->
  block_type (read_block (any_of cb)) = string_at "type" (any_of cb) ->
  exists evts : events, startBlock typ cb (mkWorld p r) = (evts, mkWorld (ended p <| blockType := typ |>) r) /\
  leads p m evts (ended p <| blockType := typ |>) (m_end (pendingSignature p) m <| m_open := Some (read_block (any_of cb)) |>).
Proof.
  intros Ht Hr. destruct (endBlock_leads p r m) as (e1 & E & H1).
  pose proof (ended_none p) as Hn.
  exists (e1 ++ [block_start (blockIndex (ended p)) (any_of cb)])%list. split.
  - unfold startBlock. rewrite (st_bind_eq _ _ _ p (mkWorld p r)) by done.
    rewrite (st_bind_eq _ _ _ e1 (mkWorld (ended p) r)); [done|].
    destruct (decide (blockType p = BlockTypeNone)) as [E0|]; [|exact E]. rewrite <- E. unfold endBlock.
    rewrite (st_bind_eq _ _ _ p (mkWorld p r)) by done. by destruct (decide _).
  - eapply leads_app; [exact H1|]. by apply start_leads.
Qed.

(** ** The reference *)

(** Blocks, and a thinking block that may still grow. *)
Record collected : Type := mkCollected { c_blocks : list block; c_thinking : option (string * string) }.

Definition blocks_of (c : collected) : list block :=
  c_blocks c ++ match c_thinking c with Some (t, s) => [BThinking t s] | None => [] end.

Definition put (b : block) (c : collected) : collected := mkCollected (blocks_of c ++ [b]) None.

Definition put_thought (text signature : string) (c : collected) : collected :=
  let '(t, s) := default ("", "") (c_thinking c) in
  mkCollected (c_blocks c) (Some (t +:+ text, if signature =s? "" then s else signature)).

Definition put_text (text signature : string) (c : collected) : collected :=
  if signature =s? "" then put (BText text) c else put (BThinking "" signature) (put (BText text) c).

Definition put_image (data : option GeminiInlineData) (c : collected) : collected :=
  match data with
  | Some d => if gid_Data d =s? "" then c else put (BText (image_markdown d)) c
  | None => c
  end.

Definition call_input (fc : GeminiFunctionCall) : string := if is_nil (gfc_Args fc) then "" else marshal_any (gfc_Args fc).

Definition collect_part (part : GeminiPart) (c : collected) : ST Rand collected :=
  let signature := gp_ThoughtSignature part in
  match gp_FunctionCall part with
  | Some fc => toolID ← tool_id fc; mret (put (BTool toolID (gfc_Name fc) signature (call_input fc)) c)
  | None =>
      mret (put_image (gp_InlineData part)
              (if gp_Thought part then put_thought (gp_Text part) signature c
               else if gp_Text part =s? "" then c else put_text (gp_Text part) signature c))
  end.

Fixpoint collect (parts : list GeminiPart) (c : collected) : ST Rand collected :=
  match parts with
  | [] => mret c
  | part :: parts => c ← collect_part part c; collect parts c
  end.

(** ** The stream follows the reference *)

(** The client has what [c] has, up to the signature that is sent when the
    block ends. *)
Definition streamed (p : StreamingProcessor) (m : message) (c : collected) : Prop :=
  trailingSignature p = "" /\
  match blockType p with
  | BlockTypeThinking =>
      exists t, m_open m = Some (BThinking t "") /\ c_thinking c = Some (t, pendingSignature p) /\ norm (m_closed m) = norm (c_blocks c)
  | BlockTypeFunction => False
  | BlockTypeText =>
      exists t, m_open m = Some (BText t) /\ pendingSignature p = "" /\ c_thinking c = None /\
        norm (m_closed m ++ [BText t]) = norm (c_blocks c)
  | BlockTypeNone => m_open m = None /\ pendingSignature p = "" /\ c_thinking c = None /\ norm (m_closed m) = norm (c_blocks c)
  end.

(** What parts do not change. *)
Definition frame (p : StreamingProcessor) :=
  (messageStartSent p, messageStopSent p, originalModel p, webSearchQueries p, groundingChunks p, usageMapHook p,
   (inputTokens p, outputTokens p, cacheReadTokens p, imageOutputTokens p)).

Definition follows (p : StreamingProcessor) (m : message) (c' : collected) (r : Rand) (tool : bool) (res : events * World) : Prop :=
  exists evts p' m', res = (evts, mkWorld p' r) /\ leads p m evts p' m' /\ streamed p' m' c' /\ frame p' = frame p /\
    usedTool p' = usedTool p || tool.

Lemma ended_facts p m c : streamed p m c ->
  blockType (ended p) = BlockTypeNone /\ pendingSignature (ended p) = "" /\ trailingSignature (ended p) = "" /\
  frame (ended p) = frame p /\ usedTool (ended p) = usedTool p /\
  m_open (m_end (pendingSignature p) m) = None /\ norm (m_closed (m_end (pendingSignature p) m)) = norm (blocks_of c).
Proof.
  intros [Ht Hs]. unfold ended, blocks_of, m_end, m_close. destruct m as [id mo cl op sr us]. cbn in *.
  destruct (blockType p) eqn:E; [| |clear E|done].
  - destruct Hs as (-> & Hp & -> & Hn). split_and!; try done. by rewrite !app_nil_r.
  - destruct Hs as (t & -> & Hp & -> & Hn). split_and!; try done. by rewrite app_nil_r.
  - destruct Hs as (t & -> & -> & Hn). split_and!; try (by destruct (pendingSignature p =s? "") eqn:E; try apply String.eqb_eq in E).
    cbn. destruct (pendingSignature p =s? "") eqn:E; [apply String.eqb_eq in E as ->|]; by apply norm_app_l.
Qed.

Lemma trailing_none p r : trailingSignature p = "" -> emit_trailing (mkWorld p r) = ([], mkWorld p r).
Proof. intros E. unfold emit_trailing. rewrite (st_bind_eq _ _ _ p (mkWorld p r)) by done. by rewrite E. Qed.

(** Runs a computation one command at a time. *)
Ltac step E := rewrite (st_bind_eq _ _ _ _ _ E).
Ltac get p r := rewrite (st_bind_eq get_proc _ (mkWorld p r) p (mkWorld p r) eq_refl).

Lemma emitDelta_run t d p r :
  emitDelta t d (mkWorld p r) = ([block_delta (blockIndex p) (any_of (("type", AStr t) :: d))], mkWorld p r).
Proof. reflexivity. Qed.

(** A thinking block is open afterwards. *)
Lemma open_thinking p r m c : streamed p m c -> exists evts p1 m1 t,
  (if decide (blockType p = BlockTypeThinking) then mret [] else startBlock BlockTypeThinking thinking_block) (mkWorld p r)
    = (evts, mkWorld p1 r) /\
  leads p m evts p1 m1 /\ blockType p1 = BlockTypeThinking /\ trailingSignature p1 = "" /\ m_open m1 = Some (BThinking t "") /\
  default ("", "") (c_thinking c) = (t, pendingSignature p1) /\ norm (m_closed m1) = norm (c_blocks c) /\
  frame p1 = frame p /\ usedTool p1 = usedTool p.
Proof.
  intros Hs. destruct (decide (blockType p = BlockTypeThinking)) as [E|E].
  - destruct Hs as [Ht Hs]. rewrite E in Hs. destruct Hs as (t & Ho & Hc & Hn). exists [], p, m, t. rewrite Hc. by split_and!; try apply leads_nil.
  - destruct (startBlock_leads BlockTypeThinking thinking_block p r m eq_refl eq_refl) as (e & Er & Hl).
    destruct (ended_facts p m c Hs) as (_ & Hp & Ht & Hf & Hu & _ & Hn).
    assert (Hc : c_thinking c = None) by (destruct Hs as [_ Hs]; destruct (blockType p); naive_solver).
    eexists e, _, _, "". split; [exact Er|]. split; [exact Hl|]. rewrite Hc. unfold blocks_of in Hn. rewrite Hc, app_nil_r in Hn.
    split_and!; try done. cbn. by rewrite Hp.
Qed.

Lemma processThinking_follows text signature p r m c : streamed p m c ->
  follows p m (put_thought text signature c) r false (processThinking text signature (mkWorld p r)).
Proof.
  intros Hs. unfold processThinking. step (trailing_none p r (proj1 Hs)). get p r.
  destruct (open_thinking p r m c Hs) as (e & p1 & m1 & t & E & Hl & Hb & Ht & Ho & Hc & Hn & Hf & Hu). step E.
  set (evts := if text <>s? "" then [block_delta (blockIndex p1) (any_of [("type", AStr "thinking_delta"); ("thinking", AStr text)])] else []).
  rewrite (st_bind_eq _ _ (mkWorld p1 r) evts (mkWorld p1 r)) by (unfold evts; by destruct (text <>s? "")).
  set (p2 := if signature <>s? "" then p1 <| pendingSignature := signature |> else p1).
  rewrite (st_bind_eq _ _ (mkWorld p1 r) tt (mkWorld p2 r)) by (unfold p2; by destruct (signature <>s? "")).
  exists (e ++ evts)%list, p2, (m1 <| m_open := Some (BThinking (t +:+ text) "") |>). split; [done|].
  split_and!; [| |unfold p2; by destruct (signature <>s? "")|unfold p2; rewrite orb_false_r; by destruct (signature <>s? "")].
  - eapply leads_app; [exact Hl|]. apply (leads_silent _ _ _ p1); [|unfold p2; by destruct (signature <>s? "")..].
    unfold evts. destruct (text <>s? "") eqn:Et.
    + replace (m1 <| m_open := _ |>) with (m1 <| m_open := apply_delta (any_of [("type", AStr "thinking_delta"); ("thinking", AStr text)]) <$> m_open m1 |>)
        by (by rewrite Ho). apply delta_leads with "thinking"; [by rewrite Hb | done].
    + apply negb_false_iff, String.eqb_eq in Et as ->. rewrite string_app_nil_r, <- Ho. destruct m1. apply leads_nil.
  - split; [unfold p2; by destruct (signature <>s? "")|].
    assert (blockType p2 = BlockTypeThinking) as -> by (unfold p2; by destruct (signature <>s? "")).
    exists (t +:+ text). split; [done|]. unfold put_thought. rewrite Hc. split; [|done]. unfold p2. cbn.
    by destruct (signature =s? "").
Qed.

(** A new text block, with its first text. *)
Lemma start_text text p r m c : streamed p m c -> exists e d p1 m1,
  startBlock BlockTypeText text_block (mkWorld p r) = (e, mkWorld p1 r) /\
  emitDelta "text_delta" [("text", AStr text)] (mkWorld p1 r) = (d, mkWorld p1 r) /\
  leads p m (e ++ d) p1 m1 /\ streamed p1 m1 (put (BText text) c) /\ frame p1 = frame p /\ usedTool p1 = usedTool p.
Proof.
  intros Hs. destruct (startBlock_leads BlockTypeText text_block p r m eq_refl eq_refl) as (e & E & Hl).
  destruct (ended_facts p m c Hs) as (_ & Hp & Ht & Hf & Hu & _ & Hn). set (p1 := ended p <| blockType := BlockTypeText |>) in *.
  eexists e, _, p1, _. split; [exact E|]. split; [apply emitDelta_run|].
  split; [eapply leads_app; [exact Hl|]; by apply delta_leads with "text"|]. split; [|done]. split; [done|]. cbn. exists text.
  split_and!; try done. by apply norm_app_l.
Qed.

Lemma endBlock_follows p r m c : streamed p m c -> exists e, endBlock (mkWorld p r) = (e, mkWorld (ended p) r) /\
  leads p m e (ended p) (m_end (pendingSignature p) m) /\
  streamed (ended p) (m_end (pendingSignature p) m) (mkCollected (blocks_of c) None) /\ frame (ended p) = frame p /\ usedTool (ended p) = usedTool p.
Proof.
  intros Hs. destruct (endBlock_leads p r m) as (e & E & Hl). destruct (ended_facts p m c Hs) as (Hb & Hp & Ht & Hf & Hu & Ho & Hn).
  exists e. split; [exact E|]. split; [exact Hl|]. split; [|done]. split; [done|]. by rewrite Hb.
Qed.

Lemma put_flush b c : put b (mkCollected (blocks_of c) None) = put b c.
Proof. unfold put, blocks_of. cbn. by rewrite app_nil_r. Qed.

Lemma empty_thinking signature p r m c : streamed p m c -> exists e p1 m1,
  emitEmptyThinkingWithSignature signature (mkWorld p r) = (e, mkWorld p1 r) /\
  leads p m e p1 m1 /\ streamed p1 m1 (put (BThinking "" signature) c) /\ frame p1 = frame p /\ usedTool p1 = usedTool p.
Proof.
  intros Hs. destruct (startBlock_leads BlockTypeThinking thinking_block p r m eq_refl eq_refl) as (e1 & E1 & Hl).
  destruct (ended_facts p m c Hs) as (_ & Hp & Ht & Hf & Hu & _ & Hn). set (p1 := ended p <| blockType := BlockTypeThinking |>) in *.
  set (m1 := m_end (pendingSignature p) m <| m_open := Some (BThinking "" signature) |>).
  destruct (endBlock_leads p1 r m1) as (e4 & E4 & H4). assert (Hp1 : pendingSignature p1 = "") by done.
  eexists _, (ended p1), _. split.
  { unfold emitEmptyThinkingWithSignature. step E1. rewrite !(st_bind_eq _ _ _ _ _ (emitDelta_run _ _ _ _)). step E4. reflexivity. }
  split.
  - eapply leads_app; [exact Hl|]. eapply leads_app; [by apply delta_leads with "thinking"|]. eapply leads_app; [by apply delta_leads with "thinking"|].
    exact H4.
  - assert (He : ended p1 = p1 <| blockIndex := add64 (blockIndex p1) 1 |> <| blockType := BlockTypeNone |>).
    { unfold ended at 1. change (blockType p1) with BlockTypeThinking. cbv iota. by rewrite Hp1. }
    rewrite He. split; [|done]. split; [done|]. cbn. rewrite Hp. cbn. split_and!; try done. by apply norm_app_l.
Qed.

Lemma processText_follows text signature p r m c : streamed p m c -> (text =s? "") = false ->
  follows p m (put_text text signature c) r false (processText text signature (mkWorld p r)).
Proof.
  intros Hs Ht. unfold processText. rewrite Ht. step (trailing_none p r (proj1 Hs)). unfold put_text.
  destruct (signature =s? "") eqn:Es; cbn [negb].
  - get p r. destruct (decide (blockType p = BlockTypeText)) as [E|E].
    + pose proof Hs as [Hts Ho]. rewrite E in Ho. destruct Ho as (t & Ho & Hp & Hc & Hn).
      eexists _, p, (m <| m_open := Some (BText (t +:+ text)) |>). split; [reflexivity|]. split.
      { replace (m <| m_open := _ |>) with (m <| m_open := apply_delta (any_of [("type", AStr "text_delta"); ("text", AStr text)]) <$> m_open m |>)
          by (by rewrite Ho). apply delta_leads with "text"; [by rewrite E | done]. }
      split; [|by rewrite orb_false_r]. split; [done|]. rewrite E. exists (t +:+ text). split_and!; try done. cbn. unfold blocks_of. rewrite Hc, app_nil_r.
      rewrite norm_texts. change [BText t; BText text] with ([BText t] ++ [BText text]). rewrite app_assoc. by apply norm_app_l.
    + destruct (start_text text p r m c Hs) as (e & d & p1 & m1 & E1 & E2 & Hl & H1 & Hf & Hu). step E1. step E2.
      exists (e ++ d)%list, p1, m1. split; [done|]. by rewrite orb_false_r.
  - destruct (start_text text p r m c Hs) as (e & d & p1 & m1 & E1 & E2 & Hl & H1 & Hf & Hu). step E1. step E2.
    destruct (endBlock_follows p1 r m1 _ H1) as (e4 & E4 & Hl4 & H4 & Hf4 & Hu4). step E4.
    destruct (empty_thinking signature _ r _ _ H4) as (e5 & p5 & m5 & E5 & Hl5 & H5 & Hf5 & Hu5). step E5.
    eexists _, p5, m5. split; [reflexivity|]. split.
    { cbn [app]. rewrite app_assoc. eapply leads_app; [exact Hl|]. eapply leads_app; [exact Hl4 | exact Hl5]. }
    split; [|split; [congruence | rewrite orb_false_r; congruence]]. by rewrite put_flush in H5.
Qed.

Definition tool_use (toolID : string) (fc : GeminiFunctionCall) (signature : string) : list (string * any) :=
  [("type", AStr "tool_use"); ("id", AStr toolID); ("name", AStr (gfc_Name fc)); ("input", AMap [])] ++
  (if signature <>s? "" then [("signature", AStr signature)] else []).

Lemma read_tool_use toolID fc signature : read_block (any_of (tool_use toolID fc signature)) = BTool toolID (gfc_Name fc) signature "".
Proof. unfold tool_use. destruct (signature =s? "") eqn:E; [by apply String.eqb_eq in E as -> | done]. Qed.

Lemma tool_use_type toolID fc signature : string_at "type" (any_of (tool_use toolID fc signature)) = "tool_use".
Proof. unfold tool_use. by destruct (signature =s? ""). Qed.

Lemma input_leads p m i n s x : blockType p = BlockTypeFunction ->
  leads p (m <| m_open := Some (BTool i n s "") |>)
    [block_delta (blockIndex p) (any_of [("type", AStr "input_json_delta"); ("partial_json", AStr x)])] p (m <| m_open := Some (BTool i n s x) |>).
Proof.
  intros Hb. pose proof (delta_leads p (m <| m_open := Some (BTool i n s "") |>) [("partial_json", AStr x); ("type", AStr "input_json_delta")] "tool_use"
    ltac:(by rewrite Hb) eq_refl) as H. exact H.
Qed.

Lemma streamed_used p m c b : streamed p m c -> streamed (p <| usedTool := b |>) m c.
Proof. done. Qed.

Lemma leads_used p m e p' m' b : leads (p <| usedTool := b |>) m e p' m' -> leads p m e p' m'.
Proof. done. Qed.

Lemma processFunctionCall_follows fc signature toolID p r r' m c : streamed p m c -> tool_id fc r = (toolID, r') ->
  follows p m (put (BTool toolID (gfc_Name fc) signature (call_input fc)) c) r' true (processFunctionCall fc signature (mkWorld p r)).
Proof.
  intros Hs Hid. unfold processFunctionCall. set (p0 := p <| usedTool := true |>).
  rewrite (st_bind_eq _ _ (mkWorld p r) tt (mkWorld p0 r)) by done.
  rewrite (st_bind_eq _ _ (mkWorld p0 r) toolID (mkWorld p0 r')) by (unfold with_rand; cbn; by rewrite Hid).
  cbv zeta. fold (tool_use toolID fc signature).
  destruct (startBlock_leads BlockTypeFunction (tool_use toolID fc signature) p0 r' m) as (e1 & E1 & Hl); [by rewrite tool_use_type.. |
    by rewrite tool_use_type, read_tool_use |].
  step E1. destruct (ended_facts p0 m c (streamed_used _ _ _ _ Hs)) as (_ & Hp & Ht & Hf & Hu & _ & Hn).
  set (p1 := ended p0 <| blockType := BlockTypeFunction |>) in *. rewrite read_tool_use in Hl.
  set (e2 := if is_nil (gfc_Args fc) then [] else
    [block_delta (blockIndex p1) (any_of [("type", AStr "input_json_delta"); ("partial_json", AStr (marshal_any (gfc_Args fc)))])]).
  rewrite (st_bind_eq _ _ (mkWorld p1 r') e2 (mkWorld p1 r')) by (unfold e2; by destruct (is_nil (gfc_Args fc))).
  set (m1 := m_end (pendingSignature p0) m <| m_open := Some (BTool toolID (gfc_Name fc) signature (call_input fc)) |>).
  destruct (endBlock_leads p1 r' m1) as (e3 & E3 & Hl3). step E3.
  exists (e1 ++ e2 ++ e3)%list, (ended p1), (m_end (pendingSignature p1) m1). split; [done|]. split.
  { apply (leads_used _ _ _ _ _ true). eapply leads_app; [exact Hl|]. eapply leads_app; [|exact Hl3]. unfold e2, m1, call_input.
    destruct (is_nil (gfc_Args fc)); [apply leads_nil|].
    by apply input_leads. }
  assert (He : ended p1 = p1 <| blockIndex := add64 (blockIndex p1) 1 |> <| blockType := BlockTypeNone |>) by done.
  rewrite He. split; [split; [done|]; cbn; split_and!; [done..|by apply norm_app_l] | split; [done|]].
  transitivity (usedTool (ended p0)); [done|]. rewrite Hu, orb_true_r. done.
Qed.

Definition is_call (part : GeminiPart) : bool := is_some (gp_FunctionCall part).

(** One computation after the other. *)
Lemma follows_then p m r t1 t2 (op1 op2 : M events) c1 r1 c2 r2 :
  follows p m c1 r1 t1 (op1 (mkWorld p r)) ->
  (forall p1 m1, streamed p1 m1 c1 -> follows p1 m1 c2 r2 t2 (op2 (mkWorld p1 r1))) ->
  follows p m c2 r2 (t1 || t2) ((e1 ← op1; e2 ← op2; mret (e1 ++ e2)%list) (mkWorld p r)).
Proof.
  intros (e1 & p1 & m1 & E1 & Hl1 & H1 & Hf1 & Hu1) H. destruct (H p1 m1 H1) as (e2 & p2 & m2 & E2 & Hl2 & H2 & Hf2 & Hu2).
  exists (e1 ++ e2)%list, p2, m2. step E1. step E2. split; [done|]. split; [by eapply leads_app|]. split; [done|]. split; [congruence|].
  by rewrite Hu2, Hu1, orb_assoc.
Qed.

Lemma follows_nil p m c r : streamed p m c -> follows p m c r false ([], mkWorld p r).
Proof. intros Hs. exists [], p, m. split; [done|]. split; [apply leads_nil|]. by rewrite orb_false_r. Qed.

Lemma processPart_follows part c' p r r' m c : streamed p m c -> collect_part part c r = (c', r') ->
  follows p m c' r' (is_call part) (processPart part (mkWorld p r)).
Proof.
  intros Hs Hc. unfold processPart, collect_part, is_call in *. destruct (gp_FunctionCall part) as [fc|]; cbn [is_some].
  - destruct (tool_id fc r) as [toolID r1] eqn:Eid. rewrite (st_bind_eq _ _ _ _ _ Eid) in Hc. injection Hc as <- <-.
    apply (follows_then p m r false true _ _ c r); [rewrite (trailing_none p r (proj1 Hs)); by apply follows_nil|].
    intros p1 m1 H1. by eapply processFunctionCall_follows.
  - injection Hc as <- <-.
    set (c1 := if gp_Thought part then put_thought (gp_Text part) (gp_ThoughtSignature part) c
               else if gp_Text part =s? "" then c else put_text (gp_Text part) (gp_ThoughtSignature part) c).
    apply (follows_then p m r false false _ _ c1 r).
    + unfold c1. destruct (gp_Text part =s? "") eqn:Et, (gp_Thought part); cbn [negb orb];
        first [by apply processThinking_follows | by apply processText_follows | by apply follows_nil].
    + intros p1 m1 H1. unfold put_image. destruct (gp_InlineData part) as [d|]; [|by apply follows_nil].
      destruct (gid_Data d =s? "") eqn:Ed; cbn [negb]; [by apply follows_nil|]. by apply (processText_follows (image_markdown d) "").
Qed.

Lemma processParts_follows parts c' p r r' m c : streamed p m c -> collect parts c r = (c', r') ->
  follows p m c' r' (existsb is_call parts) (processParts parts (mkWorld p r)).
Proof.
  revert p r m c. induction parts as [|part parts IH]; intros p r m c Hs Hc; cbn in Hc |- *.
  - injection Hc as <- <-. by apply follows_nil.
  - destruct (collect_part part c r) as [c1 r1] eqn:E. rewrite (st_bind_eq _ _ _ _ _ E) in Hc.
    apply (follows_then p m r _ _ _ _ c1 r1); [by apply processPart_follows with (c := c)|]. intros p1 m1 H1. by eapply IH.
Qed.
