(* ===== verification/AntigravitySpec.v ===== *)
(** * What a client receives of a Gemini response

    A stream whose last visible chunk has the finish reason is a grammatical
    Claude stream, and tells the client what the buffered conversion of the
    whole response says, as long as no signed text follows an unsigned one. *)

From S2P Require Import Prelude GoStrings Json JsonFacts Crypto AnyJson Types Streaming AnthropicGrammar GeminiTypes.
From S2P Require Import AntigravityResponse AntigravityStream AntigravityStreamSpec.

(** ** Chunks *)

Definition finish_of (r : V1InternalResponse) : string := candidate_finish (vres_Response r).
Definition parts_of (r : V1InternalResponse) : list GeminiPart := candidate_parts (vres_Response r).
Definition meta_of (r : V1InternalResponse) : option GeminiUsageMetadata := gres_UsageMetadata (vres_Response r).
Definition grounding_of (r : V1InternalResponse) : option GeminiGroundingMetadata := candidate_grounding (vres_Response r).

(** What is kept of the chunks besides their parts. *)
Record noted : Type := mkNoted {
  n_meta : option GeminiUsageMetadata; n_queries : list string; n_chunks : list GeminiGroundingChunk; n_used : bool }.

Definition nothing_noted : noted := mkNoted None [] [] false.

Definition first_nonempty {A} (old new : list A) : list A := if nonempty new && negb (nonempty old) then new else old.

Definition queries_of (r : V1InternalResponse) : list string :=
  match grounding_of r with Some g => ggm_WebSearchQueries g | None => [] end.
Definition chunks_of (r : V1InternalResponse) : list GeminiGroundingChunk :=
  match grounding_of r with Some g => ggm_GroundingChunks g | None => [] end.

Definition note (r : V1InternalResponse) (n : noted) : noted :=
  mkNoted (match meta_of r with Some m => Some m | None => n_meta n end)
    (first_nonempty (n_queries n) (queries_of r)) (first_nonempty (n_chunks n) (chunks_of r)) (n_used n || existsb is_call (parts_of r)).

Definition grounding_block (n : noted) : list block :=
  let text := buildGroundingText (mkGeminiGroundingMetadata (n_queries n) (n_chunks n)) in
  if text =s? "" then [] else [BText text].

Section Session.
Context (model : string) (hook : option UsageMapHook).

Definition books (p : StreamingProcessor) (n : noted) : Prop :=
  originalModel p = model /\ usageMapHook p = hook /\ current_usage p = usage_of (n_meta n) /\
  webSearchQueries p = n_queries n /\ groundingChunks p = n_chunks n /\ usedTool p = n_used n.

(** Between the first chunk and the finish reason. *)
Definition live (p : StreamingProcessor) (m : message) (c : collected) (n : noted) : Prop :=
  messageStartSent p = true /\ messageStopSent p = false /\ wf p m /\ streamed p m c /\ books p n.

(** After it. *)
Definition over (p : StreamingProcessor) : Prop :=
  messageStartSent p = true /\ messageStopSent p = true /\ blockType p = BlockTypeNone /\ pendingSignature p = "" /\ trailingSignature p = "".

(** The message as it ends. *)
Definition finished (c : collected) (n : noted) (finish : string) (m : message) : Prop :=
  norm (m_closed m) = norm (blocks_of c ++ grounding_block n) /\ m_open m = None /\
  m_stop_reason m = claude_stop_reason (n_used n) finish /\ m_usage m = usage_value hook (usage_of (n_meta n)).

Lemma books_frame p p' n : frame p' = frame p -> usedTool p' = usedTool p -> books p n -> books p' n.
Proof.
  unfold books, current_usage, frame. intros Hf Hu. injection Hf as Hf1 Hf2 Hf3 Hf4 Hf5 Hf6 Hf7 Hf8 Hf9 Hf10.
  by rewrite Hu, Hf3, Hf4, Hf5, Hf6, Hf7, Hf8, Hf9, Hf10.
Qed.

Lemma frame_sent p p' : frame p' = frame p -> messageStartSent p' = messageStartSent p /\ messageStopSent p' = messageStopSent p.
Proof. unfold frame. intros Hf. by injection Hf. Qed.

Lemma emit_grounding_follows p r m c n : streamed p m c -> books p n ->
  exists evts p' m' c', emit_grounding (mkWorld p r) = (evts, mkWorld p' r) /\ leads p m evts p' m' /\ streamed p' m' c' /\
  frame p' = frame p /\ usedTool p' = usedTool p /\ blocks_of c' = blocks_of c ++ grounding_block n /\
  (blockType p = BlockTypeNone -> blockType p' = BlockTypeNone).
Proof.
  intros Hs (_ & _ & _ & Hq & Hc & _). unfold emit_grounding, grounding_block. get p r. rewrite Hq, Hc.
  destruct (buildGroundingText _ =s? "") eqn:Et.
  { exists [], p, m, c. rewrite app_nil_r. split; [by destruct (_ || _)|]. split_and!; try apply leads_nil; done. }
  assert (nonempty (n_queries n) || nonempty (n_chunks n) = true) as ->.
  { destruct (n_queries n), (n_chunks n); try done. }
  destruct (start_text (buildGroundingText (mkGeminiGroundingMetadata (n_queries n) (n_chunks n))) p r m c Hs)
    as (e & d & p1 & m1 & E1 & E2 & Hl & H1 & Hf & Hu). step E1. step E2.
  destruct (endBlock_follows p1 r m1 _ H1) as (e4 & E4 & Hl4 & H4 & Hf4 & Hu4). step E4.
  eexists _, _, _, _. split; [reflexivity|]. split; [rewrite app_assoc; eapply leads_app; [exact Hl | exact Hl4]|].
  split; [exact H4|]. split; [congruence|]. split; [congruence|]. split; [|intros _; apply ended_none].
  unfold blocks_of at 1, put. cbn. by rewrite !app_nil_r.
Qed.

Lemma emitFinish_finishes finish p r m c n : live p m c n -> exists evts p' m',
  emitFinish finish (mkWorld p r) = (evts, mkWorld p' r) /\ accepts client_step (body p, m) evts = Some (AStop, m') /\
  over p' /\ finished c n finish m'.
Proof.
  intros (Hst & Hsp & Hw & Hs & Hb). unfold emitFinish.
  destruct (endBlock_follows p r m c Hs) as (e1 & E1 & Hl1 & H1 & Hf1 & Hu1). step E1. step (trailing_none (ended p) r (proj1 H1)).
  pose proof (books_frame p (ended p) n Hf1 Hu1 Hb) as Hb1.
  destruct (emit_grounding_follows _ r _ _ n H1 Hb1) as (e3 & p3 & m3 & c3 & E3 & Hl3 & H3 & Hf3 & Hu3 & Hc3 & Hn3). step E3. get p3 r.
  specialize (Hn3 (ended_none p)). destruct (books_frame _ p3 n Hf3 Hu3 Hb1) as (Hm & Hh & Hcu & _ & _ & Hus).
  destruct (frame_sent _ _ Hf1) as [Hs1 Hs2], (frame_sent _ _ Hf3) as [Hs3 Hs4].
  assert (Hstop : message_stop (mkWorld p3 r) = ([message_stop_event], mkWorld (p3 <| messageStopSent := true |>) r)).
  { unfold message_stop. get p3 r. by rewrite Hs4, Hs2, Hsp. }
  step Hstop. destruct (usage_value_map hook (usage_of (n_meta n))) as [u Hu].
  eexists _, _, (m3 <| m_stop_reason := claude_stop_reason (n_used n) finish |> <| m_usage := AMap u |>). split; [reflexivity|].
  destruct (leads_app _ _ _ _ _ _ _ _ Hl1 Hl3 Hw) as [Ha Hw3]. split.
  { cbn [app]. rewrite app_assoc, accepts_app, Ha. cbn [mbind option_bind]. unfold body. rewrite Hn3. cbn [block_name].
    rewrite Hus, Hh, Hcu, Hu. reflexivity. }
  destruct H3 as [Ht3 H3]. rewrite Hn3 in H3. destruct H3 as (Ho3 & Hp3 & Hcc & Hnn).
  split; [split_and!; cbn; congruence|]. split; [|by rewrite Hu]. change (norm (m_closed m3) = norm (blocks_of c ++ grounding_block n)).
  rewrite Hnn. unfold blocks_of in Hc3 at 1. rewrite Hcc, app_nil_r in Hc3. rewrite Hc3. unfold blocks_of at 1. cbn. by rewrite app_nil_r.
Qed.

(** ** One chunk *)

(** Of a chunk, what follows message_start. *)
Definition rest (v1Resp : V1InternalResponse) : M events :=
  _ ← note_usage (meta_of v1Resp);
  e2 ← processParts (parts_of v1Resp);
  _ ← captureGrounding (grounding_of v1Resp);
  e3 ← (if finish_of v1Resp <>s? "" then emitFinish (finish_of v1Resp) else mret []);
  mret (e2 ++ e3)%list.

Lemma process_response_rest v1Resp w e1 w1 e2 w2 : emitMessageStart v1Resp w = (e1, w1) -> rest v1Resp w1 = (e2, w2) ->
  process_response v1Resp w = ((e1 ++ e2)%list, w2).
Proof.
  intros E1 E2. unfold process_response, rest, mbind, st_bind, meta_of, parts_of, grounding_of, finish_of in *. rewrite E1.
  destruct (note_usage _ w1) as [? w3]. destruct (processParts _ w3) as [e3 w4]. destruct (captureGrounding _ w4) as [? w5].
  destruct (_ w5) as [e4 w6]. by injection E2 as <- <-.
Qed.

Definition noted_usage (v1Resp : V1InternalResponse) (p : StreamingProcessor) : StreamingProcessor :=
  proc (snd (note_usage (meta_of v1Resp) (mkWorld p (mkRand (fun _ => "") 0)))).

Lemma note_usage_run v1Resp p r : note_usage (meta_of v1Resp) (mkWorld p r) = (tt, mkWorld (noted_usage v1Resp p) r).
Proof. unfold noted_usage. by destruct (meta_of v1Resp). Qed.

Definition captured (v1Resp : V1InternalResponse) (p : StreamingProcessor) : StreamingProcessor :=
  p <| webSearchQueries := first_nonempty (webSearchQueries p) (queries_of v1Resp) |>
    <| groundingChunks := first_nonempty (groundingChunks p) (chunks_of v1Resp) |>.

Lemma captureGrounding_run v1Resp p r : captureGrounding (grounding_of v1Resp) (mkWorld p r) = (tt, mkWorld (captured v1Resp p) r).
Proof.
  unfold captured, queries_of, chunks_of. destruct p as [? ? ? ? ? ? ? ? wq gc ? ? ? ? ?], (grounding_of v1Resp) as [[q ch]|]; [|done].
  by destruct q, ch, wq, gc.
Qed.

(** Neither is seen by the client. *)
Definition same_blocks (p' p : StreamingProcessor) : Prop :=
  (blockType p', blockIndex p', pendingSignature p', trailingSignature p', messageStartSent p', messageStopSent p') =
  (blockType p, blockIndex p, pendingSignature p, trailingSignature p, messageStartSent p, messageStopSent p).

Lemma noted_usage_blocks v1Resp p : same_blocks (noted_usage v1Resp p) p.
Proof. unfold noted_usage. by destruct (meta_of v1Resp). Qed.

Lemma captured_blocks v1Resp p : same_blocks (captured v1Resp p) p.
Proof. done. Qed.

Lemma same_blocks_streamed p' p m c : same_blocks p' p -> streamed p m c -> streamed p' m c.
Proof. unfold same_blocks, streamed. intros [= -> _ -> -> _ _]. done. Qed.

Lemma same_blocks_body p' p m : same_blocks p' p -> body p' = body p /\ (wf p m -> wf p' m).
Proof. unfold same_blocks, body, wf. by intros [= -> -> _ _ _ _]. Qed.

Lemma same_blocks_sent p' p : same_blocks p' p -> messageStartSent p' = messageStartSent p /\ messageStopSent p' = messageStopSent p.
Proof. unfold same_blocks. by intros [= _ _ _ _ -> ->]. Qed.

Lemma books_note v1Resp p p2 n : books p n -> frame p2 = frame (noted_usage v1Resp p) ->
  usedTool p2 = usedTool p || existsb is_call (parts_of v1Resp) -> books (captured v1Resp p2) (note v1Resp n).
Proof.
  intros (Hm & Hh & Hc & Hq & Hg & Hu) Hf Hu2. unfold frame in Hf. injection Hf as _ _ Hf3 Hf4 Hf5 Hf6 Hf7 Hf8 Hf9 Hf10.
  assert (Hb : originalModel p2 = model /\ usageMapHook p2 = hook /\ webSearchQueries p2 = n_queries n /\ groundingChunks p2 = n_chunks n /\
    current_usage p2 = usage_of (match meta_of v1Resp with Some m => Some m | None => n_meta n end)).
  { unfold current_usage in *. rewrite Hf3, Hf4, Hf5, Hf6, Hf7, Hf8, Hf9, Hf10. unfold noted_usage. destruct (meta_of v1Resp) as [mt|]; done. }
  destruct Hb as (Hb1 & Hb2 & Hb3 & Hb4 & Hb5). split_and!; [done|done|done| | |]; cbn; congruence.
Qed.

Lemma rest_live v1Resp p m c n r c' r' : live p m c n -> collect (parts_of v1Resp) c r = (c', r') ->
  exists evts p' m', rest v1Resp (mkWorld p r) = (evts, mkWorld p' r') /\
  if finish_of v1Resp =s? "" then accepts client_step (body p, m) evts = Some (body p', m') /\ live p' m' c' (note v1Resp n)
  else accepts client_step (body p, m) evts = Some (AStop, m') /\ over p' /\ finished c' (note v1Resp n) (finish_of v1Resp) m'.
Proof.
  intros (Hst & Hsp & Hw & Hs & Hb) Hc. unfold rest. step (note_usage_run v1Resp p r).
  set (p1 := noted_usage v1Resp p). pose proof (noted_usage_blocks v1Resp p) as Hp1. fold p1 in Hp1.
  destruct (processParts_follows _ c' p1 r r' m c (same_blocks_streamed _ _ _ _ Hp1 Hs) Hc) as (e2 & p2 & m2 & E2 & Hl & H2 & Hf2 & Hu2).
  step E2. step (captureGrounding_run v1Resp p2 r'). set (p3 := captured v1Resp p2).
  pose proof (captured_blocks v1Resp p2) as Hp3. fold p3 in Hp3.
  destruct (same_blocks_body p1 p m Hp1) as [Hbp Hwp], (same_blocks_body p3 p2 m2 Hp3) as [Hbp3 Hwp3].
  destruct (Hl (Hwp Hw)) as [Ha Hw2]. rewrite Hbp in Ha. destruct (frame_sent _ _ Hf2) as [Hs1 Hs2].
  assert (Hlive : live p3 m2 c' (note v1Resp n)).
  { destruct (same_blocks_sent _ _ Hp1), (same_blocks_sent _ _ Hp3).
    split; [congruence|]. split; [congruence|]. split; [auto|]. split; [by apply (same_blocks_streamed _ p2), H2; apply captured_blocks|].
    apply books_note with p; [exact Hb | exact Hf2|]. rewrite Hu2. unfold p1, noted_usage. by destruct (meta_of v1Resp). }
  rewrite <- Hbp3 in Ha. destruct (finish_of v1Resp =s? "") eqn:Ef; cbn [negb].
  - exists e2, p3, m2. split; [|by split]. rewrite (st_bind_eq (mret []) _ (mkWorld p3 r') [] (mkWorld p3 r')) by done. by rewrite app_nil_r.
  - destruct (emitFinish_finishes (finish_of v1Resp) p3 r' m2 c' _ Hlive) as (e3 & p4 & m4 & E4 & Ha4 & Ho & Hfin). step E4.
    exists (e2 ++ e3)%list, p4, m4. split; [done|]. by rewrite accepts_app, Ha.
Qed.

(** ** Whole streams *)

(** A part that gives no event. *)
Definition silent (part : GeminiPart) : bool :=
  negb (is_call part) && (gp_Text part =s? "") && negb (gp_Thought part) &&
  match gp_InlineData part with Some d => gid_Data d =s? "" | None => true end.

Definition quiet (r : V1InternalResponse) : bool := (finish_of r =s? "") && forallb silent (parts_of r).

(** Nothing visible follows the finish reason. *)
Fixpoint disciplined (rs : list V1InternalResponse) : bool :=
  match rs with
  | [] => true
  | r :: rs => if finish_of r =s? "" then disciplined rs else forallb quiet rs
  end.

(** The reference, up to the finish reason. *)
Fixpoint summary (rs : list V1InternalResponse) (c : collected) (n : noted) : ST Rand (collected * noted * string) :=
  match rs with
  | [] => mret (c, n, "")
  | r :: rs =>
      c ← collect (parts_of r) c;
      if finish_of r =s? "" then summary rs c (note r n) else mret (c, note r n, finish_of r)
  end.

Fixpoint process_responses (rs : list V1InternalResponse) : M events :=
  match rs with
  | [] => mret []
  | r :: rs => e1 ← process_response r; e2 ← process_responses rs; mret (e1 ++ e2)%list
  end.

Lemma silent_parts parts p r : forallb silent parts = true -> processParts parts (mkWorld p r) = ([], mkWorld p r).
Proof.
  induction parts as [|part parts IH]; cbn [forallb processParts]; [done|]. intros [Hs Hr]%andb_true_iff.
  rewrite (st_bind_eq _ _ (mkWorld p r) [] (mkWorld p r)); [by step (IH Hr)|].
  unfold silent in Hs. rewrite !andb_true_iff, !negb_true_iff in Hs. destruct Hs as [[[Hc Ht] Hth] Hd]. unfold processPart, is_call in *.
  destruct (gp_FunctionCall part); [done|]. rewrite Ht, Hth. cbn [negb orb].
  destruct (gp_InlineData part) as [d|]; [rewrite Hd|]; done.
Qed.

Lemma quiet_response r p rnd : over p -> quiet r = true -> exists p', process_response r (mkWorld p rnd) = ([], mkWorld p' rnd) /\ over p'.
Proof.
  intros Ho Hq. apply andb_true_iff in Hq as [Hf Hp]. exists (captured r (noted_usage r p)).
  assert (Hov : over (captured r (noted_usage r p))).
  { pose proof (noted_usage_blocks r p) as H1. unfold same_blocks, over in *. injection H1 as E1 E2 E3 E4 E5 E6. cbn. by rewrite E1, E3, E4, E5, E6. }
  split; [|done]. apply (process_response_rest r _ [] (mkWorld p rnd) []).
  { unfold emitMessageStart. get p rnd. by rewrite (proj1 Ho). }
  unfold rest. step (note_usage_run r p rnd). step (silent_parts _ (noted_usage r p) rnd Hp). step (captureGrounding_run r (noted_usage r p) rnd).
  by rewrite Hf.
Qed.

Lemma quiet_responses rs p rnd : over p -> forallb quiet rs = true ->
  exists p', process_responses rs (mkWorld p rnd) = ([], mkWorld p' rnd) /\ over p'.
Proof.
  revert p. induction rs as [|r rs IH]; intros p Ho; cbn [forallb process_responses]; [by exists p|].
  intros [Hq Hr]%andb_true_iff. destruct (quiet_response r p rnd Ho Hq) as (p1 & E1 & Ho1). destruct (IH p1 Ho1 Hr) as (p2 & E2 & Ho2).
  exists p2. step E1. by step E2.
Qed.

Lemma finish_over p rnd : over p -> exists u, Finish (mkWorld p rnd) = (([], u), mkWorld p rnd).
Proof. intros (H1 & H2 & _). unfold Finish. get p rnd. rewrite H1, H2. by eexists. Qed.

(** The chunks after the first, and the end. *)
Lemma live_session rs p m c n rnd c' n' f rnd' : live p m c n -> disciplined rs = true -> summary rs c n rnd = ((c', n', f), rnd') ->
  exists e1 w1 e2 u p' m', process_responses rs (mkWorld p rnd) = (e1, w1) /\ Finish w1 = ((e2, u), mkWorld p' rnd') /\
  accepts client_step (body p, m) (e1 ++ e2) = Some (AStop, m') /\ finished c' n' f m'.
Proof.
  revert p m c n rnd. induction rs as [|r rs IH]; intros p m c n rnd Hl Hd Hs.
  - injection Hs as <- <- <- <-. destruct (emitFinish_finishes "" p rnd m c n Hl) as (e & p' & m' & E & Ha & Ho & Hf).
    exists [], (mkWorld p rnd), e. eexists _, p', m'. split; [done|]. split; [|by split].
    unfold Finish. get p rnd. destruct Hl as (-> & -> & _). cbn [negb]. by step E.
  - cbn [summary disciplined process_responses] in *. destruct (collect (parts_of r) c rnd) as [c1 rnd1] eqn:Ec. rewrite (st_bind_eq _ _ _ _ _ Ec) in Hs.
    destruct (rest_live r p m c n rnd c1 rnd1 Hl Ec) as (e & p1 & m1 & E & H1).
    assert (Er : process_response r (mkWorld p rnd) = (e, mkWorld p1 rnd1)).
    { apply (process_response_rest r _ [] (mkWorld p rnd) e); [|exact E]. unfold emitMessageStart. get p rnd. by rewrite (proj1 Hl). }
    step Er. destruct (finish_of r =s? "").
    + destruct H1 as [Ha Hl1]. destruct (IH p1 m1 c1 (note r n) rnd1 Hl1 Hd Hs) as (e1 & w1 & e2 & u & p' & m' & E1 & E2 & Ha2 & Hf). step E1.
      eexists _, w1, e2, u, p', m'. split; [reflexivity|]. split; [exact E2|]. split; [|done]. by rewrite <- app_assoc, accepts_app, Ha.
    + injection Hs as <- <- <- <-. destruct H1 as (Ha & Ho & Hf). destruct (quiet_responses rs p1 rnd1 Ho Hd) as (p2 & E2 & Ho2). step E2.
      destruct (finish_over p2 rnd1 Ho2) as [u Eu]. eexists _, _, [], u, p2, m1. split; [reflexivity|]. split; [exact Eu|]. by rewrite !app_nil_r.
Qed.
End Session.

(** ** From lines *)

Definition flip_run {A} (m : M A) (w : World) : World * A := let '(a, w') := m w in (w', a).

#[export] Instance antigravity_stream : StreamConverter World string sse_event := {|
  sc_step line w := flip_run (ProcessLine line) w;
  sc_finalize w := flip_run ('(e, _) ← Finish; mret e) w;
|}.

Definition chunks (lines : list string) : list V1InternalResponse := omap parse_line lines.

Lemma run_lines lines w : run lines w = flip_run (process_responses (chunks lines)) w.
Proof.
  revert w. induction lines as [|line lines IH]; intros w; cbn [run chunks omap list_omap]; [done|].
  cbn [sc_step antigravity_stream]. unfold ProcessLine. fold (chunks lines).
  change (list_omap _ _ parse_line lines) with (chunks lines). destruct (parse_line line) as [r|].
  - unfold flip_run. cbn [process_responses]. unfold mbind, st_bind. destruct (process_response r w) as [e1 w1]. rewrite IH. unfold flip_run.
    by destruct (process_responses (chunks lines) w1).
  - cbn. rewrite IH. by destruct (flip_run _ w).
Qed.

(** The first chunk starts the message. *)
Definition fresh (model : string) (hook : option UsageMapHook) : StreamingProcessor := SetUsageMapHook hook (NewStreamingProcessor model).

Definition named (i model : string) : message := no_message <| m_id := i |> <| m_model := model |>.

Lemma start_live model hook r rnd i rnd1 : response_id (vres_ResponseID r) (vres_Response r) rnd = (i, rnd1) ->
  exists e p, emitMessageStart r (mkWorld (fresh model hook) rnd) = (e, mkWorld p rnd1) /\
  accepts client_step (AStart, no_message) e = Some (body p, named i model) /\
  live model hook p (named i model) (mkCollected [] None) nothing_noted.
Proof.
  intros Hid. unfold emitMessageStart. get (fresh model hook) rnd. change (messageStartSent (fresh model hook)) with false. cbv iota.
  rewrite (st_bind_eq _ _ (mkWorld (fresh model hook) rnd) i (mkWorld (fresh model hook) rnd1)) by (unfold with_rand; cbn; by rewrite Hid).
  eexists _, (fresh model hook <| messageStartSent := true |>). split; [reflexivity|]. split; [reflexivity|]. done.
Qed.

Lemma session_finished model hook lines rnd r rs i rnd1 c n f rnd2 : chunks lines = r :: rs -> disciplined (r :: rs) = true ->
  response_id (vres_ResponseID r) (vres_Response r) rnd = (i, rnd1) ->
  summary (r :: rs) (mkCollected [] None) nothing_noted rnd1 = ((c, n, f), rnd2) ->
  exists evts w m, session lines (mkWorld (fresh model hook) rnd) = (w, evts) /\
    accepts client_step (AStart, no_message) evts = Some (AStop, m) /\ finished hook c n f m /\ m_id m = i /\ m_model m = model.
Proof.
  intros Hl Hd Hid Hs. destruct (start_live model hook r rnd i rnd1 Hid) as (e0 & p0 & E0 & Ha0 & H0).
  cbn [summary disciplined] in *. destruct (collect (parts_of r) (mkCollected [] None) rnd1) as [c1 rnd'] eqn:Ec. rewrite (st_bind_eq _ _ _ _ _ Ec) in Hs.
  destruct (rest_live model hook r p0 _ _ _ rnd1 c1 rnd' H0 Ec) as (e1 & p1 & m1 & E1 & H1).
  pose proof (process_response_rest r _ _ _ _ _ E0 E1) as Er. unfold session. rewrite run_lines, Hl. unfold flip_run. cbn [process_responses].
  step Er. cbn [sc_finalize antigravity_stream]. destruct (finish_of r =s? "").
  - destruct H1 as [Ha1 Hl1].
    destruct (live_session model hook rs p1 m1 c1 (note r nothing_noted) rnd' c n f rnd2 Hl1 Hd Hs) as (e2 & w2 & e3 & u & p' & m' & E2 & E3 & Ha2 & Hf).
    step E2. unfold mret, st_ret, flip_run. rewrite (st_bind_eq _ _ _ _ _ E3). eexists _, _, m'. split; [reflexivity|].
    assert (Ha : accepts client_step (body p0, named i model) (e1 ++ e2 ++ e3) = Some (AStop, m')) by (by rewrite accepts_app, Ha1).
    split; [rewrite <- !app_assoc, accepts_app, Ha0; exact Ha|]. split; [done|]. by destruct (accepts_named (body p0) _ _ _ _ ltac:(done) Ha) as [-> ->].
  - injection Hs as <- <- <- <-. destruct H1 as (Ha1 & Ho & Hf). destruct (quiet_responses rs p1 rnd' Ho Hd) as (p2 & E2 & Ho2). step E2.
    destruct (finish_over p2 rnd' Ho2) as [u Eu]. unfold mret, st_ret, flip_run. rewrite (st_bind_eq _ _ _ _ _ Eu). eexists _, _, m1. split; [reflexivity|].
    split; [rewrite !app_nil_r, accepts_app, Ha0; exact Ha1|]. split; [done|]. by destruct (accepts_named (body p0) _ _ _ _ ltac:(done) Ha1) as [-> ->].
Qed.

(** C26: A Gemini stream becomes a grammatical Claude stream.  Whatever the lines
    are, as long as nothing visible follows the finish reason, the events that
    are sent for them and at their end go from message_start to message_stop,
    with every block opened, filled with deltas of its type and closed in
    turn, whatever hook rewrites the usage; if no line is a chunk, nothing is
    sent. *)
Theorem gemini_stream_accepted model hook lines rnd : disciplined (chunks lines) = true ->
  let evts := snd (session lines (mkWorld (fresh model hook) rnd)) in
  if nonempty (chunks lines) then accepts anth_step AStart (map view evts) = Some AStop else evts = [].
Proof.
  intros Hd. cbv zeta. destruct (chunks lines) as [|r rs] eqn:El.
  - unfold session. rewrite run_lines, El. reflexivity.
  - destruct (response_id (vres_ResponseID r) (vres_Response r) rnd) as [i rnd1] eqn:Ei.
    destruct (summary (r :: rs) (mkCollected [] None) nothing_noted rnd1) as [[[c n] f] rnd2] eqn:Es.
    destruct (session_finished model hook lines rnd r rs i rnd1 c n f rnd2 El Hd Ei Es) as (evts & w & m & -> & Ha & _).
    by apply client_grammar in Ha.
Qed.

(** ** The buffered conversion *)

Definition item_block (item : ClaudeContentItem) : block :=
  if cci_Type item =s? "text" then BText (cci_Text item)
  else if cci_Type item =s? "thinking" then BThinking (cci_Thinking item) (cci_Signature item)
  else BTool (cci_ID item) (cci_Name item) (cci_Signature item)
         (if is_nil (cci_Input item) then "" else marshal_any (cci_Input item)).

Definition unflushed (text : string) : list block := if text =s? "" then [] else [BText text].

(** The processor has what the reference has. *)
Definition built (s : NonStreamingProcessor) (c : collected) : Prop :=
  nsp_trailingSignature s = "" /\ norm (map item_block (contentBlocks s) ++ unflushed (textBuilder s)) = norm (c_blocks c) /\
  match c_thinking c with
  | Some (t, sg) => thinkingBuilder s = t /\ thinkingSignature s = sg /\ textBuilder s = ""
  | None => thinkingBuilder s = "" /\ thinkingSignature s = ""
  end.

Definition has_image (part : GeminiPart) : bool := match gp_InlineData part with Some d => gid_Data d <>s? "" | None => false end.

(** No signed text follows an unsigned one: [open] says that the last block is
    an unsigned text that can still grow. *)
Fixpoint orderly (open : bool) (parts : list GeminiPart) : bool :=
  match parts with
  | [] => true
  | part :: parts =>
      if is_call part then orderly false parts
      else if gp_Thought part then orderly false parts
      else if gp_Text part =s? "" then orderly (open && negb (has_image part)) parts
      else if gp_ThoughtSignature part =s? "" then orderly (negb (has_image part)) parts
      else negb open && orderly false parts
  end.

Lemma norm_empty_thinking a : norm (a ++ [BThinking "" ""]) = norm a.
Proof. rewrite <- (app_nil_r a) at 2. by apply norm_app_r. Qed.

Lemma flushThinking_built s c : built s c -> let s' := flushThinking s in
  built s' (mkCollected (blocks_of c) None) /\ textBuilder s' = textBuilder s /\ hasToolCall s' = hasToolCall s.
Proof.
  destruct s as [cb tb th ts tr ht]. intros (Ht & Hn & Hth). cbn in Ht, Hn, Hth. unfold flushThinking, blocks_of in *. cbn.
  destruct (c_thinking c) as [[t sg]|]; [destruct Hth as (-> & -> & ->) | destruct Hth as (-> & ->); cbn; by rewrite app_nil_r].
  destruct ((t =s? "") && (sg =s? "")) eqn:E; cbn; (split; [|done]); (split; [done|]); cbn in *; rewrite app_nil_r in *.
  - apply andb_true_iff in E as [->%String.eqb_eq ->%String.eqb_eq]. by rewrite norm_empty_thinking.
  - rewrite map_app. split; [by apply norm_app_l | done].
Qed.

Lemma flushText_built s c : built s c -> built (flushText s) c /\ textBuilder (flushText s) = "" /\ hasToolCall (flushText s) = hasToolCall s.
Proof.
  destruct s as [cb tb th ts tr ht]. intros (Ht & Hn & Hth). cbn in Ht, Hn, Hth. subst tr. unfold flushText, unflushed in *. cbn.
  destruct (tb =s? "") eqn:E; cbn.
  - apply String.eqb_eq in E as ->. by split.
  - split; [|done]. split; [done|]. cbn. rewrite app_nil_r, map_app. split; [done|]. destruct (c_thinking c) as [[t sg]|]; [|done].
    destruct Hth as (_ & _ & ->). done.
Qed.

Lemma append_built item s c : built s c -> textBuilder s = "" -> c_thinking c = None ->
  built (append_block item s) (put (item_block item) c) /\ textBuilder (append_block item s) = "".
Proof.
  intros (Ht & Hn & Hth) Hx Hc. split; [|done]. split; [done|]. unfold put, append_block, blocks_of in *. cbn. rewrite Hx, Hc in *. cbn in *.
  rewrite !app_nil_r in *. split; [|done]. rewrite map_app. by apply norm_app_l.
Qed.

Lemma flushed s c : built s c -> let s' := flushText (flushThinking s) in
  built s' (mkCollected (blocks_of c) None) /\ textBuilder s' = "" /\ hasToolCall s' = hasToolCall s.
Proof.
  intros H. destruct (flushThinking_built s c H) as (H1 & _ & Hh1). destruct (flushText_built _ _ H1) as (H2 & Ht & Hh). cbv zeta. split_and!; try done. congruence.
Qed.

(** No signature waits in a [built] processor. *)
Lemma put_trailing_built before s c : built s c -> put_trailing before s = s.
Proof. intros (Ht & _). unfold put_trailing. by rewrite Ht. Qed.

Lemma process_thought_built text signature s c : built s c ->
  built (process_thought text signature s) (put_thought text signature c) /\ textBuilder (process_thought text signature s) = "" /\
  hasToolCall (process_thought text signature s) = hasToolCall s.
Proof.
  intros Hb. destruct (flushText_built s c Hb) as (H1 & Ht & Hh). unfold process_thought. rewrite (put_trailing_built _ _ c H1).
  unfold put_thought. destruct H1 as (Htr & Hn & Hth), (flushText s) as [cb tb th ts tr ht]. cbn in *. subst tb tr ht. cbn in Hn. rewrite app_nil_r in Hn.
  destruct (c_thinking c) as [[t sg]|]; cbn; [destruct Hth as (-> & -> & _) | destruct Hth as (-> & ->)];
    destruct (signature =s? ""); cbn; (split; [|done]); (split; [done|]); cbn; by rewrite app_nil_r.
Qed.

Lemma process_text_built text signature s c : built s c -> (text =s? "") = false -> (signature =s? "") = true \/ textBuilder s = "" ->
  built (process_text text signature s) (put_text text signature c) /\ hasToolCall (process_text text signature s) = hasToolCall s /\
  ((signature =s? "") = false -> textBuilder (process_text text signature s) = "").
Proof.
  intros Hb Hx Hs. pose proof Hb as (Htr & _). unfold process_text, put_text.
  destruct (flushThinking_built s c Hb) as (H1 & Ht1 & Hh1). rewrite (put_trailing_built _ _ _ H1). destruct (signature =s? "") eqn:Es.
  - split; [|by split]. destruct H1 as (Htr1 & Hn & Hth), (flushThinking s) as [cb tb th ts tr ht]. cbn in *. destruct Hth as (-> & ->).
    split; [done|]. cbn. split; [|done]. unfold put, unflushed in *. cbn in *.
    replace (tb +:+ text =s? "") with false by (symmetry; by destruct tb). destruct (tb =s? "") eqn:E.
    + apply String.eqb_eq in E as ->. rewrite app_nil_r in Hn. by apply norm_app_l.
    + rewrite norm_texts. change [BText tb; BText text] with ([BText tb] ++ [BText text]). rewrite app_assoc. by apply norm_app_l.
  - destruct Hs as [?|Hs]; [done|]. destruct (append_built (text_item text) _ _ H1 ltac:(congruence) eq_refl) as (H2 & Ht2).
    destruct (append_built (thinking_item "" signature) _ _ H2 Ht2 eq_refl) as (H3 & Ht3). rewrite put_flush in H3. by split_and!.
Qed.

Lemma process_image_built data s c : built s c ->
  built (process_image data s) (put_image data c) /\ hasToolCall (process_image data s) = hasToolCall s /\
  (textBuilder s = "" \/ (match data with Some d => gid_Data d <>s? "" | None => false end) = true -> textBuilder (process_image data s) = "").
Proof.
  intros Hb. destruct data as [d|]; cbn; [|by split_and!; intuition]. destruct (gid_Data d =s? ""); [by split_and!; intuition|]. cbn.
  pose proof (process_text_built (image_markdown d) "" s c Hb eq_refl (or_introl eq_refl)) as (H & Hh & _). unfold process_text in H, Hh.
  destruct (flushThinking_built s c Hb) as (H1 & _). rewrite (put_trailing_built _ _ _ H1) in H, Hh.
  destruct (flushText_built _ _ H) as (H2 & Ht & Hh2). split_and!; [exact H2 | by etransitivity | done].
Qed.

Lemma process_call_built fc signature toolID s c r r' : built s c -> tool_id fc r = (toolID, r') ->
  exists s', process_call fc signature s r = (s', r') /\ built s' (put (BTool toolID (gfc_Name fc) signature (call_input fc)) c) /\
    textBuilder s' = "" /\ hasToolCall s' = true.
Proof.
  intros Hb Hid. destruct (flushed s c Hb) as (H1 & Ht & _). unfold process_call. rewrite (put_trailing_built _ _ _ H1).
  set (s1 := flushText (flushThinking s) <| hasToolCall := true |>). assert (H2 : built s1 (mkCollected (blocks_of c) None)) by exact H1.
  rewrite (st_bind_eq _ _ _ _ _ Hid). eexists. split; [reflexivity|].
  set (item := zero_ClaudeContentItem <| cci_Type := _ |> <| cci_ID := _ |> <| cci_Name := _ |> <| cci_Input := _ |> <| cci_Signature := _ |>).
  destruct (append_built item s1 _ H2 Ht eq_refl) as (H3 & Ht3). rewrite put_flush in H3. by split_and!.
Qed.

Lemma part_built open part parts s c r c' r' : built s c -> (open = false -> textBuilder s = "") -> orderly open (part :: parts) = true ->
  collect_part part c r = (c', r') ->
  exists s' open', NonStreaming_processPart part s r = (s', r') /\ built s' c' /\ (open' = false -> textBuilder s' = "") /\
    orderly open' parts = true /\ hasToolCall s' = hasToolCall s || is_call part.
Proof.
  intros Hb Hopen Ho Hc. cbn [orderly] in Ho. unfold NonStreaming_processPart, collect_part, is_call, has_image in *.
  destruct (gp_FunctionCall part) as [fc|]; cbn [is_some] in *.
  { destruct (tool_id fc r) as [toolID r1] eqn:Eid. rewrite (st_bind_eq _ _ _ _ _ Eid) in Hc. injection Hc as <- <-.
    destruct (process_call_built fc (gp_ThoughtSignature part) toolID s c r r1 Hb Eid) as (s' & E & H & Ht & Hu). exists s', false.
    rewrite orb_true_r. by split_and!. }
  injection Hc as <- <-. rewrite orb_false_r. destruct (gp_Thought part); [rewrite orb_true_r|rewrite orb_false_r].
  - destruct (process_thought_built (gp_Text part) (gp_ThoughtSignature part) s c Hb) as (H1 & Ht1 & Hh1).
    destruct (process_image_built (gp_InlineData part) _ _ H1) as (H2 & Hh2 & Ht2). eexists _, false. split; [reflexivity|].
    split_and!; [done | intros _; auto | done | congruence].
  - destruct (gp_Text part =s? "") eqn:Et; cbn [negb].
    + destruct (process_image_built (gp_InlineData part) _ _ Hb) as (H2 & Hh2 & Ht2). eexists _, _. split; [reflexivity|].
      split_and!; [done | | exact Ho | congruence]. intros [Hop|Hop%negb_false_iff]%andb_false_iff; auto.
    + assert (Hs : (gp_ThoughtSignature part =s? "") = true \/ textBuilder s = "").
      { destruct (gp_ThoughtSignature part =s? ""); [by left|]. right. apply andb_true_iff in Ho as [Ho%negb_true_iff _]. auto. }
      destruct (process_text_built (gp_Text part) (gp_ThoughtSignature part) s c Hb Et Hs) as (H1 & Hh1 & Ht1).
      destruct (process_image_built (gp_InlineData part) _ _ H1) as (H2 & Hh2 & Ht2).
      destruct (gp_ThoughtSignature part =s? ""); [|apply andb_true_iff in Ho as [_ Ho]]; eexists _, _; (split; [reflexivity|]);
        (split_and!; [done | | exact Ho | congruence]); [intros Hop%negb_false_iff; auto | intros _; auto].
Qed.

Lemma parts_built open parts s c r c' r' : built s c -> (open = false -> textBuilder s = "") -> orderly open parts = true ->
  collect parts c r = (c', r') ->
  exists s', process_parts parts s r = (s', r') /\ built s' c' /\ hasToolCall s' = hasToolCall s || existsb is_call parts.
Proof.
  revert open s c r. induction parts as [|part parts IH]; intros open s c r Hb Hopen Ho Hc; cbn [collect process_parts existsb] in *.
  - injection Hc as <- <-. exists s. by rewrite orb_false_r.
  - destruct (collect_part part c r) as [c1 r1] eqn:E. rewrite (st_bind_eq _ _ _ _ _ E) in Hc.
    destruct (part_built open part parts s c r c1 r1 Hb Hopen Ho E) as (s1 & open1 & E1 & H1 & Hop1 & Ho1 & Hh1). step E1.
    destruct (IH open1 s1 c1 r1 H1 Hop1 Ho1 Hc) as (s' & E2 & H2 & Hh2). exists s'. split; [done|]. split; [done|]. by rewrite Hh2, Hh1, orb_assoc.
Qed.

(** ** The same message *)

(** The chunks up to the finish reason. *)
Fixpoint upto (rs : list V1InternalResponse) : list V1InternalResponse :=
  match rs with
  | [] => []
  | r :: rs => r :: (if finish_of r =s? "" then upto rs else [])
  end.

(** The response that the chunks are parts of. *)
Definition whole (rs : list V1InternalResponse) : V1InternalResponse :=
  let n := foldl (fun n r => note r n) nothing_noted (upto rs) in
  let first := hd zero_V1InternalResponse rs in
  zero_V1InternalResponse <| vres_ResponseID := vres_ResponseID first |> <| vres_Response :=
    zero_GeminiResponse <| gres_ResponseID := gres_ResponseID (vres_Response first) |> <| gres_UsageMetadata := n_meta n |>
      <| gres_Candidates := [zero_GeminiCandidate
           <| gca_Content := Some (zero_GeminiContent <| gc_Parts := concat (parts_of <$> upto rs) |>) |>
           <| gca_FinishReason := default "" (finish_of <$> last (upto rs)) |>
           <| gca_GroundingMetadata := Some (mkGeminiGroundingMetadata (n_queries n) (n_chunks n)) |>] |> |>.

Lemma collect_app a b c r : collect (a ++ b) c r = (c ← collect a c; collect b c) r.
Proof.
  revert c r. induction a as [|part a IH]; intros c r; cbn [app collect]; [done|]. unfold mbind, st_bind. destruct (collect_part part c r) as [c1 r1].
  rewrite IH. unfold mbind, st_bind. by destruct (collect a c1 r1).
Qed.

Lemma summary_upto rs c n r c' n' f r' : summary rs c n r = ((c', n', f), r') ->
  collect (concat (parts_of <$> upto rs)) c r = (c', r') /\ n' = foldl (fun n r => note r n) n (upto rs) /\
  f = default "" (finish_of <$> last (upto rs)).
Proof.
  revert c n r. induction rs as [|x rs IH]; intros c n r; cbn [summary upto fmap list_fmap concat foldl]; [by intros [= <- <- <- <-]|].
  intros H. rewrite collect_app. destruct (collect (parts_of x) c r) as [c1 r1] eqn:E. rewrite (st_bind_eq _ _ _ _ _ E) in H. step E.
  destruct (finish_of x =s? "") eqn:Ef; [|injection H as <- <- <- <-; done]. apply IH in H as (H1 & -> & ->). split; [exact H1|]. split; [done|].
  destruct (upto rs) as [|y l] eqn:El; [|done]. cbn. symmetry. by apply String.eqb_eq.
Qed.

Lemma n_used_fold l n : n_used (foldl (fun n r => note r n) n l) = n_used n || existsb is_call (concat (parts_of <$> l)).
Proof.
  revert n. induction l as [|x l IH]; intros n; cbn; [by rewrite orb_false_r|]. rewrite IH. cbn. by rewrite existsb_app, orb_assoc.
Qed.

Lemma processGrounding_built n s c : built s c ->
  let s' := flushText (flushThinking (processGrounding (mkGeminiGroundingMetadata (n_queries n) (n_chunks n)) s)) in
  norm (map item_block (contentBlocks s')) = norm (blocks_of c ++ grounding_block n) /\ nsp_trailingSignature s' = "" /\ hasToolCall s' = hasToolCall s.
Proof.
  intros Hb. cbv zeta. unfold processGrounding, grounding_block. destruct (buildGroundingText _ =s? "") eqn:E.
  - destruct (flushed s c Hb) as ((Ht & Hn & _) & Hx & Hh). rewrite Hx in Hn. unfold unflushed in Hn. cbn in Hn. rewrite !app_nil_r in *. done.
  - destruct (flushed s c Hb) as (H1 & Hx & Hh). set (s1 := flushText (flushThinking s)) in *.
    set (text := buildGroundingText _) in *. rewrite Hx.
    destruct H1 as (Ht & Hn & Hth1 & Hth2), s1 as [cb tb th ts tr ht]. cbn in *. subst. unfold flushText. cbn. rewrite E. cbn.
    split; [|done]. rewrite map_app. cbn. unfold unflushed in Hn. cbn in Hn. rewrite app_nil_r in Hn. by apply norm_app_l.
Qed.

Lemma process_whole rs model c n f rnd rnd' i : summary rs (mkCollected [] None) nothing_noted rnd = ((c, n, f), rnd') ->
  orderly false (concat (parts_of <$> upto rs)) = true ->
  response_id (vres_ResponseID (whole rs)) (vres_Response (whole rs)) rnd' = (i, rnd') ->
  exists resp, Process (vres_Response (whole rs)) (vres_ResponseID (whole rs)) model rnd = (resp, rnd') /\
    crs_ID resp = i /\ crs_Model resp = model /\ norm (map item_block (crs_Content resp)) = norm (blocks_of c ++ grounding_block n) /\
    crs_StopReason resp = claude_stop_reason (n_used n) f /\ crs_Usage resp = usage_of (n_meta n).
Proof.
  intros Hs Ho Hid. apply summary_upto in Hs as (Hc & -> & ->). set (n := foldl _ _ _).
  assert (Hu : n_used n = existsb is_call (concat (parts_of <$> upto rs))) by (unfold n; by rewrite n_used_fold).
  assert (H0 : built NewNonStreamingProcessor (mkCollected [] None)) by done.
  destruct (parts_built false _ NewNonStreamingProcessor _ rnd _ _ H0 ltac:(done) Ho Hc) as (s & E & Hb & Hh). unfold Process.
  rewrite (st_bind_eq (process_parts (candidate_parts (vres_Response (whole rs))) NewNonStreamingProcessor) _ rnd s rnd' E).
  destruct (processGrounding_built n s c Hb) as (Hn & Ht & Hh2). cbv zeta. change (candidate_grounding (vres_Response (whole rs)))
    with (Some (mkGeminiGroundingMetadata (n_queries n) (n_chunks n))). cbv iota. set (s' := flushText _) in *. rewrite Ht. cbn [String.eqb].
  unfold buildResponse. rewrite (st_bind_eq _ _ _ _ _ Hid). eexists. split; [reflexivity|]. cbn. split_and!; try done.
  rewrite Hh2, Hh, Hu. reflexivity.
Qed.

(** The response has an identifier of its own. *)
Definition identified (r : V1InternalResponse) : bool := (vres_ResponseID r <>s? "") || (gres_ResponseID (vres_Response r) <>s? "").

Lemma identified_id r i' rnd rnd1 : identified r = true -> response_id (vres_ResponseID r) (vres_Response r) rnd = (i', rnd1) ->
  rnd1 = rnd /\ forall r', response_id (vres_ResponseID r) (vres_Response r) r' = (i', r').
Proof.
  unfold identified, response_id. destruct (vres_ResponseID r <>s? ""); cbn; [by intros _ [= <- <-]|].
  destruct (gres_ResponseID (vres_Response r) <>s? ""); [by intros _ [= <- <-] | done].
Qed.

(** C27: The stream says what the buffered conversion says.  When the first
    chunk of a stream names the response, nothing visible follows the finish
    reason, no signed text follows an unsigned one and no usage hook is set, a
    client that collects
    the events ends with the identifier, model, content, stop reason and usage
    that the buffered conversion gives for the whole response, up to texts that
    are cut and thinking blocks that are empty. *)
Theorem gemini_stream_is_buffered model lines rnd :
  let rs := chunks lines in
  let evts := snd (session lines (mkWorld (fresh model None) rnd)) in
  let resp := fst (Process (vres_Response (whole rs)) (vres_ResponseID (whole rs)) model rnd) in
  nonempty rs = true -> identified (whole rs) = true -> disciplined rs = true -> orderly false (concat (parts_of <$> upto rs)) = true ->
  exists m, accepts client_step (AStart, no_message) evts = Some (AStop, m) /\
    (m_id m, m_model m, m_open m, m_stop_reason m, m_usage m) =
      (crs_ID resp, crs_Model resp, None, crs_StopReason resp, usage_struct (crs_Usage resp)) /\
    norm (m_closed m) = norm (map item_block (crs_Content resp)).
Proof.
  cbv zeta. intros Hne Hi Hd Ho. destruct (chunks lines) as [|r rs] eqn:El; [done|].
  destruct (response_id (vres_ResponseID r) (vres_Response r) rnd) as [i rnd1] eqn:Ei.
  assert (Hi' : identified r = true) by exact Hi. destruct (identified_id r i rnd rnd1 Hi' Ei) as [-> Hall].
  destruct (summary (r :: rs) (mkCollected [] None) nothing_noted rnd) as [[[c n] f] rnd2] eqn:Es.
  destruct (session_finished model None lines rnd r rs i rnd c n f rnd2 El Hd Ei Es) as (evts & w & m & -> & Ha & (Hn & Hop & Hst & Hus) & Hid & Hm).
  destruct (process_whole (r :: rs) model c n f rnd rnd2 i Es Ho (Hall rnd2)) as (resp & -> & <- & <- & Hc & Hs & Hu).
  exists m. cbn [fst snd]. split; [done|]. split; [|congruence]. rewrite Hid, Hm, Hop, Hst, Hus, Hs, Hu. reflexivity.
Qed.

(** ** What the conversions lose *)

Definition text_part (text signature : string) : GeminiPart := zero_GeminiPart <| gp_Text := text |> <| gp_ThoughtSignature := signature |>.

Lemma text_part_run text signature s r : (text =s? "") = false ->
  NonStreaming_processPart (text_part text signature) s r = (process_text text signature s, r).
Proof. intros H. unfold NonStreaming_processPart. cbn -[String.eqb process_text]. by rewrite H. Qed.

(** A signed text overtakes an unsigned one.  In the buffered conversion a
    text that carries a signature becomes a block at once, while the unsigned
    text before it is still being collected: the answer has them in the wrong
    order.  The stream keeps the order. *)
Theorem signed_text_overtakes t1 t2 signature resp model rnd : t1 <> "" -> t2 <> "" -> signature <> "" ->
  candidate_parts resp = [text_part t1 ""; text_part t2 signature] -> candidate_grounding resp = None ->
  crs_Content (fst (Process resp "id" model rnd)) = [text_item t2; thinking_item "" signature; text_item t1] /\
  fst (collect (candidate_parts resp) (mkCollected [] None) rnd) = mkCollected [BText t1; BText t2; BThinking "" signature] None.
Proof.
  intros H1%String.eqb_neq H2%String.eqb_neq Hs%String.eqb_neq Hp Hg. split.
  - unfold Process. rewrite Hp, Hg. cbn [process_parts].
    assert (E : process_text t2 signature (process_text t1 "" NewNonStreamingProcessor) =
      mkNonStreamingProcessor [text_item t2; thinking_item "" signature] t1 "" "" "" false) by (unfold process_text at 1; by rewrite Hs).
    assert (Er : (p ← NonStreaming_processPart (text_part t1 "") NewNonStreamingProcessor; p ← NonStreaming_processPart (text_part t2 signature) p; mret p) rnd =
      (mkNonStreamingProcessor [text_item t2; thinking_item "" signature] t1 "" "" "" false, rnd)).
    { rewrite (st_bind_eq _ _ _ _ _ (text_part_run t1 "" _ rnd H1)), (st_bind_eq _ _ _ _ _ (text_part_run t2 signature _ rnd H2)). by rewrite E. }
    rewrite (st_bind_eq _ _ _ _ _ Er). assert (Ef : flushText (flushThinking (mkNonStreamingProcessor [text_item t2; thinking_item "" signature] t1 "" "" "" false)) =
      mkNonStreamingProcessor [text_item t2; thinking_item "" signature; text_item t1] "" "" "" "" false).
    { unfold flushText, flushThinking. cbn. by rewrite H1. }
    rewrite Ef. reflexivity.
  - rewrite Hp. unfold collect, collect_part, put_text, mbind, st_bind. cbn. rewrite H1, H2. cbn. rewrite Hs. done.
Qed.

(** A signature of its own is lost.  A part that has a signature and an
    empty text, as the last part of an answer may have, leaves both processors
    as they are: the guard ahead of the branch that would keep the signature
    wants a text or a thought. *)
Theorem lone_signature_lost signature p r s :
  processPart (text_part "" signature) (mkWorld p r) = ([], mkWorld p r) /\ NonStreaming_processPart (text_part "" signature) s r = (s, r).
Proof. done. Qed.

Lemma emitFinish_sends finish w : fst (emitFinish finish w) <> [].
Proof.
  unfold emitFinish, mbind, st_bind. destruct (endBlock w) as [e1 w1], (emit_trailing w1) as [e2 w2], (emit_grounding w2) as [e3 w3].
  destruct (get_proc w3) as [p w4], (message_stop w4) as [e5 w5]. cbn. intros H. apply app_eq_nil in H as [_ H]. apply app_eq_nil in H as [_ H].
  by apply app_eq_nil in H as [_ H].
Qed.

(** A second finish reason breaks the stream.  A chunk with a finish reason
    that comes when the message has already been stopped is answered with
    events again, at least a message_delta, which no client accepts after
    message_stop: only message_stop itself is guarded. *)
Theorem second_finish_rejected r p rnd m : finish_of r <> "" ->
  let evts := fst (process_response r (mkWorld p rnd)) in evts <> [] /\ accepts client_step (AStop, m) evts = None.
Proof.
  intros Hf%String.eqb_neq. cbv zeta. assert (Hn : fst (process_response r (mkWorld p rnd)) <> []).
  { unfold process_response, mbind, st_bind. destruct (emitMessageStart r (mkWorld p rnd)) as [e1 w1], (note_usage _ w1) as [? w2].
    destruct (processParts _ w2) as [e2 w3], (captureGrounding _ w3) as [? w4]. unfold finish_of in Hf. rewrite Hf. cbn [negb].
    pose proof (emitFinish_sends (candidate_finish (vres_Response r)) w4) as H. destruct (emitFinish _ w4) as [e3 w5]. cbn in *.
    intros He. apply app_eq_nil in He as [_ He]. by apply app_eq_nil in He as [_ ->]. }
  split; [exact Hn|]. by destruct (fst _) as [|e es].
Qed.

(** ** Examples *)

Definition no_rand : Rand := mkRand (fun _ => "") 0.

Definition a_stream : list string :=
  [dq "data: {'response':{'candidates':[{'content':{'parts':[{'text':'hm','thought':true,'thoughtSignature':'s1'},{'text':'he'}]}}]},'responseId':'r1'}";
   ": keep-alive";
   dq "data: {'response':{'candidates':[{'content':{'parts':[{'text':'llo'},{'functionCall':{'name':'f','args':{'a':1},'id':'c1'}}]},'finishReason':'STOP'}],'usageMetadata':{'promptTokenCount':7,'candidatesTokenCount':3,'cachedContentTokenCount':2}},'responseId':'r1'}";
   "data: [DONE]"].

Lemma gemini_stream_accepted_witness : disciplined (chunks a_stream) = true /\
  accepts anth_step AStart (map view (snd (session a_stream (mkWorld (fresh "claude" None) no_rand)))) = Some AStop.
Proof.
  assert (Hd : disciplined (chunks a_stream) = true) by by vm_compute. split; [exact Hd|].
  pose proof (gemini_stream_accepted "claude" None a_stream no_rand Hd) as H. cbv zeta in H.
  assert (E : nonempty (chunks a_stream) = true) by by vm_compute. rewrite E in H. exact H.
Defined.

Lemma gemini_stream_is_buffered_witness : exists m,
  accepts client_step (AStart, no_message) (snd (session a_stream (mkWorld (fresh "claude" None) no_rand))) = Some (AStop, m) /\
  norm (m_closed m) = [BThinking "hm" "s1"; BText "hello"; BTool "c1" "f" "" (dq "{'a':1}")] /\ m_stop_reason m = "tool_use".
Proof.
  destruct (gemini_stream_is_buffered "claude" a_stream no_rand) as (m & Ha & Hm & Hn); [by vm_compute..|]. exists m.
  split; [exact Ha|]. rewrite Hn. split; [by vm_compute|]. etransitivity; [exact (f_equal (fun x => snd (fst x)) Hm) | by vm_compute].
Defined.

Lemma signed_text_overtakes_witness :
  crs_Content (fst (Process (zero_GeminiResponse <| gres_Candidates :=
      [zero_GeminiCandidate <| gca_Content := Some (zero_GeminiContent <| gc_Parts := [text_part "a" ""; text_part "b" "s"] |>) |>] |>)
    "id" "claude" no_rand)) = [text_item "b"; thinking_item "" "s"; text_item "a"].
Proof. by refine (proj1 (signed_text_overtakes "a" "b" "s" _ "claude" no_rand _ _ _ _ _)). Defined.

Lemma second_finish_rejected_witness : accepts client_step (AStop, no_message)
  (fst (process_response (whole (chunks a_stream)) (mkWorld (fresh "claude" None <| messageStartSent := true |> <| messageStopSent := true |>) no_rand))) = None.
Proof.
  assert (H : finish_of (whole (chunks a_stream)) <> "") by (by vm_compute).
  exact (proj2 (second_finish_rejected (whole (chunks a_stream)) _ no_rand no_message H)).
Defined.
