(* ===== verification/SchemaCleaner.v ===== *)
(** * Cleaning tool schemas (pkg/antigravity/schema_cleaner.go)

    A tool's JSON schema is turned into what Gemini accepts: references are
    expanded, [allOf] and unions merged, constraints moved into descriptions and
    other keywords removed.  The code changes the maps it is given; a decoded
    document is a tree, none of whose maps is shared, so that a function returns
    the changed map here.  A nil slice is not told from an empty one. *)

From S2P Require Import Prelude GoStrings Json AnyJson GeminiTypes.
From S2P Require LogRedact.

(** ** Maps *)

Definition delete_member (key : string) (m : any_map) : any_map := List.filter (fun kv => fst kv <>s? key) m.

Definition hasKey (m : any_map) (k : string) : bool := is_some (member_of k m).

(** [m[k].(string)], and with the zero value when it is not one. *)
Definition string_member (key : string) (m : any_map) : string := default "" (member_of key m ≫= as_string).
Definition map_member (key : string) (m : any_map) : option any_map := member_of key m ≫= as_map.
Definition array_member (key : string) (m : any_map) : option (list any) := member_of key m ≫= as_array.

(** Every member is put, or those whose key is not there. *)
Definition put_all (src dst : any_map) : any_map := foldl (fun m '(k, v) => set_member k v m) dst src.
Definition put_missing (src dst : any_map) : any_map :=
  foldl (fun m '(k, v) => if hasKey m k then m else set_member k v m) dst src.

Fixpoint deepCopy (src : any) : any :=
  match src with
  | AMap m => AMap (map (fun '(k, v) => (k, deepCopy v)) m)
  | AArr l => AArr (map deepCopy l)
  | _ => src
  end.

(** ** Printing with [%v] *)

(** [%g]: the exponent from six digits on and below 1e-4, with two digits. *)
Definition sprint_digits (m e : Z) : string :=
  if m =? 0 then "0" else
  let '(c, x) := shortest_decimal m e in
  let '(c, x) := strip_zeros 17 c x in
  let ds := pretty c in
  let k := Z.of_nat (String.length ds) + x in
  if (k - 1 <? -4) || (6 <=? k - 1) then
    let '(a, b) := split_at 1 ds in
    let ex := pretty (Z.abs (k - 1)) in
    a +:+ (if b =s? "" then "" else "." +:+ b) +:+ "e" +:+ (if k - 1 <? 0 then "-" else "+") +:+
      (if (String.length ex =? 1)%nat then "0" else "") +:+ ex
  else fixed_notation ds k.

Definition sprint_number (lit : string) : string :=
  match cut_prefix lit "-" with
  | Some abs => match parse_float64 abs with Some (m, e) => "-" +:+ sprint_digits m e | None => lit end
  | None => match parse_float64 lit with Some (m, e) => sprint_digits m e | None => lit end
  end.

Fixpoint sprint (v : any) : string :=
  match v with
  | ANil => "<nil>"
  | ABool b => if b then "true" else "false"
  | ANum lit => sprint_number lit
  | AStr s => s
  | AArr l => "[" +:+ join (map sprint l) " " +:+ "]"
  | AMap m => "map[" +:+ join (map (fun '(k, v) => k +:+ ":" +:+ sprint v) m) " " +:+ "]"
  end.

Example sprint_examples : map sprint_number ["100"; "1000000"; "0.5"; "-0.00001"; "123456"; "1234567"] =
  ["100"; "1e+06"; "0.5"; "-1e-05"; "123456"; "1.234567e+06"].
Proof. vm_compute. reflexivity. Qed.

(** ** References *)

(** The definitions, and the schema without them. *)
Definition extractDefs (schema : any_map) : any_map * any_map :=
  let '(defs, schema) :=
    match map_member "$defs" schema with
    | Some d => (put_all d [], delete_member "$defs" schema)
    | None => ([], schema)
    end in
  match map_member "definitions" schema with
  | Some d => (put_all d defs, delete_member "definitions" schema)
  | None => (defs, schema)
  end.

(** What follows the last slash. *)
Definition ref_name (ref : string) : string := default "" (last (split_byte "/" ref)).

(** [None]: the calls are nested deeper than [fuel]. *)
Definition flatten_item (flatten : any_map -> option any_map) (v : any) : option any :=
  match v with AMap m => AMap <$> flatten m | _ => Some v end.

Definition flatten_child (flatten : any_map -> option any_map) (kv : string * any) : option (string * any) :=
  (fun v => (fst kv, v)) <$>
  match snd kv with
  | AArr l => AArr <$> mapM (flatten_item flatten) l
  | v => flatten_item flatten v
  end.

Fixpoint flattenRefs (fuel : nat) (defs schema : any_map) : option any_map :=
  match fuel with
  | O => None
  | S fuel =>
      if (length defs =? 0)%nat then Some schema else
      schema ← match member_of "$ref" schema with
               | Some (AStr ref) =>
                   let schema := delete_member "$ref" schema in
                   match map_member (ref_name ref) defs with
                   | Some defMap => flattenRefs fuel defs (put_missing (map (fun '(k, v) => (k, deepCopy v)) defMap) schema)
                   | None => Some schema
                   end
               | _ => Some schema
               end;
      mapM (flatten_child (flattenRefs fuel defs)) schema
  end.

(** ** What the recursive calls return *)

Inductive cleaning (A : Type) : Type :=
| Cleaned (a : A)
| Panicked        (* comparing values of an uncomparable type *)
| TooDeep.        (* the calls are nested deeper than the fuel *)
Arguments Cleaned {A} a.
Arguments Panicked {A}.
Arguments TooDeep {A}.

#[export] Instance cleaning_ret : MRet cleaning := fun A a => Cleaned a.
#[export] Instance cleaning_bind : MBind cleaning := fun A B f r =>
  match r with Cleaned a => f a | Panicked => Panicked | TooDeep => TooDeep end.

(** ** Merging *)

Section Cleaning.

(** The order in which a Go map gives its keys. *)
Context (key_order : list string -> list string).

Definition strings_of (l : list any) : list string := omap as_string l.
Definition add_key (l : list string) (s : string) : list string := if in_list s l then l else l ++ [s].

Definition allOf_props (subs : list any_map) : any_map :=
  foldl (fun acc sub => match map_member "properties" sub with Some props => put_all props acc | None => acc end) [] subs.
Definition allOf_required (subs : list any_map) : list string :=
  foldl (fun acc sub => foldl add_key acc (strings_of (default [] (array_member "required" sub)))) [] subs.
Definition allOf_others (subs : list any_map) : any_map :=
  foldl (fun acc sub => put_missing (List.filter (fun kv => negb (in_list (fst kv) ["properties"; "required"; "allOf"])) sub) acc) [] subs.

Definition mergeAllOf (m : any_map) : any_map :=
  match array_member "allOf" m with
  | None => m
  | Some allOf =>
      let m := delete_member "allOf" m in
      let subs := omap as_map allOf in
      let mergedProps := allOf_props subs in
      let mergedReq := allOf_required subs in
      let m := put_missing (allOf_others subs) m in
      let m := if (0 <? length mergedProps)%nat
               then set_member "properties" (AMap (put_missing mergedProps (default [] (map_member "properties" m)))) m else m in
      if (0 <? length mergedReq)%nat then
        let existReq := strings_of (default [] (array_member "required" m)) in
        let added := key_order (List.filter (fun r => negb (in_list r existReq)) mergedReq) in
        set_member "required" (AArr (map AStr (existReq ++ added))) m
      else m
  end.

Definition scoreSchemaOption (val : any) : Z :=
  match val with
  | AMap m =>
      let typeStr := string_member "type" m in
      if hasKey m "properties" || (typeStr =s? "object") then 3
      else if hasKey m "items" || (typeStr =s? "array") then 2
      else if (typeStr <>s? "") && (typeStr <>s? "null") then 1 else 0
  | _ => 0
  end.

Definition extractBestSchemaFromUnion (unionArray : list any) : any :=
  fst (foldl (fun '(best, bestScore) item =>
                let score := scoreSchemaOption item in
                if bestScore <? score then (item, score) else (best, bestScore)) (ANil, -1) unionArray).

(** [tr == rv] of two interfaces; [None]: it panics. *)
Definition zero_literal (lit : string) : bool := in_list lit ["0"; "-0"].
Definition any_equal (a b : any) : option bool :=
  match a, b with
  | ANil, ANil => Some true
  | ABool x, ABool y => Some (Bool.eqb x y)
  | ANum x, ANum y => Some ((x =s? y) || (zero_literal x && zero_literal y))
  | AStr x, AStr y => Some (x =s? y)
  | AArr _, AArr _ | AMap _, AMap _ => None
  | _, _ => Some false
  end.

Fixpoint any_member (v : any) (l : list any) : cleaning bool :=
  match l with
  | [] => mret false
  | tr :: l => match any_equal tr v with
               | None => Panicked
               | Some true => mret true
               | Some false => any_member v l
               end
  end.

Fixpoint add_required (targetReq sourceReq : list any) : cleaning (list any) :=
  match sourceReq with
  | [] => mret targetReq
  | rv :: sourceReq => found ← any_member rv targetReq; add_required (if found : bool then targetReq else targetReq ++ [rv]) sourceReq
  end.

Definition merge_branch_member (m : any_map) (k : string) (v : any) : cleaning any_map :=
  if k =s? "properties" then
    let targetProps := default [] (map_member "properties" m) in
    mret (set_member "properties" (AMap (match v with
                                         | AMap sourceProps => put_missing (map (fun '(k, v) => (k, deepCopy v)) sourceProps) targetProps
                                         | _ => targetProps end)) m)
  else if k =s? "required" then
    match v with
    | AArr sourceReq =>
        targetReq ← add_required (default [] (array_member "required" m)) sourceReq;
        mret (set_member "required" (AArr targetReq) m)
    | _ => mret m
    end
  else mret (if hasKey m k then m else set_member k (deepCopy v) m).

(** A range over the map: every key, with its value. *)
Fixpoint merge_branch (bestMap : any_map) (keys : list string) (m : any_map) : cleaning any_map :=
  match keys with
  | [] => mret m
  | k :: keys =>
      m ← match member_of k bestMap with Some v => merge_branch_member m k v | None => mret m end;
      merge_branch bestMap keys m
  end.

Definition union_of (m : any_map) : list any :=
  if in_list (string_member "type" m) [""; "object"] then
    match array_member "anyOf" m with
    | Some anyOf => anyOf
    | None => default [] (array_member "oneOf" m)
    end
  else [].

Definition merge_union (m : any_map) : cleaning any_map :=
  match union_of m with
  | [] => mret m
  | union => match extractBestSchemaFromUnion union with AMap bestMap => merge_branch bestMap (map fst bestMap) m | _ => mret m end
  end.

(** ** One node *)

Definition constraints : list (string * string) :=
  [("minLength", "minLen"); ("maxLength", "maxLen"); ("pattern", "pattern"); ("minimum", "min"); ("maximum", "max");
   ("multipleOf", "multipleOf"); ("exclusiveMinimum", "exclMin"); ("exclusiveMaximum", "exclMax"); ("minItems", "minItems");
   ("maxItems", "maxItems"); ("propertyNames", "propertyNames"); ("format", "format")].

Definition constraint_hint (m : any_map) (c : string * string) : option string :=
  match member_of (fst c) m with
  | None | Some ANil => None
  | Some val => Some (snd c +:+ ": " +:+ sprint val)
  end.

Definition migrateConstraints (m : any_map) : any_map :=
  match omap (constraint_hint m) constraints with
  | [] => m
  | hints =>
      let suffix := " [Constraint: " +:+ join hints ", " +:+ "]" in
      let desc := string_member "description" m in
      if contains desc suffix then m else set_member "description" (AStr (desc +:+ suffix)) m
  end.

Definition allowedFields : list string := ["type"; "description"; "properties"; "required"; "items"; "enum"; "title"].

Definition keep_allowed (m : any_map) : any_map := List.filter (fun kv => in_list (fst kv) allowedFields) m.

Definition reason_property : any :=
  any_of [("reason", any_of [("type", AStr "string"); ("description", AStr "Reason for calling this tool")])].

Definition fill_empty_object (m : any_map) : any_map :=
  if string_member "type" m =s? "object" then
    match map_member "properties" m with
    | Some (_ :: _) => m
    | _ => set_member "required" (AArr [AStr "reason"]) (set_member "properties" reason_property m)
    end
  else m.

Definition names_property (props : any_map) (r : any) : bool := match r with AStr s => hasKey props s | _ => false end.

Definition align_required (m : any_map) : any_map :=
  match map_member "properties" m, array_member "required" m with
  | Some props, Some req =>
      match List.filter (names_property props) req with
      | [] => delete_member "required" m
      | validReq => set_member "required" (AArr validReq) m
      end
  | _, _ => m
  end.

(** The type, and whether null was among the types.  Capitals outside ASCII are
    left as they are, which no type of JSON schemas has (Go lowers them too). *)
Definition select_type (typeVal : any) : string * bool :=
  match typeVal with
  | AStr v => let lower := LogRedact.to_lower v in if lower =s? "null" then ("string", true) else (lower, false)
  | AArr v =>
      let '(selectedType, nullable) :=
        foldl (fun '(selectedType, nullable) t =>
                 match t with
                 | AStr ts =>
                     let lower := LogRedact.to_lower ts in
                     if lower =s? "null" then (selectedType, true)
                     else (if selectedType =s? "" then lower else selectedType, nullable)
                 | _ => (selectedType, nullable)
                 end) ("", false) v in
      (if selectedType =s? "" then "string" else selectedType, nullable)
  | _ => ("", false)
  end.

Definition note_nullable (m : any_map) : any_map :=
  let desc := string_member "description" m in
  if contains desc "nullable" then m
  else set_member "description" (AStr ((if desc <>s? "" then desc +:+ " " else desc) +:+ "(nullable)")) m.

Definition set_type (m : any_map) : any_map :=
  match member_of "type" m with
  | Some typeVal =>
      let '(selectedType, isEffectivelyNullable) := select_type typeVal in
      let m := set_member "type" (AStr selectedType) m in
      if isEffectivelyNullable then note_nullable m else m
  | None => set_member "type" (AStr "object") m
  end.

Definition enum_string (v : any) : any := match v with AStr s => AStr s | ANil => AStr "null" | _ => AStr (sprint v) end.

Definition stringify_enum (m : any_map) : any_map :=
  match array_member "enum" m with
  | Some enumVals =>
      let m := set_member "enum" (AArr (map enum_string enumVals)) m in
      if forallb (fun v => is_some (as_string v)) enumVals then m else set_member "type" (AStr "string") m
  | None => m
  end.

Definition looksLikeSchema (m : any_map) : bool :=
  existsb (hasKey m) ["type"; "properties"; "items"; "enum"; "anyOf"; "oneOf"; "allOf"].

Definition finish_node (m : any_map) : any_map :=
  if looksLikeSchema m then
    stringify_enum (set_type (align_required (fill_empty_object (keep_allowed (migrateConstraints m)))))
  else m.

(** ** The recursion *)

Definition clean_member (clean : any -> cleaning any) (kv : string * any) : cleaning (string * any) :=
  v ← clean (snd kv); mret (fst kv, v).

Definition clean_children (clean : any -> cleaning any) (m : any_map) : cleaning any_map :=
  match map_member "properties" m with
  | Some props => props ← mapM (clean_member clean) props; mret (set_member "properties" (AMap props) m)
  | None =>
      match member_of "items" m with
      | Some (AArr itemsArr) =>
          let best := match extractBestSchemaFromUnion itemsArr with ANil => any_of [("type", AStr "string")] | best => best end in
          cleanedBest ← clean best; mret (set_member "items" cleanedBest m)
      | Some items => items ← clean items; mret (set_member "items" items m)
      | None => mapM (fun kv => match snd kv with
                                | AArr arr => arr ← mapM clean arr; mret (fst kv, AArr arr)
                                | _ => clean_member clean kv
                                end) m
      end
  end.

Fixpoint cleanJSONSchemaRecursive (fuel : nat) (value : any) : cleaning any :=
  match value with
  | AMap schemaMap =>
      match fuel with
      | O => TooDeep
      | S fuel =>
          schemaMap ← clean_children (cleanJSONSchemaRecursive fuel) (mergeAllOf schemaMap);
          schemaMap ← merge_union schemaMap;
          mret (AMap (finish_node schemaMap))
      end
  | _ => mret value
  end.

(** How deep a document is nested; an empty array counts as one with a leaf. *)
Fixpoint height (v : any) : nat :=
  match v with
  | AArr l => S (foldr (fun v n => Nat.max (height v) n) 1%nat l)
  | AMap m => S (foldr (fun '(_, v) n => Nat.max (height v) n) 0%nat m)
  | _ => 1
  end.

(** [fuel] bounds the expansion of references only. *)
Definition CleanJSONSchema (fuel : nat) (schema : option any_map) : cleaning (option any_map) :=
  match schema with
  | None => mret None
  | Some schema =>
      let '(defs, schema) := extractDefs schema in
      match flattenRefs fuel defs schema with
      | None => TooDeep
      | Some schema =>
          cleaned ← cleanJSONSchemaRecursive (height (AMap schema)) (AMap schema);
          mret (as_map cleaned)
      end
  end.
End Cleaning.

Fixpoint DeepCleanUndefined (value : any) : any :=
  match value with
  | AMap v => AMap (omap (fun '(k, val) => match val with
                                           | AStr s => if s =s? "[undefined]" then None else Some (k, val)
                                           | _ => Some (k, val)
                                           end) (map (fun '(k, val) => (k, DeepCleanUndefined val)) v))
  | AArr v => AArr (map DeepCleanUndefined v)
  | _ => value
  end.

(** * Facts about maps of any

    Looking up what was put, and where members and values come from. *)

Lemma member_of_in k m v : member_of k m = Some v -> (k, v) ∈ m.
Proof.
  induction m as [|[k' w] m IH]; [done|]. cbn [member_of]. destruct (String.eqb_spec k' k) as [->|Hne]; [intros [= ->]; left | intros H; right; by apply IH].
Qed.

Lemma member_of_set k v k' m : member_of k (set_member k' v m) = if k =s? k' then Some v else member_of k m.
Proof.
  induction m as [|[k0 w] m IH]; cbn [set_member member_of].
  - by rewrite String.eqb_sym.
  - destruct (String.eqb_spec k' k0) as [->|Hne]; cbn [member_of].
    + rewrite (String.eqb_sym k0 k). by destruct (k =s? k0).
    + destruct (String.ltb k' k0); cbn [member_of]; [by rewrite (String.eqb_sym k' k)|].
      rewrite IH. destruct (String.eqb_spec k0 k) as [->|Hk]; [|done]. by destruct (String.eqb_spec k k') as [->|].
Qed.

Lemma in_set_member kv k v m : kv ∈ set_member k v m -> kv = (k, v) \/ kv ∈ m.
Proof.
  induction m as [|[k0 w] m IH]; cbn [set_member]; [intros ->%list_elem_of_singleton; by left|].
  destruct (k =s? k0); [rewrite !elem_of_cons; tauto|]. destruct (String.ltb k k0); [rewrite !elem_of_cons; tauto|].
  rewrite !elem_of_cons. intros [H|H]; [tauto|]. destruct (IH H); tauto.
Qed.

Lemma hasKey_member k m : hasKey m k = true <-> is_Some (member_of k m).
Proof. unfold hasKey. destruct (member_of k m); cbn; split; [done..|by intros []]. Qed.

Lemma hasKey_false k m : hasKey m k = false <-> member_of k m = None.
Proof. unfold hasKey. by destruct (member_of k m). Qed.

Lemma member_of_delete k k' m : member_of k (delete_member k' m) = if k =s? k' then None else member_of k m.
Proof.
  induction m as [|[k0 w] m IH]; cbn [member_of delete_member List.filter fst]; [by destruct (k =s? k')|].
  destruct (String.eqb_spec k0 k') as [->|Hne]; cbn [negb member_of].
  - fold (delete_member k' m). rewrite IH. by destruct (String.eqb_spec k' k) as [->|]; [rewrite String.eqb_refl|].
  - fold (delete_member k' m). rewrite IH. destruct (String.eqb_spec k0 k) as [->|]; [|done]. by destruct (String.eqb_spec k k').
Qed.

Lemma in_delete kv k m : kv ∈ delete_member k m -> kv ∈ m.
Proof. unfold delete_member. rewrite !list_elem_of_In, filter_In. tauto. Qed.

Lemma member_of_put_missing k src dst :
  member_of k (put_missing src dst) = match member_of k dst with Some v => Some v | None => member_of k src end.
Proof.
  unfold put_missing. revert dst. induction src as [|[k0 w] src IH]; intros dst; cbn [foldl member_of]; [by destruct (member_of k dst)|].
  rewrite IH. destruct (hasKey dst k0) eqn:Hk.
  - destruct (member_of k dst) eqn:E; [done|]. destruct (String.eqb_spec k0 k) as [->|]; [|done].
    apply hasKey_member in Hk as [v Hv]. congruence.
  - rewrite member_of_set, (String.eqb_sym k k0). destruct (String.eqb_spec k0 k) as [->|]; [|done].
    apply hasKey_false in Hk. by rewrite Hk.
Qed.

Lemma in_put_missing kv src dst : kv ∈ put_missing src dst -> kv ∈ src \/ kv ∈ dst.
Proof.
  unfold put_missing. revert dst. induction src as [|[k0 w] src IH]; intros dst; cbn [foldl]; [tauto|].
  intros H. destruct (IH _ H) as [H1|H1]; [left; by right|]. destruct (hasKey dst k0); [by right|].
  destruct (in_set_member _ _ _ _ H1) as [->|]; [left; left | by right].
Qed.

Lemma in_put_all kv src dst : kv ∈ put_all src dst -> kv ∈ src \/ kv ∈ dst.
Proof.
  unfold put_all. revert dst. induction src as [|[k0 w] src IH]; intros dst; cbn [foldl]; [tauto|].
  intros H. destruct (IH _ H) as [H1|H1]; [left; by right|].
  destruct (in_set_member _ _ _ _ H1) as [->|]; [left; left | by right].
Qed.

Lemma deepCopy_id v : deepCopy v = v.
Proof.
  induction v as [|b|n|s|l IH|m IH] using any_induction; cbn; try done; f_equal.
  - induction IH as [|v l E _ IHl]; [done|]. cbn. by rewrite E, IHl.
  - induction IH as [|[k v] m E _ IHm]; [done|]. cbn in *. by rewrite E, IHm.
Qed.

Lemma deepCopy_members (m : any_map) : map (fun '(k, v) => (k, deepCopy v)) m = m.
Proof. induction m as [|[k v] m IH]; [done|]. cbn. by rewrite deepCopy_id, IH. Qed.

(** ** Heights *)

Lemma height_member (k : string) v (m : any_map) : (k, v) ∈ m -> (height v < height (AMap m))%nat.
Proof.
  cbn [height]. induction m as [|[k' w] m IH]; [by intros ?%elem_of_nil|]. intros [[= -> ->]|H]%elem_of_cons; cbn [foldr]; [lia|].
  specialize (IH H). lia.
Qed.

Lemma height_item v (l : list any) : v ∈ l -> (height v < height (AArr l))%nat.
Proof.
  cbn [height]. induction l as [|w l IH]; [by intros ?%elem_of_nil|]. intros [->|H]%elem_of_cons; cbn [foldr]; [lia|].
  specialize (IH H). lia.
Qed.

Lemma height_map_le n m : (forall k v, (k, v) ∈ m -> (height v <= n)%nat) -> (height (AMap m) <= S n)%nat.
Proof.
  cbn [height]. intros H. apply le_n_S. induction m as [|[k v] m IH]; cbn [foldr]; [lia|].
  pose proof (H k v (list_elem_of_here _ _)). apply Nat.max_lub; [done|]. apply IH. intros k' v' Hin. apply (H k' v'). by right.
Qed.

Lemma height_pos v : (0 < height v)%nat.
Proof. destruct v; cbn; lia. Qed.
