(* ===== verification/SchemaReferences.v ===== *)
(** * The expansion of references

    The expansion of a schema's references ends if the references do not go in
    circles, and has no end if bare ones do; the recursion of the cleaner
    always ends. *)

From S2P Require Import Prelude GoStrings Json AnyJson GeminiTypes SchemaCleaner.

(** ** What a schema refers to *)

(** The maps in which references are looked for. *)
Inductive below (m : any_map) : any_map -> Prop :=
| below_member k sub : (k, AMap sub) ∈ m -> below m sub
| below_item k l sub : (k, AArr l) ∈ m -> AMap sub ∈ l -> below m sub.

Inductive mentions : any_map -> string -> Prop :=
| mentions_ref m ref : member_of "$ref" m = Some (AStr ref) -> mentions m (ref_name ref)
| mentions_below m sub n : below m sub -> mentions sub n -> mentions m n.

(** The definition of [n] refers to [n']. *)
Definition uses (defs : any_map) (n' n : string) : Prop := exists m, map_member n defs = Some m /\ mentions m n'.

Definition expanded (m : any_map) : Prop := forall n, ~ mentions m n.

Lemma below_height m sub : below m sub -> (height (AMap sub) < height (AMap m))%nat.
Proof.
  intros [k ? H|k l ? H Hl]; [by apply (height_member k)|].
  pose proof (height_member _ _ _ H). pose proof (height_item _ _ Hl). lia.
Qed.

Lemma expanded_below m sub : expanded m -> below m sub -> expanded sub.
Proof. intros H Hb n Hn. by apply (H n), (mentions_below m sub). Qed.

Lemma below_sub m m' sub : (forall kv, kv ∈ m -> kv ∈ m') -> below m sub -> below m' sub.
Proof. intros H [k ? Hin|k l ? Hin Hl]; [apply (below_member _ k), H, Hin | apply (below_item _ k l); [by apply H | done]]. Qed.

(** ** The function *)

Definition no_reference (m : any_map) : Prop := forall ref, member_of "$ref" m <> Some (AStr ref).

Lemma flatten_child_mono (F F' : any_map -> option any_map) kv kv' :
  (forall m m', F m = Some m' -> F' m = Some m') -> flatten_child F kv = Some kv' -> flatten_child F' kv = Some kv'.
Proof.
  intros HF. assert (Hi : forall v v', flatten_item F v = Some v' -> flatten_item F' v = Some v').
  { intros [| | | | |m] v'; cbn [flatten_item]; try done. intros H. apply fmap_Some in H as (m' & Hm & ->). by rewrite (HF _ _ Hm). }
  destruct kv as [k v]. unfold flatten_child; cbn [fst snd]. intros H. apply fmap_Some in H as (v' & Hv & ->). apply fmap_Some. exists v'. split; [|done].
  destruct v; try (by apply Hi). apply fmap_Some in Hv as (l' & Hl & ->). apply fmap_Some. exists l'. split; [|done].
  apply mapM_Some in Hl. apply mapM_Some. by eapply Forall2_impl.
Qed.

Section Expansion.
Variable defs : any_map.
Hypothesis Hdefs : length defs <> 0%nat.

Abbreviation flatten fuel := (flattenRefs fuel defs).
Definition stage (fuel : nat) (m : any_map) : option any_map := mapM (flatten_child (flatten fuel)) m.

Lemma flatten_unfold fuel m : flatten (S fuel) m =
  (schema ← match member_of "$ref" m with
            | Some (AStr ref) => match map_member (ref_name ref) defs with
                                 | Some defMap => flatten fuel (put_missing defMap (delete_member "$ref" m))
                                 | None => Some (delete_member "$ref" m)
                                 end
            | _ => Some m
            end; stage fuel schema).
Proof.
  cbn [flattenRefs]. apply Nat.eqb_neq in Hdefs. rewrite Hdefs. destruct (member_of "$ref" m) as [[| | |ref| |]|]; try done.
  destruct (map_member (ref_name ref) defs) as [defMap|]; [|done]. by rewrite deepCopy_members.
Qed.

Lemma stage_mono_from fuel fuel' m m' :
  (forall m m', flatten fuel m = Some m' -> flatten fuel' m = Some m') -> stage fuel m = Some m' -> stage fuel' m = Some m'.
Proof.
  unfold stage. intros HF H. apply mapM_Some in H. apply mapM_Some. eapply Forall2_impl; [exact H|]. intros. by eapply flatten_child_mono.
Qed.

Lemma flatten_mono fuel fuel' m m' : (fuel <= fuel')%nat -> flatten fuel m = Some m' -> flatten fuel' m = Some m'.
Proof.
  revert fuel' m m'. induction fuel as [|fuel IH]; intros fuel' m m' Hle; [done|]. destruct fuel' as [|fuel']; [lia|].
  assert (HF : forall m m', flatten fuel m = Some m' -> flatten fuel' m = Some m') by (intros; apply IH; [lia|done]).
  rewrite !flatten_unfold. intros H. apply bind_Some in H as (s & Hs & Ht). apply bind_Some. exists s.
  split; [|by eapply stage_mono_from]. destruct (member_of "$ref" m) as [[| | |ref| |]|]; try done.
  destruct (map_member (ref_name ref) defs); [by apply HF | done].
Qed.

Lemma stage_mono fuel fuel' m m' : (fuel <= fuel')%nat -> stage fuel m = Some m' -> stage fuel' m = Some m'.
Proof. intros Hle. apply stage_mono_from. intros. by apply (flatten_mono fuel). Qed.

Lemma flatten_det fuel fuel' m m1 m2 : flatten fuel m = Some m1 -> flatten fuel' m = Some m2 -> m1 = m2.
Proof.
  intros H1 H2. apply (flatten_mono _ (Nat.max fuel fuel')) in H1; [|lia]. apply (flatten_mono _ (Nat.max fuel fuel')) in H2; [|lia]. congruence.
Qed.

(** What is expanded is left as it is. *)
Lemma stage_expanded fuel m : expanded m -> (height (AMap m) <= S fuel)%nat -> stage fuel m = Some m.
Proof.
  revert m. induction fuel as [fuel IH] using lt_wf_ind. intros m He Hh.
  assert (Hb : forall sub, below m sub -> flatten fuel sub = Some sub).
  { intros sub Hb. pose proof (below_height m sub Hb). destruct fuel as [|fuel]; [pose proof (height_pos (AMap sub)); lia|].
    pose proof (expanded_below _ _ He Hb) as Hs. rewrite flatten_unfold.
    assert (Hr : no_reference sub) by (intros ref E; by apply (Hs (ref_name ref)), mentions_ref).
    replace (match member_of "$ref" sub with Some (AStr ref) => _ | _ => Some sub end) with (Some sub)
      by (destruct (member_of "$ref" sub) as [[| | |ref| |]|] eqn:E; try done; by destruct (Hr ref)).
    cbn. apply IH; [lia | done | lia]. }
  unfold stage. apply mapM_Some. apply Forall2_same_length_lookup_2; [done|]. intros i kv kv' Hi Hi'. rewrite Hi in Hi'. injection Hi' as <-.
  apply list_elem_of_lookup_2 in Hi. destruct kv as [k v]. unfold flatten_child; cbn [fst snd].
  apply fmap_Some. exists v. split; [|done]. destruct v as [| | | |l|sub]; cbn [flatten_item]; try done.
  - apply fmap_Some. exists l. split; [|done]. apply mapM_Some. apply Forall2_same_length_lookup_2; [done|]. intros j v v' Hj Hj'. rewrite Hj in Hj'.
    injection Hj' as <-. apply list_elem_of_lookup_2 in Hj. destruct v; try done. cbn. by rewrite (Hb m0) by (by apply (below_item _ k l)).
  - by rewrite (Hb sub) by (by apply (below_member _ k)).
Qed.

(** ** Expansion ends *)

Definition flattens (m : any_map) : Prop := exists fuel m', flatten fuel m = Some m' /\ expanded m'.

(** Children that can be expanded are, all with the same fuel. *)
Definition child_flattens (v : any) : Prop :=
  match v with AMap sub => flattens sub | AArr l => forall sub, AMap sub ∈ l -> flattens sub | _ => True end.

Definition child_expanded (v : any) : Prop :=
  match v with AMap sub => expanded sub | AArr l => forall sub, AMap sub ∈ l -> expanded sub | _ => True end.

Definition same_shape (v v' : any) : Prop :=
  match v, v' with AMap _, AMap _ | AArr _, AArr _ => True | _, _ => v = v' end.

Lemma item_flattens v : (match v with AMap sub => flattens sub | _ => True end) ->
  exists fuel v', flatten_item (flatten fuel) v = Some v' /\ same_shape v v' /\ (forall sub, v' = AMap sub -> expanded sub).
Proof.
  destruct v as [| | | | |sub]; try (intros _; exists 0%nat; eexists; split_and!; [reflexivity | done | done]).
  intros (fuel & m' & H & He). exists fuel, (AMap m'). cbn. rewrite H. split_and!; [done..|]. by intros sub' [= <-].
Qed.

Lemma flatten_item_mono fuel fuel' v v' : (fuel <= fuel')%nat -> flatten_item (flatten fuel) v = Some v' -> flatten_item (flatten fuel') v = Some v'.
Proof. intros Hle. destruct v; cbn; try done. intros H. apply fmap_Some in H as (m' & Hm & ->). by rewrite (flatten_mono _ _ _ _ Hle Hm). Qed.

Lemma items_flatten l : (forall sub, AMap sub ∈ l -> flattens sub) ->
  exists fuel l', mapM (flatten_item (flatten fuel)) l = Some l' /\ forall sub, AMap sub ∈ l' -> expanded sub.
Proof.
  induction l as [|v l IH]; intros H.
  - exists 0%nat, []. split; [done|]. by intros sub ?%elem_of_nil.
  - destruct IH as (f1 & l' & Hl & He); [intros sub Hin; apply H; by right|].
    destruct (item_flattens v) as (f2 & v' & Hv & _ & Hv'); [destruct v; try done; apply H; left|].
    exists (Nat.max f1 f2), (v' :: l'). split.
    + apply mapM_Some. constructor; [apply (flatten_item_mono f2); [lia|done]|]. apply mapM_Some in Hl.
      eapply Forall2_impl; [exact Hl|]. intros a b Hab. apply (flatten_item_mono f1); [lia|done].
    + intros sub [E|Hin]%elem_of_cons; [by apply Hv' | by apply He].
Qed.

Lemma child_flattens_to k v : child_flattens v ->
  exists fuel v', flatten_child (flatten fuel) (k, v) = Some (k, v') /\ same_shape v v' /\ child_expanded v'.
Proof.
  destruct v as [| | | |l|sub]; try (intros _; exists 0%nat; eexists; split_and!; [reflexivity | done | done]).
  - intros H. destruct (items_flatten l H) as (fuel & l' & Hl & He). exists fuel, (AArr l'). unfold flatten_child; cbn [fst snd].
    rewrite Hl. split_and!; [done..|]. exact He.
  - intros H. destruct (item_flattens (AMap sub) H) as (fuel & v' & Hv & Hs & He). exists fuel, v'. unfold flatten_child; cbn [fst snd].
    rewrite Hv. split_and!; [done..|]. destruct v'; try done. by apply He.
Qed.

Definition same_members (m m' : any_map) : Prop :=
  Forall2 (fun kv kv' => fst kv = fst kv' /\ same_shape (snd kv) (snd kv') /\ child_expanded (snd kv')) m m'.

Lemma children_flatten m : (forall k v, (k, v) ∈ m -> child_flattens v) -> exists fuel m', stage fuel m = Some m' /\ same_members m m'.
Proof.
  induction m as [|[k v] m IH]; intros H; [by exists 0%nat, []; split; [|constructor]|].
  destruct IH as (f1 & m' & Hm & Hs); [intros k' v' Hin; apply (H k'); by right|].
  destruct (child_flattens_to k v) as (f2 & v' & Hv & Hsv & Hev); [apply (H k); left|].
  exists (Nat.max f1 f2), ((k, v') :: m'). split; [|by constructor].
  apply mapM_Some. constructor.
  - apply (flatten_child_mono (flatten f2)); [|done]. intros. apply (flatten_mono f2); [lia|done].
  - apply mapM_Some in Hm. eapply Forall2_impl; [exact Hm|]. intros a b Hab.
    apply (flatten_child_mono (flatten f1)); [|done]. intros. apply (flatten_mono f1); [lia|done].
Qed.

Lemma same_members_lookup m m' k s : same_members m m' -> member_of k m' = Some (AStr s) -> member_of k m = Some (AStr s).
Proof.
  induction 1 as [|[k1 v1] [k2 v2] m m' (E & Hs & _) _ IH]; [done|]. cbn [fst snd] in *. subst k2. cbn [member_of].
  destruct (k1 =s? k); [|done]. intros [= ->]. by destruct v1; cbn in Hs; rewrite ?Hs.
Qed.

Lemma same_members_expanded m m' : no_reference m -> same_members m m' -> expanded m'.
Proof.
  intros Hr Hs n Hn. destruct Hn as [m' ref E|m' sub n Hb Hn]; [by apply (Hr ref), (same_members_lookup m m')|].
  assert (Hin : forall k v, (k, v) ∈ m' -> child_expanded v).
  { intros k v Hin. clear Hr Hb. induction Hs as [|kv kv' m m' (_ & _ & He) _ IH]; [by apply elem_of_nil in Hin|].
    apply elem_of_cons in Hin as [<-|Hin]; [done | by apply IH]. }
  destruct Hb as [k sub Hk|k l sub Hk Hl]; [by apply (Hin k (AMap sub) Hk n) | by apply (Hin k (AArr l) Hk sub Hl n)].
Qed.

Lemma below_children m : (forall sub, below m sub -> flattens sub) -> forall k v, (k, v) ∈ m -> child_flattens v.
Proof. intros H k v Hin. destruct v; try done; cbn; [intros sub Hl; apply H; by apply (below_item _ k l) | apply H; by apply (below_member _ k)]. Qed.

Lemma stage_flattens m : (forall sub, below m sub -> flattens sub) -> no_reference m -> exists fuel m', stage fuel m = Some m' /\ expanded m'.
Proof.
  intros Hb Hr. destruct (children_flatten m (below_children m Hb)) as (fuel & m' & Hm & Hs). exists fuel, m'. split; [done|].
  by apply (same_members_expanded m).
Qed.

Lemma match_no_reference {A} m (f : string -> A) (d : A) : no_reference m ->
  match member_of "$ref" m with Some (AStr ref) => f ref | _ => d end = d.
Proof. intros Hr. destruct (member_of "$ref" m) as [[| | |ref| |]|] eqn:E; try done. by destruct (Hr ref). Qed.

Lemma plain_flattens m : (forall sub, below m sub -> flattens sub) -> no_reference m -> flattens m.
Proof.
  intros Hb Hr. destruct (stage_flattens m Hb Hr) as (fuel & m' & Hm & He). exists (S fuel), m'. split; [|done].
  rewrite flatten_unfold. by rewrite (match_no_reference m _ _ Hr).
Qed.

(** A reference to [n] can be expanded, wherever it is. *)
Definition resolvable (n : string) : Prop := forall m ref,
  (forall sub, below m sub -> flattens sub) -> member_of "$ref" m = Some (AStr ref) -> ref_name ref = n -> flattens m.

Lemma mentions_resolvable h : forall m, (height (AMap m) <= h)%nat -> (forall n, mentions m n -> resolvable n) -> flattens m.
Proof.
  induction h as [|h IH]; intros m Hh Hm; [pose proof (height_pos (AMap m)); lia|].
  assert (Hb : forall sub, below m sub -> flattens sub).
  { intros sub Hb. apply IH; [pose proof (below_height _ _ Hb); lia|]. intros n Hn. by apply Hm, (mentions_below m sub). }
  destruct (member_of "$ref" m) as [[| | |ref| |]|] eqn:E; try (apply plain_flattens; [done|]; intros ref' E'; congruence).
  by apply (Hm (ref_name ref) (mentions_ref _ _ E) m ref).
Qed.

Lemma delete_no_reference m : no_reference (delete_member "$ref" m).
Proof. intros ref. by rewrite member_of_delete, String.eqb_refl. Qed.

Lemma accessible_resolvable n : Acc (uses defs) n -> resolvable n.
Proof.
  induction 1 as [n _ IH]. intros m ref Hb E <-.
  assert (Hd : forall sub, below (delete_member "$ref" m) sub -> flattens sub) by (intros sub H; apply Hb; revert H; apply below_sub; intros; by eapply in_delete).
  destruct (map_member (ref_name ref) defs) as [def|] eqn:Edef.
  - assert (Hs : flattens (put_missing def (delete_member "$ref" m))).
    { assert (Hbs : forall sub, below (put_missing def (delete_member "$ref" m)) sub -> flattens sub).
      { intros sub H. assert (Hor : below def sub \/ below (delete_member "$ref" m) sub).
        { destruct H as [k sub H|k l sub H Hl]; apply in_put_missing in H as [H|H];
            [left; by apply (below_member _ k) | right; by apply (below_member _ k) | left; by apply (below_item _ k l) | right; by apply (below_item _ k l)]. }
        destruct Hor as [Hor|Hor]; [|by apply Hd]. apply (mentions_resolvable (height (AMap sub))); [done|]. intros n' Hn'. apply IH.
        exists def. split; [done|]. by apply (mentions_below def sub). }
      destruct (member_of "$ref" (put_missing def (delete_member "$ref" m))) as [[| | |ref'| |]|] eqn:E'; try (apply plain_flattens; [done|]; intros ref'' E''; congruence).
      apply (IH (ref_name ref')) with (ref := ref'); [|done..]. exists def. split; [done|].
      rewrite member_of_put_missing, member_of_delete, String.eqb_refl in E'. by apply mentions_ref. }
    destruct Hs as (fuel & m' & Hf & He). exists (S (fuel + height (AMap m'))), m'. split; [|done]. rewrite flatten_unfold, E, Edef.
    rewrite (flatten_mono fuel (fuel + height (AMap m')) _ m') by (lia || done). unfold mbind, option_bind. apply stage_expanded; [done..|lia].
  - destruct (stage_flattens _ Hd (delete_no_reference m)) as (fuel & m' & Hm & He). exists (S fuel), m'. split; [|done].
    by rewrite flatten_unfold, E, Edef.
Qed.

Lemma acyclic_flattens m : (forall n, mentions m n -> Acc (uses defs) n) -> flattens m.
Proof. intros H. apply (mentions_resolvable (height (AMap m))); [done|]. intros n Hn. by apply accessible_resolvable, H. Qed.
End Expansion.

(** ** Expansion that does not end *)

(** A reference to one of [D] is reached: a bare one, somewhere in the schema. *)
Inductive leads (D : string -> Prop) (m : any_map) : Prop :=
| leads_ref ref : member_of "$ref" m = Some (AStr ref) -> (forall k, k <> "$ref" -> member_of k m = None) -> D (ref_name ref) -> leads D m
| leads_member k sub : member_of k m = Some (AMap sub) -> leads D sub -> leads D m
| leads_item k l sub : member_of k m = Some (AArr l) -> AMap sub ∈ l -> leads D sub -> leads D m.

Lemma leads_ext D m m' : leads D m -> (forall k, member_of k m' = member_of k m) -> leads D m'.
Proof.
  intros H E. destruct H as [ref Hr Hk HD|k sub Hk Hs|k l sub Hk Hl Hs].
  - apply (leads_ref _ _ ref); [by rewrite E | intros k Hne; rewrite E; by apply Hk | done].
  - apply (leads_member _ _ k sub); [by rewrite E | done].
  - apply (leads_item _ _ k l sub); [by rewrite E | done..].
Qed.

(** A map that keeps the non-texts of [m] leads where [m] leads below its top. *)
Lemma leads_deeper D m m' : leads D m -> (forall k v, member_of k m = Some v -> (forall s, v <> AStr s) -> member_of k m' = Some v) ->
  (exists ref, member_of "$ref" m = Some (AStr ref) /\ (forall k, k <> "$ref" -> member_of k m = None) /\ D (ref_name ref)) \/ leads D m'.
Proof.
  intros H E. destruct H as [ref Hr Hk HD|k sub Hk Hs|k l sub Hk Hl Hs]; [left; by exists ref | right..].
  - by apply (leads_member _ _ k sub); [apply E|].
  - by apply (leads_item _ _ k l sub); [apply E|..].
Qed.

Lemma mapM_fails {A B} (f : A -> option B) l x : x ∈ l -> f x = None -> mapM f l = None.
Proof. intros Hin Hf. apply mapM_None. apply Exists_exists. by exists x. Qed.

Lemma cyclic_diverges defs D : (forall n, D n -> exists m, map_member n defs = Some m /\ leads D m) ->
  forall fuel m, leads D m -> flattenRefs fuel defs m = None.
Proof.
  intros Hcl. induction fuel as [|fuel IH]; intros m Hl; [done|].
  assert (Hdefs : length defs <> 0%nat).
  { clear IH. assert (HD : exists n, D n).
    { clear -Hl. revert m Hl. fix F 2. intros m [ref _ _ HD|k sub _ Hs|k l sub _ _ Hs]; [by eexists | exact (F _ Hs) | exact (F _ Hs)]. }
    destruct HD as [n Hn]. destruct (Hcl n Hn) as (def & Hd & _). by destruct defs. }
  rewrite flatten_unfold by done.
  assert (Hstage : forall m', leads D m' -> no_reference m' -> stage defs fuel m' = None).
  { intros m' Hl' Hr. destruct Hl' as [ref E _ _|k sub Hk Hs|k l sub Hk Hin Hs]; [by destruct (Hr ref)|..]; apply member_of_in in Hk; eapply mapM_fails; try exact Hk.
    - unfold flatten_child; cbn [fst snd flatten_item]. by rewrite (IH sub Hs).
    - unfold flatten_child; cbn [fst snd]. by rewrite (mapM_fails _ l (AMap sub) Hin) by (cbn; by rewrite (IH sub Hs)). }
  destruct (member_of "$ref" m) as [[| | |ref| |]|] eqn:E; try (apply Hstage; [done|]; intros ref' E'; congruence).
  assert (Hdel : forall k v, member_of k m = Some v -> (forall s, v <> AStr s) -> member_of k (delete_member "$ref" m) = Some v).
  { intros k v Hk Hv. rewrite member_of_delete. destruct (String.eqb_spec k "$ref") as [->|]; [|done]. rewrite E in Hk. injection Hk as <-. by destruct (Hv ref). }
  destruct (map_member (ref_name ref) defs) as [def|] eqn:Ed.
  - rewrite IH; [done|]. destruct (leads_deeper D m (put_missing def (delete_member "$ref" m)) Hl) as [(ref' & Hr & Hb & HD)|Hd]; [|..|exact Hd].
    + intros k v Hk Hv. rewrite member_of_put_missing. by rewrite (Hdel k v Hk Hv).
    + rewrite E in Hr. injection Hr as <-. destruct (Hcl _ HD) as (def' & Hd & Hld). rewrite Ed in Hd. injection Hd as <-.
      apply (leads_ext D def); [done|]. intros k. rewrite member_of_put_missing, member_of_delete.
      destruct (String.eqb_spec k "$ref") as [->|Hne]; [done|]. by rewrite (Hb k Hne).
  - cbn. apply Hstage; [|apply delete_no_reference]. destruct (leads_deeper D m (delete_member "$ref" m) Hl Hdel) as [(ref' & Hr & _ & HD)|Hd]; [|done].
    rewrite E in Hr. injection Hr as <-. destruct (Hcl _ HD) as (def' & Hd & _). congruence.
Qed.

(** ** The recursion of the cleaner *)

Section Total.
Variable key_order : list string -> list string.
Abbreviation clean := (cleanJSONSchemaRecursive key_order).

Definition lower (h : nat) (m : any_map) : Prop := forall k v, (k, v) ∈ m -> (height v <= h)%nat.

Lemma lower_set h k v m : (height v <= h)%nat -> lower h m -> lower h (set_member k v m).
Proof. intros Hv Hm k' v' [[= -> ->]|H]%in_set_member; [done | by eapply Hm]. Qed.

Lemma lower_put_missing h src dst : lower h src -> lower h dst -> lower h (put_missing src dst).
Proof. intros Hs Hd k v [H|H]%in_put_missing; [by eapply Hs | by eapply Hd]. Qed.

Lemma lower_put_all h src dst : lower h src -> lower h dst -> lower h (put_all src dst).
Proof. intros Hs Hd k v [H|H]%in_put_all; [by eapply Hs | by eapply Hd]. Qed.

Lemma lower_delete h k m : lower h m -> lower h (delete_member k m).
Proof. intros H k' v' Hin. eapply H, in_delete, Hin. Qed.

Lemma lower_filter h (f : string * any -> bool) m : lower h m -> lower h (List.filter f m).
Proof. intros H k' v' Hin. apply list_elem_of_In, filter_In in Hin as [Hin _]. apply list_elem_of_In in Hin. by eapply H. Qed.

Lemma map_member_in k m props : map_member k m = Some props -> (k, AMap props) ∈ m.
Proof. unfold map_member. intros H. apply bind_Some in H as (v & Hv & E). destruct v; try done. injection E as ->. by apply member_of_in. Qed.

Lemma array_member_in k m l : array_member k m = Some l -> (k, AArr l) ∈ m.
Proof. unfold array_member. intros H. apply bind_Some in H as (v & Hv & E). destruct v; try done. injection E as ->. by apply member_of_in. Qed.

Lemma lower_map_member h k m : lower h m -> lower (pred h) (default [] (map_member k m)).
Proof.
  intros H. destruct (map_member k m) as [props|] eqn:E; cbn; [|by intros k' v' ?%elem_of_nil].
  apply map_member_in, H in E. intros k' v' Hin. pose proof (height_member _ _ _ Hin). lia.
Qed.

Lemma lower_foldl {B} h (f : any_map -> B -> any_map) l (m : any_map) :
  (forall acc b, b ∈ l -> lower h acc -> lower h (f acc b)) -> lower h m -> lower h (foldl f m l).
Proof.
  revert m. induction l as [|b l IH]; intros m Hf Hm; [done|]. cbn [foldl]. apply IH; [intros; apply Hf; [by right|done]|].
  apply Hf; [left|done].
Qed.

Lemma height_strings (l : list string) : (height (AArr (map AStr l)) <= 2)%nat.
Proof. cbn. apply le_n_S. induction l as [|s l IH]; cbn in *; lia. Qed.

Lemma mergeAllOf_lower h m : lower h m -> lower h (mergeAllOf key_order m).
Proof.
  intros H. unfold mergeAllOf. destruct (array_member "allOf" m) as [allOf|] eqn:E; [|done].
  pose proof (H _ _ (array_member_in _ _ _ E)) as Ha. set (subs := omap as_map allOf).
  assert (Hsub : forall sub, sub ∈ subs -> lower (pred (pred h)) sub /\ (2 < h)%nat \/ sub = []).
  { intros sub Hin. apply list_elem_of_omap in Hin as (v & Hv & E'). destruct v; try done. injection E' as ->.
    pose proof (height_item _ _ Hv) as Hi. destruct sub as [|[k0 v0] sub]; [by right|]. left.
    split; [intros k v Hk; pose proof (height_member _ _ _ Hk); lia|].
    pose proof (height_member k0 v0 ((k0, v0) :: sub) (list_elem_of_here _ _)). pose proof (height_pos v0). lia. }
  assert (Hprops : lower (pred h) (allOf_props subs)).
  { apply lower_foldl; [|by intros k' v' ?%elem_of_nil]. intros acc sub Hin Hacc. destruct (map_member "properties" sub) as [props|] eqn:Ep; [|done].
    apply lower_put_all; [|done]. destruct (Hsub sub Hin) as [[Hs _]| ->]; [|done]. intros k v Hk.
    pose proof (height_member _ _ _ Hk). pose proof (Hs _ _ (map_member_in _ _ _ Ep)). lia. }
  assert (Hothers : lower h (allOf_others subs)).
  { apply lower_foldl; [|by intros k' v' ?%elem_of_nil]. intros acc sub Hin Hacc. apply lower_put_missing; [|done]. apply lower_filter.
    destruct (Hsub sub Hin) as [[Hs _]| ->]; [|by intros k' v' ?%elem_of_nil]. intros k v Hk. pose proof (Hs _ _ Hk). lia. }
  assert (Hreq : (0 < length (allOf_required subs))%nat -> (2 <= h)%nat).
  { destruct (decide (2 <= h)%nat) as [|Hn]; [done|]. intros Hlen. exfalso. revert Hlen.
    assert (He : forall sub, sub ∈ subs -> sub = []) by (intros sub Hin; destruct (Hsub sub Hin) as [[_ ?]|]; [lia|done]).
    clear -He. enough (allOf_required subs = []) as -> by (cbn; lia). unfold allOf_required.
    induction subs as [|sub subs' IH]; [done|]. cbn [foldl]. rewrite (He sub) by left. apply IH. intros; apply He; by right. }
  cbv zeta. set (m1 := put_missing (allOf_others subs) (delete_member "allOf" m)).
  assert (H1 : lower h m1) by (apply lower_put_missing; [done|by apply lower_delete]). clearbody m1.
  set (m2 := if (0 <? length (allOf_props subs))%nat then _ else m1).
  assert (H2 : lower h m2).
  { unfold m2. destruct (allOf_props subs) as [|[k0 v0] ps] eqn:Ep; [done|]. cbn [length Nat.ltb Nat.leb]. apply lower_set; [|done].
    assert (Hlow : lower (pred h) (put_missing ((k0, v0) :: ps) (default [] (map_member "properties" m1)))) by (apply lower_put_missing; [done|by apply lower_map_member]).
    pose proof (height_pos v0). pose proof (Hprops k0 v0 (list_elem_of_here _ _)).
    transitivity (S (pred h)); [by apply height_map_le | lia]. }
  clearbody m2. destruct (0 <? length (allOf_required subs))%nat eqn:El; [|done]. apply Nat.ltb_lt in El. apply lower_set; [|done].
  etransitivity; [apply height_strings | by apply Hreq].
Qed.

Lemma best_in items : extractBestSchemaFromUnion items = ANil \/ extractBestSchemaFromUnion items ∈ items.
Proof.
  unfold extractBestSchemaFromUnion. match goal with |- context [foldl ?g _ _] => set (f := g) end.
  assert (H : forall l acc, fst (foldl f acc l) = fst acc \/ fst (foldl f acc l) ∈ l).
  { induction l as [|x l IH]; intros [b s]; cbn [foldl fst]; [by left|].
    destruct (IH (f (b, s) x)) as [->|Hin]; [|right; by right]. unfold f. destruct (s <? scoreSchemaOption x); cbn [fst]; [right; left | by left]. }
  destruct (H items (ANil, -1)) as [->|]; [by left | by right].
Qed.

Lemma bind_settles {A B} (r : cleaning A) (f : A -> cleaning B) : r <> TooDeep -> (forall a, f a <> TooDeep) -> (r ≫= f) <> TooDeep.
Proof. destruct r; cbn; auto. Qed.

Lemma mapM_settles {A B} (f : A -> cleaning B) l : (forall a, a ∈ l -> f a <> TooDeep) -> mapM f l <> TooDeep.
Proof.
  induction l as [|a l IH]; intros H; [done|]. cbn [mapM]. apply bind_settles; [apply H; left|]. intros b.
  apply bind_settles; [apply IH; intros; apply H; by right | done].
Qed.

Lemma union_settles m : merge_union m <> TooDeep.
Proof.
  assert (Hm : forall v l, any_member v l <> TooDeep) by (induction l as [|t l IH]; cbn; [done|]; by destruct (any_equal t v) as [[|]|]).
  assert (Hr : forall src dst, add_required dst src <> TooDeep).
  { induction src as [|r src IH]; intros dst; cbn [add_required]; [done|]. apply bind_settles; [apply Hm | intros; apply IH]. }
  assert (Hb : forall b keys m, merge_branch b keys m <> TooDeep).
  { intros b. induction keys as [|k keys IH]; intros m'; cbn [merge_branch]; [done|]. apply bind_settles; [|intros; apply IH].
    destruct (member_of k b) as [v|]; [|done]. unfold merge_branch_member.
    destruct (k =s? "properties"); [done|]. destruct (k =s? "required"); [|done]. destruct v; try done. apply bind_settles; [apply Hr|done]. }
  unfold merge_union. destruct (union_of m); [done|]. destruct (extractBestSchemaFromUnion _); done.
Qed.

Lemma clean_settles fuel : forall v, (height v <= fuel)%nat -> clean fuel v <> TooDeep.
Proof.
  induction fuel as [|fuel IH]; intros v Hv; [pose proof (height_pos v); lia|]. destruct v as [| | | | |m]; try done.
  cbn [cleanJSONSchemaRecursive]. apply bind_settles; [|intros m'; apply bind_settles; [apply union_settles|done]].
  assert (Hl : lower fuel (mergeAllOf key_order m)) by (apply mergeAllOf_lower; intros k v Hk; pose proof (height_member _ _ _ Hk); lia).
  set (m' := mergeAllOf key_order m) in *. clearbody m'. unfold clean_children.
  destruct (map_member "properties" m') as [props|] eqn:Ep.
  - apply bind_settles; [|done]. apply mapM_settles. intros [k v] Hin. apply bind_settles; [|done]. apply IH.
    pose proof (height_member _ _ _ Hin). pose proof (Hl _ _ (map_member_in _ _ _ Ep)). cbn [snd]. lia.
  - destruct (member_of "items" m') as [v|] eqn:Ei.
    + apply member_of_in, Hl in Ei. destruct v as [| | | |items|im]; try (apply bind_settles; [by apply IH | done]).
      assert (H2 : (2 <= height (AArr items))%nat) by (cbn [height]; destruct items as [|v0 items]; cbn [foldr]; [lia | pose proof (height_pos v0); lia]).
      destruct (best_in items) as [-> | Hin]; [apply bind_settles; [apply IH; cbn; lia | done]|].
      apply height_item in Hin. destruct (extractBestSchemaFromUnion items) eqn:Eb; (apply bind_settles; [apply IH; cbn [height any_of foldl set_member foldr] in *; lia | done]).
    + apply mapM_settles. intros [k v] Hin. pose proof (Hl _ _ Hin) as Hk. cbn [snd fst].
      destruct v as [| | | |l|]; try (apply bind_settles; [by apply IH|done]).
      apply bind_settles; [|done]. apply mapM_settles. intros v Hv'. apply IH. pose proof (height_item _ _ Hv'). lia.
Qed.
End Total.

(** ** Ranks

    Definitions whose references go down in rank do not go in circles. *)

Fixpoint mentioned (v : any) : list string :=
  match v with
  | AMap m => match member_of "$ref" m with Some (AStr ref) => [ref_name ref] | _ => [] end ++ concat (map (fun '(_, v) => mentioned v) m)
  | AArr l => concat (map mentioned l)
  | _ => []
  end.

Lemma mentions_mentioned m n : mentions m n -> n ∈ mentioned (AMap m).
Proof.
  induction 1 as [m ref E|m sub n Hb _ IH]; cbn [mentioned]; apply elem_of_app; [left; rewrite E; left | right].
  destruct Hb as [k sub Hk|k l sub Hk Hl].
  - apply list_elem_of_In, in_concat. exists (mentioned (AMap sub)). split; [|by apply list_elem_of_In].
    apply in_map_iff. exists (k, AMap sub). split; [done|by apply list_elem_of_In].
  - apply list_elem_of_In, in_concat. exists (mentioned (AArr l)). split.
    + apply in_map_iff. exists (k, AArr l). split; [done|by apply list_elem_of_In].
    + cbn [mentioned]. apply in_concat. exists (mentioned (AMap sub)). split; [|by apply list_elem_of_In]. apply in_map, list_elem_of_In, Hl.
Qed.

Lemma ranked_accessible defs (rank : string -> nat) :
  (forall a def, map_member a defs = Some def -> Forall (fun n => rank n < rank a)%nat (mentioned (AMap def))) -> forall n, Acc (uses defs) n.
Proof.
  intros H n. induction n as [n IH] using (well_founded_induction (well_founded_ltof _ rank)). constructor. intros n' (def & Hd & Hm).
  apply IH. unfold ltof. pose proof (H n def Hd) as Hf. rewrite Forall_forall in Hf. by apply Hf, mentions_mentioned.
Qed.

(** ** The theorems *)

(** C28: A schema whose definitions do not refer to each other in circles is
    cleaned, however deep it is.  With enough fuel - nested calls - all its
    references are expanded, none is left that could be, and the cleaning of the
    expanded schema ends as well. *)
Theorem acyclic_references_expand key_order schema defs body :
  extractDefs schema = (defs, body) -> (forall n, mentions body n -> Acc (uses defs) n) ->
  exists fuel0 body', forall fuel, (fuel0 <= fuel)%nat ->
    flattenRefs fuel defs body = Some body' /\ (defs <> [] -> expanded body') /\
    CleanJSONSchema key_order fuel (Some schema) <> TooDeep.
Proof.
  intros Hx Hacc. assert (H : exists fuel0 body', (forall fuel, (fuel0 <= fuel)%nat -> flattenRefs fuel defs body = Some body') /\ (defs <> [] -> expanded body')).
  { destruct (decide (defs = [])) as [->|Hne].
    - exists 1%nat, body. split; [|done]. intros [|fuel] Hf; [lia|done].
    - assert (Hl : length defs <> 0%nat) by by destruct defs.
      destruct (acyclic_flattens defs Hl body Hacc) as (fuel0 & body' & Hf & He). exists fuel0, body'. split; [|done]. intros. by eapply flatten_mono. }
  destruct H as (fuel0 & body' & Hf & He). exists fuel0, body'. intros fuel Hfuel. split_and!; [by apply Hf | done|].
  unfold CleanJSONSchema. rewrite Hx, (Hf fuel Hfuel). by apply bind_settles; [apply clean_settles|].
Qed.

Definition parsed (s : string) : any_map := match unmarshal dec_any ANil (dq s) with Ok (AMap m) => m | _ => [] end.

Definition a_tree : any_map := parsed
  "{'properties':{'root':{'$ref':'#/$defs/Pair'}},'$defs':{'Pair':{'properties':{'a':{'$ref':'#/$defs/Leaf'},'b':{'$ref':'#/$defs/Leaf'}}},'Leaf':{'type':'string'}}}".

Definition leaf_rank (n : string) : nat := if n =s? "Pair" then 1%nat else 0%nat.

Lemma acyclic_references_expand_witness : exists fuel0 body', forall fuel, (fuel0 <= fuel)%nat ->
  flattenRefs fuel (fst (extractDefs a_tree)) (snd (extractDefs a_tree)) = Some body' /\ (fst (extractDefs a_tree) <> [] -> expanded body') /\
  CleanJSONSchema (fun l => l) fuel (Some a_tree) <> TooDeep.
Proof.
  apply (acyclic_references_expand (fun l => l) a_tree (fst (extractDefs a_tree)) (snd (extractDefs a_tree))); [by destruct (extractDefs a_tree)|].
  intros n _. apply (ranked_accessible _ leaf_rank). intros a def Hd. apply map_member_in in Hd. vm_compute in Hd.
  repeat (apply elem_of_cons in Hd as [Hd|Hd]; [injection Hd as -> ->; vm_compute; repeat constructor|]). by apply elem_of_nil in Hd.
Defined.

(** C29: Bare references that go in a circle are expanded without end.  A reference
    is bare if it has no sibling keys, which would take the place of what it
    stands for.  If every definition of a set reaches a bare reference to one of
    the set, and so does the schema, no number of nested calls is enough to clean
    it, whatever the stack. *)
Theorem circular_references_overflow key_order schema defs body (D : string -> Prop) :
  extractDefs schema = (defs, body) -> (forall n, D n -> exists m, map_member n defs = Some m /\ leads D m) -> leads D body ->
  forall fuel, CleanJSONSchema key_order fuel (Some schema) = TooDeep.
Proof. intros Hx Hcl Hl fuel. unfold CleanJSONSchema. rewrite Hx. by rewrite (cyclic_diverges defs D Hcl). Qed.

(** A linked list, as schema generators write it. *)
Definition a_list : any_map := parsed
  "{'$ref':'#/$defs/Node','$defs':{'Node':{'type':'object','properties':{'value':{'type':'string'},'next':{'$ref':'#/$defs/Node'}}}}}".

Lemma circular_references_overflow_witness :
  CleanJSONSchema (fun l => l) 100 (Some a_list) = TooDeep /\ CleanJSONSchema (fun l => l) 1000 (Some a_list) = TooDeep.
Proof.
  enough (H : forall fuel, CleanJSONSchema (fun l => l) fuel (Some a_list) = TooDeep) by (split; apply H).
  apply (circular_references_overflow (fun l => l) a_list (fst (extractDefs a_list)) (snd (extractDefs a_list)) (fun n => n = "Node")).
  - by destruct (extractDefs a_list).
  - intros n ->. eexists. split; [by vm_compute|].
    eapply (leads_member _ _ "properties"); [by vm_compute|]. eapply (leads_member _ _ "next"); [by vm_compute|].
    apply (leads_ref _ _ "#/$defs/Node"); [by vm_compute | | by vm_compute]. intros k Hk. cbn [member_of].
    destruct (String.eqb_spec "$ref" k); [congruence|done].
  - apply (leads_ref _ _ "#/$defs/Node"); [by vm_compute | | by vm_compute]. intros k Hk.
    change (snd (extractDefs a_list)) with [("$ref", AStr "#/$defs/Node")]. cbn [member_of]. destruct (String.eqb_spec "$ref" k); [congruence|done].
Defined.
