(* ===== verification/SchemaCleanerSpec.v ===== *)
(** * What a cleaned schema looks like

    Schemas of the usual forms are cleaned into what Gemini accepts. *)

From S2P Require Import Prelude GoStrings Json Regex AnyJson GeminiTypes SchemaCleaner SchemaReferences.
From S2P Require LogRedact.

(** ** Accepted schemas *)

Definition is_string (v : any) : bool := is_some (as_string v).

(** Only known keywords, one lower-case type, enumerations of strings, and what
    is required is there; and so for the properties and items. *)
Inductive accepted : any -> Prop :=
| accepted_node m :
    (forall k v, (k, v) ∈ m -> in_list k allowedFields = true) ->
    (exists t, member_of "type" m = Some (AStr t) /\ LogRedact.to_lower t = t /\ t <> "null") ->
    (forall l, array_member "enum" m = Some l -> forallb is_string l = true) ->
    (forall l, array_member "required" m = Some l -> forallb is_string l = true) ->
    (forall props req, map_member "properties" m = Some props -> array_member "required" m = Some req ->
       req <> [] /\ forallb (names_property props) req = true) ->
    (forall v, member_of "properties" m = Some v -> exists props, v = AMap props) ->
    (forall props k v, map_member "properties" m = Some props -> member_of k props = Some v -> accepted v) ->
    (forall v, member_of "items" m = Some v -> accepted v) ->
    accepted (AMap m).

(** ** Supported schemas

    After [allOf] is merged, a node has a keyword of schemas, and either
    properties, or items, or an array of schemas of which one holds, or neither. *)
Inductive supported (key_order : list string -> list string) : any -> Prop :=
| supported_node m m1 : m1 = mergeAllOf key_order m ->
    looksLikeSchema m1 = true ->
    (forall v, member_of "type" m1 = Some v -> (exists s, v = AStr s) \/ exists l, v = AArr l) ->
    (forall l, array_member "required" m1 = Some l -> forallb is_string l = true) ->
    (forall v, member_of "properties" m1 = Some v ->
       (exists props, v = AMap props) /\ member_of "items" m1 = None /\ union_of m1 = []) ->
    (forall v, member_of "items" m1 = Some v -> ((exists im, v = AMap im) \/ exists l, v = AArr l) /\ union_of m1 = []) ->
    (forall props k v, map_member "properties" m1 = Some props -> (k, v) ∈ props -> supported key_order v) ->
    (forall im, map_member "items" m1 = Some im -> supported key_order (AMap im)) ->
    (forall l, array_member "items" m1 = Some l -> extractBestSchemaFromUnion l <> ANil -> supported key_order (extractBestSchemaFromUnion l)) ->
    (member_of "properties" m1 = None -> member_of "items" m1 = None -> forall sub, below m1 sub -> supported key_order (AMap sub)) ->
    (forall v, v ∈ union_of m1 -> exists sub, v = AMap sub) ->
    supported key_order (AMap m).

(** ** Results without a panic *)

Definition fine {A} (P : A -> Prop) (r : cleaning A) : Prop := match r with Cleaned a => P a | Panicked => False | TooDeep => True end.

Lemma fine_ret {A} (P : A -> Prop) a : P a -> fine P (mret a).
Proof. done. Qed.

Lemma fine_bind {A B} (P : A -> Prop) (Q : B -> Prop) r (f : A -> cleaning B) : fine P r -> (forall a, P a -> fine Q (f a)) -> fine Q (r ≫= f).
Proof. destruct r; cbn; auto. Qed.

Lemma fine_mono {A} (P Q : A -> Prop) r : fine P r -> (forall a, P a -> Q a) -> fine Q r.
Proof. destruct r; cbn; auto. Qed.

Lemma fine_mapM {A B} (R : A -> B -> Prop) (f : A -> cleaning B) l :
  (forall a, a ∈ l -> fine (R a) (f a)) -> fine (Forall2 R l) (mapM f l).
Proof.
  induction l as [|a l IH]; intros H; [constructor|]. cbn [mapM]. eapply fine_bind; [apply H; left|]. intros b Hb.
  eapply fine_bind; [apply IH; intros; apply H; by right|]. intros bs Hbs. by constructor.
Qed.

(** ** Looking up *)

Lemma map_member_of k m : map_member k m = member_of k m ≫= as_map.
Proof. done. Qed.

Definition maps_to (R : any -> any -> Prop) (kv kv' : string * any) : Prop := fst kv = fst kv' /\ R (snd kv) (snd kv').

Lemma maps_to_lookup R m m' k : Forall2 (maps_to R) m m' ->
  match member_of k m, member_of k m' with Some v, Some v' => R v v' | None, None => True | _, _ => False end.
Proof.
  induction 1 as [|[k1 v1] [k2 v2] m m' [E Hr] _ IH]; [done|]. cbn in E, Hr. subst k2. cbn [member_of]. by destruct (k1 =s? k).
Qed.

Lemma member_of_keep_allowed k m : member_of k (keep_allowed m) = if in_list k allowedFields then member_of k m else None.
Proof.
  unfold keep_allowed. induction m as [|[k0 v] m IH]; cbn [List.filter fst member_of]; [by destruct (in_list k allowedFields)|].
  destruct (in_list k0 allowedFields) eqn:E0; cbn [member_of]; destruct (String.eqb_spec k0 k) as [->|]; rewrite ?E0; try done; rewrite IH; by rewrite ?E0.
Qed.

Abbreviation to_lower := LogRedact.to_lower.

(** ** The work on one node *)

Definition typed (m : any_map) : Prop := forall v, member_of "type" m = Some v -> (exists s, v = AStr s) \/ exists l, v = AArr l.
Definition names_strings (m : any_map) : Prop := forall l, array_member "required" m = Some l -> forallb is_string l = true.
Definition good_properties (m : any_map) : Prop :=
  (forall v, member_of "properties" m = Some v -> exists props, v = AMap props) /\
  (forall props k v, map_member "properties" m = Some props -> member_of k props = Some v -> accepted v).
Definition good_items (m : any_map) : Prop := forall v, member_of "items" m = Some v -> accepted v.

Record sound (m : any_map) : Prop := {
  sound_typed : typed m;
  sound_required : names_strings m;
  sound_properties : good_properties m;
  sound_items : good_items m;
}.

(** Only members of [ks] differ. *)
Definition differ_at (ks : list string) (m m' : any_map) : Prop := forall k, in_list k ks = false -> member_of k m' = member_of k m.

Lemma differ_set ks k v m : in_list k ks = true -> differ_at ks m (set_member k v m).
Proof. intros Hk k' Hk'. rewrite member_of_set. destruct (String.eqb_spec k' k) as [->|]; [congruence|done]. Qed.

Lemma sound_differ ks m m' : differ_at ks m m' -> forallb (fun k => negb (in_list k ks)) ["type"; "required"; "properties"; "items"] = true ->
  sound m -> sound m'.
Proof.
  intros Hd Hk [H1 H2 H3 H4]. cbn in Hk. repeat (apply andb_true_iff in Hk as [?%negb_true_iff Hk]).
  split; unfold typed, names_strings, good_properties, good_items, array_member, map_member; rewrite ?Hd by done; done.
Qed.

Definition allowed_only (m : any_map) : Prop := forall k v, (k, v) ∈ m -> in_list k allowedFields = true.

Lemma allowed_set k v m : in_list k allowedFields = true -> allowed_only m -> allowed_only (set_member k v m).
Proof. intros Hk Hm k' v' [[= -> ->]|H]%in_set_member; [done | by eapply Hm]. Qed.

Lemma allowed_delete k m : allowed_only m -> allowed_only (delete_member k m).
Proof. intros H k' v' Hin. eapply H, in_delete, Hin. Qed.

Lemma migrate_sound m : sound m -> sound (migrateConstraints m).
Proof.
  intros H. unfold migrateConstraints. destruct (omap _ _); [done|]. destruct (contains _ _); [done|].
  eapply (sound_differ ["description"]); [by apply differ_set | done | exact H].
Qed.

Lemma keep_sound m : sound m -> sound (keep_allowed m).
Proof.
  intros [H1 H2 H3 H4]. split; unfold typed, names_strings, good_properties, good_items, array_member, map_member; rewrite !member_of_keep_allowed; done.
Qed.

Lemma keep_allowed_only m : allowed_only (keep_allowed m).
Proof. intros k v H. apply list_elem_of_In, filter_In in H. tauto. Qed.

Lemma member_of_set_same k v m : member_of k (set_member k v m) = Some v.
Proof. by rewrite member_of_set, String.eqb_refl. Qed.

Lemma accepted_string m : m = [("description", AStr "Reason for calling this tool"); ("type", AStr "string")] -> accepted (AMap m).
Proof.
  intros ->. constructor; cbn; try done.
  - intros k v [[= -> ->]|[[= -> ->]|H%elem_of_nil]%elem_of_cons]%elem_of_cons; done.
  - by exists "string".
Qed.

Lemma reason_accepted k v props : reason_property = AMap props -> member_of k props = Some v -> accepted v.
Proof.
  intros [= <-]. cbn [member_of]. destruct ("reason" =s? k); [|done]. intros [= <-]. by apply accepted_string.
Qed.

Lemma fill_sound m : sound m -> sound (fill_empty_object m).
Proof.
  intros H. unfold fill_empty_object. destruct (string_member "type" m =s? "object"); [|done].
  assert (Hs : sound (set_member "required" (AArr [AStr "reason"]) (set_member "properties" reason_property m))).
  { destruct H as [H1 H2 [H3 H3'] H4]. split; unfold typed, names_strings, good_properties, good_items, array_member, map_member;
      rewrite !member_of_set; cbn [String.eqb Ascii.eqb Bool.eqb]; try done.
    - by intros l [= <-].
    - split; [intros v [= <-]; by eexists|]. intros props k v [= <-]. by apply reason_accepted. }
  destruct (map_member "properties" m) as [[|]|]; done.
Qed.

Lemma fill_allowed m : allowed_only m -> allowed_only (fill_empty_object m).
Proof.
  intros H. unfold fill_empty_object. destruct (string_member "type" m =s? "object"); [|done].
  assert (Hs : allowed_only (set_member "required" (AArr [AStr "reason"]) (set_member "properties" reason_property m))) by (apply allowed_set; [done|]; by apply allowed_set).
  destruct (map_member "properties" m) as [[|]|]; done.
Qed.

Definition aligned (m : any_map) : Prop := forall props req, map_member "properties" m = Some props -> array_member "required" m = Some req ->
  req <> [] /\ forallb (names_property props) req = true.

Lemma aligned_differ ks m m' : differ_at ks m m' -> in_list "properties" ks = false -> in_list "required" ks = false -> aligned m -> aligned m'.
Proof. intros Hd Hp Hr H. unfold aligned, map_member, array_member. rewrite !Hd by done. exact H. Qed.

Lemma align_spec m : sound m -> allowed_only m -> sound (align_required m) /\ allowed_only (align_required m) /\ aligned (align_required m).
Proof.
  intros Hs Ha. unfold align_required. destruct (map_member "properties" m) as [props|] eqn:Ep.
  2: { split_and!; [done..|]. unfold aligned. by rewrite Ep. }
  destruct (array_member "required" m) as [req|] eqn:Er.
  2: { split_and!; [done..|]. unfold aligned. by rewrite Er. }
  pose proof (sound_required m Hs req Er) as Hstr. destruct Hs as [H1 H2 [H3 H3'] H4].
  destruct (List.filter (names_property props) req) as [|r rs] eqn:Ef.
  - split_and!; [|by apply allowed_delete|].
    + split; unfold typed, names_strings, good_properties, good_items, array_member, map_member; rewrite !member_of_delete; done.
    + unfold aligned, array_member. by rewrite member_of_delete.
  - assert (Hf : forallb (names_property props) (r :: rs) = true).
    { rewrite <- Ef. apply forallb_forall. intros x [_ Hx]%filter_In. done. }
    assert (Hf' : forallb is_string (r :: rs) = true).
    { apply forallb_forall. intros x Hx. rewrite forallb_forall in Hf. specialize (Hf x Hx). by destruct x. }
    split_and!; [|by apply allowed_set|].
    + split; unfold typed, names_strings, good_properties, good_items, array_member, map_member; rewrite !member_of_set; cbn [String.eqb Ascii.eqb Bool.eqb]; try done.
      by intros l [= <-].
    + unfold aligned, map_member, array_member. rewrite !member_of_set; cbn [String.eqb Ascii.eqb Bool.eqb].
      unfold map_member in Ep. rewrite Ep. intros props' req' [= <-] [= <-]. done.
Qed.

Definition well_typed (m : any_map) : Prop := exists t, member_of "type" m = Some (AStr t) /\ to_lower t = t /\ t <> "null".

Lemma select_lower v : (exists s, v = AStr s) \/ (exists l, v = AArr l) ->
  to_lower (fst (select_type v)) = fst (select_type v) /\ fst (select_type v) <> "null".
Proof.
  intros [[s ->]|[l ->]]; cbn [select_type].
  - destruct (String.eqb_spec (to_lower s) "null"); cbn [fst]; [done|]. by rewrite LogRedact.to_lower_idem.
  - match goal with |- context [foldl ?g _ _] => set (f := g) end.
    assert (H : forall acc, (to_lower (fst acc) = fst acc /\ fst acc <> "null") -> to_lower (fst (foldl f acc l)) = fst (foldl f acc l) /\ fst (foldl f acc l) <> "null").
    { induction l as [|t l IH]; intros [ty n] Hacc; [done|]. cbn [foldl]. apply IH. unfold f. destruct t as [| | |ts| |]; try done.
      destruct (String.eqb_spec (to_lower ts) "null"); [done|]. cbn [fst] in *. destruct (ty =s? ""); [|done]. by rewrite LogRedact.to_lower_idem. }
    specialize (H ("", false)). destruct (foldl f ("", false) l) as [ty n]. cbn [fst] in *. destruct (ty =s? ""); [done|]. by apply H.
Qed.

Lemma note_nullable_differ m : differ_at ["description"] m (note_nullable m).
Proof. unfold note_nullable. destruct (contains _ _); [done|by apply differ_set]. Qed.

Lemma note_nullable_allowed m : allowed_only m -> allowed_only (note_nullable m).
Proof. unfold note_nullable. destruct (contains _ _); [done|by apply allowed_set]. Qed.

Lemma differ_trans ks m m1 m2 : differ_at ks m m1 -> differ_at ks m1 m2 -> differ_at ks m m2.
Proof. intros H1 H2 k Hk. by rewrite H2, H1. Qed.

Lemma differ_weaken ks ks' m m' : (forall k, in_list k ks' = false -> in_list k ks = false) -> differ_at ks m m' -> differ_at ks' m m'.
Proof. intros H Hd k Hk. by apply Hd, H. Qed.

Lemma set_type_spec m : typed m -> allowed_only m ->
  differ_at ["type"; "description"] m (set_type m) /\ allowed_only (set_type m) /\ well_typed (set_type m).
Proof.
  intros Ht Ha. unfold set_type. destruct (member_of "type" m) as [v|] eqn:E.
  - pose proof (select_lower v (Ht v E)) as [Hl Hn]. destruct (select_type v) as [t b]. cbn [fst] in Hl, Hn.
    assert (Hd : differ_at ["type"; "description"] m (set_member "type" (AStr t) m)) by by apply differ_set.
    assert (Hw : well_typed (set_member "type" (AStr t) m)) by (exists t; by rewrite member_of_set_same).
    destruct b; [|by split_and!; [|apply allowed_set|]].
    split_and!; [|by apply note_nullable_allowed, allowed_set|].
    + eapply differ_trans; [exact Hd|]. eapply differ_weaken; [|apply note_nullable_differ]. intros k. cbn. destruct (k =s? "type"); [done|]. by destruct (k =s? "description").
    + destruct Hw as (t' & H1 & H2). exists t'. by rewrite (note_nullable_differ _ "type" eq_refl).
  - split_and!; [by apply differ_set | by apply allowed_set|]. exists "object". by rewrite member_of_set_same.
Qed.

Lemma stringify_spec m : allowed_only m -> well_typed m ->
  differ_at ["type"; "enum"] m (stringify_enum m) /\ allowed_only (stringify_enum m) /\ well_typed (stringify_enum m) /\
  (forall l, array_member "enum" (stringify_enum m) = Some l -> forallb is_string l = true).
Proof.
  intros Ha Hw. unfold stringify_enum. destruct (array_member "enum" m) as [vals|] eqn:E.
  2: { split_and!; [done..|]. intros l Hl. congruence. }
  assert (Hs : forallb is_string (map enum_string vals) = true) by (clear; induction vals as [|v vals IH]; [done|]; cbn; by destruct v).
  assert (Hd : differ_at ["type"; "enum"] m (set_member "enum" (AArr (map enum_string vals)) m)) by by apply differ_set.
  destruct (forallb _ vals).
  - split_and!; [done | by apply allowed_set | |].
    + destruct Hw as (t & H1 & H2). exists t. by rewrite member_of_set.
    + unfold array_member. rewrite member_of_set_same. by intros l [= <-].
  - split_and!; [eapply differ_trans; [exact Hd | by apply differ_set] | apply allowed_set; [done|]; by apply allowed_set | |].
    + exists "string". by rewrite member_of_set_same.
    + unfold array_member. rewrite !member_of_set. cbn. by intros l [= <-].
Qed.

Lemma finish_accepted m : sound m -> looksLikeSchema m = true -> accepted (AMap (finish_node m)).
Proof.
  intros Hs Hl. unfold finish_node. rewrite Hl. clear Hl. apply migrate_sound, keep_sound in Hs.
  pose proof (keep_allowed_only (migrateConstraints m)) as Ha. set (m1 := keep_allowed (migrateConstraints m)) in *. clearbody m1.
  apply fill_sound in Hs. apply fill_allowed in Ha. set (m2 := fill_empty_object m1) in *. clearbody m2.
  destruct (align_spec m2 Hs Ha) as (Hs3 & Ha3 & Hal3). set (m3 := align_required m2) in *. clearbody m3.
  destruct (set_type_spec m3 (sound_typed m3 Hs3) Ha3) as (Hd4 & Ha4 & Hw4). set (m4 := set_type m3) in *. clearbody m4.
  destruct (stringify_spec m4 Ha4 Hw4) as (Hd5 & Ha5 & Hw5 & He5). set (m5 := stringify_enum m4) in *. clearbody m5.
  assert (Hd : differ_at ["type"; "description"; "enum"] m3 m5).
  { eapply differ_trans; (eapply differ_weaken; [|eassumption]); intros k; cbn;
      destruct (k =s? "type"), (k =s? "description"), (k =s? "enum"); done. }
  destruct Hs3 as [_ Hr [Hp Hp'] Hi]. constructor; try done.
  - unfold array_member. rewrite (Hd "required") by done. exact Hr.
  - by apply (aligned_differ _ m3 m5 Hd).
  - rewrite (Hd "properties") by done. exact Hp.
  - unfold map_member. rewrite (Hd "properties") by done. exact Hp'.
  - unfold good_items in Hi. by rewrite <- (Hd "items") in Hi.
Qed.

(** ** Merging a branch of a union *)

Lemma looks_set k v m : looksLikeSchema m = true -> looksLikeSchema (set_member k v m) = true.
Proof.
  unfold looksLikeSchema. intros (key & Hin & Hk)%existsb_exists. apply existsb_exists. exists key. split; [done|].
  apply hasKey_member in Hk as [w Hw]. apply hasKey_member. rewrite member_of_set. destruct (key =s? k); by eexists.
Qed.

Definition keeps_sound (m : any_map) : Prop := sound m /\ looksLikeSchema m = true.

Lemma any_member_fine v l : is_string v = true -> forallb is_string l = true -> fine (fun _ => True) (any_member v l).
Proof.
  intros Hv. induction l as [|t l IH]; cbn [any_member forallb]; [done|]. intros [Ht Hl]%andb_true_iff.
  destruct t, v; try done. cbn [any_equal]. destruct (_ =s? _); [done | by apply IH].
Qed.

Lemma add_required_fine src : forall dst, forallb is_string src = true -> forallb is_string dst = true ->
  fine (fun l => forallb is_string l = true) (add_required dst src).
Proof.
  induction src as [|r src IH]; intros dst; cbn [add_required forallb]; [done|]. intros [Hr Hs]%andb_true_iff Hd.
  eapply fine_bind; [by apply any_member_fine|]. intros found _. apply IH; [done|]. destruct found; [done|].
  rewrite forallb_app, Hd. cbn. by rewrite Hr.
Qed.

Lemma sound_set_properties props m : sound m -> (forall k v, member_of k props = Some v -> accepted v) -> sound (set_member "properties" (AMap props) m).
Proof.
  intros [H1 H2 [H3 H3'] H4] Hp. split; unfold typed, names_strings, good_properties, good_items, array_member, map_member;
    rewrite !member_of_set; cbn [String.eqb Ascii.eqb Bool.eqb]; try done.
  split; [intros v [= <-]; by eexists | intros props' k v [= <-]; apply Hp].
Qed.

Lemma branch_member_fine bestMap k v m : accepted (AMap bestMap) -> member_of k bestMap = Some v -> keeps_sound m ->
  fine keeps_sound (merge_branch_member m k v).
Proof.
  intros Ha Hk [Hs Hl]. inversion Ha as [m' Hall (t & Ht & _) _ Hreq _ Hpm Hp Hi]; subst m'. unfold merge_branch_member.
  destruct (String.eqb_spec k "properties") as [->|Hnp].
  - destruct (Hpm v Hk) as [props ->]. apply fine_ret. split; [|by apply looks_set]. apply sound_set_properties; [done|]. intros k' v'.
    rewrite deepCopy_members, member_of_put_missing. destruct (map_member "properties" m) as [target|] eqn:Et; cbn [from_option id].
    + destruct (member_of k' target) eqn:Ek; [intros [= <-]; by eapply (proj2 (sound_properties m Hs))|].
      intros H. eapply Hp; [|exact H]. unfold map_member. by rewrite Hk.
    + cbn. intros H. eapply Hp; [|exact H]. unfold map_member. by rewrite Hk.
  - destruct (String.eqb_spec k "required") as [->|Hnr].
    + destruct v as [| | | |req|]; try done. eapply fine_bind; [apply add_required_fine|].
      * apply Hreq. unfold array_member. by rewrite Hk.
      * destruct (array_member "required" m) eqn:Er; [by apply (sound_required m Hs) | done].
      * intros l Hls. apply fine_ret. split; [|by apply looks_set]. destruct Hs as [H1 H2 [H3 H3'] H4].
        split; unfold typed, names_strings, good_properties, good_items, array_member, map_member; rewrite !member_of_set; cbn [String.eqb Ascii.eqb Bool.eqb]; try done.
        by intros l' [= <-].
    + apply fine_ret. destruct (hasKey m k) eqn:Eh; [done|]. rewrite deepCopy_id. split; [|by apply looks_set].
      destruct Hs as [H1 H2 [H3 H3'] H4].
      split; unfold typed, names_strings, good_properties, good_items, array_member, map_member; rewrite !member_of_set.
      * destruct (String.eqb_spec "type" k) as [<-|]; [|done]. rewrite Ht in Hk. injection Hk as <-. intros v [= <-]. left. by eexists.
      * by destruct (String.eqb_spec "required" k) as [<-|].
      * destruct (String.eqb_spec "properties" k) as [<-|]; done.
      * destruct (String.eqb_spec "items" k) as [<-|]; [|done]. intros v' [= <-]. by apply Hi.
Qed.

Lemma branch_fine bestMap keys : accepted (AMap bestMap) -> forall m, keeps_sound m -> fine keeps_sound (merge_branch bestMap keys m).
Proof.
  intros Ha. induction keys as [|k keys IH]; intros m Hm; [done|]. cbn [merge_branch]. eapply fine_bind; [|intros m' Hm'; by apply IH].
  destruct (member_of k bestMap) eqn:Ek; [by eapply branch_member_fine | done].
Qed.

Lemma union_fine m : keeps_sound m -> (forall v, v ∈ union_of m -> accepted v) -> fine keeps_sound (merge_union m).
Proof.
  intros Hm Hu. unfold merge_union. destruct (union_of m) as [|u0 us] eqn:E; [done|]. rewrite <- E in *. clear E.
  destruct (best_in (union_of m)) as [->|Hin]; [done|]. apply Hu in Hin. destruct (extractBestSchemaFromUnion (union_of m)); try done. by apply branch_fine.
Qed.

(** ** The children *)

Section Children.
Variable key_order : list string -> list string.
Abbreviation clean := (cleanJSONSchemaRecursive key_order).

Lemma clean_leaf fuel v : (forall m, v <> AMap m) -> clean fuel v = Cleaned v.
Proof. intros H. destruct v, fuel; try done; by destruct (H m). Qed.

Lemma string_schema_fine fuel : fine accepted (clean fuel (any_of [("type", AStr "string")])).
Proof.
  destruct fuel as [|[|fuel]]; [done| |]; vm_compute; constructor; cbn; try done; try (by exists "string").
  all: intros k v [[= -> ->]|H%elem_of_nil]%elem_of_cons; done.
Qed.

(** What becomes of a member of a node without properties and items. *)
Definition item_cleaned (v v' : any) : Prop := match v with AMap _ => accepted v' | _ => v' = v end.
Definition member_cleaned (v v' : any) : Prop :=
  match v with AArr l => exists l', v' = AArr l' /\ Forall2 item_cleaned l l' | _ => item_cleaned v v' end.

Lemma items_cleaned_strings l l' : Forall2 item_cleaned l l' -> forallb is_string l = true -> l' = l.
Proof. induction 1 as [|v v' l l' Hv _ IH]; [done|]. cbn. intros [Hs Hl]%andb_true_iff. destruct v; try done. cbn in Hv. by rewrite Hv, IH. Qed.

Lemma items_cleaned_maps l l' : Forall2 item_cleaned l l' -> (forall v, v ∈ l -> exists sub, v = AMap sub) -> forall v, v ∈ l' -> accepted v.
Proof.
  induction 1 as [|v v' l l' Hv _ IH]; intros H w Hw; [by apply elem_of_nil in Hw|]. apply elem_of_cons in Hw as [->|Hw].
  - destruct (H v) as [sub ->]; [left|done].
  - apply IH; [intros u Hu; apply H; by right | done].
Qed.

Lemma accepted_map v : accepted v -> exists m, v = AMap m.
Proof. intros []. by eexists. Qed.

Lemma cleaned_array k m m' : Forall2 (maps_to member_cleaned) m m' ->
  match array_member k m, array_member k m' with Some l, Some l' => Forall2 item_cleaned l l' | None, None => True | _, _ => False end.
Proof.
  intros H. pose proof (maps_to_lookup _ _ _ k H) as Hk. unfold array_member. destruct (member_of k m) as [v|], (member_of k m') as [v'|]; try done.
  cbn. destruct v; cbn in Hk; try (subst v'; done); [destruct Hk as (l' & -> & Hl); exact Hl|]. by destruct (accepted_map _ Hk) as [sub ->].
Qed.

Lemma cleaned_string k m m' : typed m -> Forall2 (maps_to member_cleaned) m m' -> k = "type" -> string_member k m' = string_member k m.
Proof.
  intros Ht H ->. pose proof (maps_to_lookup _ _ _ "type" H) as Hk. unfold string_member. destruct (member_of "type" m) as [v|] eqn:E, (member_of "type" m') as [v'|]; try done.
  destruct (Ht v E) as [[s ->]|[l ->]]; cbn in Hk; [by subst|]. by destruct Hk as (l' & -> & _).
Qed.

Lemma hasKey_cleaned k m m' : Forall2 (maps_to member_cleaned) m m' -> hasKey m' k = hasKey m k.
Proof.
  intros H. pose proof (maps_to_lookup _ _ _ k H) as Hk. unfold hasKey. by destruct (member_of k m), (member_of k m').
Qed.

Lemma union_cleaned m m' : typed m -> (forall v, v ∈ union_of m -> exists sub, v = AMap sub) -> Forall2 (maps_to member_cleaned) m m' ->
  forall v, v ∈ union_of m' -> accepted v.
Proof.
  intros Ht Hm H. unfold union_of in *. rewrite (cleaned_string _ m m' Ht H eq_refl). destruct (in_list _ _); [|by intros v ?%elem_of_nil].
  pose proof (cleaned_array "anyOf" m m' H) as Ha. destruct (array_member "anyOf" m) as [l|], (array_member "anyOf" m') as [l'|]; try done.
  - by eapply items_cleaned_maps.
  - pose proof (cleaned_array "oneOf" m m' H) as Ho. destruct (array_member "oneOf" m) as [l|], (array_member "oneOf" m') as [l'|]; try done; cbn [from_option id] in *.
    + by eapply items_cleaned_maps.
    + by intros v ?%elem_of_nil.
Qed.

Lemma cleaned_members_sound m m' : typed m -> names_strings m -> member_of "properties" m = None -> member_of "items" m = None ->
  looksLikeSchema m = true -> Forall2 (maps_to member_cleaned) m m' -> keeps_sound m'.
Proof.
  intros Ht Hr Hp Hi Hl H.
  assert (Hnone : forall k, member_of k m = None -> member_of k m' = None).
  { intros k Hk. pose proof (maps_to_lookup _ _ _ k H) as Hlk. rewrite Hk in Hlk. by destruct (member_of k m'). }
  split; [split|].
  - intros v' Hv'. pose proof (maps_to_lookup _ _ _ "type" H) as Hk. rewrite Hv' in Hk. destruct (member_of "type" m) as [v|] eqn:E; [|done].
    destruct (Ht v E) as [[s ->]|[l ->]]; cbn in Hk; [left; by exists s|]. destruct Hk as (l' & -> & _). right. by eexists.
  - intros l' Hl'. pose proof (cleaned_array "required" m m' H) as Ha. rewrite Hl' in Ha. destruct (array_member "required" m) as [l|] eqn:E; [|done].
    pose proof (Hr l E) as Hstr. by rewrite (items_cleaned_strings _ _ Ha Hstr).
  - unfold good_properties, map_member. by rewrite (Hnone _ Hp).
  - unfold good_items. by rewrite (Hnone _ Hi).
  - unfold looksLikeSchema in *. apply existsb_exists in Hl as (k & Hk & Hh). apply existsb_exists. exists k. by rewrite (hasKey_cleaned k m m' H).
Qed.

Lemma differ_union ks m m' : differ_at ks m m' -> forallb (fun k => negb (in_list k ks)) ["type"; "anyOf"; "oneOf"] = true -> union_of m' = union_of m.
Proof.
  intros Hd Hk. cbn in Hk. repeat (apply andb_true_iff in Hk as [?%negb_true_iff Hk]).
  unfold union_of, string_member, array_member. by rewrite !Hd by done.
Qed.

(** What the children leave: a sound node, whose union is of accepted schemas. *)
Definition ready (m : any_map) : Prop := keeps_sound m /\ forall v, v ∈ union_of m -> accepted v.

Lemma ready_plain m : keeps_sound m -> union_of m = [] -> ready m.
Proof. intros H E. split; [done|]. rewrite E. by intros v ?%elem_of_nil. Qed.

Lemma clean_children_ready fuel m :
  looksLikeSchema m = true -> typed m -> names_strings m ->
  (forall v, member_of "properties" m = Some v -> (exists props, v = AMap props) /\ member_of "items" m = None /\ union_of m = []) ->
  (forall v, member_of "items" m = Some v -> ((exists im, v = AMap im) \/ exists l, v = AArr l) /\ union_of m = []) ->
  (forall props k v, map_member "properties" m = Some props -> (k, v) ∈ props -> fine accepted (clean fuel v)) ->
  (forall im, map_member "items" m = Some im -> fine accepted (clean fuel (AMap im))) ->
  (forall l, array_member "items" m = Some l ->
     extractBestSchemaFromUnion l = ANil \/ fine accepted (clean fuel (extractBestSchemaFromUnion l))) ->
  (member_of "properties" m = None -> member_of "items" m = None -> forall sub, below m sub -> fine accepted (clean fuel (AMap sub))) ->
  (forall v, v ∈ union_of m -> exists sub, v = AMap sub) ->
  fine ready (clean_children (clean fuel) m).
Proof.
  intros Hl Ht Hr Hp Hi Hps Him Hil Hsub Hum. unfold clean_children. destruct (map_member "properties" m) as [props|] eqn:Ep.
  - assert (Ep' : member_of "properties" m = Some (AMap props)) by (unfold map_member in Ep; destruct (member_of "properties" m) as [v|]; [|done]; destruct v; try done; by injection Ep as ->).
    destruct (Hp _ Ep') as (_ & Hni & Hnu).
    eapply fine_bind; [apply (fine_mapM (maps_to (fun _ v' => accepted v')))|].
    + intros [k v] Hin. eapply fine_bind; [exact (Hps props k v eq_refl Hin)|]. intros v' Hv'. by split.
    + intros props' Hprops'. apply fine_ret. apply ready_plain.
      * split; [|by apply looks_set]. split; unfold typed, names_strings, good_properties, good_items, array_member, map_member;
          rewrite !member_of_set; cbn [String.eqb Ascii.eqb Bool.eqb]; try done.
        -- split; [intros v [= <-]; by eexists|]. intros props0 k v [= <-] Hk. pose proof (maps_to_lookup _ _ _ k Hprops') as H. rewrite Hk in H.
           by destruct (member_of k props).
        -- by rewrite Hni.
      * rewrite <- Hnu. by apply (differ_union ["properties"]); [apply differ_set|].
  - assert (Hnp : member_of "properties" m = None).
    { destruct (member_of "properties" m) as [v|] eqn:E; [|done]. destruct (Hp v eq_refl) as [[props ->] _]. unfold map_member in Ep. by rewrite E in Ep. }
    destruct (member_of "items" m) as [v|] eqn:Ei.
    + destruct (Hi v eq_refl) as [Hv Hnu].
      assert (Hset : forall v', accepted v' -> ready (set_member "items" v' m)).
      { intros v' Hv'. apply ready_plain; [|rewrite <- Hnu; by apply (differ_union ["items"]); [apply differ_set|]].
        split; [|by apply looks_set]. split; unfold typed, names_strings, good_properties, good_items, array_member, map_member;
          rewrite !member_of_set; cbn [String.eqb Ascii.eqb Bool.eqb]; try done; [by rewrite Hnp|]. by intros w [= <-]. }
      destruct Hv as [[im ->]|[l ->]].
      * eapply fine_bind; [apply Him; unfold map_member; by rewrite Ei|]. intros v' Hv'. by apply fine_ret, Hset.
      * assert (Hb : fine accepted (clean fuel match extractBestSchemaFromUnion l with ANil => any_of [("type", AStr "string")] | best => best end)).
        { destruct (Hil l) as [->|H]; [unfold array_member; by rewrite Ei | apply string_schema_fine|].
          destruct (extractBestSchemaFromUnion l); try exact H. apply string_schema_fine. }
        eapply fine_bind; [exact Hb|]. intros v' Hv'. by apply fine_ret, Hset.
    + specialize (Hsub Hnp eq_refl). eapply fine_mono; [apply (fine_mapM (maps_to member_cleaned))|].
      * intros [k v] Hin. cbn [snd fst]. destruct v as [| | | |l|sub]; try (unfold clean_member; cbn [snd fst]; rewrite clean_leaf by done; by split).
        -- eapply fine_bind; [apply (fine_mapM item_cleaned)|].
           ++ intros v Hv. destruct v as [| | | | |sub]; try (by rewrite clean_leaf by done). apply Hsub. by apply (below_item _ k l).
           ++ intros l' Hl'. apply fine_ret. split; [done|]. by exists l'.
        -- eapply fine_bind; [apply Hsub; by apply (below_member _ k)|]. intros v' Hv'. by split.
      * intros m' Hm'. split; [by apply (cleaned_members_sound m)|]. by apply (union_cleaned m).
Qed.

Lemma clean_supported v : supported key_order v -> forall fuel, fine accepted (clean fuel v).
Proof.
  induction 1 as [m m1 -> Hl Ht Hr Hp Hi _ Hps _ Him _ Hil _ Hsub Hum]; intros [|fuel]; [done|]. cbn [cleanJSONSchemaRecursive].
  eapply fine_bind; [apply clean_children_ready; try done|].
  - intros props k v Hm Hin. by eapply Hps.
  - intros im Hm. by apply Him.
  - intros l Hm. destruct (extractBestSchemaFromUnion l) eqn:E; [by left|..]; right; rewrite <- E; apply (Hil l Hm); by rewrite E.
  - intros Hnp Hni sub Hb. by apply Hsub.
  - intros m2 [Hk Hu]. eapply fine_bind; [by apply union_fine|]. intros m3 [Hs Hl3]. by apply fine_ret, finish_accepted.
Qed.
End Children.

(** C30: Supported schemas become accepted ones.  Whatever order a map is read in,
    if the expanded schema is of the usual forms - nodes with keywords of
    schemas, properties or items or a union of schemas - the cleaner returns, and
    every node of its result that Gemini looks at has only known keywords, one
    lower-case type, enumerations of strings, and a nonempty list of required
    names that are all properties. *)
Theorem cleaned_schemas_accepted key_order fuel schema defs body body' :
  extractDefs schema = (defs, body) -> flattenRefs fuel defs body = Some body' -> supported key_order (AMap body') ->
  exists m, CleanJSONSchema key_order fuel (Some schema) = Cleaned (Some m) /\ accepted (AMap m).
Proof.
  intros Hx Hf Hs. unfold CleanJSONSchema. rewrite Hx, Hf.
  pose proof (clean_supported key_order _ Hs (height (AMap body'))) as Hfine. pose proof (clean_settles key_order (height (AMap body')) (AMap body') (le_n _)) as Hd.
  destruct (cleanJSONSchemaRecursive key_order (height (AMap body')) (AMap body')) as [v| |] eqn:E; try done.
  destruct (accepted_map _ Hfine) as [m ->]. by exists m.
Qed.

Definition a_search : any_map := parsed
  "{'type':'object','properties':{'query':{'type':'string','minLength':1},'limit':{'anyOf':[{'type':'integer'},{'type':'null'}],'default':null}},'required':['query','page'],'additionalProperties':false}".

(** A node of the example: what the lookups give is computed. *)
Ltac supported_step :=
  eapply supported_node; [reflexivity | vm_compute; reflexivity | ..]; intros;
  repeat match goal with
         | H : member_of _ _ = _ |- _ => vm_compute in H; try discriminate H; try (injection H as <-)
         | H : map_member _ _ = _ |- _ => vm_compute in H; try discriminate H; injection H as <-
         | H : array_member _ _ = _ |- _ => vm_compute in H; try discriminate H; injection H as <-
         | H : (_, _) ∈ _ :: _ |- _ => apply elem_of_cons in H as [[= -> ->]|H]
         | H : _ ∈ [] |- _ => by apply elem_of_nil in H
         end.

Lemma below_decide m sub : below m sub -> sub ∈ omap as_map (map snd m) ++ concat (map (fun kv => match snd kv with AArr l => omap as_map l | _ => [] end) m).
Proof.
  intros [k sub' H|k l sub' H Hl]; apply elem_of_app; [left|right].
  - apply list_elem_of_omap. exists (AMap sub'). split; [|done]. apply list_elem_of_In, in_map_iff. exists (k, AMap sub'). by split; [|apply list_elem_of_In].
  - apply list_elem_of_In, in_concat. exists (omap as_map l). split; [apply in_map_iff; exists (k, AArr l); by split; [|apply list_elem_of_In]|].
    apply list_elem_of_In, list_elem_of_omap. by exists (AMap sub').
Qed.

Lemma scalar_type_supported key_order t : supported key_order (AMap [("type", AStr t)]).
Proof.
  eapply supported_node; [reflexivity | reflexivity | ..]; cbn; try done.
  - intros v [= <-]. left. by eexists.
  - intros _ _ sub Hb%below_decide. by apply elem_of_nil in Hb.
  - intros v. unfold union_of. cbn. destruct (t =s? ""); [by intros ?%elem_of_nil|]. destruct (t =s? "object"); by intros ?%elem_of_nil.
Qed.

Lemma below_none m sub : below m sub -> omap as_map (map snd m) ++ concat (map (fun kv => match snd kv with AArr l => omap as_map l | _ => [] end) m) <> [].
Proof. intros H%below_decide E. rewrite E in H. by apply elem_of_nil in H. Qed.

Ltac supported_rest :=
  match goal with
  | |- (exists s, AStr ?t = AStr s) \/ _ => left; by eexists
  | |- (exists props, _ = AMap props) /\ _ => split; [by eexists | split; by vm_compute]
  | |- forallb _ _ = true => reflexivity
  | H : _ ∈ union_of _ |- _ => vm_compute in H; repeat (apply elem_of_cons in H as [->|H]; [by eexists|]); by apply elem_of_nil in H
  | H : below _ _ |- _ => first [exfalso; by apply below_none in H |
      apply below_decide in H; vm_compute in H; repeat (apply elem_of_cons in H as [->|H]; [apply scalar_type_supported|]); by apply elem_of_nil in H]
  end.

Lemma cleaned_schemas_accepted_witness :
  supported (fun l => l) (AMap (snd (extractDefs a_search))) /\
  exists m, CleanJSONSchema (fun l => l) 9 (Some a_search) = Cleaned (Some m) /\ accepted (AMap m).
Proof.
  assert (Hs : supported (fun l => l) (AMap (snd (extractDefs a_search)))).
  { supported_step; try supported_rest; supported_step; supported_rest. }
  split; [exact Hs|].
  apply (cleaned_schemas_accepted (fun l => l) 9 a_search (fst (extractDefs a_search)) (snd (extractDefs a_search)) (snd (extractDefs a_search)));
    [by destruct (extractDefs a_search) | by vm_compute | exact Hs].
Defined.

(** ** What is lost *)

Definition cleaned_text (key_order : list string -> list string) (s : string) : cleaning string :=
  r ← CleanJSONSchema key_order 9 (Some (parsed s)); mret (match r with Some m => marshal_any (AMap m) | None => "" end).

(** Schemas that are cleaned into something else.  A union that starts with
    null becomes a text, whatever its other branch is, because null was made a
    text before the branches are compared; an enumeration without a type becomes
    an object; a type in capitals or with null loses the property that an object
    must have; a branch merged into properties keeps its unknown keywords; and
    required members that are objects make the cleaner panic. *)
Theorem cleaning_gaps key_order :
  Forall (fun t => cleaned_text key_order ("{'anyOf':[{'type':'null'},{'type':'" +:+ t +:+ "'}]}") =
                   Cleaned (dq "{'description':'(nullable)','type':'string'}")) ["integer"; "number"; "boolean"] /\
  cleaned_text key_order "{'enum':['a','b']}" = Cleaned (dq "{'enum':['a','b'],'type':'object'}") /\
  cleaned_text key_order "{'type':'OBJECT'}" = Cleaned (dq "{'type':'object'}") /\
  cleaned_text key_order "{'type':['object','null']}" = Cleaned (dq "{'description':'(nullable)','type':'object'}") /\
  cleaned_text key_order "{'properties':{'a':{'type':'string'}},'anyOf':[{'properties':{'b':{'const':1}}}]}" =
    Cleaned (dq "{'properties':{'a':{'type':'string'},'b':{'const':1}},'type':'object'}") /\
  cleaned_text key_order "{'properties':{'a':{'type':'string'}},'required':[{}],'anyOf':[{'type':'object','required':[{}]}]}" = Panicked.
Proof. split_and!; [repeat constructor|..]; by vm_compute. Qed.
