(* ===== verification/AntigravityRequestSpec.v ===== *)
(** * What a converted request holds

    Signatures, the names of tool results and the limits of thinking. *)

From Stdlib Require Import SpecFloat.
From S2P Require Import Prelude GoStrings Json AnyJson Types GeminiTypes SchemaCleaner AntigravityRequest.

(** ** Parts *)

Definition all_parts (contents : list GeminiContent) : list GeminiPart := concat (map gc_Parts contents).

(** The blocks of a message, if its content is an array of them. *)
Definition blocks_of (msg : ClaudeMessage) : list ContentBlock :=
  match unmarshal dec_string "" (cmsg_Content msg) with
  | Ok _ => []
  | Err _ => or_zero [] (unmarshal (dec_slice dec_ContentBlock zero_ContentBlock) [] (cmsg_Content msg))
  end.

(** A relation between the parts that a message's blocks may follow, and one
    part, holds in front of every part: for all the parts of a conversation. *)
Fixpoint each_after (P : list GeminiPart -> GeminiPart -> Prop) (before parts : list GeminiPart) : Prop :=
  match parts with
  | [] => True
  | p :: parts => P before p /\ each_after P (before ++ [p]) parts
  end.

Lemma each_after_app P before a b : each_after P before (a ++ b) <-> each_after P before a /\ each_after P (before ++ a) b.
Proof.
  revert before. induction a as [|p a IH]; intros before; cbn; [rewrite app_nil_r; tauto|]. rewrite IH, <- app_assoc. cbn. tauto.
Qed.

Lemma each_after_at P parts : each_after P [] parts -> forall before p after, parts = before ++ p :: after -> P before p.
Proof. intros H before p after ->. apply each_after_app in H as [_ H]. cbn in H. tauto. Qed.

(** ** Names *)

(** The name of the last call with this identifier. *)
Definition note_call (names : tool_names) (p : GeminiPart) : tool_names :=
  match gp_FunctionCall p with
  | Some c => if (gfc_ID c <>s? "") && (gfc_Name c <>s? "") then <[gfc_ID c := gfc_Name c]> names else names
  | None => names
  end.
Definition calls (parts : list GeminiPart) : tool_names := foldl note_call ∅ parts.

Definition named (before : list GeminiPart) (p : GeminiPart) : Prop :=
  forall r, gp_FunctionResponse p = Some r -> gfr_Name r = default (gfr_ID r) (calls before !! gfr_ID r).

Definition unnamed (b : ContentBlock) : Prop := cbk_Name b = "" \/ cbk_Type b <> "tool_result".

Lemma calls_app before p : calls (before ++ [p]) = note_call (calls before) p.
Proof. unfold calls. by rewrite foldl_app. Qed.

(** A block adds at most one part. *)
Lemma build_part_names allow before names block parts names' s : names = calls before -> unnamed block ->
  build_part allow names block = (parts, names', s) -> each_after named before parts /\ names' = calls (before ++ parts).
Proof.
  intros -> Hu. unfold build_part.
  assert (Hquiet : forall p, gp_FunctionResponse p = None -> gp_FunctionCall p = None -> each_after named before [p] /\ calls before = calls (before ++ [p])).
  { intros p Hr Hc. split; [|rewrite calls_app; unfold note_call; by rewrite Hc]. split; [|done]. intros r Hr'. congruence. }
  assert (Hnone : each_after named before [] /\ calls before = calls (before ++ [])) by (by rewrite app_nil_r).
  destruct (cbk_Type block =s? "text"); [intros [= <- <- _]; destruct (_ && _); [by apply Hquiet | done]|].
  destruct (cbk_Type block =s? "thinking").
  { destruct (usable_signature _ _); [intros [= <- <- _]; by apply Hquiet|].
    destruct (negb allow); intros [= <- <- _]; [destruct (_ <>s? _); [by apply Hquiet | done] | by apply Hquiet]. }
  destruct (cbk_Type block =s? "image").
  { intros [= <- <- _]. destruct (cbk_Source block) as [src|]; [|done]. destruct (_ =s? _); [by apply Hquiet | done]. }
  destruct (cbk_Type block =s? "tool_use").
  { intros [= <- <- _].
    assert (Hcall : forall sig, each_after named before [zero_GeminiPart <| gp_FunctionCall := Some (mkGeminiFunctionCall (cbk_Name block) (cbk_Input block) (cbk_ID block)) |> <| gp_ThoughtSignature := sig |>]).
    { intros sig. split; [|done]. by intros r. }
    assert (Hcall0 := Hcall ""). rewrite calls_app. unfold note_call.
    destruct (usable_signature _ _); [split; [apply Hcall|done]|]. destruct allow; (split; [first [apply Hcall | exact Hcall0]|done]). }
  destruct (String.eqb_spec (cbk_Type block) "tool_result") as [Ht|]; [|by intros [= <- <- _]].
  intros [= <- <- _]. rewrite calls_app. split; [|done]. split; [|done]. intros r [= <-]. cbn [gfr_Name gfr_ID].
  destruct Hu as [->|Hu]; [done|by destruct Hu].
Qed.

Lemma build_block_parts_names allow blocks : forall before parts names' s, Forall unnamed blocks ->
  build_block_parts allow (calls before) blocks = (parts, names', s) -> each_after named before parts /\ names' = calls (before ++ parts).
Proof.
  induction blocks as [|b blocks IH]; intros before parts names' s Hu; cbn [build_block_parts].
  - intros [= <- <- _]. by rewrite app_nil_r.
  - inversion Hu; subst. destruct (build_part allow (calls before) b) as [[p1 n1] s1] eqn:E1.
    destruct (build_part_names _ before _ _ _ _ _ eq_refl H1 E1) as [Hp1 ->].
    destruct (build_block_parts allow (calls (before ++ p1)) blocks) as [[p2 n2] s2] eqn:E2. intros [= <- <- _].
    destruct (IH _ _ _ _ H2 E2) as [Hp2 ->]. rewrite app_assoc. by rewrite each_after_app.
Qed.

Lemma buildParts_names allow before msg parts names' s : Forall unnamed (blocks_of msg) ->
  buildParts (cmsg_Content msg) (calls before) allow = Ok (parts, names', s) -> each_after named before parts /\ names' = calls (before ++ parts).
Proof.
  unfold buildParts, blocks_of. destruct (unmarshal dec_string "" (cmsg_Content msg)) as [text|e].
  - intros _ [= <- <- _]. destruct (_ && _); [|by rewrite app_nil_r]. split; [split; [by intros r|done] | by rewrite calls_app].
  - destruct (unmarshal (dec_slice dec_ContentBlock zero_ContentBlock) [] (cmsg_Content msg)) as [blocks|e']; [|done]. cbn. intros Hu [= E].
    by eapply build_block_parts_names.
Qed.

Lemma prefill_names thinking allow last role before parts : each_after named before parts ->
  each_after named before (prefill_thought thinking allow last role parts) /\
  calls (before ++ prefill_thought thinking allow last role parts) = calls (before ++ parts).
Proof.
  intros H. unfold prefill_thought. destruct (_ && _); [|done].
  assert (Hcalls : forall l, calls ((before ++ [dummy_thought]) ++ l) = calls (before ++ l)).
  { intros l. unfold calls. by rewrite !foldl_app. }
  split; [|by rewrite <- (Hcalls parts), <- app_assoc]. split; [by intros r|].
  assert (Hmono : forall l b b', calls b' = calls b -> each_after named b l -> each_after named b' l).
  { induction l as [|p l IH]; intros b b' E; [done|]. cbn. intros [Hp Hl]. split; [unfold named in *; by rewrite E|].
    apply (IH (b ++ [p])); [by rewrite !calls_app, E | done]. }
  apply (Hmono parts before); [|done]. specialize (Hcalls []). by rewrite !app_nil_r in Hcalls.
Qed.

Lemma build_contents_names thinking allow messages : forall i before contents s,
  Forall (fun msg => Forall unnamed (blocks_of msg)) messages ->
  build_contents i messages (calls before) thinking allow = Ok (contents, s) -> each_after named before (all_parts contents).
Proof.
  induction messages as [|msg messages IH]; intros i before contents s Hu; cbn [build_contents]; [by intros [= <- _]|].
  inversion Hu; subst. destruct (buildParts (cmsg_Content msg) (calls before) allow) as [[[parts names] s1]|e] eqn:E; [|done]. cbn.
  destruct (buildParts_names _ _ _ _ _ _ H1 E) as [Hp ->].
  destruct (prefill_names thinking allow (negb (nonempty messages)) (message_role (cmsg_Role msg)) before parts Hp) as [Hp' Hc].
  set (parts' := prefill_thought _ _ _ _ _) in *. rewrite <- Hc. clearbody parts'.
  destruct (build_contents _ _ _ _ _) as [[rest s2]|e] eqn:Er; [|done]. cbn. intros [= <- _].
  destruct parts' as [|p parts']; [apply (IH _ _ _ _ H2) in Er; by rewrite app_nil_r in Er|].
  unfold all_parts; cbn [map concat gc_Parts]. apply each_after_app. split; [done|]. by eapply IH.
Qed.

(** ** Signatures *)

(** What the upstream can check: a thought has a signature, and for models that
    are not Gemini's it is not the dummy; Gemini's calls have one as well. *)
Definition signed (gemini : bool) (p : GeminiPart) : bool :=
  implb (gp_Thought p) (gp_ThoughtSignature p <>s? "") &&
  implb (negb gemini) (gp_ThoughtSignature p <>s? DummyThoughtSignature) &&
  implb (gemini && is_some (gp_FunctionCall p)) (gp_ThoughtSignature p <>s? "").

Lemma usable_signed allow s : usable_signature allow s = true -> (s <>s? "") = true /\ implb (negb allow) (s <>s? DummyThoughtSignature) = true.
Proof. unfold usable_signature. intros [-> H]%andb_true_iff. by destruct allow. Qed.

Lemma text_signed allow text : signed allow (text_part text) = true.
Proof. by destruct allow. Qed.

(** A thought whose signature is missing, or is the dummy that Gemini skips. *)
Definition unsigned_thought (b : ContentBlock) : bool :=
  (cbk_Type b =s? "thinking") && ((cbk_Signature b =s? "") || (cbk_Signature b =s? DummyThoughtSignature)).

Definition unsigned_thoughts (messages : list ClaudeMessage) : bool := existsb (fun msg => existsb unsigned_thought (blocks_of msg)) messages.

Lemma build_part_signed allow names block parts names' s : build_part allow names block = (parts, names', s) ->
  forallb (signed allow) parts = true /\ s = negb allow && unsigned_thought block.
Proof.
  unfold build_part, unsigned_thought. destruct (String.eqb_spec (cbk_Type block) "text") as [->|_].
  { intros [= <- _ <-]. split; [|by destruct allow]. destruct (_ && _); [|done]. cbn [forallb]. by rewrite text_signed. }
  destruct (cbk_Type block =s? "thinking").
  { destruct (usable_signature _ _) eqn:Eu.
    - intros [= <- _ <-]. apply usable_signed in Eu as [H1 H2]. split; [unfold signed; cbn; rewrite H1, H2; by destruct allow|].
      rewrite negb_true_iff in H1. rewrite H1. destruct allow; [done|]. cbn in H2. rewrite negb_true_iff in H2. by rewrite H2.
    - destruct allow; cbn [negb]; intros [= <- _ <-]; [done|]. split; [by destruct (_ <>s? _)|].
      unfold usable_signature in Eu. cbn. destruct (cbk_Signature block =s? ""), (cbk_Signature block =s? DummyThoughtSignature); done. }
  rewrite andb_false_l, andb_false_r.
  destruct (cbk_Type block =s? "image").
  { intros [= <- _ <-]. split; [|done]. destruct (cbk_Source block); [|done]. destruct (_ =s? _); [by destruct allow | done]. }
  destruct (cbk_Type block =s? "tool_use").
  { intros [= <- _ <-]. split; [|done]. destruct (usable_signature _ _) eqn:Eu; [|by destruct allow].
    apply usable_signed in Eu as [H1 H2]. unfold signed; cbn. rewrite H1, H2. by destruct allow. }
  destruct (cbk_Type block =s? "tool_result"); intros [= <- _ <-]; split; try done. by destruct allow.
Qed.

Lemma build_block_parts_signed allow blocks : forall names parts names' s, build_block_parts allow names blocks = (parts, names', s) ->
  forallb (signed allow) parts = true /\ s = negb allow && existsb unsigned_thought blocks.
Proof.
  induction blocks as [|b blocks IH]; intros names parts names' s; cbn [build_block_parts]; [intros [= <- _ <-]; by rewrite andb_false_r|].
  destruct (build_part allow names b) as [[p1 n1] s1] eqn:E1. destruct (build_block_parts allow n1 blocks) as [[p2 n2] s2] eqn:E2. intros [= <- _ <-].
  destruct (build_part_signed _ _ _ _ _ _ E1) as [H1 H1']. destruct (IH _ _ _ _ E2) as [H2 H2'].
  rewrite forallb_app, H1, H2. split; [done|]. cbn [existsb]. rewrite H1', H2'. by destruct allow.
Qed.

Lemma buildParts_signed allow msg names parts names' s : buildParts (cmsg_Content msg) names allow = Ok (parts, names', s) ->
  forallb (signed allow) parts = true /\ s = negb allow && existsb unsigned_thought (blocks_of msg).
Proof.
  unfold buildParts, blocks_of. destruct (unmarshal dec_string "" (cmsg_Content msg)).
  - intros [= <- _ <-]. rewrite andb_false_r. split; [|done]. destruct (_ && _); [|done]. cbn [forallb]. by rewrite text_signed.
  - destruct (unmarshal _ _ (cmsg_Content msg)); [|done]. cbn. intros [= E]. by eapply build_block_parts_signed.
Qed.

Lemma build_contents_signed thinking allow messages : forall i names contents s,
  build_contents i messages names thinking allow = Ok (contents, s) ->
  forallb (signed allow) (all_parts contents) = true /\ s = negb allow && unsigned_thoughts messages.
Proof.
  induction messages as [|msg messages IH]; intros i names contents s; cbn [build_contents]; [intros [= <- <-]; by rewrite andb_false_r|].
  destruct (buildParts (cmsg_Content msg) names allow) as [[[parts names'] s1]|e] eqn:E; [|done]. cbn.
  destruct (buildParts_signed _ _ _ _ _ _ E) as [Hp Hs1].
  assert (Hp' : forallb (signed allow) (prefill_thought thinking allow (negb (nonempty messages)) (message_role (cmsg_Role msg)) parts) = true).
  { unfold prefill_thought. match goal with |- context [if ?c then _ else _] => destruct c eqn:Ec end; [|done]. cbn [forallb]. rewrite Hp. destruct allow; [done|]. by rewrite !andb_false_l in Ec. }
  set (parts' := prefill_thought _ _ _ _ _) in *. clearbody parts'.
  destruct (build_contents _ _ _ _ _) as [[rest s2]|e] eqn:Er; [|done]. cbn. intros [= <- <-]. destruct (IH _ _ _ _ Er) as [Hr Hs2].
  split; [|rewrite Hs1, Hs2; unfold unsigned_thoughts; cbn [existsb]; by destruct allow]. destruct parts' as [|p parts']; [done|].
  unfold all_parts; cbn [map concat gc_Parts]. rewrite forallb_app, Hp'. exact Hr.
Qed.

(** ** Requests *)

(** What a converted request holds. *)
Lemma transform_parts key_order fuel uuid random req project mapped opts v1 :
  transform_request key_order fuel uuid random req project mapped opts = Ok (Cleaned v1) ->
  exists contents stripped,
    buildContents (crq_Messages req) ∅ (thinking_requested (crq_Thinking req)) (has_prefix (vreq_Model v1) "gemini-") = Ok (contents, stripped) /\
    greq_Contents (vreq_Request v1) = contents /\
    greq_GenerationConfig (vreq_Request v1) = Some (buildGenerationConfig (request_for_config req stripped (vreq_Model v1))).
Proof.
  unfold transform_request. set (model := target_model _ _). destruct (buildContents _ _ _ _) as [[contents stripped]|e] eqn:E; [|done]. cbn.
  destruct (buildTools key_order fuel (crq_Tools req)) as [tools| |]; [|done..]. cbn. intros [= <-]. exists contents, stripped. split_and!; done.
Qed.

Lemma config_thinks req stripped model : is_some (ggc_ThinkingConfig (buildGenerationConfig (request_for_config req stripped model))) =
  thinking_requested (crq_Thinking req) && negb stripped.
Proof.
  assert (H : forall r, is_some (ggc_ThinkingConfig (buildGenerationConfig r)) = thinking_requested (crq_Thinking r)).
  { intros r. unfold buildGenerationConfig. destruct (crq_Thinking r) as [t|]; [|done]. by destruct (thinking_requested (Some t)). }
  rewrite H. unfold request_for_config. destruct stripped, (_ && _); cbn; by rewrite ?andb_true_r, ?andb_false_r.
Qed.

(** C31: A converted request can be verified.  For a model of Gemini every thought
    and every call has a signature, the dummy where there was none; for another
    model every thought has the upstream's own one and the dummy occurs nowhere.
    And the converted request asks for thinking exactly if the request does,
    unless the model is not Gemini's and a thought of the conversation has no
    signature or the dummy. *)
Theorem converted_parts_signed key_order fuel uuid random req project mapped opts v1 :
  transform_request key_order fuel uuid random req project mapped opts = Ok (Cleaned v1) ->
  let gemini := has_prefix (vreq_Model v1) "gemini-" in
  forallb (signed gemini) (all_parts (greq_Contents (vreq_Request v1))) = true /\
  is_some (greq_GenerationConfig (vreq_Request v1) ≫= ggc_ThinkingConfig) =
    thinking_requested (crq_Thinking req) && (gemini || negb (unsigned_thoughts (crq_Messages req))).
Proof.
  intros H. destruct (transform_parts _ _ _ _ _ _ _ _ _ H) as (contents & stripped & Hb & Hc & Hg). cbv zeta.
  destruct (build_contents_signed _ _ _ _ _ _ _ Hb) as [Hs ->]. split; [by rewrite Hc|]. rewrite Hg. cbn -[buildGenerationConfig request_for_config has_prefix].
  rewrite config_thinks. by destruct (has_prefix (vreq_Model v1) "gemini-").
Qed.

(** C32: Tool results carry the name of their call.  If the results of a request
    have no names of their own, each function response of the converted request
    has the name of the last call before it with its identifier, in whatever
    message that was, and the identifier itself if there is none. *)
Theorem tool_results_named key_order fuel uuid random req project mapped opts v1 :
  transform_request key_order fuel uuid random req project mapped opts = Ok (Cleaned v1) ->
  Forall (fun msg => Forall unnamed (blocks_of msg)) (crq_Messages req) ->
  forall before p after r, all_parts (greq_Contents (vreq_Request v1)) = before ++ p :: after -> gp_FunctionResponse p = Some r ->
    gfr_Name r = default (gfr_ID r) (calls before !! gfr_ID r).
Proof.
  intros H Hu before p after r Hp Hr. destruct (transform_parts _ _ _ _ _ _ _ _ _ H) as (contents & stripped & Hb & Hc & _).
  pose proof (build_contents_names _ _ _ 0 [] contents stripped Hu Hb) as Ha. rewrite Hc in Hp.
  exact (each_after_at _ _ Ha before p after Hp r Hr).
Qed.

(** ** Limits *)

(** C33: The limits of a request.  The output limit is positive and at most the
    model's; it is above a positive thinking budget exactly if the budget is
    below the model's limit.  A budget within a thousand of the largest integer
    makes the limit negative. *)
Theorem thinking_budget_bounds req : int64_range (crq_MaxTokens req) ->
  (forall t, crq_Thinking req = Some t -> int64_range (thc_BudgetTokens t)) ->
  let config := buildGenerationConfig req in
  let limit := maxOutputTokensLimit (crq_Model req) in
  ggc_MaxOutputTokens config <= limit /\
  match ggc_ThinkingConfig config with
  | None => 0 < ggc_MaxOutputTokens config
  | Some t =>
      let budget := gtc_ThinkingBudget t in
      (budget <= max_int64 - 1000 -> 0 < ggc_MaxOutputTokens config /\
         (0 < budget -> (budget < ggc_MaxOutputTokens config <-> budget < limit))) /\
      (max_int64 - 1000 < budget -> crq_MaxTokens req <= budget -> ggc_MaxOutputTokens config < 0)
  end.
Proof.
  intros Hm Ht. cbv zeta. unfold buildGenerationConfig. set (limit := maxOutputTokensLimit (crq_Model req)).
  assert (Hlim : 64000 <= limit) by (unfold limit, maxOutputTokensLimit; destruct (has_prefix _ _); cbv; done).
  set (tokens := if 0 <? crq_MaxTokens req then crq_MaxTokens req else defaultMaxOutputTokens).
  assert (Htok : 0 < tokens /\ int64_range tokens /\ (crq_MaxTokens req <= tokens)).
  { unfold tokens, int64_range, defaultMaxOutputTokens in *. destruct (Z.ltb_spec 0 (crq_MaxTokens req)); lia. }
  assert (Hmax : tokens = crq_MaxTokens req \/ tokens = 64000) by (unfold tokens, defaultMaxOutputTokens; destruct (0 <? _); tauto).
  clearbody tokens. clearbody limit.
  assert (Hclamp : forall x, (if limit <? x then limit else x) = Z.min limit x) by (intros x; destruct (Z.ltb_spec limit x); lia).
  destruct (crq_Thinking req) as [th|] eqn:Eth; [destruct (thinking_requested (Some th)) eqn:Er|]; cbn [ggc_MaxOutputTokens ggc_ThinkingConfig set_field];
    rewrite ?Hclamp; cbn; [|split; lia..].
  assert (Hbud : int64_range (thinking_budget (crq_Model req) th)).
  { specialize (Ht th eq_refl). unfold thinking_budget, ClaudeAdaptiveHighThinkingBudgetTokens, Gemini25FlashThinkingBudgetLimit, int64_range in *.
    destruct (0 <? thc_BudgetTokens th), (_ && isAntigravityOpusHighTierModel _); cbn; repeat destruct (_ && _); lia. }
  set (budget := thinking_budget (crq_Model req) th) in *. clearbody budget. split; [lia|].
  unfold ensureMaxTokensGreaterThanBudget, MaxTokensBudgetPadding, int64_range, max_int64 in *.
  destruct (Z.ltb_spec 0 budget); cbn [andb]; [destruct (Z.leb_spec tokens budget)|]; cbn [fst].
  - split.
    + intros Hb. rewrite add64_id by (unfold int64_range; lia). lia.
    + intros Hb _. unfold add64, wrap64. rewrite (Z.mod_eq _ (2 ^ 64)) by lia.
      replace ((budget + 1000 + 2 ^ 63) / 2 ^ 64) with 1 by (apply Z.div_unique with (r := budget + 1000 + 2 ^ 63 - 2 ^ 64); lia). lia.
  - split; [lia|]. intros Hb Hle. lia.
  - lia.
Qed.

(** ** A conversation

    A question, a call after a thought that nobody signed, and its result. *)

Definition a_conversation : ClaudeRequest :=
  zero_ClaudeRequest <| crq_Model := "claude-opus-4-6" |> <| crq_MaxTokens := 4000 |>
    <| crq_Thinking := Some (mkThinkingConfig "enabled" 70000) |>
    <| crq_Messages := [
         mkClaudeMessage "user" (dq "'how warm is it?'");
         mkClaudeMessage "assistant" (dq "[{'type':'thinking','thinking':'ask the tool'},{'type':'tool_use','id':'t1','name':'weather','input':{}}]");
         mkClaudeMessage "user" (dq "[{'type':'tool_result','tool_use_id':'t1','content':'12'}]")] |>.

Definition converted (model : string) : V1InternalRequest :=
  match transform_request (fun l => l) 9 "u" 7 a_conversation "p" model DefaultTransformOptions with
  | Ok (Cleaned v1) => v1
  | _ => zero_V1InternalRequest
  end.

Lemma a_conversation_converted model : In model ["claude-opus-4-6"; "gemini-3-flash"] ->
  transform_request (fun l => l) 9 "u" 7 a_conversation "p" model DefaultTransformOptions = Ok (Cleaned (converted model)).
Proof. intros H. repeat (destruct H as [<-|H]; [by vm_compute|]). done. Qed.

(** The thought that nobody signed turns thinking off for Claude only. *)
Lemma converted_parts_signed_witness :
  map gp_Thought (all_parts (greq_Contents (vreq_Request (converted "claude-opus-4-6")))) = [false; false; false; false] /\
  map gp_Thought (all_parts (greq_Contents (vreq_Request (converted "gemini-3-flash")))) = [false; true; false; false] /\
  forallb (signed true) (all_parts (greq_Contents (vreq_Request (converted "gemini-3-flash")))) = true /\
  is_some (greq_GenerationConfig (vreq_Request (converted "claude-opus-4-6")) ≫= ggc_ThinkingConfig) = false /\
  is_some (greq_GenerationConfig (vreq_Request (converted "gemini-3-flash")) ≫= ggc_ThinkingConfig) = true.
Proof.
  destruct (converted_parts_signed _ _ _ _ _ _ _ _ _ (a_conversation_converted "claude-opus-4-6" (or_introl eq_refl))) as [_ Hc].
  destruct (converted_parts_signed _ _ _ _ _ _ _ _ _ (a_conversation_converted "gemini-3-flash" (or_intror (or_introl eq_refl)))) as [Hs Hg].
  split; [by vm_compute|]. split; [by vm_compute|]. split; [exact Hs|]. split; [rewrite Hc|rewrite Hg]; by vm_compute.
Defined.

Lemma tool_results_named_witness : exists r,
  gp_FunctionResponse (List.last (all_parts (greq_Contents (vreq_Request (converted "gemini-3-flash")))) zero_GeminiPart) = Some r /\
  gfr_ID r = "t1" /\ gfr_Name r = "weather".
Proof.
  eexists. split; [by vm_compute|]. split; [done|].
  assert (Hu : Forall (fun msg => Forall unnamed (blocks_of msg)) (crq_Messages a_conversation)).
  { repeat (apply List.Forall_cons; [match goal with |- Forall _ ?l => let v := eval vm_compute in l in change l with v end;
      repeat (apply List.Forall_cons; [first [by left | by right]|]); apply List.Forall_nil|]). apply List.Forall_nil. }
  pose proof (tool_results_named _ _ _ _ _ _ _ _ _ (a_conversation_converted "gemini-3-flash" (or_intror (or_introl eq_refl))) Hu) as H.
  set (parts := all_parts _) in H. vm_compute in parts.
  specialize (H (removelast parts) (List.last parts zero_GeminiPart) [] _ eq_refl eq_refl). exact H.
Defined.

(** A budget above the model's limit: the output limit is not above it. *)
Lemma thinking_budget_bounds_witness :
  let config := buildGenerationConfig a_conversation in
  ggc_MaxOutputTokens config = 64000 /\ ~ gtc_ThinkingBudget (default zero_GeminiThinkingConfig (ggc_ThinkingConfig config)) < ggc_MaxOutputTokens config.
Proof.
  assert (Hm : int64_range (crq_MaxTokens a_conversation)) by (unfold int64_range; cbn; lia).
  assert (Ht : forall t, crq_Thinking a_conversation = Some t -> int64_range (thc_BudgetTokens t)) by (intros t [= <-]; unfold int64_range; cbn; lia).
  pose proof (thinking_budget_bounds a_conversation Hm Ht) as H. cbv zeta in *. split; [by vm_compute|].
  destruct (ggc_ThinkingConfig (buildGenerationConfig a_conversation)) as [t|] eqn:E; [|by vm_compute in E].
  assert (Hb : gtc_ThinkingBudget t = 70000) by (vm_compute in E; by injection E as <-).
  destruct H as (_ & H & _). rewrite Hb in H. destruct H as [_ H]; [vm_compute; done|]. cbn [from_option id]. rewrite Hb.
  intros Hlt. apply H in Hlt; [|lia]. by vm_compute in Hlt.
Defined.
