(* ===== verification/UsageBilling.v ===== *)
(** * Billing the usage of a request (service/usage_billing.go,
    repository/usage_billing_repo.go, repository/wallet_buckets.go)

    A request is billed by one transaction: it claims the request's key, writes
    the usage log, moves the money between wallets, advances the quotas and
    settles the share of the account's owner.  The metadata of ledger entries,
    log lines and the statements for SQLite are left out; texts are compared by
    their bytes and fit their columns. *)

From Stdlib Require Import Floats.SpecFloat.
From S2P Require Import Prelude GoStrings AppErrors Crypto PaymentData Decimals Transactions Program.
From S2P Require LogRedact.

(** ** Expressions of the database

    What the database computes with DECIMAL columns, arguments and times. *)

Class sql_database : Type := {
  column : Type;
  expr : Type;
  value : column -> expr;
  number : float64 -> expr;
  decimal_text : string -> expr;
  plus : expr -> expr -> expr;
  minus : expr -> expr -> expr;
  at_least : expr -> expr -> bool;
  stored : expr -> column;
  as_double : expr -> float64;
  as_text : expr -> string;
  datetime : Z -> Z;      (* a time as a DATETIME column keeps it *)
  day_start : Z -> Z;     (* DATE_FORMAT(t, '%Y-%m-%d 00:00:00') *)
}.

(** ** The command (service/usage_billing.go) *)

(** Of a usage log, what billing reads. *)
Record UsageLog : Type := mkUsageLog {
  log_ID : Z;
  log_RequestID : string;
  log_APIKeyID : Z;
  log_UserID : Z;
  log_AccountID : Z;
  log_Model : string;
  log_BillingType : Z;
  log_InputTokens : Z;
  log_OutputTokens : Z;
  log_CacheCreationTokens : Z;
  log_CacheReadTokens : Z;
  log_ImageCount : Z;
  log_ServiceTier : option string;
  log_ReasoningEffort : option string;
  log_SubscriptionID : option Z;
  log_GroupID : option Z;
  log_TotalCost : float64;
  log_ActualCost : float64;
  log_AccountStatsCost : option float64;
  log_AccountRateMultiplier : option float64;
  log_CreatedAt : option Z;    (* None: the zero time *)
}.
#[export] Instance eta_UsageLog : Settable UsageLog := fun l =>
  mkUsageLog (log_ID l) (log_RequestID l) (log_APIKeyID l) (log_UserID l) (log_AccountID l) (log_Model l) (log_BillingType l)
    (log_InputTokens l) (log_OutputTokens l) (log_CacheCreationTokens l) (log_CacheReadTokens l) (log_ImageCount l) (log_ServiceTier l)
    (log_ReasoningEffort l) (log_SubscriptionID l) (log_GroupID l) (log_TotalCost l) (log_ActualCost l) (log_AccountStatsCost l)
    (log_AccountRateMultiplier l) (log_CreatedAt l).

Record UsageBillingCommand : Type := mkUsageBillingCommand {
  RequestID : string;
  APIKeyID : Z;
  RequestFingerprint : string;
  RequestPayloadHash : string;
  UserID : Z;
  AccountID : Z;
  GroupID : option Z;
  SubscriptionID : option Z;
  AccountType : string;
  Model : string;
  ServiceTier : string;
  ReasoningEffort : string;
  BillingType : Z;
  InputTokens : Z;
  OutputTokens : Z;
  CacheCreationTokens : Z;
  CacheReadTokens : Z;
  ImageCount : Z;
  MediaType : string;
  BalanceCost : float64;
  PreferPointsBilling : bool;
  SubscriptionCost : float64;
  PrivateGroupCommissionCost : float64;
  APIKeyQuotaCost : float64;
  APIKeyRateLimitCost : float64;
  AccountQuotaCost : float64;
  ShareSnapshotCaptured : bool;
  ShareOwnerUserID : option Z;
  ShareModeSnapshot : string;
  ShareStatusSnapshot : string;
  SharePlatform : string;
  SharePolicyID : option Z;
  SharePolicyVersion : Z;
  OwnerShareRatio : float64;
  InviteShareRatio : float64;
  UsageOccurredAt : option Z;
  cmd_UsageLog : option UsageLog;
}.
#[export] Instance eta_UsageBillingCommand : Settable UsageBillingCommand := fun c =>
  mkUsageBillingCommand (RequestID c) (APIKeyID c) (RequestFingerprint c) (RequestPayloadHash c) (UserID c) (AccountID c) (GroupID c)
    (SubscriptionID c) (AccountType c) (Model c) (ServiceTier c) (ReasoningEffort c) (BillingType c) (InputTokens c) (OutputTokens c)
    (CacheCreationTokens c) (CacheReadTokens c) (ImageCount c) (MediaType c) (BalanceCost c) (PreferPointsBilling c) (SubscriptionCost c)
    (PrivateGroupCommissionCost c) (APIKeyQuotaCost c) (APIKeyRateLimitCost c) (AccountQuotaCost c) (ShareSnapshotCaptured c)
    (ShareOwnerUserID c) (ShareModeSnapshot c) (ShareStatusSnapshot c) (SharePlatform c) (SharePolicyID c) (SharePolicyVersion c)
    (OwnerShareRatio c) (InviteShareRatio c) (UsageOccurredAt c) (cmd_UsageLog c).

(** [%0.10f]: the exact value, halves to even. *)
Definition fixed10 (x : float64) : string :=
  match x with
  | S754_nan => "NaN"
  | S754_infinity s => if s then "-Inf" else "+Inf"
  | S754_zero s => if s then "-0.0000000000" else "0.0000000000"
  | S754_finite s m e =>
      let scaled :=
        if 0 <=? e then Z.pos m * 2 ^ e * 10 ^ 10 else
        let d := 2 ^ (- e) in
        let n := Z.pos m * 10 ^ 10 in
        let q := n / d in
        let r := 2 * (n - q * d) in
        if (d <? r) || ((r =? d) && Z.odd q) then q + 1 else q in
      let frac := pretty (scaled `mod` 10 ^ 10) in
      (if s then "-" else "") +:+ pretty (scaled / 10 ^ 10) +:+ "." +:+ String.concat "" (repeat "0" (10 - String.length frac)) +:+ frac
  end.

Definition bool_text (b : bool) : string := if b then "true" else "false".
Definition valueOrZero (v : option Z) : Z := default 0 v.

Definition buildUsageBillingFingerprint (c : UsageBillingCommand) : string :=
  let raw := join
    [pretty (UserID c); pretty (AccountID c); pretty (APIKeyID c); trim_space (AccountType c); trim_space (Model c);
     trim_space (ServiceTier c); trim_space (ReasoningEffort c); pretty (BillingType c); pretty (InputTokens c);
     pretty (OutputTokens c); pretty (CacheCreationTokens c); pretty (CacheReadTokens c); pretty (ImageCount c);
     trim_space (MediaType c); pretty (valueOrZero (SubscriptionID c)); fixed10 (BalanceCost c); bool_text (PreferPointsBilling c);
     fixed10 (SubscriptionCost c); fixed10 (PrivateGroupCommissionCost c); fixed10 (APIKeyQuotaCost c);
     fixed10 (APIKeyRateLimitCost c); fixed10 (AccountQuotaCost c)] "|" in
  let payloadHash := trim_space (RequestPayloadHash c) in
  sha256_hex (if payloadHash <>s? "" then raw +:+ "|" +:+ payloadHash else raw).

Definition HashUsageRequestPayload (payload : string) : string := if payload =s? "" then "" else sha256_hex payload.

Definition Normalize (c : UsageBillingCommand) : UsageBillingCommand :=
  let c := c <| RequestID := trim_space (RequestID c) |> in
  if trim_space (RequestFingerprint c) =s? "" then c <| RequestFingerprint := buildUsageBillingFingerprint c |> else c.

Definition ErrUsageBillingRequestIDRequired : error := OtherError "usage billing request_id is required".
Definition ErrUsageBillingRequestConflict : error := OtherError "usage billing request fingerprint conflict".
Definition ErrNoRows : error := OtherError "sql: no rows in result set".
Definition ErrUserNotFound : error := NotFound "USER_NOT_FOUND" "user not found".
Definition ErrSubscriptionNotFound : error := NotFound "SUBSCRIPTION_NOT_FOUND" "subscription not found".
Definition ErrAPIKeyNotFound : error := NotFound "API_KEY_NOT_FOUND" "api key not found".
Definition ErrAccountNotFound : error := NotFound "ACCOUNT_NOT_FOUND" "account not found".

Section Billing.
Context {D : decimal_ops} {Q : sql_database}.

(** ** Tables

    Rows that were deleted are left out, and so is what nothing reads. *)

Record dedup_row : Type := mkDedup { dd_id : Z; dd_request : string; dd_key : Z; dd_fingerprint : string; dd_created : Z }.

Record user : Type := mkUser {
  u_status : string; u_balance : column; u_points : column; u_recharge : column; u_invite : column; u_share : column;
  u_total_recharged : column; u_total_invite : column; u_total_share : column;
}.
#[export] Instance eta_user : Settable user := fun u =>
  mkUser (u_status u) (u_balance u) (u_points u) (u_recharge u) (u_invite u) (u_share u) (u_total_recharged u) (u_total_invite u) (u_total_share u).

Record ledger_entry : Type := mkEntry {
  le_user : Z; le_direction : string; le_amount : string; le_reason : string; le_ref_type : string; le_ref : option Z;
  le_before : option string; le_after : string }.

Record settlement : Type := mkSettlement {
  se_UsageLogID : option Z; se_RequestID : string; se_APIKeyID : Z; se_ConsumerUserID : Z; se_OwnerUserID : Z; se_AccountID : Z;
  se_GroupID : option Z; se_PolicyID : option Z; se_PolicyVersion : Z; se_ShareMode : string; se_ShareStatus : string;
  se_ConsumerCharge : decimal; se_AccountCost : decimal; se_OwnerShareRatio : decimal; se_OwnerCredit : decimal;
  se_InviterUserID : option Z; se_InviteBoundAt : option Z; se_InviteExpiresAt : option Z; se_InviteShareRatio : decimal;
  se_InviteCredit : decimal; se_PlatformShareRatio : decimal; se_PlatformFee : decimal }.

Record member : Type := mkMember { m_group : Z; m_user : Z; m_active : bool; m_window_start : option Z; m_used : option column }.
Record subscription : Type := mkSubscription { s_daily : column; s_weekly : column; s_monthly : column }.
Record api_key : Type := mkKey {
  k_status : string; k_quota : column; k_quota_used : column;
  k_usage_5h : column; k_usage_1d : column; k_usage_7d : column;
  k_start_5h : option Z; k_start_1d : option Z; k_start_7d : option Z }.
#[export] Instance eta_api_key : Settable api_key := fun k =>
  mkKey (k_status k) (k_quota k) (k_quota_used k) (k_usage_5h k) (k_usage_1d k) (k_usage_7d k) (k_start_5h k) (k_start_1d k) (k_start_7d k).

(** The quota members of an account's extra document. *)
Record quota_period : Type := mkPeriod { q_used : expr; q_limit : expr; q_start : option Z; q_fixed : bool; q_reset_at : option Z }.
Record account : Type := mkAccount {
  a_owner : option Z; a_mode : string; a_share_status : string; a_platform : string; a_policy : option Z;
  a_used : expr; a_limit : expr; a_daily : quota_period; a_weekly : quota_period }.
#[export] Instance eta_account : Settable account := fun a =>
  mkAccount (a_owner a) (a_mode a) (a_share_status a) (a_platform a) (a_policy a) (a_used a) (a_limit a) (a_daily a) (a_weekly a).

Record share_policy : Type := mkPolicy {
  p_id : Z; p_owner_ratio : string; p_invite_ratio : string; p_version : Z; p_effective : Z }.   (* enabled and global *)
Record affiliate : Type := mkAffiliate { af_user : Z; af_inviter : option Z; af_bound : Z; af_expires : option Z }.

(** [billed]: the keys of the transactions that took effect, for the proofs. *)
Record tables : Type := mkTables {
  dedup : list dedup_row;
  next_dedup : Z;
  archive : gmap (string * Z) string;
  usage_logs : list (Z * (option string * Z) * Z);
  next_log : Z;
  users : gmap Z user;
  balance_ledger : list ledger_entry;
  points_ledger : list ledger_entry;
  subscriptions : gmap Z subscription;
  members : list member;
  api_keys : gmap Z api_key;
  accounts : gmap Z account;
  outbox : list (Z * Z);
  policies : list share_policy;
  affiliates : list affiliate;
  settings : gmap string string;
  settlements : list settlement;
  aff_history : gmap Z column;
  aff_ledger : list (Z * string * Z);
  billed : list (string * Z);
}.
#[export] Instance eta_tables : Settable tables := fun t =>
  mkTables (dedup t) (next_dedup t) (archive t) (usage_logs t) (next_log t) (users t) (balance_ledger t) (points_ledger t)
    (subscriptions t) (members t) (api_keys t) (accounts t) (outbox t) (policies t) (affiliates t) (settings t) (settlements t)
    (aff_history t) (aff_ledger t) (billed t).

(** The time of the statements, and what fails. *)
Context (now : Z) (faults : nat -> option error).

Abbreviation T := (@TX tables).
Abbreviation stmt := (statement faults).
Abbreviation select := (query faults).
Abbreviation run_sql := (exec faults).

(** A query for one row. *)
Definition select_row {A} (e : error) (f : tables -> option A) : T A :=
  r ← select f; match r with Some a => mret a | None => fail e end.

(** ** Decimals *)

Definition decimal_Zero : decimal := NewFromInt 0.
Definition decimalFromFloat (v : float64) : decimal := if SFleb v f64_zero then decimal_Zero else dec_Round 10 (NewFromFloat v).
Definition decimalFromSignedFloat (v : float64) : decimal := dec_Round 10 (NewFromFloat v).
Definition positive_f (v : float64) : bool := SFltb f64_zero v.
Definition nullablePositiveInt64 (v : Z) : option Z := if v <=? 0 then None else Some v.
Definition nullablePtrInt64 (v : option Z) : option Z := match v with Some z => nullablePositiveInt64 z | None => None end.

(** ** Claiming the key *)

Definition same_key (request : string) (key : Z) (r : dedup_row) : bool := (dd_request r =s? request) && (dd_key r =? key).

Definition dedup_of (request : string) (key : Z) (db : tables) : option string :=
  dd_fingerprint <$> List.find (same_key request key) (dedup db).

(** INSERT IGNORE: how many rows were inserted. *)
Definition insert_dedup (request : string) (key : Z) (fingerprint : string) (db : tables) : outcome Z * tables :=
  match dedup_of request key db with
  | Some _ => (Success 0, db)
  | None =>
      (Success 1, db <| dedup := (dedup db ++ [mkDedup (next_dedup db) request key fingerprint (datetime now)])%list |>
                     <| next_dedup := next_dedup db + 1 |>)
  end.

Definition claimUsageBillingKey (c : UsageBillingCommand) : T bool :=
  affected ← stmt (insert_dedup (RequestID c) (APIKeyID c) (RequestFingerprint c));
  if affected =? 0 then
    existingFingerprint ← select_row ErrNoRows (dedup_of (RequestID c) (APIKeyID c));
    if trim_space existingFingerprint <>s? trim_space (RequestFingerprint c) then fail ErrUsageBillingRequestConflict else mret false
  else
    archived ← select (fun db => archive db !! (RequestID c, APIKeyID c));
    match archived with
    | Some archivedFingerprint =>
        if trim_space archivedFingerprint <>s? trim_space (RequestFingerprint c) then fail ErrUsageBillingRequestConflict else mret false
    | None => mret true
    end.

(** ** The usage log *)

Definition log_key (request : option string) (key : Z) (r : Z * (option string * Z) * Z) : bool :=
  match request, fst (snd (fst r)) with
  | Some a, Some b => (a =s? b) && (snd (snd (fst r)) =? key)
  | _, _ => false
  end.

Definition insert_log (request : option string) (key created : Z) (db : tables) : outcome (option Z) * tables :=
  if existsb (log_key request key) (usage_logs db) then (Success None, db) else
  (Success (Some (next_log db)),
   db <| usage_logs := (usage_logs db ++ [(next_log db, (request, key), datetime created)])%list |> <| next_log := next_log db + 1 |>).

(** The identifier and the time are those of the row, which may have been written before. *)
Definition createSingle (l : UsageLog) : T UsageLog :=
  let requestID := trim_space (log_RequestID l) in
  let l := l <| log_RequestID := requestID |> in
  let createdAt := default now (log_CreatedAt l) in
  let requestIDArg := if requestID <>s? "" then Some requestID else None in
  inserted ← stmt (insert_log requestIDArg (log_APIKeyID l) createdAt);
  match inserted with
  | Some insertID =>
      row ← select_row ErrNoRows (fun db => List.find (fun r => fst (fst r) =? insertID) (usage_logs db));
      mret (l <| log_ID := fst (fst row) |> <| log_CreatedAt := Some (snd row) |>)
  | None =>
      if requestID <>s? "" then
        row ← select_row ErrNoRows (fun db => List.find (log_key (Some requestID) (log_APIKeyID l)) (usage_logs db));
        mret (l <| log_ID := fst (fst row) |> <| log_CreatedAt := Some (snd row) |>)
      else fail ErrNoRows
  end.

(** With the command as it is afterwards: the log is shared. *)
Definition ensureUsageBillingLog (c : UsageBillingCommand) : T (Z * UsageBillingCommand) :=
  match cmd_UsageLog c with
  | None => mret (0, c)
  | Some l =>
      let l := if trim_space (log_RequestID l) =s? "" then l <| log_RequestID := RequestID c |> else l in
      let l := if log_APIKeyID l =? 0 then l <| log_APIKeyID := APIKeyID c |> else l in
      let l := if log_UserID l =? 0 then l <| log_UserID := UserID c |> else l in
      let l := if log_AccountID l =? 0 then l <| log_AccountID := AccountID c |> else l in
      l ← createSingle l;
      mret (log_ID l, c <| cmd_UsageLog := Some l |>)
  end.

(** ** Wallets (repository/wallet_buckets.go) *)

(** [math.Min] and [math.Max]. *)
Definition math_Min (x y : float64) : float64 :=
  if (is_inf x && SFltb x f64_zero) || (is_inf y && SFltb y f64_zero) then S754_infinity true
  else if is_nan x || is_nan y then S754_nan
  else match x, y with
       | S754_zero s, S754_zero _ => if s then x else y
       | _, _ => if SFltb x y then x else y
       end.

Definition math_Max (x y : float64) : float64 :=
  if (is_inf x && SFltb f64_zero x) || (is_inf y && SFltb f64_zero y) then S754_infinity false
  else if is_nan x || is_nan y then S754_nan
  else match x, y with
       | S754_zero s, S754_zero _ => if s then y else x
       | _, _ => if SFltb y x then x else y
       end.

(** [column + ?], and [column - ?]. *)
Definition col_add (c : column) (x : float64) : column := stored (plus (value c) (number x)).
Definition col_sub (c : column) (x : float64) : column := stored (minus (value c) (number x)).

Definition update_user (userID : Z) (f : user -> user) (db : tables) : tables := db <| users := alter f userID (users db) |>.

Definition select_user {A} (userID : Z) (f : user -> A) : T A := select_row ErrUserNotFound (fun db => f <$> users db !! userID).

Definition scan_balance (u : user) : float64 := as_double (value (u_balance u)).

Definition getUserBalanceForWallet (userID : Z) : T float64 := select_user userID scan_balance.

Definition credit_user (bucket : string) (amount : float64) (u : user) : user :=
  let u := u <| u_balance := col_add (u_balance u) amount |> in
  if bucket =s? "share" then u <| u_share := col_add (u_share u) amount |> <| u_total_share := col_add (u_total_share u) amount |>
  else if bucket =s? "invite" then u <| u_invite := col_add (u_invite u) amount |> <| u_total_invite := col_add (u_total_invite u) amount |>
  else u <| u_recharge := col_add (u_recharge u) amount |> <| u_total_recharged := col_add (u_total_recharged u) amount |>.

Definition creditWalletBucket (userID : Z) (amount : float64) (bucket : string) : T float64 :=
  if userID <=? 0 then fail ErrUserNotFound
  else if SFleb amount f64_zero then getUserBalanceForWallet userID
  else if negb (in_list bucket ["share"; "invite"; "recharge"]) then fail (OtherError ("unknown wallet bucket " +:+ bucket))
  else
    _ ← run_sql (update_user userID (credit_user bucket amount));
    select_user userID scan_balance.

Record walletBucketUpdateResult : Type := mkWalletResult {
  NewBalance : float64; NewRechargeBalance : float64; NewInviteBalance : float64; NewShareBalance : float64;
  debit_Recharge : float64; debit_Invite : float64; debit_Share : float64 }.

Definition wallet_result (r i s : float64) (u : user) : walletBucketUpdateResult :=
  mkWalletResult (scan_balance u) (as_double (value (u_recharge u))) (as_double (value (u_invite u))) (as_double (value (u_share u))) r i s.

Definition loadWalletBucketUpdateResult (userID : Z) : T walletBucketUpdateResult :=
  select_user userID (wallet_result f64_zero f64_zero f64_zero).

(** What each bucket pays. *)
Definition bucket_debits (recharge invite share amount : float64) : float64 * float64 * float64 :=
  let rechargeDebit := math_Min recharge amount in
  let afterRecharge := math_Max (f64_sub amount rechargeDebit) f64_zero in
  let inviteDebit := math_Min invite afterRecharge in
  let afterInvite := math_Max (f64_sub afterRecharge inviteDebit) f64_zero in
  (rechargeDebit, inviteDebit, math_Min share afterInvite).

Definition debit_user (amount r i s : float64) (u : user) : user :=
  u <| u_balance := col_sub (u_balance u) amount |> <| u_recharge := col_sub (u_recharge u) r |>
    <| u_invite := col_sub (u_invite u) i |> <| u_share := col_sub (u_share u) s |>.

Definition debitWalletBuckets (userID : Z) (amount : float64) : T walletBucketUpdateResult :=
  if userID <=? 0 then fail ErrUserNotFound
  else if SFleb amount f64_zero then
    _ ← getUserBalanceForWallet userID;
    loadWalletBucketUpdateResult userID
  else
    buckets ← select_user userID (fun u => (as_double (value (u_recharge u)), as_double (value (u_invite u)), as_double (value (u_share u))));
    let '(rechargeBalance, inviteBalance, shareBalance) := buckets in
    let '(r, i, s) := bucket_debits rechargeBalance inviteBalance shareBalance amount in
    _ ← run_sql (update_user userID (debit_user amount r i s));
    select_user userID (wallet_result r i s).

Definition deductUsageBillingBalance (userID : Z) (amount : float64) : T float64 :=
  result ← debitWalletBuckets userID amount; mret (NewBalance result).

(** New points, new balance, points deducted, balance deducted. *)
Definition deductUsageBillingWallet (userID : Z) (amount : float64) (preferPoints : bool) : T (float64 * float64 * float64 * float64) :=
  if SFleb amount f64_zero then mret (f64_zero, f64_zero, f64_zero, f64_zero)
  else if negb preferPoints then
    newBalance ← deductUsageBillingBalance userID amount;
    mret (f64_zero, newBalance, f64_zero, amount)
  else
    current ← select_user userID (fun u => (scan_balance u, as_double (value (u_points u))));
    let '(currentBalance, currentPoints) := current in
    let pointsDeducted := if SFltb currentPoints amount then currentPoints else amount in
    let pointsDeducted := if SFltb pointsDeducted f64_zero then f64_zero else pointsDeducted in
    let balanceDeducted := f64_sub amount pointsDeducted in
    let balanceDeducted := if SFltb balanceDeducted f64_zero then f64_zero else balanceDeducted in
    let newPointsBalance := f64_sub currentPoints pointsDeducted in
    _ ← run_sql (update_user userID (fun u => u <| u_points := stored (decimal_text (StringFixed 10 (decimalFromFloat newPointsBalance))) |>));
    newBalance ← (if positive_f balanceDeducted then
                    walletResult ← debitWalletBuckets userID balanceDeducted; mret (NewBalance walletResult)
                  else mret currentBalance);
    mret (newPointsBalance, newBalance, pointsDeducted, balanceDeducted).

(** ** Ledgers *)

Definition same_entry (a b : ledger_entry) : bool :=
  (le_user a =? le_user b) && (le_direction a =s? le_direction b) && (le_reason a =s? le_reason b) &&
  (le_ref_type a =s? le_ref_type b) &&
  match le_ref a, le_ref b with Some x, Some y => x =? y | _, _ => false end.

(** INSERT IGNORE. *)
Definition insert_entry (e : ledger_entry) (l : list ledger_entry) : list ledger_entry :=
  if existsb (same_entry e) l then l else l ++ [e].

Definition insertUserBalanceLedger (userID : Z) (direction : string) (amount : decimal) (reason : string) (ref : option Z) (after : decimal) : T unit :=
  if (userID <=? 0) || IsNegative amount then mret tt else
  run_sql (fun db => db <| balance_ledger :=
    insert_entry (mkEntry userID direction (StringFixed 10 amount) reason "usage_log" ref None (StringFixed 10 after)) (balance_ledger db) |>).

Definition insertPointsLedger (userID : Z) (amount : decimal) (ref : option Z) (before after : decimal) : T unit :=
  if (userID <=? 0) || IsNegative amount then mret tt else
  run_sql (fun db => db <| points_ledger :=
    insert_entry (mkEntry userID "debit" (StringFixed 10 amount) "usage_charge" "usage_log" ref (Some (StringFixed 10 before)) (StringFixed 10 after))
      (points_ledger db) |>).

(** ** Subscriptions, carpools and quotas *)

(** Of subscriptions whose group exists; the affected rows. *)
Definition incrementUsageBillingSubscription (subscriptionID : Z) (costUSD : float64) : T unit :=
  affected ← stmt (fun db =>
    match subscriptions db !! subscriptionID with
    | Some _ => (Success 1, db <| subscriptions := alter (fun s =>
        mkSubscription (col_add (s_daily s) costUSD) (col_add (s_weekly s) costUSD) (col_add (s_monthly s) costUSD)) subscriptionID (subscriptions db) |>)
    | None => (Success 0, db)
    end);
  if 0 <? affected then mret tt else fail ErrSubscriptionNotFound.

Definition hours (n : Z) : Z := n * 3600 * 1000000000.

Definition use_member (groupID userID : Z) (costUSD : float64) (occurredAt : Z) (m : member) : member :=
  if (m_group m =? groupID) && (m_user m =? userID) && m_active m then
    let over := match m_window_start m with None => true | Some t => t + hours 5 <=? occurredAt end in
    let used := if over then stored (number costUSD)
                else stored (plus (match m_used m with Some c => value c | None => number f64_zero end) (number costUSD)) in
    mkMember (m_group m) (m_user m) (m_active m) (if over then Some (datetime occurredAt) else m_window_start m) (Some used)
  else m.

Definition incrementUsageBillingCarpoolFiveHour (groupID userID : Z) (costUSD : float64) (occurredAt : option Z) : T unit :=
  if (groupID <=? 0) || (userID <=? 0) || SFleb costUSD f64_zero then mret tt else
  run_sql (fun db => db <| members := map (use_member groupID userID costUSD (default now occurredAt)) (members db) |>).

Definition StatusAPIKeyActive : string := "active".
Definition StatusAPIKeyQuotaExhausted : string := "quota_exhausted".

Definition zero_expr : expr := number f64_zero.
Definition above (a b : expr) : bool := negb (at_least b a).

Definition use_key_quota (amount : float64) (k : api_key) : api_key :=
  let quota := value (k_quota k) in
  let used := value (k_quota_used k) in
  k <| k_status := if above quota zero_expr && (k_status k =s? StatusAPIKeyActive) && above quota used && at_least (plus used (number amount)) quota
                   then StatusAPIKeyQuotaExhausted else k_status k |>
    <| k_quota_used := col_add (k_quota_used k) amount |>.

Definition incrementUsageBillingAPIKeyQuota (apiKeyID : Z) (amount : float64) : T bool :=
  _ ← run_sql (fun db => db <| api_keys := alter (use_key_quota amount) apiKeyID (api_keys db) |>);
  select_row ErrAPIKeyNotFound (fun db =>
    (fun k => let quota := value (k_quota k) in let used := value (k_quota_used k) in
              above quota zero_expr && at_least used quota && above quota (minus used (number amount))) <$> api_keys db !! apiKeyID).

Definition expired (start : option Z) (length : Z) : bool := match start with Some t => t + length <=? now | None => false end.

Definition use_window (usage : column) (cost : float64) (start : option Z) (length : Z) : column :=
  if expired start length then stored (number cost) else col_add usage cost.

Definition move_window (start : option Z) (length new : Z) : option Z :=
  match start with
  | None => Some (datetime new)
  | Some t => if t + length <=? now then Some (datetime new) else start
  end.

Definition use_key_windows (cost : float64) (k : api_key) : api_key :=
  mkKey (k_status k) (k_quota k) (k_quota_used k)
    (use_window (k_usage_5h k) cost (k_start_5h k) (hours 5)) (use_window (k_usage_1d k) cost (k_start_1d k) (hours 24))
    (use_window (k_usage_7d k) cost (k_start_7d k) (hours 168))
    (move_window (k_start_5h k) (hours 5) now) (move_window (k_start_1d k) (hours 24) (day_start now))
    (move_window (k_start_7d k) (hours 168) (day_start now)).

Definition incrementUsageBillingAPIKeyRateLimit (apiKeyID : Z) (cost : float64) : T unit :=
  affected ← stmt (fun db =>
    match api_keys db !! apiKeyID with
    | Some _ => (Success 1, db <| api_keys := alter (use_key_windows cost) apiKeyID (api_keys db) |>)
    | None => (Success 0, db)
    end);
  if affected =? 0 then fail ErrAPIKeyNotFound else mret tt.

(** ** The quota of an account

    [next_reset]: the next reset of an account with fixed times, which
    account_repo.go computes from its time zone, hour and weekday. *)

Context (next_reset : Z -> account -> Z -> option Z).

Definition cast (e : expr) : expr := value (stored e).

Definition period_expired (length : Z) (p : quota_period) : bool :=
  if q_fixed p then default 0 (q_reset_at p) <=? now else default 0 (q_start p) + length <=? now.

Definition use_period (length : Z) (amount : float64) (next : option Z) (p : quota_period) : quota_period :=
  if above (cast (q_limit p)) zero_expr then
    let over := period_expired length p in
    mkPeriod (if over then number amount else plus (cast (q_used p)) (number amount)) (q_limit p)
      (if over then Some (datetime now) else Some (default (datetime now) (q_start p))) (q_fixed p)
      (match next with Some t => if over then Some t else q_reset_at p | None => q_reset_at p end)
  else p.

Definition use_account_quota (amount : float64) (a : account) : account :=
  a <| a_used := plus (cast (a_used a)) (number amount) |>
    <| a_daily := use_period (hours 24) amount (next_reset (hours 24) a now) (a_daily a) |>
    <| a_weekly := use_period (hours 168) amount (next_reset (hours 168) a now) (a_weekly a) |>.

Record AccountQuotaState : Type := mkQuotaState {
  TotalUsed : float64; TotalLimit : float64; DailyUsed : float64; DailyLimit : float64; WeeklyUsed : float64; WeeklyLimit : float64 }.

Definition read_quota (a : account) : AccountQuotaState :=
  let read e := as_double (cast e) in
  mkQuotaState (read (a_used a)) (read (a_limit a)) (read (q_used (a_daily a))) (read (q_limit (a_daily a)))
    (read (q_used (a_weekly a))) (read (q_limit (a_weekly a))).

Definition crossed (limit used amount : float64) : bool :=
  positive_f limit && SFleb limit used && SFltb (f64_sub used amount) limit.

Definition schedulerOutboxDedupWindow : Z := 1000000000.

Definition enqueueSchedulerOutbox (accountID : Z) : T unit :=
  run_sql (fun db =>
    if existsb (fun e => (fst e =? accountID) && (now - schedulerOutboxDedupWindow <=? snd e)) (outbox db) then db
    else db <| outbox := (outbox db ++ [(accountID, datetime now)])%list |>).

Definition incrementUsageBillingAccountQuota (accountID : Z) (amount : float64) : T AccountQuotaState :=
  _ ← run_sql (fun db => db <| accounts := alter (use_account_quota amount) accountID (accounts db) |>);
  state ← select_row ErrAccountNotFound (fun db => read_quota <$> accounts db !! accountID);
  _ ← (if crossed (TotalLimit state) (TotalUsed state) amount || crossed (DailyLimit state) (DailyUsed state) amount ||
          crossed (WeeklyLimit state) (WeeklyUsed state) amount
       then enqueueSchedulerOutbox accountID else mret tt);
  mret state.

(** ** The share of the account's owner *)

Definition AccountShareModePrivate : string := "private".
Definition AccountShareModePublic : string := "public".
Definition AccountShareStatusPending : string := "pending".
Definition AccountShareStatusApproved : string := "approved".
Definition AccountShareStatusSuspended : string := "suspended".

Definition NormalizeAccountShareMode (mode : string) : string :=
  if LogRedact.to_lower (trim_space mode) =s? AccountShareModePublic then AccountShareModePublic else AccountShareModePrivate.

Definition NormalizeAccountShareStatus (status : string) : string :=
  let s := LogRedact.to_lower (trim_space status) in
  if s =s? AccountShareStatusPending then AccountShareStatusPending
  else if s =s? AccountShareStatusSuspended then AccountShareStatusSuspended
  else AccountShareStatusApproved.

Record accountShareSnapshot : Type := mkShareSnapshot {
  ss_OwnerUserID : Z; ss_ShareMode : string; ss_ShareStatus : string; ss_Platform : string; ss_SharePolicyID : option Z }.
#[export] Instance eta_accountShareSnapshot : Settable accountShareSnapshot := fun s =>
  mkShareSnapshot (ss_OwnerUserID s) (ss_ShareMode s) (ss_ShareStatus s) (ss_Platform s) (ss_SharePolicyID s).

Definition loadAccountShareSnapshot (accountID : Z) : T accountShareSnapshot :=
  select_row ErrAccountNotFound (fun db =>
    (fun a => mkShareSnapshot (default 0 (a_owner a)) (if a_mode a =s? "" then "private" else a_mode a)
       (if a_share_status a =s? "" then "approved" else a_share_status a) (trim_space (a_platform a)) (a_policy a)) <$> accounts db !! accountID).

Definition positive_id (v : option Z) : Z := match v with Some z => if 0 <? z then z else 0 | None => 0 end.

Definition command_snapshot (c : UsageBillingCommand) : accountShareSnapshot :=
  mkShareSnapshot (positive_id (ShareOwnerUserID c)) (ShareModeSnapshot c) (ShareStatusSnapshot c) (trim_space (SharePlatform c))
    (nullablePtrInt64 (SharePolicyID c)).

Definition accountShareSnapshotForSettlement (c : UsageBillingCommand) : T accountShareSnapshot :=
  if ShareSnapshotCaptured c then mret (command_snapshot c)
  else if positive_id (ShareOwnerUserID c) =? 0 then loadAccountShareSnapshot (AccountID c)
  else
    let out := command_snapshot c in
    if (ss_ShareMode out =s? "") || (ss_ShareStatus out =s? "") then
      dbSnapshot ← loadAccountShareSnapshot (AccountID c);
      let out := if ss_ShareMode out =s? "" then out <| ss_ShareMode := ss_ShareMode dbSnapshot |> else out in
      let out := if ss_ShareStatus out =s? "" then out <| ss_ShareStatus := ss_ShareStatus dbSnapshot |> else out in
      let out := if ss_Platform out =s? "" then out <| ss_Platform := ss_Platform dbSnapshot |> else out in
      mret (match ss_SharePolicyID out with None => out <| ss_SharePolicyID := ss_SharePolicyID dbSnapshot |> | Some _ => out end)
    else mret out.

Definition accountShareConsumerCharge (c : UsageBillingCommand) : decimal :=
  if positive_f (BalanceCost c) then decimalFromFloat (BalanceCost c)
  else if positive_f (SubscriptionCost c) then decimalFromFloat (SubscriptionCost c)
  else match cmd_UsageLog c with
       | Some l => if positive_f (log_ActualCost l) then decimalFromFloat (log_ActualCost l) else decimal_Zero
       | None => decimal_Zero
       end.

Record accountSharePolicySnapshot : Type := mkPolicySnapshot {
  pol_ID : option Z; pol_Version : Z; pol_OwnerShareRatio : decimal; pol_InviteShareRatio : decimal }.

Definition one : decimal := NewFromInt 1.

Definition clamp_ratio (d : decimal) : decimal :=
  let d := if IsNegative d then decimal_Zero else d in
  if dec_GreaterThan d one then one else d.

(** Both between 0 and 1, and together at most 1. *)
Definition share_ratios (owner invite : decimal) : decimal * decimal :=
  let owner := clamp_ratio owner in
  let invite := clamp_ratio invite in
  let invite := if dec_GreaterThan (dec_Add owner invite) one then
                  let rest := dec_Sub one owner in if IsNegative rest then decimal_Zero else rest
                else invite in
  (owner, invite).

Definition usageBillingCommandHasPolicySnapshot (c : UsageBillingCommand) : bool :=
  is_some (SharePolicyID c) || (0 <? SharePolicyVersion c) || positive_f (OwnerShareRatio c) || positive_f (InviteShareRatio c).

(** ORDER BY effective_at DESC, version DESC, id DESC LIMIT 1. *)
Definition policy_before (a b : share_policy) : bool :=
  if p_effective a =? p_effective b then
    if p_version a =? p_version b then p_id b <? p_id a else p_version b <? p_version a
  else p_effective b <? p_effective a.

Definition first_policy (db : tables) : option share_policy :=
  foldl (fun best p => match best with Some b => if policy_before p b then Some p else best | None => Some p end) None
    (List.filter (fun p => p_effective p <=? now) (policies db)).

Definition no_decimal (s : string) : error := OtherError ("can't convert " +:+ s +:+ " to decimal").

Definition queryAccountSharePolicy : T (option accountSharePolicySnapshot) :=
  row ← select first_policy;
  match row with
  | None => mret None
  | Some p =>
      match NewFromString (trim_space (p_owner_ratio p)) with
      | None => fail (no_decimal (p_owner_ratio p))
      | Some parsed =>
          match NewFromString (trim_space (p_invite_ratio p)) with
          | None => fail (no_decimal (p_invite_ratio p))
          | Some parsedInvite =>
              let '(owner, invite) := share_ratios parsed parsedInvite in
              mret (Some (mkPolicySnapshot (Some (p_id p)) (p_version p) owner invite))
          end
      end
  end.

Definition resolveAccountSharePolicy (c : UsageBillingCommand) : T accountSharePolicySnapshot :=
  if ShareSnapshotCaptured c && usageBillingCommandHasPolicySnapshot c then
    let '(owner, invite) := share_ratios (decimalFromFloat (OwnerShareRatio c)) (decimalFromFloat (InviteShareRatio c)) in
    mret (mkPolicySnapshot (nullablePtrInt64 (SharePolicyID c)) (SharePolicyVersion c) owner invite)
  else
    found ← queryAccountSharePolicy;
    mret (default (mkPolicySnapshot None 0 decimal_Zero decimal_Zero) found).

Definition isUsageAffiliateEnabled : T bool :=
  raw ← select (fun db => settings db !! "affiliate_enabled");
  mret (match raw with None => false | Some raw => EqualFold (trim_space raw) "true" end).

Definition resolveUsageOccurredAt (c : UsageBillingCommand) : Z :=
  match UsageOccurredAt c with
  | Some t => t
  | None => match cmd_UsageLog c with Some l => default now (log_CreatedAt l) | None => now end
  end.

Inductive sql_arg : Type := ArgInt (z : Z) | ArgText (s : string) | ArgTime (t : Z).

(** The inviter of a user, by four placeholders: the status of the inviter, the
    user and twice the time. *)
Definition invite_placeholders : nat := 4.

Definition select_invite (args : list sql_arg) (db : tables) : option (Z * Z * option Z) :=
  match args with
  | [ArgText status; ArgInt userID; ArgTime t1; ArgTime t2] =>
      f ← List.find (fun f => (af_user f =? userID) &&
             match af_inviter f with
             | Some i => negb (i =? userID) &&
                 match users db !! i with Some u => u_status u =s? status | None => false end
             | None => false
             end && (af_bound f <=? t1) && match af_expires f with Some e => t2 <? e | None => true end) (affiliates db);
      i ← af_inviter f; Some (i, af_bound f, af_expires f)
  | _ => None
  end.

Definition QueryRow_invite (args : list sql_arg) : T (option (Z * Z * option Z)) :=
  match arity_error invite_placeholders (length args) with
  | Some e => refuse faults e
  | None => select (select_invite args)
  end.

Definition StatusActive : string := "active".

Definition resolveAccountShareInvite (c : UsageBillingCommand) (policy : accountSharePolicySnapshot) (usageOccurredAt : Z)
    : T (option (Z * Z * option Z)) :=
  if SFleb (BalanceCost c) f64_zero || IsZero (pol_InviteShareRatio policy) || IsNegative (pol_InviteShareRatio policy) then mret None else
  enabled ← isUsageAffiliateEnabled;
  if negb enabled then mret None
  else QueryRow_invite [ArgInt (UserID c); ArgText StatusActive; ArgTime usageOccurredAt].

(** How a charge is divided: the owner, the inviter, the platform. *)
Definition divide_charge (charge ownerRatio inviteRatio : decimal) : decimal * decimal * decimal :=
  let ownerCredit := dec_Round 10 (dec_Mul charge ownerRatio) in
  let ownerCredit := if dec_GreaterThan ownerCredit charge then charge else ownerCredit in
  let ownerCredit := if IsNegative ownerCredit then decimal_Zero else ownerCredit in
  let inviteCredit := dec_Round 10 (dec_Mul charge inviteRatio) in
  let inviteCredit := if IsNegative inviteCredit then decimal_Zero else inviteCredit in
  let remainingAfterOwner := dec_Sub charge ownerCredit in
  let inviteCredit := if dec_GreaterThan inviteCredit remainingAfterOwner then remainingAfterOwner else inviteCredit in
  let platformFee := dec_Round 10 (dec_Sub (dec_Sub charge ownerCredit) inviteCredit) in
  (ownerCredit, inviteCredit, if IsNegative platformFee then decimal_Zero else platformFee).

Definition accountCostForSettlement (c : UsageBillingCommand) : decimal :=
  match cmd_UsageLog c with
  | Some l =>
      let base := default (log_TotalCost l) (log_AccountStatsCost l) in
      let multiplier := default (f64_of_Z 1) (log_AccountRateMultiplier l) in
      dec_Round 10 (dec_Mul (decimalFromFloat base) (decimalFromFloat multiplier))
  | None => decimalFromFloat (AccountQuotaCost c)
  end.

(** INSERT IGNORE, with two unique keys. *)
Definition same_settlement (a b : settlement) : bool :=
  match se_UsageLogID a, se_UsageLogID b with Some x, Some y => x =? y | _, _ => false end ||
  ((se_RequestID a =s? se_RequestID b) && (se_APIKeyID a =? se_APIKeyID b)).

Definition insertAccountShareSettlement (s : settlement) : T bool :=
  affected ← stmt (fun db => if existsb (same_settlement s) (settlements db) then (Success 0, db)
                             else (Success 1, db <| settlements := (settlements db ++ [s])%list |>));
  mret (negb (affected =? 0)).

Definition creditUsageBillingBalance (userID : Z) (amount : decimal) (bucket : string) : T float64 :=
  creditWalletBucket userID (InexactFloat64 amount) bucket.

Definition creditInviteShareBalance (c : UsageBillingCommand) (usageLogID inviterUserID : Z) (amount : decimal) : T unit :=
  newBalance ← creditUsageBillingBalance inviterUserID amount "invite";
  _ ← insertUserBalanceLedger inviterUserID "credit" amount "invite_share_income" (nullablePositiveInt64 usageLogID) (decimalFromFloat newBalance);
  _ ← run_sql (fun db => db <| aff_history :=
        alter (fun h => stored (plus (value h) (decimal_text (StringFixed 10 amount)))) inviterUserID (aff_history db) |>);
  run_sql (fun db => db <| aff_ledger := (aff_ledger db ++ [(inviterUserID, StringFixed 10 amount, UserID c)])%list |>).

Record UsageBillingApplyResult : Type := mkApplyResult {
  Applied : bool;
  APIKeyQuotaExhausted : bool;
  res_NewBalance : option float64;
  NewPointsBalance : option float64;
  PointsDeducted : float64;
  BalanceDeducted : float64;
  BalanceOverdrafted : bool;
  CommissionDeducted : float64;
  QuotaState : option AccountQuotaState;
  res_UsageLogID : option Z;
  BalanceCreditUserIDs : list Z;
}.
#[export] Instance eta_UsageBillingApplyResult : Settable UsageBillingApplyResult := fun r =>
  mkApplyResult (Applied r) (APIKeyQuotaExhausted r) (res_NewBalance r) (NewPointsBalance r) (PointsDeducted r) (BalanceDeducted r)
    (BalanceOverdrafted r) (CommissionDeducted r) (QuotaState r) (res_UsageLogID r) (BalanceCreditUserIDs r).

Definition no_result : UsageBillingApplyResult := mkApplyResult false false None None f64_zero f64_zero false f64_zero None None [].

Definition appendUsageBillingCreditUser (result : UsageBillingApplyResult) (userID : Z) : UsageBillingApplyResult :=
  if (userID <=? 0) || existsb (Z.eqb userID) (BalanceCreditUserIDs result) then result
  else result <| BalanceCreditUserIDs := (BalanceCreditUserIDs result ++ [userID])%list |>.

Definition pay_owner (usageLogID ownerUserID : Z) (ownerCredit : decimal) (result : UsageBillingApplyResult)
    : T UsageBillingApplyResult :=
  if IsZero ownerCredit then mret result else
  newBalance ← creditUsageBillingBalance ownerUserID ownerCredit "share";
  _ ← insertUserBalanceLedger ownerUserID "credit" ownerCredit "account_share_income" (nullablePositiveInt64 usageLogID) (decimalFromFloat newBalance);
  mret (appendUsageBillingCreditUser result ownerUserID).

Definition pay_inviter (c : UsageBillingCommand) (usageLogID inviterUserID : Z) (inviteCredit : decimal) (result : UsageBillingApplyResult)
    : T UsageBillingApplyResult :=
  if (0 <? inviterUserID) && negb (IsZero inviteCredit) then
    _ ← creditInviteShareBalance c usageLogID inviterUserID inviteCredit;
    mret (appendUsageBillingCreditUser result inviterUserID)
  else mret result.

Definition settle (c : UsageBillingCommand) (usageLogID : Z) (acc : accountShareSnapshot) (policy : accountSharePolicySnapshot)
    (invite : option (Z * Z * option Z)) (result : UsageBillingApplyResult) : T UsageBillingApplyResult :=
  let consumerCharge := accountShareConsumerCharge c in
  let inviterUserID := match invite with Some (i, _, _) => i | None => 0 end in
  let actualInviteRatio := if 0 <? inviterUserID then pol_InviteShareRatio policy else decimal_Zero in
  let '(ownerCredit, inviteCredit, platformFee) := divide_charge consumerCharge (pol_OwnerShareRatio policy) actualInviteRatio in
  let platformShareRatio := dec_Sub (dec_Sub one (pol_OwnerShareRatio policy)) actualInviteRatio in
  inserted ← insertAccountShareSettlement
    (mkSettlement (nullablePositiveInt64 usageLogID) (RequestID c) (APIKeyID c) (UserID c) (ss_OwnerUserID acc) (AccountID c)
       (nullablePtrInt64 (GroupID c)) (pol_ID policy) (pol_Version policy)
       (NormalizeAccountShareMode (ss_ShareMode acc)) (NormalizeAccountShareStatus (ss_ShareStatus acc))
       consumerCharge (accountCostForSettlement c) (pol_OwnerShareRatio policy) ownerCredit
       (nullablePositiveInt64 inviterUserID) (match invite with Some (_, b, _) => Some b | None => None end)
       (match invite with Some (_, _, e) => e | None => None end) actualInviteRatio inviteCredit
       (if IsNegative platformShareRatio then decimal_Zero else platformShareRatio) platformFee);
  if negb inserted then mret result else
  result ← pay_owner usageLogID (ss_OwnerUserID acc) ownerCredit result;
  pay_inviter c usageLogID inviterUserID inviteCredit result.

Definition applyAccountShareSettlement (c : UsageBillingCommand) (usageLogID : Z) (result : UsageBillingApplyResult)
    : T UsageBillingApplyResult :=
  if (UserID c <=? 0) || (AccountID c <=? 0) then mret result else
  if IsZero (accountShareConsumerCharge c) then mret result else
  acc ← accountShareSnapshotForSettlement c;
  if (ss_OwnerUserID acc <=? 0) || (ss_OwnerUserID acc =? UserID c) then mret result else
  if (NormalizeAccountShareMode (ss_ShareMode acc) <>s? AccountShareModePublic) ||
     (NormalizeAccountShareStatus (ss_ShareStatus acc) <>s? AccountShareStatusApproved) then mret result else
  policy ← resolveAccountSharePolicy c;
  invite ← resolveAccountShareInvite c policy (resolveUsageOccurredAt c);
  settle c usageLogID acc policy invite result.

(** ** The transaction *)

Definition bill_subscription (c : UsageBillingCommand) : T unit :=
  match SubscriptionID c with
  | Some id => if positive_f (SubscriptionCost c) then incrementUsageBillingSubscription id (SubscriptionCost c) else mret tt
  | None => mret tt
  end.

Definition bill_carpool (c : UsageBillingCommand) : T unit :=
  match GroupID c with
  | None => mret tt
  | Some groupID =>
      let carpoolCost := if SFleb (SubscriptionCost c) f64_zero then BalanceCost c else SubscriptionCost c in
      if positive_f carpoolCost then incrementUsageBillingCarpoolFiveHour groupID (UserID c) carpoolCost (UsageOccurredAt c) else mret tt
  end.

Definition bill_wallet (c : UsageBillingCommand) (usageLogID : Z) (result : UsageBillingApplyResult) : T UsageBillingApplyResult :=
  if negb (positive_f (BalanceCost c)) then mret result else
  deducted ← deductUsageBillingWallet (UserID c) (BalanceCost c) (PreferPointsBilling c);
  let '(newPointsBalance, newBalance, pointsDeducted, balanceDeducted) := deducted in
  let ref := nullablePositiveInt64 usageLogID in
  result ← (if positive_f pointsDeducted then
              _ ← insertPointsLedger (UserID c) (decimalFromFloat pointsDeducted) ref
                    (decimalFromFloat (f64_add newPointsBalance pointsDeducted)) (decimalFromFloat newPointsBalance);
              mret (result <| NewPointsBalance := Some newPointsBalance |> <| PointsDeducted := pointsDeducted |>)
            else mret result);
  if positive_f balanceDeducted then
    _ ← insertUserBalanceLedger (UserID c) "debit" (decimalFromFloat balanceDeducted) "usage_charge" ref (decimalFromSignedFloat newBalance);
    mret (result <| res_NewBalance := Some newBalance |> <| BalanceDeducted := balanceDeducted |>
                 <| BalanceOverdrafted := SFltb newBalance f64_zero |>)
  else mret result.

Definition bill_commission (c : UsageBillingCommand) (usageLogID : Z) (result : UsageBillingApplyResult) : T UsageBillingApplyResult :=
  if negb (positive_f (PrivateGroupCommissionCost c)) then mret result else
  newBalance ← deductUsageBillingBalance (UserID c) (PrivateGroupCommissionCost c);
  let result := result <| res_NewBalance := Some newBalance |> <| BalanceOverdrafted := SFltb newBalance f64_zero |>
                       <| CommissionDeducted := PrivateGroupCommissionCost c |> in
  _ ← insertUserBalanceLedger (UserID c) "debit" (decimalFromFloat (PrivateGroupCommissionCost c)) "private_group_commission"
        (nullablePositiveInt64 usageLogID) (decimalFromFloat newBalance);
  mret result.

Definition bill_quotas (c : UsageBillingCommand) (result : UsageBillingApplyResult) : T UsageBillingApplyResult :=
  result ← (if positive_f (APIKeyQuotaCost c) then
              exhausted ← incrementUsageBillingAPIKeyQuota (APIKeyID c) (APIKeyQuotaCost c);
              mret (result <| APIKeyQuotaExhausted := exhausted |>)
            else mret result);
  _ ← (if positive_f (APIKeyRateLimitCost c) then incrementUsageBillingAPIKeyRateLimit (APIKeyID c) (APIKeyRateLimitCost c) else mret tt);
  if positive_f (AccountQuotaCost c) && (EqualFold (AccountType c) "apikey" || EqualFold (AccountType c) "bedrock") then
    quotaState ← incrementUsageBillingAccountQuota (AccountID c) (AccountQuotaCost c);
    mret (result <| QuotaState := Some quotaState |>)
  else mret result.

Definition applyUsageBillingEffects (c : UsageBillingCommand) (result : UsageBillingApplyResult) : T UsageBillingApplyResult :=
  logged ← ensureUsageBillingLog c;
  let '(usageLogID, c) := logged in
  let result := if 0 <? usageLogID then result <| res_UsageLogID := Some usageLogID |> else result in
  _ ← bill_subscription c;
  _ ← bill_carpool c;
  result ← bill_wallet c usageLogID result;
  result ← bill_commission c usageLogID result;
  result ← bill_quotas c result;
  applyAccountShareSettlement c usageLogID result.

Definition note_billed (c : UsageBillingCommand) : T unit := fun '(n, db) =>
  (Success tt, (n, db <| billed := (RequestID c, APIKeyID c) :: billed db |>)).

Definition billing_transaction (c : UsageBillingCommand) : T (UsageBillingApplyResult * bool) :=
  applied ← claimUsageBillingKey c;
  if negb applied then mret (no_result, false) else
  result ← applyUsageBillingEffects c (no_result <| Applied := true |>);
  _ ← note_billed c;
  mret (result, true).
End Billing.

(** ** The programs

    What the repositories ask the database for: a transaction, or one of the
    statements of the cleanup (dashboard_aggregation_repo.go). *)

Inductive cmd {D : decimal_ops} {Q : sql_database} : Type -> Type :=
| BillingTransaction (c : UsageBillingCommand) : cmd (outcome UsageBillingApplyResult)
| SelectVictims (cutoff limit : Z) : cmd (outcome (list dedup_row))
| ArchiveRows (ids : list Z) : cmd (outcome unit)
| DeleteRows (ids : list Z) : cmd (outcome unit).

Abbreviation program := (prog cmd).

Definition Apply {D : decimal_ops} {Q : sql_database} (c : option UsageBillingCommand) : program (outcome UsageBillingApplyResult) :=
  match c with
  | None => mret (Success no_result)
  | Some c =>
      let c := Normalize c in
      if RequestID c =s? "" then mret (Failure ErrUsageBillingRequestIDRequired) else call (BillingTransaction c)
  end.

Definition usageBillingDedupCleanupBatchSize : Z := 10000.

(** [None]: the fuel is used up, the loop is still running. *)
Fixpoint CleanupUsageBillingDedup {D : decimal_ops} {Q : sql_database} (fuel : nat) (cutoff : Z) : program (option (outcome unit)) :=
  match fuel with
  | O => mret None
  | S fuel =>
      rows ← call (SelectVictims cutoff usageBillingDedupCleanupBatchSize);
      match rows with
      | Failure e => mret (Some (Failure e))
      | Success [] => mret (Some (Success tt))
      | Success victims =>
          let ids := map dd_id victims in
          archived ← call (ArchiveRows ids);
          match archived with
          | Failure e => mret (Some (Failure e))
          | Success _ =>
              deleted ← call (DeleteRows ids);
              match deleted with
              | Failure e => mret (Some (Failure e))
              | Success _ =>
                  if Z.of_nat (length victims) <? usageBillingDedupCleanupBatchSize then mret (Some (Success tt))
                  else CleanupUsageBillingDedup fuel cutoff
              end
          end
      end
  end.

(** *** The statements of the cleanup *)

Section Statements.
Context {D : decimal_ops} {Q : sql_database}.

(** The rows in the order of their identifiers, which is that of their insertion. *)
Definition select_victims (cutoff limit : Z) (db : tables) : list dedup_row :=
  take (Z.to_nat limit) (List.filter (fun r => dd_created r <? cutoff) (dedup db)).

Definition has_id (ids : list Z) (r : dedup_row) : bool := existsb (Z.eqb (dd_id r)) ids.

(** INSERT IGNORE ... SELECT. *)
Definition archive_rows (ids : list Z) (db : tables) : tables :=
  db <| archive := foldl (fun a r => match a !! (dd_request r, dd_key r) with
                                     | Some _ => a
                                     | None => <[(dd_request r, dd_key r) := dd_fingerprint r]> a
                                     end) (archive db) (List.filter (has_id ids) (dedup db)) |>.

Definition delete_rows (ids : list Z) (db : tables) : tables :=
  db <| dedup := List.filter (fun r => negb (has_id ids r)) (dedup db) |>.
End Statements.
