(* ===== verification/UsageBillingSystem.v ===== *)
(** * Billing and the cleanup of its keys, side by side

    Any number of billing transactions and cleanups
    (repository/dashboard_aggregation_repo.go) run over the same tables: a
    transaction takes effect as one step, a cleanup one statement at a time. *)

From Stdlib Require Import Floats.SpecFloat.
From S2P Require Import Prelude GoStrings AppErrors PaymentData Decimals Transactions Program Interleaving UsageBilling.

(** ** What billing leaves alone

    [leaves g m]: if [m] succeeds, [g] of the tables is as before. *)

Definition leaves {DB A X} (g : DB -> X) (m : @TX DB A) : Prop := forall db, does m db (fun _ db' => g db' = g db).

Section Leaves.
Context {DB X : Type} (g : DB -> X) (faults : nat -> option error).

Lemma leaves_ret {A} (a : A) : leaves g (mret a).
Proof. by intros db n. Qed.

Lemma leaves_fail {A} e : leaves (A := A) g (fail e).
Proof. by intros db n. Qed.

Lemma leaves_bind {A B} (m : TX A) (f : A -> TX B) : leaves g m -> (forall a, leaves g (f a)) -> leaves g (m ≫= f).
Proof. intros Hm Hf db. eapply does_bind; [apply Hm|]. intros a db' <-. apply Hf. Qed.

Lemma leaves_statement {A} (f : DB -> outcome A * DB) : (forall db, g (snd (f db)) = g db) -> leaves g (statement faults f).
Proof. intros H db. apply does_statement. intros a db' E. specialize (H db). by rewrite E in H. Qed.

Lemma leaves_query {A} (f : DB -> A) : leaves g (query faults f).
Proof. by apply leaves_statement. Qed.

Lemma leaves_exec (f : DB -> DB) : (forall db, g (f db) = g db) -> leaves g (exec faults f).
Proof. intros H. by apply leaves_statement. Qed.

Lemma leaves_refuse {A} e : leaves (A := A) g (refuse faults e).
Proof. by apply leaves_statement. Qed.
End Leaves.

Create HintDb leaves.
#[export] Hint Resolve leaves_ret leaves_fail leaves_query leaves_refuse : leaves.

(** Takes a computation apart, down to the updates of single statements. *)
Ltac leave_step :=
  first [ progress (auto with leaves nocore)
        | apply leaves_bind; [|intros ?]
        | apply leaves_exec; intros ?
        | apply leaves_statement; intros ?
        | match goal with |- leaves _ (if ?b then _ else _) => destruct b eqn:? end
        | match goal with |- leaves _ (match ?x with _ => _ end) => destruct x eqn:? end
        | progress cbv zeta ].
Ltac leave := repeat leave_step; try done.

Section Billing.
Context {D : decimal_ops} {Q : sql_database}.
Context (now : Z) (faults : nat -> option error) (next_reset : Z -> account -> Z -> option Z).

(** A view of the tables, and the tables it does not show. *)
Context {X : Type} (g : tables -> X).
Hypothesis no_users : forall db x, g (db <| users := x |>) = g db.
Hypothesis no_balance_ledger : forall db x, g (db <| balance_ledger := x |>) = g db.
Hypothesis no_points_ledger : forall db x, g (db <| points_ledger := x |>) = g db.
Hypothesis no_logs : forall db x y, g (db <| usage_logs := x |> <| next_log := y |>) = g db.
Hypothesis no_subscriptions : forall db x, g (db <| subscriptions := x |>) = g db.
Hypothesis no_members : forall db x, g (db <| members := x |>) = g db.
Hypothesis no_api_keys : forall db x, g (db <| api_keys := x |>) = g db.
Hypothesis no_accounts : forall db x, g (db <| accounts := x |>) = g db.
Hypothesis no_outbox : forall db x, g (db <| outbox := x |>) = g db.
Hypothesis no_settlements : forall db x, g (db <| settlements := x |>) = g db.
Hypothesis no_aff_history : forall db x, g (db <| aff_history := x |>) = g db.
Hypothesis no_aff_ledger : forall db x, g (db <| aff_ledger := x |>) = g db.

#[local] Hint Resolve no_users no_balance_ledger no_points_ledger no_logs no_subscriptions no_members no_api_keys no_accounts no_outbox
  no_settlements no_aff_history no_aff_ledger : leaves.

Lemma points_leaves userID f : leaves g (exec faults (update_user userID f)).
Proof. apply leaves_exec. intros db. apply no_users. Qed.
#[local] Hint Resolve points_leaves : leaves.

Lemma debit_leaves userID amount : leaves g (debitWalletBuckets faults userID amount).
Proof. unfold debitWalletBuckets, getUserBalanceForWallet, loadWalletBucketUpdateResult, select_user, select_row. leave. Qed.

Lemma credit_leaves userID amount bucket : leaves g (creditWalletBucket faults userID amount bucket).
Proof. unfold creditWalletBucket, getUserBalanceForWallet, select_user, select_row. leave. Qed.

Lemma balance_entry_leaves userID direction amount reason ref after :
  leaves g (insertUserBalanceLedger faults userID direction amount reason ref after).
Proof. unfold insertUserBalanceLedger. leave. Qed.

Lemma points_entry_leaves userID amount ref before after : leaves g (insertPointsLedger faults userID amount ref before after).
Proof. unfold insertPointsLedger. leave. Qed.
#[local] Hint Resolve debit_leaves credit_leaves balance_entry_leaves points_entry_leaves : leaves.

Lemma log_leaves c : leaves g (ensureUsageBillingLog now faults c).
Proof. unfold ensureUsageBillingLog, createSingle, insert_log, select_row. leave. destruct (existsb _ _); [done | apply no_logs]. Qed.

Lemma subscription_leaves c : leaves g (bill_subscription faults c).
Proof. unfold bill_subscription, incrementUsageBillingSubscription. leave. destruct (subscriptions _ !! _); [apply no_subscriptions | done]. Qed.

Lemma carpool_leaves c : leaves g (bill_carpool now faults c).
Proof. unfold bill_carpool, incrementUsageBillingCarpoolFiveHour. leave. Qed.

Lemma wallet_leaves c id result : leaves g (bill_wallet faults c id result).
Proof. unfold bill_wallet, deductUsageBillingWallet, deductUsageBillingBalance, select_user, select_row. leave. Qed.

Lemma commission_leaves c id result : leaves g (bill_commission faults c id result).
Proof. unfold bill_commission, deductUsageBillingBalance. leave. Qed.

Lemma quotas_leave c result : leaves g (bill_quotas now faults next_reset c result).
Proof.
  unfold bill_quotas, incrementUsageBillingAPIKeyQuota, incrementUsageBillingAPIKeyRateLimit, incrementUsageBillingAccountQuota, enqueueSchedulerOutbox, select_row.
  leave; [destruct (api_keys _ !! _); [apply no_api_keys | done] | destruct (existsb _ _); [done | apply no_outbox]].
Qed.

Lemma pay_leaves c id acc inviter owner invite result :
  leaves g (result ← pay_owner faults id acc owner result; pay_inviter faults c id inviter invite result).
Proof. unfold pay_owner, pay_inviter, creditInviteShareBalance, creditUsageBillingBalance. leave. Qed.

Lemma settle_leaves c id acc policy invite result : leaves g (settle faults c id acc policy invite result).
Proof.
  unfold settle, insertAccountShareSettlement. cbv zeta. destruct (divide_charge _ _ _) as [[owner share] fee].
  apply leaves_bind; [|intros inserted; destruct (negb inserted); [apply leaves_ret | apply pay_leaves]].
  leave. destruct (existsb _ _); [done | apply no_settlements].
Qed.
#[local] Hint Resolve settle_leaves : leaves.

Lemma settlement_leaves c id result : leaves g (applyAccountShareSettlement now faults c id result).
Proof.
  unfold applyAccountShareSettlement, accountShareSnapshotForSettlement, loadAccountShareSnapshot, resolveAccountSharePolicy, queryAccountSharePolicy,
    resolveAccountShareInvite, isUsageAffiliateEnabled, QueryRow_invite, select_row.
  leave.
Qed.
#[local] Hint Resolve log_leaves subscription_leaves carpool_leaves wallet_leaves commission_leaves quotas_leave settlement_leaves : leaves.

(** Everything before the settlement. *)
Lemma charges_leave {B} c result (rest : Z -> UsageBillingCommand -> UsageBillingApplyResult -> @TX tables B) :
  (forall id c result, leaves g (rest id c result)) ->
  leaves g ('(id, c) ← ensureUsageBillingLog now faults c;
            let result := if 0 <? id then result <| res_UsageLogID := Some id |> else result in
            _ ← bill_subscription faults c; _ ← bill_carpool now faults c;
            result ← bill_wallet faults c id result; result ← bill_commission faults c id result;
            result ← bill_quotas now faults next_reset c result; rest id c result).
Proof. intros H. leave. Qed.

Lemma effects_leave c result : leaves g (applyUsageBillingEffects now faults next_reset c result).
Proof. apply charges_leave. intros. apply settlement_leaves. Qed.
End Billing.

(** What the effects of a billing only read. *)
Definition fixed {D : decimal_ops} {Q : sql_database} (db : tables) :=
  (dedup db, next_dedup db, archive db, billed db, settings db, policies db, affiliates db).

Lemma effects_fixed {D : decimal_ops} {Q : sql_database} now faults next_reset c result :
  leaves fixed (applyUsageBillingEffects now faults next_reset c result).
Proof. by apply effects_leave. Qed.

(** ** The system *)

Section System.
Context {D : decimal_ops} {Q : sql_database}.
Context (next_reset : Z -> account -> Z -> option Z).

(** A statement on its own may fail before or after it took effect. *)
Definition effect_or_not (db db1 : tables) (r : outcome unit) (db' : tables) : Prop :=
  match r with Success _ => db' = db1 | Failure _ => db' = db \/ db' = db1 end.

Definition answers R (c : cmd R) (now : Z) (db : tables) : R -> tables -> Prop :=
  match c in cmd R return R -> tables -> Prop with
  | BillingTransaction c => fun r db' =>
      exists faults answer, (r, db') = transaction (billing_transaction now faults next_reset c) answer db
  | SelectVictims cutoff limit => fun r db' =>
      db' = db /\ match r with Success rows => rows = select_victims cutoff limit db | Failure _ => True end
  | ArchiveRows ids => fun r db' => effect_or_not db (archive_rows ids db) r db'
  | DeleteRows ids => fun r db' => effect_or_not db (delete_rows ids db) r db'
  end.

Inductive may_start : program unit -> Prop :=
| start_bill c : may_start (_ ← Apply c; mret tt)
| start_cleanup fuel cutoff : may_start (_ ← CleanupUsageBillingDedup fuel cutoff; mret tt).

Definition empty_tables : tables :=
  mkTables [] 1 ∅ [] 1 ∅ [] [] ∅ [] ∅ ∅ [] [] [] ∅ [] ∅ [] [].

(** ** The invariant *)

Definition row_key (r : dedup_row) : string * Z := (dd_request r, dd_key r).
Definition recorded (k : string * Z) (db : tables) : Prop := k ∈ map row_key (dedup db) \/ is_Some (archive db !! k).

Record Inv (db : tables) : Prop := {
  inv_billed : NoDup (billed db);
  inv_recorded : forall k, k ∈ billed db -> recorded k db;
  inv_ids : Forall (fun r => dd_id r < next_dedup db) (dedup db);
}.

(** What a cleanup learns: its rows exist, and then that they are archived. *)
Inductive fact : Type := Known (ids : list Z) | Archived (ids : list Z).

Definition holds (f : fact) (db : tables) : Prop :=
  match f with
  | Known ids => Forall (fun i => i < next_dedup db) ids
  | Archived ids => Forall (fun i => i < next_dedup db) ids /\
      forall r, r ∈ dedup db -> has_id ids r = true -> is_Some (archive db !! row_key r)
  end.

Definition allowed R (c : cmd R) (K : list fact) : Prop :=
  match c with
  | BillingTransaction _ | SelectVictims _ _ => True
  | ArchiveRows ids => Known ids ∈ K
  | DeleteRows ids => Archived ids ∈ K
  end.

Definition learned R (c : cmd R) : R -> list fact :=
  match c in cmd R return R -> list fact with
  | SelectVictims _ _ => fun r => match r with Success rows => [Known (map dd_id rows)] | Failure _ => [] end
  | ArchiveRows ids => fun r => match r with Success _ => [Archived ids] | Failure _ => [] end
  | _ => fun _ => []
  end.

(** ** Each step *)

(** What claiming leaves: a row for a key that has none. *)
Definition claimed (now : Z) (c : UsageBillingCommand) (db db' : tables) : Prop :=
  dedup_of (RequestID c) (APIKeyID c) db = None /\ archive db !! (RequestID c, APIKeyID c) = None /\
  fixed db' = (dedup db ++ [mkDedup (next_dedup db) (RequestID c) (APIKeyID c) (RequestFingerprint c) (datetime now)], next_dedup db + 1,
               archive db, billed db, settings db, policies db, affiliates db).

Lemma claim_does now faults c db : does (claimUsageBillingKey now faults c) db (fun b db' => b = true -> claimed now c db db').
Proof.
  unfold claimUsageBillingKey. eapply does_bind with (P := fun affected db1 => (affected = 0 /\ db1 = db) \/
    (affected = 1 /\ dedup_of (RequestID c) (APIKeyID c) db = None /\ snd (insert_dedup now (RequestID c) (APIKeyID c) (RequestFingerprint c) db) = db1)).
  - apply does_statement. intros a db1. unfold insert_dedup. destruct (dedup_of _ _ db); intros [= <- <-]; auto.
  - intros affected db1 [[-> ->]|(-> & Hd & Hs)]; cbn [Z.eqb].
    + unfold select_row. eapply does_bind; [apply does_bind with (P := fun _ _ => True)|].
      * by apply does_query.
      * intros [f|] db1 _; [apply does_ret | apply does_fail]; exact I.
      * intros f db1 _. destruct (_ <>s? _); [apply does_fail | by apply does_ret].
    + eapply does_bind with (P := fun a db2 => db2 = db1 /\ a = archive db1 !! (RequestID c, APIKeyID c)); [by apply does_query|].
      intros a db2 [-> ->]. unfold insert_dedup in Hs. rewrite Hd in Hs. cbn in Hs. subst db1.
      destruct (archive _ !! _) as [f|] eqn:Ea.
      * destruct (_ <>s? _); [apply does_fail | by apply does_ret].
      * apply does_ret. intros _. split; [done|]. by split.
Qed.

Lemma bill_does now faults c db : does (billing_transaction now faults next_reset c) db (fun '(_, b) db' => b = true ->
  exists db1, claimed now c db db1 /\ fixed db' = fixed (db1 <| billed := (RequestID c, APIKeyID c) :: billed db1 |>)).
Proof.
  unfold billing_transaction. eapply does_bind; [apply claim_does|]. intros applied db1 H1. destruct applied; cbn [negb]; [|by apply does_ret].
  eapply does_bind; [apply effects_fixed|]. intros result db2 H2. cbv beta in H2.
  eapply does_bind with (P := fun _ db3 => fixed db3 = fixed (db2 <| billed := (RequestID c, APIKeyID c) :: billed db2 |>)).
  - intros n. cbn. done.
  - intros [] db3 H3. apply does_ret. intros _. exists db1. split; [by apply H1|]. rewrite H3. unfold fixed in *. cbn. congruence.
Qed.

(** A transaction that takes effect adds a key that was not there. *)
Definition bills (now : Z) (c : UsageBillingCommand) (db db' : tables) : Prop :=
  exists db1, claimed now c db db1 /\ fixed db' = fixed (db1 <| billed := (RequestID c, APIKeyID c) :: billed db1 |>).

Lemma transaction_bills now faults c answer db r db' : (r, db') = transaction (billing_transaction now faults next_reset c) answer db ->
  db' = db \/ bills now c db db'.
Proof.
  intros E. pose proof (transaction_does _ answer db _ (bill_does now faults c db)) as H. rewrite <- E in H. cbv beta in H.
  destruct r as [a|e]; [destruct H as [H|[_ H]] | destruct H as [H|[a H]]]; first [by left | right; by apply H].
Qed.

Lemma fixed_keys (db db' : tables) : fixed db' = fixed db ->
  dedup db' = dedup db /\ next_dedup db' = next_dedup db /\ archive db' = archive db /\ billed db' = billed db.
Proof. unfold fixed. intros H. injection H. auto. Qed.

Lemma bills_keys now c db db' : bills now c db db' -> exists row, row_key row = (RequestID c, APIKeyID c) /\ dd_id row = next_dedup db /\
  dedup db' = dedup db ++ [row] /\ next_dedup db' = next_dedup db + 1 /\ archive db' = archive db /\
  billed db' = (RequestID c, APIKeyID c) :: billed db /\ ~ recorded (RequestID c, APIKeyID c) db.
Proof.
  intros (db1 & (Hd & Ha & H1) & H2). apply fixed_keys in H2 as (E1 & E2 & E3 & E4). unfold fixed in H1. injection H1 as F1 F2 F3 F4 _ _ _.
  eexists. split; [|split]; [| |split; [rewrite E1; exact F1|]]; [done..|]. split_and!; [by rewrite E2 | by rewrite E3 | by rewrite E4; cbn; rewrite F4 |].
  intros [Hin|[f Hf]]; [|by rewrite Hf in Ha]. apply list_elem_of_In, in_map_iff in Hin as (r & Hk & Hr). unfold dedup_of in Hd.
  apply fmap_None in Hd. pose proof (List.find_none _ _ Hd r Hr) as Hn. unfold same_key, row_key in *. injection Hk as E5 E6.
  by rewrite E5, E6, String.eqb_refl, Z.eqb_refl in Hn.
Qed.

Lemma archive_rows_grows ids db k : is_Some (archive db !! k) -> is_Some (archive (archive_rows ids db) !! k).
Proof.
  unfold archive_rows. cbn. generalize (List.filter (has_id ids) (dedup db)), (archive db). induction l as [|r l IH]; intros m H; cbn; [done|].
  apply IH. destruct (m !! (dd_request r, dd_key r)) eqn:E; [done|]. destruct (decide (k = (dd_request r, dd_key r))) as [->|Hk].
  - rewrite lookup_insert_eq. by eexists.
  - by rewrite lookup_insert_ne.
Qed.

Lemma archive_rows_has ids db r : r ∈ dedup db -> has_id ids r = true -> is_Some (archive (archive_rows ids db) !! row_key r).
Proof.
  unfold archive_rows. cbn. intros Hr Hi. assert (Hf : r ∈ List.filter (has_id ids) (dedup db)).
  { apply list_elem_of_In, filter_In. split; [by apply list_elem_of_In | done]. }
  revert Hf. generalize (List.filter (has_id ids) (dedup db)), (archive db). induction l as [|x l IH]; intros m Hf; cbn; [by apply elem_of_nil in Hf|].
  apply elem_of_cons in Hf as [->|Hf]; [|by apply IH].
  set (m' := match m !! (dd_request x, dd_key x) with Some _ => m | None => _ end).
  assert (Hm : is_Some (m' !! row_key x)).
  { unfold m', row_key. destruct (m !! (dd_request x, dd_key x)) eqn:E; [by rewrite E|]. rewrite lookup_insert_eq. by eexists. }
  clear IH Hi Hr. clearbody m'. revert m' Hm. induction l as [|y l IH]; intros m' Hm; cbn; [done|]. apply IH.
  destruct (m' !! (dd_request y, dd_key y)) eqn:E; [done|]. destruct (decide (row_key x = (dd_request y, dd_key y))) as [->|Hk].
  - rewrite lookup_insert_eq. by eexists.
  - by rewrite lookup_insert_ne.
Qed.

(** Rows go only after they were archived, and then their key stays recorded. *)
Lemma delete_recorded ids db k : holds (Archived ids) db -> recorded k db -> recorded k (delete_rows ids db).
Proof.
  intros [_ Ha] [Hd|Hr]; [|by right]. apply list_elem_of_In, in_map_iff in Hd as (r & <- & Hr). apply list_elem_of_In in Hr.
  destruct (has_id ids r) eqn:E; [right; by apply Ha|]. left. apply list_elem_of_In, in_map, filter_In. split; [by apply list_elem_of_In | by rewrite E].
Qed.

Definition stays (db db' : tables) : Prop := Inv db' /\ forall f, holds f db -> holds f db'.

Lemma stays_id db : Inv db -> stays db db.
Proof. by split. Qed.

Lemma stays_bills now c db db' : Inv db -> bills now c db db' -> stays db db'.
Proof.
  intros [Hn Hr Hi] (row & Hk & Hid & Ed & En & Ea & Eb & Hnew)%bills_keys.
  assert (Hmono : forall k, recorded k db -> recorded k db').
  { intros k [Hd|Ha]; [left; rewrite Ed, map_app; apply elem_of_app; by left | right; by rewrite Ea]. }
  split; [split|].
  - rewrite Eb. constructor; [|done]. intros Hin. by apply Hnew, Hr.
  - rewrite Eb. intros k [->|Hin]%elem_of_cons; [|auto]. left. rewrite Ed, map_app, <- Hk. apply elem_of_app. right. by left.
  - rewrite Ed, En. apply Forall_app. split; [eapply Forall_impl; [exact Hi|]; cbn; lia|]. constructor; [rewrite Hid; lia | constructor].
  - intros [ids|ids]; cbn; rewrite En; [intros H; eapply Forall_impl; [exact H|]; cbn; lia|]. intros [H1 H2].
    split; [eapply Forall_impl; [exact H1|]; cbn; lia|]. intros r. rewrite Ed, Ea. intros [Hin|Hin]%elem_of_app; [by apply H2|].
    apply list_elem_of_singleton in Hin as ->. unfold has_id. rewrite existsb_exists. intros (i & Hi1 & Hi2%Z.eqb_eq).
    rewrite Forall_forall in H1. specialize (H1 i (proj2 (list_elem_of_In _ _) Hi1)). lia.
Qed.

Lemma stays_archive ids db : Inv db -> stays db (archive_rows ids db).
Proof.
  intros [Hn Hr Hi]. split; [split|]; [done| |done|].
  - intros k Hk. destruct (Hr k Hk) as [H|H]; [by left | right; by apply archive_rows_grows].
  - intros [l|l]; [done|]. intros [H1 H2]. split; [done|]. intros r Hr1 Hr2. by apply archive_rows_grows, H2.
Qed.

Lemma stays_delete ids db : Inv db -> holds (Archived ids) db -> stays db (delete_rows ids db).
Proof.
  intros [Hn Hr Hi] Hf. assert (Hin : forall r, r ∈ dedup (delete_rows ids db) -> r ∈ dedup db).
  { intros r H%list_elem_of_In. apply filter_In in H as [H _]. by apply list_elem_of_In. }
  split; [split|]; [done| | |].
  - intros k Hk. by apply delete_recorded, Hr.
  - apply Forall_forall. intros r Hr1. rewrite Forall_forall in Hi. by apply Hi, Hin.
  - intros [l|l]; [done|]. intros [H1 H2]. split; [done|]. intros r Hr1 Hr2. by apply H2; [apply Hin|].
Qed.

Lemma victims_known cutoff limit db : Inv db -> holds (Known (map dd_id (select_victims cutoff limit db))) db.
Proof.
  intros [_ _ Hi]. cbn. apply Forall_map, Forall_take, Forall_forall. intros r H%list_elem_of_In. apply filter_In in H as [H _].
  rewrite Forall_forall in Hi. apply Hi. by apply list_elem_of_In.
Qed.

Lemma billing_step_sound R (c : cmd R) K now db r db' : Inv db -> Forall (fun f => holds f db) K -> allowed R c K -> answers R c now db r db' ->
  True /\ Inv db' /\ Forall (fun f => holds f db') (learned R c r) /\ (forall f, holds f db -> holds f db').
Proof.
  intros Hi HK Hal Ha. split; [done|]. destruct c as [c|cutoff limit|ids|ids]; cbn [answers learned allowed] in *.
  - destruct Ha as (faults & answer & [->|Hb]%transaction_bills); [by split|]. destruct (stays_bills now c db db' Hi Hb) as [H1 H2]. by split.
  - destruct Ha as [-> Hr]. split; [done|]. split; [|done]. destruct r as [rows|e]; [|constructor]. subst rows.
    constructor; [by apply victims_known | constructor].
  - assert (H : stays db db').
    { unfold effect_or_not in Ha. destruct r as [[]|e]; [subst | destruct Ha as [->| ->]]; auto using stays_archive, stays_id. }
    destruct H as [H1 H2]. split; [done|]. split; [|done]. destruct r as [[]|e]; [|constructor].
    unfold effect_or_not in Ha. subst db'. constructor; [|constructor]. split; [exact (proj1 (Forall_forall _ _) HK _ Hal)|]. exact (fun r => archive_rows_has ids db r).
  - pose proof (proj1 (Forall_forall _ _) HK _ Hal) as Hf. unfold effect_or_not in Ha.
    assert (H : stays db db') by (destruct r as [[]|e]; [subst | destruct Ha as [->| ->]]; auto using stays_delete, stays_id).
    destruct H as [H1 H2]. by split.
Qed.

Definition anything R (c : cmd R) (r : R) : Prop := True.

Lemma cleanup_knows fuel cutoff K : knows allowed learned anything (CleanupUsageBillingDedup fuel cutoff) K (fun _ _ => True).
Proof.
  revert K. induction fuel as [|fuel IH]; intros K; cbn [CleanupUsageBillingDedup]; [done|]. apply knows_call_bind; [done|].
  intros [[|v l]|e] _; [done| |done]. cbv zeta. apply knows_call_bind; [by left|]. intros [u|e] _; [|done]. destruct u.
  apply knows_call_bind; [by left|]. intros [u|e] _; [|done]. destruct (_ <? _); [done | apply IH].
Qed.

Lemma billing_start_sound p : may_start p -> knows allowed learned anything p [] (fun _ _ => True).
Proof.
  intros [[c|]|fuel cutoff]; [|done|].
  - unfold Apply. cbv zeta. destruct (RequestID (Normalize c) =s? ""); [done|]. by apply knows_call_bind.
  - eapply knows_then; [apply cleanup_knows|]. done.
Qed.

Lemma empty_inv : Inv empty_tables.
Proof. split; [constructor | by intros k H%elem_of_nil | constructor]. Qed.
End System.

Abbreviation reachable next_reset := (rtc (step (answers next_reset) may_start)).

(** C2: A request is billed at most once.  Whatever runs side by side -
    billings of the same or of other requests, cleanups that move old keys to
    the archive, with statements that fail and commits whose answer is lost -
    the transactions that took effect belong to different requests: a request
    identifier of a key is charged at most once, however often it is billed. *)
Theorem billed_at_most_once {D : decimal_ops} {Q : sql_database} next_reset db now s : Inv db ->
  reachable next_reset (mksystem db now []) s -> NoDup (billed (database s)).
Proof.
  intros Hdb Hr. apply (invariant_reachable (answers next_reset) may_start holds allowed learned anything Inv) in Hr; [|intros; by eapply billing_step_sound |
    intros; by apply billing_start_sound | exact Hdb]. exact (inv_billed _ Hr).
Qed.
