(* ===== verification/UsageBillingSpec.v ===== *)
(** * What a billing transaction does

    A known key is answered without effect; how a charge is divided; and the
    billings that can never succeed.  The second part proves that the balances
    and the ledger change together, by moves and their entries. *)

From Stdlib Require Import Floats.SpecFloat QArith.
From S2P Require Import Prelude GoStrings AppErrors Program Interleaving PaymentData Transactions Decimals UsageBilling UsageBillingSystem.

Open Scope Z_scope.

(** ** Known keys *)

(** What is known of a key, in the table or in the archive. *)
Definition known_fingerprint {D : decimal_ops} {Q : sql_database} (c : UsageBillingCommand) (db : tables) : option string :=
  match dedup_of (RequestID c) (APIKeyID c) db with
  | Some f => Some f
  | None => archive db !! (RequestID c, APIKeyID c)
  end.

Definition same_fingerprint (f : string) (c : UsageBillingCommand) : bool := trim_space f =s? trim_space (RequestFingerprint c).

Section Known.
Context {D : decimal_ops} {Q : sql_database}.
Context (now : Z) (faults : nat -> option error) (next_reset : Z -> account -> Z -> option Z).

Lemma statement_or_fault {DB A} (f : DB -> outcome A * DB) n db :
  (exists e, faults n = Some e /\ statement faults f (n, db) = (Failure e, (S n, db))) \/
  statement faults f (n, db) = (fst (f db), (S n, snd (f db))).
Proof.
  unfold statement. destruct (faults n) as [e|]; [left; by exists e | right; by destruct (f db)].
Qed.

(** A known key is not billed again.  If the key of a request is in the
    table or in the archive, the transaction changes nothing: it answers that
    nothing was applied if the fingerprint is that of the first billing, and
    with a conflict otherwise, unless a statement fails first. *)
Theorem known_key_not_billed c answer db f : known_fingerprint c db = Some f ->
  let '(r, db') := transaction (billing_transaction now faults next_reset c) answer db in
  db' = db /\ (r = (if same_fingerprint f c then Success no_result else Failure ErrUsageBillingRequestConflict) \/
               exists n e, faults n = Some e /\ r = Failure e).
Proof.
  unfold known_fingerprint, transaction, billing_transaction, claimUsageBillingKey, select_row, query, same_fingerprint. intros Hk.
  unfold mbind, tx_mbind.
  destruct (statement_or_fault (insert_dedup now (RequestID c) (APIKeyID c) (RequestFingerprint c)) 0 db) as [(e & He & ->)| ->]; [split; eauto|].
  unfold insert_dedup. destruct (dedup_of (RequestID c) (APIKeyID c) db) as [f0|] eqn:Ed; cbn [fst snd Z.eqb].
  - injection Hk as ->. match goal with |- context [statement faults ?g (1%nat, db)] => destruct (statement_or_fault g 1 db) as [(e & He & ->)| ->] end; [split; eauto|].
    cbn [fst snd]. rewrite Ed. cbn. destruct (trim_space f =s? trim_space (RequestFingerprint c)); cbn; auto.
  - match goal with |- context [statement faults ?g (1%nat, ?d)] => destruct (statement_or_fault g 1 d) as [(e & He & ->)| ->] end; [split; eauto|].
    cbn. rewrite Hk. destruct (trim_space f =s? trim_space (RequestFingerprint c)); cbn; auto.
Qed.
End Known.

(** ** Looking for an inviter *)

Section Invite.
Context {D : decimal_ops} {Q : sql_database}.
Context (now : Z) (faults : nat -> option error) (next_reset : Z -> account -> Z -> option Z).

(** The charge is to be shared with whoever invited the consumer. *)
Definition shares_with_inviter (c : UsageBillingCommand) : bool :=
  let owner := positive_id (ShareOwnerUserID c) in
  let invite := snd (share_ratios (decimalFromFloat (OwnerShareRatio c)) (decimalFromFloat (InviteShareRatio c))) in
  (0 <? UserID c) && (0 <? AccountID c) && negb (IsZero (accountShareConsumerCharge c)) && ShareSnapshotCaptured c &&
  negb (owner =? 0) && negb (owner =? UserID c) &&
  (NormalizeAccountShareMode (ShareModeSnapshot c) =s? AccountShareModePublic) &&
  (NormalizeAccountShareStatus (ShareStatusSnapshot c) =s? AccountShareStatusApproved) &&
  usageBillingCommandHasPolicySnapshot c && positive_f (BalanceCost c) && negb (IsZero invite) && negb (IsNegative invite).

Definition affiliate_enabled (db : tables) : bool :=
  match settings db !! "affiliate_enabled" with None => false | Some raw => EqualFold (trim_space raw) "true" end.

Lemma positive_not_le x : positive_f x = true -> SFleb x f64_zero = false.
Proof. by destruct x as [s|[]| |[] m e]. Qed.

Lemma invite_lookup_fails c policy t db : positive_f (BalanceCost c) = true -> IsZero (pol_InviteShareRatio policy) = false ->
  IsNegative (pol_InviteShareRatio policy) = false -> affiliate_enabled db = true ->
  does (resolveAccountShareInvite faults c policy t) db (fun _ _ => False).
Proof.
  intros Hb Hz Hn He. unfold resolveAccountShareInvite. rewrite (positive_not_le _ Hb), Hz, Hn. cbn [orb].
  eapply does_bind with (P := fun b _ => b = true).
  - unfold isUsageAffiliateEnabled. eapply does_bind with (P := fun r _ => r = settings db !! "affiliate_enabled"); [by apply does_query|].
    intros raw db1 ->. apply does_ret. exact He.
  - intros b db1 ->. cbn [negb]. unfold QueryRow_invite. cbn. apply does_refuse.
Qed.

Lemma settlement_fails c id result db : shares_with_inviter c = true -> affiliate_enabled db = true ->
  does (applyAccountShareSettlement now faults c id result) db (fun _ _ => False).
Proof.
  unfold shares_with_inviter. rewrite !andb_true_iff, !negb_true_iff. intros H He.
  destruct H as [[[[[[[[[[[Hu%Z.ltb_lt Ha%Z.ltb_lt] Hc] Hcap] Ho%Z.eqb_neq] Hou] Hm%String.eqb_eq] Hs%String.eqb_eq] Hp] Hb] Hz] Hn].
  unfold applyAccountShareSettlement. rewrite (proj2 (Z.leb_gt _ _) Hu), (proj2 (Z.leb_gt _ _) Ha), Hc. cbn [orb].
  eapply does_bind with (P := fun acc db1 => acc = command_snapshot c /\ db1 = db).
  { unfold accountShareSnapshotForSettlement. rewrite Hcap. by apply does_ret. }
  intros acc db1 [-> ->]. unfold command_snapshot. cbn [ss_OwnerUserID ss_ShareMode ss_ShareStatus]. rewrite Hm, Hs, Hou, !String.eqb_refl. cbn [negb orb].
  assert (Hpos : (positive_id (ShareOwnerUserID c) <=? 0) = false).
  { apply Z.leb_gt. unfold positive_id in *. destruct (ShareOwnerUserID c) as [z|]; [|done]. destruct (0 <? z) eqn:E; [by apply Z.ltb_lt | done]. }
  rewrite Hpos. cbn [orb].
  eapply does_bind with (P := fun policy db1 => pol_InviteShareRatio policy =
    snd (share_ratios (decimalFromFloat (OwnerShareRatio c)) (decimalFromFloat (InviteShareRatio c))) /\ db1 = db).
  { unfold resolveAccountSharePolicy. rewrite Hcap, Hp. cbn [andb]. destruct (share_ratios _ _) as [o i]. by apply does_ret. }
  intros policy db1 [Hi ->]. eapply does_bind; [apply invite_lookup_fails; rewrite ?Hi; done|]. done.
Qed.

(** Writing the log changes the log of the command, nothing else that is read here. *)
Lemma log_same_command c db : does (ensureUsageBillingLog now faults c) db (fun '(_, c') _ => exists l, c' = c <| cmd_UsageLog := l |>).
Proof.
  unfold ensureUsageBillingLog. destruct (cmd_UsageLog c) as [l|] eqn:El; [|apply does_ret; exists None; rewrite <- El; by destruct c].
  eapply does_bind with (P := fun _ _ => True); [by intros n; destruct (createSingle _ _ _ _) as [[]  []]|]. intros l' db' _. apply does_ret. by eexists.
Qed.

Lemma shares_log c l : positive_f (BalanceCost c) = true -> shares_with_inviter (c <| cmd_UsageLog := l |>) = shares_with_inviter c.
Proof. intros H. unfold shares_with_inviter, accountShareConsumerCharge. cbn -[share_ratios]. by rewrite H. Qed.

(** C7: A charge of a wallet that is to be shared with an inviter is never made.
    The query for the inviter has four placeholders and gets three arguments, so
    that the whole transaction fails: while affiliates are enabled (they are not
    unless a setting says so), a command with a positive charge to the wallet and
    with a captured snapshot of an approved public account of somebody else and
    of a policy that grants inviters a share is not billed at all, however often
    it is retried. *)
Theorem inviter_share_never_billed c answer db : shares_with_inviter c = true -> affiliate_enabled db = true ->
  let '(r, db') := transaction (billing_transaction now faults next_reset c) answer db in
  db' = db /\ match r with Success result => Applied result = false | Failure _ => True end.
Proof.
  intros Hs He. assert (Hb : positive_f (BalanceCost c) = true) by (unfold shares_with_inviter in Hs; rewrite !andb_true_iff in Hs; tauto).
  assert (H : does (billing_transaction now faults next_reset c) db (fun '(r, b) _ => b = false /\ r = no_result)).
  { unfold billing_transaction. eapply does_bind; [apply claim_does|]. intros applied db1 H1. destruct applied; cbn [negb]; [|by apply does_ret].
    assert (He1 : affiliate_enabled db1 = true).
    { destruct (H1 eq_refl) as (_ & _ & Hf). unfold fixed in Hf. injection Hf as _ _ _ _ Hst _ _. unfold affiliate_enabled. by rewrite Hst. }
    eapply does_bind with (P := fun _ _ => False); [|done]. unfold applyUsageBillingEffects.
    eapply does_bind with (P := fun '(_, c') db2 => (exists l, c' = c <| cmd_UsageLog := l |>) /\ settings db2 = settings db1).
    { intros n. pose proof (log_same_command c db1 n) as Hc. pose proof (log_leaves now faults settings ltac:(done) c db1 n) as Hl.
      destruct (ensureUsageBillingLog now faults c (n, db1)) as [[[id c']|e] [n' db2]]; [by split | done]. }
    intros [id c'] db2 [[l ->] Hst2].
    assert (Hrest : forall db3 result, settings db3 = settings db1 ->
      does (applyAccountShareSettlement now faults (c <| cmd_UsageLog := l |>) id result) db3 (fun _ _ => False)).
    { intros db3 result Hst3. apply settlement_fails; [by rewrite shares_log|]. unfold affiliate_enabled in *. by rewrite Hst3. }
    eapply does_bind; [apply (subscription_leaves faults settings); done|]. intros [] db3 H3. cbv beta in H3.
    eapply does_bind; [apply (carpool_leaves now faults settings); done|]. intros [] db4 H4. cbv beta in H4.
    eapply does_bind; [apply (wallet_leaves faults settings); done|]. intros r5 db5 H5. cbv beta in H5.
    eapply does_bind; [apply (commission_leaves faults settings); done|]. intros r6 db6 H6. cbv beta in H6.
    eapply does_bind; [apply (quotas_leave now faults next_reset settings); done|]. intros r7 db7 H7. cbv beta in H7.
    apply Hrest. congruence. }
  specialize (H 0%nat). unfold transaction. destruct (billing_transaction now faults next_reset c (0%nat, db)) as [[[r b]|e] [n db']]; [|done].
  destruct H as [-> ->]. done.
Qed.
End Invite.

(** ** Dividing a charge *)

Section Division.
Context {D : decimal_ops} {L : decimal_laws D}.

Definition nonneg (d : decimal) : Prop := (0 <= dval d)%Q.

Lemma not_negative d : IsNegative d = false -> nonneg d.
Proof. intros H. apply Qnot_lt_le. rewrite <- negative_spec, H. done. Qed.

Lemma not_greater a b : dec_GreaterThan a b = false -> (dval a <= dval b)%Q.
Proof. intros H. apply Qnot_lt_le. rewrite <- greater_spec, H. done. Qed.

Lemma zero_value : (dval decimal_Zero == 0)%Q.
Proof. apply dval_int. Qed.

Lemma zero_nonneg : nonneg decimal_Zero.
Proof. unfold nonneg. rewrite zero_value. apply Qle_refl. Qed.

Lemma nonneg_not_negative d : nonneg d -> IsNegative d = false.
Proof. intros H. apply not_true_iff_false. rewrite negative_spec. by apply Qle_not_lt. Qed.

#[local] Instance places_proper n : Proper (Qeq ==> iff) (places n).
Proof. intros a b H. unfold places. by setoid_rewrite H. Qed.

Lemma places_sub n a b : places n (dval a) -> places n (dval b) -> places n (dval (dec_Sub a b)).
Proof. intros [x Hx] [y Hy]. exists (x - y). rewrite dval_sub, Hx, Hy. unfold Qeq, Qminus, Qplus, Qopp. cbn. lia. Qed.

Lemma places_zero n : places n (dval decimal_Zero).
Proof. exists 0. by rewrite zero_value. Qed.

(** The parts are not negative, and nothing is lost or made. *)
Definition divides (charge a b f : decimal) : Prop :=
  nonneg a /\ nonneg b /\ nonneg f /\ (dval a + dval b + dval f == dval charge)%Q.

Lemma divide_charge_divides charge o i : nonneg charge -> places 10 (dval charge) ->
  let '(a, b, f) := divide_charge charge o i in divides charge a b f.
Proof.
  intros Hc Hp. unfold divide_charge.
  set (a0 := dec_Round 10 (dec_Mul charge o)). set (a1 := if dec_GreaterThan a0 charge then charge else a0).
  set (a := if IsNegative a1 then decimal_Zero else a1).
  set (b0 := dec_Round 10 (dec_Mul charge i)). set (b1 := if IsNegative b0 then decimal_Zero else b0).
  set (rest := dec_Sub charge a). set (b := if dec_GreaterThan b1 rest then rest else b1).
  assert (Ha1 : places 10 (dval a1) /\ (dval a1 <= dval charge)%Q).
  { unfold a1. destruct (dec_GreaterThan a0 charge) eqn:E; [split; [done | apply Qle_refl]|]. split; [by apply round_places | by apply not_greater]. }
  assert (Ha : places 10 (dval a) /\ (dval a <= dval charge)%Q /\ nonneg a).
  { unfold a. destruct (IsNegative a1) eqn:E; [split; [apply places_zero|]; split; [rewrite zero_value; exact Hc | apply zero_nonneg]|].
    split; [apply Ha1|]. split; [apply Ha1 | by apply not_negative]. }
  destruct Ha as (Pa & La & Na).
  assert (Nr : nonneg rest). { unfold nonneg, rest. rewrite dval_sub. apply (Qplus_le_l _ _ (dval a)). ring_simplify. exact La. }
  assert (Hb1 : places 10 (dval b1) /\ nonneg b1).
  { unfold b1. destruct (IsNegative b0) eqn:E; [split; [apply places_zero | apply zero_nonneg]|]. split; [by apply round_places | by apply not_negative]. }
  assert (Hb : places 10 (dval b) /\ nonneg b /\ (dval b <= dval rest)%Q).
  { unfold b. destruct (dec_GreaterThan b1 rest) eqn:E; [split; [by apply places_sub|]; split; [done | apply Qle_refl]|].
    split; [apply Hb1|]. split; [apply Hb1 | by apply not_greater]. }
  destruct Hb as (Pb & Nb & Lb).
  assert (Hf : (dval (dec_Round 10 (dec_Sub rest b)) == dval rest - dval b)%Q).
  { rewrite round_exact; [apply dval_sub | done | by apply places_sub; [apply places_sub|]]. }
  assert (Nf : nonneg (dec_Round 10 (dec_Sub rest b))).
  { unfold nonneg. rewrite Hf. apply (Qplus_le_l _ _ (dval b)). ring_simplify. exact Lb. }
  change (dec_Sub charge a) with rest. rewrite (nonneg_not_negative _ Nf). split; [done|]. split; [done|]. split; [done|].
  rewrite Hf. unfold rest. rewrite dval_sub. ring.
Qed.

Lemma charge_of_float x : positive_f x = true -> nonneg (decimalFromFloat x) /\ places 10 (dval (decimalFromFloat x)).
Proof.
  intros H. unfold decimalFromFloat. rewrite positive_not_le by done. split; [|by apply round_places].
  apply round_nonneg; [done | by apply dval_float].
Qed.

Lemma consumer_charge c : nonneg (accountShareConsumerCharge c) /\ places 10 (dval (accountShareConsumerCharge c)).
Proof.
  unfold accountShareConsumerCharge. assert (H0 : nonneg decimal_Zero /\ places 10 (dval decimal_Zero)) by (split; [apply zero_nonneg | apply places_zero]).
  destruct (positive_f (BalanceCost c)) eqn:E1; [by apply charge_of_float|]. destruct (positive_f (SubscriptionCost c)) eqn:E2; [by apply charge_of_float|].
  destruct (cmd_UsageLog c) as [l|]; [|done]. destruct (positive_f (log_ActualCost l)) eqn:E3; [by apply charge_of_float | done].
Qed.

Definition divided (s : settlement) : Prop := divides (se_ConsumerCharge s) (se_OwnerCredit s) (se_InviteCredit s) (se_PlatformFee s).
End Division.

(** ** Every settlement *)

Section Settlements.
Context {D : decimal_ops} {L : decimal_laws D} {Q : sql_database}.

Definition settled (db : tables) : Prop := Forall divided (settlements db).

(** A computation that keeps [settled]. *)
Definition settles {A} (m : @TX tables A) : Prop := forall db, settled db -> does m db (fun _ db' => settled db').

Lemma leaves_settles {A} (m : @TX tables A) : leaves settlements m -> settles m.
Proof. intros H db Hs. eapply does_mono; [apply H|]. intros a db' E. unfold settled in *. cbn in E. by rewrite E. Qed.

Lemma settles_bind {A B} (m : @TX tables A) (f : A -> @TX tables B) : settles m -> (forall a, settles (f a)) -> settles (m ≫= f).
Proof. intros Hm Hf db Hs. eapply does_bind; [by apply Hm|]. intros a db' H. by apply Hf. Qed.

Context (now : Z) (faults : nat -> option error) (next_reset : Z -> account -> Z -> option Z).

Lemma settle_settles c id acc policy invite result : settles (settle faults c id acc policy invite result).
Proof.
  unfold settle. cbv zeta. set (ratio := if 0 <? _ then _ else _).
  pose proof (divide_charge_divides _ (pol_OwnerShareRatio policy) ratio (proj1 (consumer_charge c)) (proj2 (consumer_charge c))) as Hd.
  destruct (divide_charge (accountShareConsumerCharge c) (pol_OwnerShareRatio policy) ratio) as [[a b] f].
  apply settles_bind; [|intros inserted; destruct (negb inserted); [by apply leaves_settles, leaves_ret | by apply leaves_settles, pay_leaves]].
  unfold insertAccountShareSettlement. intros db Hs. eapply does_bind with (P := fun _ db' => settled db').
  - apply does_statement. intros x db'. destruct (existsb _ _); intros [= <- <-]; [done|]. unfold settled. cbn. apply Forall_app. split; [done|].
    by constructor.
  - intros x db' H. by apply does_ret.
Qed.

Lemma settlement_settles c id result : settles (applyAccountShareSettlement now faults c id result).
Proof.
  unfold applyAccountShareSettlement.
  destruct (_ || _); [by apply leaves_settles, leaves_ret|]. destruct (IsZero _); [by apply leaves_settles, leaves_ret|].
  apply settles_bind; [apply leaves_settles; unfold accountShareSnapshotForSettlement, loadAccountShareSnapshot, select_row; leave|]. intros acc.
  destruct (_ || _); [by apply leaves_settles, leaves_ret|]. destruct (_ || _); [by apply leaves_settles, leaves_ret|].
  apply settles_bind; [apply leaves_settles; unfold resolveAccountSharePolicy, queryAccountSharePolicy; leave|]. intros policy.
  apply settles_bind; [apply leaves_settles; unfold resolveAccountShareInvite, isUsageAffiliateEnabled, QueryRow_invite; leave|]. intros invite.
  apply settle_settles.
Qed.

Lemma billing_settles c : settles (billing_transaction now faults next_reset c).
Proof.
  unfold billing_transaction. apply settles_bind.
  - apply leaves_settles. unfold claimUsageBillingKey, select_row. leave. unfold insert_dedup. by destruct (dedup_of _ _ _).
  - intros applied. destruct (negb applied); [by apply leaves_settles, leaves_ret|]. apply settles_bind.
    + unfold applyUsageBillingEffects. apply settles_bind; [by apply leaves_settles, log_leaves|]. intros [id c']. cbv zeta.
      apply settles_bind; [by apply leaves_settles, subscription_leaves|]. intros _. apply settles_bind; [by apply leaves_settles, carpool_leaves|]. intros _.
      apply settles_bind; [by apply leaves_settles, wallet_leaves|]. intros r1. apply settles_bind; [by apply leaves_settles, commission_leaves|]. intros r2.
      apply settles_bind; [by apply leaves_settles, quotas_leave|]. intros r3. apply settlement_settles.
    + intros result. apply settles_bind; [|by intros; apply leaves_settles, leaves_ret]. by intros db Hs n.
Qed.
End Settlements.

(** C5: Settlements divide the charge.  In every interleaving of billings and
    cleanups, the credit of the owner, the credit of the inviter and the fee of
    the platform of every settlement are not negative and add up to what the
    consumer was charged, to the last of ten places, whatever ratios the policy
    has. *)
Theorem settlements_divide_charges {D : decimal_ops} {L : decimal_laws D} {Q : sql_database} next_reset s s' :
  settled (database s) -> reachable next_reset s s' -> settled (database s').
Proof.
  intros Hs Hr. revert Hs Hr. apply preserved_reachable. intros R c now db r db' Hs Ha. destruct c as [c|cutoff limit|ids|ids]; cbn in Ha.
  - destruct Ha as (faults & answer & E). pose proof (transaction_does _ answer db _ (billing_settles now faults next_reset c db Hs)) as H.
    rewrite <- E in H. destruct r as [a|e]; [destruct H as [H|[_ ->]]; done | destruct H as [->|[_ H]]; done].
  - by destruct Ha as [-> _].
  - unfold effect_or_not in Ha. destruct r as [[]|e]; [by subst | by destruct Ha as [->| ->]].
  - unfold effect_or_not in Ha. destruct r as [[]|e]; [by subst | by destruct Ha as [->| ->]].
Qed.

(** * The ledger of balances

    A billing moves balances, and each move is an entry of the ledger. *)

Open Scope Z_scope.

Section Moves.
Context {D : decimal_ops} {Q : sql_database}.

Inductive move_kind : Type := UsageCharge | Commission | OwnerIncome | InviteIncome.

Definition direction (k : move_kind) : string := match k with UsageCharge | Commission => "debit" | _ => "credit" end.
Definition reason (k : move_kind) : string :=
  match k with
  | UsageCharge => "usage_charge" | Commission => "private_group_commission"
  | OwnerIncome => "account_share_income" | InviteIncome => "invite_share_income"
  end.

(** The amount of a move as the balance and as the ledger have it. *)
Record move : Type := mkMove { mv_kind : move_kind; mv_user : Z; mv_amount : float64; mv_booked : decimal }.

Definition shift (m : move) (balance : column) : column :=
  if SFleb (mv_amount m) f64_zero then balance
  else if direction (mv_kind m) =s? "credit" then col_add balance (mv_amount m) else col_sub balance (mv_amount m).

(** The balance afterwards as a decimal; a negative one is shown as zero except
    for usage charges. *)
Definition shown_after (k : move_kind) (balance : column) : decimal :=
  match k with UsageCharge => decimalFromSignedFloat | _ => decimalFromFloat end (as_double (value balance)).

Definition entry_of (ref : option Z) (m : move) (balance : column) : ledger_entry :=
  mkEntry (mv_user m) (direction (mv_kind m)) (StringFixed 10 (mv_booked m)) (reason (mv_kind m)) "usage_log" ref None
    (StringFixed 10 (shown_after (mv_kind m) balance)).

(** All balances, with the ledger. *)
Definition balances (db : tables) : gmap Z column := u_balance <$> users db.
Definition ledger_of (db : tables) : gmap Z column * list ledger_entry := (balances db, balance_ledger db).

(** A move of the balance of a user who exists, with its entry. *)
Definition make_move (ref : option Z) (s : gmap Z column * list ledger_entry) (m : move) : gmap Z column * list ledger_entry :=
  match fst s !! mv_user m with
  | Some balance => (<[mv_user m := shift m balance]> (fst s), insert_entry (entry_of ref m (shift m balance)) (snd s))
  | None => s
  end.





(** ** A series of moves *)

Definition moved (kinds : list move_kind) (P : move -> Prop) (ref : option Z) (db db' : tables) : Prop :=
  exists moves, ledger_of db' = foldl (make_move ref) (ledger_of db) moves /\ map mv_kind moves `sublist_of` kinds /\
    Forall (fun m => P m /\ is_Some (balances db !! mv_user m)) moves /\ usage_logs db' = usage_logs db.

Lemma same_users ref moves s u : is_Some (fst (foldl (make_move ref) s moves) !! u) <-> is_Some (fst s !! u).
Proof.
  revert s. induction moves as [|m moves IH]; intros s; cbn; [done|]. rewrite IH. unfold make_move. destruct (fst s !! mv_user m) as [b|] eqn:E; [|done].
  cbn. destruct (decide (u = mv_user m)) as [->|Hu]; [rewrite lookup_insert_eq, E; split; intros _; by eexists|by rewrite lookup_insert_ne].
Qed.

Lemma moved_trans k1 k2 P ref db db1 db2 : moved k1 P ref db db1 -> moved k2 P ref db1 db2 -> moved (k1 ++ k2) P ref db db2.
Proof.
  intros (m1 & E1 & K1 & P1 & L1) (m2 & E2 & K2 & P2 & L2). exists (m1 ++ m2)%list. rewrite foldl_app, <- E1, map_app.
  split_and!; [done|by apply sublist_app| |congruence]. apply Forall_app. split; [done|]. eapply Forall_impl; [exact P2|].
  intros m [Hm Hs]. split; [done|]. apply (f_equal fst) in E1. cbn in E1. rewrite E1 in Hs. by apply same_users in Hs.
Qed.




(** [m] moves balances, in this order at most, and keeps the books. *)
Definition books {A} (kinds : list move_kind) (P : move -> Prop) (ref : option Z) (m : @TX tables A) : Prop :=
  forall db, does m db (fun _ db' => moved kinds P ref db db').


Lemma books_bind {A B} k1 k2 P ref (m : @TX tables A) (f : A -> @TX tables B) :
  books k1 P ref m -> (forall a, books k2 P ref (f a)) -> books (k1 ++ k2) P ref (m ≫= f).
Proof.
  intros Hm Hf db. eapply does_bind; [apply Hm|]. intros a db1 H1. eapply does_mono; [apply Hf|]. intros b db2 H2.
  exact (moved_trans _ _ _ _ _ _ _ H1 H2).
Qed.


(** ** One move *)

Context (faults : nat -> option error).













End Moves.

(** ** The moves of a billing *)

Section Ledger.
Context {D : decimal_ops} {L : decimal_laws D} {Q : sql_database}.
Context (faults : nat -> option error).





















Context (now : Z) (next_reset : Z -> account -> Z -> option Z).



(** ** The usage log *)



(** ** The whole transaction *)





End Ledger.

