(* ===== verification/UsageBillingRuns.v ===== *)
(** * Runs of the billing system

    A concrete database (DECIMAL columns as rationals of eight places), and what
    the theorems say of concrete billings. *)

From Stdlib Require Import Floats.SpecFloat QArith.
From S2P Require Import Prelude GoStrings Json AppErrors PaymentData Decimals Transactions Program Interleaving.
From S2P Require Import UsageBilling UsageBillingSystem UsageBillingSpec.

Open Scope Z_scope.

Definition parse_decimal (s : string) : Q :=
  match String.index 0 "." s with
  | Some i =>
      let frac := (String.length s - S i)%nat in
      let digits := default 0 (parse_int64 (String.substring 0 i s +:+ String.substring (S i) frac s)) in
      Qmake digits (Z.to_pos (10 ^ Z.of_nat frac))
  | None => inject_Z (default 0 (parse_int64 s))
  end.

Definition eight_places : sql_database := {|
  column := Q;
  expr := Q;
  value := fun q => q;
  number := q_of_float;
  decimal_text := parse_decimal;
  plus := fun a b => Qred (a + b);
  minus := fun a b => Qred (a - b);
  at_least := fun a b => Qle_bool b a;
  stored := fun q => Qred (dec_Round (decimal_ops := rational_decimals) 8 q);
  as_double := InexactFloat64 (decimal_ops := rational_decimals);
  as_text := q_string 8;
  datetime := fun t => t;
  day_start := fun t => t - t `mod` 86400000000000;
|}.

#[local] Existing Instance rational_decimals.
#[local] Existing Instance eight_places.

Definition no_reset : Z -> account -> Z -> option Z := fun _ _ _ => None.

(** Nothing fails. *)
Definition serve R (c : cmd R) (st : Z * tables) : R * (Z * tables) :=
  let '(now, db) := st in
  match c in cmd R return R * (Z * tables) with
  | BillingTransaction c => let '(r, db) := transaction (billing_transaction now (fun _ => None) no_reset c) Committed db in (r, (now, db))
  | SelectVictims cutoff limit => (Success (select_victims cutoff limit db), (now, db))
  | ArchiveRows ids => (Success tt, (now, archive_rows ids db))
  | DeleteRows ids => (Success tt, (now, delete_rows ids db))
  end.

Lemma bills_obey : obeys (answers no_reset) serve.
Proof.
  intros R c now db. destruct c as [c|cutoff limit|ids|ids]; cbn; try done.
  destruct (transaction _ _ _) as [r db'] eqn:E. split; [done|]. by exists (fun _ => None), Committed.
Qed.

Definition a_user (balance : Z) : user :=
  mkUser "active" (inject_Z balance) 0%Q (inject_Z balance) 0%Q 0%Q 0%Q 0%Q 0%Q.

(** User 1 uses the account 5 of user 2, who gets eight tenths. *)
Definition a_market : tables := empty_tables <| users := {[1 := a_user 10; 2 := a_user 0]} |>.

Definition a_log : UsageLog :=
  mkUsageLog 0 "" 0 0 0 "claude" 0 100 20 0 0 0 None None None None (f64_of_Z 2) (f64_of_Z 2) None None None.

Definition a_charge (request : string) : UsageBillingCommand :=
  mkUsageBillingCommand request 7 "" "" 1 5 None None "apikey" "claude" "" "" 0 100 20 0 0 0 "" (f64_of_Z 2) false f64_zero f64_zero f64_zero
    f64_zero f64_zero true (Some 2) "public" "approved" "anthropic" (Some 3) 1 (f64_ratio 8 10) f64_zero None (Some a_log).

Definition bill (request : string) : prog cmd unit := _ ← Apply (Some (a_charge request)); mret tt.

(** The request is billed, its key archived, and it is billed again; another one is billed. *)
Definition a_schedule : list (@action cmd tables) :=
  [Start (bill "r1"); Run 0 serve 5; Start (_ ← CleanupUsageBillingDedup 3 100; mret tt); Run 1 serve 9;
   Start (bill "r1"); Run 2 serve 5; Start (bill "r2"); Run 3 serve 5].

Definition a_day : system := foldl act (mksystem a_market 50 []) a_schedule.

Lemma a_day_reachable : reachable no_reset (mksystem a_market 50 []) a_day.
Proof. apply schedule_reaches. repeat constructor; apply bills_obey. Qed.

Lemma a_market_inv : Inv a_market.
Proof. split; [constructor | by intros k H%elem_of_nil | constructor]. Qed.

Lemma billed_at_most_once_witness : reachable no_reset (mksystem a_market 50 []) a_day /\
  billed (database a_day) = [("r2", 7); ("r1", 7)] /\ NoDup (billed (database a_day)).
Proof.
  split; [exact a_day_reachable|]. split; [by vm_compute|]. exact (billed_at_most_once no_reset a_market 50 a_day a_market_inv a_day_reachable).
Defined.

(** Two dollars, of which the owner gets one sixty. *)
Lemma settlements_divide_charges_witness : settled (database a_day) /\
  map (fun s => (Qred (se_OwnerCredit s), Qred (se_PlatformFee s))) (settlements (database a_day)) = [(8 # 5, 2 # 5); (8 # 5, 2 # 5)]%Q /\
  Qred <$> (u_share <$> users (database a_day) !! 2) = Some (16 # 5)%Q.
Proof.
  split; [|split; by vm_compute].
  exact (settlements_divide_charges (L := rational_laws) no_reset (mksystem a_market 50 []) a_day ltac:(constructor) a_day_reachable).
Defined.

Definition after_first : tables := snd (transaction (billing_transaction 50 (fun _ => None) no_reset (Normalize (a_charge "r1"))) Committed a_market).

Lemma known_key_not_billed_witness :
  fst (transaction (billing_transaction 60 (fun _ => None) no_reset (Normalize (a_charge "r1"))) Committed after_first) = Success no_result.
Proof.
  assert (Hk : known_fingerprint (Normalize (a_charge "r1")) after_first = Some (buildUsageBillingFingerprint (Normalize (a_charge "r1")))) by by vm_compute.
  pose proof (known_key_not_billed 60 (fun _ => None) no_reset (Normalize (a_charge "r1")) Committed after_first _ Hk) as H.
  assert (Hs : same_fingerprint (buildUsageBillingFingerprint (Normalize (a_charge "r1"))) (Normalize (a_charge "r1")) = true) by by vm_compute.
  rewrite Hs in H. destruct (transaction _ _ _) as [r db']. destruct H as [_ [->|(n & e & He & _)]]; [done | discriminate He].
Defined.


Definition invited_charge : UsageBillingCommand := a_charge "r1" <| InviteShareRatio := f64_ratio 1 10 |>.

Lemma inviter_share_never_billed_witness :
  snd (transaction (billing_transaction 50 (fun _ => None) no_reset invited_charge) Committed (a_market <| settings := {["affiliate_enabled" := "true"]} |>)) =
  a_market <| settings := {["affiliate_enabled" := "true"]} |>.
Proof.
  assert (Hs : shares_with_inviter invited_charge = true) by by vm_compute.
  pose proof (inviter_share_never_billed 50 (fun _ => None) no_reset invited_charge Committed
    (a_market <| settings := {["affiliate_enabled" := "true"]} |>) Hs eq_refl) as H.
  destruct (transaction _ _ _) as [r db']. exact (proj1 H).
Defined.
