(* ===== verification/ModelNames.v ===== *)
(** * Names of models (service/openai_model_alias.go, parts of
    openai_codex_transform.go and openai_images.go)

    Clients spell the names of models in many ways; prices, channels and accounts
    are looked up by normalized names.  [strings.ToLower] is that of [LogRedact]. *)

From S2P Require Import Prelude GoStrings.
From S2P Require LogRedact.

Abbreviation ToLower := LogRedact.to_lower.

(** ** Package strings *)

Fixpoint has_suffix (s suf : string) : bool :=
  (s =s? suf) || match s with String _ s' => has_suffix s' suf | EmptyString => false end.

Fixpoint cut_suffix (s suf : string) : option string :=
  if s =s? suf then Some EmptyString else
  match s with
  | String c s' => String c <$> cut_suffix s' suf
  | EmptyString => None
  end.

Definition trim_suffix (s suf : string) : string := default s (cut_suffix s suf).

(** [skip]: bytes of an occurrence that was replaced already. *)
Fixpoint replace_from (skip : nat) (old new s : string) : string :=
  match s with
  | EmptyString => EmptyString
  | String c s' =>
      match skip with
      | S n => replace_from n old new s'
      | O => if has_prefix s old then new +:+ replace_from (String.length old - 1) old new s'
             else String c (replace_from O old new s')
      end
  end.

(** [old] is not empty. *)
Definition ReplaceAll (s old new : string) : string := replace_from O old new s.

(** A byte at which a run of white space begins. *)
Definition starts_space (s : string) : bool :=
  match s with
  | String a (String b (String c _)) => space1 a || space2 a b || space3 a b c
  | String a (String b EmptyString) => space1 a || space2 a b
  | String a EmptyString => space1 a
  | EmptyString => true
  end.

Fixpoint take_word (s : string) : string * string :=
  if starts_space s then (EmptyString, s) else
  match s with
  | String c s' => let '(w, rest) := take_word s' in (String c w, rest)
  | EmptyString => (EmptyString, s)
  end.

(** [strings.Fields]: there are at most as many words as bytes. *)
Fixpoint words (fuel : nat) (s : string) : list string :=
  match fuel with
  | O => []
  | S fuel =>
      match trim_left s with
      | EmptyString => []
      | s' => let '(w, rest) := take_word s' in w :: words fuel rest
      end
  end.
Definition Fields (s : string) : list string := words (String.length s) s.

(** What stands behind the last occurrence, [strings.LastIndex]; [sub] is not empty. *)
Fixpoint after_last (sub s : string) : option string :=
  match s with
  | EmptyString => None
  | String _ s' =>
      match after_last sub s' with
      | Some rest => Some rest
      | None => cut_prefix s sub
      end
  end.

Definition last_part (sep : ascii) (s : string) : string := default "" (last (split_byte sep s)).

(** ** openai_model_alias.go *)

Definition lastOpenAIModelSegment (model : string) : string :=
  let model := trim_space model in
  if model =s? "" then "" else
  trim_space (if contains model "/" then last_part "/" model else model).

(** [for strings.Contains(s, "--")]: every turn makes the text shorter. *)
Fixpoint collapse_dashes (fuel : nat) (s : string) : string :=
  match fuel with
  | O => s
  | S fuel => if contains s "--" then collapse_dashes fuel (ReplaceAll s "--" "-") else s
  end.

Definition spelling_replacements : list (string * string) :=
  [("gpt-5.4mini", "gpt-5.4-mini"); ("gpt-5.4nano", "gpt-5.4-nano"); ("gpt-5.3-codexspark", "gpt-5.3-codex-spark");
   ("gpt-5.3codexspark", "gpt-5.3-codex-spark"); ("gpt-5.3codex", "gpt-5.3-codex")].

Definition canonicalizeOpenAIModelAliasSpelling (model : string) : string :=
  let model := ToLower (lastOpenAIModelSegment model) in
  if model =s? "" then "" else
  let normalized := join (Fields (ReplaceAll model "_" "-")) "-" in
  let normalized := collapse_dashes (String.length normalized) normalized in
  let normalized := if has_prefix normalized "gpt5" then "gpt-5" +:+ trim_prefix normalized "gpt5" else normalized in
  if negb (has_prefix normalized "gpt-") && negb (contains normalized "codex") then "" else
  foldl (fun s '(from, to) => ReplaceAll s from to) normalized spelling_replacements.

(** ** openai_codex_transform.go *)

Definition codexModelMap : list (string * string) :=
  [("gpt-5.6-sol", "gpt-5.6-sol"); ("gpt-5.6-terra", "gpt-5.6-terra"); ("gpt-5.6-luna", "gpt-5.6-luna"); ("gpt-5.5", "gpt-5.5");
   ("gpt-5.4", "gpt-5.4"); ("gpt-5.4-mini", "gpt-5.4-mini"); ("gpt-5.4-none", "gpt-5.4"); ("gpt-5.4-low", "gpt-5.4");
   ("gpt-5.4-medium", "gpt-5.4"); ("gpt-5.4-high", "gpt-5.4"); ("gpt-5.4-xhigh", "gpt-5.4"); ("gpt-5.4-chat-latest", "gpt-5.4");
   ("gpt-5.3", "gpt-5.3-codex"); ("gpt-5.3-none", "gpt-5.3-codex"); ("gpt-5.3-low", "gpt-5.3-codex");
   ("gpt-5.3-medium", "gpt-5.3-codex"); ("gpt-5.3-high", "gpt-5.3-codex"); ("gpt-5.3-xhigh", "gpt-5.3-codex");
   ("gpt-5.3-codex", "gpt-5.3-codex"); ("gpt-5.3-codex-spark", "gpt-5.3-codex-spark");
   ("gpt-5.3-codex-spark-low", "gpt-5.3-codex-spark"); ("gpt-5.3-codex-spark-medium", "gpt-5.3-codex-spark");
   ("gpt-5.3-codex-spark-high", "gpt-5.3-codex-spark"); ("gpt-5.3-codex-spark-xhigh", "gpt-5.3-codex-spark");
   ("gpt-5.3-codex-low", "gpt-5.3-codex"); ("gpt-5.3-codex-medium", "gpt-5.3-codex"); ("gpt-5.3-codex-high", "gpt-5.3-codex");
   ("gpt-5.3-codex-xhigh", "gpt-5.3-codex"); ("gpt-5.2", "gpt-5.2"); ("gpt-5.2-none", "gpt-5.2"); ("gpt-5.2-low", "gpt-5.2");
   ("gpt-5.2-medium", "gpt-5.2"); ("gpt-5.2-high", "gpt-5.2"); ("gpt-5.2-xhigh", "gpt-5.2"); ("gpt-5", "gpt-5.4");
   ("gpt-5-mini", "gpt-5.4"); ("gpt-5-nano", "gpt-5.4"); ("gpt-5.1", "gpt-5.4"); ("gpt-5.1-codex", "gpt-5.3-codex");
   ("gpt-5.1-codex-max", "gpt-5.3-codex"); ("gpt-5.1-codex-mini", "gpt-5.3-codex"); ("gpt-5.2-codex", "gpt-5.2");
   ("codex-mini-latest", "gpt-5.3-codex"); ("gpt-5-codex", "gpt-5.3-codex")].

Definition codexVersionModelPrefixes : list (string * string) :=
  [("gpt-5.6-sol", "gpt-5.6-sol"); ("gpt-5.6-terra", "gpt-5.6-terra"); ("gpt-5.6-luna", "gpt-5.6-luna");
   ("gpt-5.3-codex-spark", "gpt-5.3-codex-spark"); ("gpt-5.3-codex", "gpt-5.3-codex"); ("gpt-5.4-mini", "gpt-5.4-mini");
   ("gpt-5.4-nano", "gpt-5.4-nano"); ("gpt-5.5", "gpt-5.5"); ("gpt-5.4", "gpt-5.4"); ("gpt-5.2", "gpt-5.2")].

Definition assoc {A} (k : string) (l : list (string * A)) : option A := snd <$> List.find (fun kv => fst kv =s? k) l.

Definition codexModelLookupKey (modelID : string) : string :=
  let modelID := trim_space modelID in
  if modelID =s? "" then "" else
  let modelID := if contains modelID "/" then last_part "/" modelID else modelID in
  ToLower (join (Fields modelID) "-").

Definition getNormalizedCodexModel (modelID : string) : string :=
  let key := codexModelLookupKey modelID in
  if key =s? "" then "" else default "" (assoc key codexModelMap).

Definition digits_only (s : string) : bool := all_bytes (in_range 48 57) s.

Definition isCodexDateSuffix (suffix : string) : bool :=
  match split_byte "-" suffix with
  | [y; m; d] =>
      (String.length y =? 4)%nat && (String.length m =? 2)%nat && (String.length d =? 2)%nat &&
      forallb digits_only [y; m; d]
  | _ => false
  end.

Definition isKnownCodexModelSuffix (suffix : string) : bool :=
  in_list suffix ["none"; "minimal"; "low"; "medium"; "high"; "xhigh"] || isCodexDateSuffix suffix.

Definition isOpenAIImageGenerationModel (model : string) : bool := has_prefix (ToLower (trim_space model)) "gpt-image-".

(** The cases of the switch of [normalizeKnownOpenAICodexModel], in order. *)
Definition known_families (normalized : string) : string :=
  let has := contains normalized in
  if has "gpt-5.6-sol" then "gpt-5.6-sol"
  else if has "gpt-5.6-terra" then "gpt-5.6-terra"
  else if has "gpt-5.6-luna" then "gpt-5.6-luna"
  else if normalized =s? "gpt-5.6" then "gpt-5.6-sol"
  else match cut_prefix normalized "gpt-5.6-" with
  | Some suffix => if (suffix =s? "max") || isKnownCodexModelSuffix suffix then "gpt-5.6-sol" else ""
  | None =>
      if has "gpt-5.5" then "gpt-5.5"
      else if has "gpt-5.4-mini" then "gpt-5.4-mini"
      else if has "gpt-5.4-nano" then "gpt-5.4-nano"
      else if has "gpt-5.4" then "gpt-5.4"
      else if has "gpt-5.2" then "gpt-5.2"
      else if has "gpt-5.3-codex-spark" then "gpt-5.3-codex-spark"
      else if has "gpt-5.3-codex" then "gpt-5.3-codex"
      else if has "gpt-5.3" then "gpt-5.3-codex"
      else if has "codex" then "gpt-5.3-codex"
      else if has "gpt-5" then "gpt-5.4"
      else ""
  end.

Definition normalizeKnownOpenAICodexModel (model : string) : string :=
  let normalized := canonicalizeOpenAIModelAliasSpelling model in
  if normalized =s? "" then "" else
  let mapped := getNormalizedCodexModel normalized in
  if mapped <>s? "" then mapped else
  let compact :=
    match cut_suffix normalized "-openai-compact" with
    | Some base => getNormalizedCodexModel base
    | None => ""
    end in
  if compact <>s? "" then compact else known_families normalized.

Definition isOpenAIGPT56Model (model : string) : bool :=
  let normalized := canonicalizeOpenAIModelAliasSpelling model in
  (normalized =s? "gpt-5.6") ||
  match cut_prefix normalized "gpt-5.6-" with
  | Some suffix => (suffix =s? "max") || isKnownCodexModelSuffix suffix
  | None => false
  end ||
  existsb (fun prefix => (normalized =s? prefix) || has_prefix normalized (prefix +:+ "-"))
    ["gpt-5.6-sol"; "gpt-5.6-terra"; "gpt-5.6-luna"].

Definition normalizeKnownCodexModel (model : string) : option string :=
  let model := trim_space model in
  if model =s? "" then None
  else if isOpenAIImageGenerationModel model then Some model
  else
    let modelID := lastOpenAIModelSegment model in
    let normalized := canonicalizeOpenAIModelAliasSpelling modelID in
    let modelID := if normalized <>s? "" then normalized else modelID in
    let mapped := normalizeKnownOpenAICodexModel modelID in
    if mapped <>s? "" then Some mapped else
    let key := codexModelLookupKey modelID in
    if key =s? "" then None else
    let mapped := getNormalizedCodexModel key in
    if mapped <>s? "" then Some mapped else
    snd <$> List.find (fun '(prefix, _) =>
      (key =s? prefix) ||
      match cut_prefix key (prefix +:+ "-") with
      | Some suffix => isKnownCodexModelSuffix suffix
      | None => false
      end) codexVersionModelPrefixes.

Definition normalizeCodexModel (model : string) : string :=
  let model := trim_space model in
  if model =s? "" then "gpt-5.4" else default "gpt-5.4" (normalizeKnownCodexModel model).

(** ** Candidates of a price *)

(** The names found so far, and their keys. *)
Definition add_candidate (acc : list string * list string) (candidate : string) : list string * list string :=
  let '(candidates, seen) := acc in
  let candidate := trim_space candidate in
  if candidate =s? "" then acc else
  let key := ToLower candidate in
  if in_list key seen then acc else ((candidates ++ [candidate])%list, key :: seen).

Definition appendUsageBillingModelCandidate (acc : list string * list string) (model : string) : list string * list string :=
  let trimmed := trim_space model in
  if trimmed =s? "" then acc else
  let acc := add_candidate acc trimmed in
  let canonical := canonicalizeOpenAIModelAliasSpelling trimmed in
  let acc := if canonical <>s? "" then add_candidate acc canonical else acc in
  let normalized := normalizeKnownOpenAICodexModel trimmed in
  if normalized <>s? "" then add_candidate acc normalized else acc.

Definition usageBillingModelCandidates (primary : string) (alternates : list string) : list string :=
  fst (foldl appendUsageBillingModelCandidate (appendUsageBillingModelCandidate ([], []) primary) alternates).

Definition firstUsageBillingModel (candidates : list string) : string :=
  default "" (List.find (fun c => c <>s? "") (map trim_space candidates)).

(** ** Capitals

    They play no part in the name of a model. *)

Definition no_slash (s : string) : bool := all_bytes (fun a => negb (Ascii.eqb a "/")) s.

Lemma no_slash_part s : no_slash s = true -> last_part "/" s = s.
Proof.
  intros H. assert (E : split_byte "/" s = [s]); [|unfold last_part; by rewrite E].
  induction s as [|a s IH]; [done|]. cbn in H |- *. apply andb_true_iff in H as [->%negb_true_iff H]. by rewrite (IH H).
Qed.

Lemma slash_part h r : last_part "/" (h +:+ String "/" r) = last_part "/" r.
Proof.
  assert (H : forall s, exists x l, split_byte "/" s = x :: l).
  { intros s. induction s as [|a s (x & l & IH)]; cbn; [by eexists _, _|]. destruct (Ascii.eqb a "/"); [by eexists _, _|]. rewrite IH. by eexists _, _. }
  unfold last_part. f_equal. induction h as [|a h IH].
  - cbn. destruct (H r) as (x & l & ->). done.
  - cbn [String.append split_byte]. destruct (H (h +:+ String "/" r)) as (x & l & E).
    assert (Hn : l <> []).
    { intros ->. clear IH. revert x E. induction h as [|b h IHh]; intros x E.
      - cbn in E. destruct (H r) as (y & l & E'). rewrite E' in E. done.
      - cbn [String.append split_byte] in E. destruct (Ascii.eqb b "/"); [by destruct (H (h +:+ String "/" r)) as (y & l & E'); rewrite E' in E|].
        destruct (H (h +:+ String "/" r)) as (y & l & E'). rewrite E' in E. injection E as <- ->. by apply (IHh y). }
    rewrite E in IH |- *. destruct (Ascii.eqb a "/"); [by destruct l|]. by destruct l.
Qed.

Lemma first_slash s : no_slash s = true \/ exists h r, s = h +:+ String "/" r /\ no_slash h = true.
Proof.
  unfold no_slash. induction s as [|a s [IH|(h & r & -> & IH)]]; [by left| |]; destruct (Ascii.eqb_spec a "/") as [->|Hn].
  - right. by exists "", s.
  - left. cbn. by rewrite IH, (proj2 (Ascii.eqb_neq _ _) Hn).
  - right. by exists "", (h +:+ String "/" r).
  - right. exists (String a h), r. split; [done|]. cbn. by rewrite IH, (proj2 (Ascii.eqb_neq _ _) Hn).
Qed.

Lemma slash_contained h r : contains (h +:+ String "/" r) "/" = true.
Proof.
  unfold contains. induction h as [|a h IH]; [by destruct r|]. cbn [String.append String.index]. destruct (String.prefix _ _); [done|].
  by destruct (String.index 0 "/" (h +:+ String "/" r)).
Qed.

(** The part after the last slash, if there is one. *)
Lemma last_segment s : (if contains s "/" then last_part "/" s else s) = last_part "/" s.
Proof. destruct (first_slash s) as [H|(h & r & -> & _)]; [rewrite no_slash_part by done; by destruct (contains s "/")|by rewrite slash_contained]. Qed.

Lemma lower_no_slash s : no_slash s = true -> no_slash (ToLower s) = true.
Proof.
  induction s as [s IH] using (induction_ltof1 _ String.length). unfold ltof in IH. intros H. destruct s as [|a s]; [done|].
  rewrite LogRedact.to_lower_cons. destruct (LogRedact.starts2 0xC4 0xB0 a s) eqn:E2; [|destruct (LogRedact.starts3 0xE2 0x84 0xAA a s) eqn:E3].
  - destruct s as [|b s]; [done|]. apply (IH s); [cbn; lia|]. cbn in H. by apply andb_true_iff in H as [_ [_ H]%andb_true_iff].
  - destruct s as [|b [|c s]]; [done..|]. apply (IH s); [cbn; lia|]. cbn in H. by apply andb_true_iff in H as [_ [_ [_ H]%andb_true_iff]%andb_true_iff].
  - cbn in H |- *. apply andb_true_iff in H as [Ha H]. fold (no_slash s) in H. fold (no_slash (ToLower s)). rewrite (IH s ltac:(cbn; lia) H), andb_true_r.
    destruct a as [[] [] [] [] [] [] [] []]; vm_compute in Ha |- *; congruence.
Qed.

Lemma lower_last_part s : last_part "/" (ToLower s) = ToLower (last_part "/" s).
Proof.
  induction s as [s IH] using (induction_ltof1 _ String.length). unfold ltof in IH. destruct (first_slash s) as [H|(h & r & -> & _)].
  - by rewrite !no_slash_part by auto using lower_no_slash.
  - assert (E : ToLower (String "/" r) = String "/" (ToLower r)).
    { rewrite LogRedact.to_lower_cons. by destruct r as [|? [|? ?]]. }
    rewrite LogRedact.to_lower_app by done. rewrite E, !slash_part. apply IH. rewrite JsonFacts.length_app_string. cbn. lia.
Qed.

Lemma lower_empty s : (ToLower s =? "")%string = (s =? "")%string.
Proof.
  destruct s as [|a s]; [done|]. rewrite LogRedact.to_lower_cons. by destruct (LogRedact.starts2 0xC4 0xB0 a s), (LogRedact.starts3 0xE2 0x84 0xAA a s).
Qed.

Lemma lower_segment model : lastOpenAIModelSegment (ToLower model) = ToLower (lastOpenAIModelSegment model).
Proof.
  unfold lastOpenAIModelSegment. cbv zeta. rewrite LogRedact.lower_trim, lower_empty. destruct (trim_space model =s? ""); [done|].
  by rewrite !last_segment, lower_last_part, LogRedact.lower_trim.
Qed.

Lemma lower_canonical model : canonicalizeOpenAIModelAliasSpelling (ToLower model) = canonicalizeOpenAIModelAliasSpelling model.
Proof. unfold canonicalizeOpenAIModelAliasSpelling. by rewrite lower_segment, LogRedact.to_lower_idem. Qed.

Lemma lower_codex model : normalizeKnownOpenAICodexModel (ToLower model) = normalizeKnownOpenAICodexModel model.
Proof. unfold normalizeKnownOpenAICodexModel. by rewrite lower_canonical. Qed.

Example spellings : map normalizeKnownOpenAICodexModel
  ["GPT5.4 mini"; "openai/gpt-5.3codexspark"; "gpt-5.1-codex-max"; "gpt_5.6__max"; "gpt-5.4-openai-compact"; "gpt-5.6-turbo"; "claude-opus-4-5"] =
  ["gpt-5.4-mini"; "gpt-5.3-codex-spark"; "gpt-5.3-codex"; "gpt-5.6-sol"; "gpt-5.4"; ""; ""].
Proof. vm_compute. reflexivity. Qed.
