(* ===== verification/PricingService.v ===== *)
(** * Prices of models (service/pricing_service.go)

    The prices come from a file in LiteLLM's format, which is downloaded and
    reloaded; [pricingData] maps its models to their prices.  A model is looked up
    under several names, then by its family, then by the rules for OpenAI's
    models.  A statement that ranges over the map meets its entries in an order
    the runtime chooses anew each time: [order n] is that of the n-th such
    statement of a call.  The download, the files and their hashes are left out. *)

From Stdlib Require Import Floats.SpecFloat.
From S2P Require Import Prelude GoStrings Json AnyJson PaymentData ModelNames.
From S2P Require GeminiTypes.

(** A constant of the source: the double nearest to [d * 10^x]. *)
Definition constant (d x : Z) : float64 :=
  match decimal_float64 d x with
  | Some (Z.pos m, e) => S754_finite false m e
  | _ => f64_zero
  end.

(** ** The file *)

Record LiteLLMModelPricing : Type := mkLiteLLMModelPricing {
  InputCostPerToken : float64; InputCostPerTokenPriority : float64; OutputCostPerToken : float64; OutputCostPerTokenPriority : float64;
  CacheCreationInputTokenCost : float64; CacheCreationInputTokenCostPriority : float64; CacheCreationInputTokenCostAbove1hr : float64;
  CacheReadInputTokenCost : float64; CacheReadInputTokenCostPriority : float64; LongContextInputTokenThreshold : Z;
  LongContextInputCostMultiplier : float64; LongContextOutputCostMultiplier : float64; SupportsServiceTier : bool; LiteLLMProvider : string;
  Mode : string; SupportsPromptCaching : bool; OutputCostPerImage : float64; OutputCostPerImageToken : float64
}.

#[export] Instance eta_LiteLLMModelPricing : Settable LiteLLMModelPricing := fun p =>
  mkLiteLLMModelPricing
    (InputCostPerToken p) (InputCostPerTokenPriority p) (OutputCostPerToken p) (OutputCostPerTokenPriority p)
    (CacheCreationInputTokenCost p) (CacheCreationInputTokenCostPriority p) (CacheCreationInputTokenCostAbove1hr p)
    (CacheReadInputTokenCost p) (CacheReadInputTokenCostPriority p) (LongContextInputTokenThreshold p) (LongContextInputCostMultiplier p)
    (LongContextOutputCostMultiplier p) (SupportsServiceTier p) (LiteLLMProvider p) (Mode p) (SupportsPromptCaching p)
    (OutputCostPerImage p) (OutputCostPerImageToken p).

Definition zero_LiteLLMModelPricing : LiteLLMModelPricing :=
  mkLiteLLMModelPricing
    f64_zero f64_zero f64_zero f64_zero f64_zero f64_zero f64_zero f64_zero f64_zero 0 f64_zero f64_zero false "" "" false f64_zero f64_zero.

Record LiteLLMRawEntry : Type := mkLiteLLMRawEntry {
  raw_InputCostPerToken : option float64; raw_InputCostPerTokenPriority : option float64; raw_OutputCostPerToken : option float64;
  raw_OutputCostPerTokenPriority : option float64; raw_CacheCreationInputTokenCost : option float64;
  raw_CacheCreationInputTokenCostPriority : option float64; raw_CacheCreationInputTokenCostAbove1hr : option float64;
  raw_CacheReadInputTokenCost : option float64; raw_CacheReadInputTokenCostPriority : option float64;
  raw_LongContextInputTokenThreshold : option Z; raw_LongContextInputCostMultiplier : option float64;
  raw_LongContextOutputCostMultiplier : option float64; raw_SupportsServiceTier : bool; raw_LiteLLMProvider : string; raw_Mode : string;
  raw_SupportsPromptCaching : bool; raw_OutputCostPerImage : option float64; raw_OutputCostPerImageToken : option float64
}.

#[export] Instance eta_LiteLLMRawEntry : Settable LiteLLMRawEntry := fun p =>
  mkLiteLLMRawEntry
    (raw_InputCostPerToken p) (raw_InputCostPerTokenPriority p) (raw_OutputCostPerToken p) (raw_OutputCostPerTokenPriority p)
    (raw_CacheCreationInputTokenCost p) (raw_CacheCreationInputTokenCostPriority p) (raw_CacheCreationInputTokenCostAbove1hr p)
    (raw_CacheReadInputTokenCost p) (raw_CacheReadInputTokenCostPriority p) (raw_LongContextInputTokenThreshold p)
    (raw_LongContextInputCostMultiplier p) (raw_LongContextOutputCostMultiplier p) (raw_SupportsServiceTier p) (raw_LiteLLMProvider p)
    (raw_Mode p) (raw_SupportsPromptCaching p) (raw_OutputCostPerImage p) (raw_OutputCostPerImageToken p).

Definition zero_LiteLLMRawEntry : LiteLLMRawEntry :=
  mkLiteLLMRawEntry
    None None None None None None None None None None None None false "" "" false None None.

Definition dec_LiteLLMRawEntry : Dec LiteLLMRawEntry := dec_struct [
  field "input_cost_per_token" raw_InputCostPerToken (fun v p => p <| raw_InputCostPerToken := v |>) (dec_ptr GeminiTypes.dec_float f64_zero);
  field "input_cost_per_token_priority" raw_InputCostPerTokenPriority (fun v p => p <| raw_InputCostPerTokenPriority := v |>) (dec_ptr GeminiTypes.dec_float f64_zero);
  field "output_cost_per_token" raw_OutputCostPerToken (fun v p => p <| raw_OutputCostPerToken := v |>) (dec_ptr GeminiTypes.dec_float f64_zero);
  field "output_cost_per_token_priority" raw_OutputCostPerTokenPriority (fun v p => p <| raw_OutputCostPerTokenPriority := v |>) (dec_ptr GeminiTypes.dec_float f64_zero);
  field "cache_creation_input_token_cost" raw_CacheCreationInputTokenCost (fun v p => p <| raw_CacheCreationInputTokenCost := v |>) (dec_ptr GeminiTypes.dec_float f64_zero);
  field "cache_creation_input_token_cost_priority" raw_CacheCreationInputTokenCostPriority (fun v p => p <| raw_CacheCreationInputTokenCostPriority := v |>) (dec_ptr GeminiTypes.dec_float f64_zero);
  field "cache_creation_input_token_cost_above_1hr" raw_CacheCreationInputTokenCostAbove1hr (fun v p => p <| raw_CacheCreationInputTokenCostAbove1hr := v |>) (dec_ptr GeminiTypes.dec_float f64_zero);
  field "cache_read_input_token_cost" raw_CacheReadInputTokenCost (fun v p => p <| raw_CacheReadInputTokenCost := v |>) (dec_ptr GeminiTypes.dec_float f64_zero);
  field "cache_read_input_token_cost_priority" raw_CacheReadInputTokenCostPriority (fun v p => p <| raw_CacheReadInputTokenCostPriority := v |>) (dec_ptr GeminiTypes.dec_float f64_zero);
  field "long_context_input_token_threshold" raw_LongContextInputTokenThreshold (fun v p => p <| raw_LongContextInputTokenThreshold := v |>) (dec_ptr dec_int 0);
  field "long_context_input_cost_multiplier" raw_LongContextInputCostMultiplier (fun v p => p <| raw_LongContextInputCostMultiplier := v |>) (dec_ptr GeminiTypes.dec_float f64_zero);
  field "long_context_output_cost_multiplier" raw_LongContextOutputCostMultiplier (fun v p => p <| raw_LongContextOutputCostMultiplier := v |>) (dec_ptr GeminiTypes.dec_float f64_zero);
  field "supports_service_tier" raw_SupportsServiceTier (fun v p => p <| raw_SupportsServiceTier := v |>) dec_bool;
  field "litellm_provider" raw_LiteLLMProvider (fun v p => p <| raw_LiteLLMProvider := v |>) dec_string;
  field "mode" raw_Mode (fun v p => p <| raw_Mode := v |>) dec_string;
  field "supports_prompt_caching" raw_SupportsPromptCaching (fun v p => p <| raw_SupportsPromptCaching := v |>) dec_bool;
  field "output_cost_per_image" raw_OutputCostPerImage (fun v p => p <| raw_OutputCostPerImage := v |>) (dec_ptr GeminiTypes.dec_float f64_zero);
  field "output_cost_per_image_token" raw_OutputCostPerImageToken (fun v p => p <| raw_OutputCostPerImageToken := v |>) (dec_ptr GeminiTypes.dec_float f64_zero)].

(** The entry as it is kept, if it has a price. *)
Definition pricing_of_entry (e : LiteLLMRawEntry) : option LiteLLMModelPricing :=
  let price (p : option float64) := default f64_zero p in
  match raw_InputCostPerToken e, raw_OutputCostPerToken e with
  | None, None => None
  | _, _ => Some (mkLiteLLMModelPricing
      (price (raw_InputCostPerToken e)) (price (raw_InputCostPerTokenPriority e)) (price (raw_OutputCostPerToken e))
      (price (raw_OutputCostPerTokenPriority e)) (price (raw_CacheCreationInputTokenCost e))
      (price (raw_CacheCreationInputTokenCostPriority e)) (price (raw_CacheCreationInputTokenCostAbove1hr e))
      (price (raw_CacheReadInputTokenCost e)) (price (raw_CacheReadInputTokenCostPriority e))
      (default 0 (raw_LongContextInputTokenThreshold e)) (price (raw_LongContextInputCostMultiplier e))
      (price (raw_LongContextOutputCostMultiplier e)) (raw_SupportsServiceTier e) (raw_LiteLLMProvider e) (raw_Mode e)
      (raw_SupportsPromptCaching e) (price (raw_OutputCostPerImage e)) (price (raw_OutputCostPerImageToken e)))
  end.

Abbreviation pricing_map := (gmap string LiteLLMModelPricing).

(** An entry that does not decode is skipped. *)
Definition parse_entry (modelName rawEntry : string) : option LiteLLMModelPricing :=
  if modelName =s? "sample_spec" then None else
  match unmarshal dec_LiteLLMRawEntry zero_LiteLLMRawEntry rawEntry with
  | Ok entry => pricing_of_entry entry
  | Err _ => None
  end.

Definition parsePricingData (body : string) : result pricing_map :=
  match unmarshal dec_raw_map ∅ body with
  | Err e => Err (ErrWrap "parse raw JSON" e)
  | Ok rawData =>
      let result := map_imap parse_entry rawData in
      if decide (result = ∅) then Err (ErrMsg "no valid pricing entries found") else Ok result
  end.

(** ** Static prices *)

Definition openAIGPT54LongContextInputThreshold : Z := 272000.
Definition openAIGPT54LongContextInputMultiplier : float64 := constant 2 0.
Definition openAIGPT54LongContextOutputMultiplier : float64 := constant 15 (-1).

Definition openai_chat (p : LiteLLMModelPricing) : LiteLLMModelPricing :=
  p <| LiteLLMProvider := "openai" |> <| Mode := "chat" |> <| SupportsPromptCaching := true |>.

Definition long_context (p : LiteLLMModelPricing) : LiteLLMModelPricing :=
  p <| LongContextInputTokenThreshold := openAIGPT54LongContextInputThreshold |>
    <| LongContextInputCostMultiplier := openAIGPT54LongContextInputMultiplier |>
    <| LongContextOutputCostMultiplier := openAIGPT54LongContextOutputMultiplier |>.

Definition openAIGPT54FallbackPricing : LiteLLMModelPricing :=
  long_context (openai_chat (zero_LiteLLMModelPricing
    <| InputCostPerToken := constant 25 (-7) |> <| OutputCostPerToken := constant 15 (-6) |>
    <| CacheReadInputTokenCost := constant 25 (-8) |>)).

Definition gpt56 (input input_priority output output_priority write write_priority read read_priority : float64) : LiteLLMModelPricing :=
  long_context (openai_chat (zero_LiteLLMModelPricing
    <| InputCostPerToken := input |> <| InputCostPerTokenPriority := input_priority |>
    <| OutputCostPerToken := output |> <| OutputCostPerTokenPriority := output_priority |>
    <| CacheCreationInputTokenCost := write |> <| CacheCreationInputTokenCostPriority := write_priority |>
    <| CacheReadInputTokenCost := read |> <| CacheReadInputTokenCostPriority := read_priority |>
    <| SupportsServiceTier := true |>)).

Definition openAIGPT56SolFallbackPricing : LiteLLMModelPricing :=
  gpt56 (constant 5 (-6)) (constant 1 (-5)) (constant 3 (-5)) (constant 6 (-5)) (constant 625 (-8)) (constant 125 (-7))
    (constant 5 (-7)) (constant 1 (-6)).
Definition openAIGPT56TerraFallbackPricing : LiteLLMModelPricing :=
  gpt56 (constant 25 (-7)) (constant 5 (-6)) (constant 15 (-6)) (constant 3 (-5)) (constant 3125 (-9)) (constant 625 (-8))
    (constant 25 (-8)) (constant 5 (-7)).
Definition openAIGPT56LunaFallbackPricing : LiteLLMModelPricing :=
  gpt56 (constant 1 (-6)) (constant 2 (-6)) (constant 6 (-6)) (constant 12 (-6)) (constant 125 (-8)) (constant 25 (-7))
    (constant 1 (-7)) (constant 2 (-7)).

Definition openAIGPT54MiniFallbackPricing : LiteLLMModelPricing :=
  openai_chat (zero_LiteLLMModelPricing
    <| InputCostPerToken := constant 75 (-8) |> <| OutputCostPerToken := constant 45 (-7) |>
    <| CacheReadInputTokenCost := constant 75 (-9) |>).
Definition openAIGPT54NanoFallbackPricing : LiteLLMModelPricing :=
  openai_chat (zero_LiteLLMModelPricing
    <| InputCostPerToken := constant 2 (-7) |> <| OutputCostPerToken := constant 125 (-8) |>
    <| CacheReadInputTokenCost := constant 2 (-8) |>).

(** [openai.DefaultTestModel] *)
Definition DefaultTestModel : string := "gpt-5.4".

(** ** Names under which a model is looked up *)

Definition lastSegment (model : string) : string := default model (after_last "/" model).

(** [strings.TrimLeft(model, "/")] *)
Fixpoint trim_slashes (s : string) : string :=
  match s with
  | String c s' => if Ascii.eqb c "/"%char then trim_slashes s' else s
  | EmptyString => EmptyString
  end.

Definition normalizeModelNameForPricing (model : string) : string :=
  let model := trim_slashes (trim_space model) in
  let model := trim_prefix (trim_prefix model "models/") "publishers/google/models/" in
  let model := default model (after_last "/publishers/google/models/" model) in
  let model := default model (after_last "/models/" model) in
  let model := trim_slashes model in
  let canonical := canonicalizeOpenAIModelAliasSpelling model in
  if canonical <>s? "" then
    if canonical =s? "gpt-5.6" then "gpt-5.6-sol" else
    match cut_prefix canonical "gpt-5.6-" with
    | Some suffix => if (suffix =s? "max") || isKnownCodexModelSuffix suffix then "gpt-5.6-sol" else canonical
    | None => canonical
    end
  else model.

Definition keep_new (out : list string) (c : string) : list string :=
  let c := trim_space c in
  if (c =s? "") || in_list c out then out else (out ++ [c])%list.

Definition buildModelLookupCandidates (modelLower : string) : list string :=
  let out := foldl keep_new []
    [normalizeModelNameForPricing modelLower; modelLower; trim_prefix modelLower "models/"; lastSegment modelLower;
     lastSegment (trim_prefix modelLower "models/")] in
  match out with [] => [modelLower] | _ => out end.

Definition isNumeric (s : string) : bool := digits_only s.

Definition extractBaseName (model : string) : string :=
  join (List.filter (fun part => negb ((String.length part =? 8)%nat && isNumeric part) && negb (contains part ":"))
    (split_byte "-" model)) "-".

Definition first_some {A B} (f : A -> option B) (l : list A) : option B := head (omap f l).

Section Lookup.
Context (pricingData : pricing_map).
Context (order : nat -> list (string * LiteLLMModelPricing) -> list (string * LiteLLMModelPricing)).

(** [for key, pricing := range s.pricingData] *)
Definition ranged (n : nat) : list (string * LiteLLMModelPricing) := order n (map_to_list pricingData).

(** ** Families of Claude models *)

Record modelFamily : Type := mkFamily { family_name : string; family_match : list string; family_pricing : list string }.

Definition families : list modelFamily :=
  [mkFamily "opus-4.7" ["claude-opus-4-7"; "claude-opus-4.7"] ["claude-opus-4-7"; "claude-opus-4.7"; "claude-opus-4-6"];
   mkFamily "opus-4.6" ["claude-opus-4-6"; "claude-opus-4.6"] [];
   mkFamily "opus-4.5" ["claude-opus-4-5"; "claude-opus-4.5"] [];
   mkFamily "opus-4" ["claude-opus-4"; "claude-3-opus"] [];
   mkFamily "sonnet-4.5" ["claude-sonnet-4-5"; "claude-sonnet-4.5"] [];
   mkFamily "sonnet-4" ["claude-sonnet-4"; "claude-3-5-sonnet"] [];
   mkFamily "sonnet-3.5" ["claude-3-5-sonnet"; "claude-3.5-sonnet"] [];
   mkFamily "sonnet-3" ["claude-3-sonnet"] [];
   mkFamily "haiku-3.5" ["claude-3-5-haiku"; "claude-3.5-haiku"] [];
   mkFamily "haiku-3" ["claude-3-haiku"] []].

Definition in_family (model : string) (f : modelFamily) : bool :=
  existsb (fun pattern => contains model pattern || contains model (ReplaceAll pattern "-" "")) (family_match f).

(** By keywords, when no pattern is found. *)
Definition fallback_family (model : string) : string :=
  let has := contains model in
  if has "opus" then
    if has "4.7" || has "4-7" then "opus-4.7"
    else if has "4.6" || has "4-6" then "opus-4.6"
    else if has "4.5" || has "4-5" then "opus-4.5" else "opus-4"
  else if has "sonnet" then
    if has "4.5" || has "4-5" then "sonnet-4.5" else if has "3-5" || has "3.5" then "sonnet-3.5" else "sonnet-4"
  else if has "haiku" then
    if has "3-5" || has "3.5" then "haiku-3.5" else "haiku-3"
  else "".

Definition family_of (model : string) : option modelFamily :=
  match List.find (in_family model) families with
  | Some f => Some f
  | None => List.find (fun f => family_name f =s? fallback_family model) families
  end.

(** Pattern by pattern, each over the whole map; [n] is the first statement's number. *)
Fixpoint range_patterns (n : nat) (patterns : list string) : option LiteLLMModelPricing :=
  match patterns with
  | [] => None
  | pattern :: rest =>
      match List.find (fun kv => contains (ToLower (fst kv)) pattern) (ranged n) with
      | Some (_, pricing) => Some pricing
      | None => range_patterns (S n) rest
      end
  end.

Definition matchByModelFamily (n : nat) (model : string) : option LiteLLMModelPricing :=
  f ← family_of model;
  range_patterns n (match family_pricing f with [] => family_match f | lookups => lookups end).

(** ** OpenAI's models *)

(** [-\d{8}$] replaced by nothing. *)
Definition without_date (model : string) : string :=
  let n := (String.length model - 9)%nat in
  let suffix := drop_bytes n model in
  match suffix with
  | String "-"%char digits => if (String.length digits =? 8)%nat && digits_only digits then String.substring 0 n model else model
  | _ => model
  end.

(** [^(gpt-\d+(?:\.\d+)?)(?:-|$)], what is captured: fewer digits would be
    followed by a digit, and no minor version by a point. *)
Definition base_version (model : string) : option string :=
  s ← cut_prefix model "gpt-";
  '(major, s1) ← take_digits1 s;
  let '(minor, rest) := default (EmptyString, s1) (scan_frac s1) in
  match rest with
  | EmptyString => Some ("gpt-" +:+ major +:+ minor)
  | String c _ => if Ascii.eqb c "-"%char then Some ("gpt-" +:+ major +:+ minor) else None
  end.

Definition addVariant (model : string) (variants : list string) (v : string) : list string :=
  if (v <>s? model) && negb (in_list v variants) then (variants ++ [v])%list else variants.

Definition generateOpenAIModelVariants (model : string) : list string :=
  let dateless := without_date model in
  let add := addVariant model in
  let variants := if dateless <>s? model then add [] dateless else [] in
  let variants := match base_version model with Some base => add variants base | None => variants end in
  if dateless <>s? model then match base_version dateless with Some base => add variants base | None => variants end
  else variants.

Definition matchOpenAIModel (model : string) : option LiteLLMModelPricing :=
  let starts := has_prefix model in
  let data (key : string) := pricingData !! key in
  let spark := if starts "gpt-5.3-codex-spark" then data "gpt-5.1-codex" else None in
  let variant := first_some data (generateOpenAIModelVariants model) in
  let codex := if starts "gpt-5.3-codex" then data "gpt-5.2-codex" else None in
  match spark, variant, codex with
  | Some pricing, _, _ | None, Some pricing, _ | None, None, Some pricing => Some pricing
  | None, None, None =>
      if starts "gpt-5.6-sol" then Some openAIGPT56SolFallbackPricing
      else if starts "gpt-5.6-terra" then Some openAIGPT56TerraFallbackPricing
      else if starts "gpt-5.6-luna" then Some openAIGPT56LunaFallbackPricing
      else if starts "gpt-5.5" then Some openAIGPT54FallbackPricing
      else if starts "gpt-5.4-mini" then Some openAIGPT54MiniFallbackPricing
      else if starts "gpt-5.4-nano" then Some openAIGPT54NanoFallbackPricing
      else if starts "gpt-5.4" then Some openAIGPT54FallbackPricing
      else if isOpenAIImageGenerationModel model then first_some data ["gpt-image-2"; "gpt-image-1.5"; "gpt-image-1"]
      else data (ToLower DefaultTestModel)
  end.

(** ** The lookup *)

Definition GetModelPricing (modelName : string) : option LiteLLMModelPricing :=
  if modelName =s? "" then None else
  let modelLower := ToLower (trim_space modelName) in
  let lookupCandidates := buildModelLookupCandidates modelLower in
  let first := default "" (head lookupCandidates) in
  let exact := first_some (fun c => if c =s? "" then None else pricingData !! c) lookupCandidates in
  let variant := first_some (fun c => pricingData !! ReplaceAll c "-4-5-" "-4.5-") lookupCandidates in
  let based := List.find (fun kv => extractBaseName (ToLower (fst kv)) =s? extractBaseName first) (ranged 0) in
  let family := matchByModelFamily 1 first in
  match exact, variant, based, family with
  | Some pricing, _, _, _ | None, Some pricing, _, _ | None, None, Some (_, pricing), _ | None, None, None, Some pricing => Some pricing
  | None, None, None, None => if has_prefix first "gpt-" then matchOpenAIModel first else None
  end.

End Lookup.

(** * What the lookup of prices promises

    A price that is found is one of the file's or one of the static ones; the
    lookup by family takes the first entry the runtime comes across. *)

Definition static_prices : list LiteLLMModelPricing :=
  [openAIGPT56SolFallbackPricing; openAIGPT56TerraFallbackPricing; openAIGPT56LunaFallbackPricing; openAIGPT54FallbackPricing;
   openAIGPT54MiniFallbackPricing; openAIGPT54NanoFallbackPricing].

(** The orders in which a map may be ranged over. *)
Definition some_order (order : nat -> list (string * LiteLLMModelPricing) -> list (string * LiteLLMModelPricing)) : Prop :=
  forall n l, order n l ≡ₚ l.

Section Found.
Context (data : pricing_map) (order : nat -> list (string * LiteLLMModelPricing) -> list (string * LiteLLMModelPricing)).
Hypothesis Horder : some_order order.

Definition known_price (p : LiteLLMModelPricing) : Prop := (exists key, data !! key = Some p) \/ p ∈ static_prices.

Lemma first_some_elem {A B} (f : A -> option B) l b : first_some f l = Some b -> exists a, a ∈ l /\ f a = Some b.
Proof.
  unfold first_some. intros H. apply head_Some_elem_of, list_elem_of_omap in H as (a & Ha & Hb). by exists a.
Qed.

Lemma first_known {A} (f : A -> option string) l p : first_some (fun a => key ← f a; data !! key) l = Some p -> known_price p.
Proof. intros (a & _ & H)%first_some_elem. apply bind_Some in H as (key & _ & H). left. by exists key. Qed.

Lemma ranged_known n key p : (key, p) ∈ ranged data order n -> known_price p.
Proof. unfold ranged. rewrite (Horder n), elem_of_map_to_list. intros H. left. by exists key. Qed.

Lemma found_known n f key p : List.find f (ranged data order n) = Some (key, p) -> known_price p.
Proof. intros H. apply List.find_some in H as [H _]. by apply list_elem_of_In, ranged_known in H. Qed.

Lemma patterns_known n patterns p : range_patterns data order n patterns = Some p -> known_price p.
Proof.
  revert n. induction patterns as [|pattern patterns IH]; intros n; cbn; [done|].
  destruct (List.find _ _) as [[key q]|] eqn:E; [|apply IH]. intros [= <-]. by apply found_known in E.
Qed.

Lemma openai_known model p : matchOpenAIModel data model = Some p -> known_price p.
Proof.
  unfold matchOpenAIModel. intros H.
  assert (Hd : forall key q, data !! key = Some q -> known_price q) by (intros key q Hq; left; by exists key).
  assert (Hf : forall l q, first_some (fun key => data !! key) l = Some q -> known_price q).
  { intros l q (key & _ & Hq)%first_some_elem. by apply (Hd key). }
  set (spark := if has_prefix model "gpt-5.3-codex-spark" then data !! "gpt-5.1-codex" else None) in H.
  set (codex := if has_prefix model "gpt-5.3-codex" then data !! "gpt-5.2-codex" else None) in H.
  assert (Hspark : forall q, spark = Some q -> known_price q).
  { intros q. subst spark. destruct (has_prefix model "gpt-5.3-codex-spark"); [apply Hd|done]. }
  assert (Hcodex : forall q, codex = Some q -> known_price q).
  { intros q. subst codex. destruct (has_prefix model "gpt-5.3-codex"); [apply Hd|done]. }
  destruct spark as [q|]; [injection H as <-; by apply Hspark|].
  destruct (first_some _ _) as [q|] eqn:E; [injection H as <-; by apply (Hf _ _ E)|].
  destruct codex as [q|]; [injection H as <-; by apply Hcodex|].
  repeat (destruct (has_prefix _ _) in H; [injection H as <-; right; unfold static_prices; by repeat (left || right)|]).
  destruct (isOpenAIImageGenerationModel model); [by apply (Hf _ _ H)|by apply (Hd _ _ H)].
Qed.

Lemma found_price_known model p : GetModelPricing data order model = Some p -> known_price p.
Proof.
  unfold GetModelPricing. destruct (model =s? ""); [done|]. set (cs := buildModelLookupCandidates _). set (c0 := default "" _).
  destruct (first_some (fun c => if c =s? "" then None else data !! c) cs) as [q|] eqn:E1.
  { intros [= <-]. apply first_some_elem in E1 as (key & _ & H). destruct (key =s? ""); [done|]. left. by exists key. }
  destruct (first_some (fun c => data !! ReplaceAll c "-4-5-" "-4.5-") cs) as [q|] eqn:E2.
  { intros [= <-]. apply first_some_elem in E2 as (key & _ & H). left. by eexists. }
  destruct (List.find _ _) as [[key q]|] eqn:E3; [intros [= <-]; by apply found_known in E3|].
  destruct (matchByModelFamily data order 1 c0) as [q|] eqn:E4.
  { intros [= <-]. unfold matchByModelFamily in E4. apply bind_Some in E4 as (f & _ & H). by apply patterns_known in H. }
  destruct (has_prefix c0 "gpt-"); [apply openai_known|done].
Qed.

End Found.

(** ** Which prices may be found

    Without a word of orders: the first name in the file, else the first with the
    version dotted, else any entry with the same base name, else any entry of the
    family, else what OpenAI's rules say. *)

Section Possible.
Context (data : pricing_map).

(** The spellings of a model's name that are looked up; nothing is said of doubles. *)
Definition spellings (model : string) : list string :=
  List.filter (fun c => c <>s? "") (map trim_space
    [normalizeModelNameForPricing model; model; trim_prefix model "models/"; lastSegment model; lastSegment (trim_prefix model "models/")]).

Definition own_names (model : string) : list string := match spellings model with [] => [model] | l => l end.

(** The price of the first key that is in the file. *)
Definition priced_first (keys : list string) (p : LiteLLMModelPricing) : Prop :=
  exists before c after, keys = before ++ c :: after /\ data !! c = Some p /\ Forall (fun b => data !! b = None) before.

Definition entry_with (P : string -> Prop) (p : LiteLLMModelPricing) : Prop := exists key, data !! key = Some p /\ P (ToLower key).

Definition of_base (name : string) : LiteLLMModelPricing -> Prop := entry_with (fun key => extractBaseName key = extractBaseName name).

(** Any entry with the first of the patterns that some entry has. *)
Definition of_family (name : string) (p : LiteLLMModelPricing) : Prop :=
  exists f before pattern after, family_of name = Some f /\
    match family_pricing f with [] => family_match f | lookups => lookups end = before ++ pattern :: after /\
    entry_with (fun key => contains key pattern = true) p /\
    Forall (fun b => forall q, ~ entry_with (fun key => contains key b = true) q) before.

Definition or_else (P Q : LiteLLMModelPricing -> Prop) (p : LiteLLMModelPricing) : Prop := P p \/ (forall q, ~ P q) /\ Q p.

Definition possible (model : string) : LiteLLMModelPricing -> Prop :=
  let names := own_names (ToLower (trim_space model)) in
  let name := default "" (head names) in
  or_else (priced_first names) (or_else (priced_first (map (fun c => ReplaceAll c "-4-5-" "-4.5-") names))
    (or_else (of_base name) (or_else (of_family name) (fun p => has_prefix name "gpt-" = true /\ matchOpenAIModel data name = Some p)))).

(** *** Names *)

Lemma first_some_spec {A B} (f : A -> option B) l b :
  first_some f l = Some b <-> exists before a after, l = before ++ a :: after /\ f a = Some b /\ Forall (fun x => f x = None) before.
Proof.
  unfold first_some. split.
  - induction l as [|x l IH]; cbn; [done|]. destruct (f x) eqn:E; cbn.
    + intros [= ->]. by exists [], x, l.
    + intros (before & a & after & -> & Ha & Hb)%IH. exists (x :: before), a, after. split; [done|]. split; [done|]. by constructor.
  - intros (before & a & after & -> & Ha & Hb). induction Hb as [|x before Hx _ IH]; cbn; [by rewrite Ha|]. by rewrite Hx.
Qed.

Lemma first_some_twice {A B} (g : A -> option B) l a r : a ∈ l -> first_some g (l ++ a :: r) = first_some g (l ++ r).
Proof.
  intros Ha. unfold first_some. rewrite !omap_app. destruct (omap g l) as [|b bs] eqn:E; [|done]. cbn.
  destruct (g a) as [b|] eqn:Eg; [|done]. exfalso. assert (Hb : b ∈ omap g l) by (apply list_elem_of_omap; eauto). rewrite E in Hb. by apply elem_of_nil in Hb.
Qed.

Lemma keep_new_first {B} (g : string -> option B) l : forall out,
  first_some g (foldl keep_new out l) = first_some g (out ++ List.filter (fun c => c <>s? "") (map trim_space l)).
Proof.
  induction l as [|c l IH]; intros out; cbn [foldl map List.filter]; [by rewrite app_nil_r|]. rewrite IH. unfold keep_new. cbv zeta.
  destruct (trim_space c =s? ""); cbn [orb negb]; [done|]. destruct (in_list (trim_space c) out) eqn:E; [|by rewrite <- app_assoc].
  symmetry. apply first_some_twice. apply existsb_exists in E as (x & Hx & ->%String.eqb_eq). by apply list_elem_of_In.
Qed.

Lemma names_first {B} (g : string -> option B) model : first_some g (buildModelLookupCandidates model) = first_some g (own_names model).
Proof.
  unfold buildModelLookupCandidates, own_names. cbv zeta. set (l := [_; _; _; _; _]). pose proof (keep_new_first g l []) as H.
  pose proof (keep_new_first Some l []) as Hs. cbn [app] in H, Hs. fold (spellings model) in H, Hs.
  change (List.filter _ (map trim_space l)) with (spellings model) in H, Hs.
  destruct (foldl keep_new [] l) as [|x xs], (spellings model) as [|y ys]; done.
Qed.

Lemma first_name model : head (buildModelLookupCandidates model) = head (own_names model).
Proof.
  assert (H : forall l : list string, first_some Some l = head l) by (intros [|x l]; done). by rewrite <- !H, names_first.
Qed.

Lemma own_names_nonempty model : model <> "" -> Forall (fun c => c <> "") (own_names model).
Proof.
  intros Hm. unfold own_names. destruct (spellings model) as [|c l] eqn:E; [by constructor|]. rewrite <- E. apply List.Forall_forall.
  intros x [_ Hx]%List.filter_In. apply negb_true_iff, String.eqb_neq in Hx. done.
Qed.

(** *** Orders *)

(** The entries of [key] first. *)
Definition prefer (key : string) (n : nat) (l : list (string * LiteLLMModelPricing)) : list (string * LiteLLMModelPricing) :=
  filter (fun kv => fst kv = key) l ++ filter (fun kv => ~ fst kv = key) l.

Lemma prefer_order key : some_order (prefer key).
Proof. intros n l. apply filter_app_complement. Qed.

Lemma prefer_first key p n : data !! key = Some p -> exists l, ranged data (prefer key) n = (key, p) :: l.
Proof.
  intros Hk. unfold ranged, prefer. destruct (filter (fun kv => fst kv = key) (map_to_list data)) as [|[k q] l] eqn:E.
  - exfalso. assert (Hin : (key, p) ∈ filter (fun kv => fst kv = key) (map_to_list data)) by by apply list_elem_of_filter; rewrite elem_of_map_to_list.
    rewrite E in Hin. by apply elem_of_nil in Hin.
  - assert (Hin : (k, q) ∈ filter (fun kv => fst kv = key) (map_to_list data)) by (rewrite E; by left).
    apply list_elem_of_filter in Hin as [Hkey Hin]. cbn in Hkey. subst k. apply elem_of_map_to_list in Hin. simplify_eq. by eexists.
Qed.

(** Ranging over the map for an entry, in some order. *)
Lemma range_finds order n (f : string -> bool) : some_order order ->
  match List.find (fun kv => f (ToLower (fst kv))) (ranged data order n) with
  | Some (_, p) => entry_with (fun key => f key = true) p
  | None => forall p, ~ entry_with (fun key => f key = true) p
  end.
Proof.
  intros Ho. destruct (List.find _ _) as [[key p]|] eqn:E.
  - apply List.find_some in E as [Hin Hf]. exists key. split; [|done]. apply list_elem_of_In in Hin. unfold ranged in Hin.
    by rewrite (Ho n), elem_of_map_to_list in Hin.
  - intros p (key & Hk & Hf). assert (Hin : (key, p) ∈ ranged data order n) by (unfold ranged; by rewrite (Ho n), elem_of_map_to_list).
    apply list_elem_of_In in Hin. pose proof (List.find_none _ _ E _ Hin) as Hn. cbn in Hn. congruence.
Qed.

Lemma range_prefers n (f : string -> bool) key p : data !! key = Some p -> f (ToLower key) = true ->
  List.find (fun kv => f (ToLower (fst kv))) (ranged data (prefer key) n) = Some (key, p).
Proof. intros Hk Hf. destruct (prefer_first key p n Hk) as [l ->]. cbn. by rewrite Hf. Qed.

Lemma patterns_find order patterns : some_order order -> forall n,
  match range_patterns data order n patterns with
  | Some p => exists before pattern after, patterns = before ++ pattern :: after /\ entry_with (fun key => contains key pattern = true) p /\
      Forall (fun b => forall q, ~ entry_with (fun key => contains key b = true) q) before
  | None => Forall (fun b => forall q, ~ entry_with (fun key => contains key b = true) q) patterns
  end.
Proof.
  intros Ho. induction patterns as [|pattern patterns IH]; intros n; cbn [range_patterns]; [done|].
  pose proof (range_finds order n (fun key => contains key pattern) Ho) as H. destruct (List.find _ _) as [[key p]|].
  - exists [], pattern, patterns. by split_and!.
  - specialize (IH (S n)). destruct (range_patterns _ _ _ _) as [p|]; [|by constructor].
    destruct IH as (before & pt & after & -> & Hp & Hb). exists (pattern :: before), pt, after. split_and!; [done..|by constructor].
Qed.

Lemma patterns_prefer before pattern after key p : data !! key = Some p -> contains (ToLower key) pattern = true ->
  Forall (fun b => forall q, ~ entry_with (fun key => contains key b = true) q) before -> forall n,
  range_patterns data (prefer key) n (before ++ pattern :: after) = Some p.
Proof.
  intros Hk Hc Hb. induction Hb as [|b before Hb _ IH]; intros n; cbn [app range_patterns].
  - by rewrite (range_prefers n (fun k => contains k pattern) key p Hk Hc).
  - pose proof (range_finds (prefer key) n (fun k => contains k b) (prefer_order key)) as H. destruct (List.find _ _) as [[k q]|]; [by apply Hb in H|apply IH].
Qed.

Lemma family_finds order name n : some_order order ->
  match matchByModelFamily data order n name with
  | Some p => of_family name p
  | None => forall p, ~ of_family name p
  end.
Proof.
  intros Ho. unfold matchByModelFamily, of_family. destruct (family_of name) as [f|]; cbn; [|by intros p (? & ? & ? & ? & ? & _)].
  set (patterns := match family_pricing f with [] => family_match f | lookups => lookups end).
  pose proof (patterns_find order patterns Ho n) as H. destruct (range_patterns _ _ _ _) as [p|].
  - destruct H as (before & pattern & after & E & Hp & Hb). by exists f, before, pattern, after.
  - intros p (f' & before & pattern & after & [= <-] & E & Hp & _). fold patterns in E. rewrite E in H.
    apply Forall_app in H as [_ H]. apply Forall_cons_1 in H as [H _]. by apply (H p).
Qed.

Lemma first_is_priced keys : match first_some (fun c => data !! c) keys with Some p => priced_first keys p | None => forall p, ~ priced_first keys p end.
Proof.
  destruct (first_some _ keys) as [p|] eqn:E; [by apply first_some_spec|]. intros p H. assert (H' : first_some (fun c => data !! c) keys = Some p) by by apply first_some_spec.
  congruence.
Qed.

Lemma priced_once keys p q : priced_first keys p -> priced_first keys q -> p = q.
Proof. unfold priced_first. intros H1%(first_some_spec (fun c => data !! c)) H2%(first_some_spec (fun c => data !! c)). congruence. Qed.

Lemma first_some_guard keys : Forall (fun c => c <> "") keys ->
  first_some (fun c => if c =s? "" then None else data !! c) keys = first_some (fun c => data !! c) keys.
Proof.
  unfold first_some. intros H. f_equal. induction H as [|c keys Hc _ IH]; [done|]. cbn. apply String.eqb_neq in Hc as ->. by rewrite IH.
Qed.

Lemma first_some_map keys (f : string -> string) : first_some (fun c => data !! f c) keys = first_some (fun c => data !! c) (map f keys).
Proof. unfold first_some. f_equal. induction keys as [|c keys IH]; [done|]. cbn. by rewrite IH. Qed.

(** The lookup with its names as above. *)
Lemma lookup_eq order model : trim_space model <> "" ->
  GetModelPricing data order model =
  let names := own_names (ToLower (trim_space model)) in
  let name := default "" (head names) in
  match first_some (fun c => data !! c) names with Some p => Some p | None =>
  match first_some (fun c => data !! c) (map (fun c => ReplaceAll c "-4-5-" "-4.5-") names) with Some p => Some p | None =>
  match List.find (fun kv => extractBaseName (ToLower (fst kv)) =s? extractBaseName name) (ranged data order 0) with Some (_, p) => Some p | None =>
  match matchByModelFamily data order 1 name with Some p => Some p | None => if has_prefix name "gpt-" then matchOpenAIModel data name else None end end end end.
Proof.
  intros Hm. unfold GetModelPricing. destruct (model =s? "") eqn:E; [apply String.eqb_eq in E as ->; by destruct Hm|].
  cbv zeta. rewrite !names_first, first_name, <- first_some_map, first_some_guard.
  - by repeat case_match.
  - apply own_names_nonempty. intros H. apply String.eqb_eq in H. rewrite lower_empty in H. by apply String.eqb_eq in H.
Qed.

Lemma found_possible order model p : some_order order -> trim_space model <> "" -> GetModelPricing data order model = Some p -> possible model p.
Proof.
  intros Ho Hm. rewrite (lookup_eq order model Hm). cbv zeta. unfold possible. generalize (own_names (ToLower (trim_space model))). intros names.
  generalize (default "" (head names)). intros name.
  pose proof (first_is_priced names) as H1. destruct (first_some _ names) as [q|]; [intros [= <-]; by left|]. intros H. right. split; [exact H1|]. revert H.
  generalize (map (fun c => ReplaceAll c "-4-5-" "-4.5-") names). intros dotted. pose proof (first_is_priced dotted) as H2. destruct (first_some _ dotted) as [q|]; [intros [= <-]; by left|].
  intros H. right. split; [exact H2|]. revert H.
  pose proof (range_finds order 0 (fun key => extractBaseName key =s? extractBaseName name) Ho) as H3. destruct (List.find _ _) as [[key q]|].
  { intros [= <-]. left. destruct H3 as (k & Hk & E%String.eqb_eq). by exists k. }
  intros H. right. split. { intros q (k & Hk & E). apply (H3 q). exists k. split; [done|]. by apply String.eqb_eq. } revert H.
  pose proof (family_finds order name 1 Ho) as H4. destruct (matchByModelFamily _ _ _ _) as [q|]; [intros [= <-]; by left|].
  intros H. right. split; [exact H4|]. by destruct (has_prefix name "gpt-").
Qed.

(** Whichever of the possible prices it is, some order leads to it. *)
Lemma possible_found model p : trim_space model <> "" -> possible model p -> exists order, some_order order /\ GetModelPricing data order model = Some p.
Proof.
  intros Hm. pose proof (fun order => lookup_eq order model Hm) as Hlook. cbv zeta in Hlook. unfold possible. revert Hlook.
  generalize (own_names (ToLower (trim_space model))). intros names. generalize (default "" (head names)). intros name.
  generalize (map (fun c => ReplaceAll c "-4-5-" "-4.5-") names). intros dotted. intros Hlook.
  pose proof (first_is_priced names) as H1. pose proof (first_is_priced dotted) as H2.
  assert (Hid : some_order (fun _ l => l)) by (by intros n l).
  assert (Hplain : forall order, GetModelPricing data order model = Some p -> some_order order -> exists order, some_order order /\ GetModelPricing data order model = Some p) by (intros order H H0; exact (ex_intro _ order (conj H0 H))).
  intros [P1|[N1 [P2|[N2 [P3|[N3 [P4|[N4 [Hg Hp]]]]]]]]].
  - apply (Hplain (fun _ l => l)); [|done]. rewrite Hlook. destruct (first_some _ names) as [q|]; [|by apply H1 in P1].
    f_equal. by eapply priced_once.
  - apply (Hplain (fun _ l => l)); [|done]. rewrite Hlook. destruct (first_some _ names) as [q|]; [by apply N1 in H1|].
    destruct (first_some _ dotted) as [q|]; [|by apply H2 in P2]. f_equal. by eapply priced_once.
  - destruct P3 as (key & Hk & Hb). apply (Hplain (prefer key)); [|apply prefer_order]. rewrite Hlook.
    destruct (first_some _ names) as [q|]; [by apply N1 in H1|]. destruct (first_some _ dotted) as [q|]; [by apply N2 in H2|].
    rewrite (range_prefers 0 (fun k => extractBaseName k =s? extractBaseName name) key p Hk); [done|by apply String.eqb_eq].
  - destruct P4 as (f & before & pattern & after & Hf & E & (key & Hk & Hc) & Hb). apply (Hplain (prefer key)); [|apply prefer_order].
    rewrite Hlook.
    destruct (first_some _ names) as [q|]; [by apply N1 in H1|]. destruct (first_some _ dotted) as [q|]; [by apply N2 in H2|].
    pose proof (range_finds (prefer key) 0 (fun k => extractBaseName k =s? extractBaseName name) (prefer_order key)) as H3.
    destruct (List.find _ _) as [[k q]|]. { exfalso. destruct H3 as (k' & Hk' & E'%String.eqb_eq). apply (N3 q). by exists k'. }
    unfold matchByModelFamily. rewrite Hf. cbn [mbind option_bind]. by rewrite E, (patterns_prefer before pattern after key p Hk Hc Hb).
  - apply (Hplain (fun _ l => l)); [|done]. rewrite Hlook.
    destruct (first_some _ names) as [q|]; [by apply N1 in H1|]. destruct (first_some _ dotted) as [q|]; [by apply N2 in H2|].
    pose proof (range_finds (fun _ l => l) 0 (fun k => extractBaseName k =s? extractBaseName name) Hid) as H3.
    destruct (List.find _ _) as [[k q]|]. { exfalso. destruct H3 as (k' & Hk' & E'%String.eqb_eq). apply (N3 q). by exists k'. }
    pose proof (family_finds (fun _ l => l) name 1 Hid) as H4. destruct (matchByModelFamily _ _ _ _) as [q|]; [by apply N4 in H4|]. by rewrite Hg.
Qed.
End Possible.

(** *** Lines of models *)

Lemma prefix_spec p s : String.prefix p s = true <-> exists t, s = p +:+ t.
Proof.
  revert s. induction p as [|c p IH]; intros s; cbn [String.prefix String.append]; [split; [by exists s|by destruct s]|].
  destruct s as [|a s]; [split; [done|by intros [t E]]|]. cbn [String.prefix]. destruct (ascii_dec c a) as [->|Hn].
  - split; [intros H; apply IH in H as [t ->]; by exists t|intros [t E]; injection E as ->; apply IH; by exists t].
  - split; [done|]. intros [t E]. injection E as E _. by destruct Hn.
Qed.

Lemma contains_spec s p : contains s p = true <-> exists a b, s = a +:+ (p +:+ b).
Proof.
  unfold contains. induction s as [|c s IH].
  - destruct p as [|d p]; cbn; [split; [by exists "", ""|done]|]. split; [done|]. intros (a & b & E). by destruct a.
  - cbn [String.index]. destruct (String.prefix p (String c s)) eqn:Ep.
    + apply prefix_spec in Ep as [t E]. split; [|done]. intros _. by exists "", t.
    + transitivity (is_some (String.index 0 p s) = true); [by destruct (String.index 0 p s)|]. rewrite IH. split.
      * intros (a & b & ->). by exists (String c a), b.
      * intros ([|x a] & b & E); cbn in E; [|injection E as -> ->; by exists a, b]. assert (H : String.prefix p (String c s) = true) by (apply prefix_spec; by exists b). congruence.
Qed.

Lemma contains_trans s p q : contains s p = true -> contains p q = true -> contains s q = true.
Proof.
  intros (a & b & ->)%contains_spec (c & d & ->)%contains_spec. apply contains_spec. exists (a +:+ c), (d +:+ b). by rewrite !string_app_assoc.
Qed.

Definition lines : list string := ["opus"; "sonnet"; "haiku"].

Definition in_line (word : string) (f : modelFamily) : bool :=
  forallb (fun pattern => contains pattern word && contains (ReplaceAll pattern "-" "") word) (family_match f) &&
  forallb (fun pattern => contains pattern word) (family_pricing f).

(** A family is found for models of its own line only. *)
Lemma family_line name f : family_of name = Some f -> exists word, word ∈ lines /\ contains name word = true /\ in_line word f = true.
Proof.
  assert (Hall : Forall (fun f => exists word, word ∈ lines /\ in_line word f = true /\ contains (family_name f) word = true) families).
  { unfold families. repeat constructor; first
      [exists "opus"; split; [by left|by vm_compute]|exists "sonnet"; split; [right; by left|by vm_compute]|exists "haiku"; split; [right; right; by left|by vm_compute]]. }
  rewrite List.Forall_forall in Hall. unfold family_of. destruct (List.find (in_family name) families) as [f0|] eqn:E.
  - intros [= <-]. apply List.find_some in E as [Hin H]. destruct (Hall f0 Hin) as (word & Hw & Hl & _). exists word. split; [done|]. split; [|done].
    unfold in_family in H. apply existsb_exists in H as (pattern & Hp & Hc). unfold in_line in Hl. apply andb_true_iff in Hl as [Hl _].
    rewrite forallb_forall in Hl. specialize (Hl pattern Hp). apply andb_true_iff in Hl as [H1 H2].
    apply orb_true_iff in Hc as [Hc|Hc]; by eapply contains_trans.
  - intros [Hin Hn%String.eqb_eq]%List.find_some. destruct (Hall f Hin) as (word & Hw & Hl & Hf). exists word. split; [done|]. split; [|done].
    rewrite Hn in Hf. unfold fallback_family in Hf. cbv zeta in Hf.
    repeat (apply elem_of_cons in Hw as [->|Hw]); [..|by apply elem_of_nil in Hw];
      (destruct (contains name "opus") eqn:Eo; [|destruct (contains name "sonnet") eqn:Es; [|destruct (contains name "haiku") eqn:Eh]]);
      repeat (destruct (_ || _) in Hf); by vm_compute in Hf.
Qed.

(** C39: What prices a file gives a model.  A price is found, in some order of
    ranging over the file, exactly if it is: the entry of the first of the
    model's spellings that is in the file; if there is none, that of the first of
    them with its version dotted; if there is none, any entry with the same base
    name; if there is none, any entry whose key has the first of the family's
    patterns that some key has; and if there is none, what the rules of OpenAI's
    models say.  A price of the family is one of an entry of the model's own line
    (Opus, Sonnet or Haiku). *)
Theorem prices_found data model : trim_space model <> "" ->
  (forall p, (exists order, some_order order /\ GetModelPricing data order model = Some p) <-> possible data model p) /\
  (forall name p, of_family data name p -> exists word, word ∈ lines /\ contains name word = true /\ entry_with data (fun key => contains key word = true) p).
Proof.
  intros Hm. split.
  - intros p. split; [intros (order & Ho & H); by eapply found_possible|by apply possible_found].
  - intros name p (f & before & pattern & after & Hf & E & (key & Hk & Hc) & _). destruct (family_line name f Hf) as (word & Hw & Hn & Hl).
    exists word. split; [done|]. split; [done|]. exists key. split; [done|]. eapply contains_trans; [exact Hc|].
    unfold in_line in Hl. apply andb_true_iff in Hl as [H1 H2]. rewrite forallb_forall in H1, H2.
    assert (Hin : In pattern (before ++ pattern :: after)) by (apply in_app_iff; right; by left).
    rewrite <- E in Hin. destruct (family_pricing f) as [|x l]; [|by apply H2].
    specialize (H1 pattern Hin). by apply andb_true_iff in H1 as [H1 _].
Qed.

(** ** The order matters *)

Definition priced (input : float64) : LiteLLMModelPricing := zero_LiteLLMModelPricing <| InputCostPerToken := input |>.

Definition two_opus : pricing_map :=
  {["claude-opus-4-1-20250805" := priced (constant 15 (-6)); "claude-opus-4-5-20251101" := priced (constant 5 (-6))]}.

Definition as_listed (n : nat) (l : list (string * LiteLLMModelPricing)) : list (string * LiteLLMModelPricing) := l.
Definition reversed (n : nat) (l : list (string * LiteLLMModelPricing)) : list (string * LiteLLMModelPricing) := rev l.

(** Among the entries of a family the first that the runtime meets is taken: for
    the same file and the same model the price is one or the other, by chance. *)
Theorem family_price_random :
  some_order as_listed /\ some_order reversed /\
  exists model p q, GetModelPricing two_opus as_listed model = Some p /\ GetModelPricing two_opus reversed model = Some q /\
    SFltb (InputCostPerToken p) (InputCostPerToken q) || SFltb (InputCostPerToken q) (InputCostPerToken p) = true.
Proof.
  split; [by intros n l|]. split; [intros n l; symmetry; apply Permutation_rev|].
  exists "claude-opus-4-0". eexists _, _. split; [by vm_compute|]. split; [by vm_compute|]. by vm_compute.
Qed.

(** By its own name, and by its family: either of the two. *)
Lemma prices_found_witness :
  (exists order, some_order order /\ GetModelPricing two_opus order "claude-opus-4-0" = Some (priced (constant 15 (-6)))) /\
  (exists order, some_order order /\ GetModelPricing two_opus order "claude-opus-4-0" = Some (priced (constant 5 (-6)))) /\
  possible two_opus " Claude-Opus-4-5-20251101" (priced (constant 5 (-6))).
Proof.
  assert (Hid : some_order as_listed) by (by intros n l).
  assert (Hrev : some_order reversed) by (intros n l; symmetry; apply Permutation_rev).
  assert (Hm : trim_space "claude-opus-4-0" <> "") by (vm_compute; discriminate). assert (Hm' : trim_space " Claude-Opus-4-5-20251101" <> "") by (vm_compute; discriminate).
  split; [|split].
  - apply (proj1 (prices_found two_opus "claude-opus-4-0" Hm)). apply (proj1 (prices_found two_opus "claude-opus-4-0" Hm)).
    exists reversed. split; [exact Hrev|by vm_compute].
  - apply (proj1 (prices_found two_opus "claude-opus-4-0" Hm)). apply (proj1 (prices_found two_opus "claude-opus-4-0" Hm)).
    exists as_listed. split; [exact Hid|by vm_compute].
  - apply (proj1 (prices_found two_opus " Claude-Opus-4-5-20251101" Hm')). exists as_listed. split; [exact Hid|by vm_compute].
Defined.
