(* ===== verification/Channels.v ===== *)
(** * Channels (service/channel.go, service/channel_service.go)

    A channel sets the prices of models, and what models are mapped to, for the
    groups it has.  Its configuration is checked when it is stored; a snapshot of
    all channels answers the lookups of requests.  A statement that ranges over a
    map meets its entries in an order the runtime chooses: [ranged].  The copies
    of [Clone] are the values themselves: nothing writes to them.  The storage of
    channels and the time a snapshot lives are left out. *)

From Stdlib Require Import Floats.SpecFloat.
From S2P Require Import Prelude GoStrings AppErrors PaymentData ModelNames.

(** ** Data *)

Definition BillingModeToken : string := "token".
Definition BillingModePerRequest : string := "per_request".
Definition BillingModeImage : string := "image".

Definition BillingModelSourceRequested : string := "requested".
Definition BillingModelSourceUpstream : string := "upstream".
Definition BillingModelSourceChannelMapped : string := "channel_mapped".

Record PricingInterval : Type := mkInterval {
  MinTokens : Z;                     (* exclusive *)
  MaxTokens : option Z;              (* inclusive; None: no bound *)
  TierLabel : string;
  iv_InputPrice : option float64;
  iv_OutputPrice : option float64;
  iv_CacheWritePrice : option float64;
  iv_CacheReadPrice : option float64;
  iv_PerRequestPrice : option float64;
}.

Record ChannelModelPricing : Type := mkChannelPricing {
  Platform : string;
  Models : list string;
  cp_BillingMode : string;
  InputPrice : option float64;
  OutputPrice : option float64;
  CacheWritePrice : option float64;
  CacheReadPrice : option float64;
  ImageOutputPrice : option float64;
  PerRequestPrice : option float64;
  Intervals : list PricingInterval;
}.

Record AccountStatsPricingRule : Type := mkStatsRule {
  rule_GroupIDs : list Z; rule_AccountIDs : list Z; rule_Pricing : list ChannelModelPricing }.

Record Channel : Type := mkChannel {
  ch_ID : Z;
  ch_Status : string;
  ch_BillingModelSource : string;
  RestrictModels : bool;
  GroupIDs : list Z;
  ModelPricing : list ChannelModelPricing;
  ModelMapping : gmap string (gmap string string);
  ApplyPricingToAccountStats : bool;
  AccountStatsPricingRules : list AccountStatsPricingRule;
}.
#[export] Instance eta_Channel : Settable Channel := fun c =>
  mkChannel (ch_ID c) (ch_Status c) (ch_BillingModelSource c) (RestrictModels c) (GroupIDs c) (ModelPricing c) (ModelMapping c)
    (ApplyPricingToAccountStats c) (AccountStatsPricingRules c).

Definition StatusActive : string := "active".
Definition IsActive (c : Channel) : bool := ch_Status c =s? StatusActive.

Definition normalizeBillingModelSource (c : Channel) : Channel :=
  if ch_BillingModelSource c =s? "" then c <| ch_BillingModelSource := BillingModelSourceChannelMapped |> else c.

(** ** Intervals *)

Definition covers (totalTokens : Z) (iv : PricingInterval) : bool :=
  (MinTokens iv <? totalTokens) && match MaxTokens iv with None => true | Some max => totalTokens <=? max end.

Definition FindMatchingInterval (intervals : list PricingInterval) (totalTokens : Z) : option PricingInterval :=
  List.find (covers totalTokens) intervals.

Definition formatMaxTokens (max : option Z) : string := match max with None => "∞" | Some z => pretty z end.

Definition hash (idx : nat) : string := "interval #" +:+ pretty (Z.of_nat idx + 1).

Definition negative (price : option float64) : bool := match price with Some p => SFltb p f64_zero | None => false end.

(** The first of the named prices below zero. *)
Definition negative_price (prices : list (string * option float64)) : option string :=
  fst <$> List.find (fun p => negative (snd p)) prices.

Definition interval_prices (iv : PricingInterval) : list (string * option float64) :=
  [("input_price", iv_InputPrice iv); ("output_price", iv_OutputPrice iv); ("cache_write_price", iv_CacheWritePrice iv);
   ("cache_read_price", iv_CacheReadPrice iv); ("per_request_price", iv_PerRequestPrice iv)].

Definition validateIntervalPrices (iv : PricingInterval) (idx : nat) : option string :=
  name ← negative_price (interval_prices iv); Some (hash idx +:+ ": " +:+ name +:+ " must be >= 0").

Definition validateSingleInterval (iv : PricingInterval) (idx : nat) : option string :=
  let min := MinTokens iv in
  if min <? 0 then Some (hash idx +:+ ": min_tokens (" +:+ pretty min +:+ ") must be >= 0") else
  match MaxTokens iv with
  | Some max =>
      if max <=? 0 then Some (hash idx +:+ ": max_tokens (" +:+ pretty max +:+ ") must be > 0")
      else if max <=? min then
        Some (hash idx +:+ ": max_tokens (" +:+ pretty max +:+ ") must be > min_tokens (" +:+ pretty min +:+ ")")
      else validateIntervalPrices iv idx
  | None => validateIntervalPrices iv idx
  end.

(** [prev]: the interval before the first of the list. *)
Fixpoint overlap_from (prev : option PricingInterval) (idx : nat) (sorted : list PricingInterval) : option string :=
  match sorted with
  | [] => None
  | iv :: rest =>
      if negb (is_some (MaxTokens iv)) && negb (length rest =? 0)%nat then
        Some (hash idx +:+ ": unbounded interval (max_tokens=null) must be the last one")
      else
        let overlaps :=
          match prev with
          | Some p => match MaxTokens p with None => true | Some max => MinTokens iv <? max end
          | None => false
          end in
        if overlaps then
          Some (hash (idx - 1) +:+ " and #" +:+ pretty (Z.of_nat idx + 1) +:+ " overlap: prev max=" +:+
                formatMaxTokens (prev ≫= MaxTokens) +:+ " > cur min=" +:+ pretty (MinTokens iv))
        else overlap_from (Some iv) (S idx) rest
  end.
Definition validateIntervalOverlap (sorted : list PricingInterval) : option string := overlap_from None 0 sorted.

(** [sort.Slice]; the order it leaves equal bounds in does not matter, since
    such intervals are refused. *)
Fixpoint insert_interval (iv : PricingInterval) (l : list PricingInterval) : list PricingInterval :=
  match l with
  | [] => [iv]
  | h :: t => if MinTokens iv <=? MinTokens h then iv :: l else h :: insert_interval iv t
  end.
Definition sort_intervals (l : list PricingInterval) : list PricingInterval := foldr insert_interval [] l.

(** The message of the first element that has one. *)
Fixpoint first_error {A} (check : A -> nat -> option string) (idx : nat) (l : list A) : option string :=
  match l with
  | [] => None
  | x :: rest => match check x idx with Some e => Some e | None => first_error check (S idx) rest end
  end.

Definition ValidateIntervals (intervals : list PricingInterval) : option string :=
  if (length intervals =? 0)%nat then None else
  let sorted := sort_intervals intervals in
  match first_error validateSingleInterval 0 sorted with
  | Some e => Some e
  | None => validateIntervalOverlap sorted
  end.

(** ** Patterns of model names *)

Record modelEntry : Type := mkEntryPattern { pattern : string; entry_prefix : string; wildcard : bool }.

Definition splitWildcardSuffix (p : string) : string * bool :=
  match cut_suffix p "*" with Some prefix => (prefix, true) | None => (p, false) end.

Definition toModelEntry (p : string) : modelEntry :=
  let '(prefix, isWild) := splitWildcardSuffix (ToLower p) in mkEntryPattern p prefix isWild.

Definition conflictsBetween (a b : modelEntry) : bool :=
  match wildcard a, wildcard b with
  | false, false => entry_prefix a =s? entry_prefix b
  | true, false => has_prefix (entry_prefix b) (entry_prefix a)
  | false, true => has_prefix (entry_prefix a) (entry_prefix b)
  | true, true => has_prefix (entry_prefix a) (entry_prefix b) || has_prefix (entry_prefix b) (entry_prefix a)
  end.

Fixpoint detectConflicts (entries : list modelEntry) (platform errCode label : string) : option error :=
  match entries with
  | [] => None
  | a :: rest =>
      match List.find (conflictsBetween a) rest with
      | Some b =>
          Some (BadRequest errCode (label +:+ " '" +:+ pattern a +:+ "' and '" +:+ pattern b +:+ "' conflict in platform '" +:+
                                    platform +:+ "': overlapping match range"))
      | None => detectConflicts rest platform errCode label
      end
  end.

(** The first error of a list of checks. *)
Definition checked {A} (check : A -> option error) (l : list A) : option error := head (omap check l).
Definition and_then (a b : option error) : option error := match a with Some e => Some e | None => b end.

(** [%v] of a list of strings. *)
Definition show_strings (l : list string) : string := "[" +:+ join l " " +:+ "]".

Definition validatePricingIntervals (pricingList : list ChannelModelPricing) : option error :=
  checked (fun p =>
    e ← ValidateIntervals (Intervals p);
    Some (BadRequest "INVALID_PRICING_INTERVALS"
      ("invalid pricing intervals for platform '" +:+ Platform p +:+ "' models " +:+ show_strings (Models p) +:+ ": " +:+ e)))
    pricingList.

Definition per_request_mode (mode : string) : bool := (mode =s? BillingModePerRequest) || (mode =s? BillingModeImage).

Definition checkBillingModeRequirements (p : ChannelModelPricing) : option error :=
  if per_request_mode (cp_BillingMode p) && negb (is_some (PerRequestPrice p)) && (length (Intervals p) =? 0)%nat
  then Some (BadRequest "BILLING_MODE_MISSING_PRICE" "per-request price or intervals required for per_request/image billing mode")
  else None.

Definition channel_prices (p : ChannelModelPricing) : list (string * option float64) :=
  [("input_price", InputPrice p); ("output_price", OutputPrice p); ("cache_write_price", CacheWritePrice p);
   ("cache_read_price", CacheReadPrice p); ("image_output_price", ImageOutputPrice p); ("per_request_price", PerRequestPrice p)].

Definition checkPricesNotNegative (p : ChannelModelPricing) : option error :=
  name ← negative_price (channel_prices p); Some (BadRequest "NEGATIVE_PRICE" (name +:+ " must be >= 0")).

(** An interval with a price. *)
Definition has_price (iv : PricingInterval) : bool := existsb (fun p => is_some (snd p)) (interval_prices iv).

Definition checkIntervalsHavePrices (p : ChannelModelPricing) : option error :=
  checked (fun iv =>
    if has_price iv then None else
    Some (BadRequest "INTERVAL_MISSING_PRICE"
      ("interval [" +:+ pretty (MinTokens iv) +:+ ", " +:+ formatMaxTokens (MaxTokens iv) +:+ "] has no price fields set for model " +:+
       show_strings (Models p)))) (Intervals p).

Definition validatePricingBillingMode (pricing : list ChannelModelPricing) : option error :=
  checked (fun p => and_then (checkBillingModeRequirements p) (and_then (checkPricesNotNegative p) (checkIntervalsHavePrices p))) pricing.

Section Ranges.
Context (ranged : forall A : Type, gmap string A -> list (string * A)).

(** [byPlatform] *)
Definition add_entries (m : gmap string (list modelEntry)) (p : ChannelModelPricing) : gmap string (list modelEntry) :=
  match Models p with
  | [] => m
  | models => <[Platform p := (default [] (m !! Platform p) ++ map toModelEntry models)%list]> m
  end.
Definition entries_by_platform (pricingList : list ChannelModelPricing) : gmap string (list modelEntry) :=
  foldl add_entries ∅ pricingList.

Definition validateNoConflictingModels (pricingList : list ChannelModelPricing) : option error :=
  checked (fun '(platform, entries) => detectConflicts entries platform "MODEL_PATTERN_CONFLICT" "model patterns")
    (ranged _ (entries_by_platform pricingList)).

Definition validateNoConflictingMappings (mapping : gmap string (gmap string string)) : option error :=
  checked (fun '(platform, platformMapping) =>
    detectConflicts (map (fun kv => toModelEntry (fst kv)) (ranged _ platformMapping)) platform
      "MAPPING_PATTERN_CONFLICT" "mapping source patterns") (ranged _ mapping).

Definition validatePricingEntries (pricing : list ChannelModelPricing) : option error :=
  and_then (validateNoConflictingModels pricing) (and_then (validatePricingIntervals pricing) (validatePricingBillingMode pricing)).

Definition validateChannelConfig (pricing : list ChannelModelPricing) (mapping : gmap string (gmap string string)) : option error :=
  and_then (validatePricingEntries pricing) (validateNoConflictingMappings mapping).

(** ** The snapshot *)

Record channelCache : Type := mkChannelCache {
  pricingByGroupModel : gmap (Z * string * string) ChannelModelPricing;
  wildcardByGroupPlatform : gmap (Z * string) (list (string * ChannelModelPricing));
  mappingByGroupModel : gmap (Z * string * string) string;
  wildcardMappingByGP : gmap (Z * string) (list (string * string));
  channelByGroupID : gmap Z Channel;
  groupPlatform : gmap Z string;
}.
#[local] Instance eta_channelCache : Settable channelCache := fun c =>
  mkChannelCache (pricingByGroupModel c) (wildcardByGroupPlatform c) (mappingByGroupModel c) (wildcardMappingByGP c)
    (channelByGroupID c) (groupPlatform c).

Definition newEmptyChannelCache : channelCache := mkChannelCache ∅ ∅ ∅ ∅ ∅ ∅.

Definition isPlatformPricingMatch (groupPlatform pricingPlatform : string) : bool := groupPlatform =s? pricingPlatform.
Definition matchingPlatforms (groupPlatform : string) : list string := [groupPlatform].

Definition expand_model (gid : Z) (p : ChannelModelPricing) (cache : channelCache) (model : string) : channelCache :=
  match cut_suffix model "*" with
  | Some prefix =>
      let key := (gid, Platform p) in
      cache <| wildcardByGroupPlatform :=
        <[key := (default [] (wildcardByGroupPlatform cache !! key) ++ [(ToLower prefix, p)])%list]> (wildcardByGroupPlatform cache) |>
  | None => cache <| pricingByGroupModel := <[(gid, Platform p, ToLower model) := p]> (pricingByGroupModel cache) |>
  end.

Definition expandPricingToCache (ch : Channel) (gid : Z) (platform : string) (cache : channelCache) : channelCache :=
  foldl (fun cache p =>
    if isPlatformPricingMatch platform (Platform p) then foldl (expand_model gid p) cache (Models p) else cache)
    cache (ModelPricing ch).

Definition expand_mapping (gid : Z) (platform : string) (cache : channelCache) (entry : string * string) : channelCache :=
  let '(src, dst) := entry in
  match cut_suffix src "*" with
  | Some prefix =>
      let key := (gid, platform) in
      cache <| wildcardMappingByGP :=
        <[key := (default [] (wildcardMappingByGP cache !! key) ++ [(ToLower prefix, dst)])%list]> (wildcardMappingByGP cache) |>
  | None => cache <| mappingByGroupModel := <[(gid, platform, ToLower src) := dst]> (mappingByGroupModel cache) |>
  end.

Definition expandMappingToCache (ch : Channel) (gid : Z) (platform : string) (cache : channelCache) : channelCache :=
  foldl (fun cache mappingPlatform =>
    match ModelMapping ch !! mappingPlatform with
    | Some platformMapping => foldl (expand_mapping gid mappingPlatform) cache (ranged _ platformMapping)
    | None => cache
    end) cache (matchingPlatforms platform).

Definition add_group (ch : Channel) (groupPlatforms : gmap Z string) (cache : channelCache) (gid : Z) : channelCache :=
  let cache := cache <| channelByGroupID := <[gid := ch]> (channelByGroupID cache) |> in
  let platform := default "" (groupPlatforms !! gid) in
  expandMappingToCache ch gid platform (expandPricingToCache ch gid platform cache).

Definition populateChannelCache (channels : list Channel) (groupPlatforms : gmap Z string) : channelCache :=
  foldl (fun cache ch =>
    let ch := normalizeBillingModelSource ch in
    foldl (add_group ch groupPlatforms) cache (GroupIDs ch))
    (newEmptyChannelCache <| groupPlatform := groupPlatforms |>) channels.

(** ** Lookups *)

Definition matchWildcard (c : channelCache) (groupID : Z) (platform modelLower : string) : option ChannelModelPricing :=
  snd <$> List.find (fun wc => has_prefix modelLower (fst wc)) (default [] (wildcardByGroupPlatform c !! (groupID, platform))).

Definition matchWildcardMapping (c : channelCache) (groupID : Z) (platform modelLower : string) : string :=
  default "" (snd <$> List.find (fun wc => has_prefix modelLower (fst wc)) (default [] (wildcardMappingByGP c !! (groupID, platform)))).

Definition lookupPricingAcrossPlatforms (c : channelCache) (groupID : Z) (groupPlatform modelLower : string) : option ChannelModelPricing :=
  let platforms := matchingPlatforms groupPlatform in
  match head (omap (fun p => pricingByGroupModel c !! (groupID, p, modelLower)) platforms) with
  | Some pricing => Some pricing
  | None => head (omap (fun p => matchWildcard c groupID p modelLower) platforms)
  end.

Definition lookupMappingAcrossPlatforms (c : channelCache) (groupID : Z) (groupPlatform modelLower : string) : string :=
  let platforms := matchingPlatforms groupPlatform in
  match head (omap (fun p => mappingByGroupModel c !! (groupID, p, modelLower)) platforms) with
  | Some mapped => mapped
  | None => default "" (List.find (fun m => m <>s? "") (map (fun p => matchWildcardMapping c groupID p modelLower) platforms))
  end.

(** The active channel of a group, and the group's platform. *)
Definition lookupGroupChannel (c : channelCache) (groupID : Z) : option (Channel * string) :=
  match channelByGroupID c !! groupID with
  | Some ch => if IsActive ch then Some (ch, default "" (groupPlatform c !! groupID)) else None
  | None => None
  end.

(** [None] for the snapshot: it could not be loaded. *)
Definition GetChannelForGroup (c : option channelCache) (groupID : Z) : option Channel :=
  c ← c; fst <$> lookupGroupChannel c groupID.
Definition GetGroupPlatform (c : option channelCache) (groupID : Z) : string :=
  default "" (c ← c; groupPlatform c !! groupID).

Definition GetChannelModelPricing (c : option channelCache) (groupID : Z) (model : string) : option ChannelModelPricing :=
  c ← c;
  '(_, platform) ← lookupGroupChannel c groupID;
  lookupPricingAcrossPlatforms c groupID platform (ToLower model).

Record ChannelMappingResult : Type := mkMappingResult {
  MappedModel : string; ChannelID : Z; Mapped : bool; mr_BillingModelSource : string }.

Definition resolveMapping (c : channelCache) (ch : Channel) (platform : string) (groupID : Z) (model : string) : ChannelMappingResult :=
  let mapped := lookupMappingAcrossPlatforms c groupID platform (ToLower model) in
  if mapped <>s? "" then mkMappingResult mapped (ch_ID ch) true (ch_BillingModelSource ch)
  else mkMappingResult model (ch_ID ch) false (ch_BillingModelSource ch).

Definition ResolveChannelMapping (c : option channelCache) (groupID : Z) (model : string) : ChannelMappingResult :=
  match c ≫= fun c => lk ← lookupGroupChannel c groupID; Some (c, lk) with
  | Some (c, (ch, platform)) => resolveMapping c ch platform groupID model
  | None => mkMappingResult model 0 false ""
  end.

Definition checkRestricted (c : channelCache) (ch : Channel) (platform : string) (groupID : Z) (model : string) : bool :=
  RestrictModels ch && negb (is_some (lookupPricingAcrossPlatforms c groupID platform (ToLower model))).

Definition IsModelRestricted (c : option channelCache) (groupID : Z) (model : string) : bool :=
  match c ≫= fun c => lk ← lookupGroupChannel c groupID; Some (c, lk) with
  | Some (c, (ch, platform)) => checkRestricted c ch platform groupID model
  | None => false
  end.

(** A channel as it is created or updated. *)
Definition validateChannel (ch : Channel) : option error :=
  and_then (validateChannelConfig (ModelPricing ch) (ModelMapping ch))
    (checked (fun '(i, rule) =>
      e ← validatePricingEntries (rule_Pricing rule);
      Some (WrappedError ("account stats pricing rule #" +:+ pretty (Z.of_nat i + 1)) e)) (imap pair (AccountStatsPricingRules ch))).

End Ranges.

(** How a request's model is described in the usage log. *)
Definition BuildModelMappingChain (r : ChannelMappingResult) (reqModel upstreamModel : string) : string :=
  if negb (Mapped r) then
    if (upstreamModel <>s? "") && (upstreamModel <>s? reqModel) then reqModel +:+ "→" +:+ upstreamModel else ""
  else if (upstreamModel <>s? "") && (upstreamModel <>s? MappedModel r)
  then reqModel +:+ "→" +:+ MappedModel r +:+ "→" +:+ upstreamModel
  else reqModel +:+ "→" +:+ MappedModel r.
