(* ===== verification/ChannelsSpec.v ===== *)
(** * What a channel's configuration promises

    A configuration that is accepted is unambiguous: a number of tokens is in one
    interval at most, a model matches one pattern at most, and the snapshot
    answers what the configuration says, in whatever order maps are ranged over. *)

From Stdlib Require Import Floats.SpecFloat Sorting.Sorted.
From S2P Require Import Prelude GoStrings AppErrors PaymentData ModelNames Channels.
From S2P Require LogRedact.

(** ** Lists *)

Lemma ordered_pairs_lookup {A} (R : A -> A -> Prop) l i j a b :
  ForallOrdPairs R l -> (i < j)%nat -> l !! i = Some a -> l !! j = Some b -> R a b.
Proof.
  intros HR. revert i j. induction HR as [|x l Hx _ IH]; intros i j Hij Hi Hj; [done|].
  destruct i as [|i], j as [|j]; try lia.
  - injection Hi as ->. cbn in Hj. rewrite List.Forall_forall in Hx. apply Hx, list_elem_of_In. by apply list_elem_of_lookup_2 with j.
  - apply (IH i j); [lia|done|done].
Qed.

Lemma find_Some_iff {A} (f : A -> bool) l : (exists a, List.find f l = Some a) <-> exists a, a ∈ l /\ f a = true.
Proof.
  split; intros (a & Ha).
  - exists a. apply List.find_some in Ha as [Hin Hf]. by rewrite list_elem_of_In.
  - destruct Ha as [Hin Hf]. destruct (List.find f l) eqn:E; [by eexists|].
    apply list_elem_of_In in Hin. by rewrite (List.find_none _ _ E a Hin) in Hf.
Qed.

Lemma checked_None {A} (check : A -> option error) l : checked check l = None <-> Forall (fun a => check a = None) l.
Proof.
  unfold checked. induction l as [|a l IH]; cbn; [by split|]. rewrite Forall_cons, <- IH. destruct (check a); cbn; naive_solver.
Qed.

Lemma and_then_None a b : and_then a b = None <-> a = None /\ b = None.
Proof. destruct a; cbn; naive_solver. Qed.

(** ** Intervals *)

Lemma insert_interval_perm iv l : insert_interval iv l ≡ₚ iv :: l.
Proof. induction l as [|h t IH]; cbn; [done|]. destruct (_ <=? _); [done|]. rewrite IH. apply Permutation_swap. Qed.

Lemma sort_intervals_perm l : sort_intervals l ≡ₚ l.
Proof. induction l as [|iv l IH]; cbn; [done|]. by rewrite insert_interval_perm, IH. Qed.

Definition starts_before (a b : PricingInterval) : Prop := MinTokens a <= MinTokens b.

Lemma insert_interval_sorted iv l : StronglySorted starts_before l -> StronglySorted starts_before (insert_interval iv l).
Proof.
  intros Hl. induction Hl as [|h t Ht IH Hh]; cbn; [by repeat constructor|].
  destruct (Z.leb_spec (MinTokens iv) (MinTokens h)).
  - constructor; [by constructor|]. constructor; [done|]. eapply List.Forall_impl; [|exact Hh]. unfold starts_before. intros; lia.
  - constructor; [done|]. apply List.Forall_forall. intros x Hx. apply list_elem_of_In in Hx. rewrite insert_interval_perm in Hx.
    apply elem_of_cons in Hx as [->|Hx]; [unfold starts_before; lia|].
    rewrite List.Forall_forall in Hh. by apply Hh, list_elem_of_In.
Qed.

Lemma sort_intervals_sorted l : StronglySorted starts_before (sort_intervals l).
Proof. induction l as [|iv l IH]; cbn; [constructor|]. by apply insert_interval_sorted. Qed.

(** The first ends where the second begins, or before. *)
Definition apart (a b : PricingInterval) : Prop := exists max, MaxTokens a = Some max /\ max <= MinTokens b.

Lemma apart_covers n a b : apart a b -> covers n a = true -> covers n b = true -> False.
Proof. intros (max & Hm & Hle). unfold covers. rewrite Hm. intros Ha Hb. lia. Qed.

Lemma overlap_from_apart prev idx l :
  StronglySorted starts_before l -> overlap_from prev idx l = None ->
  ForallOrdPairs apart l /\ (forall p, prev = Some p -> Forall (apart p) l).
Proof.
  intros Hl. revert prev idx. induction Hl as [|iv rest Hrest IH Hiv]; intros prev idx Ho; [by repeat constructor|].
  cbn [overlap_from] in Ho.
  destruct (negb (is_some (MaxTokens iv)) && negb (length rest =? 0)%nat) eqn:Eu; [done|].
  destruct (match prev with Some p => match MaxTokens p with None => true | Some max => MinTokens iv <? max end | None => false end) eqn:Ep; [done|].
  apply IH in Ho as [Hpairs Hfirst]. specialize (Hfirst iv eq_refl). split.
  - by constructor.
  - intros p ->. destruct (MaxTokens p) as [max|] eqn:Em; [|done]. constructor; [exists max; split; [done|lia]|].
    apply Forall_forall. intros x Hx. exists max. split; [done|]. rewrite List.Forall_forall in Hiv.
    specialize (Hiv x (proj1 (list_elem_of_In _ _) Hx)). unfold starts_before in Hiv. lia.
Qed.

Lemma accepted_apart l : ValidateIntervals l = None -> ForallOrdPairs apart (sort_intervals l).
Proof.
  unfold ValidateIntervals. destruct (length l =? 0)%nat eqn:E.
  - apply Nat.eqb_eq, length_zero_iff_nil in E as ->. constructor.
  - destruct (first_error _ _ _); [done|]. intros Ho. by apply (overlap_from_apart None 0 _ (sort_intervals_sorted l)).
Qed.

(** C40: Of the intervals of an accepted list at most one holds a number of tokens,
    so the interval that is found does not depend on their order.  An interval
    holds the numbers above its minimum up to its maximum, both as
    FindMatchingInterval says it; the fields' own comments say that the minimum
    belongs to the interval and the maximum does not. *)
Theorem accepted_intervals_disjoint l n iv : ValidateIntervals l = None ->
  (FindMatchingInterval l n = Some iv <-> iv ∈ l /\ MinTokens iv < n /\ (forall max, MaxTokens iv = Some max -> n <= max)).
Proof.
  intros Hv. assert (Hc : covers n iv = true <-> MinTokens iv < n /\ (forall max, MaxTokens iv = Some max -> n <= max)).
  { unfold covers. rewrite andb_true_iff, Z.ltb_lt. destruct (MaxTokens iv) as [max|]; [|naive_solver]. rewrite Z.leb_le. naive_solver. }
  rewrite <- Hc. clear Hc. split.
  - intros Hf. apply List.find_some in Hf as [Hin Hc]. by rewrite list_elem_of_In.
  - intros [Hin Hc]. destruct (proj2 (find_Some_iff (covers n) l)) as [iv' Hf]; [by exists iv|].
    unfold FindMatchingInterval. rewrite Hf. f_equal. apply List.find_some in Hf as [Hin' Hc']. apply list_elem_of_In in Hin'.
    rewrite <- sort_intervals_perm in Hin, Hin'.
    destruct (ForallOrdPairs_In (accepted_apart l Hv) iv iv') as [->|[Ha|Ha]]; [by apply list_elem_of_In..|done| |].
    + by destruct (apart_covers n iv iv' Ha).
    + by destruct (apart_covers n iv' iv Ha).
Qed.

Definition unbounded (iv : PricingInterval) : bool := negb (is_some (MaxTokens iv)).

Lemma overlap_from_unbounded prev idx l : overlap_from prev idx l = None -> (length (List.filter unbounded l) <= 1)%nat.
Proof.
  revert prev idx. induction l as [|iv rest IH]; intros prev idx Ho; cbn; [lia|]. cbn [overlap_from] in Ho.
  unfold unbounded at 1. destruct (negb (is_some (MaxTokens iv))) eqn:Eu; cbn [andb negb] in Ho.
  - destruct rest; [cbn; lia|done].
  - destruct (match prev with Some p => _ | None => _ end); [done|]. by apply IH in Ho.
Qed.

Lemma filter_perm {A} (f : A -> bool) l l' : l ≡ₚ l' -> List.filter f l ≡ₚ List.filter f l'.
Proof.
  intros Hp. induction Hp as [|x l l' _ IH|x y l|l1 l2 l3 _ IH1 _ IH2]; cbn; [done| | |by etrans].
  - destruct (f x); [by rewrite IH|done].
  - destruct (f x), (f y); try done. apply Permutation_swap.
Qed.

(** Two intervals without an upper bound are refused, whatever their labels:
    sizes of images that are told apart by label alone, as the administration's
    form creates them, cannot be stored. *)
Theorem labelled_tiers_refused l : (2 <= length (List.filter unbounded l))%nat -> ValidateIntervals l <> None.
Proof.
  intros H2 Hv. unfold ValidateIntervals in Hv. destruct l as [|a l]; [cbn in H2; lia|]. cbn [length Nat.eqb] in Hv.
  destruct (first_error _ _ _); [done|]. apply overlap_from_unbounded in Hv.
  rewrite (filter_perm unbounded _ _ (sort_intervals_perm (a :: l))) in Hv. lia.
Qed.

(** ** Patterns *)

Definition matches (e : modelEntry) (modelLower : string) : bool :=
  if wildcard e then has_prefix modelLower (entry_prefix e) else modelLower =s? entry_prefix e.

Lemma prefixes_comparable s a b : has_prefix s a = true -> has_prefix s b = true -> has_prefix a b || has_prefix b a = true.
Proof.
  revert a b. induction s as [|c s IH]; intros [|x a] [|y b]; cbn; try done.
  destruct (Ascii.eqb_spec c x) as [->|], (Ascii.eqb_spec x y) as [->|]; cbn; try done; try congruence; intros Ha Hb.
  rewrite Ascii.eqb_refl. by apply IH.
Qed.

Lemma matches_conflict a b m : matches a m = true -> matches b m = true -> conflictsBetween a b = true.
Proof.
  unfold matches, conflictsBetween. destruct (wildcard a), (wildcard b); intros Ha Hb.
  - by apply (prefixes_comparable m).
  - by apply String.eqb_eq in Hb as <-.
  - by apply String.eqb_eq in Ha as <-.
  - apply String.eqb_eq in Ha as <-. apply String.eqb_eq in Hb as <-. apply String.eqb_refl.
Qed.

Lemma detected_apart entries platform errCode label : detectConflicts entries platform errCode label = None ->
  ForallOrdPairs (fun a b => conflictsBetween a b = false) entries.
Proof.
  induction entries as [|a rest IH]; intros Hd; [constructor|]. cbn in Hd.
  destruct (List.find _ rest) eqn:E; [done|]. constructor; [|by apply IH].
  apply List.Forall_forall. intros b Hb. by apply (List.find_none _ _ E).
Qed.

(** At most one entry of a list without conflicts matches a model. *)
Lemma one_match entries i j a b m : ForallOrdPairs (fun a b => conflictsBetween a b = false) entries ->
  entries !! i = Some a -> entries !! j = Some b -> matches a m = true -> matches b m = true -> i = j.
Proof.
  intros Hp Hi Hj Ha Hb. pose proof (matches_conflict a b m Ha Hb) as Hab. pose proof (matches_conflict b a m Hb Ha) as Hba.
  destruct (Nat.lt_trichotomy i j) as [Hlt|[->|Hlt]]; [|done|].
  - by rewrite (ordered_pairs_lookup _ _ _ _ _ _ Hp Hlt Hi Hj) in Hab.
  - by rewrite (ordered_pairs_lookup _ _ _ _ _ _ Hp Hlt Hj Hi) in Hba.
Qed.

(** ** The pattern in lower case *)

Lemma cut_suffix_spec s suf r : cut_suffix s suf = Some r <-> s = r +:+ suf.
Proof.
  revert r. induction s as [|c s IH]; intros r; cbn [cut_suffix].
  - destruct (String.eqb_spec "" suf) as [<-|Hne]; split; try done.
    + by intros [= <-].
    + destruct r; [done|]. intros [=].
    + intros He. destruct r; cbn in He; [congruence|done].
  - destruct (String.eqb_spec (String c s) suf) as [<-|Hne].
    + split; [by intros [= <-]|]. intros He. destruct r as [|x r]; [done|]. exfalso.
      apply (f_equal String.length) in He. rewrite JsonFacts.length_app_string in He. cbn in He. lia.
    + destruct r as [|x r]; cbn.
      * split; [|done]. by destruct (cut_suffix s suf).
      * specialize (IH r). destruct (cut_suffix s suf) as [r'|]; cbn.
        -- split; [intros [= -> ->]|intros [= -> He]]; [by rewrite (proj1 IH eq_refl)|]. by apply IH in He as [= ->].
        -- split; [done|]. intros [= -> He]. by apply IH in He.
Qed.

Lemma lower_step a b c s : ToLower (String a (String b (String c s))) =
  if (byte_val a =? 0xC4) && (byte_val b =? 0xB0) then String "i" (ToLower (String c s))
  else if (byte_val a =? 0xE2) && (byte_val b =? 0x84) && (byte_val c =? 0xAA) then String "k" (ToLower s)
  else String (Regex.lower_of a) (ToLower (String b (String c s))).
Proof. reflexivity. Qed.

Lemma lower_star r : ToLower (r +:+ "*") = ToLower r +:+ "*".
Proof. by apply (LogRedact.to_lower_app r "*"). Qed.

Lemma lower_of_star a : Regex.lower_of a = "*"%char -> a = "*"%char.
Proof. destruct a as [[] [] [] [] [] [] [] []]; vm_compute; congruence. Qed.

Lemma cons_ends_star x t r : String x t = r +:+ "*" -> t = "" /\ x = "*"%char \/ exists r0, t = r0 +:+ "*".
Proof. destruct r as [|y r]; cbn; intros [= -> ->]; [by left|right; by exists r]. Qed.

Lemma lower_nonempty a s : ToLower (String a s) <> "".
Proof. destruct s as [|b [|c s]]; [done| |rewrite lower_step]; [cbn|]; repeat destruct (_ && _); done. Qed.

(** Only a star becomes a star. *)
Lemma lower_ends_star s r : ToLower s = r +:+ "*" -> exists r', s = r' +:+ "*".
Proof.
  assert (H : forall n s r, (String.length s <= n)%nat -> ToLower s = r +:+ "*" -> exists r', s = r' +:+ "*");
    [|by apply (H (String.length s))].
  clear s r. intros n. induction n as [|n IH]; intros [|a [|b [|c s]]] r Hn He; cbn in Hn; try lia; try by destruct r.
  - destruct r as [|x [|y r]]; [|done|done]. cbn in He. injection He as Ha%lower_of_star. subst. by exists "".
  - cbn in He. destruct (_ && _).
    + by destruct r as [|x [|y r]].
    + destruct r as [|x [|y [|z r]]]; [done| |done|done]. injection He as _ Hb%lower_of_star. subst. by exists (String a "").
  - rewrite lower_step in He. destruct (_ && _); [|destruct (_ && _)];
      apply cons_ends_star in He as [[Ht Hx]|[r0 He]]; try done; try by destruct (lower_nonempty _ _ Ht).
    + apply IH in He as [r' ->]; [|cbn; lia]. by exists (String a (String b r')).
    + apply IH in He as [r' ->]; [|lia]. by exists (String a (String b (String c r'))).
    + apply IH in He as [r' ->]; [|cbn; lia]. by exists (String a r').
Qed.

Lemma cut_suffix_lower p : cut_suffix (ToLower p) "*" = ToLower <$> cut_suffix p "*".
Proof.
  destruct (cut_suffix p "*") as [r|] eqn:E; cbn.
  - apply cut_suffix_spec in E as ->. apply cut_suffix_spec, lower_star.
  - destruct (cut_suffix (ToLower p) "*") as [r|] eqn:E'; [|done]. apply cut_suffix_spec, lower_ends_star in E' as [r' Hp].
    apply cut_suffix_spec in Hp. congruence.
Qed.

Lemma toModelEntry_eq p : toModelEntry p =
  match cut_suffix p "*" with
  | Some prefix => mkEntryPattern p (ToLower prefix) true
  | None => mkEntryPattern p (ToLower p) false
  end.
Proof. unfold toModelEntry, splitWildcardSuffix. rewrite cut_suffix_lower. by destruct (cut_suffix p "*"). Qed.

(** ** A table of patterns

    Exact names in one map, the prefixes of wildcards in another: both tables of
    the snapshot are built and asked this way. *)

Section Index.
Context {C V : Type} (exact : C -> gmap (Z * string * string) V) (wild : C -> gmap (Z * string) (list (string * V))).
Context (add : C -> string * V -> C) (g : Z) (pl : string) (ok : V -> Prop).
Hypothesis add_exact : forall c pat v, ok v -> exact (add c (pat, v)) =
  match cut_suffix pat "*" with Some _ => exact c | None => <[(g, pl, ToLower pat) := v]> (exact c) end.
Hypothesis add_wild : forall c pat v, ok v -> wild (add c (pat, v)) =
  match cut_suffix pat "*" with
  | Some prefix => <[(g, pl) := (default [] (wild c !! (g, pl)) ++ [(ToLower prefix, v)])%list]> (wild c)
  | None => wild c
  end.

Definition lookup_pattern (c : C) (m : string) : option V :=
  match exact c !! (g, pl, m) with
  | Some v => Some v
  | None => snd <$> List.find (fun wc => has_prefix m (fst wc)) (default [] (wild c !! (g, pl)))
  end.

Definition wildcards (l : list (string * V)) : list (string * V) :=
  omap (fun '(pat, v) => prefix ← cut_suffix pat "*"; Some (ToLower prefix, v)) l.

Lemma wild_fold l c : Forall (ok ∘ snd) l ->
  default [] (wild (foldl add c l) !! (g, pl)) = (default [] (wild c !! (g, pl)) ++ wildcards l)%list.
Proof.
  intros Hl. revert c. induction Hl as [|[pat v] l Hv _ IH]; intros c; cbn [foldl wildcards omap list_omap]; [by rewrite app_nil_r|].
  rewrite IH, (add_wild c pat v Hv). destruct (cut_suffix pat "*"); cbn; [|done].
  rewrite lookup_insert_eq. cbn. by rewrite <- app_assoc.
Qed.

Lemma exact_fold l c m : Forall (ok ∘ snd) l ->
  match exact (foldl add c l) !! (g, pl, m) with
  | Some v => exact c !! (g, pl, m) = Some v \/ exists pat, (pat, v) ∈ l /\ matches (toModelEntry pat) m = true
  | None => exact c !! (g, pl, m) = None /\ forall pat v, (pat, v) ∈ l -> cut_suffix pat "*" = None -> ToLower pat <> m
  end.
Proof.
  intros Hl. revert c. induction Hl as [|[pat v] l Hv _ IH]; intros c; cbn [foldl].
  - destruct (exact c !! _); [by left|]. split; [done|]. intros ? ? H. by apply elem_of_nil in H.
  - specialize (IH (add c (pat, v))). rewrite (add_exact c pat v Hv) in IH.
    destruct (exact (foldl add (add c (pat, v)) l) !! (g, pl, m)) as [w|].
    + destruct IH as [IH|(pat' & Hin & Hm)]; [|right; exists pat'; split; [by right|done]].
      destruct (cut_suffix pat "*") eqn:Ec; [by left|]. apply lookup_insert_Some in IH as [([= Hm] & ->)|[_ IH]]; [|by left].
      right. exists pat. split; [by left|]. rewrite toModelEntry_eq, Ec. unfold matches. cbn. by rewrite Hm, String.eqb_refl.
    + destruct IH as [IH Hin]. destruct (cut_suffix pat "*") eqn:Ec.
      * split; [done|]. intros pat' v' [[= -> ->]|H]%elem_of_cons Hc; [congruence|by apply (Hin _ _ H)].
      * apply lookup_insert_None in IH as [IH Hne]. split; [done|].
        intros pat' v' [[= -> ->]|H]%elem_of_cons Hc; [congruence|by apply (Hin _ _ H)].
Qed.

(** The value of the one pattern that matches. *)
Lemma lookup_pattern_iff l c m v : Forall (ok ∘ snd) l ->
  ForallOrdPairs (fun a b => conflictsBetween a b = false) (map (toModelEntry ∘ fst) l) ->
  exact c !! (g, pl, m) = None -> wild c !! (g, pl) = None ->
  lookup_pattern (foldl add c l) m = Some v <-> exists pat, (pat, v) ∈ l /\ matches (toModelEntry pat) m = true.
Proof.
  intros Hl Hp Hc Hw.
  assert (Hwild : default [] (wild (foldl add c l) !! (g, pl)) = wildcards l) by (rewrite (wild_fold l c Hl), Hw; done).
  pose proof (exact_fold l c m Hl) as He. rewrite Hc in He.
  assert (Hsound : forall v, lookup_pattern (foldl add c l) m = Some v -> exists pat, (pat, v) ∈ l /\ matches (toModelEntry pat) m = true).
  { intros w. unfold lookup_pattern. rewrite Hwild. destruct (exact (foldl add c l) !! (g, pl, m)) as [u|].
    - intros [= <-]. by destruct He as [He|He].
    - destruct (List.find _ _) as [[px u]|] eqn:Ef; [|done]. intros [= <-]. apply List.find_some in Ef as [Hin Hpx]. cbn in Hpx.
      apply list_elem_of_In, list_elem_of_omap in Hin as ([pat u'] & Hin & Hcut).
      destruct (cut_suffix pat "*") as [px'|] eqn:Ec; [|done]. injection Hcut as <- <-.
      exists pat. split; [done|]. by rewrite toModelEntry_eq, Ec. }
  split; [by apply Hsound|]. intros (pat & Hin & Hm).
  destruct (lookup_pattern (foldl add c l) m) as [w|] eqn:Ew.
  - destruct (Hsound w eq_refl) as (pat' & Hin' & Hm'). f_equal.
    apply list_elem_of_lookup in Hin as [i Hi], Hin' as [j Hj].
    assert (i = j) as ->; [|congruence].
    apply (one_match _ _ _ (toModelEntry pat) (toModelEntry pat') m Hp); [by rewrite list_lookup_fmap, Hi|by rewrite list_lookup_fmap, Hj|done|done].
  - exfalso. unfold lookup_pattern in Ew. rewrite Hwild in Ew. destruct (exact (foldl add c l) !! (g, pl, m)); [done|]. destruct He as [_ He].
    rewrite toModelEntry_eq in Hm. unfold matches in Hm. destruct (cut_suffix pat "*") as [px|] eqn:Ec; cbn in Hm.
    + destruct (List.find _ _) eqn:Ef; [done|]. assert (Hpx : (ToLower px, v) ∈ wildcards l).
      { apply list_elem_of_omap. exists (pat, v). split; [done|]. by rewrite Ec. }
      apply list_elem_of_In in Hpx. pose proof (List.find_none _ _ Ef _ Hpx) as Hn. cbn in Hn. congruence.
    + apply String.eqb_eq in Hm. by destruct (He pat v Hin Ec).
Qed.

Lemma exact_frame l c k : Forall (ok ∘ snd) l -> k.1.1 <> g -> exact (foldl add c l) !! k = exact c !! k.
Proof.
  intros Hl Hk. revert c. induction Hl as [|[pat v] l Hv _ IH]; intros c; cbn [foldl]; [done|].
  rewrite IH, (add_exact c pat v Hv). destruct (cut_suffix _ _); [done|]. apply lookup_insert_ne. by intros <-.
Qed.

Lemma wild_frame l c k : Forall (ok ∘ snd) l -> k.1 <> g -> wild (foldl add c l) !! k = wild c !! k.
Proof.
  intros Hl Hk. revert c. induction Hl as [|[pat v] l Hv _ IH]; intros c; cbn [foldl]; [done|].
  rewrite IH, (add_wild c pat v Hv). destruct (cut_suffix _ _); [|done]. apply lookup_insert_ne. by intros <-.
Qed.

End Index.

(** ** Accepted configurations *)

Definition patterns_of (platform : string) (pricing : list ChannelModelPricing) : list (string * ChannelModelPricing) :=
  concat (map (fun p => if Platform p =s? platform then map (fun m => (m, p)) (Models p) else []) pricing).

Lemma patterns_of_iff platform pricing pat p :
  (pat, p) ∈ patterns_of platform pricing <-> p ∈ pricing /\ Platform p = platform /\ pat ∈ Models p.
Proof.
  unfold patterns_of. induction pricing as [|q pricing IH]; cbn.
  - split; [by intros ?%elem_of_nil|by intros (?%elem_of_nil & _)].
  - rewrite elem_of_app, IH, elem_of_cons. destruct (String.eqb_spec (Platform q) platform) as [He|Hne].
    + rewrite list_elem_of_fmap. split.
      * intros [(m & [= -> ->] & Hm)|H]; [by auto|tauto].
      * intros ([->|Hp] & Hpl & Hm); [left; by exists pat|by right].
    + split; [intros [?%elem_of_nil|H]; [done|tauto]|]. intros ([->|Hp] & Hpl & Hm); [done|by right].
Qed.

Lemma entries_by_platform_eq pricing platform :
  default [] (entries_by_platform pricing !! platform) = map (toModelEntry ∘ fst) (patterns_of platform pricing).
Proof.
  unfold entries_by_platform.
  assert (H : forall m, default [] (foldl add_entries m pricing !! platform) =
    (default [] (m !! platform) ++ map (toModelEntry ∘ fst) (patterns_of platform pricing))%list); [|by rewrite H, lookup_empty].
  induction pricing as [|p pricing IH]; intros m; cbn [foldl]; [by rewrite app_nil_r|].
  rewrite IH. unfold patterns_of at 2. cbn [map concat]. fold (patterns_of platform pricing). rewrite map_app, app_assoc. f_equal.
  unfold add_entries. destruct (String.eqb_spec (Platform p) platform) as [<-|Hne].
  - rewrite map_map. cbn. destruct (Models p) as [|x ms]; [by rewrite app_nil_r|]. rewrite lookup_insert_eq. done.
  - rewrite app_nil_r. destruct (Models p); [done|]. by rewrite lookup_insert_ne.
Qed.

(** An order in which a map may be ranged over. *)
Definition range_order (ranged : forall A : Type, gmap string A -> list (string * A)) : Prop :=
  forall A (m : gmap string A), ranged A m ≡ₚ map_to_list m.

Lemma ranged_elem ranged A (m : gmap string A) k v : range_order ranged -> (k, v) ∈ ranged A m <-> m !! k = Some v.
Proof. intros Hr. by rewrite (Hr A m), elem_of_map_to_list. Qed.

Section Accepted.
Context (ranged checking : forall A : Type, gmap string A -> list (string * A)).
Hypothesis (Hranged : range_order ranged) (Hchecking : range_order checking).

Definition accepted (ch : Channel) : Prop := validateChannelConfig checking (ModelPricing ch) (ModelMapping ch) = None.

Lemma accepted_patterns ch platform : accepted ch ->
  ForallOrdPairs (fun a b => conflictsBetween a b = false) (map (toModelEntry ∘ fst) (patterns_of platform (ModelPricing ch))).
Proof.
  unfold accepted, validateChannelConfig, validatePricingEntries, validateNoConflictingModels.
  rewrite !and_then_None, checked_None. intros ((Hm & _) & _). rewrite <- entries_by_platform_eq.
  destruct (entries_by_platform (ModelPricing ch) !! platform) as [entries|] eqn:E; cbn; [|constructor].
  apply (ranged_elem checking) in E; [|done]. rewrite Forall_forall in Hm. apply Hm in E. by apply detected_apart in E.
Qed.

Lemma conflict_sym a b : conflictsBetween a b = conflictsBetween b a.
Proof. unfold conflictsBetween. destruct (wildcard a), (wildcard b); try done; [apply Bool.orb_comm|apply String.eqb_sym]. Qed.

Lemma ordered_pairs_perm {A} (R : A -> A -> Prop) l l' : (forall a b, R a b -> R b a) -> l ≡ₚ l' -> ForallOrdPairs R l -> ForallOrdPairs R l'.
Proof.
  intros Hs Hp. induction Hp as [|x l l' Hp IH|x y l|l1 l2 l3 _ IH1 _ IH2]; intros Hl; [done| | |by auto].
  - inversion Hl as [|? ? Hx Hr]; subst. constructor; [|by apply IH]. by rewrite <- Hp.
  - inversion Hl as [|? ? Hx Hr]; subst. inversion Hr as [|? ? Hy Hr']; subst. inversion Hx as [|? ? Hxy Hx']; subst.
    repeat constructor; auto.
Qed.

Lemma accepted_sources ch platform m : accepted ch -> ModelMapping ch !! platform = Some m ->
  ForallOrdPairs (fun a b => conflictsBetween a b = false) (map (toModelEntry ∘ fst) (ranged _ m)).
Proof.
  unfold accepted, validateChannelConfig, validateNoConflictingMappings. rewrite and_then_None, checked_None. intros (_ & Hm) E.
  apply (ranged_elem checking) in E; [|done]. rewrite Forall_forall in Hm. apply Hm, detected_apart in E.
  eapply ordered_pairs_perm; [intros a b; by rewrite conflict_sym| |exact E].
  change (fun kv : string * string => toModelEntry kv.1) with (toModelEntry ∘ @fst string string).
  by rewrite (Hranged _ m), (Hchecking _ m).
Qed.

(** ** The snapshot of one group *)

Definition add_price (g : Z) (c : channelCache) (x : string * ChannelModelPricing) : channelCache := expand_model g (snd x) c (fst x).

Lemma expandPricing_fold ch g platform c :
  expandPricingToCache ch g platform c = foldl (add_price g) c (patterns_of platform (ModelPricing ch)).
Proof.
  unfold expandPricingToCache, patterns_of, isPlatformPricingMatch. revert c.
  induction (ModelPricing ch) as [|p l IH]; intros c; cbn [foldl map concat]; [done|]. rewrite foldl_app, IH, String.eqb_sym. f_equal.
  destruct (Platform p =s? platform); [|done]. clear IH. revert c. induction (Models p) as [|m ms IH]; intros c; cbn; [done|]. apply IH.
Qed.

Lemma patterns_platform platform pricing : Forall ((fun p => Platform p = platform) ∘ snd) (patterns_of platform pricing).
Proof. apply Forall_forall. intros [pat p] Hin. by apply patterns_of_iff in Hin as (_ & ? & _). Qed.

Definition sources (ch : Channel) (platform : string) : list (string * string) :=
  match ModelMapping ch !! platform with Some m => ranged _ m | None => [] end.

Lemma expandMapping_fold ch g platform c :
  expandMappingToCache ranged ch g platform c = foldl (expand_mapping g platform) c (sources ch platform).
Proof. unfold expandMappingToCache, sources. cbn. by destruct (_ !! platform). Qed.

(** What is kept apart for prices and mappings. *)
Record same_prices (c c' : channelCache) : Prop := mkSamePrices {
  same_exact : pricingByGroupModel c = pricingByGroupModel c';
  same_wild : wildcardByGroupPlatform c = wildcardByGroupPlatform c' }.
Record same_mappings (c c' : channelCache) : Prop := mkSameMappings {
  same_mapping : mappingByGroupModel c = mappingByGroupModel c';
  same_wild_mapping : wildcardMappingByGP c = wildcardMappingByGP c' }.
Record same_groups (c c' : channelCache) : Prop := mkSameGroups {
  same_channels : channelByGroupID c = channelByGroupID c';
  same_platforms : groupPlatform c = groupPlatform c' }.

Lemma prices_keep g l c : same_mappings (foldl (add_price g) c l) c /\ same_groups (foldl (add_price g) c l) c.
Proof.
  revert c. induction l as [|[pat p] l IH]; intros c; cbn [foldl]; [done|]. destruct (IH (add_price g c (pat, p))) as [[Ha Hb] [Hc Hd]].
  split; constructor; [rewrite Ha|rewrite Hb|rewrite Hc|rewrite Hd]; unfold add_price, expand_model; cbn; by destruct (cut_suffix _ _).
Qed.

Lemma mappings_keep g platform l c :
  same_prices (foldl (expand_mapping g platform) c l) c /\ same_groups (foldl (expand_mapping g platform) c l) c.
Proof.
  revert c. induction l as [|[src dst] l IH]; intros c; cbn [foldl]; [done|].
  destruct (IH (expand_mapping g platform c (src, dst))) as [[Ha Hb] [Hc Hd]].
  split; constructor; [rewrite Ha|rewrite Hb|rewrite Hc|rewrite Hd]; unfold expand_mapping; by destruct (cut_suffix _ _).
Qed.

(** ** The snapshot of all groups *)

Record agree (g : Z) (c c' : channelCache) : Prop := mkAgree {
  agree_exact : forall pl m, pricingByGroupModel c !! (g, pl, m) = pricingByGroupModel c' !! (g, pl, m);
  agree_wild : forall pl, wildcardByGroupPlatform c !! (g, pl) = wildcardByGroupPlatform c' !! (g, pl);
  agree_mapping : forall pl m, mappingByGroupModel c !! (g, pl, m) = mappingByGroupModel c' !! (g, pl, m);
  agree_wild_mapping : forall pl, wildcardMappingByGP c !! (g, pl) = wildcardMappingByGP c' !! (g, pl);
  agree_channel : channelByGroupID c !! g = channelByGroupID c' !! g;
  agree_platforms : groupPlatform c = groupPlatform c' }.

#[local] Instance agree_preorder g : PreOrder (agree g).
Proof.
  split; [done|]. intros a b c [H1 H2 H3 H4 H5 H6] [G1 G2 G3 G4 G5 G6].
  constructor; intros; rewrite ?H1, ?H2, ?H3, ?H4, ?H5, ?H6; auto.
Qed.

Lemma price_added g platform c pat p : Platform p = platform ->
  pricingByGroupModel (add_price g c (pat, p)) =
    match cut_suffix pat "*" with Some _ => pricingByGroupModel c | None => <[(g, platform, ToLower pat) := p]> (pricingByGroupModel c) end /\
  wildcardByGroupPlatform (add_price g c (pat, p)) =
    match cut_suffix pat "*" with
    | Some prefix => <[(g, platform) := (default [] (wildcardByGroupPlatform c !! (g, platform)) ++ [(ToLower prefix, p)])%list]>
        (wildcardByGroupPlatform c)
    | None => wildcardByGroupPlatform c
    end.
Proof. intros <-. unfold add_price, expand_model. cbn. by destruct (cut_suffix _ _). Qed.

Lemma mapping_added g platform c pat dst :
  mappingByGroupModel (expand_mapping g platform c (pat, dst)) =
    match cut_suffix pat "*" with Some _ => mappingByGroupModel c | None => <[(g, platform, ToLower pat) := dst]> (mappingByGroupModel c) end /\
  wildcardMappingByGP (expand_mapping g platform c (pat, dst)) =
    match cut_suffix pat "*" with
    | Some prefix => <[(g, platform) := (default [] (wildcardMappingByGP c !! (g, platform)) ++ [(ToLower prefix, dst)])%list]>
        (wildcardMappingByGP c)
    | None => wildcardMappingByGP c
    end.
Proof. unfold expand_mapping. by destruct (cut_suffix _ _). Qed.

Lemma any_source (l : list (string * string)) : Forall ((fun _ => True) ∘ snd) l.
Proof. by apply Forall_forall. Qed.

Lemma add_group_frame ch gps c g g' : g' <> g -> agree g (add_group ranged ch gps c g') c.
Proof.
  intros Hne. unfold add_group. rewrite expandPricing_fold, expandMapping_fold. set (platform := default "" (gps !! g')).
  set (c1 := c <| channelByGroupID := <[g' := ch]> (channelByGroupID c) |>).
  set (c2 := foldl (add_price g') c1 (patterns_of platform (ModelPricing ch))).
  destruct (mappings_keep g' platform (sources ch platform) c2) as [[Ha Hb] [Hc Hd]].
  destruct (prices_keep g' (patterns_of platform (ModelPricing ch)) c1) as [[Ha' Hb'] [Hc' Hd']]. fold c2 in Ha', Hb', Hc', Hd'.
  constructor; intros; rewrite ?Ha, ?Hb, ?Hc, ?Hd.
  - exact (exact_frame _ _ g' platform _ (fun c pat p H => proj1 (price_added g' platform c pat p H)) _ c1 (g, pl, m)
      (patterns_platform _ _) (not_eq_sym Hne)).
  - exact (wild_frame _ _ g' platform _ (fun c pat p H => proj2 (price_added g' platform c pat p H)) _ c1 (g, pl)
      (patterns_platform _ _) (not_eq_sym Hne)).
  - etrans; [exact (exact_frame _ _ g' platform _ (fun c pat p _ => proj1 (mapping_added g' platform c pat p)) _ c2 (g, pl, m)
      (any_source _) (not_eq_sym Hne))|by rewrite Ha'].
  - etrans; [exact (wild_frame _ _ g' platform _ (fun c pat p _ => proj2 (mapping_added g' platform c pat p)) _ c2 (g, pl)
      (any_source _) (not_eq_sym Hne))|by rewrite Hb'].
  - rewrite Hc'. cbn. by apply lookup_insert_ne.
  - by rewrite Hd'.
Qed.

Definition placed (channels : list Channel) : list (Channel * Z) :=
  concat (map (fun ch => map (pair (normalizeBillingModelSource ch)) (GroupIDs ch)) channels).

Definition empty_snapshot (gps : gmap Z string) : channelCache := mkChannelCache ∅ ∅ ∅ ∅ ∅ gps.

Lemma normalize_groups ch : GroupIDs (normalizeBillingModelSource ch) = GroupIDs ch.
Proof. unfold normalizeBillingModelSource. by destruct (_ =s? _). Qed.

Lemma populate_fold channels gps :
  populateChannelCache ranged channels gps = foldl (fun c '(ch, g) => add_group ranged ch gps c g) (empty_snapshot gps) (placed channels).
Proof.
  unfold populateChannelCache, placed. change (newEmptyChannelCache <| groupPlatform := gps |>) with (empty_snapshot gps).
  generalize (empty_snapshot gps). induction channels as [|ch channels IH]; intros c; cbn [foldl map concat]; [done|].
  rewrite foldl_app, IH. f_equal. rewrite normalize_groups. generalize (normalizeBillingModelSource ch). intros ch'. clear IH.
  revert c. induction (GroupIDs ch) as [|g gs IH]; intros c; cbn; [done|]. apply IH.
Qed.

Lemma placed_frame gps g l c : g ∉ map snd l -> agree g (foldl (fun c '(ch, g) => add_group ranged ch gps c g) c l) c.
Proof.
  revert c. induction l as [|[ch g'] l IH]; intros c Hg; cbn [foldl]; [done|]. cbn in Hg. apply not_elem_of_cons in Hg as [Hne Hg].
  etrans; [by apply IH|]. by apply add_group_frame.
Qed.

Lemma placed_snapshot channels gps ch g : NoDup (map snd (placed channels)) -> (ch, g) ∈ placed channels ->
  exists c0, agree g c0 (empty_snapshot gps) /\ agree g (populateChannelCache ranged channels gps) (add_group ranged ch gps c0 g).
Proof.
  intros Hnd Hin. rewrite populate_fold. apply list_elem_of_split in Hin as (l1 & l2 & Hl). rewrite Hl in *.
  rewrite map_app in Hnd. cbn in Hnd. apply NoDup_app in Hnd as (_ & H1 & H2). apply NoDup_cons in H2 as [H2 _].
  exists (foldl (fun c '(ch, g) => add_group ranged ch gps c g) (empty_snapshot gps) l1). split.
  - apply placed_frame. intros Hg. apply (H1 g Hg). by left.
  - rewrite foldl_app. cbn [foldl]. by apply placed_frame.
Qed.

(** What the lookups see of a snapshot. *)
Lemma agree_lookups g c c' platform m : agree g c c' ->
  lookupGroupChannel c g = lookupGroupChannel c' g /\
  lookupPricingAcrossPlatforms c g platform m = lookupPricingAcrossPlatforms c' g platform m /\
  lookupMappingAcrossPlatforms c g platform m = lookupMappingAcrossPlatforms c' g platform m.
Proof.
  intros [H1 H2 H3 H4 H5 H6]. unfold lookupGroupChannel, lookupPricingAcrossPlatforms, lookupMappingAcrossPlatforms, matchWildcard,
    matchWildcardMapping, matchingPlatforms. cbn. by rewrite H1, H2, H3, H4, H5, H6.
Qed.

Lemma added_group_lookups ch gps c0 g m : agree g c0 (empty_snapshot gps) -> accepted ch ->
  let platform := default "" (gps !! g) in
  let c := add_group ranged ch gps c0 g in
  lookupGroupChannel c g = (if IsActive ch then Some (ch, platform) else None) /\
  (forall p, lookupPricingAcrossPlatforms c g platform m = Some p <->
     exists pat, (pat, p) ∈ patterns_of platform (ModelPricing ch) /\ matches (toModelEntry pat) m = true) /\
  (forall dst, dst <> "" -> lookupMappingAcrossPlatforms c g platform m = dst <->
     exists src, (src, dst) ∈ sources ch platform /\ matches (toModelEntry src) m = true).
Proof.
  intros [H1 H2 H3 H4 _ H6] Hacc platform c. subst c. unfold add_group. rewrite expandPricing_fold, expandMapping_fold. fold platform.
  set (c1 := c0 <| channelByGroupID := <[g := ch]> (channelByGroupID c0) |>).
  set (c2 := foldl (add_price g) c1 (patterns_of platform (ModelPricing ch))).
  destruct (mappings_keep g platform (sources ch platform) c2) as [[Ha Hb] [Hc Hd]].
  destruct (prices_keep g (patterns_of platform (ModelPricing ch)) c1) as [[Ha' Hb'] [Hc' Hd']]. fold c2 in Ha', Hb', Hc', Hd'.
  split_and!.
  - unfold lookupGroupChannel. rewrite Hc, Hc', Hd, Hd'. cbn. rewrite lookup_insert_eq, H6. done.
  - intros p. unfold lookupPricingAcrossPlatforms, matchWildcard, matchingPlatforms. cbn. rewrite Ha, Hb.
    rewrite <- (lookup_pattern_iff pricingByGroupModel wildcardByGroupPlatform (add_price g) g platform _
      (fun c pat p H => proj1 (price_added g platform c pat p H)) (fun c pat p H => proj2 (price_added g platform c pat p H)) _ c1 m p
      (patterns_platform _ _) (accepted_patterns ch platform Hacc)); [|etrans; [exact (H1 platform m)|apply lookup_empty]|etrans; [exact (H2 platform)|apply lookup_empty]].
    unfold lookup_pattern. fold c2. destruct (pricingByGroupModel c2 !! _); [done|]. by destruct (snd <$> _).
  - intros dst Hdst. unfold lookupMappingAcrossPlatforms, matchWildcardMapping, matchingPlatforms. cbn.
    rewrite <- (lookup_pattern_iff mappingByGroupModel wildcardMappingByGP (expand_mapping g platform) g platform (fun _ => True)
      (fun c pat p _ => proj1 (mapping_added g platform c pat p)) (fun c pat p _ => proj2 (mapping_added g platform c pat p)) _ c2 m dst
      (any_source _)); [| |rewrite Ha'; etrans; [exact (H3 platform m)|apply lookup_empty]|rewrite Hb'; etrans; [exact (H4 platform)|apply lookup_empty]].
    2: { unfold sources. destruct (ModelMapping ch !! platform) eqn:E; [by apply (accepted_sources ch platform)|constructor]. }
    unfold lookup_pattern. destruct (mappingByGroupModel _ !! _) as [v|]; [cbn; split; [by intros ->|by intros [= ->]]|].
    destruct (snd <$> _) as [v|]; cbn; [|split; [by intros <-|done]].
    destruct (String.eqb_spec v "") as [->|Hv]; cbn; split; try congruence.
Qed.

(** ** What the lookups answer *)

Definition configured_price (ch : Channel) (platform m : string) (p : ChannelModelPricing) : Prop :=
  p ∈ ModelPricing ch /\ Platform p = platform /\ exists pat, pat ∈ Models p /\ matches (toModelEntry pat) m = true.

Definition configured_mapping (ch : Channel) (platform m dst : string) : Prop :=
  dst <> "" /\ exists pm src, ModelMapping ch !! platform = Some pm /\ pm !! src = Some dst /\ matches (toModelEntry src) m = true.

Lemma sources_iff ch platform src dst :
  (src, dst) ∈ sources ch platform <-> exists pm, ModelMapping ch !! platform = Some pm /\ pm !! src = Some dst.
Proof.
  unfold sources. destruct (ModelMapping ch !! platform) as [pm|].
  - rewrite (ranged_elem ranged _ pm src dst Hranged). split; [by exists pm|by intros (? & [= ->] & ?)].
  - split; [by intros ?%elem_of_nil|by intros (? & ? & _)].
Qed.

Lemma placed_iff channels ch g :
  (ch, g) ∈ placed channels <-> exists ch0, ch0 ∈ channels /\ g ∈ GroupIDs ch0 /\ ch = normalizeBillingModelSource ch0.
Proof.
  unfold placed. induction channels as [|c channels IH]; cbn.
  - split; [by intros ?%elem_of_nil|by intros (? & ?%elem_of_nil & _)].
  - rewrite elem_of_app, IH, list_elem_of_fmap. split.
    + intros [(g' & [= -> ->] & Hg)|(ch0 & Hin & Hg & ->)]; [exists c|exists ch0]; split_and!; auto; by constructor.
    + intros (ch0 & [->|Hin]%elem_of_cons & Hg & ->); [left; by exists g|right; by exists ch0].
Qed.

Lemma normalize_same ch : ModelPricing (normalizeBillingModelSource ch) = ModelPricing ch /\
  ModelMapping (normalizeBillingModelSource ch) = ModelMapping ch /\ IsActive (normalizeBillingModelSource ch) = IsActive ch.
Proof. unfold normalizeBillingModelSource. by destruct (_ =s? _). Qed.

Lemma placed_groups channels : map snd (placed channels) = concat (map GroupIDs channels).
Proof.
  unfold placed. induction channels as [|c channels IH]; cbn; [done|]. rewrite map_app, IH, map_map. f_equal. apply map_id.
Qed.

Lemma one_channel (channels : list Channel) ch ch' g : NoDup (concat (map GroupIDs channels)) ->
  ch ∈ channels -> ch' ∈ channels -> g ∈ GroupIDs ch -> g ∈ GroupIDs ch' -> ch = ch'.
Proof.
  intros Hnd. induction channels as [|c channels IH]; [by intros ?%elem_of_nil|]. cbn in Hnd. apply NoDup_app in Hnd as (_ & Hd & Hnd).
  assert (Hlater : forall x, x ∈ channels -> g ∈ GroupIDs x -> g ∈ GroupIDs c -> False).
  { intros x Hx Hgx Hgc. apply (Hd g Hgc), list_elem_of_In, in_concat. exists (GroupIDs x).
    split; [by apply in_map, list_elem_of_In|by apply list_elem_of_In]. }
  intros [->|Hc]%elem_of_cons [->|Hc']%elem_of_cons Hg Hg'; [done|by destruct (Hlater ch')|by destruct (Hlater ch)|by apply IH].
Qed.

(** The channel of a group, as the snapshot knows it, and its lookups. *)
Lemma snapshot_lookups channels gps g m : NoDup (concat (map GroupIDs channels)) -> Forall accepted channels ->
  let platform := default "" (gps !! g) in
  let c := populateChannelCache ranged channels gps in
  (exists ch, ch ∈ channels /\ g ∈ GroupIDs ch /\
     lookupGroupChannel c g = (if IsActive ch then Some (normalizeBillingModelSource ch, platform) else None) /\
     (forall p, lookupPricingAcrossPlatforms c g platform m = Some p <-> configured_price ch platform m p) /\
     (forall dst, dst <> "" -> lookupMappingAcrossPlatforms c g platform m = dst <-> configured_mapping ch platform m dst)) \/
  (forall ch, ch ∈ channels -> g ∉ GroupIDs ch) /\ lookupGroupChannel c g = None.
Proof.
  intros Hnd Hacc platform c. rewrite <- placed_groups in Hnd. destruct (decide (g ∈ map snd (placed channels))) as [Hin|Hout].
  - left. apply list_elem_of_fmap in Hin as ([ch g'] & -> & Hin). cbn in *. pose proof Hin as Hpl.
    apply placed_iff in Hpl as (ch0 & Hch & Hg & ->). destruct (placed_snapshot channels gps _ g' Hnd Hin) as (c0 & H0 & Hc).
    destruct (agree_lookups g' _ _ platform m Hc) as (E1 & E2 & E3).
    destruct (normalize_same ch0) as (Hp & Hm & Ha).
    assert (Hacc0 : accepted (normalizeBillingModelSource ch0)).
    { unfold accepted. rewrite Hp, Hm. rewrite Forall_forall in Hacc. by apply Hacc. }
    destruct (added_group_lookups _ gps c0 g' m H0 Hacc0) as (F1 & F2 & F3). fold platform in F1, F2, F3.
    exists ch0. split_and!; [done|done| | |].
    + unfold c. by rewrite E1, F1, Ha.
    + intros p. unfold c. rewrite E2, F2, Hp. unfold configured_price. setoid_rewrite patterns_of_iff. naive_solver.
    + intros dst Hdst. unfold c. rewrite E3, (F3 dst Hdst). unfold configured_mapping. setoid_rewrite sources_iff. rewrite Hm. naive_solver.
  - right. split.
    + intros ch Hch Hg. apply Hout. rewrite placed_groups. apply list_elem_of_In, in_concat. exists (GroupIDs ch).
      split; [by apply in_map, list_elem_of_In|by apply list_elem_of_In].
    + unfold c. rewrite populate_fold. destruct (agree_lookups g _ _ platform m (placed_frame gps g _ (empty_snapshot gps) Hout)) as (E1 & _).
      by rewrite E1.
Qed.

(** C35: The snapshot answers what the configuration of the group's active channel
    says: the price whose platform is the group's and one of whose patterns
    matches the model. *)
Theorem channel_prices_configured channels gps g model p :
  NoDup (concat (map GroupIDs channels)) -> Forall accepted channels ->
  GetChannelModelPricing (Some (populateChannelCache ranged channels gps)) g model = Some p <->
  exists ch, ch ∈ channels /\ g ∈ GroupIDs ch /\ IsActive ch = true /\
    configured_price ch (default "" (gps !! g)) (ToLower model) p.
Proof.
  intros Hnd Hacc. destruct (snapshot_lookups channels gps g (ToLower model) Hnd Hacc) as [(ch & Hch & Hg & E1 & E2 & _)|(Hno & E1)];
    cbn [GetChannelModelPricing]; unfold GetChannelModelPricing; cbn; rewrite E1.
  - destruct (IsActive ch) eqn:Ea; cbn.
    + rewrite E2. split; [intros Hp; by exists ch|]. intros (ch' & Hch' & Hg' & _ & Hp).
      by rewrite (one_channel _ _ _ _ Hnd Hch Hch' Hg Hg').
    + split; [done|]. intros (ch' & Hch' & Hg' & Ha' & _). rewrite (one_channel _ _ _ _ Hnd Hch Hch' Hg Hg') in Ea. congruence.
  - split; [done|]. intros (ch & Hch & Hg & _). by destruct (Hno ch Hch).
Qed.

(** C36: A model is mapped to what the one pattern that matches it says, although the
    patterns come out of a map; and it is restricted if the group's active channel
    restricts models and sets no price for it. *)
Theorem channel_mappings_configured channels gps g model :
  NoDup (concat (map GroupIDs channels)) -> Forall accepted channels ->
  let platform := default "" (gps !! g) in
  let c := Some (populateChannelCache ranged channels gps) in
  let active ch := ch ∈ channels /\ g ∈ GroupIDs ch /\ IsActive ch = true in
  (forall dst, Mapped (ResolveChannelMapping c g model) = true /\ MappedModel (ResolveChannelMapping c g model) = dst <->
     exists ch, active ch /\ configured_mapping ch platform (ToLower model) dst) /\
  (IsModelRestricted c g model = true <->
     exists ch, active ch /\ RestrictModels ch = true /\ forall p, ~ configured_price ch platform (ToLower model) p).
Proof.
  intros Hnd Hacc platform c active. unfold ResolveChannelMapping, IsModelRestricted, c. cbn.
  destruct (snapshot_lookups channels gps g (ToLower model) Hnd Hacc) as [(ch & Hch & Hg & E1 & E2 & E3)|(Hno & E1)]; rewrite E1.
  2: { split; [intros dst; split; [by intros [? _]|]|split; [done|]]; by intros (ch & (Hch & Hg & _) & _); destruct (Hno ch Hch). }
  assert (Hone : forall ch', active ch' -> ch' = ch).
  { intros ch' (Hch' & Hg' & _). by apply (one_channel channels ch' ch g). }
  destruct (IsActive ch) eqn:Ea; cbn.
  2: { split; [intros dst; split; [by intros [? _]|]|split; [done|]]; intros (ch' & Hact & _); pose proof (Hone _ Hact) as ->;
         destruct Hact as (_ & _ & Ha); congruence. }
  assert (Hact : active ch) by done. split.
  - intros dst. unfold resolveMapping. fold platform in E3. set (mapped := lookupMappingAcrossPlatforms _ _ _ _) in *. split.
    + intros [Hm Hd]. exists ch. split; [done|]. destruct (String.eqb_spec mapped "") as [He|Hne]; cbn in *; [done|].
      subst dst. by apply E3.
    + intros (ch' & Hact' & Hc). rewrite (Hone _ Hact') in Hc. assert (Hd : dst <> "") by by destruct Hc.
      apply (E3 dst Hd) in Hc. fold mapped in Hc. rewrite Hc. by destruct (String.eqb_spec dst "").
  - unfold checkRestricted. subst platform. rewrite andb_true_iff, negb_true_iff.
    assert (Hr : RestrictModels (normalizeBillingModelSource ch) = RestrictModels ch) by (unfold normalizeBillingModelSource; by destruct (_ =s? _)).
    rewrite Hr. split.
    + intros [Hre Hn]. exists ch. split_and!; [done|done|]. intros p Hp. apply E2 in Hp. by rewrite Hp in Hn.
    + intros (ch' & Hact' & Hre & Hn). rewrite (Hone _ Hact') in Hre, Hn. split; [done|].
      destruct (lookupPricingAcrossPlatforms _ _ _ _) as [p|] eqn:E; [|done]. by destruct (Hn p (proj1 (E2 p) eq_refl)).
Qed.

End Accepted.

(** ** Examples *)

Definition plain_interval (label : string) (price : float64) : PricingInterval :=
  mkInterval 0 None label None None None None (Some price).

Definition priced_interval (min : Z) (max : option Z) : PricingInterval := mkInterval min max "" (Some f64_zero) None None None None.

Lemma accepted_intervals_disjoint_witness :
  FindMatchingInterval [priced_interval 200000 None; priced_interval 0 (Some 128000)] 100000 = Some (priced_interval 0 (Some 128000)).
Proof. apply accepted_intervals_disjoint; [by vm_compute|]. split; [by right; left|]. split; [by vm_compute|]. intros max [= <-]. lia. Defined.

Lemma labelled_tiers_refused_witness :
  ValidateIntervals [plain_interval "1K" (f64_of_Z 1); plain_interval "2K" (f64_of_Z 2)] <> None.
Proof. apply labelled_tiers_refused. cbn. lia. Defined.

Definition in_key_order (A : Type) (m : gmap string A) : list (string * A) := map_to_list m.

Lemma key_order : range_order in_key_order.
Proof. by intros A m. Qed.

Definition opus_price : ChannelModelPricing := mkChannelPricing "anthropic" ["claude-opus-*"] "" (Some (f64_of_Z 1)) None None None None None [].
Definition sonnet_price : ChannelModelPricing := mkChannelPricing "anthropic" ["Claude-Sonnet-4"] "" (Some (f64_of_Z 2)) None None None None None [].
Definition a_channel : Channel :=
  mkChannel 7 "active" "" true [1; 2] [sonnet_price; opus_price]
    {["anthropic" := {["claude-haiku-*" := "claude-sonnet-4"; "claude-3-*" := "claude-opus-4-5"]}]} false [].

Lemma a_channel_accepted : Forall (accepted in_key_order) [a_channel].
Proof. repeat constructor. Qed.

Lemma channel_prices_configured_witness :
  GetChannelModelPricing (Some (populateChannelCache in_key_order [a_channel] {[1 := "anthropic"]})) 1 "CLAUDE-OPUS-4-7" = Some opus_price.
Proof.
  apply (channel_prices_configured in_key_order in_key_order); [apply key_order|apply key_order| |apply a_channel_accepted|].
  - apply (bool_decide_unpack _). by vm_compute.
  - exists a_channel. split_and!; [by left|by left|done|]. split_and!; [by right; left|done|].
    exists "claude-opus-*". split; [by left|by vm_compute].
Defined.

Lemma channel_mappings_configured_witness :
  let c := Some (populateChannelCache in_key_order [a_channel] {[1 := "anthropic"]}) in
  MappedModel (ResolveChannelMapping c 1 "claude-3-opus") = "claude-opus-4-5" /\ IsModelRestricted c 1 "claude-3-opus" = true.
Proof.
  destruct (channel_mappings_configured in_key_order in_key_order key_order key_order
    [a_channel] {[1 := "anthropic"]} 1 "claude-3-opus") as [Hm Hr].
  - apply (bool_decide_unpack _). by vm_compute.
  - apply a_channel_accepted.
  - split.
    + apply (Hm "claude-opus-4-5"). exists a_channel. split_and!; [by left|by left|done|]. split; [done|].
      eexists _, "claude-3-*". split_and!; [reflexivity|reflexivity|by vm_compute].
    + apply Hr. exists a_channel. split_and!; [by left|by left|done|done|].
      intros p (Hp & _ & pat & Hpat & Hmt). cbn in Hp. repeat (apply elem_of_cons in Hp as [->|Hp]);
        [..|by apply elem_of_nil in Hp]; apply elem_of_cons in Hpat as [->|Hpat%elem_of_nil]; try done; by vm_compute in Hmt.
Defined.
