(* ===== verification/BillingService.v ===== *)
(** * The cost of a request (service/billing_service.go,
    service/model_pricing_resolver.go)

    The price of a model comes from the price file, or from a table of fallback
    prices, and a channel may set its own.  Prices are handed around as pointers:
    what [GetModelPricing] returns for a fallback price is the entry of the table
    itself, so the entries live in a store that is passed through the resolver.
    Costs are doubles; no multiplication is fused with an addition.  The last part
    is service/account_stats_pricing.go. *)

From Stdlib Require Import Floats.SpecFloat.
From S2P Require Import Prelude GoStrings AppErrors PaymentData ModelNames Channels.
From S2P Require PricingService.

Abbreviation constant := PricingService.constant.
Abbreviation pricing_map := PricingService.pricing_map.

(** ** Data *)

Record ModelPricing : Type := mkModelPricing {
  InputPricePerToken : float64; InputPricePerTokenPriority : float64; OutputPricePerToken : float64; OutputPricePerTokenPriority : float64;
  CacheCreationPricePerToken : float64; CacheCreationPricePerTokenPriority : float64; CacheCreationPriceExplicit : bool;
  CacheReadPricePerToken : float64; CacheReadPricePerTokenPriority : float64; CacheCreation5mPrice : float64;
  CacheCreation1hPrice : float64; SupportsCacheBreakdown : bool; LongContextInputThreshold : Z; LongContextInputMultiplier : float64;
  LongContextOutputMultiplier : float64; ImageOutputPricePerToken : float64; ImageOutputPriceExplicit : bool
}.
#[export] Instance eta_ModelPricing : Settable ModelPricing := fun p =>
  mkModelPricing
    (InputPricePerToken p) (InputPricePerTokenPriority p) (OutputPricePerToken p) (OutputPricePerTokenPriority p)
    (CacheCreationPricePerToken p) (CacheCreationPricePerTokenPriority p) (CacheCreationPriceExplicit p) (CacheReadPricePerToken p)
    (CacheReadPricePerTokenPriority p) (CacheCreation5mPrice p) (CacheCreation1hPrice p) (SupportsCacheBreakdown p)
    (LongContextInputThreshold p) (LongContextInputMultiplier p) (LongContextOutputMultiplier p) (ImageOutputPricePerToken p)
    (ImageOutputPriceExplicit p).
Definition zero_ModelPricing : ModelPricing :=
  mkModelPricing
    f64_zero f64_zero f64_zero f64_zero f64_zero f64_zero false f64_zero f64_zero f64_zero f64_zero false 0 f64_zero f64_zero f64_zero false.

Record UsageTokens : Type := mkUsageTokens {
  InputTokens : Z; OutputTokens : Z; CacheCreationTokens : Z; CacheReadTokens : Z; CacheCreation5mTokens : Z; CacheCreation1hTokens : Z;
  ImageOutputTokens : Z
}.
#[export] Instance eta_UsageTokens : Settable UsageTokens := fun p =>
  mkUsageTokens
    (InputTokens p) (OutputTokens p) (CacheCreationTokens p) (CacheReadTokens p) (CacheCreation5mTokens p) (CacheCreation1hTokens p)
    (ImageOutputTokens p).
Definition zero_UsageTokens : UsageTokens :=
  mkUsageTokens
    0 0 0 0 0 0 0.

Record CostBreakdown : Type := mkCostBreakdown {
  InputCost : float64; OutputCost : float64; ImageOutputCost : float64; CacheCreationCost : float64; CacheReadCost : float64;
  TotalCost : float64; ActualCost : float64; BillingMode : string
}.
#[export] Instance eta_CostBreakdown : Settable CostBreakdown := fun p =>
  mkCostBreakdown
    (InputCost p) (OutputCost p) (ImageOutputCost p) (CacheCreationCost p) (CacheReadCost p) (TotalCost p) (ActualCost p) (BillingMode p).
Definition zero_CostBreakdown : CostBreakdown :=
  mkCostBreakdown
    f64_zero f64_zero f64_zero f64_zero f64_zero f64_zero f64_zero "".

Definition openAIGPT54LongContextInputThreshold : Z := PricingService.openAIGPT54LongContextInputThreshold.
Definition openAIGPT54LongContextInputMultiplier : float64 := PricingService.openAIGPT54LongContextInputMultiplier.
Definition openAIGPT54LongContextOutputMultiplier : float64 := PricingService.openAIGPT54LongContextOutputMultiplier.

Definition f64_one : float64 := constant 1 0.
Definition f64_two : float64 := constant 2 0.
Definition f64_half : float64 := constant 5 (-1).

Definition positive (x : float64) : bool := SFltb f64_zero x.
Definition not_positive (x : float64) : bool := SFleb x f64_zero.
Infix "⊗" := f64_mul (at level 40, left associativity).
Infix "⊕" := f64_add (at level 50, left associativity).

(** [if rateMultiplier < 0 { rateMultiplier = 0 }] *)
Definition clamp (rate : float64) : float64 := if SFltb rate f64_zero then f64_zero else rate.

(** ** Service tiers *)

Definition normalizeBillingServiceTier (serviceTier : string) : string := ToLower (trim_space serviceTier).

Definition usePriorityServiceTierPricing (serviceTier : string) (pricing : option ModelPricing) : bool :=
  match pricing with
  | Some p =>
      (normalizeBillingServiceTier serviceTier =s? "priority") &&
      (positive (InputPricePerTokenPriority p) || positive (OutputPricePerTokenPriority p) ||
       positive (CacheCreationPricePerTokenPriority p) || positive (CacheReadPricePerTokenPriority p))
  | None => false
  end.

Definition serviceTierCostMultiplier (serviceTier : string) : float64 :=
  let tier := normalizeBillingServiceTier serviceTier in
  if tier =s? "priority" then f64_two else if tier =s? "flex" then f64_half else f64_one.

(** ** Fallback prices *)

Definition with_long_context (p : ModelPricing) : ModelPricing :=
  p <| LongContextInputThreshold := openAIGPT54LongContextInputThreshold |>
    <| LongContextInputMultiplier := openAIGPT54LongContextInputMultiplier |>
    <| LongContextOutputMultiplier := openAIGPT54LongContextOutputMultiplier |>.

Definition initial_prices : list (string * ModelPricing) :=
  [
   ("claude-opus-4.5", zero_ModelPricing
      <| InputPricePerToken := constant 5 (-6) |> <| OutputPricePerToken := constant 25 (-6) |>
      <| CacheCreationPricePerToken := constant 625 (-8) |> <| CacheReadPricePerToken := constant 5 (-7) |>);
   ("claude-sonnet-4", zero_ModelPricing
      <| InputPricePerToken := constant 3 (-6) |> <| OutputPricePerToken := constant 15 (-6) |>
      <| CacheCreationPricePerToken := constant 375 (-8) |> <| CacheReadPricePerToken := constant 3 (-7) |>);
   ("claude-3-5-sonnet", zero_ModelPricing
      <| InputPricePerToken := constant 3 (-6) |> <| OutputPricePerToken := constant 15 (-6) |>
      <| CacheCreationPricePerToken := constant 375 (-8) |> <| CacheReadPricePerToken := constant 3 (-7) |>);
   ("claude-3-5-haiku", zero_ModelPricing
      <| InputPricePerToken := constant 1 (-6) |> <| OutputPricePerToken := constant 5 (-6) |>
      <| CacheCreationPricePerToken := constant 125 (-8) |> <| CacheReadPricePerToken := constant 1 (-7) |>);
   ("claude-3-opus", zero_ModelPricing
      <| InputPricePerToken := constant 15 (-6) |> <| OutputPricePerToken := constant 75 (-6) |>
      <| CacheCreationPricePerToken := constant 1875 (-8) |> <| CacheReadPricePerToken := constant 15 (-7) |>);
   ("claude-3-haiku", zero_ModelPricing
      <| InputPricePerToken := constant 25 (-8) |> <| OutputPricePerToken := constant 125 (-8) |>
      <| CacheCreationPricePerToken := constant 3 (-7) |> <| CacheReadPricePerToken := constant 3 (-8) |>);
   ("gemini-3.1-pro", zero_ModelPricing
      <| InputPricePerToken := constant 2 (-6) |> <| OutputPricePerToken := constant 12 (-6) |>
      <| CacheCreationPricePerToken := constant 2 (-6) |> <| CacheReadPricePerToken := constant 2 (-7) |>);
   ("gpt-5.4", with_long_context (zero_ModelPricing
      <| InputPricePerToken := constant 25 (-7) |> <| InputPricePerTokenPriority := constant 5 (-6) |>
      <| OutputPricePerToken := constant 15 (-6) |> <| OutputPricePerTokenPriority := constant 3 (-5) |>
      <| CacheCreationPricePerToken := constant 25 (-7) |> <| CacheReadPricePerToken := constant 25 (-8) |>
      <| CacheReadPricePerTokenPriority := constant 5 (-7) |>));
   ("gpt-5.6-sol", with_long_context (zero_ModelPricing
      <| InputPricePerToken := constant 5 (-6) |> <| InputPricePerTokenPriority := constant 1 (-5) |>
      <| OutputPricePerToken := constant 3 (-5) |> <| OutputPricePerTokenPriority := constant 6 (-5) |>
      <| CacheCreationPricePerToken := constant 625 (-8) |> <| CacheCreationPricePerTokenPriority := constant 125 (-7) |>
      <| CacheReadPricePerToken := constant 5 (-7) |> <| CacheReadPricePerTokenPriority := constant 1 (-6) |>));
   ("gpt-5.6-terra", with_long_context (zero_ModelPricing
      <| InputPricePerToken := constant 25 (-7) |> <| InputPricePerTokenPriority := constant 5 (-6) |>
      <| OutputPricePerToken := constant 15 (-6) |> <| OutputPricePerTokenPriority := constant 3 (-5) |>
      <| CacheCreationPricePerToken := constant 3125 (-9) |> <| CacheCreationPricePerTokenPriority := constant 625 (-8) |>
      <| CacheReadPricePerToken := constant 25 (-8) |> <| CacheReadPricePerTokenPriority := constant 5 (-7) |>));
   ("gpt-5.6-luna", with_long_context (zero_ModelPricing
      <| InputPricePerToken := constant 1 (-6) |> <| InputPricePerTokenPriority := constant 2 (-6) |>
      <| OutputPricePerToken := constant 6 (-6) |> <| OutputPricePerTokenPriority := constant 12 (-6) |>
      <| CacheCreationPricePerToken := constant 125 (-8) |> <| CacheCreationPricePerTokenPriority := constant 25 (-7) |>
      <| CacheReadPricePerToken := constant 1 (-7) |> <| CacheReadPricePerTokenPriority := constant 2 (-7) |>));
   ("gpt-5.4-mini", zero_ModelPricing
      <| InputPricePerToken := constant 75 (-8) |> <| OutputPricePerToken := constant 45 (-7) |>
      <| CacheReadPricePerToken := constant 75 (-9) |>);
   ("gpt-5.4-nano", zero_ModelPricing
      <| InputPricePerToken := constant 2 (-7) |> <| OutputPricePerToken := constant 125 (-8) |>
      <| CacheReadPricePerToken := constant 2 (-8) |>);
   ("gpt-5.2", zero_ModelPricing
      <| InputPricePerToken := constant 175 (-8) |> <| InputPricePerTokenPriority := constant 35 (-7) |>
      <| OutputPricePerToken := constant 14 (-6) |> <| OutputPricePerTokenPriority := constant 28 (-6) |>
      <| CacheCreationPricePerToken := constant 175 (-8) |> <| CacheReadPricePerToken := constant 175 (-9) |>
      <| CacheReadPricePerTokenPriority := constant 35 (-8) |>);
   ("gpt-5.3-codex", zero_ModelPricing
      <| InputPricePerToken := constant 15 (-7) |> <| InputPricePerTokenPriority := constant 3 (-6) |>
      <| OutputPricePerToken := constant 12 (-6) |> <| OutputPricePerTokenPriority := constant 24 (-6) |>
      <| CacheCreationPricePerToken := constant 15 (-7) |> <| CacheReadPricePerToken := constant 15 (-8) |>
      <| CacheReadPricePerTokenPriority := constant 3 (-7) |>);
   ("grok-4.3", zero_ModelPricing
      <| InputPricePerToken := constant 125 (-8) |> <| OutputPricePerToken := constant 25 (-7) |>
      <| CacheReadPricePerToken := constant 125 (-9) |>);
   ("grok-build-0.1", zero_ModelPricing
      <| InputPricePerToken := constant 1 (-6) |> <| OutputPricePerToken := constant 2 (-6) |>
      <| CacheReadPricePerToken := constant 1 (-7) |>)].

(** Entries that are the pointer of another. *)
Definition shared_entries : list (string * string) :=
  [("claude-opus-4.6", "claude-opus-4.5"); ("claude-opus-4.7", "claude-opus-4.5"); ("gpt-5.5", "gpt-5.4")].

(** The prices behind the pointers; a place is named after the entry it was made for. *)
Abbreviation store := (gmap string ModelPricing).
Definition initFallbackPricing : store := list_to_map initial_prices.

(** Where [s.fallbackPrices[key]] points to; no code adds an entry later. *)
Definition fallbackPrices (key : string) : string := default key (assoc key shared_entries).

(** A [*ModelPricing]: an entry of the table, or a price of its own. *)
Inductive price_ref : Type :=
| Shared (place : string)
| Own (p : ModelPricing).

Definition deref (s : store) (r : price_ref) : ModelPricing :=
  match r with Shared place => default zero_ModelPricing (s !! place) | Own p => p end.

(** Writing through a pointer. *)
Definition assign (f : ModelPricing -> ModelPricing) (r : price_ref) : ST store price_ref :=
  match r with
  | Shared place => fun s => (r, alter f place s)
  | Own p => mret (Own (f p))
  end.

Definition getFallbackPricing (model : string) : option price_ref :=
  let modelLower := ToLower model in
  let has := contains modelLower in
  let entry key := Some (Shared (fallbackPrices key)) in
  if has "opus" then
    if has "4.7" || has "4-7" then entry "claude-opus-4.7"
    else if has "4.6" || has "4-6" then entry "claude-opus-4.6"
    else if has "4.5" || has "4-5" then entry "claude-opus-4.5"
    else entry "claude-3-opus"
  else if has "sonnet" then
    if has "4" && negb (has "3") then entry "claude-sonnet-4" else entry "claude-3-5-sonnet"
  else if has "haiku" then
    if has "3-5" || has "3.5" then entry "claude-3-5-haiku" else entry "claude-3-haiku"
  else if has "claude" then entry "claude-sonnet-4"
  else if has "gemini-3.1-pro" || has "gemini-3-1-pro" then entry "gemini-3.1-pro"
  else if in_list modelLower ["grok"; "grok-latest"; "grok-4.3"] then entry "grok-4.3"
  else if in_list modelLower ["grok-build"; "grok-build-0.1"] then entry "grok-build-0.1"
  else if has "gpt-5" || has "codex" then
    if has "gpt-5.4-nano" then entry "gpt-5.4-nano" else
    let normalized := normalizeCodexModel modelLower in
    if in_list normalized ["gpt-5.6-sol"; "gpt-5.6-terra"; "gpt-5.6-luna"; "gpt-5.5"; "gpt-5.4-mini"; "gpt-5.4"; "gpt-5.2"] then entry normalized
    else if in_list normalized ["gpt-5.3-codex"; "gpt-5.3-codex-spark"] then entry "gpt-5.3-codex"
    else None
  else None.

Definition usesOpenAILegacyLongContextPricing (normalized : string) : bool :=
  in_list normalized ["gpt-5.4"; "gpt-5.5"; "gpt-5.5-pro"].

(** The clone with what is missing filled in, each field on its own condition. *)
Definition fill_policy (isGPT56 : bool) (p : ModelPricing) : ModelPricing :=
  let open := isGPT56 && negb (CacheCreationPriceExplicit p) in
  p <| CacheCreationPricePerToken :=
         if open && not_positive (CacheCreationPricePerToken p) then InputPricePerToken p ⊗ constant 125 (-2)
         else CacheCreationPricePerToken p |>
    <| CacheCreationPricePerTokenPriority :=
         if open && not_positive (CacheCreationPricePerTokenPriority p) then InputPricePerTokenPriority p ⊗ constant 125 (-2)
         else CacheCreationPricePerTokenPriority p |>
    <| LongContextInputThreshold :=
         if LongContextInputThreshold p <=? 0 then openAIGPT54LongContextInputThreshold else LongContextInputThreshold p |>
    <| LongContextInputMultiplier :=
         if not_positive (LongContextInputMultiplier p) then openAIGPT54LongContextInputMultiplier else LongContextInputMultiplier p |>
    <| LongContextOutputMultiplier :=
         if not_positive (LongContextOutputMultiplier p) then openAIGPT54LongContextOutputMultiplier else LongContextOutputMultiplier p |>.

Definition needs_policy (isGPT56 : bool) (p : ModelPricing) : bool :=
  (LongContextInputThreshold p <=? 0) || not_positive (LongContextInputMultiplier p) || not_positive (LongContextOutputMultiplier p) ||
  (isGPT56 && negb (CacheCreationPriceExplicit p) &&
   (not_positive (CacheCreationPricePerToken p) ||
    (positive (InputPricePerTokenPriority p) && not_positive (CacheCreationPricePerTokenPriority p)))).

(** The same pointer, unless something has to be filled in. *)
Definition applyModelSpecificPricingPolicy (model : string) (r : price_ref) : ST store price_ref := fun s =>
  let normalized := normalizeKnownOpenAICodexModel model in
  let isGPT56 := isOpenAIGPT56Model normalized in
  if negb isGPT56 && negb (usesOpenAILegacyLongContextPricing normalized) then (r, s) else
  if needs_policy isGPT56 (deref s r) then (Own (fill_policy isGPT56 (deref s r)), s) else (r, s).

(** What a channel, or an interval of it, sets. *)
Definition set_price (price : option float64) (set : float64 -> ModelPricing -> ModelPricing) (p : ModelPricing) : ModelPricing :=
  match price with Some v => set v p | None => p end.
Definition set_input (v : float64) (p : ModelPricing) : ModelPricing :=
  p <| InputPricePerToken := v |> <| InputPricePerTokenPriority := v |>.
Definition set_output (v : float64) (p : ModelPricing) : ModelPricing :=
  p <| OutputPricePerToken := v |> <| OutputPricePerTokenPriority := v |>.
Definition set_cache_write (v : float64) (p : ModelPricing) : ModelPricing :=
  p <| CacheCreationPricePerToken := v |> <| CacheCreationPricePerTokenPriority := v |> <| CacheCreationPriceExplicit := true |>
    <| CacheCreation5mPrice := v |> <| CacheCreation1hPrice := v |>.
Definition set_cache_read (v : float64) (p : ModelPricing) : ModelPricing :=
  p <| CacheReadPricePerToken := v |> <| CacheReadPricePerTokenPriority := v |>.
Definition set_image (ch : ChannelModelPricing) (p : ModelPricing) : ModelPricing :=
  p <| ImageOutputPricePerToken := default f64_zero (ImageOutputPrice ch) |> <| ImageOutputPriceExplicit := true |>.

Definition set_flat_prices (ch : ChannelModelPricing) (p : ModelPricing) : ModelPricing :=
  set_image ch (set_price (CacheReadPrice ch) set_cache_read (set_price (CacheWritePrice ch) set_cache_write
    (set_price (OutputPrice ch) set_output (set_price (InputPrice ch) set_input p)))).

(** ** Costs *)

Definition shouldApplySessionLongContextPricing (tokens : UsageTokens) (pricing : ModelPricing) : bool :=
  if LongContextInputThreshold pricing <=? 0 then false
  else if SFleb (LongContextInputMultiplier pricing) f64_one && SFleb (LongContextOutputMultiplier pricing) f64_one then false
  else LongContextInputThreshold pricing <?
       add64 (add64 (InputTokens tokens) (CacheCreationTokens tokens)) (CacheReadTokens tokens).

Definition computeCacheCreationCost (pricing : ModelPricing) (tokens : UsageTokens) (price multiplier : float64) : float64 :=
  if SupportsCacheBreakdown pricing && (positive (CacheCreation5mPrice pricing) || positive (CacheCreation1hPrice pricing)) then
    if (CacheCreation5mTokens tokens =? 0) && (CacheCreation1hTokens tokens =? 0) && (0 <? CacheCreationTokens tokens)
    then f64_of_Z (CacheCreationTokens tokens) ⊗ CacheCreation5mPrice pricing ⊗ multiplier
    else f64_of_Z (CacheCreation5mTokens tokens) ⊗ CacheCreation5mPrice pricing ⊗ multiplier ⊕
         f64_of_Z (CacheCreation1hTokens tokens) ⊗ CacheCreation1hPrice pricing ⊗ multiplier
  else f64_of_Z (CacheCreationTokens tokens) ⊗ price ⊗ multiplier.

(** A price and its multiplier in a tier: the price of the priority tier, if
    there is one, is not multiplied. *)
Definition tiered (tier : string) (multiplier price priority : float64) : float64 * float64 :=
  if tier =s? "priority" then if positive priority then (priority, f64_one) else (price, multiplier)
  else if tier =s? "flex" then (price, multiplier)
  else (price, f64_one).

Definition computeTokenBreakdown (pricing : ModelPricing) (tokens : UsageTokens) (rateMultiplier : float64) (serviceTier : string)
    (applyLongCtx : bool) : CostBreakdown :=
  let rateMultiplier := clamp rateMultiplier in
  let tier := normalizeBillingServiceTier serviceTier in
  let price_in := tiered tier (serviceTierCostMultiplier serviceTier) in
  let '(inputPrice, inputTierMultiplier) := price_in (InputPricePerToken pricing) (InputPricePerTokenPriority pricing) in
  let '(outputPrice, outputTierMultiplier) := price_in (OutputPricePerToken pricing) (OutputPricePerTokenPriority pricing) in
  let '(cacheReadPrice, cacheReadTierMultiplier) := price_in (CacheReadPricePerToken pricing) (CacheReadPricePerTokenPriority pricing) in
  let '(cacheCreationPrice, cacheCreationTierMultiplier) :=
    price_in (CacheCreationPricePerToken pricing) (CacheCreationPricePerTokenPriority pricing) in
  let imageOutputTierMultiplier :=
    if in_list tier ["priority"; "flex"] then serviceTierCostMultiplier serviceTier else f64_one in
  let long := applyLongCtx && shouldApplySessionLongContextPricing tokens pricing in
  let lengthened multiplier price := if long then price ⊗ multiplier else price in
  let inputPrice := lengthened (LongContextInputMultiplier pricing) inputPrice in
  let outputPrice := lengthened (LongContextOutputMultiplier pricing) outputPrice in
  let cacheReadPrice := lengthened (LongContextInputMultiplier pricing) cacheReadPrice in
  let cacheCreationLongContextMultiplier := if long then LongContextInputMultiplier pricing else f64_one in
  let inputCost := f64_of_Z (InputTokens tokens) ⊗ inputPrice ⊗ inputTierMultiplier in
  let textOutputTokens := Z.max 0 (sub64 (OutputTokens tokens) (ImageOutputTokens tokens)) in
  let outputCost := f64_of_Z textOutputTokens ⊗ outputPrice ⊗ outputTierMultiplier in
  let imageOutputCost :=
    if 0 <? ImageOutputTokens tokens then
      let imgPrice := ImageOutputPricePerToken pricing in
      let imgPrice := if SFeqb imgPrice f64_zero && negb (ImageOutputPriceExplicit pricing) then outputPrice else imgPrice in
      f64_of_Z (ImageOutputTokens tokens) ⊗ imgPrice ⊗ imageOutputTierMultiplier
    else f64_zero in
  let cacheCreationCost :=
    computeCacheCreationCost pricing tokens cacheCreationPrice cacheCreationLongContextMultiplier ⊗ cacheCreationTierMultiplier in
  let cacheReadCost := f64_of_Z (CacheReadTokens tokens) ⊗ cacheReadPrice ⊗ cacheReadTierMultiplier in
  let totalCost := inputCost ⊕ outputCost ⊕ imageOutputCost ⊕ cacheCreationCost ⊕ cacheReadCost in
  mkCostBreakdown inputCost outputCost imageOutputCost cacheCreationCost cacheReadCost totalCost (totalCost ⊗ rateMultiplier) "".

(** ** Resolved prices (model_pricing_resolver.go) *)

Definition PricingSourceChannel : string := "channel".
Definition PricingSourceLiteLLM : string := "litellm".
Definition PricingSourceFallback : string := "fallback".

Record ResolvedPricing : Type := mkResolvedPricing {
  rp_Mode : string;
  BasePricing : option price_ref;
  rp_Intervals : list PricingInterval;
  RequestTiers : list PricingInterval;
  DefaultPerRequestPrice : float64;
  Source : string;
  rp_SupportsCacheBreakdown : bool;
  channelPricing : option ChannelModelPricing;
}.
#[export] Instance eta_ResolvedPricing : Settable ResolvedPricing := fun r =>
  mkResolvedPricing (rp_Mode r) (BasePricing r) (rp_Intervals r) (RequestTiers r) (DefaultPerRequestPrice r) (Source r)
    (rp_SupportsCacheBreakdown r) (channelPricing r).

Definition filterValidIntervals (intervals : list PricingInterval) : list PricingInterval := List.filter has_price intervals.

Definition applyTokenOverrides (ch : ChannelModelPricing) (resolved : ResolvedPricing) : ST store ResolvedPricing :=
  let validIntervals := filterValidIntervals (Intervals ch) in
  let base := default (Own zero_ModelPricing) (BasePricing resolved) in
  match validIntervals with
  | [] => base ← assign (set_flat_prices ch) base; mret (resolved <| BasePricing := Some base |>)
  | _ => base ← assign (set_image ch) base; mret (resolved <| rp_Intervals := validIntervals |> <| BasePricing := Some base |>)
  end.

Definition applyRequestTierOverrides (ch : ChannelModelPricing) (resolved : ResolvedPricing) : ResolvedPricing :=
  let resolved := resolved <| RequestTiers := filterValidIntervals (Intervals ch) |> in
  match PerRequestPrice ch with Some price => resolved <| DefaultPerRequestPrice := price |> | None => resolved end.

Definition mode_or_token (mode : string) : string := if mode =s? "" then BillingModeToken else mode.

Definition intervalToModelPricing (iv : PricingInterval) (supportsCacheBreakdown : bool) (ch : option ChannelModelPricing) : ModelPricing :=
  let p := zero_ModelPricing <| SupportsCacheBreakdown := supportsCacheBreakdown |> in
  let p := set_price (iv_CacheReadPrice iv) set_cache_read (set_price (iv_CacheWritePrice iv) set_cache_write
    (set_price (iv_OutputPrice iv) set_output (set_price (iv_InputPrice iv) set_input p))) in
  match ch with Some ch => set_image ch p | None => p end.

Definition GetIntervalPricing (resolved : ResolvedPricing) (totalContextTokens : Z) : option price_ref :=
  match FindMatchingInterval (rp_Intervals resolved) totalContextTokens with
  | Some iv => Some (Own (intervalToModelPricing iv (rp_SupportsCacheBreakdown resolved) (channelPricing resolved)))
  | None => BasePricing resolved
  end.

Definition GetRequestTierPrice (resolved : ResolvedPricing) (tierLabel : string) : float64 :=
  default f64_zero (tier ← List.find (fun tier => (TierLabel tier =s? tierLabel) && is_some (iv_PerRequestPrice tier)) (RequestTiers resolved);
    iv_PerRequestPrice tier).

Definition GetRequestTierPriceByContext (resolved : ResolvedPricing) (totalContextTokens : Z) : float64 :=
  default f64_zero (iv ← FindMatchingInterval (RequestTiers resolved) totalContextTokens; iv_PerRequestPrice iv).

(** ** The service

    [pricingService] is the price file, if there is one, and [order] the order
    in which a lookup ranges over it. *)

Section Service.
Context (pricingService : option pricing_map).
Context (order : nat -> list (string * PricingService.LiteLLMModelPricing) -> list (string * PricingService.LiteLLMModelPricing)).

Definition file_price (model : string) : option PricingService.LiteLLMModelPricing :=
  data ← pricingService; PricingService.GetModelPricing data order model.

Definition pricing_of_file (l : PricingService.LiteLLMModelPricing) : ModelPricing :=
  let price5m := PricingService.CacheCreationInputTokenCost l in
  let price1h := PricingService.CacheCreationInputTokenCostAbove1hr l in
  zero_ModelPricing
    <| InputPricePerToken := PricingService.InputCostPerToken l |>
    <| InputPricePerTokenPriority := PricingService.InputCostPerTokenPriority l |>
    <| OutputPricePerToken := PricingService.OutputCostPerToken l |>
    <| OutputPricePerTokenPriority := PricingService.OutputCostPerTokenPriority l |>
    <| CacheCreationPricePerToken := price5m |>
    <| CacheCreationPricePerTokenPriority := PricingService.CacheCreationInputTokenCostPriority l |>
    <| CacheReadPricePerToken := PricingService.CacheReadInputTokenCost l |>
    <| CacheReadPricePerTokenPriority := PricingService.CacheReadInputTokenCostPriority l |>
    <| CacheCreation5mPrice := price5m |>
    <| CacheCreation1hPrice := price1h |>
    <| SupportsCacheBreakdown := positive price1h && SFltb price5m price1h |>
    <| LongContextInputThreshold := PricingService.LongContextInputTokenThreshold l |>
    <| LongContextInputMultiplier := PricingService.LongContextInputCostMultiplier l |>
    <| LongContextOutputMultiplier := PricingService.LongContextOutputCostMultiplier l |>
    <| ImageOutputPricePerToken := PricingService.OutputCostPerImageToken l |>.

Definition GetModelPricing (model : string) : ST store (result price_ref) :=
  let model := ToLower model in
  match file_price model with
  | Some l => r ← applyModelSpecificPricingPolicy model (Own (pricing_of_file l)); mret (Ok r)
  | None =>
      match getFallbackPricing model with
      | Some fallback => r ← applyModelSpecificPricingPolicy model fallback; mret (Ok r)
      | None => mret (Err (ErrMsg ("pricing not found for model: " +:+ model)))
      end
  end.

Definition GetModelPricingWithChannel (model : string) (channelPricing : option ChannelModelPricing) : ST store (result price_ref) :=
  pricing ← GetModelPricing model;
  match pricing, channelPricing with
  | Ok r, Some ch => s ← st_get; mret (Ok (Own (set_flat_prices ch (deref s r))))
  | _, _ => mret pricing
  end.

Definition calculateCostInternal (model : string) (tokens : UsageTokens) (rateMultiplier : float64) (serviceTier : string)
    (channelPricing : option ChannelModelPricing) : ST store (result CostBreakdown) :=
  pricing ← (if is_some channelPricing then GetModelPricingWithChannel model channelPricing else GetModelPricing model);
  match pricing with
  | Ok r => s ← st_get; mret (Ok (computeTokenBreakdown (deref s r) tokens rateMultiplier serviceTier true))
  | Err e => mret (Err e)
  end.

Definition CalculateCost (model : string) (tokens : UsageTokens) (rateMultiplier : float64) : ST store (result CostBreakdown) :=
  calculateCostInternal model tokens rateMultiplier "" None.
Definition CalculateCostWithServiceTier (model : string) (tokens : UsageTokens) (rateMultiplier : float64) (serviceTier : string)
  : ST store (result CostBreakdown) := calculateCostInternal model tokens rateMultiplier serviceTier None.

(** [defaultMultiplier]: the configured one. *)
Definition CalculateCostWithConfig (defaultMultiplier : float64) (model : string) (tokens : UsageTokens) : ST store (result CostBreakdown) :=
  CalculateCost model tokens (if not_positive defaultMultiplier then f64_one else defaultMultiplier).

Definition GetEstimatedCost (defaultMultiplier : float64) (model : string) (estimatedInputTokens estimatedOutputTokens : Z)
  : ST store (result float64) :=
  breakdown ← CalculateCostWithConfig defaultMultiplier model
    (zero_UsageTokens <| InputTokens := estimatedInputTokens |> <| OutputTokens := estimatedOutputTokens |>);
  mret (ActualCost <$> breakdown).

(** The tokens within the threshold and those beyond it. *)
Definition split_tokens (tokens : UsageTokens) (threshold : Z) : UsageTokens * UsageTokens :=
  if threshold <=? CacheReadTokens tokens then
    (tokens <| InputTokens := 0 |> <| CacheReadTokens := threshold |>,
     zero_UsageTokens <| InputTokens := InputTokens tokens |> <| CacheReadTokens := sub64 (CacheReadTokens tokens) threshold |>)
  else
    let inRangeInputTokens := sub64 threshold (CacheReadTokens tokens) in
    (tokens <| InputTokens := inRangeInputTokens |>,
     zero_UsageTokens <| InputTokens := sub64 (InputTokens tokens) inRangeInputTokens |>).

(** When the second price is not found, the first cost is returned with the error. *)
Definition CalculateCostWithLongContext (model : string) (tokens : UsageTokens) (rateMultiplier : float64) (threshold : Z)
    (extraMultiplier : float64) : ST store (result CostBreakdown) :=
  if (threshold <=? 0) || SFleb extraMultiplier f64_one then CalculateCost model tokens rateMultiplier else
  if add64 (CacheReadTokens tokens) (InputTokens tokens) <=? threshold then CalculateCost model tokens rateMultiplier else
  let '(inRangeTokens, outRangeTokens) := split_tokens tokens threshold in
  inRange ← CalculateCost model inRangeTokens rateMultiplier;
  match inRange with
  | Err e => mret (Err e)
  | Ok inRangeCost =>
      outRange ← CalculateCost model outRangeTokens (rateMultiplier ⊗ extraMultiplier);
      match outRange with
      | Err e => mret (Err (ErrWrap "out-range cost" e))
      | Ok outRangeCost =>
          mret (Ok (mkCostBreakdown
            (InputCost inRangeCost ⊕ InputCost outRangeCost) (OutputCost inRangeCost) (ImageOutputCost inRangeCost)
            (CacheCreationCost inRangeCost) (CacheReadCost inRangeCost ⊕ CacheReadCost outRangeCost)
            (TotalCost inRangeCost ⊕ TotalCost outRangeCost) (ActualCost inRangeCost ⊕ ActualCost outRangeCost) ""))
      end
  end.

(** ** Resolving *)

Definition resolveBasePricing (model : string) : ST store (option price_ref * string) :=
  pricing ← GetModelPricing model;
  match pricing with
  | Ok r => mret (Some r, PricingSourceLiteLLM)
  | Err _ => mret (None, PricingSourceFallback)
  end.

(** [ch], the channel's price as it is found, and [ch'], as a second lookup
    finds it; [grouped]: a group is given. *)
Definition applyChannelOverrides (ch : option ChannelModelPricing) (resolved : ResolvedPricing) : ST store ResolvedPricing :=
  match ch with
  | None => mret resolved
  | Some ch =>
      let mode := mode_or_token (cp_BillingMode ch) in
      let resolved := resolved <| Source := PricingSourceChannel |> <| channelPricing := Some ch |> <| rp_Mode := mode |> in
      if mode =s? BillingModeToken then applyTokenOverrides ch resolved
      else if per_request_mode mode then mret (applyRequestTierOverrides ch resolved)
      else mret resolved
  end.

(** A resolver that does not ask a channel gets [None] for [group]; otherwise
    the group and two snapshots of the channels, for two lookups. *)
Definition Resolve (model : string) (group : option (Z * (option channelCache * option channelCache))) : ST store ResolvedPricing :=
  let chPricing := '(gid, (first, _)) ← group; GetChannelModelPricing first gid model in
  let mode := mode_or_token (default "" (cp_BillingMode <$> chPricing)) in
  match chPricing with
  | Some ch =>
      if per_request_mode mode then
        mret (applyRequestTierOverrides ch
          (mkResolvedPricing mode None [] [] f64_zero PricingSourceChannel false (Some ch)))
      else
        '(basePricing, _) ← resolveBasePricing model;
        s ← st_get;
        applyTokenOverrides ch
          (mkResolvedPricing BillingModeToken basePricing [] [] f64_zero PricingSourceChannel
            (default false (SupportsCacheBreakdown ∘ deref s <$> basePricing)) (Some ch))
  | None =>
      '(basePricing, source) ← resolveBasePricing model;
      s ← st_get;
      let resolved := mkResolvedPricing BillingModeToken basePricing [] [] f64_zero source
        (default false (SupportsCacheBreakdown ∘ deref s <$> basePricing)) None in
      match group with
      | Some (gid, (_, second)) => applyChannelOverrides (GetChannelModelPricing second gid model) resolved
      | None => mret resolved
      end
  end.

(** ** The unified entry *)

Record CostInput : Type := mkCostInput {
  ci_Model : string;
  ci_Tokens : UsageTokens;
  RequestCount : Z;
  SizeTier : string;
  RateMultiplier : float64;
  ci_ServiceTier : string;
  Resolved : option ResolvedPricing;
}.

Definition context_tokens (tokens : UsageTokens) : Z :=
  add64 (add64 (InputTokens tokens) (CacheCreationTokens tokens)) (CacheReadTokens tokens).

Definition calculateTokenCost (resolved : ResolvedPricing) (input : CostInput) (rate : float64) : ST store (result CostBreakdown) :=
  match GetIntervalPricing resolved (context_tokens (ci_Tokens input)) with
  | None => mret (Err (ErrMsg ("no pricing available for model: " +:+ ci_Model input)))
  | Some pricing =>
      pricing ← applyModelSpecificPricingPolicy (ci_Model input) pricing;
      s ← st_get;
      mret (Ok (computeTokenBreakdown (deref s pricing) (ci_Tokens input) rate (ci_ServiceTier input)
        (length (rp_Intervals resolved) =? 0)%nat))
  end.

Definition or_else (a b : float64) : float64 := if SFeqb a f64_zero then b else a.

Definition calculatePerRequestCost (resolved : ResolvedPricing) (input : CostInput) (rate : float64) : CostBreakdown :=
  let count := if RequestCount input <=? 0 then 1 else RequestCount input in
  let unitPrice := if SizeTier input <>s? "" then GetRequestTierPrice resolved (SizeTier input) else f64_zero in
  let unitPrice := or_else unitPrice (GetRequestTierPriceByContext resolved (context_tokens (ci_Tokens input))) in
  let unitPrice := or_else unitPrice (DefaultPerRequestPrice resolved) in
  let totalCost := unitPrice ⊗ f64_of_Z count in
  zero_CostBreakdown <| TotalCost := totalCost |> <| ActualCost := totalCost ⊗ rate |>.

(** With a resolver, asked for the group when nothing is resolved yet; [None]: no resolver. *)
Definition CalculateCostUnified (resolver : option (option (Z * (option channelCache * option channelCache)))) (input : CostInput)
  : ST store (result CostBreakdown) :=
  match resolver with
  | None => calculateCostInternal (ci_Model input) (ci_Tokens input) (RateMultiplier input) (ci_ServiceTier input) None
  | Some group =>
      resolved ← (match Resolved input with Some r => mret r | None => Resolve (ci_Model input) group end);
      let rate := clamp (RateMultiplier input) in
      breakdown ← (if per_request_mode (rp_Mode resolved) then mret (Ok (calculatePerRequestCost resolved input rate))
                   else calculateTokenCost resolved input rate);
      mret ((fun b : CostBreakdown => b <| BillingMode := mode_or_token (rp_Mode resolved) |>) <$> breakdown)
  end.

(** ** Images *)

Record ImagePriceConfig : Type := mkImagePrices { Price1K : option float64; Price2K : option float64; Price4K : option float64 }.

Definition getDefaultImagePrice (model imageSize : string) : float64 :=
  let basePrice :=
    match file_price model with
    | Some l => let price := PricingService.OutputCostPerImage l in if positive price then price else f64_zero
    | None => f64_zero
    end in
  let basePrice := if not_positive basePrice then constant 134 (-3) else basePrice in
  if imageSize =s? "2K" then basePrice ⊗ constant 15 (-1)
  else if imageSize =s? "4K" then basePrice ⊗ f64_two
  else basePrice.

Definition getImageUnitPrice (model imageSize : string) (groupConfig : option ImagePriceConfig) : float64 :=
  let configured :=
    c ← groupConfig;
    if imageSize =s? "1K" then Price1K c else if imageSize =s? "2K" then Price2K c
    else if imageSize =s? "4K" then Price4K c else None in
  default (getDefaultImagePrice model imageSize) configured.

Definition CalculateImageCost (model imageSize : string) (imageCount : Z) (groupConfig : option ImagePriceConfig) (rateMultiplier : float64)
  : CostBreakdown :=
  if imageCount <=? 0 then zero_CostBreakdown else
  let totalCost := getImageUnitPrice model imageSize groupConfig ⊗ f64_of_Z imageCount in
  zero_CostBreakdown <| TotalCost := totalCost |> <| ActualCost := totalCost ⊗ clamp rateMultiplier |>
                     <| BillingMode := BillingModeImage |>.

(** [apiKey.Group], as far as it sets a rate for images. *)
Definition resolveImageRateMultiplier (independent : option (bool * float64)) (effectiveGroupMultiplier : float64) : float64 :=
  match independent with
  | Some (true, rate) => clamp rate
  | _ => effectiveGroupMultiplier
  end.

End Service.

(** * What a request costs the account (service/account_stats_pricing.go)

    Statistics of accounts may price a request differently from what the customer
    pays: by rules of the channel, by what the customer is charged, or by the price
    file. *)

(** ** The rules of a channel *)

Definition matchAccountStatsRule (rule : AccountStatsPricingRule) (accountID groupID : Z) : bool :=
  existsb (Z.eqb accountID) (rule_AccountIDs rule) || existsb (Z.eqb groupID) (rule_GroupIDs rule).

Definition isPlatformMatch (queryPlatform pricingPlatform : string) : bool :=
  (queryPlatform =s? "") || (pricingPlatform =s? "") || (queryPlatform =s? pricingPlatform).

Definition lists_model (modelLower : string) (p : ChannelModelPricing) : bool := existsb (fun m => ToLower m =s? modelLower) (Models p).

Definition matches_wildcard (modelLower : string) (p : ChannelModelPricing) : bool :=
  existsb (fun m => match cut_suffix (ToLower m) "*" with Some prefix => has_prefix modelLower prefix | None => false end) (Models p).

(** The exact names of all entries come first. *)
Definition findPricingForModel (pricingList : list ChannelModelPricing) (platform modelLower : string) : option ChannelModelPricing :=
  let find test := List.find (fun p => isPlatformMatch platform (Platform p) && test modelLower p) pricingList in
  match find lists_model with Some p => Some p | None => find matches_wildcard end.

(** ** Costs *)

Definition calculatePerRequestStatsCost (pricing : ChannelModelPricing) (requestCount : Z) : option float64 :=
  match PerRequestPrice pricing with
  | Some price => if not_positive price then None else Some (price ⊗ f64_of_Z requestCount)
  | None => None
  end.

Definition sum_costs (tokens : UsageTokens) (input output creation read image : float64) : float64 :=
  f64_of_Z (InputTokens tokens) ⊗ input ⊕ f64_of_Z (OutputTokens tokens) ⊗ output ⊕ f64_of_Z (CacheCreationTokens tokens) ⊗ creation ⊕
  f64_of_Z (CacheReadTokens tokens) ⊗ read ⊕ f64_of_Z (ImageOutputTokens tokens) ⊗ image.

Definition if_positive (cost : float64) : option float64 := if not_positive cost then None else Some cost.

(** The prices of an interval replace all of the entry's. *)
Definition calculateTokenStatsCost (pricing : ChannelModelPricing) (tokens : UsageTokens) : option float64 :=
  let price := default f64_zero in
  let totalTokens :=
    add64 (add64 (add64 (InputTokens tokens) (OutputTokens tokens)) (CacheCreationTokens tokens)) (CacheReadTokens tokens) in
  if_positive
    match FindMatchingInterval (Intervals pricing) totalTokens with
    | Some iv => sum_costs tokens (price (iv_InputPrice iv)) (price (iv_OutputPrice iv)) (price (iv_CacheWritePrice iv))
                   (price (iv_CacheReadPrice iv)) f64_zero
    | None => sum_costs tokens (price (InputPrice pricing)) (price (OutputPrice pricing)) (price (CacheWritePrice pricing))
                (price (CacheReadPrice pricing)) (price (ImageOutputPrice pricing))
    end.

Definition calculateStatsCost (pricing : ChannelModelPricing) (tokens : UsageTokens) (requestCount : Z) : option float64 :=
  if per_request_mode (cp_BillingMode pricing) then calculatePerRequestStatsCost pricing requestCount
  else calculateTokenStatsCost pricing tokens.

(** The first rule that applies and has the model decides, even without a cost. *)
Definition tryCustomRules (channel : Channel) (accountID groupID : Z) (platform model : string) (tokens : UsageTokens) (requestCount : Z)
  : option float64 :=
  pricing ← head (omap (fun rule =>
      if matchAccountStatsRule rule accountID groupID then findPricingForModel (rule_Pricing rule) platform (ToLower model) else None)
    (AccountStatsPricingRules channel));
  calculateStatsCost pricing tokens requestCount.

Definition file_cost (pricing : ModelPricing) (tokens : UsageTokens) : option float64 :=
  if_positive (sum_costs tokens (InputPricePerToken pricing) (OutputPricePerToken pricing) (CacheCreationPricePerToken pricing)
    (CacheReadPricePerToken pricing) (ImageOutputPricePerToken pricing)).

Section Stats.
Context (pricingService : option pricing_map).
Context (order : nat -> list (string * PricingService.LiteLLMModelPricing) -> list (string * PricingService.LiteLLMModelPricing)).

Definition tryModelFilePricing (model : string) (tokens : UsageTokens) : ST store (option float64) :=
  pricing ← GetModelPricing pricingService order model;
  match pricing with
  | Ok r => s ← st_get; mret (file_cost (deref s r) tokens)
  | Err _ => mret None
  end.

(** [first] and [second]: the snapshots of the channels for the two lookups. *)
Definition resolveAccountStatsCost (first second : option channelCache) (accountID groupID : Z) (upstreamModel : string)
    (tokens : UsageTokens) (requestCount : Z) (totalCost : float64) : ST store (option float64) :=
  if upstreamModel =s? "" then mret None else
  match GetChannelForGroup first groupID with
  | None => mret None
  | Some channel =>
      match tryCustomRules channel accountID groupID (GetGroupPlatform second groupID) upstreamModel tokens requestCount with
      | Some cost => mret (Some cost)
      | None =>
          if ApplyPricingToAccountStats channel then mret (if_positive totalCost)
          else tryModelFilePricing upstreamModel tokens
      end
  end.

(** [applyAccountStatsCost]: what it stores in the log. *)
Definition accountStatsCost (first second : option channelCache) (accountID groupID : Z) (upstreamModel requestedModel : string)
    (tokens : UsageTokens) (totalCost : float64) : ST store (option float64) :=
  resolveAccountStatsCost first second accountID groupID (if upstreamModel =s? "" then requestedModel else upstreamModel) tokens 1 totalCost.

End Stats.
