(* ===== verification/BillingSpec.v ===== *)
(** * What requests cost

    Costs are not negative, the unified calculation agrees with the older one, and
    who is charged what by the price of whom: prices of the file are never
    touched, while a channel's price is written into the shared fallback table. *)

From Stdlib Require Import Floats.SpecFloat.
From S2P Require Import Prelude GoStrings AppErrors PaymentData ModelNames Channels ChannelsSpec BillingService.
From S2P Require PricingService.

#[local] Opaque PricingService.constant openAIGPT54LongContextInputMultiplier openAIGPT54LongContextOutputMultiplier.

(** ** Doubles that are not negative *)

Definition nonneg (x : float64) : bool := negb (SFltb x f64_zero).

Lemma nonneg_cases x : nonneg x = true ->
  x = S754_nan \/ (exists s, x = S754_zero s) \/ x = S754_infinity false \/ exists m e, x = S754_finite false m e.
Proof. destruct x as [s|[]| |[] m e]; try done; eauto 10. Qed.

Lemma round_nonneg m e l : nonneg (binary_round_aux 53 1024 false m e l) = true.
Proof.
  unfold binary_round_aux. destruct (shr_fexp 53 1024 m e l) as [r e1]. destruct (shr_fexp _ _ _ e1 _) as [r2 e2].
  destruct (shr_m r2); [done|destruct (e2 <=? _); done|done].
Qed.

Lemma normalize_nonneg m e s : 0 <= m -> nonneg (binary_normalize 53 1024 m e s) = true.
Proof.
  intros Hm. destruct m as [|p|p]; [by destruct s| |lia]. cbn. unfold binary_round.
  destruct (shl_align _ _ _). apply round_nonneg.
Qed.

Lemma nonneg_mul x y : nonneg x = true -> nonneg y = true -> nonneg (x ⊗ y) = true.
Proof.
  intros Hx Hy. apply nonneg_cases in Hx as [->|[[s ->]|[->|(m & e & ->)]]], Hy as [->|[[t ->]|[->|(n & d & ->)]]]; try done;
    try (by destruct s); try (by destruct t); try (by destruct s, t).
  unfold f64_mul. cbn -[binary_round_aux]. apply round_nonneg.
Qed.

Lemma nonneg_add x y : nonneg x = true -> nonneg y = true -> nonneg (x ⊕ y) = true.
Proof.
  intros Hx Hy. apply nonneg_cases in Hx as [->|[[s ->]|[->|(m & e & ->)]]], Hy as [->|[[t ->]|[->|(n & d & ->)]]]; try done;
    try (by destruct s); try (by destruct t); try (by destruct s, t).
  unfold f64_add. cbn -[binary_normalize]. apply normalize_nonneg. unfold cond_Zopp. lia.
Qed.

Lemma nonneg_of_Z z : 0 <= z -> nonneg (f64_of_Z z) = true.
Proof. intros Hz. by apply normalize_nonneg. Qed.

Lemma nonneg_clamp x : nonneg (clamp x) = true.
Proof. unfold clamp, nonneg. destruct (SFltb x f64_zero) eqn:E; [done|]. by rewrite E. Qed.

Lemma positive_nonneg x : positive x = true -> nonneg x = true.
Proof. destruct x as [s|[]| |[] m e]; done. Qed.

Create HintDb costs.
#[export] Hint Resolve nonneg_mul nonneg_add nonneg_of_Z nonneg_clamp positive_nonneg : costs.

(** ** Costs are not negative *)

Record fair (p : ModelPricing) : Prop := mkFair {
  fair_input : nonneg (InputPricePerToken p) = true;
  fair_output : nonneg (OutputPricePerToken p) = true;
  fair_creation : nonneg (CacheCreationPricePerToken p) = true;
  fair_read : nonneg (CacheReadPricePerToken p) = true;
  fair_5m : nonneg (CacheCreation5mPrice p) = true;
  fair_1h : nonneg (CacheCreation1hPrice p) = true;
  fair_long_input : nonneg (LongContextInputMultiplier p) = true;
  fair_long_output : nonneg (LongContextOutputMultiplier p) = true;
  fair_image : nonneg (ImageOutputPricePerToken p) = true }.
#[export] Hint Resolve fair_input fair_output fair_creation fair_read fair_5m fair_1h fair_long_input fair_long_output fair_image : costs.

Definition counted (t : UsageTokens) : Prop :=
  0 <= InputTokens t /\ 0 <= OutputTokens t /\ 0 <= CacheCreationTokens t /\ 0 <= CacheReadTokens t /\
  0 <= CacheCreation5mTokens t /\ 0 <= CacheCreation1hTokens t.

Definition costs (b : CostBreakdown) : list float64 :=
  [InputCost b; OutputCost b; ImageOutputCost b; CacheCreationCost b; CacheReadCost b; TotalCost b; ActualCost b].

Lemma tier_multiplier_nonneg tier : nonneg (serviceTierCostMultiplier tier) = true.
Proof. unfold serviceTierCostMultiplier. by repeat destruct (_ =s? _). Qed.

Lemma tiered_nonneg tier multiplier price priority : nonneg price = true -> nonneg multiplier = true ->
  nonneg (fst (tiered tier multiplier price priority)) = true /\ nonneg (snd (tiered tier multiplier price priority)) = true.
Proof.
  intros Hp Hm. unfold tiered. destruct (_ =s? _); [destruct (positive priority) eqn:E|destruct (_ =s? _)]; cbn; auto with costs.
Qed.

Lemma creation_nonneg p t price multiplier : fair p -> counted t -> nonneg price = true -> nonneg multiplier = true ->
  nonneg (computeCacheCreationCost p t price multiplier) = true.
Proof.
  intros Hp (_ & _ & Hc & _ & H5 & H1) Hpr Hm. unfold computeCacheCreationCost.
  destruct (_ && _); [destruct (_ && _)|]; auto 8 with costs.
Qed.

Definition fair_cost (b : CostBreakdown) : Prop := Forall (fun x => nonneg x = true) (costs b).

Lemma breakdown_fair p t rate tier long : fair p -> counted t -> fair_cost (computeTokenBreakdown p t rate tier long).
Proof.
  intros Hp Ht.
  unfold computeTokenBreakdown. pose proof (tier_multiplier_nonneg tier) as Hm. set (mult := serviceTierCostMultiplier tier) in *.
  set (tn := normalizeBillingServiceTier tier).
  destruct (tiered_nonneg tn mult (InputPricePerToken p) (InputPricePerTokenPriority p)) as [Hi Hi']; [auto with costs..|].
  destruct (tiered_nonneg tn mult (OutputPricePerToken p) (OutputPricePerTokenPriority p)) as [Ho Ho']; [auto with costs..|].
  destruct (tiered_nonneg tn mult (CacheReadPricePerToken p) (CacheReadPricePerTokenPriority p)) as [Hr Hr']; [auto with costs..|].
  destruct (tiered_nonneg tn mult (CacheCreationPricePerToken p) (CacheCreationPricePerTokenPriority p)) as [Hc Hc']; [auto with costs..|].
  destruct (tiered tn mult (InputPricePerToken p) _) as [ip im], (tiered tn mult (OutputPricePerToken p) _) as [op om],
    (tiered tn mult (CacheReadPricePerToken p) _) as [rp rm], (tiered tn mult (CacheCreationPricePerToken p) _) as [cp cm]. cbn [fst snd] in *.
  set (lg := long && _). set (im' := if in_list tn _ then _ else _).
  assert (Him : nonneg im' = true) by (subst im'; by destruct (in_list _ _)).
  assert (Hlong : forall m x, nonneg m = true -> nonneg x = true -> nonneg (if lg then x ⊗ m else x) = true) by (intros; destruct lg; auto with costs).
  assert (Hin : nonneg (f64_of_Z (InputTokens t) ⊗ (if lg then ip ⊗ LongContextInputMultiplier p else ip) ⊗ im) = true)
    by (destruct Ht as (? & _); auto with costs).
  set (op' := if lg then op ⊗ _ else op). assert (Hop : nonneg op' = true) by (apply Hlong; auto with costs).
  assert (Hout : nonneg (f64_of_Z (Z.max 0 (sub64 (OutputTokens t) (ImageOutputTokens t))) ⊗ op' ⊗ om) = true) by (auto 6 using Z.le_max_l with costs).
  set (img := if 0 <? ImageOutputTokens t then _ else _). assert (Himg : nonneg img = true).
  { subst img. destruct (Z.ltb_spec 0 (ImageOutputTokens t)); [|done]. destruct (SFeqb _ _ && _); auto 6 using Z.lt_le_incl with costs. }
  set (cr := computeCacheCreationCost _ _ _ _). assert (Hcr : nonneg (cr ⊗ cm) = true).
  { apply nonneg_mul; [|done]. apply creation_nonneg; auto. by destruct lg; auto with costs. }
  set (rd := f64_of_Z (CacheReadTokens t) ⊗ _ ⊗ rm). assert (Hrd : nonneg rd = true).
  { subst rd. destruct Ht as (_ & _ & _ & ? & _). auto with costs. }
  unfold fair_cost, costs. cbn. repeat (constructor; [auto 10 with costs|]). constructor.
Qed.

(** Whatever the tier and the rate, no cost is below zero if no price is. *)
Theorem costs_not_negative p t rate tier long : fair p -> counted t ->
  Forall (fun x => SFltb x f64_zero = false) (costs (computeTokenBreakdown p t rate tier long)).
Proof.
  intros Hp Ht. eapply Forall_impl; [exact (breakdown_fair p t rate tier long Hp Ht)|]. intros x. unfold nonneg. by rewrite negb_true_iff.
Qed.

(** ** Prices that are not negative stay so *)

Lemma nonneg_125 : nonneg (constant 125 (-2)) = true.
Proof. by vm_compute. Qed.
#[export] Hint Resolve nonneg_125 : costs.

Lemma fair_zero : fair zero_ModelPricing.
Proof. by constructor. Qed.

Ltac keep_fair := intros Hp; constructor; cbn; auto with costs.

Lemma fair_input_set v p : nonneg v = true -> fair p -> fair (set_input v p).
Proof. intros Hv. keep_fair. Qed.
Lemma fair_output_set v p : nonneg v = true -> fair p -> fair (set_output v p).
Proof. intros Hv. keep_fair. Qed.
Lemma fair_write_set v p : nonneg v = true -> fair p -> fair (set_cache_write v p).
Proof. intros Hv. keep_fair. Qed.
Lemma fair_read_set v p : nonneg v = true -> fair p -> fair (set_cache_read v p).
Proof. intros Hv. keep_fair. Qed.

Lemma fill_policy_fair b p : fair p -> fair (fill_policy b p).
Proof.
  intros Hp. constructor; cbn -[f64_mul not_positive Z.leb]; repeat case_match; auto with costs.
Qed.

(** What a price, if it is set, satisfies. *)
Definition fair_price (o : option float64) : Prop := negative o = false.

Lemma fair_set o set p : (forall v q, nonneg v = true -> fair q -> fair (set v q)) -> fair_price o -> fair p -> fair (set_price o set p).
Proof. intros Hs Ho Hp. destruct o as [v|]; [|done]. apply Hs; [|done]. unfold nonneg. by rewrite Ho. Qed.

Record fair_channel (ch : ChannelModelPricing) : Prop := mkFairChannel {
  fc_prices : Forall (fun p => fair_price (snd p)) (channel_prices ch);
  fc_intervals : Forall (fun iv => Forall (fun p => fair_price (snd p)) (interval_prices iv)) (Intervals ch) }.

Lemma fair_image_set ch p : fair_price (ImageOutputPrice ch) -> fair p -> fair (set_image ch p).
Proof.
  unfold fair_price, set_image. intros Hi. keep_fair. destruct (ImageOutputPrice ch) as [v|]; [|done]. unfold nonneg. cbn in *. by rewrite Hi.
Qed.

Lemma set_flat_prices_fair ch p : fair_channel ch -> fair p -> fair (set_flat_prices ch p).
Proof.
  intros [Hc _] Hp. repeat (apply Forall_cons in Hc as [? Hc]). cbn in *.
  apply fair_image_set; [done|]. repeat (apply fair_set; [auto using fair_input_set, fair_output_set, fair_write_set, fair_read_set|done|]). done.
Qed.

Lemma interval_fair iv b ch : Forall (fun p => fair_price (snd p)) (interval_prices iv) ->
  (forall c, ch = Some c -> fair_price (ImageOutputPrice c)) -> fair (intervalToModelPricing iv b ch).
Proof.
  intros Hc Hi. repeat (apply Forall_cons in Hc as [? Hc]). cbn in *. unfold intervalToModelPricing.
  assert (Hzero : fair (zero_ModelPricing <| SupportsCacheBreakdown := b |>)) by by constructor.
  destruct ch as [ch|]; [apply fair_image_set; [by apply Hi|]|];
    repeat (apply fair_set; [auto using fair_input_set, fair_output_set, fair_write_set, fair_read_set|done|]); done.
Qed.

(** A configuration that is accepted sets no negative price. *)
Lemma negative_price_None prices : negative_price prices = None -> Forall (fun p => fair_price (snd p)) prices.
Proof.
  unfold negative_price. destruct (List.find _ prices) eqn:E; [done|]. intros _. apply List.Forall_forall. intros p Hp.
  by apply (List.find_none _ _ E).
Qed.

Lemma first_error_None {A} (check : A -> nat -> option string) idx l : first_error check idx l = None ->
  Forall (fun x => exists i, check x i = None) l.
Proof.
  revert idx. induction l as [|x l IH]; intros idx He; constructor; cbn in He; destruct (check x idx) eqn:E; try done; eauto.
Qed.

Lemma accepted_intervals_fair l : ValidateIntervals l = None ->
  Forall (fun iv => Forall (fun p => fair_price (snd p)) (interval_prices iv)) l.
Proof.
  unfold ValidateIntervals. destruct l as [|a l]; [by constructor|]. cbn [length Nat.eqb]. set (sorted := sort_intervals _).
  destruct (first_error _ _ sorted) eqn:E; [done|]. intros _. rewrite <- (sort_intervals_perm (a :: l)). fold sorted.
  eapply Forall_impl; [exact (first_error_None _ _ _ E)|]. intros iv (i & Hi). apply negative_price_None.
  assert (Hp : validateIntervalPrices iv i = None) by (unfold validateSingleInterval in Hi; by repeat case_match).
  unfold validateIntervalPrices in Hp. by destruct (negative_price _).
Qed.

Lemma accepted_fair checking ch p : accepted checking ch -> p ∈ Channels.ModelPricing ch -> fair_channel p.
Proof.
  unfold accepted, validateChannelConfig, validatePricingEntries, validatePricingIntervals, validatePricingBillingMode.
  rewrite !and_then_None, !checked_None, !Forall_forall. intros ((_ & Hi & Hm) & _) Hp. specialize (Hi p Hp). specialize (Hm p Hp).
  rewrite !and_then_None in Hm. destruct Hm as (_ & Hm & _). constructor.
  - apply negative_price_None. unfold checkPricesNotNegative in Hm. by destruct (negative_price _).
  - apply accepted_intervals_fair. by destruct (ValidateIntervals _).
Qed.

(** ** The store *)

Lemma policy_store model r s : snd (applyModelSpecificPricingPolicy model r s) = s.
Proof. unfold applyModelSpecificPricingPolicy. by repeat case_match. Qed.

Definition applies (model : string) : bool :=
  let normalized := normalizeKnownOpenAICodexModel model in isOpenAIGPT56Model normalized || usesOpenAILegacyLongContextPricing normalized.

(** The policy as a function of prices. *)
Definition policy (model : string) (p : ModelPricing) : ModelPricing :=
  let isGPT56 := isOpenAIGPT56Model (normalizeKnownOpenAICodexModel model) in
  if applies model && needs_policy isGPT56 p then fill_policy isGPT56 p else p.

Lemma policy_eq model r s : exists r', applyModelSpecificPricingPolicy model r s = (r', s) /\ deref s r' = policy model (deref s r) /\
  (r' = r \/ exists p, r' = Own p).
Proof.
  unfold applyModelSpecificPricingPolicy, policy, applies. rewrite <- negb_orb. destruct (_ || _); cbn [negb andb]; [|by exists r; auto].
  destruct (needs_policy _ _); eexists; (split; [reflexivity|]); eauto.
Qed.

Lemma if_again {A} (c : A -> bool) x a : (if c (if c a then x else a) then x else if c a then x else a) = if c a then x else a.
Proof. destruct (c a) eqn:E; [by destruct (c x)|by rewrite E]. Qed.

Lemma fill_policy_idempotent b p : fill_policy b (fill_policy b p) = fill_policy b p.
Proof.
  unfold fill_policy. destruct p as [ip ipp op opp cc ccp ex cr crp c5 c1 br lt li lo img imgx].
  cbn -[f64_mul not_positive Z.leb]. rewrite !(if_again not_positive), (if_again (fun t => t <=? 0)). by destruct (b && negb ex);
    cbn [andb]; rewrite ?(if_again not_positive).
Qed.

Lemma policy_idempotent model p : policy model (policy model p) = policy model p.
Proof.
  unfold policy. destruct (applies model); [|done]. cbn [andb]. set (b := isOpenAIGPT56Model _). clearbody b.
  destruct (needs_policy b p) eqn:E; [|by rewrite E]. rewrite fill_policy_idempotent. by destruct (needs_policy b (fill_policy b p)).
Qed.

(** ** The calculations leave the store alone *)

Section Prices.
Context (pricingService : option pricing_map).
Context (order : nat -> list (string * PricingService.LiteLLMModelPricing) -> list (string * PricingService.LiteLLMModelPricing)).

Abbreviation file_price := (file_price pricingService order).
Abbreviation GetModelPricing := (GetModelPricing pricingService order).
Abbreviation CalculateCost := (CalculateCost pricingService order).
Abbreviation calculateCostInternal := (calculateCostInternal pricingService order).
Abbreviation Resolve := (Resolve pricingService order).

(** Where the price of a model is, before the policy. *)
Definition base_price (model : string) : option price_ref :=
  match file_price (ToLower model) with
  | Some l => Some (Own (pricing_of_file l))
  | None => getFallbackPricing (ToLower model)
  end.

Lemma GetModelPricing_eq model s :
  match base_price model with
  | Some r => exists r', GetModelPricing model s = (Ok r', s) /\ deref s r' = policy (ToLower model) (deref s r) /\
      (r' = r \/ exists p, r' = Own p)
  | None => GetModelPricing model s = (Err (ErrMsg ("pricing not found for model: " +:+ ToLower model)), s)
  end.
Proof.
  unfold base_price, BillingService.GetModelPricing. destruct (file_price (ToLower model)) as [l|].
  - destruct (policy_eq (ToLower model) (Own (pricing_of_file l)) s) as (r' & E & Hd & Hr). exists r'. split; [|done].
    unfold mbind, st_bind. by rewrite E.
  - destruct (getFallbackPricing (ToLower model)) as [r|]; [|done].
    destruct (policy_eq (ToLower model) r s) as (r' & E & Hd & Hr). exists r'. split; [|done]. unfold mbind, st_bind. by rewrite E.
Qed.

Lemma cost_eq model tokens rate tier s :
  calculateCostInternal model tokens rate tier None s =
  (match base_price model with
   | Some r => Ok (computeTokenBreakdown (policy (ToLower model) (deref s r)) tokens rate tier true)
   | None => Err (ErrMsg ("pricing not found for model: " +:+ ToLower model))
   end, s).
Proof.
  unfold BillingService.calculateCostInternal, mbind, st_bind. cbn [is_some]. pose proof (GetModelPricing_eq model s) as H.
  destruct (base_price model) as [r|].
  - destruct H as (r' & E & Hd & _). rewrite E. cbn. by rewrite Hd.
  - by rewrite H.
Qed.

Lemma clamp_idempotent x : clamp (clamp x) = clamp x.
Proof. unfold clamp. destruct (SFltb x f64_zero) eqn:E; [done|]. by rewrite E. Qed.

Lemma compute_clamped p t rate tier long : computeTokenBreakdown p t (clamp rate) tier long = computeTokenBreakdown p t rate tier long.
Proof. unfold computeTokenBreakdown. by rewrite clamp_idempotent. Qed.

Lemma policy_lower model p : policy (ToLower model) p = policy model p.
Proof. unfold policy, applies. by rewrite lower_codex. Qed.

(** No channel has a price for the model in the group, in either lookup. *)
Definition without_channel_price (model : string) (group : option (Z * (option channelCache * option channelCache))) : Prop :=
  forall gid first second, group = Some (gid, (first, second)) ->
    GetChannelModelPricing first gid model = None /\ GetChannelModelPricing second gid model = None.

(** C37: Where no channel sets a price for the model in the group of the request,
    the unified calculation is the older one, however the model is spelled: the
    policy, which is applied a second time, changes nothing.  The prices are left
    as they are; a model without a price is refused with another text. *)
Theorem unified_without_channel group input s : without_channel_price (ci_Model input) group -> Resolved input = None ->
  CalculateCostUnified pricingService order (Some group) input s =
  (match fst (CalculateCostWithServiceTier pricingService order (ci_Model input) (ci_Tokens input) (RateMultiplier input)
                (ci_ServiceTier input) s) with
   | Ok b => Ok (b <| BillingMode := BillingModeToken |>)
   | Err _ => Err (ErrMsg ("no pricing available for model: " +:+ ci_Model input))
   end, s).
Proof.
  intros Hg Hr. unfold CalculateCostWithServiceTier. rewrite cost_eq. unfold CalculateCostUnified. rewrite Hr.
  pose proof (GetModelPricing_eq (ci_Model input) s) as H.
  assert (Hplain : forall g, g = None \/ g = group -> Resolve (ci_Model input) g s = Resolve (ci_Model input) None s).
  { intros g [-> | ->]; [done|]. destruct group as [[gid [first second]]|]; [|done]. destruct (Hg gid first second eq_refl) as [H1 H2].
    unfold BillingService.Resolve. cbn [mbind option_bind]. rewrite H1, H2. cbn [fmap option_fmap option_map default from_option].
    unfold mbind, st_bind. by destruct (resolveBasePricing _ _ _ s) as [[b src] s']. }
  unfold mbind at 1, st_bind at 1. rewrite (Hplain group) by by right.
  unfold BillingService.Resolve, resolveBasePricing, mbind, st_bind. cbn [option_bind mbind option_fmap fmap].
  destruct (base_price (ci_Model input)) as [r|].
  - destruct H as (r' & E & Hd & _). rewrite E. cbn. unfold calculateTokenCost, GetIntervalPricing. cbn.
    destruct (policy_eq (ci_Model input) r' s) as (r2 & E2 & Hd2 & _). unfold mbind, st_bind. rewrite E2. cbn.
    by rewrite Hd2, Hd, policy_lower, policy_idempotent, compute_clamped.
  - rewrite H. done.
Qed.

(** ** What a channel's price is written into *)

Lemma assign_own f p s : assign f (Own p) s = (Own (f p), s).
Proof. done. Qed.

(** A price of the file is a copy: whatever the channel sets, the table of
    fallback prices is left alone. *)
Theorem file_prices_isolated model group s : is_some (file_price (ToLower model)) = true -> snd (Resolve model group s) = s.
Proof.
  intros Hf. unfold BillingService.Resolve.
  assert (Hb : exists r, base_price model = Some (Own r)) by (unfold base_price; destruct (file_price (ToLower model)); [by eexists|done]).
  destruct Hb as [r Hb]. pose proof (GetModelPricing_eq model s) as H. rewrite Hb in H. destruct H as (r' & E & _ & Hr).
  assert (Ho : exists p, r' = Own p) by (destruct Hr as [->|Hr]; [by eexists|done]). destruct Ho as [p ->].
  assert (Ht : forall ch x, BasePricing x = Some (Own p) -> snd (applyTokenOverrides ch x s) = s).
  { intros ch x Hx. unfold applyTokenOverrides, mbind, st_bind. rewrite Hx. by destruct (filterValidIntervals _). }
  destruct ('(gid, (first, _)) ← group; GetChannelModelPricing first gid model) as [ch|].
  - destruct (per_request_mode _); [done|]. unfold resolveBasePricing, mbind, st_bind. rewrite E. cbn. by apply Ht.
  - unfold resolveBasePricing, mbind, st_bind. rewrite E. cbn. destruct group as [[gid [first second]]|]; [|done].
    unfold applyChannelOverrides. destruct (GetChannelModelPricing second gid model) as [ch|]; [|done].
    destruct (_ =s? _); [by apply Ht|]. by destruct (per_request_mode _).
Qed.

(** A model without a price in the file, for which the policy has nothing to say:
    the prices a channel sets for it are written into the fallback table. *)
Definition plain_fallback (model place : string) : Prop :=
  file_price (ToLower model) = None /\ getFallbackPricing (ToLower model) = Some (Shared place) /\ applies (ToLower model) = false.

Lemma plain_cost model place tokens rate s : plain_fallback model place ->
  CalculateCost model tokens rate s = (Ok (computeTokenBreakdown (deref s (Shared place)) tokens rate "" true), s).
Proof.
  intros (Hf & Hg & Ha). unfold BillingService.CalculateCost. rewrite cost_eq. unfold base_price. rewrite Hf, Hg. unfold policy. by rewrite Ha.
Qed.

Lemma plain_resolved model place gid first second ch s : plain_fallback model place ->
  GetChannelModelPricing first gid model = Some ch -> cp_BillingMode ch = BillingModeToken -> filterValidIntervals (Intervals ch) = [] ->
  snd (Resolve model (Some (gid, (first, second))) s) = alter (set_flat_prices ch) place s.
Proof.
  intros (Hf & Hg & Ha) Hch Hm Hi. unfold BillingService.Resolve. cbn [mbind option_bind]. rewrite Hch.
  change (default "" (cp_BillingMode <$> Some ch)) with (cp_BillingMode ch). rewrite Hm. cbn.
  unfold resolveBasePricing, mbind, st_bind, BillingService.GetModelPricing. rewrite Hf, Hg. unfold mbind, st_bind.
  assert (E : applyModelSpecificPricingPolicy (ToLower model) (Shared place) s = (Shared place, s)).
  { unfold applyModelSpecificPricingPolicy. unfold applies in Ha. apply orb_false_iff in Ha as [-> ->]. done. }
  rewrite E. cbn. unfold applyTokenOverrides, mbind, st_bind. cbn. rewrite Hi. done.
Qed.

(** C34: The prices a channel sets for the model of one group become the prices of
    every group: after one request of the group, a request for any model with the
    same entry of the table costs what the channel says, with or without a channel
    of its own. *)
Theorem channel_prices_leak model model' place gid first second ch s p tokens rate :
  plain_fallback model place -> plain_fallback model' place ->
  GetChannelModelPricing first gid model = Some ch -> cp_BillingMode ch = BillingModeToken -> filterValidIntervals (Intervals ch) = [] ->
  s !! place = Some p ->
  fst (CalculateCost model' tokens rate s) = Ok (computeTokenBreakdown p tokens rate "" true) /\
  let s' := snd (Resolve model (Some (gid, (first, second))) s) in
  fst (CalculateCost model' tokens rate s') = Ok (computeTokenBreakdown (set_flat_prices ch p) tokens rate "" true).
Proof.
  intros Hp Hp' Hch Hm Hi Hs. rewrite (plain_cost model' place tokens rate s Hp'). cbn [fst deref]. rewrite Hs. split; [done|]. cbv zeta.
  rewrite (plain_resolved model place gid first second ch s Hp Hch Hm Hi), (plain_cost model' place tokens rate _ Hp'). cbn [fst deref].
  by rewrite lookup_alter_eq, Hs.
Qed.

End Prices.

(** ** Witnesses *)

Definition in_order (n : nat) (l : list (string * PricingService.LiteLLMModelPricing)) : list (string * PricingService.LiteLLMModelPricing) := l.

Definition some_tokens : UsageTokens := zero_UsageTokens <| InputTokens := 300000 |> <| OutputTokens := 1000 |> <| CacheReadTokens := 5000 |>.

Lemma costs_not_negative_witness :
  Forall (fun x => SFltb x f64_zero = false)
    (costs (computeTokenBreakdown (deref initFallbackPricing (Shared "gpt-5.6-sol")) some_tokens (f64_of_Z (-2)) "priority" true)).
Proof. apply costs_not_negative; [by constructor; vm_compute|by repeat split]. Defined.

(** A channel without a price for input, for one group. *)
Definition free_price : ChannelModelPricing :=
  mkChannelPricing "anthropic" ["claude-opus-4-5"] "token" (Some f64_zero) None None None None None [].
Definition free_channel : option channelCache :=
  Some (populateChannelCache in_key_order [mkChannel 7 "active" "" false [1] [free_price] ∅ false []] {[1 := "anthropic"]}).

(** Group 1 has a channel, which has no price for this model. *)
Lemma unified_without_channel_witness :
  let input := mkCostInput "GPT-5.6-Sol" some_tokens 1 "" f64_one "flex" None in
  CalculateCostUnified None in_order (Some (Some (1, (free_channel, free_channel)))) input initFallbackPricing =
  (match fst (CalculateCostWithServiceTier None in_order "GPT-5.6-Sol" some_tokens f64_one "flex" initFallbackPricing) with
   | Ok b => Ok (b <| BillingMode := BillingModeToken |>)
   | Err _ => Err (ErrMsg ("no pricing available for model: " +:+ "GPT-5.6-Sol"))
   end, initFallbackPricing).
Proof.
  apply (unified_without_channel None in_order (Some (1, (free_channel, free_channel))) (mkCostInput "GPT-5.6-Sol" some_tokens 1 "" f64_one "flex" None)); [|done].
  intros gid first second [= <- <- <-]. split; by vm_compute.
Defined.

Lemma file_prices_isolated_witness :
  let file := {["claude-opus-4-5" := PricingService.openAIGPT54FallbackPricing]} in
  snd (Resolve (Some file) in_order "claude-opus-4-5" (Some (1, (free_channel, free_channel))) initFallbackPricing) = initFallbackPricing.
Proof. apply file_prices_isolated. by vm_compute. Defined.

(** A million tokens of Opus 4.7, which has no channel. *)
Lemma channel_prices_leak_witness :
  let cost s := TotalCost <$> fst (CalculateCost None in_order "claude-opus-4-7" (zero_UsageTokens <| InputTokens := 1000000 |>) f64_one s) in
  cost initFallbackPricing = Ok (f64_of_Z 5) /\
  cost (snd (Resolve None in_order "claude-opus-4-5" (Some (1, (free_channel, free_channel))) initFallbackPricing)) = Ok f64_zero.
Proof.
  destruct (channel_prices_leak None in_order "claude-opus-4-5" "claude-opus-4-7" "claude-opus-4.5" 1 free_channel free_channel free_price
    initFallbackPricing (deref initFallbackPricing (Shared "claude-opus-4.5")) (zero_UsageTokens <| InputTokens := 1000000 |>) f64_one)
    as [Hbefore Hafter]; [by vm_compute..|].
  split; [transitivity (TotalCost <$> Ok (computeTokenBreakdown (deref initFallbackPricing (Shared "claude-opus-4.5"))
            (zero_UsageTokens <| InputTokens := 1000000 |>) f64_one "" true)); [exact (f_equal _ Hbefore)|by vm_compute]
         |exact (eq_trans (f_equal _ Hafter) (eq_refl _))].
Defined.
