(* ===== verification/FairCosts.v ===== *)
(** * Prices that are not negative stay so

    If the price file, the channels and the fallback prices set nothing below
    zero, then no lookup finds, and no override writes, a price below zero, and no
    calculation gives a cost below zero. *)

From Stdlib Require Import Floats.SpecFloat.
From S2P Require Import Prelude GoStrings AppErrors PaymentData ModelNames Channels ChannelsSpec BillingService BillingSpec.
From S2P Require PricingService.

#[local] Opaque PricingService.constant openAIGPT54LongContextInputMultiplier openAIGPT54LongContextOutputMultiplier.

(** ** The sources of prices *)

Record fair_entry (l : PricingService.LiteLLMModelPricing) : Prop := mkFairEntry {
  fe_input : nonneg (PricingService.InputCostPerToken l) = true;
  fe_output : nonneg (PricingService.OutputCostPerToken l) = true;
  fe_creation : nonneg (PricingService.CacheCreationInputTokenCost l) = true;
  fe_1hr : nonneg (PricingService.CacheCreationInputTokenCostAbove1hr l) = true;
  fe_read : nonneg (PricingService.CacheReadInputTokenCost l) = true;
  fe_long_input : nonneg (PricingService.LongContextInputCostMultiplier l) = true;
  fe_long_output : nonneg (PricingService.LongContextOutputCostMultiplier l) = true;
  fe_image : nonneg (PricingService.OutputCostPerImageToken l) = true }.
#[export] Hint Resolve fe_input fe_output fe_creation fe_1hr fe_read fe_long_input fe_long_output fe_image : costs.

Definition fair_file (file : option pricing_map) : Prop := forall data key l, file = Some data -> data !! key = Some l -> fair_entry l.

Lemma static_fair l : l ∈ PricingService.static_prices -> fair_entry l.
Proof.
  unfold PricingService.static_prices. rewrite !elem_of_cons.
  intros [->|[->|[->|[->|[->|[->|H%elem_of_nil]]]]]]; [..|done]; constructor; by vm_compute.
Qed.

Definition fair_ref (r : price_ref) : Prop := match r with Own p => fair p | Shared _ => True end.
Definition fair_store (s : store) : Prop := forall place p, s !! place = Some p -> fair p.

Lemma deref_fair s r : fair_store s -> fair_ref r -> fair (deref s r).
Proof. intros Hs Hr. destruct r as [place|p]; cbn; [|done]. destruct (s !! place) as [p|] eqn:E; cbn; [by apply (Hs place)|apply fair_zero]. Qed.

Lemma initial_fair : fair_store initFallbackPricing.
Proof.
  intros place p H%elem_of_list_to_map_2. revert H. unfold initial_prices. rewrite !elem_of_cons, elem_of_nil.
  intros H. repeat (destruct H as [H|H]; [injection H as -> ->; constructor; by vm_compute|]). done.
Qed.

Lemma policy_fair model p : fair p -> fair (policy model p).
Proof. intros Hp. unfold policy. destruct (_ && _); [by apply fill_policy_fair|done]. Qed.

Lemma assign_fair f r s : (forall p, fair p -> fair (f p)) -> fair_store s -> fair_ref r ->
  fair_ref (fst (assign f r s)) /\ fair_store (snd (assign f r s)).
Proof.
  intros Hf Hs Hr. destruct r as [place|p]; cbn; [split; [done|]; intros q x H|by split; [apply Hf|]].
  apply lookup_alter_Some in H as [(-> & y & Hy & ->)|[_ H]]; [by apply Hf, (Hs _ _ Hy)|by apply (Hs q)].
Qed.

(** ** Channels *)

(** A snapshot of channels whose configuration was accepted. *)
Inductive published : option channelCache -> Prop :=
| not_published : published None
| is_published ranged checking channels gps : range_order ranged -> range_order checking -> NoDup (concat (map GroupIDs channels)) ->
    Forall (accepted checking) channels -> published (Some (populateChannelCache ranged channels gps)).

Lemma published_fair c g model p : published c -> GetChannelModelPricing c g model = Some p -> fair_channel p.
Proof.
  intros Hc. destruct Hc as [|ranged checking channels gps Hr Hk Hnd Hacc]; [done|]. unfold GetChannelModelPricing. cbn.
  destruct (snapshot_lookups ranged checking Hr Hk channels gps g (ToLower model) Hnd Hacc) as [(ch & Hch & _ & -> & Hp & _)|[_ ->]]; [|done].
  destruct (IsActive ch); [|done]. cbn. intros (Hin & _)%Hp. rewrite Forall_forall in Hacc.
  exact (accepted_fair checking ch p (Hacc ch Hch) Hin).
Qed.

Abbreviation grouped := (option (Z * (option channelCache * option channelCache))).

Definition fair_group (group : grouped) : Prop := forall gid first second, group = Some (gid, (first, second)) -> published first /\ published second.

(** ** What is resolved *)

Definition fair_interval (iv : PricingInterval) : Prop := Forall (fun p => fair_price (snd p)) (interval_prices iv).

Record fair_resolved (r : ResolvedPricing) : Prop := mkFairResolved {
  fr_base : forall x, BasePricing r = Some x -> fair_ref x;
  fr_intervals : Forall fair_interval (rp_Intervals r);
  fr_tiers : Forall fair_interval (RequestTiers r);
  fr_default : nonneg (DefaultPerRequestPrice r) = true;
  fr_channel : forall ch, channelPricing r = Some ch -> fair_channel ch }.

Lemma valid_intervals_fair l : Forall fair_interval l -> Forall fair_interval (filterValidIntervals l).
Proof.
  rewrite !Forall_forall. intros H iv Hi. apply H. apply list_elem_of_In in Hi. unfold filterValidIntervals in Hi.
  apply filter_In in Hi as [Hi _]. by apply list_elem_of_In.
Qed.

Lemma channel_image_fair ch : fair_channel ch -> fair_price (ImageOutputPrice ch).
Proof. intros [Hp _]. do 4 apply Forall_cons_1 in Hp as [_ Hp]. by apply Forall_cons_1 in Hp as [Hp _]. Qed.

Lemma channel_request_fair ch : fair_channel ch -> fair_price (PerRequestPrice ch).
Proof. intros [Hp _]. do 5 apply Forall_cons_1 in Hp as [_ Hp]. by apply Forall_cons_1 in Hp as [Hp _]. Qed.

Lemma price_nonneg v : fair_price (Some v) -> nonneg v = true.
Proof. unfold fair_price, nonneg. cbn. by intros ->. Qed.

Lemma overrides_fair ch r s : fair_channel ch -> fair_resolved r -> fair_store s ->
  fair_resolved (fst (applyTokenOverrides ch r s)) /\ fair_store (snd (applyTokenOverrides ch r s)).
Proof.
  intros Hch Hr Hs. unfold applyTokenOverrides. pose proof (valid_intervals_fair _ (fc_intervals ch Hch)) as Hv.
  set (base := default (Own zero_ModelPricing) (BasePricing r)).
  assert (Hb : fair_ref base).
  { subst base. destruct (BasePricing r) as [x|] eqn:E; cbn; [by apply (fr_base r Hr)|apply fair_zero]. }
  assert (Hset : forall f, (forall p, fair p -> fair (f p)) -> forall k : price_ref -> ResolvedPricing,
    (forall x, fair_ref x -> fair_resolved (k x)) ->
    fair_resolved (fst ((x ← assign f base; mret (k x)) s)) /\ fair_store (snd ((x ← assign f base; mret (k x)) s))).
  { intros f Hf k Hk. destruct (assign_fair f base s Hf Hs Hb) as [H1 H2]. unfold mbind, st_bind. destruct (assign f base s) as [x s'].
    split; [by apply Hk|done]. }
  destruct (filterValidIntervals (Intervals ch)) as [|iv l] eqn:E; apply Hset.
  - intros p. by apply set_flat_prices_fair.
  - intros x Hx. destruct Hr. constructor; cbn; try done. by intros ? [= <-].
  - intros p. apply fair_image_set. by apply channel_image_fair.
  - intros x Hx. destruct Hr. constructor; cbn; try done. by intros ? [= <-].
Qed.

Lemma tiers_fair ch r : fair_channel ch -> fair_resolved r -> fair_resolved (applyRequestTierOverrides ch r).
Proof.
  intros Hch Hr. unfold applyRequestTierOverrides. pose proof (valid_intervals_fair _ (fc_intervals ch Hch)) as Hv.
  pose proof (channel_request_fair ch Hch) as Hp. destruct Hr. destruct (PerRequestPrice ch) as [v|]; constructor; cbn; try done.
  by apply price_nonneg.
Qed.

(** ** Lookups *)

Section Service.
Context (file : option pricing_map).
Context (order : nat -> list (string * PricingService.LiteLLMModelPricing) -> list (string * PricingService.LiteLLMModelPricing)).
Hypothesis Hfile : fair_file file.
Hypothesis Horder : PricingService.some_order order.

Abbreviation GetModelPricing := (GetModelPricing file order).
Abbreviation Resolve := (Resolve file order).

Lemma file_entry_fair model l : file_price file order model = Some l -> fair_entry l.
Proof.
  unfold file_price. intros (data & Hd & Hl)%bind_Some. apply (PricingService.found_price_known data order Horder) in Hl as [[key Hk]|Hs].
  - by apply (Hfile data key).
  - by apply static_fair.
Qed.

Lemma of_file_fair l : fair_entry l -> fair (pricing_of_file l).
Proof. intros Hl. constructor; cbn; auto with costs. Qed.

Lemma fallback_shared model r : getFallbackPricing model = Some r -> fair_ref r.
Proof. unfold getFallbackPricing. repeat case_match; by intros [= <-]. Qed.

Lemma base_fair model r : base_price file order model = Some r -> fair_ref r.
Proof.
  unfold base_price. destruct (file_price file order (ToLower model)) as [l|] eqn:E; [|apply fallback_shared].
  intros [= <-]. by apply of_file_fair, (file_entry_fair _ _ E).
Qed.

Lemma policy_ref_fair model r s r' : fair_store s -> fair_ref r -> deref s r' = policy model (deref s r) ->
  r' = r \/ (exists p, r' = Own p) -> fair_ref r'.
Proof. intros Hs Hr Hd [->|[p ->]]; [done|]. cbn in *. subst p. by apply policy_fair, deref_fair. Qed.

(** The store is left alone. *)
Lemma model_price_fair model s : fair_store s ->
  (exists r, GetModelPricing model s = (Ok r, s) /\ fair_ref r) \/ (exists e, GetModelPricing model s = (Err e, s)).
Proof.
  intros Hs. pose proof (GetModelPricing_eq file order model s) as H. destruct (base_price file order model) as [r|] eqn:E.
  - destruct H as (r' & Heq & Hd & Hr). left. exists r'. split; [done|]. by apply (policy_ref_fair (ToLower model) r s); [..|by apply (base_fair model)| |].
  - right. by eexists.
Qed.

Lemma base_resolved_fair model s : fair_store s -> exists base source,
  resolveBasePricing file order model s = ((base, source), s) /\ forall x, base = Some x -> fair_ref x.
Proof.
  intros Hs. unfold resolveBasePricing, mbind, st_bind. destruct (model_price_fair model s Hs) as [(r & -> & Hr)|(e & ->)].
  - eexists _, _. split; [reflexivity|]. by intros x [= <-].
  - by eexists _, _.
Qed.

Lemma Resolve_fair model group s : fair_store s -> fair_group group ->
  fair_resolved (fst (Resolve model group s)) /\ fair_store (snd (Resolve model group s)).
Proof.
  intros Hs Hg. unfold BillingService.Resolve.
  destruct (base_resolved_fair model s Hs) as (base & source & Hb & Hbase).
  destruct ('(gid, (first, _)) ← group; GetChannelModelPricing first gid model) as [ch|] eqn:E.
  - assert (Hch : fair_channel ch).
    { apply bind_Some in E as ([gid [first second]] & -> & E). by apply (published_fair first gid model); [apply (Hg gid first second)|]. }
    destruct (per_request_mode _); cbn [fst snd].
    + split; [|done]. apply tiers_fair; [done|]. constructor; cbn; try done; [by constructor..|]. by intros ? [= <-].
    + unfold mbind, st_bind. rewrite Hb. apply overrides_fair; [done| |done]. constructor; cbn; try done; [by constructor..|].
      by intros ? [= <-].
  - unfold mbind, st_bind. rewrite Hb. cbn. set (r := mkResolvedPricing _ _ _ _ _ _ _ _).
    assert (Hr : fair_resolved r) by (constructor; cbn; try done; by constructor).
    destruct group as [[gid [first second]]|]; [|done]. unfold applyChannelOverrides.
    destruct (GetChannelModelPricing second gid model) as [ch|] eqn:E2; [|done].
    assert (Hch : fair_channel ch) by (apply (published_fair second gid model); [apply (Hg gid first second)|]; done).
    set (r2 := r <| Source := _ |> <| channelPricing := _ |> <| rp_Mode := _ |>).
    assert (Hr2 : fair_resolved r2) by (destruct Hr; constructor; cbn; try done; by intros ? [= <-]).
    destruct (_ =s? _); [by apply overrides_fair|]. destruct (per_request_mode _); [|done]. by split; [apply tiers_fair|].
Qed.

End Service.

(** * Costs of fair prices

    Every calculation, on whatever path, costs nothing below zero if the price
    file, the channels and the fallback prices set nothing below zero. *)

#[local] Opaque PricingService.constant openAIGPT54LongContextInputMultiplier openAIGPT54LongContextOutputMultiplier.

(** ** Prices by request *)

Lemma interval_request_fair iv : fair_interval iv -> fair_price (iv_PerRequestPrice iv).
Proof. intros Hp. unfold fair_interval in Hp. do 4 apply Forall_cons_1 in Hp as [_ Hp]. by apply Forall_cons_1 in Hp as [Hp _]. Qed.

Lemma found_request_fair l (f : PricingInterval -> bool) : Forall fair_interval l ->
  nonneg (default f64_zero (iv ← List.find f l; iv_PerRequestPrice iv)) = true.
Proof.
  intros Hl. destruct (List.find f l) as [iv|] eqn:E; [|done]. cbn. apply List.find_some in E as [Hin _].
  rewrite Forall_forall in Hl. pose proof (interval_request_fair iv (Hl iv (proj2 (list_elem_of_In _ _) Hin))) as Hp.
  destruct (iv_PerRequestPrice iv); [by apply price_nonneg|done].
Qed.

Lemma or_else_nonneg a b : nonneg a = true -> nonneg b = true -> nonneg (or_else a b) = true.
Proof. unfold or_else. by destruct (SFeqb a f64_zero). Qed.

Lemma zero_fair_cost : fair_cost zero_CostBreakdown.
Proof. by repeat constructor. Qed.

(** What has only a total. *)
Lemma total_fair_cost total actual mode : nonneg total = true -> nonneg actual = true ->
  fair_cost (zero_CostBreakdown <| TotalCost := total |> <| ActualCost := actual |> <| BillingMode := mode |>).
Proof. intros. by repeat constructor. Qed.

Lemma request_cost_fair r input rate : fair_resolved r -> nonneg rate = true -> fair_cost (calculatePerRequestCost r input rate).
Proof.
  intros Hr Hrate. unfold calculatePerRequestCost. set (count := if RequestCount input <=? 0 then 1 else _).
  assert (Hc : 0 <= count) by (subst count; destruct (Z.leb_spec (RequestCount input) 0); lia).
  set (tier := if SizeTier input <>s? "" then _ else f64_zero).
  assert (Ht : nonneg tier = true).
  { subst tier. destruct (_ <>s? _); [|done]. unfold GetRequestTierPrice. by apply found_request_fair, fr_tiers. }
  set (price := or_else (or_else _ _) _).
  assert (Hp : nonneg price = true).
  { subst price. apply or_else_nonneg; [apply or_else_nonneg; [done|]|by apply fr_default].
    unfold GetRequestTierPriceByContext, FindMatchingInterval. by apply found_request_fair, fr_tiers. }
  apply (total_fair_cost (price ⊗ f64_of_Z count) (price ⊗ f64_of_Z count ⊗ rate) ""); auto with costs.
Qed.

Lemma image_price_fair file order model size config : (forall c p, config = Some c -> In (Some p) [Price1K c; Price2K c; Price4K c] -> nonneg p = true) ->
  nonneg (getImageUnitPrice file order model size config) = true.
Proof.
  intros Hc. unfold getImageUnitPrice.
  assert (Hd : nonneg (getDefaultImagePrice file order model size) = true).
  { unfold getDefaultImagePrice. set (file_base := match file_price file order model with Some l => _ | None => _ end).
    assert (Hb : nonneg file_base = true).
    { subst file_base. destruct (file_price file order model) as [l|]; [|done]. destruct (positive _) eqn:E; [|done]. auto with costs. }
    set (base := if not_positive file_base then _ else file_base).
    assert (Hbase : nonneg base = true) by (subst base; destruct (not_positive file_base); [by vm_compute|done]).
    destruct (size =s? "2K"); [apply nonneg_mul; [done|by vm_compute]|]. destruct (size =s? "4K"); [apply nonneg_mul; [done|by vm_compute]|done]. }
  destruct config as [c|]; [|done]. cbn. specialize (Hc c).
  repeat (destruct (size =s? _);
    [match goal with |- context [default _ ?o] => destruct o as [p|] eqn:E; [apply (Hc p eq_refl); rewrite <- E; cbn; auto|done] end|]). done.
Qed.

Lemma image_cost_fair file order model size count config rate :
  (forall c p, config = Some c -> In (Some p) [Price1K c; Price2K c; Price4K c] -> nonneg p = true) ->
  fair_cost (CalculateImageCost file order model size count config rate).
Proof.
  intros Hc. unfold CalculateImageCost. destruct (Z.leb_spec count 0); [apply zero_fair_cost|].
  pose proof (image_price_fair file order model size config Hc). apply total_fair_cost; auto 6 using Z.lt_le_incl with costs.
Qed.

(** ** Prices by token *)

Section Calculations.
Context (file : option pricing_map).
Context (order : nat -> list (string * PricingService.LiteLLMModelPricing) -> list (string * PricingService.LiteLLMModelPricing)).
Hypothesis Hfile : fair_file file.
Hypothesis Horder : PricingService.some_order order.

(** The store is left alone, and what is found costs nothing below zero. *)
Definition fair_result {A} (P : A -> Prop) (m : ST store (result A)) (s : store) : Prop :=
  snd (m s) = s /\ forall a, fst (m s) = Ok a -> P a.

Lemma tier_cost_fair model tokens rate tier s : fair_store s -> counted tokens ->
  fair_result fair_cost (CalculateCostWithServiceTier file order model tokens rate tier) s.
Proof.
  intros Hs Ht. unfold fair_result, CalculateCostWithServiceTier. rewrite cost_eq. split; [done|]. intros a. cbn.
  destruct (base_price file order model) as [r|] eqn:E; [|done]. intros [= <-]. apply breakdown_fair; [|done].
  by apply policy_fair, deref_fair, (base_fair file order Hfile Horder model).
Qed.

Lemma split_counted tokens threshold a b : counted tokens -> int64_range (CacheReadTokens tokens + InputTokens tokens) -> 0 < threshold ->
  threshold < CacheReadTokens tokens + InputTokens tokens -> split_tokens tokens threshold = (a, b) -> counted a /\ counted b.
Proof.
  unfold counted, split_tokens, int64_range. intros (Hi & Ho & Hc & Hr & H5 & H1) [_ Hmax] Hp Hth.
  destruct (Z.leb_spec threshold (CacheReadTokens tokens)); intros [= <- <-]; cbn.
  - rewrite sub64_id by (unfold int64_range; lia). lia.
  - rewrite !sub64_id by (rewrite ?sub64_id; unfold int64_range; lia). lia.
Qed.

Lemma long_cost_fair model tokens rate threshold extra s : fair_store s -> counted tokens ->
  int64_range (CacheReadTokens tokens + InputTokens tokens) ->
  fair_result fair_cost (CalculateCostWithLongContext file order model tokens rate threshold extra) s.
Proof.
  intros Hs Ht Hrange. pose proof (tier_cost_fair model tokens rate "" s Hs Ht) as Hplain.
  change (fair_result fair_cost (CalculateCost file order model tokens rate) s) in Hplain.
  unfold fair_result, CalculateCostWithLongContext. destruct (_ || _) eqn:E1; [exact Hplain|].
  apply orb_false_iff in E1 as [Hth%Z.leb_gt _]. rewrite add64_id by done. destruct (Z.leb_spec (CacheReadTokens tokens + InputTokens tokens) threshold) as [|Hlong]; [exact Hplain|].
  destruct (split_tokens tokens threshold) as [a b] eqn:E. destruct (split_counted _ _ _ _ Ht Hrange Hth Hlong E) as [Ha Hb].
  pose proof (tier_cost_fair model a rate "" s Hs Ha) as [Ha1 Ha2]. pose proof (tier_cost_fair model b (rate ⊗ extra) "" s Hs Hb) as [Hb1 Hb2].
  change (CalculateCostWithServiceTier file order model a rate "") with (CalculateCost file order model a rate) in *.
  change (CalculateCostWithServiceTier file order model b (rate ⊗ extra) "") with (CalculateCost file order model b (rate ⊗ extra)) in *.
  unfold mbind, st_bind. destruct (CalculateCost file order model a rate s) as [[x|e] s1]; cbn in Ha1; subst s1; [|by split].
  destruct (CalculateCost file order model b (rate ⊗ extra) s) as [[y|e] s2]; cbn in Hb1; subst s2; [|by split]. split; [done|].
  intros c [= <-]. specialize (Ha2 x eq_refl). specialize (Hb2 y eq_refl). unfold fair_cost, costs in *. cbn.
  repeat match goal with H : Forall _ (_ :: _) |- _ => apply Forall_cons_1 in H as [? H] end. repeat constructor; auto with costs.
Qed.

Lemma interval_price_fair r n x : fair_resolved r -> GetIntervalPricing r n = Some x -> fair_ref x.
Proof.
  intros Hr. unfold GetIntervalPricing, FindMatchingInterval. destruct (List.find _ _) as [iv|] eqn:E; [|apply (fr_base r Hr)].
  intros [= <-]. apply List.find_some in E as [Hin _]. pose proof (fr_intervals r Hr) as Hi. rewrite Forall_forall in Hi.
  apply interval_fair; [by apply Hi, list_elem_of_In|]. intros c Hc. by apply channel_image_fair, (fr_channel r Hr).
Qed.

Lemma token_cost_fair r input rate s : fair_resolved r -> fair_store s -> counted (ci_Tokens input) ->
  fair_result fair_cost (calculateTokenCost r input rate) s.
Proof.
  intros Hr Hs Ht. unfold fair_result, calculateTokenCost. destruct (GetIntervalPricing r _) as [x|] eqn:E; [|by split].
  pose proof (interval_price_fair r _ x Hr E) as Hx. unfold mbind, st_bind.
  destruct (policy_eq (ci_Model input) x s) as (x' & -> & Hd & _). cbn. split; [done|]. intros c [= <-].
  apply breakdown_fair; [|done]. rewrite Hd. by apply policy_fair, deref_fair.
Qed.

Lemma unified_cost_fair group input s : fair_store s -> fair_group group -> counted (ci_Tokens input) ->
  (forall r, Resolved input = Some r -> fair_resolved r) ->
  fair_store (snd (CalculateCostUnified file order (Some group) input s)) /\
  forall b, fst (CalculateCostUnified file order (Some group) input s) = Ok b -> fair_cost b.
Proof.
  intros Hs Hg Ht Hres. unfold CalculateCostUnified, mbind, st_bind.
  set (resolve := match Resolved input with Some r => mret r | None => Resolve file order (ci_Model input) group end).
  assert (Hr : fair_resolved (fst (resolve s)) /\ fair_store (snd (resolve s))).
  { subst resolve. destruct (Resolved input) as [r|]; [by split; [apply Hres|]|by apply Resolve_fair]. }
  destruct (resolve s) as [r s1]. destruct Hr as [Hr Hs1]. cbn [fst snd] in *. destruct (per_request_mode (rp_Mode r)).
  - split; [done|]. intros b [= <-]. exact (request_cost_fair r input _ Hr (nonneg_clamp _)).
  - destruct (token_cost_fair r input (clamp (RateMultiplier input)) s1 Hr Hs1 Ht) as [H1 H2].
    destruct (calculateTokenCost r input (clamp (RateMultiplier input)) s1) as [[b|e] s2]; cbn in *; subst s2; split; try done.
    intros c [= <-]. exact (H2 b eq_refl).
Qed.

(** ** Statistics of accounts *)

Lemma if_positive_fair x c : if_positive x = Some c -> nonneg c = true.
Proof.
  unfold if_positive, not_positive, nonneg. destruct (SFleb x f64_zero) eqn:E; [done|]. intros [= <-]. rewrite negb_true_iff.
  destruct x as [[]|[]| |[]]; try done.
Qed.

Lemma stats_cost_fair pricing tokens c : calculateStatsCost pricing tokens 1 = Some c -> nonneg c = true.
Proof.
  unfold calculateStatsCost, calculatePerRequestStatsCost, calculateTokenStatsCost. destruct (per_request_mode _); [|apply if_positive_fair].
  destruct (PerRequestPrice pricing) as [p|]; [|done]. destruct (not_positive p) eqn:E; [done|]. intros [= <-].
  apply nonneg_mul; [|by vm_compute]. apply (if_positive_fair p). unfold if_positive. by rewrite E.
Qed.

Lemma account_cost_fair first second accountID groupID upstreamModel requestedModel tokens total s : fair_store s ->
  let m := accountStatsCost file order first second accountID groupID upstreamModel requestedModel tokens total in
  snd (m s) = s /\ forall c, fst (m s) = Some c -> nonneg c = true.
Proof.
  intros Hs. unfold accountStatsCost. generalize (if upstreamModel =s? "" then requestedModel else upstreamModel). intros model.
  unfold resolveAccountStatsCost. destruct (model =s? ""); [done|]. destruct (GetChannelForGroup first groupID) as [ch|]; [|done].
  destruct (tryCustomRules _ _ _ _ _ _ _) as [c|] eqn:E.
  - split; [done|]. intros c' [= <-]. unfold tryCustomRules in E. apply bind_Some in E as (p & _ & Hc). by apply stats_cost_fair in Hc.
  - destruct (ApplyPricingToAccountStats ch); [split; [done|]; intros c; apply if_positive_fair|].
    unfold tryModelFilePricing, mbind, st_bind. destruct (model_price_fair file order Hfile Horder model s Hs) as [(r & -> & _)|(e & ->)]; [|done].
    split; [done|]. intros c. apply if_positive_fair.
Qed.

End Calculations.
