(* ===== verification/UsageRecording.v ===== *)
(** * Recording the usage of a request (service/gateway_service.go,
    service/openai_gateway_service.go, service/user_group_rate_resolver.go)

    After a request was forwarded its tokens are priced, written to the usage log
    and billed by the transaction of UsageBilling; then caches are told.  The two
    gateways do it in their own ways.  Prices, channels, rates, settings and the
    database are asked with commands.  Every service is taken to be there; the
    path without a billing repository, log lines and the texts of notifications
    are left out, and so is what the transaction writes into the log it is given. *)

From Stdlib Require Import Floats.SpecFloat.
From S2P Require Import Prelude GoStrings AppErrors PaymentData Transactions Program ModelNames Channels UsageBilling BillingService.
From S2P Require PricingService.

(** ** Data *)

Record ClaudeUsage : Type := mkClaudeUsage {
  cu_InputTokens : Z; cu_OutputTokens : Z; cu_CacheCreationInputTokens : Z; cu_CacheReadInputTokens : Z; cu_CacheCreation5mTokens : Z;
  cu_CacheCreation1hTokens : Z; cu_ReasoningTokens : Z; cu_ImageOutputTokens : Z; cu_KiroCredits : float64 }.
#[export] Instance eta_ClaudeUsage : Settable ClaudeUsage := fun u =>
  mkClaudeUsage (cu_InputTokens u) (cu_OutputTokens u) (cu_CacheCreationInputTokens u) (cu_CacheReadInputTokens u)
    (cu_CacheCreation5mTokens u) (cu_CacheCreation1hTokens u) (cu_ReasoningTokens u) (cu_ImageOutputTokens u) (cu_KiroCredits u).

(** [DurationMs]: what is logged of the duration. *)
Record ForwardResult : Type := mkForwardResult {
  fr_RequestID : string; fr_Usage : ClaudeUsage; fr_Model : string; fr_UpstreamModel : string; fr_Stream : bool; fr_DurationMs : Z;
  fr_FirstTokenMs : option Z; fr_ReasoningEffort : option string; fr_ImageCount : Z; fr_ImageSize : string }.
#[export] Instance eta_ForwardResult : Settable ForwardResult := fun r =>
  mkForwardResult (fr_RequestID r) (fr_Usage r) (fr_Model r) (fr_UpstreamModel r) (fr_Stream r) (fr_DurationMs r) (fr_FirstTokenMs r)
    (fr_ReasoningEffort r) (fr_ImageCount r) (fr_ImageSize r).

Record OpenAIUsage : Type := mkOpenAIUsage {
  ou_InputTokens : Z; ou_OutputTokens : Z; ou_CacheCreationInputTokens : Z; ou_CacheReadInputTokens : Z; ou_ReasoningTokens : Z;
  ou_ImageOutputTokens : Z; ou_KiroCredits : float64 }.

Record OpenAIForwardResult : Type := mkOpenAIForwardResult {
  of_RequestID : string; of_Usage : OpenAIUsage; of_Model : string; of_BillingModel : string; of_UpstreamModel : string;
  of_ServiceTier : option string; of_ReasoningEffort : option string; of_Stream : bool; of_OpenAIWSMode : bool; of_DurationMs : Z;
  of_FirstTokenMs : option Z; of_ImageCount : Z; of_ImageSize : string }.

Record Group : Type := mkGroup {
  gr_ID : Z; gr_RateMultiplier : float64; gr_SubscriptionType : string; gr_Scope : string; gr_ImageRateIndependent : bool;
  gr_ImageRateMultiplier : float64; gr_ImagePrices : ImagePriceConfig }.

Record APIKey : Type := mkAPIKey {
  ak_ID : Z; ak_Key : string; ak_GroupID : option Z; ak_Group : option Group; ak_Quota : float64;
  ak_RateLimit5h : float64; ak_RateLimit1d : float64; ak_RateLimit7d : float64 }.

Record User : Type := mkUser { us_ID : Z; us_Balance : float64; us_PreferPointsBilling : bool }.

(** The quota limits and the override of the cache's lifetime are members of the
    account's extra document, as account.go reads them. *)
Record Account : Type := mkAccount {
  ac_ID : Z; ac_Type : string; ac_Platform : string; ac_ShareMode : string; ac_ShareStatus : string; ac_OwnerUserID : option Z;
  ac_SharePolicyID : option Z; ac_RateMultiplier : option float64; ac_QuotaLimit : float64; ac_QuotaDailyLimit : float64;
  ac_QuotaWeeklyLimit : float64; ac_ClaudeWebSession : bool; ac_TTLOverrideEnabled : bool; ac_TTLOverrideTarget : string }.

Record ChannelUsageFields : Type := mkChannelFields {
  cf_ChannelID : Z; cf_OriginalModel : string; cf_ChannelMappedModel : string; cf_BillingModelSource : string; cf_ModelMappingChain : string }.

Record recordUsageCoreInput : Type := mkInput {
  in_Result : ForwardResult; in_APIKey : APIKey; in_User : User; in_Account : Account; in_Subscription : option Z;
  in_InboundEndpoint : string; in_UpstreamEndpoint : string; in_UserAgent : string; in_IPAddress : string; in_RequestPayloadHash : string;
  in_ForceCacheBilling : bool; in_HasAPIKeyService : bool; in_Channel : ChannelUsageFields }.

Record recordUsageOpts : Type := mkOpts { LongContextThreshold : Z; LongContextMultiplier : float64 }.

Record OpenAIRecordUsageInput : Type := mkOpenAIInput {
  oi_Result : OpenAIForwardResult; oi_APIKey : APIKey; oi_User : User; oi_Account : Account; oi_Subscription : option Z;
  oi_InboundEndpoint : string; oi_UpstreamEndpoint : string; oi_UserAgent : string; oi_IPAddress : string; oi_RequestPayloadHash : string;
  oi_HasAPIKeyService : bool; oi_Channel : ChannelUsageFields }.

(** What a usage log has beside what billing reads. *)
Record usage_log : Type := mkLog {
  lg_billed : UsageLog; lg_RequestedModel : string; lg_UpstreamModel : option string; lg_ChannelID : option Z;
  lg_ModelMappingChain : option string; lg_BillingMode : option string; lg_InboundEndpoint : option string;
  lg_UpstreamEndpoint : option string; lg_ReasoningTokens : Z; lg_CacheCreation5mTokens : Z; lg_CacheCreation1hTokens : Z;
  lg_ImageOutputTokens : Z; lg_ImageOutputCost : float64; lg_InputCost : float64; lg_OutputCost : float64; lg_CacheCreationCost : float64;
  lg_CacheReadCost : float64; lg_RateMultiplier : float64; lg_KiroCredits : option float64; lg_Stream : bool; lg_OpenAIWSMode : bool;
  lg_DurationMs : option Z; lg_FirstTokenMs : option Z; lg_ImageSize : option string; lg_CacheTTLOverridden : bool;
  lg_UserAgent : option string; lg_IPAddress : option string }.
#[export] Instance eta_usage_log : Settable usage_log := fun l =>
  mkLog (lg_billed l) (lg_RequestedModel l) (lg_UpstreamModel l) (lg_ChannelID l) (lg_ModelMappingChain l) (lg_BillingMode l)
    (lg_InboundEndpoint l) (lg_UpstreamEndpoint l) (lg_ReasoningTokens l) (lg_CacheCreation5mTokens l) (lg_CacheCreation1hTokens l)
    (lg_ImageOutputTokens l) (lg_ImageOutputCost l) (lg_InputCost l) (lg_OutputCost l) (lg_CacheCreationCost l) (lg_CacheReadCost l)
    (lg_RateMultiplier l) (lg_KiroCredits l) (lg_Stream l) (lg_OpenAIWSMode l) (lg_DurationMs l) (lg_FirstTokenMs l) (lg_ImageSize l)
    (lg_CacheTTLOverridden l) (lg_UserAgent l) (lg_IPAddress l).

Definition BillingTypeBalance : Z := 0.
Definition BillingTypeSubscription : Z := 1.
Definition PlatformAnthropic : string := "anthropic".
Definition PlatformOpenAI : string := "openai".
Definition cacheTTLTarget5m : string := "5m".
Definition GroupScopeUserPrivate : string := "user_private".

Definition IsSubscriptionType (g : Group) : bool := gr_SubscriptionType g =s? "subscription".
Definition IsUserPrivateScope (g : Group) : bool := ToLower (trim_space (gr_Scope g)) =s? GroupScopeUserPrivate.
Definition HasRateLimits (k : APIKey) : bool := positive (ak_RateLimit5h k) || positive (ak_RateLimit1d k) || positive (ak_RateLimit7d k).
Definition IsAPIKeyOrBedrock (a : Account) : bool := in_list (ac_Type a) ["apikey"; "bedrock"].
Definition HasAnyQuotaLimit (a : Account) : bool :=
  positive (ac_QuotaLimit a) || positive (ac_QuotaDailyLimit a) || positive (ac_QuotaWeeklyLimit a).
Definition IsAnthropicOAuthOrSetupToken (a : Account) : bool :=
  (ac_Platform a =s? PlatformAnthropic) && negb (ac_ClaudeWebSession a) && in_list (ac_Type a) ["oauth"; "setup-token"].
Definition IsCacheTTLOverrideEnabled (a : Account) : bool := IsAnthropicOAuthOrSetupToken a && ac_TTLOverrideEnabled a.
Definition GetCacheTTLOverrideTarget (a : Account) : string :=
  if in_list (ac_TTLOverrideTarget a) ["5m"; "1h"] then ac_TTLOverrideTarget a else "5m".

Definition BillingRateMultiplier (a : Account) : float64 :=
  match ac_RateMultiplier a with
  | Some m => if SFltb m f64_zero then f64_one else m
  | None => f64_one
  end.

(** *** service/usage_log_helpers.go *)

Definition optionalTrimmedStringPtr (raw : string) : option string := let t := trim_space raw in if t =s? "" then None else Some t.
Definition optionalNonEqualStringPtr (value compare : string) : option string :=
  if (value =s? "") || (value =s? compare) then None else Some value.
Definition forwardResultBillingModel (requestedModel upstreamModel : string) : string :=
  let t := trim_space requestedModel in if t <>s? "" then t else trim_space upstreamModel.
Definition optionalInt64Ptr (v : Z) : option Z := if v =? 0 then None else Some v.

(** ** The lifetime of cached tokens *)

Definition applyCacheTTLOverride (usage : ClaudeUsage) (target : string) : ClaudeUsage * bool :=
  let usage :=
    if (cu_CacheCreation5mTokens usage =? 0) && (cu_CacheCreation1hTokens usage =? 0) && (0 <? cu_CacheCreationInputTokens usage)
    then usage <| cu_CacheCreation5mTokens := cu_CacheCreationInputTokens usage |> else usage in
  let total := add64 (cu_CacheCreation5mTokens usage) (cu_CacheCreation1hTokens usage) in
  if total =? 0 then (usage, false)
  else if target =s? "1h" then
    if cu_CacheCreation1hTokens usage =? total then (usage, false)
    else (usage <| cu_CacheCreation1hTokens := total |> <| cu_CacheCreation5mTokens := 0 |>, true)
  else if cu_CacheCreation5mTokens usage =? total then (usage, false)
  else (usage <| cu_CacheCreation5mTokens := total |> <| cu_CacheCreation1hTokens := 0 |>, true).

(** [injected]: whether settings have the long lifetime put into requests. *)
Definition resolveCacheTTLUsageOverrideTarget (injected : bool) (a : Account) : option string :=
  if IsCacheTTLOverrideEnabled a then Some (GetCacheTTLOverrideTarget a)
  else if IsAnthropicOAuthOrSetupToken a && injected then Some cacheTTLTarget5m
  else None.

(** ** What is billed *)

Record postUsageBillingParams : Type := mkParams {
  pb_Cost : CostBreakdown; pb_User : User; pb_APIKey : APIKey; pb_Account : Account; pb_Subscription : option Z;
  pb_RequestPayloadHash : string; IsSubscriptionBill : bool; PrivateGroupCommissionRate : float64; pb_AccountRateMultiplier : float64;
  pb_HasAPIKeyService : bool }.

Definition shouldDeductAPIKeyQuota (p : postUsageBillingParams) : bool :=
  positive (ActualCost (pb_Cost p)) && positive (ak_Quota (pb_APIKey p)) && pb_HasAPIKeyService p.
Definition shouldUpdateRateLimits (p : postUsageBillingParams) : bool :=
  positive (ActualCost (pb_Cost p)) && HasRateLimits (pb_APIKey p) && pb_HasAPIKeyService p.
Definition shouldUpdateAccountQuota (p : postUsageBillingParams) : bool :=
  positive (TotalCost (pb_Cost p)) && IsAPIKeyOrBedrock (pb_Account p) && HasAnyQuotaLimit (pb_Account p).

Definition calculatePrivateGroupCommissionCost (p : postUsageBillingParams) : float64 :=
  match ak_Group (pb_APIKey p) with
  | Some g =>
      if negb (IsSubscriptionBill p) then f64_zero
      else if negb (IsUserPrivateScope g) || not_positive (ActualCost (pb_Cost p)) then f64_zero
      else
        let rate := PrivateGroupCommissionRate p in
        if not_positive rate then f64_zero
        else ActualCost (pb_Cost p) ⊗ (if SFltb f64_one rate then f64_one else rate)
  | None => f64_zero
  end.

Definition account_quota_cost (p : postUsageBillingParams) : float64 := TotalCost (pb_Cost p) ⊗ pb_AccountRateMultiplier p.

(** [now], if the log has no time. *)
Definition buildUsageBillingCommand (now : Z) (requestID : string) (usageLog : UsageLog) (p : postUsageBillingParams) : UsageBillingCommand :=
  let cost := pb_Cost p in
  let cmd := mkUsageBillingCommand requestID (ak_ID (pb_APIKey p)) "" (trim_space (pb_RequestPayloadHash p)) (us_ID (pb_User p))
    (ac_ID (pb_Account p)) (log_GroupID usageLog) (log_SubscriptionID usageLog) (ac_Type (pb_Account p)) (log_Model usageLog)
    (default "" (log_ServiceTier usageLog)) (default "" (log_ReasoningEffort usageLog)) (log_BillingType usageLog)
    (log_InputTokens usageLog) (log_OutputTokens usageLog) (log_CacheCreationTokens usageLog) (log_CacheReadTokens usageLog)
    (log_ImageCount usageLog) "" f64_zero false f64_zero (calculatePrivateGroupCommissionCost p) f64_zero f64_zero f64_zero
    false None "" "" "" None 0 f64_zero f64_zero (Some (default now (log_CreatedAt usageLog))) (Some usageLog) in
  let cmd :=
    if IsSubscriptionBill p then
      match pb_Subscription p with
      | Some id => if positive (TotalCost cost) then cmd <| SubscriptionID := Some id |> <| SubscriptionCost := ActualCost cost |> else cmd
      | None => cmd
      end
    else if positive (ActualCost cost) then
      cmd <| BalanceCost := ActualCost cost |> <| PreferPointsBilling := us_PreferPointsBilling (pb_User p) |>
    else cmd in
  let cmd := if shouldDeductAPIKeyQuota p then cmd <| APIKeyQuotaCost := ActualCost cost |> else cmd in
  let cmd := if shouldUpdateRateLimits p then cmd <| APIKeyRateLimitCost := ActualCost cost |> else cmd in
  let cmd := if shouldUpdateAccountQuota p then cmd <| AccountQuotaCost := account_quota_cost p |> else cmd in
  Normalize cmd.

(** ** Commands *)

Record AccountSharePolicy : Type := mkSharePolicy { sp_ID : Z; sp_Version : Z; sp_OwnerShareRatio : float64; sp_InviteShareRatio : float64 }.

(** What is told to caches, to the deferred updates and to the notifications. *)
Inductive notice : Type :=
| InvalidateAuthCacheByKey (key : string)
| InvalidateAuthCacheByUserID (userID : Z)
| InvalidateUserBalance (userID : Z)
| QueueDeductBalance (userID : Z) (amount : float64)
| QueueUpdateSubscriptionUsage (userID groupID : Z) (cost : float64)
| QueueUpdateAPIKeyRateLimitUsage (apiKeyID : Z) (cost : float64)
| ScheduleLastUsedUpdate (accountID : Z)
| ResetOpenAI403Counter (accountID : Z)
| CheckBalanceAfterDeduction (userID : Z) (oldBalance cost : float64)
| CheckAccountQuotaAfterIncrement (accountID : Z) (cost : float64) (quotaState : option AccountQuotaState).

Abbreviation grouped := (option (Z * (option channelCache * option channelCache))).

(** [Bill]: the repository's Apply, with [None] for a nil result. *)
Inductive rcmd : Type -> Type :=
| Channels : rcmd (option channelCache)
| ResolvePrice (model : string) (group : grouped) : rcmd ResolvedPricing
| UnifiedCost (group : grouped) (input : CostInput) : rcmd (result CostBreakdown)
| TierCost (model : string) (tokens : UsageTokens) (rate : float64) (tier : string) : rcmd (result CostBreakdown)
| LongContextCost (model : string) (tokens : UsageTokens) (rate : float64) (threshold : Z) (extra : float64) : rcmd (result CostBreakdown)
| ImageCost (model size : string) (count : Z) (config : option ImagePriceConfig) (rate : float64) : rcmd CostBreakdown
| StatsCost (first second : option channelCache) (accountID groupID : Z) (upstreamModel requestedModel : string) (tokens : UsageTokens)
    (totalCost : float64) : rcmd (option float64)
| CachedRate (key : string) : rcmd (option float64)
| RateOfUser (userID groupID : Z) : rcmd (outcome (option float64))
| CacheRate (key : string) (rate : float64) : rcmd unit
| CacheTTLInjected : rcmd bool
| CommissionRate : rcmd (outcome float64)
| ResolveEnabledAccountSharePolicy (accountID : Z) (groupID : option Z) (platform : string) (policyID : option Z)
  : rcmd (outcome (option AccountSharePolicy))
| Bill (c : UsageBillingCommand) : rcmd (outcome (option UsageBillingApplyResult))
| WriteLog (l : usage_log) : rcmd unit
| Tell (n : notice) : rcmd unit.

Abbreviation recording := (prog rcmd).

Definition tell (n : notice) : recording unit := call (Tell n).
Definition when (b : bool) (p : recording unit) : recording unit := if b then p else mret tt.

(** ** The rate of a user in a group

    A caller that waits for another's load of the same key would get its answer;
    here every caller loads for itself. *)

Definition userGroupRateResolver_Resolve (userID groupID : Z) (groupDefaultMultiplier : float64) : recording float64 :=
  if (userID <=? 0) || (groupID <=? 0) then mret groupDefaultMultiplier else
  let key := pretty userID +:+ ":" +:+ pretty groupID in
  cached ← call (CachedRate key);
  match cached with
  | Some multiplier => mret multiplier
  | None =>
      cached ← call (CachedRate key);
      match cached with
      | Some multiplier => mret multiplier
      | None =>
          userRate ← call (RateOfUser userID groupID);
          match userRate with
          | Failure _ => mret groupDefaultMultiplier
          | Success rate =>
              let multiplier := default groupDefaultMultiplier rate in
              _ ← call (CacheRate key multiplier);
              mret multiplier
          end
      end
  end.

(** ** The surroundings of a call

    The identifiers in its context, if they are strings, the one that would be
    generated, and the configuration. *)

Record surroundings : Type := mkSurroundings {
  ctx_ClientRequestID : string;
  ctx_RequestID : string;
  generated : string;
  time_now : Z;
  default_RateMultiplier : float64;
  run_simple : bool;
  MinimumBalanceReserve : float64 }.

Section Recording.
Context (env : surroundings).

Definition resolveUsageBillingRequestID (upstreamRequestID : string) : string :=
  let client := trim_space (ctx_ClientRequestID env) in
  let id := trim_space (ctx_RequestID env) in
  let upstream := trim_space upstreamRequestID in
  if client <>s? "" then "client:" +:+ client
  else if id <>s? "" then "local:" +:+ id
  else if upstream <>s? "" then upstream
  else "generated:" +:+ generated env.

Definition resolveUsageBillingPayloadFingerprint (requestPayloadHash : string) : string :=
  let payloadHash := trim_space requestPayloadHash in
  let client := trim_space (ctx_ClientRequestID env) in
  let id := trim_space (ctx_RequestID env) in
  if payloadHash <>s? "" then payloadHash
  else if client <>s? "" then "client:" +:+ client
  else if id <>s? "" then "local:" +:+ id
  else "".

(** ** Billing *)

Definition attachAccountShareBillingSnapshot (cmd : UsageBillingCommand) (p : postUsageBillingParams)
  : recording (outcome UsageBillingCommand) :=
  let account := pb_Account p in
  let shareMode := NormalizeAccountShareMode (ac_ShareMode account) in
  let shareStatus := NormalizeAccountShareStatus (ac_ShareStatus account) in
  let positive_id (v : option Z) (old : option Z) := match v with Some id => if 0 <? id then Some id else old | None => old end in
  let cmd := cmd <| ShareSnapshotCaptured := true |> <| ShareModeSnapshot := shareMode |> <| ShareStatusSnapshot := shareStatus |>
    <| SharePlatform := trim_space (ac_Platform account) |>
    <| ShareOwnerUserID := positive_id (ac_OwnerUserID account) (ShareOwnerUserID cmd) |>
    <| SharePolicyID := positive_id (ac_SharePolicyID account) (SharePolicyID cmd) |> in
  match ac_OwnerUserID account with
  | None => mret (Success cmd)
  | Some owner =>
      if (owner <=? 0) || (owner =? us_ID (pb_User p)) then mret (Success cmd)
      else if (shareMode <>s? AccountShareModePublic) || (shareStatus <>s? AccountShareStatusApproved) then mret (Success cmd)
      else
        policy ← call (ResolveEnabledAccountSharePolicy (ac_ID account) (ak_GroupID (pb_APIKey p)) (ac_Platform account)
          (ac_SharePolicyID account));
        match policy with
        | Failure e => mret (Failure (WrappedError "resolve account share policy snapshot" e))
        | Success None => mret (Success cmd)
        | Success (Some policy) =>
            if not_positive (sp_OwnerShareRatio policy) && not_positive (sp_InviteShareRatio policy) then mret (Success cmd)
            else mret (Success (cmd <| SharePolicyID := Some (sp_ID policy) |> <| SharePolicyVersion := sp_Version policy |>
              <| OwnerShareRatio := sp_OwnerShareRatio policy |> <| InviteShareRatio := sp_InviteShareRatio policy |>))
        end
  end.

Definition balanceBelowEligibilityThreshold (balance : float64) : bool :=
  let reserve := if not_positive (MinimumBalanceReserve env) then f64_zero else MinimumBalanceReserve env in
  not_positive balance || (positive reserve && SFltb balance reserve).

Definition syncBalanceCacheAfterDeduction (p : postUsageBillingParams) (result : UsageBillingApplyResult) (amount : float64) : recording unit :=
  if not_positive amount then mret tt
  else if match res_NewBalance result with Some b => balanceBelowEligibilityThreshold b | None => false end
  then tell (InvalidateUserBalance (us_ID (pb_User p)))
  else tell (QueueDeductBalance (us_ID (pb_User p)) amount).

Definition resolveOldBalance (p : postUsageBillingParams) (result : UsageBillingApplyResult) : float64 :=
  match res_NewBalance result with
  | Some b =>
      if positive (BalanceDeducted result) then b ⊕ BalanceDeducted result
      else if positive (CommissionDeducted result) then b ⊕ CommissionDeducted result
      else us_Balance (pb_User p)
  | None => us_Balance (pb_User p)
  end.

Definition notifyBalanceLow (p : postUsageBillingParams) (result : UsageBillingApplyResult) : recording unit :=
  let deductedCost :=
    if IsSubscriptionBill p then
      if positive (CommissionDeducted result) then CommissionDeducted result else calculatePrivateGroupCommissionCost p
    else BalanceDeducted result in
  if not_positive deductedCost then mret tt
  else tell (CheckBalanceAfterDeduction (us_ID (pb_User p)) (resolveOldBalance p result) deductedCost).

Definition notifyAccountQuota (p : postUsageBillingParams) (result : UsageBillingApplyResult) : recording unit :=
  if not_positive (TotalCost (pb_Cost p)) || negb (IsAPIKeyOrBedrock (pb_Account p)) then mret tt
  else tell (CheckAccountQuotaAfterIncrement (ac_ID (pb_Account p)) (account_quota_cost p) (QuotaState result)).

Definition finalize_wallet (p : postUsageBillingParams) (result : UsageBillingApplyResult) : recording unit :=
  let cost := ActualCost (pb_Cost p) in
  let userID := us_ID (pb_User p) in
  if IsSubscriptionBill p then
    _ ← (match ak_GroupID (pb_APIKey p) with
         | Some groupID => when (positive cost) (tell (QueueUpdateSubscriptionUsage userID groupID cost))
         | None => mret tt
         end);
    when (positive (CommissionDeducted result)) (syncBalanceCacheAfterDeduction p result (CommissionDeducted result))
  else if positive cost then
    if positive (PointsDeducted result) then
      _ ← when (pb_HasAPIKeyService p) (tell (InvalidateAuthCacheByUserID userID));
      tell (InvalidateUserBalance userID)
    else if positive (BalanceDeducted result) then syncBalanceCacheAfterDeduction p result (BalanceDeducted result)
    else syncBalanceCacheAfterDeduction p result cost
  else mret tt.

Fixpoint credit_users (users : list Z) : recording unit :=
  match users with
  | [] => mret tt
  | userID :: rest => _ ← when (0 <? userID) (tell (InvalidateUserBalance userID)); credit_users rest
  end.

Definition finalizePostUsageBilling (p : postUsageBillingParams) (result : UsageBillingApplyResult) : recording unit :=
  let cost := ActualCost (pb_Cost p) in
  _ ← finalize_wallet p result;
  _ ← credit_users (BalanceCreditUserIDs result);
  _ ← when (positive cost && HasRateLimits (pb_APIKey p)) (tell (QueueUpdateAPIKeyRateLimitUsage (ak_ID (pb_APIKey p)) cost));
  _ ← tell (ScheduleLastUsedUpdate (ac_ID (pb_Account p)));
  _ ← notifyBalanceLow p result;
  notifyAccountQuota p result.

(** The identifier is never empty. *)
Definition applyUsageBilling (requestID : string) (usageLog : UsageLog) (p : postUsageBillingParams) : recording (outcome bool) :=
  attached ← attachAccountShareBillingSnapshot (buildUsageBillingCommand (time_now env) requestID usageLog p) p;
  match attached with
  | Failure e => mret (Failure e)
  | Success cmd =>
      applied ← call (Bill cmd);
      match applied with
      | Failure e => mret (Failure e)
      | Success None => _ ← tell (ScheduleLastUsedUpdate (ac_ID (pb_Account p))); mret (Success false)
      | Success (Some result) =>
          if negb (Applied result) then _ ← tell (ScheduleLastUsedUpdate (ac_ID (pb_Account p))); mret (Success false) else
          _ ← when (APIKeyQuotaExhausted result && pb_HasAPIKeyService p && (ak_Key (pb_APIKey p) <>s? ""))
                (tell (InvalidateAuthCacheByKey (ak_Key (pb_APIKey p))));
          _ ← finalizePostUsageBilling p result;
          mret (Success true)
      end
  end.

(** ** Costs (gateway_service.go) *)

(** The prices of the group's channel, looked up twice. *)
Definition with_channels (gid : Z) : recording grouped :=
  first ← call Channels;
  second ← call Channels;
  mret (Some (gid, (first, second))).

Definition resolveChannelPricing (billingModel : string) (apiKey : APIKey) : recording (option (Z * ResolvedPricing)) :=
  match ak_Group apiKey with
  | None => mret None
  | Some g =>
      group ← with_channels (gr_ID g);
      resolved ← call (ResolvePrice billingModel group);
      mret (if Source resolved =s? PricingSourceChannel then Some (gr_ID g, resolved) else None)
  end.

Definition image_config (apiKey : APIKey) : option ImagePriceConfig := gr_ImagePrices <$> ak_Group apiKey.
Definition image_rate (apiKey : APIKey) (multiplier : float64) : float64 :=
  resolveImageRateMultiplier ((fun g => (gr_ImageRateIndependent g, gr_ImageRateMultiplier g)) <$> ak_Group apiKey) multiplier.

(** An error costs nothing. *)
Definition cost_or_zero (cost : result CostBreakdown) : CostBreakdown := match cost with Ok c => c | Err _ => zero_CostBreakdown end.

Definition image_tokens (usage : ClaudeUsage) : UsageTokens :=
  zero_UsageTokens <| InputTokens := cu_InputTokens usage |> <| OutputTokens := cu_OutputTokens usage |>
    <| ImageOutputTokens := cu_ImageOutputTokens usage |>.

Definition calculateImageCost (result : ForwardResult) (apiKey : APIKey) (billingModel : string) (multiplier : float64)
  : recording CostBreakdown :=
  resolved ← resolveChannelPricing billingModel apiKey;
  match resolved with
  | Some (gid, resolved) =>
      cost ← call (UnifiedCost None (mkCostInput billingModel (image_tokens (fr_Usage result)) 1 "" multiplier "" (Some resolved)));
      mret (cost_or_zero cost)
  | None =>
      call (ImageCost billingModel (fr_ImageSize result) (fr_ImageCount result) (image_config apiKey) (image_rate apiKey multiplier))
  end.

Definition usage_tokens (usage : ClaudeUsage) : UsageTokens :=
  mkUsageTokens (cu_InputTokens usage) (cu_OutputTokens usage) (cu_CacheCreationInputTokens usage) (cu_CacheReadInputTokens usage)
    (cu_CacheCreation5mTokens usage) (cu_CacheCreation1hTokens usage) (cu_ImageOutputTokens usage).

Definition calculateTokenCost (result : ForwardResult) (apiKey : APIKey) (billingModel : string) (multiplier : float64)
    (opts : recordUsageOpts) : recording CostBreakdown :=
  let tokens := usage_tokens (fr_Usage result) in
  resolved ← resolveChannelPricing billingModel apiKey;
  cost ← (match resolved with
          | Some (gid, resolved) => call (UnifiedCost None (mkCostInput billingModel tokens 1 "" multiplier "" (Some resolved)))
          | None =>
              if 0 <? LongContextThreshold opts
              then call (LongContextCost billingModel tokens multiplier (LongContextThreshold opts) (LongContextMultiplier opts))
              else call (TierCost billingModel tokens multiplier "")
          end);
  mret (cost_or_zero cost).

Definition calculateRecordUsageCost (result : ForwardResult) (apiKey : APIKey) (billingModel : string) (multiplier : float64)
    (opts : recordUsageOpts) : recording CostBreakdown :=
  if 0 <? fr_ImageCount result then calculateImageCost result apiKey billingModel multiplier
  else calculateTokenCost result apiKey billingModel multiplier opts.

(** ** RecordUsage of the gateway *)

(** Input tokens billed as read from the cache, after a sticky session was switched. *)
Definition force_cache (force : bool) (usage : ClaudeUsage) : ClaudeUsage :=
  if force && (0 <? cu_InputTokens usage) then
    usage <| cu_CacheReadInputTokens := add64 (cu_CacheReadInputTokens usage) (cu_InputTokens usage) |> <| cu_InputTokens := 0 |>
  else usage.

(** The usage as it is billed, and whether its cached tokens were moved. *)
Definition override_ttl (injected : bool) (account : Account) (usage : ClaudeUsage) : ClaudeUsage * bool :=
  match resolveCacheTTLUsageOverrideTarget injected account with
  | Some target =>
      let usage := fst (applyCacheTTLOverride usage target) in
      (usage, 0 <? add64 (cu_CacheCreation5mTokens usage) (cu_CacheCreation1hTokens usage))
  | None => (usage, false)
  end.

Definition rate_of (apiKey : APIKey) (user : User) : recording float64 :=
  match ak_GroupID apiKey, ak_Group apiKey with
  | Some groupID, Some g => userGroupRateResolver_Resolve (us_ID user) groupID (gr_RateMultiplier g)
  | _, _ => mret (default_RateMultiplier env)
  end.

Definition billing_model (result : ForwardResult) (channel : ChannelUsageFields) : string :=
  let model := forwardResultBillingModel (fr_Model result) (fr_UpstreamModel result) in
  let model :=
    if (cf_BillingModelSource channel =s? BillingModelSourceChannelMapped) && (cf_ChannelMappedModel channel <>s? "")
    then cf_ChannelMappedModel channel else model in
  if (cf_BillingModelSource channel =s? BillingModelSourceRequested) && (cf_OriginalModel channel <>s? "")
  then cf_OriginalModel channel else model.

Definition requested_model (model : string) (channel : ChannelUsageFields) : string :=
  if cf_OriginalModel channel <>s? "" then cf_OriginalModel channel else model.

Definition is_subscription (apiKey : APIKey) : bool := default false (IsSubscriptionType <$> ak_Group apiKey).

Definition resolveBillingMode (imageCount : Z) (cost : CostBreakdown) : string :=
  if BillingMode cost <>s? "" then BillingMode cost
  else if 0 <? imageCount then BillingModeImage else BillingModeToken.

Definition kiro_credits (credits : float64) : option float64 := if positive credits then Some credits else None.

Definition buildRecordUsageLog (input : recordUsageCoreInput) (result : ForwardResult) (multiplier accountRateMultiplier : float64)
    (billingType : Z) (cacheTTLOverridden : bool) (cost : CostBreakdown) : usage_log :=
  let usage := fr_Usage result in
  let channel := in_Channel input in
  let apiKey := in_APIKey input in
  mkLog
    (mkUsageLog 0 (resolveUsageBillingRequestID (fr_RequestID result)) (ak_ID apiKey) (us_ID (in_User input)) (ac_ID (in_Account input))
       (fr_Model result) billingType (cu_InputTokens usage) (cu_OutputTokens usage) (cu_CacheCreationInputTokens usage)
       (cu_CacheReadInputTokens usage) (fr_ImageCount result) None (fr_ReasoningEffort result) (in_Subscription input)
       (ak_GroupID apiKey) (TotalCost cost) (ActualCost cost) None (Some accountRateMultiplier) (Some (time_now env)))
    (requested_model (fr_Model result) channel) (optionalNonEqualStringPtr (fr_UpstreamModel result) (fr_Model result))
    (optionalInt64Ptr (cf_ChannelID channel)) (optionalTrimmedStringPtr (cf_ModelMappingChain channel))
    (Some (resolveBillingMode (fr_ImageCount result) cost)) (optionalTrimmedStringPtr (in_InboundEndpoint input))
    (optionalTrimmedStringPtr (in_UpstreamEndpoint input)) (cu_ReasoningTokens usage) (cu_CacheCreation5mTokens usage)
    (cu_CacheCreation1hTokens usage) (cu_ImageOutputTokens usage) (ImageOutputCost cost) (InputCost cost) (OutputCost cost)
    (CacheCreationCost cost) (CacheReadCost cost) multiplier (kiro_credits (cu_KiroCredits usage)) (fr_Stream result) false
    (Some (fr_DurationMs result)) (fr_FirstTokenMs result) (optionalTrimmedStringPtr (fr_ImageSize result)) cacheTTLOverridden
    (optionalTrimmedStringPtr (in_UserAgent input)) (optionalTrimmedStringPtr (in_IPAddress input)).

(** [applyAccountStatsCost], for a key of a group. *)
Definition apply_stats (apiKey : APIKey) (account : Account) (upstreamModel model : string) (tokens : UsageTokens) (cost : CostBreakdown)
    (usageLog : usage_log) : recording usage_log :=
  match ak_GroupID apiKey with
  | None => mret usageLog
  | Some groupID =>
      first ← call Channels;
      second ← call Channels;
      stats ← call (StatsCost first second (ac_ID account) groupID upstreamModel model tokens (TotalCost cost));
      mret (usageLog <| lg_billed := (lg_billed usageLog) <| log_AccountStatsCost := stats |> |>)
  end.

Definition commission_rate (apiKey : APIKey) : recording float64 :=
  if is_subscription apiKey && default false (IsUserPrivateScope <$> ak_Group apiKey) then
    rate ← call CommissionRate;
    mret (match rate with Success rate => rate | Failure _ => f64_zero end)
  else mret f64_zero.

(** The end both gateways share: the log is billed, then written. *)
Definition bill_log (requestID : string) (usageLog : usage_log) (cost : CostBreakdown) (user : User) (apiKey : APIKey) (account : Account)
    (subscription : option Z) (payloadHash : string) (hasAPIKeyService : bool) : recording (option error) :=
  if run_simple env then
    _ ← call (WriteLog usageLog);
    _ ← tell (ScheduleLastUsedUpdate (ac_ID account));
    mret None
  else
    commissionRate ← commission_rate apiKey;
    applied ← applyUsageBilling requestID (lg_billed usageLog)
      (mkParams cost user apiKey account subscription (resolveUsageBillingPayloadFingerprint payloadHash) (is_subscription apiKey)
         commissionRate (BillingRateMultiplier account) hasAPIKeyService);
    match applied with
    | Failure e => mret (Some e)
    | Success _ => _ ← call (WriteLog usageLog); mret None
    end.

Definition stats_tokens (usage : ClaudeUsage) : UsageTokens :=
  zero_UsageTokens <| InputTokens := cu_InputTokens usage |> <| OutputTokens := cu_OutputTokens usage |>
    <| CacheCreationTokens := cu_CacheCreationInputTokens usage |> <| CacheReadTokens := cu_CacheReadInputTokens usage |>
    <| ImageOutputTokens := cu_ImageOutputTokens usage |>.

Definition missing_subscription (apiKey : APIKey) (subscription : option Z) : bool := is_subscription apiKey && negb (is_some subscription).
Definition billing_type (apiKey : APIKey) : Z := if is_subscription apiKey then BillingTypeSubscription else BillingTypeBalance.

Definition recordUsageCore (input : recordUsageCoreInput) (opts : recordUsageOpts) : recording (option error) :=
  let apiKey := in_APIKey input in
  let account := in_Account input in
  injected ← (if negb (IsCacheTTLOverrideEnabled account) && IsAnthropicOAuthOrSetupToken account then call CacheTTLInjected else mret false);
  let '(usage, cacheTTLOverridden) := override_ttl injected account (force_cache (in_ForceCacheBilling input) (fr_Usage (in_Result input))) in
  let result := (in_Result input) <| fr_Usage := usage |> in
  multiplier ← rate_of apiKey (in_User input);
  cost ← calculateRecordUsageCost result apiKey (billing_model result (in_Channel input)) multiplier opts;
  if missing_subscription apiKey (in_Subscription input) then mret (Some ErrSubscriptionNotFound) else
  let usageLog := buildRecordUsageLog input result multiplier (BillingRateMultiplier account) (billing_type apiKey) cacheTTLOverridden cost in
  usageLog ← apply_stats apiKey account (fr_UpstreamModel result) (fr_Model result) (stats_tokens usage) cost usageLog;
  bill_log (log_RequestID (lg_billed usageLog)) usageLog cost (in_User input) apiKey account (in_Subscription input)
    (in_RequestPayloadHash input) (in_HasAPIKeyService input).

Definition RecordUsage (input : recordUsageCoreInput) : recording (option error) := recordUsageCore input (mkOpts 0 f64_zero).
Definition RecordUsageWithLongContext (input : recordUsageCoreInput) (threshold : Z) (multiplier : float64) : recording (option error) :=
  recordUsageCore input (mkOpts threshold multiplier).

(** ** RecordUsage for OpenAI (openai_gateway_service.go) *)

Definition no_usage (result : OpenAIForwardResult) : bool :=
  let usage := of_Usage result in
  forallb (Z.eqb 0) [ou_InputTokens usage; ou_OutputTokens usage; ou_CacheCreationInputTokens usage; ou_CacheReadInputTokens usage;
                     ou_ImageOutputTokens usage; of_ImageCount result].

(** The input tokens include those of the cache. *)
Definition openai_tokens (usage : OpenAIUsage) : UsageTokens :=
  mkUsageTokens (Z.max 0 (sub64 (sub64 (ou_InputTokens usage) (ou_CacheReadInputTokens usage)) (ou_CacheCreationInputTokens usage)))
    (ou_OutputTokens usage) (ou_CacheCreationInputTokens usage) (ou_CacheReadInputTokens usage) 0 0 (ou_ImageOutputTokens usage).

Definition openai_billing_model (result : OpenAIForwardResult) (channel : ChannelUsageFields) : string :=
  let model := forwardResultBillingModel (of_Model result) (of_UpstreamModel result) in
  let model := if of_BillingModel result <>s? "" then trim_space (of_BillingModel result) else model in
  let mapped := cf_ChannelMappedModel channel in
  let model :=
    if (cf_BillingModelSource channel =s? BillingModelSourceChannelMapped) && (mapped <>s? "") && (mapped <>s? cf_OriginalModel channel)
    then mapped else model in
  if (cf_BillingModelSource channel =s? BillingModelSourceRequested) && (cf_OriginalModel channel <>s? "")
  then cf_OriginalModel channel else model.

Definition calculateOpenAIImageCost (billingModel : string) (apiKey : APIKey) (result : OpenAIForwardResult) (multiplier : float64)
  : recording CostBreakdown :=
  let by_size :=
    call (ImageCost billingModel (of_ImageSize result) (of_ImageCount result) (image_config apiKey) (image_rate apiKey multiplier)) in
  resolved ← resolveChannelPricing billingModel apiKey;
  match resolved with
  | Some (gid, resolved) =>
      if per_request_mode (rp_Mode resolved) then
        cost ← call (UnifiedCost None
          (mkCostInput billingModel zero_UsageTokens 1 (of_ImageSize result) multiplier "" (Some resolved)));
        match cost with Ok cost => mret cost | Err _ => by_size end
      else by_size
  | None => by_size
  end.

Definition calculateOpenAIRecordUsageCost (forwarded : OpenAIForwardResult) (apiKey : APIKey) (billingModel : string) (multiplier : float64)
    (tokens : UsageTokens) (serviceTier : string) : recording (result CostBreakdown) :=
  let by_tokens :=
    match ak_Group apiKey with
    | Some g =>
        group ← with_channels (gr_ID g);
        call (UnifiedCost group (mkCostInput billingModel tokens 1 "" multiplier serviceTier None))
    | None => call (TierCost billingModel tokens multiplier serviceTier)
    end in
  if 0 <? of_ImageCount forwarded then
    resolved ← resolveChannelPricing billingModel apiKey;
    if match resolved with Some (_, r) => rp_Mode r <>s? BillingModeToken | None => true end then
      cost ← calculateOpenAIImageCost billingModel apiKey forwarded multiplier;
      mret (Ok cost)
    else by_tokens
  else by_tokens.

Definition non_empty (s : string) : option string := if s =s? "" then None else Some s.

(** In a session over a WebSocket every turn has an identifier of its own. *)
Definition openai_request_id (result : OpenAIForwardResult) : string :=
  let upstream := trim_space (of_RequestID result) in
  if of_OpenAIWSMode result && (upstream <>s? "") then upstream else resolveUsageBillingRequestID (of_RequestID result).

(** The channel's identifier stays unset: the line that would set it is part of a comment. *)
Definition openai_usage_log (input : OpenAIRecordUsageInput) (tokens : UsageTokens) (multiplier accountRateMultiplier : float64)
    (cost : CostBreakdown) : usage_log :=
  let result := oi_Result input in
  let channel := oi_Channel input in
  let apiKey := oi_APIKey input in
  mkLog
    (mkUsageLog 0 (openai_request_id result) (ak_ID apiKey) (us_ID (oi_User input)) (ac_ID (oi_Account input)) (of_Model result)
       (billing_type apiKey) (InputTokens tokens) (OutputTokens tokens) (CacheCreationTokens tokens) (CacheReadTokens tokens)
       (of_ImageCount result) (of_ServiceTier result) (of_ReasoningEffort result) (oi_Subscription input) (ak_GroupID apiKey)
       (TotalCost cost) (ActualCost cost) None (Some accountRateMultiplier) (Some (time_now env)))
    (requested_model (of_Model result) channel) (optionalNonEqualStringPtr (of_UpstreamModel result) (of_Model result))
    None (optionalTrimmedStringPtr (cf_ModelMappingChain channel)) (Some (resolveBillingMode (of_ImageCount result) cost))
    (optionalTrimmedStringPtr (oi_InboundEndpoint input)) (optionalTrimmedStringPtr (oi_UpstreamEndpoint input))
    (ou_ReasoningTokens (of_Usage result)) 0 0 (ImageOutputTokens tokens) (ImageOutputCost cost) (InputCost cost) (OutputCost cost)
    (CacheCreationCost cost) (CacheReadCost cost) multiplier (kiro_credits (ou_KiroCredits (of_Usage result))) (of_Stream result)
    (of_OpenAIWSMode result) (Some (of_DurationMs result)) (of_FirstTokenMs result) (optionalTrimmedStringPtr (of_ImageSize result)) false
    (non_empty (oi_UserAgent input)) (non_empty (oi_IPAddress input)).

Definition OpenAI_RecordUsage (input : OpenAIRecordUsageInput) : recording (option error) :=
  let result := oi_Result input in
  let apiKey := oi_APIKey input in
  let account := oi_Account input in
  _ ← when (ac_Platform account =s? PlatformOpenAI) (tell (ResetOpenAI403Counter (ac_ID account)));
  if no_usage result then mret None else
  let tokens := openai_tokens (of_Usage result) in
  multiplier ← rate_of apiKey (oi_User input);
  cost ← calculateOpenAIRecordUsageCost result apiKey (openai_billing_model result (oi_Channel input)) multiplier tokens
    (default "" (trim_space <$> of_ServiceTier result));
  let cost := cost_or_zero cost in
  if missing_subscription apiKey (oi_Subscription input) then mret (Some ErrSubscriptionNotFound) else
  let usageLog := openai_usage_log input tokens multiplier (BillingRateMultiplier account) cost in
  usageLog ← apply_stats apiKey account (of_UpstreamModel result) (of_Model result) tokens cost usageLog;
  bill_log (log_RequestID (lg_billed usageLog)) usageLog cost (oi_User input) apiKey account (oi_Subscription input)
    (oi_RequestPayloadHash input) (oi_HasAPIKeyService input).

End Recording.
