(* ===== verification/UsageRecordingSpec.v ===== *)
(** * Recordings, side by side

    Any number of recordings run over the same fallback prices and the same
    tables, one command at a time.  The price file, the channels and the
    settings may be others for every command; a billing is any run of the
    repository's Apply over the tables.  The second part proves what they charge. *)

From Stdlib Require Import Floats.SpecFloat.
From S2P Require Import Prelude GoStrings AppErrors Program Interleaving PaymentData Transactions Decimals UsageBilling ModelNames.
From S2P Require Import Channels BillingService BillingSpec FairCosts UsageRecording.
From S2P Require UsageBillingSystem PricingService.

#[local] Opaque PricingService.constant.

(** The keys that requests come with, and the commission rates that the settings
    may answer. *)
Class circumstances : Type := mkCircumstances { known_key : APIKey -> Prop; commission_set : float64 -> Prop }.

Section System.
Context {D : decimal_ops} {Q : sql_database} {C : circumstances}.
Context (next_reset : Z -> account -> Z -> option Z).

(** ** The world *)

Record world : Type := mkWorld {
  prices : store;                       (* the fallback prices *)
  books : tables;
  charged : list UsageBillingCommand;   (* what was given to the repository *)
  logged : list usage_log;
  told : list notice;
}.
#[export] Instance eta_world : Settable world := fun w => mkWorld (prices w) (books w) (charged w) (logged w) (told w).

(** A calculation with a price file that sets nothing below zero, ranged over in some order. *)
Definition priced {A} (m : option pricing_map -> (nat -> list (string * PricingService.LiteLLMModelPricing) ->
    list (string * PricingService.LiteLLMModelPricing)) -> ST store A) (w : world) (r : A) (w' : world) : Prop :=
  exists file order, fair_file file /\ PricingService.some_order order /\
    r = fst (m file order (prices w)) /\ w' = w <| prices := snd (m file order (prices w)) |>.

(** A run of Apply, by a database that answers as UsageBillingSystem says. *)
Definition applies_to (c : UsageBillingCommand) (now : Z) (db : tables) (r : outcome UsageBillingApplyResult) (db' : tables) : Prop :=
  exists handle, obeys (UsageBillingSystem.answers next_reset) handle /\ run_alone handle (Apply (Some c)) (now, db) = (r, (now, db')).

Definition some_result (r : outcome UsageBillingApplyResult) : outcome (option UsageBillingApplyResult) :=
  match r with Success a => Success (Some a) | Failure e => Failure e end.

Definition answers R (c : rcmd R) (now : Z) (w : world) : R -> world -> Prop :=
  match c in rcmd R return R -> world -> Prop with
  | Channels => fun r w' => published r /\ w' = w
  | CommissionRate => fun r w' => (forall rate, r = Success rate -> commission_set rate) /\ w' = w
  | ResolvePrice model group => priced (fun file order => Resolve file order model group) w
  | UnifiedCost group input => priced (fun file order => CalculateCostUnified file order (Some group) input) w
  | TierCost model tokens rate tier => priced (fun file order => CalculateCostWithServiceTier file order model tokens rate tier) w
  | LongContextCost model tokens rate threshold extra =>
      priced (fun file order => CalculateCostWithLongContext file order model tokens rate threshold extra) w
  | ImageCost model size count config rate => priced (fun file order => mret (CalculateImageCost file order model size count config rate)) w
  | StatsCost first second accountID groupID upstreamModel requestedModel tokens totalCost =>
      priced (fun file order => accountStatsCost file order first second accountID groupID upstreamModel requestedModel tokens totalCost) w
  | Bill c => fun r w' => exists answer db', applies_to c now (books w) answer db' /\ r = some_result answer /\
      w' = w <| books := db' |> <| charged := c :: charged w |>
  | WriteLog l => fun _ w' => w' = w <| logged := l :: logged w |>
  | Tell n => fun _ w' => w' = w <| told := n :: told w |>
  | _ => fun _ w' => w' = w
  end.

(** ** What is recorded *)

Definition token_limit : Z := 2 ^ 60.
Definition sensible (n : Z) : Prop := 0 <= n < token_limit.

Definition fair_images (config : option ImagePriceConfig) : Prop :=
  forall c p, config = Some c -> In (Some p) [Price1K c; Price2K c; Price4K c] -> nonneg p = true.

Definition sensible_usage (u : ClaudeUsage) : Prop :=
  sensible (cu_InputTokens u) /\ sensible (cu_OutputTokens u) /\ sensible (cu_CacheCreationInputTokens u) /\
  sensible (cu_CacheReadInputTokens u) /\ sensible (cu_CacheCreation5mTokens u) /\ sensible (cu_CacheCreation1hTokens u).

Definition sensible_openai (u : OpenAIUsage) : Prop :=
  sensible (ou_InputTokens u) /\ sensible (ou_OutputTokens u) /\ sensible (ou_CacheCreationInputTokens u) /\
  sensible (ou_CacheReadInputTokens u).

Inductive may_start : recording unit -> Prop :=
| start_gateway env input opts : sensible_usage (fr_Usage (in_Result input)) -> fair_images (image_config (in_APIKey input)) ->
    known_key (in_APIKey input) -> may_start (_ ← recordUsageCore env input opts; mret tt)
| start_openai env input : sensible_openai (of_Usage (oi_Result input)) -> fair_images (image_config (oi_APIKey input)) ->
    known_key (oi_APIKey input) -> may_start (_ ← OpenAI_RecordUsage env input; mret tt).

(** ** What may be billed and written *)

(** A subscription group that users set up for themselves. *)
Definition private_subscription (key : APIKey) : bool := is_subscription key && default false (IsUserPrivateScope <$> ak_Group key).

(** The commission on a charge: none, or, with a key of such a group, the part of
    the charge that the settings say, and never more than all of it. *)
Definition commission_due (key : APIKey) (charge commission : float64) : Prop :=
  commission = f64_zero \/
  private_subscription key = true /\ not_positive charge = false /\
  exists rate, commission_set rate /\ not_positive rate = false /\ commission = charge ⊗ (if SFltb f64_one rate then f64_one else rate).

(** The command charges what its log says, for the key of a request: with a key
    of a subscription group the subscription, and the wallet only the commission;
    with any other key the wallet, and no commission. *)
Definition charged_as_logged (c : UsageBillingCommand) : Prop :=
  exists l key, cmd_UsageLog c = Some l /\ known_key key /\
    RequestID c = trim_space (log_RequestID l) /\ APIKeyID c = log_APIKeyID l /\ UserID c = log_UserID l /\ AccountID c = log_AccountID l /\
    log_APIKeyID l = ak_ID key /\ log_GroupID l = ak_GroupID key /\
    log_BillingType l = (if is_subscription key then BillingTypeSubscription else BillingTypeBalance) /\
    commission_due key (log_ActualCost l) (PrivateGroupCommissionCost c) /\
    if is_subscription key then
      is_some (SubscriptionID c) = true /\ SubscriptionID c = log_SubscriptionID l /\ BalanceCost c = f64_zero /\
      SubscriptionCost c = (if positive (log_TotalCost l) then log_ActualCost l else f64_zero)
    else
      SubscriptionCost c = f64_zero /\ BalanceCost c = (if positive (log_ActualCost l) then log_ActualCost l else f64_zero).

Definition command_costs (c : UsageBillingCommand) : list float64 :=
  [BalanceCost c; SubscriptionCost c; PrivateGroupCommissionCost c; APIKeyQuotaCost c; APIKeyRateLimitCost c; AccountQuotaCost c].
Definition fair_command (c : UsageBillingCommand) : Prop := Forall (fun x => nonneg x = true) (command_costs c).

Definition log_costs (l : usage_log) : list float64 :=
  [lg_InputCost l; lg_OutputCost l; lg_ImageOutputCost l; lg_CacheCreationCost l; lg_CacheReadCost l;
   log_TotalCost (lg_billed l); log_ActualCost (lg_billed l); default f64_zero (log_AccountStatsCost (lg_billed l))].
Definition fair_log (l : usage_log) : Prop := Forall (fun x => nonneg x = true) (log_costs l).

Record Inv (w : world) : Prop := {
  inv_prices : fair_store (prices w);
  inv_books : UsageBillingSystem.Inv (books w);
  inv_charged : Forall (fun c => charged_as_logged c /\ fair_command c) (charged w);
  inv_logged : Forall fair_log (logged w) }.

(** ** Commands *)

Definition allowed R (c : rcmd R) (K : list unit) : Prop :=
  match c with
  | ResolvePrice _ group => fair_group group
  | UnifiedCost group input => fair_group group /\ counted (ci_Tokens input) /\ forall r, Resolved input = Some r -> fair_resolved r
  | TierCost _ tokens _ _ => counted tokens
  | LongContextCost _ tokens _ _ _ => counted tokens /\ int64_range (CacheReadTokens tokens + InputTokens tokens)
  | ImageCost _ _ _ config _ => fair_images config
  | Bill c => charged_as_logged c /\ fair_command c
  | WriteLog l => fair_log l
  | _ => True
  end.

Definition possible R (c : rcmd R) : R -> Prop :=
  match c in rcmd R return R -> Prop with
  | Channels => published
  | CommissionRate => fun r => forall rate, r = Success rate -> commission_set rate
  | ResolvePrice _ _ => fair_resolved
  | UnifiedCost _ _ | TierCost _ _ _ _ | LongContextCost _ _ _ _ _ => fun r => forall b, r = Ok b -> fair_cost b
  | ImageCost _ _ _ _ _ => fair_cost
  | StatsCost _ _ _ _ _ _ _ _ => fun r => forall c, r = Some c -> nonneg c = true
  | _ => fun _ => True
  end.

Definition learned R (c : rcmd R) (r : R) : list unit := [].
Definition holds (f : unit) (w : world) : Prop := True.

Lemma priced_inv {A} m w (r : A) w' (P : A -> Prop) : Inv w -> priced m w r w' ->
  (forall file order, fair_file file -> PricingService.some_order order ->
     fair_store (snd (m file order (prices w))) /\ P (fst (m file order (prices w)))) ->
  P r /\ Inv w'.
Proof.
  intros [H1 H2 H3 H4] (file & order & Hf & Ho & -> & ->) H. destruct (H file order Hf Ho) as [Hs Hp]. by split.
Qed.

Lemma billed_inv c now db r db' : UsageBillingSystem.Inv db -> applies_to c now db r db' -> UsageBillingSystem.Inv db'.
Proof.
  intros Hi (handle & Hh & E). unfold Apply in E. cbv zeta in E. destruct (_ =s? "") in E; [by injection E as <- <-|].
  cbn [call run_alone] in E. specialize (Hh _ (BillingTransaction (Normalize c)) now db).
  destruct (handle _ _ _) as [r0 [now' db0]]. destruct Hh as [-> Ha]. injection E as <- <-.
  exact (proj1 (proj2 (UsageBillingSystem.billing_step_sound next_reset _ (BillingTransaction (Normalize c)) [] _ _ _ _ Hi (List.Forall_nil _) I Ha))).
Qed.

(** What [fair_result] says, as a step wants it. *)
Lemma result_fair {A} (P : A -> Prop) (m : ST store (result A)) s : fair_store s -> fair_result P m s ->
  fair_store (snd (m s)) /\ (forall b, fst (m s) = Ok b -> P b).
Proof. intros Hs [H1 H2]. by rewrite H1. Qed.

Lemma recording_step_sound R (c : rcmd R) K now w r w' :
  Inv w -> Forall (fun f => holds f w) K -> allowed R c K -> answers R c now w r w' ->
  possible R c r /\ Inv w' /\ Forall (fun f => holds f w') (learned R c r) /\ (forall f, holds f w -> holds f w').
Proof.
  intros Hi _ Hal Ha. enough (H : possible R c r /\ Inv w') by (destruct H as [H1 H2]; split_and!; [done|done|constructor|done]).
  pose proof (inv_prices w Hi) as Hs.
  destruct c; cbn [answers allowed possible] in *; try (by subst w'); try (by destruct Ha; simplify_eq).
  - apply (priced_inv _ w r w' _ Hi Ha). intros file order Hf Ho. destruct (Resolve_fair file order Hf Ho model group _ Hs Hal) as [H1 H2]. by split.
  - destruct Hal as (Hg & Ht & Hr). apply (priced_inv _ w r w' (fun r => forall b, r = Ok b -> fair_cost b) Hi Ha). intros file order Hf Ho. by apply unified_cost_fair.
  - apply (priced_inv _ w r w' (fun r => forall b, r = Ok b -> fair_cost b) Hi Ha). intros file order Hf Ho. by apply result_fair, tier_cost_fair.
  - destruct Hal as [Ht Hr]. apply (priced_inv _ w r w' (fun r => forall b, r = Ok b -> fair_cost b) Hi Ha). intros file order Hf Ho. by apply result_fair, long_cost_fair.
  - apply (priced_inv _ w r w' _ Hi Ha). intros file order Hf Ho. split; [done|]. by apply image_cost_fair.
  - apply (priced_inv _ w r w' (fun r => forall c, r = Some c -> nonneg c = true) Hi Ha). intros file order Hf Ho.
    destruct (account_cost_fair file order Hf Ho first second accountID groupID upstreamModel requestedModel tokens totalCost _ Hs) as [-> H]. by split.
  - destruct Ha as (answer & db' & Hb & -> & ->). split; [done|]. destruct Hi. split; cbn; [done|by apply (billed_inv c now (books w) answer)| |done].
    by constructor.
  - subst w'. destruct Hi. split; [done|]. split; cbn; try done. by constructor.
  - subst w'. destruct Hi. split; [done|]. by split.
Qed.

End System.

(** * What recordings charge

    Whatever recordings run side by side, the repository is only given commands
    that charge what their log says, and nothing below zero is charged or
    written. *)

#[local] Opaque PricingService.constant.

Section Charges.
Context {C : circumstances}.

(** ** Reasoning about recordings *)

(** The program only issues allowed commands, and ends with [P]. *)
Definition yields {A} (p : recording A) (P : A -> Prop) : Prop := forall K, knows allowed learned possible p K (fun a _ => P a).

Lemma yields_ret {A} (a : A) (P : A -> Prop) : P a -> yields (mret a) P.
Proof. by intros H K. Qed.

Lemma yields_bind {A B} (p : recording A) (f : A -> recording B) (P : A -> Prop) (R : B -> Prop) :
  yields p P -> (forall a, P a -> yields (f a) R) -> yields (p ≫= f) R.
Proof. intros Hp Hf K. apply knows_bind. eapply knows_mono; [apply Hp|]. intros a K' Ha. by apply Hf. Qed.

Lemma yields_call {R} (c : rcmd R) (P : R -> Prop) : (forall K, allowed R c K) -> (forall r, possible R c r -> P r) -> yields (call c) P.
Proof. intros Ha Hp K. by apply knows_call. Qed.

Lemma yields_mono {A} (p : recording A) (P P' : A -> Prop) : yields p P -> (forall a, P a -> P' a) -> yields p P'.
Proof. intros Hp H K. eapply knows_mono; [apply Hp|]. intros a K'. apply H. Qed.

Lemma yields_any {A} (p : recording A) P : yields p P -> yields p (fun _ => True).
Proof. intros H. by eapply yields_mono. Qed.

Lemma yields_tell n P : P tt -> yields (tell n) P.
Proof. intros H. apply yields_call; [done|]. by intros []. Qed.

Lemma yields_when b p : yields p (fun _ => True) -> yields (when b p) (fun _ => True).
Proof. intros H. destruct b; [done|]. by apply yields_ret. Qed.

Create HintDb yields.

(** For programs whose answers do not matter. *)
Ltac yields_any :=
  repeat first
    [ progress (auto with yields nocore)
    | apply yields_ret; exact I
    | apply yields_tell; exact I
    | apply yields_when
    | apply (yields_bind _ _ (fun _ => True)); [|intros ? _]
    | apply yields_call; [done|done]
    | match goal with |- yields (if ?b then _ else _) _ => destruct b end
    | match goal with |- yields (match ?x with _ => _ end) _ => destruct x end
    | progress cbv zeta ].

(** ** Rates, notices *)

Lemma yields_rate env k u : yields (rate_of env k u) (fun _ => True).
Proof. unfold rate_of, userGroupRateResolver_Resolve. yields_any. Qed.

(** The rate is zero, or the group's owner and the settings ask for it. *)
Definition rate_asked (key : APIKey) (rate : float64) : Prop := rate = f64_zero \/ private_subscription key = true /\ commission_set rate.

Lemma yields_commission k : yields (commission_rate k) (rate_asked k).
Proof.
  unfold commission_rate. fold (private_subscription k). destruct (private_subscription k) eqn:E; [|apply yields_ret; by left].
  apply (yields_bind _ _ (fun r => forall rate, r = Success rate -> commission_set rate)); [by apply yields_call|].
  intros [rate|e] H; apply yields_ret; [right; split; [done|by apply H]|by left].
Qed.

Lemma yields_sync env p r a : yields (syncBalanceCacheAfterDeduction env p r a) (fun _ => True).
Proof. unfold syncBalanceCacheAfterDeduction. yields_any. Qed.

Lemma yields_credit users : yields (credit_users users) (fun _ => True).
Proof. induction users; cbn; yields_any. Qed.
#[local] Hint Resolve yields_rate yields_sync yields_credit : yields.

Lemma yields_finalize env p r : yields (finalizePostUsageBilling env p r) (fun _ => True).
Proof. unfold finalizePostUsageBilling, finalize_wallet, notifyBalanceLow, notifyAccountQuota. yields_any. Qed.
#[local] Hint Resolve yields_finalize : yields.

(** ** The command *)

Definition share_free (c c' : UsageBillingCommand) : Prop :=
  (RequestID c', APIKeyID c', UserID c', AccountID c', SubscriptionID c', cmd_UsageLog c', command_costs c') =
  (RequestID c, APIKeyID c, UserID c, AccountID c, SubscriptionID c, cmd_UsageLog c, command_costs c).

Lemma attach_keeps c p : yields (attachAccountShareBillingSnapshot c p) (fun r => forall c', r = Success c' -> share_free c c').
Proof.
  unfold attachAccountShareBillingSnapshot. cbv zeta. set (c1 := c <| ShareSnapshotCaptured := true |> <| ShareModeSnapshot := _ |>
    <| ShareStatusSnapshot := _ |> <| SharePlatform := _ |> <| ShareOwnerUserID := _ |> <| SharePolicyID := _ |>).
  assert (H1 : share_free c c1) by done. assert (Hend : yields (mret (Success c1)) (fun r => forall c', r = Success c' -> share_free c c')).
  { apply yields_ret. by intros c' [= <-]. }
  clearbody c1. destruct (ac_OwnerUserID _) as [owner|]; [|done]. destruct (_ || _); [done|]. destruct (_ || _); [done|].
  apply (yields_bind _ _ (fun _ => True)); [by apply yields_call|]. intros [[policy|]|e] _; [|done|by apply yields_ret].
  destruct (_ && _); [done|]. apply yields_ret. intros c' [= <-]. exact H1.
Qed.

Lemma charged_share c c' : share_free c c' -> charged_as_logged c /\ fair_command c -> charged_as_logged c' /\ fair_command c'.
Proof.
  intros [= E1 E2 E3 E4 E5 E6 E7 E8 E9 E10 E11 E12]. unfold charged_as_logged, fair_command, command_costs.
  by rewrite E1, E2, E3, E4, E5, E6, E7, E8, E9, E10, E11, E12.
Qed.

(** The command, before it is normalised, and after. *)
Lemma normalized c : share_free (c <| RequestID := trim_space (RequestID c) |>) (Normalize c).
Proof. unfold Normalize. cbv zeta. by destruct (_ =s? ""). Qed.

Lemma BillingRateMultiplier_nonneg a : nonneg (BillingRateMultiplier a) = true.
Proof.
  unfold BillingRateMultiplier. destruct (ac_RateMultiplier a) as [m|]; [|by vm_compute]. destruct (SFltb m f64_zero) eqn:E; [by vm_compute|].
  unfold nonneg. by rewrite E.
Qed.

Lemma fair_total c : fair_cost c -> nonneg (TotalCost c) = true /\ nonneg (ActualCost c) = true.
Proof. unfold fair_cost, costs. intros H. repeat (apply Forall_cons_1 in H as [? H]). done. Qed.

Lemma commission_nonneg p : fair_cost (pb_Cost p) -> nonneg (calculatePrivateGroupCommissionCost p) = true.
Proof.
  intros [_ Ha]%fair_total. unfold calculatePrivateGroupCommissionCost. destruct (ak_Group _); [|done]. destruct (negb _); [done|].
  destruct (_ || _); [done|]. destruct (not_positive _) eqn:E; [done|]. apply nonneg_mul; [done|]. destruct (SFltb f64_one _); [by vm_compute|].
  apply (if_positive_fair (PrivateGroupCommissionRate p)). unfold if_positive. by rewrite E.
Qed.

(** What the log and the parameters of a recording have in common. *)
Record matching (l : UsageLog) (p : postUsageBillingParams) : Prop := mkMatching {
  mt_key : log_APIKeyID l = ak_ID (pb_APIKey p);
  mt_user : log_UserID l = us_ID (pb_User p);
  mt_account : log_AccountID l = ac_ID (pb_Account p);
  mt_type : log_BillingType l = (if IsSubscriptionBill p then BillingTypeSubscription else BillingTypeBalance);
  mt_subscription : log_SubscriptionID l = pb_Subscription p;
  mt_given : IsSubscriptionBill p = true -> is_some (pb_Subscription p) = true;
  mt_total : log_TotalCost l = TotalCost (pb_Cost p);
  mt_actual : log_ActualCost l = ActualCost (pb_Cost p);
  mt_known : known_key (pb_APIKey p);
  mt_group : log_GroupID l = ak_GroupID (pb_APIKey p);
  mt_kind : IsSubscriptionBill p = is_subscription (pb_APIKey p);
  mt_rate : rate_asked (pb_APIKey p) (PrivateGroupCommissionRate p);
  mt_multiplier : nonneg (pb_AccountRateMultiplier p) = true }.

(** The commission that is put into the command. *)
Lemma commission_is_due l p : matching l p -> commission_due (pb_APIKey p) (ActualCost (pb_Cost p)) (calculatePrivateGroupCommissionCost p).
Proof.
  intros Hm. unfold calculatePrivateGroupCommissionCost. pose proof (mt_rate l p Hm) as Hr. destruct (ak_Group (pb_APIKey p)) as [g|]; [|by left].
  destruct (negb _); [by left|]. destruct (negb _ || not_positive _) eqn:Hp; [by left|]. apply orb_false_iff in Hp as [_ Hp].
  cbv zeta. destruct (not_positive (PrivateGroupCommissionRate p)) eqn:E; [by left|].
  destruct Hr as [Hz|[Hk Hs]]; [rewrite Hz in E; by vm_compute in E|]. right. split; [done|]. split; [done|].
  by exists (PrivateGroupCommissionRate p).
Qed.

Lemma built_command now l p : matching l p -> fair_cost (pb_Cost p) ->
  let c := buildUsageBillingCommand now (log_RequestID l) l p in charged_as_logged c /\ fair_command c.
Proof.
  intros Hm Hc c. pose proof (commission_is_due l p Hm) as Hdue. destruct Hm as [Hk Hu Ha Ht Hs Hg Htot Hact Hkn Hgr Hkind _ Hm].
  destruct (fair_total _ Hc) as [Hc1 Hc2]. pose proof (commission_nonneg p Hc) as Hcom.
  unfold c, buildUsageBillingCommand. eapply charged_share; [apply normalized|].
  assert (Hq : nonneg (account_quota_cost p) = true) by (apply nonneg_mul; done).
  split.
  - exists l, (pb_APIKey p). rewrite Ht, Hk, Hgr, Hu, Ha, Hs, Htot, Hact, <- Hkind. destruct (IsSubscriptionBill p).
    + specialize (Hg eq_refl). destruct (pb_Subscription p) as [id|]; [|done].
      destruct (positive (TotalCost (pb_Cost p))), (shouldDeductAPIKeyQuota p), (shouldUpdateRateLimits p), (shouldUpdateAccountQuota p); cbn; by rewrite ?Hs.
    + destruct (positive (ActualCost (pb_Cost p))), (shouldDeductAPIKeyQuota p), (shouldUpdateRateLimits p), (shouldUpdateAccountQuota p); cbn; by rewrite ?Hs.
  - unfold fair_command, command_costs.
    destruct (IsSubscriptionBill p), (pb_Subscription p), (positive (TotalCost (pb_Cost p))), (positive (ActualCost (pb_Cost p))), (shouldDeductAPIKeyQuota p),
      (shouldUpdateRateLimits p), (shouldUpdateAccountQuota p); cbn; by repeat constructor.
Qed.

Section Recording.
Context (env : surroundings).

Lemma yields_billing l p : matching (lg_billed l) p -> fair_cost (pb_Cost p) ->
  yields (applyUsageBilling env (log_RequestID (lg_billed l)) (lg_billed l) p) (fun _ => True).
Proof.
  intros Hm Hc. unfold applyUsageBilling. eapply yields_bind; [apply attach_keeps|]. intros [c|e] Hshare; [|by apply yields_ret].
  specialize (Hshare c eq_refl). apply (yields_bind _ _ (fun _ => True)); [|intros; yields_any].
  apply yields_call; [|done]. intros K. eapply charged_share; [exact Hshare|]. by apply built_command.
Qed.

Lemma yields_bill_log l cost user key account subscription payload service :
  let p rate := mkParams cost user key account subscription (resolveUsageBillingPayloadFingerprint env payload) (is_subscription key) rate
    (BillingRateMultiplier account) service in
  (forall rate, rate_asked key rate -> matching (lg_billed l) (p rate)) -> fair_cost cost -> fair_log l ->
  yields (bill_log env (log_RequestID (lg_billed l)) l cost user key account subscription payload service) (fun _ => True).
Proof.
  intros p Hm Hc Hl. assert (Hw : yields (call (WriteLog l)) (fun _ => True)) by by apply yields_call.
  unfold bill_log. destruct (run_simple env).
  - apply (yields_bind _ _ (fun _ => True)); [exact Hw|]. intros. yields_any.
  - apply (yields_bind _ _ (rate_asked key)); [apply yields_commission|]. intros rate Hr.
    apply (yields_bind _ _ (fun _ => True)); [apply yields_billing; [by apply Hm|done]|]. intros [b|e] _; [|by apply yields_ret].
    apply (yields_bind _ _ (fun _ => True)); [exact Hw|]. intros. by apply yields_ret.
Qed.

(** ** Costs *)

Lemma cost_or_zero_fair r : (forall b, r = Ok b -> fair_cost b) -> fair_cost (cost_or_zero r).
Proof. intros H. destruct r as [b|e]; [by apply H|apply zero_fair_cost]. Qed.

Lemma yields_channels gid : yields (with_channels gid) fair_group.
Proof.
  unfold with_channels. apply (yields_bind _ _ published); [by apply yields_call|]. intros first H1.
  apply (yields_bind _ _ published); [by apply yields_call|]. intros second H2. apply yields_ret. by intros ? ? ? [= <- <- <-].
Qed.

Lemma yields_channel_pricing model key : yields (resolveChannelPricing model key) (fun r => forall gid x, r = Some (gid, x) -> fair_resolved x).
Proof.
  unfold resolveChannelPricing. destruct (ak_Group key) as [g|]; [|by apply yields_ret].
  apply (yields_bind _ _ fair_group); [apply yields_channels|]. intros group Hg.
  apply (yields_bind _ _ fair_resolved); [by apply yields_call|]. intros r Hr. apply yields_ret. destruct (_ =s? _); [|done]. by intros ? ? [= <- <-].
Qed.

(** With a price that was resolved before, no channel is asked. *)
Lemma yields_resolved_cost model tokens count size rate tier x : counted tokens -> fair_resolved x ->
  yields (call (UnifiedCost None (mkCostInput model tokens count size rate tier (Some x)))) (fun r => forall b, r = Ok b -> fair_cost b).
Proof. intros Ht Hx. apply yields_call; [|done]. intros K. split; [done|]. split; [done|]. by intros ? [= <-]. Qed.

Definition in_range (u : ClaudeUsage) : Prop := counted (usage_tokens u) /\ int64_range (cu_CacheReadInputTokens u + cu_InputTokens u).

Lemma yields_image_cost result key model rate : in_range (fr_Usage result) -> fair_images (image_config key) ->
  yields (calculateImageCost result key model rate) fair_cost.
Proof.
  intros [Hu _] Hi. unfold calculateImageCost. eapply yields_bind; [apply yields_channel_pricing|]. intros [[gid x]|] Hx.
  - eapply yields_bind; [apply yields_resolved_cost; [|by apply (Hx gid x)]|].
    + destruct Hu as (H1 & H2 & _). by repeat split.
    + intros r Hr. apply yields_ret. by apply cost_or_zero_fair.
  - by apply yields_call.
Qed.

Lemma yields_token_cost result key model rate opts : in_range (fr_Usage result) ->
  yields (calculateTokenCost result key model rate opts) fair_cost.
Proof.
  intros [Hu Hr]. unfold calculateTokenCost. cbv zeta. eapply yields_bind; [apply yields_channel_pricing|]. intros x Hx.
  apply (yields_bind _ _ (fun r => forall b, r = Ok b -> fair_cost b)); [|intros r H; apply yields_ret; by apply cost_or_zero_fair].
  destruct x as [[gid x]|]; [by apply yields_resolved_cost; [|apply (Hx gid x)]|]. destruct (_ <? _); by apply yields_call.
Qed.

Lemma yields_gateway_cost result key model rate opts : in_range (fr_Usage result) -> fair_images (image_config key) ->
  yields (calculateRecordUsageCost result key model rate opts) fair_cost.
Proof. intros Hu Hi. unfold calculateRecordUsageCost. destruct (_ <? _); [by apply yields_image_cost|by apply yields_token_cost]. Qed.

Lemma yields_openai_image_cost model key result rate : fair_images (image_config key) ->
  yields (calculateOpenAIImageCost model key result rate) fair_cost.
Proof.
  intros Hi. unfold calculateOpenAIImageCost. cbv zeta. eapply yields_bind; [apply yields_channel_pricing|].
  assert (Hsize : yields (call (ImageCost model (of_ImageSize result) (of_ImageCount result) (image_config key) (image_rate key rate))) fair_cost)
    by by apply yields_call.
  intros [[gid x]|] Hx; [|done]. destruct (per_request_mode _); [|done].
  eapply yields_bind; [apply yields_resolved_cost; [by repeat split|by apply (Hx gid x)]|]. intros [b|e] Hb; [|done]. apply yields_ret. by apply Hb.
Qed.

Lemma yields_openai_cost result key model rate tokens tier : counted tokens -> fair_images (image_config key) ->
  yields (calculateOpenAIRecordUsageCost result key model rate tokens tier) (fun r => forall b, r = Ok b -> fair_cost b).
Proof.
  intros Ht Hi. unfold calculateOpenAIRecordUsageCost. cbv zeta. set (by_tokens := match ak_Group key with Some g => _ | None => _ end).
  assert (Hby : yields by_tokens (fun r => forall b, r = Ok b -> fair_cost b)).
  { subst by_tokens. destruct (ak_Group key) as [g|]; [|by apply yields_call]. eapply yields_bind; [apply yields_channels|]. intros group Hg.
    by apply yields_call. }
  destruct (_ <? _); [|done]. eapply yields_bind; [apply yields_channel_pricing|]. intros x _. destruct (match x with Some _ => _ | None => _ end); [|done].
  apply (yields_bind _ _ fair_cost); [by apply yields_openai_image_cost|]. intros c Hc. apply yields_ret. by intros b [= <-].
Qed.

(** ** The log *)

Lemma yields_stats key account upstream model tokens cost l : fair_log l -> fair_cost cost ->
  yields (apply_stats key account upstream model tokens cost l) (fun l' => fair_log l' /\
    exists stats, l' = l <| lg_billed := (lg_billed l) <| log_AccountStatsCost := stats |> |>).
Proof.
  intros Hl Hc. unfold apply_stats. destruct (ak_GroupID key) as [gid|].
  - apply (yields_bind _ _ published); [by apply yields_call|]. intros first _. apply (yields_bind _ _ published); [by apply yields_call|].
    intros second _. apply (yields_bind _ _ (fun r => forall c, r = Some c -> nonneg c = true)); [by apply yields_call|]. intros stats Hs.
    apply yields_ret. split; [|by exists stats]. unfold fair_log, log_costs in *. cbn. repeat (apply Forall_cons_1 in Hl as [? Hl]).
    repeat (constructor; [done|]). constructor; [|done]. destruct stats as [c|]; [by apply Hs|done].
  - apply yields_ret. split; [done|]. exists (log_AccountStatsCost (lg_billed l)). destruct l as [[]]. done.
Qed.

Lemma fair_log_of_cost l cost : fair_cost cost -> lg_InputCost l = InputCost cost -> lg_OutputCost l = OutputCost cost ->
  lg_ImageOutputCost l = ImageOutputCost cost -> lg_CacheCreationCost l = CacheCreationCost cost -> lg_CacheReadCost l = CacheReadCost cost ->
  log_TotalCost (lg_billed l) = TotalCost cost -> log_ActualCost (lg_billed l) = ActualCost cost -> log_AccountStatsCost (lg_billed l) = None ->
  fair_log l.
Proof.
  unfold fair_log, log_costs, fair_cost, costs. intros Hc -> -> -> -> -> -> -> ->. repeat (apply Forall_cons_1 in Hc as [? Hc]).
  by repeat constructor.
Qed.

Lemma has_subscription key subscription : missing_subscription key subscription = false -> is_subscription key = true -> is_some subscription = true.
Proof. unfold missing_subscription. intros H E. rewrite E in H. by destruct subscription. Qed.

(** The usage as it is billed stays in range. *)
Lemma adjusted_in_range force injected account u : sensible_usage u -> in_range (fst (override_ttl injected account (force_cache force u))).
Proof.
  unfold sensible_usage, sensible, token_limit. intros (Hi & Ho & Hc & Hr & H5 & H1).
  assert (Hf : let u' := force_cache force u in in_range u' /\ 0 <= cu_CacheCreation5mTokens u' + cu_CacheCreation1hTokens u' < 2 ^ 62 /\
    cu_CacheCreationInputTokens u' < 2 ^ 60).
  { unfold force_cache, in_range, counted, int64_range. destruct (_ && _); cbn; rewrite ?add64_id by (unfold int64_range; lia); lia. }
  revert Hf. generalize (force_cache force u). clear. intros u [[Hu Hr] [Hs Hc]].
  unfold override_ttl. destruct (resolveCacheTTLUsageOverrideTarget injected account) as [target|]; [|done]. cbn [fst].
  unfold applyCacheTTLOverride. unfold in_range, counted in *. cbn in Hu.
  set (u1 := if _ && _ then u <| cu_CacheCreation5mTokens := _ |> else u).
  assert (H1 : counted (usage_tokens u1) /\ int64_range (cu_CacheReadInputTokens u1 + cu_InputTokens u1) /\
    0 <= cu_CacheCreation5mTokens u1 + cu_CacheCreation1hTokens u1 < 2 ^ 63).
  { subst u1. unfold counted, int64_range in *. destruct ((_ =? 0) && _ && _) eqn:E; cbn; [|lia].
    apply andb_true_iff in E as [[_ E]%andb_true_iff _]. apply Z.eqb_eq in E. lia. }
  clearbody u1. clear Hu Hr Hs Hc. destruct H1 as (Hu & Hr & Hs). unfold counted in *. cbn in Hu.
  rewrite add64_id by (unfold int64_range; lia). unfold int64_range in *. repeat case_match; cbn; lia.
Qed.

Lemma openai_counted u : sensible_openai u -> counted (openai_tokens u).
Proof. unfold sensible_openai, sensible, counted, openai_tokens. cbn. lia. Qed.

(** ** The two recordings *)

Lemma yields_gateway input opts : sensible_usage (fr_Usage (in_Result input)) -> fair_images (image_config (in_APIKey input)) -> known_key (in_APIKey input) ->
  yields (recordUsageCore env input opts) (fun _ => True).
Proof.
  intros Hu Hi Hk. unfold recordUsageCore. apply (yields_bind _ _ (fun _ => True)); [destruct (_ && _); yields_any|]. intros injected _.
  pose proof (adjusted_in_range (in_ForceCacheBilling input) injected (in_Account input) _ Hu) as Hr.
  destruct (override_ttl _ _ _) as [usage overridden]. cbn [fst] in Hr. cbv zeta. set (result := in_Result input <| fr_Usage := usage |>).
  apply (yields_bind _ _ (fun _ => True)); [apply yields_rate|]. intros multiplier _.
  apply (yields_bind _ _ fair_cost); [by apply yields_gateway_cost|]. intros cost Hc.
  destruct (missing_subscription _ _) eqn:Hm; [by apply yields_ret|].
  eapply yields_bind; [apply yields_stats; [by apply (fair_log_of_cost _ cost)|done]|]. intros l [Hl (stats & ->)].
  apply yields_bill_log; [|done|done]. intros rate Hrate. constructor; try done; [|apply BillingRateMultiplier_nonneg].
  by apply has_subscription.
Qed.

Lemma yields_openai input : sensible_openai (of_Usage (oi_Result input)) -> fair_images (image_config (oi_APIKey input)) -> known_key (oi_APIKey input) ->
  yields (OpenAI_RecordUsage env input) (fun _ => True).
Proof.
  intros Hu Hi Hk. unfold OpenAI_RecordUsage. cbv zeta. apply (yields_bind _ _ (fun _ => True)); [yields_any|]. intros _ _.
  destruct (no_usage _); [by apply yields_ret|]. pose proof (openai_counted _ Hu) as Ht.
  apply (yields_bind _ _ (fun _ => True)); [apply yields_rate|]. intros multiplier _.
  eapply yields_bind; [by apply yields_openai_cost|]. intros r Hr. pose proof (cost_or_zero_fair r Hr) as Hc.
  destruct (missing_subscription _ _) eqn:Hm; [by apply yields_ret|].
  eapply yields_bind; [apply yields_stats; [by apply (fair_log_of_cost _ (cost_or_zero r))|done]|]. intros l [Hl (stats & ->)].
  apply yields_bill_log; [|done|done]. intros rate Hrate. constructor; try done; [|apply BillingRateMultiplier_nonneg].
  by apply has_subscription.
Qed.

End Recording.

Lemma recording_start_sound p : may_start p -> knows allowed learned possible p [] (fun _ _ => True).
Proof.
  intros [env input opts Hu Hi Hk|env input Hu Hi Hk].
  - eapply (yields_bind _ _ (fun _ => True)); [by apply yields_gateway|]. intros. by apply yields_ret.
  - eapply (yields_bind _ _ (fun _ => True)); [by apply yields_openai|]. intros. by apply yields_ret.
Qed.

End Charges.

(** ** What is charged and written *)

Section Recordings.
Context {D : decimal_ops} {Q : sql_database} {C : circumstances}.
Context (next_reset : Z -> account -> Z -> option Z).

Abbreviation reachable := (rtc (step (answers next_reset) may_start)).

Lemma recording_inv w now s : Inv w -> reachable (mksystem w now []) s -> Inv (database s).
Proof.
  intros Hw. apply (invariant_reachable (answers next_reset) may_start holds allowed learned possible Inv); [|apply recording_start_sound|done].
  intros. by eapply recording_step_sound.
Qed.

(** C4: Whatever recordings run side by side, with whatever price files, channels,
    rates and failures of the database: if the files and the channels set no
    negative price, no cost that is written or charged is negative, and the
    shared table of fallback prices never gets a negative price. *)
Theorem recorded_costs_not_negative w now s : Inv w -> reachable (mksystem w now []) s ->
  Forall fair_log (logged (database s)) /\ Forall fair_command (charged (database s)) /\ fair_store (prices (database s)).
Proof.
  intros Hw Hr. destruct (recording_inv w now s Hw Hr) as [Hp _ Hc Hl]. split_and!; [done| |done].
  eapply Forall_impl; [exact Hc|]. by intros c [_ H].
Qed.

(** C3: Every command that reaches the repository charges what the log it carries
    says, for the same request, user and account, and for the key of a request
    and its group.  With a key of a subscription group the subscription, which
    then is there, is charged, and the wallet only pays a commission: nothing,
    unless the group is one that users set up for themselves, and then the part
    of the charge that the settings say, capped at the whole charge.  With any
    other key the wallet is charged and there is no commission.  And no request
    identifier of a key is charged twice. *)
Theorem recordings_charge_as_logged w now s : Inv w -> reachable (mksystem w now []) s ->
  Forall charged_as_logged (charged (database s)) /\ NoDup (billed (books (database s))).
Proof.
  intros Hw Hr. destruct (recording_inv w now s Hw Hr) as [_ Hb Hc _]. split; [|by apply UsageBillingSystem.inv_billed].
  eapply Forall_impl; [exact Hc|]. by intros c [H _].
Qed.

End Recordings.

(** ** Missing subscriptions *)

(** A monitor that lets nothing be billed or written. *)
Definition nothing_charged R (c : rcmd R) (r : R) (g : unit) : option unit :=
  match c with Bill _ | WriteLog _ => None | _ => Some g end.

Definition any_answer R (c : rcmd R) (r : R) : Prop := True.

Definition quiet {A} (p : recording A) (P : A -> Prop) : Prop := ends any_answer nothing_charged p tt (fun a _ => P a).

Lemma quiet_ret {A} (a : A) (P : A -> Prop) : P a -> quiet (mret a) P.
Proof. done. Qed.

Lemma quiet_bind {A B} (p : recording A) (f : A -> recording B) (P : B -> Prop) : quiet p (fun _ => True) -> (forall a, quiet (f a) P) -> quiet (p ≫= f) P.
Proof. intros Hp Hf. apply ends_bind. eapply ends_mono; [exact Hp|]. intros a [] _. apply Hf. Qed.

Lemma quiet_call {R} (c : rcmd R) : (forall r, nothing_charged R c r tt = Some tt) -> quiet (call c) (fun _ => True).
Proof. intros H. apply ends_call. intros r _. by exists tt. Qed.

(** Takes a program apart down to its commands and ends. *)
Ltac quiet :=
  repeat first
    [ apply quiet_call; done
    | apply quiet_ret; done
    | apply quiet_bind; [|intros ?]
    | match goal with |- quiet (when ?b _) _ => destruct b; unfold when end
    | match goal with |- quiet (if ?b then _ else _) _ => destruct b eqn:? end
    | match goal with |- quiet (let '(_, _) := ?x in _) _ => destruct x eqn:? end
    | match goal with |- quiet (match ?x with _ => _ end) _ => destruct x eqn:? end
    | progress cbv zeta ].

Lemma quiet_rate env k u : quiet (rate_of env k u) (fun _ => True).
Proof. unfold rate_of, userGroupRateResolver_Resolve. quiet. Qed.

Lemma quiet_pricing model key : quiet (resolveChannelPricing model key) (fun _ => True).
Proof. unfold resolveChannelPricing, with_channels. quiet. Qed.

Lemma quiet_gateway_cost result key model rate opts : quiet (calculateRecordUsageCost result key model rate opts) (fun _ => True).
Proof.
  unfold calculateRecordUsageCost, calculateImageCost, calculateTokenCost. cbv zeta.
  destruct (_ <? _); (apply quiet_bind; [apply quiet_pricing|intros ?]); quiet.
Qed.

Lemma quiet_openai_cost result key model rate tokens tier : quiet (calculateOpenAIRecordUsageCost result key model rate tokens tier) (fun _ => True).
Proof.
  unfold calculateOpenAIRecordUsageCost, calculateOpenAIImageCost. cbv zeta.
  set (by_tokens := match ak_Group key with Some g => _ | None => _ end).
  assert (Hby : quiet by_tokens (fun _ => True)) by (subst by_tokens; unfold with_channels; quiet). clearbody by_tokens.
  destruct (_ <? _); [|exact Hby]. apply quiet_bind; [apply quiet_pricing|]. intros x.
  destruct (match x with Some _ => _ | None => _ end); [|exact Hby]. apply quiet_bind; [|intros; quiet].
  apply quiet_bind; [apply quiet_pricing|]. intros y. quiet.
Qed.

(** The commands of a run that bill or write. *)
Definition charges (e : event rcmd) : bool := match e with Event (Bill _) _ | Event (WriteLog _) _ => true | _ => false end.

Lemma quiet_runs {A} (p : recording A) P tr a : quiet p P -> runs p tr a -> P a /\ Forall (fun e => charges e = false) tr.
Proof.
  intros Hp Hr. destruct (ends_runs any_answer nothing_charged p tt _ tr a Hp Hr) as ([] & Hw & Ha).
  { apply Forall_forall. intros [R c r] _. exact I. }
  split; [exact Ha|]. clear Hp Hr Ha. induction tr as [|[R c r] tr IH]; [constructor|]. cbn in Hw. unfold nothing_charged in Hw.
  destruct c; cbn in Hw; try discriminate Hw; (constructor; [done|by apply IH]).
Qed.

(** C38: A request of a subscription group is refused when there is no subscription:
    it is neither billed to the wallet nor written. *)
Theorem missing_subscription_refused env key tr r :
  is_subscription key = true ->
  (forall input opts, in_APIKey input = key -> in_Subscription input = None -> runs (recordUsageCore env input opts) tr r ->
     r = Some ErrSubscriptionNotFound /\ Forall (fun e => charges e = false) tr) /\
  (forall input, oi_APIKey input = key -> oi_Subscription input = None -> no_usage (oi_Result input) = false ->
     runs (OpenAI_RecordUsage env input) tr r -> r = Some ErrSubscriptionNotFound /\ Forall (fun e => charges e = false) tr).
Proof.
  intros Hs. assert (Hm : missing_subscription key None = true) by (unfold missing_subscription; by rewrite Hs). split.
  - intros input opts <- Hn Hr. refine (quiet_runs _ (fun r => r = Some ErrSubscriptionNotFound) _ _ _ Hr). unfold recordUsageCore.
    apply quiet_bind; [quiet|]. intros injected. destruct (override_ttl _ _ _) as [usage overridden]. cbv zeta.
    apply quiet_bind; [apply quiet_rate|]. intros multiplier. apply quiet_bind; [apply quiet_gateway_cost|]. intros cost.
    rewrite Hn, Hm. by apply quiet_ret.
  - intros input <- Hn Hu Hr. refine (quiet_runs _ (fun r => r = Some ErrSubscriptionNotFound) _ _ _ Hr). unfold OpenAI_RecordUsage. cbv zeta.
    apply quiet_bind; [quiet|]. intros _. rewrite Hu. apply quiet_bind; [apply quiet_rate|]. intros multiplier.
    apply quiet_bind; [apply quiet_openai_cost|]. intros cost. rewrite Hn, Hm. by apply quiet_ret.
Qed.
