(* ===== verification/UsageRecordingRuns.v ===== *)
(** * Concrete recordings

    What the theorems say of recordings over a database that never fails. *)

From Stdlib Require Import Floats.SpecFloat QArith.
From S2P Require Import Prelude GoStrings AppErrors PaymentData Decimals Transactions Program Interleaving ModelNames Channels.
From S2P Require Import ChannelsSpec UsageBilling UsageBillingSystem BillingService BillingSpec FairCosts UsageRecording.
From S2P Require Import UsageRecordingSpec UsageBillingRuns.
From S2P Require PricingService.

Open Scope Z_scope.

#[local] Existing Instance rational_decimals.
#[local] Existing Instance eight_places.

(** A calculation with the fallback prices only. *)
Definition serve_price {A} (m : option pricing_map -> (nat -> list (string * PricingService.LiteLLMModelPricing) ->
    list (string * PricingService.LiteLLMModelPricing)) -> ST store A) (st : Z * world) : A * (Z * world) :=
  let '(now, w) := st in
  let '(a, s) := m None in_order (prices w) in (a, (now, w <| prices := s |>)).

Definition a_tenth : float64 := f64_ratio 1 10.

(** Opus 4.5 costs nothing in group 1. *)
Definition serve_recording R (c : rcmd R) (st : Z * world) : R * (Z * world) :=
  let '(now, w) := st in
  match c in rcmd R return R * (Z * world) with
  | UsageRecording.Channels => (free_channel, st)
  | ResolvePrice model group => serve_price (fun file order => Resolve file order model group) st
  | UnifiedCost group input => serve_price (fun file order => CalculateCostUnified file order (Some group) input) st
  | TierCost model tokens rate tier => serve_price (fun file order => CalculateCostWithServiceTier file order model tokens rate tier) st
  | LongContextCost model tokens rate threshold extra =>
      serve_price (fun file order => CalculateCostWithLongContext file order model tokens rate threshold extra) st
  | ImageCost model size count config rate => serve_price (fun file order => mret (CalculateImageCost file order model size count config rate)) st
  | StatsCost first second accountID groupID upstreamModel requestedModel tokens totalCost =>
      serve_price (fun file order => accountStatsCost file order first second accountID groupID upstreamModel requestedModel tokens totalCost) st
  | CachedRate _ => (None, st)
  | RateOfUser _ _ => (Success None, st)
  | CacheRate _ _ => (tt, st)
  | CacheTTLInjected => (false, st)
  | CommissionRate => (Success a_tenth, st)
  | UsageRecording.ResolveEnabledAccountSharePolicy _ _ _ _ => (Success None, st)
  | Bill c =>
      let '(r, (_, db)) := run_alone serve (Apply (Some c)) (now, books w) in
      (some_result r, (now, w <| books := db |> <| charged := c :: charged w |>))
  | WriteLog l => (tt, (now, w <| logged := l :: logged w |>))
  | Tell n => (tt, (now, w <| told := n :: told w |>))
  end.

Lemma in_order_some : PricingService.some_order in_order.
Proof. by intros n l. Qed.

Lemma no_file_fair : fair_file None.
Proof. by intros data key l. Qed.

Lemma price_served {A} m now w : let '(a, (now', w')) := serve_price (A := A) m (now, w) in now' = now /\ priced m w a w'.
Proof.
  unfold serve_price. destruct (m None in_order (prices w)) as [a s] eqn:E. split; [done|].
  exists None, in_order. split; [apply no_file_fair|]. split; [apply in_order_some|]. by rewrite E.
Qed.

Lemma free_channel_published : published free_channel.
Proof.
  apply (is_published in_key_order in_key_order); [apply key_order|apply key_order| |repeat constructor].
  apply (bool_decide_unpack _). by vm_compute.
Qed.

Lemma applies_alone c now db : let '(r, (now', db')) := run_alone serve (Apply (Some c)) (now, db) in
  now' = now /\ applies_to no_reset c now db r db'.
Proof.
  destruct (run_alone serve (Apply (Some c)) (now, db)) as [r [now' db']] eqn:E.
  assert (Hn : now' = now).
  { revert E. unfold Apply. cbv zeta. destruct (_ =s? ""); [by intros [= _ <- _]|]. cbn. destruct (transaction _ _ _) as [r0 db0]. by intros [= _ <- _]. }
  subst now'. split; [done|]. exists serve. split; [apply bills_obey|exact E].
Qed.

(** ** A day *)

Definition a_group (id : Z) (kind scope : string) : Group := mkGroup id f64_one kind scope false f64_one (mkImagePrices None None None).
Definition a_key : APIKey := mkAPIKey 7 "sk" (Some 2) (Some (a_group 2 "standard" "public")) f64_zero f64_zero f64_zero f64_zero.
(** The key of a subscription group that a user set up. *)
Definition private_key : APIKey := mkAPIKey 9 "sk" (Some 4) (Some (a_group 4 "subscription" "user_private")) f64_zero f64_zero f64_zero f64_zero.

#[local] Instance two_keys : circumstances := mkCircumstances (fun k => k = a_key \/ k = private_key) (fun rate => rate = a_tenth).

Lemma recordings_obey : obeys (answers no_reset) serve_recording.
Proof.
  intros R c now w. destruct c; cbn [serve_recording]; try by apply price_served.
  all: match goal with
       | |- context [run_alone serve (Apply (Some ?c))] =>
           pose proof (applies_alone c now (books w)) as H; destruct (run_alone serve (Apply (Some c)) (now, books w)) as [r [now' db]];
           destruct H as [-> H]; split; [done|]; by exists r, db
       | |- context [Success a_tenth] => split; [done|]; split; [by intros rate [= <-]|done]
       | |- context [free_channel] => split; [done|]; split; [apply free_channel_published|done]
       | _ => by split
       end.
Qed.

Definition an_account : Account :=
  mkAccount 5 "oauth" "anthropic" "public" "approved" (Some 2) None None f64_zero f64_zero f64_zero false true "1h".

Definition a_usage : ClaudeUsage := mkClaudeUsage 100000 1000 0 0 0 0 0 0 f64_zero.

Definition forwarded (request model : string) : ForwardResult := mkForwardResult request a_usage model "" false 20 None None 0 "".

Definition some_user : User := mkUser 1 (f64_of_Z 10) false.

Definition a_recording (key : APIKey) (subscription : option Z) (request model : string) : recordUsageCoreInput :=
  mkInput (forwarded request model) key some_user an_account subscription "/v1/messages" "" "" "" "" false true (mkChannelFields 0 "" "" "" "").

Definition quiet_day : surroundings := mkSurroundings "" "" "r1" 50 f64_one false f64_zero.

Definition record_it (key : APIKey) (subscription : option Z) (request model : string) : recording unit :=
  _ ← recordUsageCore quiet_day (a_recording key subscription request model) (mkOpts 0 f64_zero); mret tt.

Definition opening : world := mkWorld initFallbackPricing a_market [] [] [].

(** The same answer of the upstream is recorded twice, and one for a subscription. *)
Definition recording_schedule : list (@action rcmd world) :=
  [Start (record_it a_key None "msg_1" "claude-opus-4-5"); Start (record_it a_key None "msg_1" "claude-opus-4-5");
   Run 0 serve_recording 9; Run 1 serve_recording 40; Run 0 serve_recording 40;
   Start (record_it private_key (Some 3) "msg_2" "claude-opus-4-5"); Run 2 serve_recording 40].

Definition recorded_day : system := foldl act (mksystem opening 50 []) recording_schedule.

Lemma recorded_day_reachable : rtc (step (answers no_reset) may_start) (mksystem opening 50 []) recorded_day.
Proof.
  apply schedule_reaches. repeat constructor; try apply recordings_obey; cbn; try lia; intros c p [= <-]; cbn; intuition discriminate.
Qed.

Lemma opening_inv : Inv opening.
Proof. split; [apply initial_fair|apply a_market_inv|constructor|constructor]. Qed.

(** Two logs of fifty cents and a bit. *)
Lemma recorded_costs_not_negative_witness :
  map lg_InputCost (logged (database recorded_day)) = [f64_half; f64_half] /\
  Forall fair_log (logged (database recorded_day)) /\ fair_store (prices (database recorded_day)).
Proof.
  split; [by vm_compute|]. destruct (recorded_costs_not_negative no_reset opening 50 recorded_day opening_inv recorded_day_reachable) as (Hl & _ & Hs).
  by split.
Defined.

(** Three commands, of which the second is not billed; the last one takes a tenth
    of the charge as commission from the wallet. *)
Lemma recordings_charge_as_logged_witness :
  let cost := f64_ratio 525 1000 in
  map (fun c => (RequestID c, BalanceCost c, SubscriptionCost c, PrivateGroupCommissionCost c)) (charged (database recorded_day)) =
    [("msg_2", f64_zero, cost, cost ⊗ a_tenth); ("msg_1", cost, f64_zero, f64_zero); ("msg_1", cost, f64_zero, f64_zero)] /\
  Forall charged_as_logged (charged (database recorded_day)) /\
  billed (books (database recorded_day)) = [("msg_1", 7)] /\ NoDup (billed (books (database recorded_day))).
Proof.
  destruct (recordings_charge_as_logged no_reset opening 50 recorded_day opening_inv recorded_day_reachable) as [Hc Hn].
  split; [by vm_compute|]. split; [exact Hc|]. split; [by vm_compute|exact Hn].
Defined.

Definition subscriber_key : APIKey := mkAPIKey 8 "sk" (Some 3) (Some (a_group 3 "subscription" "public")) f64_zero f64_zero f64_zero f64_zero.

Lemma missing_subscription_refused_witness :
  let run := trace serve_recording (recordUsageCore quiet_day (a_recording subscriber_key None "msg_2" "claude-opus-4-5") (mkOpts 0 f64_zero)) (50, opening) in
  length (fst run) = 8%nat /\ snd run = Some ErrSubscriptionNotFound /\ Forall (fun e => charges e = false) (fst run).
Proof.
  split; [by vm_compute|].
  apply (proj1 (missing_subscription_refused quiet_day subscriber_key _ _ eq_refl)
    (a_recording subscriber_key None "msg_2" "claude-opus-4-5") (mkOpts 0 f64_zero) eq_refl eq_refl (trace_runs _ _ _)).
Defined.
